(* ===== verification/_CoqProject ===== *)
-Q . S2P
Prelude.v
Types.v
Stream.v
Membuf.v
Ring.v
Buf.v
HttpUtil.v
Utf8.v
Target.v
HpackInt.v
Huffman.v
Hpack.v
Qpack.v
Respond.v
H1.v
H1Safe.v
H2.v
H2Safe.v
H2Pump.v
H2Run.v
H3.v
H3Parse.v
H3Request.v
H3Safe.v
H3Response.v
Server.v
ServerSafe.v
ServerRun.v
Url.v
HttpClient.v
Chunked.v
Head.v
ClientSafe.v
ClientRead.v
ClientServer.v
ClientRun.v
Serial.v
Crypto.v
WsKey.v
Ws.v
WsSafe.v
WsConnect.v
Init.v
Sock.v
Dns.v
Tls.v
Tcp.v
TcpSafe.v
Udp.v
UdpSafe.v
TlsOpenssl.v
TlsSafe.v
Archive.v
ArchiveSafe.v
Listen.v
NetFds.v
TlsMbed.v
TlsMbedSafe.v
