(* ===== verification/Prelude.v ===== *)
(** * zcio: a verified model of the C streaming I/O and HTTP library

    The library is a stack: byte streams over memory, rings, sockets and TLS;
    on them an HTTP/1.1 client, WebSocket sessions, a bit serializer; and an
    event-driven HTTP/1.1, HTTP/2 and HTTP/3 server whose protocol modules do
    no I/O of their own.  Each C file under [src/src] is modelled by one or more
    files here, function by function and under the C names; the files ending in
    [Safe], [Run], [Read] and the like hold the proofs about the file they
    extend.  This file is what all of them share: machine integers, memory,
    the outcome type, the allocator, tactics, hints and general lemmas.

    ** How the C code is read

    - Integers are [Z] with their wrap-around written out: [u8] to [u64] for
      the unsigned types, [i32] and [i64] for conversions to signed ones.
      [size_t] has 64 bits.
    - A C function is a Gallina function from the state it works on to its
      result and the new state; a pointer to a struct is the struct's record,
      an [enum] an inductive type or the C numbers, an output parameter a
      component of the result.  [NULL] is [None].
    - [exec A] is the outcome of a call: [Ok] with the value, [Fault] for
      undefined behaviour (an access outside an object, signed overflow, a
      call through a missing pointer), [OutOfFuel] for a loop cut short.  The
      theorems on termination show [Ok]; one that only excludes [Fault], where
      the environment may keep a loop going, says so.
    - Loops over data recurse on it.  Other loops take fuel, computed from what
      they consume: the input's length ([scan_loop], [frames_loop], [lines_loop]),
      a multiple of it where several turns go to one byte ([feed_loop],
      [chunk_loop]: a turn consumes a byte or moves to a later state), the
      number of table entries ([dec_evict_loop], [pump_loop]), the declared size
      ([data_loop]), the number of doublings of a 64-bit capacity ([grow_cap],
      [wbuf_cap]), the limit the C code has itself (redirects, write stalls).
      The theorems of each file show that the fuel is enough.  Where only the
      environment ends a loop, the class that describes it says what bounds it:
      [signals] for calls repeated after [EINTR], [accept_backlog] for the accept
      loop, [headers_left] for an archive's entries, [tickets_left] for session
      tickets.  Loops nothing bounds take
      their number of turns as an argument ([zcio_http_server_run]; [turns] of
      the TLS backends), and the theorems hold for every number.
    - Memory comes from the class [Allocator], which may refuse any request and
      hands out indeterminate bytes; theorems hold for every allocator
      unless they say what it grants.  Freeing is only modelled where it does
      something else as well, as closing a descriptor.

    ** Streams

    - [Types]: result codes, messages, the error slot, [zcio_strdup_], entropy
      ([include/zcio/types.h], [src/internal.h], [src/util.c]); [Init]:
      [zcio_init], as the steps of any number of threads.
    - [Stream] ([stream.c]): the table of optional operations, the dispatchers,
      [zcio_read_full], [zcio_write_full], [zcio_copy].  [Source] and [Sink] state
      what a backend promises; the theorems are proved against them.
    - [Membuf] ([membuf.c]) memory and counting streams, instances of both
      classes; [Ring] ([ring.c]) the single-producer single-consumer ring, as
      functions and (Module [Spsc]) as two threads whose steps are single
      memory accesses.
    - [Serial] ([serial.c]): bits, bytes, scalars and strings over a stream, a
      block or a counter.
    - [Crypto] ([crypto.c]): SHA-256, hexadecimal, and the wrappers of the
      vendored Ed25519 routines, which are the class [Ed25519].

    ** Sockets, names, TLS and archives

    - [Sock] ([socket_init.c]): the class [Sys] of system calls, which may
      fail with an [errno] or be interrupted; the clock, [zcio_poll_],
      [zcio_select_eintr].  [SysTime] and [SysIo] say what POSIX documents of
      time, signals and transfer sizes.  [ex_os] is a concrete instance.
    - [Dns] ([dns.c]) over [getaddrinfo]; [Tcp] ([tcp.c]) the socket stream,
      clients, the server with its table of connections; [Udp] ([udp.c],
      [mcast.c]) clients, the demultiplexing server, multicast.
    - [Tls] ([tls.c], [tls_none.c]): the table of a backend's operations and
      the functions that go through it.  [TlsOpenssl] ([tls_openssl.c]) is one
      such table: OpenSSL is the class [Openssl], whose calls are programs
      that may use the BIO, the transport is the class [Carrier].  [TlsMbed]
      ([tls_mbedtls.c]) is the other, over the class [Mbedtls]; its contexts
      are shared and counted, so they are objects of the world.
    - [Archive] ([archive.c]) over the class [Libarchive].
    - [Listen]: the listening sockets of the HTTP server ([make_listener] of
      [http_server.c], [h3_udp_bind] of [h3.c]).
    - [TcpSafe], [UdpSafe], [TlsSafe], [TlsMbedSafe], [ArchiveSafe], [NetFds]:
      their theorems.

    ** The HTTP server

    - [Buf], [HttpUtil], [Utf8], [Target] ([http_util.c], [http_internal.h]): the
      growable buffer, limits, header lists, validation, dates, UTF-8, request
      targets.  [HpackInt], [Huffman], [Hpack] ([hpack.c]) and [Qpack]
      ([qpack.c]): header compression.
    - [Respond] ([http_server.c]): the request object, the response policy and
      dispatch.  A protocol module is the class [Transport]; the user's handler
      is any program over the calls a handler can make ([hprog]), a field of
      the class [Server].
    - [H1] ([h1.c]), [H2] ([h2.c]), [H3] ([h3.c]): the three protocols.  The
      first two are functions from input bytes to output bytes and dispatched
      requests; the third works on the class [Quic], OpenSSL's QUIC engine.
      [H1Safe]; [H2Safe], [H2Pump], [H2Run]; [H3Parse], [H3Request], [H3Safe],
      [H3Response]: their theorems.
    - [Server] ([http_server.c]): connections, protocol selection, deadlines,
      accepting, poll, run, stop, start.  [Net] is what the loop needs of
      sockets, TLS streams and the clock, [Boot] what start and free need.
      [ServerSafe] and [ServerRun] prove what holds in every state start, poll
      and stop can reach, using the invariants of the three protocols.

    ** The clients

    - [Url] authorities, shared by both; [HttpClient] ([http.c]) requests,
      responses, chunked bodies, redirects, sessions; [Chunked], [Head],
      [ClientSafe], [ClientRead] what it reads, [ClientRun] what it does on the
      network, [ClientServer] that it reads what the server writes.
    - [WsKey], [Ws], [WsConnect] ([ws.c]): handshake values, frames and
      sessions, the two handshakes; [WsSafe] their theorems.

    ** What is shown

    - The server: a poll returns on every network, within its limits, with
      every connection in a state its protocol can go on from; a handler sees
      only requests that passed the checks of the protocol they came over
      ([request_checked] says which; HTTP/2 field values pass unchecked).  A
      poll keeps exactly the connections that are alive, not past their deadline
      and, while stopping, busy within the drain deadline, which does not bind
      HTTP/3.  Requests assemble and responses read back, however the bytes are
      cut.  HTTP/2 stays within both flow-control windows, HTTP/1.1 framing is
      never ambiguous.
    - The clients: calls end within redirects and deadlines, responses that
      carry a body are read as they were written, in any pieces, a session tries
      again exactly once and only after a failure, a broken connection is not
      reused, no redirect leads from a secure to a plain connection.
    - WebSocket: a client session stands on a stream that answered this
      attempt's request with its accept value; frames read back, messages reassemble within their limit, one
      Close is sent.
    - Streams and codecs: the ring is a FIFO under every interleaving; copies
      move exactly what they should; SHA-256 in pieces is SHA-256; HPACK and
      QPACK round trips, the dynamic table is a bounded FIFO; serialised values
      read back.
    - The network layer: waits end in time under any signals, and transfers
      answer by the rules [reads] and [writes]; the id table of the TCP server
      is a finite map with reuse; the UDP server is a table from senders to
      unread bytes; opening and accepting sockets leaks no descriptor on any
      path (the HTTP server's accept loop, over [Net], is not counted); a
      verifying TLS client holds no unverified stream; shared mbedTLS contexts
      and name lists live as long as they are held, provided the names are not
      cleared nor replaced while a stream's negotiated name is among them;
      archives read back as written.

    ** What is assumed and what is left out

    - The kernel, OpenSSL, mbedTLS, libarchive, the resolver and the vendored Ed25519 are
      classes.  Their laws are separate classes ([SysTime], [SysIo], [SysFds],
      [NetOk], [QuicOk], [OpensslOk], [MbedtlsOk], [CarrierOk], [TlsFds],
      [LibarchiveOk]) with an instance over a concrete world, at which the theorems are applied.
    - Windows branches, and the stubs of builds without OpenSSL or libarchive.
    - OpenSSL's making of self-signed certificates and its reference counts;
      the lock around mbedTLS's random generator.
    - The wake-up pipe and the OpenSSL calls that set up a QUIC listener, which
      only make system or library calls; they are operations of [Boot].
    - That a TLS handshake returns: assumed where the theorems on descriptors
      and connection ids use a backend.
    - The text of error messages and the thread-local slot outside [Types].
    - Reading the clock takes no time; [strtoll] saturates, as in glibc.  The
      number of connections served by a poll is not wrapped at [INT_MAX].
    - [bindings/], [zcio.hpp], tests and build files, which hold no logic of the
      library. *)
From Stdlib Require Import ZArith Lia Ascii String.
From stdpp Require Import base tactics list list_numbers numbers option strings.

#[global] Open Scope Z_scope.

(** ** Machine integers

    A [w]-bit unsigned integer is a [Z] reduced modulo [2 ^ w]; [size_t] and
    [uint64_t] are 64 bits wide (LP64). *)

Definition wrap (w z : Z) : Z := z mod 2 ^ w.
Abbreviation u8 := (wrap 8).
Abbreviation u16 := (wrap 16).
Abbreviation u32 := (wrap 32).
Abbreviation u64 := (wrap 64).

(** Conversion of a 64-bit pattern to [int64_t]. *)
Definition i64 (z : Z) : Z := (z + 2 ^ 63) mod 2 ^ 64 - 2 ^ 63.

Definition SIZE_MAX : Z := 2 ^ 64 - 1.
Definition UINT64_MAX : Z := 2 ^ 64 - 1.

(** ** Byte strings *)

Abbreviation bytes := (list Z).
Abbreviation zlen l := (Z.of_nat (length l)).
Abbreviation ztake n l := (take (Z.to_nat n) l).
Abbreviation zdrop n l := (drop (Z.to_nat n) l).

Definition is_byte (b : Z) : Prop := 0 ≤ b < 256.
Abbreviation is_bytes := (Forall is_byte).

#[global] Instance is_byte_dec b : Decision (is_byte b).
Proof. unfold is_byte. apply _. Defined.

(** The bytes of a C string literal (without its terminating NUL). *)
Fixpoint B (s : string) : bytes :=
  match s with
  | EmptyString => []
  | String a s' => Z.of_N (N_of_ascii a) :: B s'
  end.
Arguments B s%_string.

Definition slice {A} (off n : Z) (l : list A) : list A := ztake n (zdrop off l).

(** ** Executions

    [Ok a]: the code returned.  [Fault]: it touched memory outside the object
    (undefined behaviour in C).  [OutOfFuel]: the loop bound given to the
    model was too small. *)
Inductive exec (A : Type) : Type :=
  | Ok (a : A)
  | Fault
  | OutOfFuel.
Arguments Ok {A} a.
Arguments Fault {A}.
Arguments OutOfFuel {A}.

#[global] Instance exec_ret : MRet exec := λ A a, Ok a.
#[global] Instance exec_bind : MBind exec := λ A B f m,
  match m with Ok a => f a | Fault => Fault | OutOfFuel => OutOfFuel end.
#[global] Instance exec_fmap : FMap exec := λ A B f m,
  match m with Ok a => Ok (f a) | Fault => Fault | OutOfFuel => OutOfFuel end.

(** [memcpy] out of, and into, an object whose contents are [m]. *)
Definition mem_read (off n : Z) (m : bytes) : exec bytes :=
  if bool_decide (0 ≤ off ∧ 0 ≤ n ∧ off + n ≤ zlen m) then Ok (slice off n m) else Fault.

Definition mem_write (off : Z) (src m : bytes) : exec bytes :=
  if bool_decide (0 ≤ off ∧ off + zlen src ≤ zlen m)
  then Ok (ztake off m ++ src ++ zdrop (off + zlen src) m) else Fault.

(** Signed 64-bit addition: overflow is undefined behaviour. *)
Definition sadd64 (a b : Z) : exec Z :=
  if bool_decide (- 2 ^ 63 ≤ a + b < 2 ^ 63) then Ok (a + b) else Fault.

(** ** The heap allocator

    Which request sizes the C allocator grants, and the filler byte of the
    memory it hands out; nothing else about [malloc] is used. *)
Class Allocator := { alloc_ok : Z → bool; junk : Z }.

Definition malloc `{Allocator} (n : Z) : option bytes :=
  if alloc_ok n then Some (replicate (Z.to_nat n) junk) else None.

(** An allocator that never fails, for the concrete examples. *)
Definition always_alloc : Allocator := {| alloc_ok := λ _, true; junk := 170 |}.

(** ** Tactics *)

Ltac zlen_simpl :=
  repeat first [ rewrite length_app | rewrite length_take | rewrite length_drop
               | rewrite length_replicate | rewrite length_insert | rewrite length_fmap
               | progress cbn [length] ].
Ltac zlen_simpl_in H :=
  repeat first [ rewrite length_app in H | rewrite length_take in H
               | rewrite length_drop in H | rewrite length_replicate in H
               | rewrite length_insert in H | rewrite length_fmap in H
               | progress cbn [length] in H ].
(** Arithmetic on lengths of slices. *)
Ltac zl := unfold slice in *; zlen_simpl; lia.

(** Linear arithmetic over constant divisions. *)
Ltac dlia := Z.to_euclidean_division_equations; lia.

(** Turn the outcome of a boolean test into an arithmetic fact. *)
Ltac btest :=
  repeat match goal with
  | H : (_ && _)%bool = true |- _ => apply andb_prop in H; destruct H
  | H : (_ || _)%bool = false |- _ => apply orb_false_elim in H; destruct H
  | H : negb _ = true |- _ => apply negb_true_iff in H
  | H : negb _ = false |- _ => apply negb_false_iff in H
  | H : (_ <? _) = true |- _ => apply Z.ltb_lt in H
  | H : (_ <? _) = false |- _ => apply Z.ltb_ge in H
  | H : (_ <=? _) = true |- _ => apply Z.leb_le in H
  | H : (_ <=? _) = false |- _ => apply Z.leb_gt in H
  | H : (_ =? _) = true |- _ => apply Z.eqb_eq in H
  | H : (_ =? _) = false |- _ => apply Z.eqb_neq in H
  end.
(** Case analysis on the next boolean test of the goal. *)
Ltac bcase :=
  match goal with
  | |- context [if ?b then _ else _] =>
      match b with
      | context [if _ then _ else _] => fail 1
      | _ => destruct b eqn:?; btest
      end
  end.

(** Split a conjunction and close its routine parts. *)
Ltac ands := split_and!; try done; try congruence; try lia.

Create HintDb zcio.

(** ** Integer lemmas *)

Lemma wrap_small w z : 0 ≤ z < 2 ^ w → wrap w z = z.
Proof. apply Z.mod_small. Qed.

Lemma wrap_bound w z : 0 ≤ w → 0 ≤ wrap w z < 2 ^ w.
Proof. intros. apply Z.mod_pos_bound. lia. Qed.

Lemma u8_byte z : is_byte (u8 z).
Proof. apply (wrap_bound 8 z). lia. Qed.

Lemma i64_small z : - 2 ^ 63 ≤ z < 2 ^ 63 → i64 z = z.
Proof. intros. unfold i64. rewrite Z.mod_small; lia. Qed.

(** A modular reduction of a value less than twice the modulus. *)
Lemma mod_once a m : 0 < m → 0 ≤ a < 2 * m → a mod m = if a <? m then a else a - m.
Proof.
  intros Hm Ha. destruct (a <? m) eqn:E; btest.
  - apply Z.mod_small. lia.
  - symmetry. apply Z.mod_unique with 1; lia.
Qed.

Lemma testbit_byte_high b i : is_byte b → 8 ≤ i → Z.testbit b i = false.
Proof.
  intros Hb Hi. destruct (decide (b = 0)) as [-> | Hne]; [apply Z.bits_0 |].
  apply Z.bits_above_log2; [unfold is_byte in Hb; lia |].
  apply Z.log2_lt_pow2; [unfold is_byte in Hb; lia |].
  assert (2 ^ 8 ≤ 2 ^ i) by (apply Z.pow_le_mono_r; lia). unfold is_byte in Hb. lia.
Qed.

#[global] Hint Resolve u8_byte : zcio.
#[global] Hint Constructors Forall : zcio.

(** ** List lemmas *)

Lemma zlen_slice {A} off n (l : list A) :
  0 ≤ off → 0 ≤ n → off + n ≤ zlen l → zlen (slice off n l) = n.
Proof. intros. zl. Qed.

Lemma slice_all {A} n (l : list A) : n = zlen l → slice 0 n l = l.
Proof. intros ->. unfold slice. rewrite drop_0. apply take_ge. lia. Qed.

Lemma slice_app_split {A} off n m (l : list A) :
  0 ≤ off → 0 ≤ n → 0 ≤ m → slice off (n + m) l = slice off n l ++ slice (off + n) m l.
Proof.
  intros. unfold slice.
  rewrite Z2Nat.inj_add by lia. rewrite Z2Nat.inj_add by lia.
  rewrite <- drop_drop. rewrite take_take_drop. done.
Qed.

Lemma lookup_slice {A} off n (l : list A) i :
  0 ≤ off → 0 ≤ n → (Z.of_nat i < n) → slice off n l !! i = l !! (Z.to_nat off + i)%nat.
Proof. intros. unfold slice. rewrite lookup_take_lt by lia. apply lookup_drop. Qed.

Lemma lookup_slice_Z {A} off n (l : list A) i :
  0 ≤ off → 0 ≤ i < n → slice off n l !! Z.to_nat i = l !! Z.to_nat (off + i).
Proof. intros. rewrite lookup_slice by lia. f_equal. lia. Qed.

Lemma ztake_app_zlen {A} (l k : list A) n : n = zlen l → ztake n (l ++ k) = l.
Proof. intros ->. rewrite take_app_length' by lia. done. Qed.

Lemma zdrop_app_zlen {A} (l k : list A) n : n = zlen l → zdrop n (l ++ k) = k.
Proof. intros ->. rewrite drop_app_length' by lia. done. Qed.

Lemma mem_read_ok off n m :
  0 ≤ off → 0 ≤ n → off + n ≤ zlen m → mem_read off n m = Ok (slice off n m).
Proof. intros. unfold mem_read. rewrite bool_decide_true; [done | lia]. Qed.

Lemma mem_write_ok off src m :
  0 ≤ off → off + zlen src ≤ zlen m →
  mem_write off src m = Ok (ztake off m ++ src ++ zdrop (off + zlen src) m).
Proof. intros. unfold mem_write. rewrite bool_decide_true; [done | lia]. Qed.

Lemma mem_write_inv off src m m' :
  mem_write off src m = Ok m' →
  0 ≤ off ∧ off + zlen src ≤ zlen m ∧ m' = ztake off m ++ src ++ zdrop (off + zlen src) m.
Proof.
  unfold mem_write. case_bool_decide; intros H'; inversion H'; subst.
  split_and!; [lia | lia | done].
Qed.

(** What a write leaves at every index. *)
Lemma lookup_mem_write off src (m : bytes) i :
  0 ≤ off → off + zlen src ≤ zlen m → 0 ≤ i →
  (ztake off m ++ src ++ zdrop (off + zlen src) m) !! Z.to_nat i =
  if bool_decide (off ≤ i < off + zlen src) then src !! Z.to_nat (i - off) else m !! Z.to_nat i.
Proof.
  intros. case_bool_decide.
  - rewrite lookup_app_r by zl. rewrite lookup_app_l by zl. f_equal. zl.
  - destruct (decide (i < off)).
    + rewrite lookup_app_l by zl. rewrite lookup_take_lt by lia. done.
    + rewrite lookup_app_r by zl. rewrite lookup_app_r by zl. rewrite lookup_drop.
      f_equal. zl.
Qed.

Lemma length_mem_write off src (m : bytes) :
  0 ≤ off → off + zlen src ≤ zlen m →
  length (ztake off m ++ src ++ zdrop (off + zlen src) m) = length m.
Proof. intros. zl. Qed.

Lemma list_eq_Z {A} (l k : list A) :
  zlen l = zlen k → (∀ i, 0 ≤ i < zlen l → l !! Z.to_nat i = k !! Z.to_nat i) → l = k.
Proof.
  intros Hl Hi. apply list_eq. intros i. destruct (decide (i < length l)%nat).
  - specialize (Hi (Z.of_nat i)). rewrite Nat2Z.id in Hi. apply Hi. lia.
  - rewrite !lookup_ge_None_2 by lia. done.
Qed.

Lemma exec_bind_Ok {A C} (m : exec A) (f : A → exec C) b :
  m ≫= f = Ok b → ∃ a, m = Ok a ∧ f a = Ok b.
Proof. destruct m; simpl; intros H; try discriminate. eauto. Qed.

(** Reading and overwriting the middle of an object. *)
Lemma mem_read_at a b c o n :
  o = zlen a → n = zlen b → mem_read o n (a ++ b ++ c) = Ok b.
Proof.
  intros -> ->. rewrite mem_read_ok by zl. unfold slice.
  by rewrite zdrop_app_zlen, ztake_app_zlen.
Qed.

Lemma mem_write_at a b c w o :
  o = zlen a → zlen w = zlen b → mem_write o w (a ++ b ++ c) = Ok (a ++ w ++ c).
Proof.
  intros -> Hw. rewrite mem_write_ok by zl. rewrite ztake_app_zlen by done.
  do 3 f_equal. rewrite (app_assoc a b c), zdrop_app_zlen; [done | zl].
Qed.

Lemma forallb_map {A C} (f : C → bool) (g : A → C) l : forallb f (map g l) = forallb (λ x, f (g x)) l.
Proof. induction l as [|x l IH]; [done|]. cbn. by rewrite IH. Qed.

Lemma forallb_ext {A} (f g : A → bool) l : (∀ x, f x = g x) → forallb f l = forallb g l.
Proof. intros H. induction l as [|x l IH]; [done|]. cbn. by rewrite H, IH. Qed.

(** A decidable fact about every byte is checked by enumeration. *)
Lemma range_forall (f : Z → bool) n : forallb f (map Z.of_nat (seq 0 n)) = true →
  ∀ b, 0 ≤ b < Z.of_nat n → f b = true.
Proof.
  intros Hf b Hb. rewrite List.forallb_forall in Hf. apply Hf.
  apply List.in_map_iff. exists (Z.to_nat b). split; [lia|]. apply List.in_seq. lia.
Qed.

(** Or-ing numbers that occupy different bits adds them. *)
Lemma lor_shiftl_add k a b : 0 ≤ k → 0 ≤ b < 2 ^ k → Z.lor (Z.shiftl a k) b = a * 2 ^ k + b.
Proof.
  intros Hk Hb. rewrite <- Z.shiftl_mul_pow2, <- Z.add_lor_land by lia.
  enough (Z.land (Z.shiftl a k) b = 0) by lia. apply Z.bits_inj'. intros n Hn.
  rewrite Z.land_spec, Z.shiftl_spec, Z.bits_0 by lia. destruct (decide (n < k)).
  - by rewrite Z.testbit_neg_r by lia.
  - rewrite <- (Z.mod_small b (2 ^ k)), Z.mod_pow2_bits_high by lia. apply andb_false_r.
Qed.

(** ** Partial correctness: what holds of every value that is returned *)

Definition holds {A} (m : exec A) (Q : A → Prop) : Prop :=
  match m with Ok a => Q a | _ => True end.

Lemma holds_bind {A C} (m : exec A) (f : A → exec C) Q :
  holds m (λ a, holds (f a) Q) → holds (m ≫= f) Q.
Proof. by destruct m. Qed.

Lemma holds_mono {A} (m : exec A) (P Q : A → Prop) : holds m P → (∀ a, P a → Q a) → holds m Q.
Proof. destruct m; cbn; auto. Qed.

Lemma holds_any {A} (m : exec A) Q : (∀ a, Q a) → holds m Q.
Proof. intros HQ. destruct m; [apply HQ|done|done]. Qed.

Lemma holds_Ok {A} (a : A) m Q : m = Ok a → holds m Q → Q a.
Proof. by intros ->. Qed.

(** ** Long loops

    [run_upto step n s] takes at most [n] turns of [step] and stops at the
    first that ends in [inr]; the count is binary, so a bound of millions of
    turns costs nothing until they are taken. *)
Fixpoint run_upto {S R} (step : S → exec (S + R)) (n : positive) (s : S) : exec (S + R) :=
  let go n s := match s with inl s => run_upto step n s | inr r => Ok (inr r) end in
  match n with
  | xH => step s
  | xO n => s ← run_upto step n s; go n s
  | xI n => s ← step s; s ← go n s; go n s
  end.

(** A loop that may take [n] turns; [OutOfFuel]: it did not end. *)
Definition loop {S R} (step : S → exec (S + R)) (n : positive) (s : S) : exec R :=
  r ← run_upto step n s; match r with inl _ => OutOfFuel | inr r => Ok r end.

(** Total correctness: the execution ends with a value that satisfies [Q], or,
    where [F] allows it, in a fault. *)
Definition ends {A} (F : Prop) (m : exec A) (Q : A → Prop) : Prop :=
  match m with Ok a => Q a | Fault => F | OutOfFuel => False end.

Lemma ends_bind {A C} F (m : exec A) (f : A → exec C) Q :
  ends F m (λ a, ends F (f a) Q) → ends F (m ≫= f) Q.
Proof. by destruct m. Qed.

Lemma ends_mono {A} F (m : exec A) (P Q : A → Prop) : ends F m P → (∀ a, P a → Q a) → ends F m Q.
Proof. destruct m; cbn; auto. Qed.

Lemma ends_holds {A} F (m : exec A) Q : ends F m Q → holds m Q.
Proof. by destruct m. Qed.

Lemma ends_Ok {A} (m : exec A) Q : ends False m Q → ∃ a, m = Ok a ∧ Q a.
Proof. destruct m; [eauto|done..]. Qed.

Section Loop.
Context {S R : Type} (F : Prop) (step : S → exec (S + R)) (I : S → Prop) (m : S → Z) (Q : R → Prop).
Hypothesis Hm : ∀ s, I s → 0 ≤ m s.
Hypothesis Hstep : ∀ s, I s → ends F (step s) (λ o, match o with inl s' => I s' ∧ m s' < m s | inr r => Q r end).

Lemma run_upto_spec n s : I s →
  ends F (run_upto step n s) (λ o, match o with inl s' => I s' ∧ m s' + Z.pos n ≤ m s | inr r => Q r end).
Proof.
  revert s. induction n as [n IH|n IH|]; intros s Hs; cbn [run_upto].
  - apply ends_bind. eapply ends_mono; [by apply Hstep|]. intros [s1|r1]; cbn; [|done]. intros [Hs1 Hm1].
    apply ends_bind. eapply ends_mono; [by apply IH|]. intros [s2|r2]; cbn; [|done]. intros [Hs2 Hm2].
    eapply ends_mono; [by apply IH|]. intros [s3|r3]; cbn; [|done]. intros [Hs3 Hm3]. split; [done|lia].
  - apply ends_bind. eapply ends_mono; [by apply IH|]. intros [s1|r1]; cbn; [|done]. intros [Hs1 Hm1].
    eapply ends_mono; [by apply IH|]. intros [s2|r2]; cbn; [|done]. intros [Hs2 Hm2]. split; [done|lia].
  - eapply ends_mono; [by apply Hstep|]. intros [s1|r1]; cbn; [|done]. intros [Hs1 Hm1]. split; [done|lia].
Qed.

(** A loop with a measure below the bound ends. *)
Lemma loop_spec n s : I s → m s < Z.pos n → ends F (loop step n s) Q.
Proof.
  intros Hs Hn. unfold loop. apply ends_bind. eapply ends_mono; [by apply run_upto_spec|].
  intros [s1|r1]; cbn; [|done]. intros [Hs1 Hm1]. specialize (Hm s1 Hs1). lia.
Qed.
End Loop.

(** The same loop, its turns counted in unary. *)
Fixpoint run_turns {S R} (step : S → exec (S + R)) (n : nat) (s : S) : exec (S + R) :=
  match n with
  | O => Ok (inl s)
  | S n => r ← step s; match r with inl s => run_turns step n s | inr r => Ok (inr r) end
  end.

Lemma run_turns_add {S R} (step : S → exec (S + R)) n m s :
  run_turns step (n + m) s =
  (r ← run_turns step n s; match r with inl s => run_turns step m s | inr r => Ok (inr r) end).
Proof.
  revert s. induction n as [|n IH]; intros s; [done|]. cbn [Nat.add run_turns].
  destruct (step s) as [[s1|r]| |]; cbn [mbind exec_bind]; [apply IH|done..].
Qed.

Lemma run_upto_turns {S R} (step : S → exec (S + R)) n s : run_upto step n s = run_turns step (Pos.to_nat n) s.
Proof.
  revert s. induction n as [n IH|n IH|]; intros s; cbn [run_upto].
  - rewrite Pos2Nat.inj_xI. cbn [run_turns]. destruct (step s) as [[s1|r]| |]; cbn [mbind exec_bind]; try done.
    replace (2 * Pos.to_nat n)%nat with (Pos.to_nat n + Pos.to_nat n)%nat by lia.
    rewrite run_turns_add, <- IH. destruct (run_upto step n s1) as [[s2|r]| |]; cbn [mbind exec_bind]; try done.
  - rewrite Pos2Nat.inj_xO. replace (2 * Pos.to_nat n)%nat with (Pos.to_nat n + Pos.to_nat n)%nat by lia.
    rewrite run_turns_add, <- IH. destruct (run_upto step n s) as [[s2|r]| |]; cbn [mbind exec_bind]; try done.
  - change (Pos.to_nat 1) with 1%nat. cbn [run_turns]. destruct (step s) as [[s1|r]| |]; done.
Qed.

(** The turn that ends the loop. *)
Lemma run_upto_last {S R} (step : S → exec (S + R)) n k s s' r : (k < Pos.to_nat n)%nat →
  run_turns step k s = Ok (inl s') → step s' = Ok (inr r) → run_upto step n s = Ok (inr r).
Proof.
  intros Hk E1 E2. rewrite run_upto_turns. replace (Pos.to_nat n) with (k + Datatypes.S (Pos.to_nat n - k - 1))%nat by lia.
  rewrite run_turns_add, E1. cbn [mbind exec_bind run_turns]. by rewrite E2.
Qed.

(** Byte strings, decided. *)
Lemma bytes_dec s : forallb (λ b, (0 <=? b) && (b <? 256)) s = true → is_bytes s.
Proof.
  intros Hs. apply Forall_forall. intros b Hb%list_elem_of_In.
  rewrite List.forallb_forall in Hs. specialize (Hs b Hb). cbv beta in Hs. unfold is_byte. btest. lia.
Qed.
