(* ===== verification/Types.v ===== *)
(** * Types: result codes, seek constants and the process-wide helpers

    [include/zcio/types.h], [src/internal.h] and [src/util.c]: the result codes, their printable
    names, the 512-byte thread-local error slot, [zcio_strdup_] and the OS
    entropy loop. *)
From stdpp Require Import base tactics list option strings.
From Stdlib Require Import ZArith Lia.
From S2P Require Import Prelude.

(** ** Result codes and seek arguments *)

Definition ZCIO_OK : Z := 0.
Definition ZCIO_ERR : Z := -1.
Definition ZCIO_ERR_INVALID_ARG : Z := -2.
Definition ZCIO_ERR_CONNECT : Z := -3.
Definition ZCIO_ERR_TIMEOUT : Z := -4.
Definition ZCIO_ERR_EOF : Z := -5.
Definition ZCIO_ERR_TLS : Z := -6.
Definition ZCIO_ERR_ARCHIVE : Z := -7.
Definition ZCIO_ERR_NOMEM : Z := -8.
Definition ZCIO_ERR_UNSUPPORTED : Z := -9.
Definition ZCIO_ERR_WOULDBLOCK : Z := -10.
Definition ZCIO_ERR_DNS : Z := -11.
Definition ZCIO_ERR_PROTOCOL : Z := -12.

Inductive zcio_seek_origin := ZCIO_SEEK_SET | ZCIO_SEEK_CUR | ZCIO_SEEK_END.

(** The "which" mask: bit 0 selects the read cursor, bit 1 the write cursor. *)
Definition ZCIO_SEEK_READ : Z := 1.
Definition ZCIO_SEEK_WRITE : Z := 2.
Definition ZCIO_SEEK_BOTH : Z := Z.lor ZCIO_SEEK_READ ZCIO_SEEK_WRITE.

Definition zcio_result_str (r : Z) : bytes :=
  if r =? ZCIO_OK then B "ok"
  else if r =? ZCIO_ERR then B "error"
  else if r =? ZCIO_ERR_INVALID_ARG then B "invalid argument"
  else if r =? ZCIO_ERR_CONNECT then B "connection failed"
  else if r =? ZCIO_ERR_TIMEOUT then B "timed out"
  else if r =? ZCIO_ERR_EOF then B "end of stream"
  else if r =? ZCIO_ERR_TLS then B "tls error"
  else if r =? ZCIO_ERR_ARCHIVE then B "archive error"
  else if r =? ZCIO_ERR_NOMEM then B "out of memory"
  else if r =? ZCIO_ERR_UNSUPPORTED then B "unsupported"
  else if r =? ZCIO_ERR_WOULDBLOCK then B "would block"
  else if r =? ZCIO_ERR_DNS then B "dns failure"
  else if r =? ZCIO_ERR_PROTOCOL then B "protocol error"
  else B "unknown".

(** ** The error slot [g_err]

    [snprintf(g_err, 512, ...)] keeps at most 511 bytes. *)
Definition zcio_set_error_ (msg : option bytes) : bytes :=
  match msg with
  | None => []
  | Some m => ztake 511 m
  end.

(** [zcio_fail_] stores the formatted message and passes the code through; the
    other components only use the code. *)
Definition zcio_fail_ (code : Z) (formatted : bytes) : bytes * Z := (ztake 511 formatted, code).

(** ** Allocation helpers of internal.h *)

Definition zcio_xmalloc `{Allocator} (n : Z) : option bytes := malloc (if n =? 0 then 1 else n).

(** Whether [zcio_xmalloc(n)] returns an object. *)
Definition zcio_xmalloc_ok `{Allocator} (n : Z) : bool := alloc_ok (if n =? 0 then 1 else n).

Definition zcio_xcalloc_ok `{Allocator} (n sz : Z) : bool :=
  alloc_ok ((if n =? 0 then 1 else n) * (if sz =? 0 then 1 else sz)).

Definition zcio_strdup_ `{Allocator} (s : option bytes) : option bytes :=
  match s with
  | None => None
  | Some s =>
      let n := zlen s + 1 in
      if alloc_ok n then Some s else None
  end.

(** ** OS entropy: [getentropy] is asked for at most 256 bytes at a time

    [getentropy off n] is the system call (offset of the chunk, its size). *)
Fixpoint rand_bytes_loop (fuel : nat) (getentropy : Z → Z → option bytes) (got : bytes) (n : Z)
  : exec (Z * bytes) :=
  match fuel with
  | O => OutOfFuel
  | S fuel =>
      if 0 <? n then
        let chunk := if 256 <? n then 256 else n in
        match getentropy (zlen got) chunk with
        | None => Ok (ZCIO_ERR, got)
        | Some e => rand_bytes_loop fuel getentropy (got ++ e) (n - chunk)
        end
      else Ok (ZCIO_OK, got)
  end.

Definition zcio_rand_bytes_ (getentropy : Z → Z → option bytes) (dst_null : bool) (n : Z)
  : exec (Z * bytes) :=
  if dst_null && negb (n =? 0) then Ok (ZCIO_ERR_INVALID_ARG, [])
  else rand_bytes_loop (S (Z.to_nat n)) getentropy [] n.
