(* ===== verification/Stream.v ===== *)
(** * Stream: the vtable dispatch layer of [src/stream.c]

    A stream is a table of optional operations over a private context.  The
    dispatchers, the two "full" loops and the copy pump are translated as they
    are; what a backend promises to them is stated by the classes [Source] and
    [Sink], which the concrete backends implement. *)
From stdpp Require Import base tactics list option strings.
From Stdlib Require Import ZArith Lia.
From S2P Require Import Prelude Types.

(** ** Data: [zcio_stream_vtable] and [zcio_stream] *)

Record zcio_stream_vtable (C : Type) := {
  vt_name : bytes;
  vt_read : option (C → Z → exec (C * Z * bytes));   (* context, result, bytes stored *)
  vt_write : option (C → bytes → exec (C * Z));
  vt_seek : option (C → Z → zcio_seek_origin → Z → exec (C * Z));
  vt_flush : option (C → C * Z);
  vt_close : option (C → C * Z);
  vt_destroy : bool;
  vt_available : option (C → Z);
  vt_eof : option (C → bool);
}.
Arguments vt_name {C}. Arguments vt_read {C}. Arguments vt_write {C}.
Arguments vt_seek {C}. Arguments vt_flush {C}. Arguments vt_close {C}.
Arguments vt_destroy {C}. Arguments vt_available {C}. Arguments vt_eof {C}.

Record zcio_stream (C : Type) := mk_stream {
  s_vt : zcio_stream_vtable C;
  s_ctx : C;
  s_flags : Z;
}.
Arguments mk_stream {C}. Arguments s_vt {C}. Arguments s_ctx {C}. Arguments s_flags {C}.

Definition ZCIO_STREAM_OWNS_CTX : Z := 1.
Definition ZCIO_STREAM_READABLE : Z := 2.
Definition ZCIO_STREAM_WRITABLE : Z := 4.

Section Dispatch.
Context {C : Type}.
(** A possibly NULL [zcio_stream *]. *)
Abbreviation handle := (option (zcio_stream C)).

Definition with_ctx (s : zcio_stream C) (c : C) : zcio_stream C :=
  mk_stream (s_vt s) c (s_flags s).

Definition zcio_stream_new `{Allocator} (vt : option (zcio_stream_vtable C)) (ctx : C) (flags : Z)
  : handle :=
  match vt with
  | None => None
  | Some vt => if alloc_ok 24 then Some (mk_stream vt ctx flags) else None
  end.

(** The context handed to [vt->destroy], when [zcio_stream_free] calls it. *)
Definition zcio_stream_free (s : handle) : option C :=
  match s with
  | None => None
  | Some s =>
      if negb (Z.land (s_flags s) ZCIO_STREAM_OWNS_CTX =? 0) && vt_destroy (s_vt s)
      then Some (s_ctx s) else None
  end.

Definition zcio_read (s : handle) (dst_null : bool) (n : Z) : exec (handle * Z * bytes) :=
  match s with
  | None => Ok (s, ZCIO_ERR_INVALID_ARG, [])
  | Some st =>
      if dst_null then Ok (s, ZCIO_ERR_INVALID_ARG, [])
      else match vt_read (s_vt st) with
      | None => Ok (s, ZCIO_ERR_UNSUPPORTED, [])
      | Some rd =>
          if n =? 0 then Ok (s, 0, [])
          else '(c, r, d) ← rd (s_ctx st) n; Ok (Some (with_ctx st c), r, d)
      end
  end.

Definition zcio_write (s : handle) (src : option bytes) : exec (handle * Z) :=
  match s, src with
  | Some st, Some src =>
      match vt_write (s_vt st) with
      | None => Ok (s, ZCIO_ERR_UNSUPPORTED)
      | Some wr =>
          if zlen src =? 0 then Ok (s, 0)
          else '(c, r) ← wr (s_ctx st) src; Ok (Some (with_ctx st c), r)
      end
  | _, _ => Ok (s, ZCIO_ERR_INVALID_ARG)
  end.

Definition zcio_seek (s : handle) (off : Z) (origin : zcio_seek_origin) (which : Z)
  : exec (handle * Z) :=
  match s with
  | None => Ok (s, ZCIO_ERR_INVALID_ARG)
  | Some st =>
      match vt_seek (s_vt st) with
      | None => Ok (s, ZCIO_ERR_UNSUPPORTED)
      | Some sk => '(c, r) ← sk (s_ctx st) off origin which; Ok (Some (with_ctx st c), r)
      end
  end.

Definition zcio_flush (s : handle) : handle * Z :=
  match s with
  | None => (s, ZCIO_ERR_INVALID_ARG)
  | Some st =>
      match vt_flush (s_vt st) with
      | Some f => let '(c, r) := f (s_ctx st) in (Some (with_ctx st c), r)
      | None => (s, ZCIO_OK)
      end
  end.

Definition zcio_close (s : handle) : handle * Z :=
  match s with
  | None => (s, ZCIO_ERR_INVALID_ARG)
  | Some st =>
      match vt_close (s_vt st) with
      | Some f => let '(c, r) := f (s_ctx st) in (Some (with_ctx st c), r)
      | None => (s, ZCIO_OK)
      end
  end.

Definition zcio_available (s : handle) : Z :=
  match s with
  | None => ZCIO_ERR_INVALID_ARG
  | Some st => match vt_available (s_vt st) with Some f => f (s_ctx st) | None => 0 end
  end.

Definition zcio_stream_eof (s : handle) : bool :=
  match s with
  | None => true
  | Some st => match vt_eof (s_vt st) with Some f => f (s_ctx st) | None => false end
  end.

Definition zcio_stream_name (s : handle) : bytes :=
  match s with Some st => vt_name (s_vt st) | None => B "(null)" end.

(** ** The loops

    [acc] is what the destination holds so far; [got] is its length. *)
Fixpoint read_full_loop (fuel : nat) (s : handle) (n : Z) (acc : bytes) (got : Z)
  : exec (handle * Z * bytes) :=
  match fuel with
  | O => OutOfFuel
  | S fuel =>
      if got <? n then
        '(s', r, d) ← zcio_read s false (n - got);
        if r <? 0 then Ok (s', if got =? 0 then r else got, acc)
        else if r =? 0 then Ok (s', got, acc)
        else read_full_loop fuel s' n (acc ++ d) (got + r)
      else Ok (s, got, acc)
  end.

Definition zcio_read_full (s : handle) (n : Z) : exec (handle * Z * bytes) :=
  read_full_loop (S (Z.to_nat n)) s n [] 0.

Fixpoint write_full_loop (fuel : nat) (s : handle) (src : bytes) (put : Z) : exec (handle * Z) :=
  match fuel with
  | O => OutOfFuel
  | S fuel =>
      if put <? zlen src then
        '(s', r) ← zcio_write s (Some (zdrop put src));
        if r <? 0 then Ok (s', if put =? 0 then r else put)
        else if r =? 0 then Ok (s', put)
        else write_full_loop fuel s' src (put + r)
      else Ok (s, put)
  end.

Definition zcio_write_full (s : handle) (src : bytes) : exec (handle * Z) :=
  write_full_loop (S (length src)) s src 0.

End Dispatch.
Arguments zcio_write_full {C} s src.

(** The size of the bounce buffer of [zcio_copy]. *)
Definition COPY_BUF : Z := 16384.

Section Copy.
Context {C1 C2 : Type}.

Fixpoint copy_loop (fuel : nat) (dst : option (zcio_stream C1)) (src : option (zcio_stream C2))
    (limit total : Z) : exec (option (zcio_stream C1) * option (zcio_stream C2) * Z) :=
  match fuel with
  | O => OutOfFuel
  | S fuel =>
      let unbounded := limit =? SIZE_MAX in
      if unbounded || (total <? i64 limit) then
        let want := if negb unbounded && (u64 (limit - total) <? COPY_BUF)
                    then u64 (limit - total) else COPY_BUF in
        '(src', r, buf) ← zcio_read src false want;
        if r <? 0 then Ok (dst, src', if total =? 0 then r else total)
        else if r =? 0 then Ok (dst, src', total)
        else
          '(dst', w) ← zcio_write_full dst (ztake r buf);
          if w <? 0 then Ok (dst', src', if total =? 0 then w else total)
          else if w <? r then Ok (dst', src', total + w)
          else copy_loop fuel dst' src' limit (total + w)
      else Ok (dst, src, total)
  end.

Definition zcio_copy (fuel : nat) (dst : option (zcio_stream C1)) (src : option (zcio_stream C2))
    (limit : Z) : exec (option (zcio_stream C1) * option (zcio_stream C2) * Z) :=
  match dst, src with
  | Some _, Some _ => copy_loop fuel dst src limit 0
  | _, _ => Ok (dst, src, ZCIO_ERR_INVALID_ARG)
  end.

End Copy.

(** ** What a backend promises: sources and sinks

    [rem c] is what is still to be read from context [c]; [acc c] what has
    been stored in it and [room c] how many more bytes it takes.  Short
    transfers are allowed; a transfer of 0 bytes means end of data (or a full
    sink). *)
Class Source {C} (vt : zcio_stream_vtable C) (inv : C → Prop) (rem : C → bytes) : Prop :=
  source_read : ∀ c n, inv c → 0 < n →
    ∃ rd c' r, vt_read vt = Some rd ∧ rd c n = Ok (c', r, ztake r (rem c)) ∧ inv c' ∧
      0 ≤ r ≤ n ∧ r ≤ zlen (rem c) ∧ (r = 0 → rem c = []) ∧ rem c' = zdrop r (rem c).

Class Sink {C} (vt : zcio_stream_vtable C) (inv : C → Prop) (acc : C → bytes) (room : C → Z)
  : Prop :=
  sink_write : ∀ c src, inv c → src ≠ [] →
    ∃ wr c' r, vt_write vt = Some wr ∧ wr c src = Ok (c', r) ∧ inv c' ∧
      0 ≤ r ≤ zlen src ∧ r ≤ room c ∧ (r = 0 → room c = 0) ∧
      acc c' = acc c ++ ztake r src ∧ room c' = room c - r.

Section SourceFacts.
Context {C : Type} {vt : zcio_stream_vtable C} {inv : C → Prop} {rem : C → bytes}.
Context `{!Source vt inv rem}.
Variable fl : Z.

Lemma zcio_read_source c n :
  inv c → 0 < n →
  ∃ c' r, zcio_read (Some (mk_stream vt c fl)) false n
            = Ok (Some (mk_stream vt c' fl), r, ztake r (rem c)) ∧ inv c' ∧
    0 ≤ r ≤ n ∧ r ≤ zlen (rem c) ∧ (r = 0 → rem c = []) ∧ rem c' = zdrop r (rem c).
Proof.
  intros Hi Hn. destruct (source_read c n Hi Hn) as (rd & c' & r & Hvt & Hrd & H).
  exists c', r. unfold zcio_read. simpl. rewrite Hvt.
  rewrite (proj2 (Z.eqb_neq n 0)) by lia. rewrite Hrd. done.
Qed.

Lemma read_full_loop_source fuel c n acc got :
  inv c → (Z.to_nat (n - got) < fuel)%nat → 0 ≤ got →
  ∃ c', read_full_loop fuel (Some (mk_stream vt c fl)) n acc got
    = Ok (Some (mk_stream vt c' fl), got + zlen (ztake (n - got) (rem c)),
          acc ++ ztake (n - got) (rem c)) ∧
    inv c' ∧ rem c' = zdrop (n - got) (rem c).
Proof.
  revert c acc got. induction fuel as [|fuel IH]; intros c acc got Hi Hf Hg; [lia|].
  cbn [read_full_loop]. destruct (got <? n) eqn:E; btest.
  - destruct (zcio_read_source c (n - got) Hi) as (c' & r & -> & Hi' & Hr & Hl & H0 & Hrem); [lia|].
    cbn [mbind exec_bind]. bcase; [lia|]. bcase.
    + exists c'. rewrite Hrem, Heqb0, (H0 Heqb0). rewrite take_nil, !drop_nil, app_nil_r. simpl.
      rewrite Z.add_0_r. done.
    + destruct (IH c' (acc ++ ztake r (rem c)) (got + r)) as (c'' & -> & Hi'' & Hrem'');
        [done | lia | lia |].
      exists c''. rewrite Hrem'', Hrem.
      replace (n - got) with (r + (n - (got + r))) by lia.
      rewrite Z2Nat.inj_add by lia. rewrite <- app_assoc, take_take_drop, drop_drop.
      split_and!; [|done|done]. do 2 f_equal. f_equal. zl.
  - exists c. replace (Z.to_nat (n - got)) with 0%nat by lia. rewrite take_0, app_nil_r, drop_0. cbn [length].
    rewrite Z.add_0_r. done.
Qed.
End SourceFacts.

Section SinkFacts.
Context {C : Type} {vt : zcio_stream_vtable C} {inv : C → Prop} {acc : C → bytes} {room : C → Z}.
Context `{!Sink vt inv acc room}.
Variable fl : Z.

Lemma zcio_write_sink c src :
  inv c → src ≠ [] →
  ∃ c' r, zcio_write (Some (mk_stream vt c fl)) (Some src) = Ok (Some (mk_stream vt c' fl), r) ∧
    inv c' ∧ 0 ≤ r ≤ zlen src ∧ r ≤ room c ∧ (r = 0 → room c = 0) ∧
    acc c' = acc c ++ ztake r src ∧ room c' = room c - r.
Proof.
  intros Hi Hs. destruct (sink_write c src Hi Hs) as (wr & c' & r & Hvt & Hwr & H).
  exists c', r. unfold zcio_write. simpl. rewrite Hvt.
  rewrite (proj2 (Z.eqb_neq (zlen src) 0)); [|destruct src; simpl; [done | lia]].
  rewrite Hwr. done.
Qed.

Lemma write_full_loop_sink fuel c src put :
  inv c → 0 ≤ put ≤ zlen src → zlen src - put < Z.of_nat fuel → 0 ≤ room c →
  let k := Z.min (zlen src - put) (room c) in
  ∃ c', write_full_loop fuel (Some (mk_stream vt c fl)) src put
          = Ok (Some (mk_stream vt c' fl), put + k) ∧
    inv c' ∧ acc c' = acc c ++ ztake k (zdrop put src) ∧ room c' = room c - k.
Proof.
  revert c put. induction fuel as [|fuel IH]; intros c put Hi Hp Hf Hroom k; [lia|].
  cbn [write_full_loop]. destruct (put <? zlen src) eqn:E; btest.
  - destruct (zcio_write_sink c (zdrop put src) Hi) as (c' & r & -> & Hi' & Hr & Hl & H0 & Ha & Hm).
    { intros E'%(f_equal length). zlen_simpl_in E'. lia. }
    zlen_simpl_in Hr. cbn [mbind exec_bind]. bcase; [lia|]. bcase.
    + subst r. exists c'. assert (k = 0) as -> by lia.
      rewrite Ha, Hm, Z.add_0_r. done.
    + destruct (IH c' (put + r)) as (c'' & -> & Hi'' & Ha'' & Hm''); [done | lia | lia | lia |].
      exists c''. split_and!; [f_equal; f_equal; lia | done | | lia].
      rewrite Ha'', Ha, <- app_assoc. f_equal.
      replace k with (r + Z.min (zlen src - (put + r)) (room c')) by lia.
      rewrite (Z2Nat.inj_add r), (Z2Nat.inj_add put r) by lia.
      rewrite <- drop_drop, take_take_drop. done.
  - exists c. assert (k = 0) as -> by lia. rewrite Z.add_0_r. cbn [Z.to_nat]. rewrite take_0, app_nil_r.
    split_and!; [done..|lia].
Qed.

Lemma write_full_sink c src :
  inv c → 0 ≤ room c →
  let k := Z.min (zlen src) (room c) in
  ∃ c', zcio_write_full (Some (mk_stream vt c fl)) src = Ok (Some (mk_stream vt c' fl), k) ∧
    inv c' ∧ acc c' = acc c ++ ztake k src ∧ room c' = room c - k.
Proof.
  intros Hi Hr k. destruct (write_full_loop_sink (S (length src)) c src 0)
    as (c' & Hw & Hi' & Ha & Hm); [done | lia | lia | lia |].
  rewrite Z.sub_0_r, drop_0 in *. exists c'. done.
Qed.
End SinkFacts.

(** ** Copying from a source to a sink *)

(** How many bytes [zcio_copy] may move: [SIZE_MAX] means "until EOF". *)
Definition copy_bound (limit avail : Z) : Z := if limit =? SIZE_MAX then avail else limit.

Section CopyFacts.
Context {C1 C2 : Type} {vt1 : zcio_stream_vtable C1} {vt2 : zcio_stream_vtable C2}.
Context {inv1 : C1 → Prop} {acc : C1 → bytes} {room : C1 → Z}.
Context {inv2 : C2 → Prop} {rem : C2 → bytes}.
Context `{!Sink vt1 inv1 acc room} `{!Source vt2 inv2 rem}.
Variables fl1 fl2 : Z.
Hypothesis room_nonneg : ∀ c, inv1 c → 0 ≤ room c.

(** [L] bytes may still be moved. *)
Definition copy_left (limit total avail L : Z) : Prop :=
  (limit = SIZE_MAX ∧ avail ≤ L) ∨ (limit ≠ SIZE_MAX ∧ total ≤ limit < 2 ^ 63 ∧ L = limit - total).

Lemma copy_want limit total avail L :
  0 ≤ total → copy_left limit total avail L →
  ((limit =? SIZE_MAX) || (total <? i64 limit))%bool = true →
  let want := if negb (limit =? SIZE_MAX) && (u64 (limit - total) <? COPY_BUF)
              then u64 (limit - total) else COPY_BUF in
  0 < want ∧ (limit = SIZE_MAX ∨ want ≤ L).
Proof.
  intros Ht [[-> H] | (Hne & Hl & ->)] E want; unfold want, COPY_BUF.
  - simpl. lia.
  - rewrite (proj2 (Z.eqb_neq _ _) Hne) in *. cbn [orb negb andb] in *. btest.
    rewrite i64_small in E by lia. rewrite wrap_small by lia. bcase; lia.
Qed.

Lemma copy_stop limit total avail L :
  0 ≤ total → 0 ≤ avail → copy_left limit total avail L →
  ((limit =? SIZE_MAX) || (total <? i64 limit))%bool = false → L = 0.
Proof.
  intros Ht Ha [[-> H] | (Hne & Hl & ->)] E; [done|]. btest.
  rewrite i64_small in * by lia. lia.
Qed.

Lemma copy_loop_spec fuel c1 c2 limit total L :
  inv1 c1 → inv2 c2 → 0 ≤ total → (length (rem c2) < fuel)%nat →
  copy_left limit total (zlen (rem c2)) L →
  let k := Z.min (Z.min L (zlen (rem c2))) (room c1) in
  ∃ c1' c2' j,
    copy_loop fuel (Some (mk_stream vt1 c1 fl1)) (Some (mk_stream vt2 c2 fl2)) limit total
      = Ok (Some (mk_stream vt1 c1' fl1), Some (mk_stream vt2 c2' fl2), total + k) ∧
    acc c1' = acc c1 ++ ztake k (rem c2) ∧ room c1' = room c1 - k ∧
    k ≤ j ≤ L ∧ rem c2' = zdrop j (rem c2).
Proof.
  revert c1 c2 total L.
  induction fuel as [|fuel IH]; intros c1 c2 total L H1 H2 Ht Hf Hlim k; [lia|].
  pose proof (room_nonneg c1 H1) as Hroom.
  assert (0 ≤ L) as HL by (unfold copy_left in Hlim; lia).
  cbn [copy_loop]. destruct (_ || _)%bool eqn:E.
  2:{ pose proof (copy_stop limit total (zlen (rem c2)) L Ht (Nat2Z.is_nonneg _) Hlim E) as ->.
      exists c1, c2, 0. assert (k = 0) as -> by lia. rewrite Z.add_0_r, Z.sub_0_r.
      cbn [Z.to_nat]. rewrite take_0, drop_0, app_nil_r. split_and!; [done..|lia|lia|done]. }
  pose proof (copy_want _ _ _ _ Ht Hlim E) as [Hw0 Hwl]. cbv zeta in Hw0, Hwl.
  match type of Hw0 with 0 < ?w => set (want := w) in * end.
  destruct (zcio_read_source (vt := vt2) (inv := inv2) (rem := rem) fl2 c2 want H2 Hw0)
    as (c2' & r & -> & Hi2 & Hr & Hl & H0 & Hrem).
  assert (r ≤ L) as HrL by (destruct Hwl; unfold copy_left in Hlim; lia).
  cbn [mbind exec_bind]. bcase; [lia|]. bcase.
  { exists c1, c2', 0. assert (k = 0) as -> by (unfold k; rewrite (H0 Heqb0); simpl length; lia).
    rewrite Z.add_0_r, Z.sub_0_r. cbn [Z.to_nat]. rewrite take_0, app_nil_r.
    split_and!; [done..|lia|lia|rewrite Hrem, Heqb0; done]. }
  rewrite take_take, Nat.min_id.
  destruct (write_full_sink (vt := vt1) (inv := inv1) (acc := acc) (room := room) fl1 c1
              (ztake r (rem c2)) H1 Hroom) as (c1' & -> & Hi1 & Ha & Hm).
  replace (zlen (ztake r (rem c2))) with r in * by zl.
  rewrite take_take in Ha. cbn [mbind exec_bind].
  assert (Z.to_nat (Z.min r (room c1)) `min` Z.to_nat r = Z.to_nat (Z.min r (room c1)))%nat as Hmin
    by lia. rewrite Hmin in Ha. bcase; [lia|]. bcase.
  { exists c1', c2', r. assert (Z.min r (room c1) = k) as Hk by (unfold k; lia).
    rewrite Hk in *. split_and!; [done..|lia|lia|done]. }
  assert (r ≤ room c1) by lia. replace (Z.min r (room c1)) with r in * by lia.
  destruct (IH c1' c2' (total + r) (L - r)) as (c1'' & c2'' & j & -> & Ha'' & Hm'' & Hj & Hr'');
    [done | done | lia | rewrite Hrem; zl | rewrite Hrem; unfold copy_left in *; zlen_simpl; lia |].
  rewrite Hrem, Ha, Hm in *. clear IH.
  assert (k = r + Z.min (Z.min (L - r) (zlen (zdrop r (rem c2)))) (room c1 - r)) as Hk by zl.
  rewrite <- Z.add_assoc, <- Hk. exists c1'', c2'', (r + j).
  split_and!; [done| |lia|lia|lia|rewrite Hr'', drop_drop; f_equal; lia].
  rewrite Ha'', <- app_assoc, Hk. f_equal. rewrite (Z2Nat.inj_add r) by (zlen_simpl; lia).
  apply take_take_drop.
Qed.
End CopyFacts.

(** ** Properties *)

(** Over any source, whatever short reads it makes, [zcio_read_full]
    returns exactly the next [min n available] bytes, in order, and leaves the
    source just after them; the loop always terminates. *)
Theorem zcio_read_full_exact {C} (vt : zcio_stream_vtable C) inv rem
  (Hsrc : Source vt inv rem) fl c n (Hinv : inv c) (Hn : 0 ≤ n) :
  ∃ c', zcio_read_full (Some (mk_stream vt c fl)) n
    = Ok (Some (mk_stream vt c' fl), Z.min n (zlen (rem c)), ztake n (rem c)) ∧
    inv c' ∧ rem c' = zdrop n (rem c).
Proof.
  destruct (read_full_loop_source (vt := vt) fl (S (Z.to_nat n)) c n [] 0)
    as (c' & H & Hi & Hr); [done | lia | lia |].
  rewrite Z.sub_0_r in *. exists c'. unfold zcio_read_full. rewrite H.
  split_and!; [|done|done]. do 3 f_equal. zl.
Qed.

(** C37: [zcio_copy] from any source to any sink moves the first
    [min (limit, available, room)] bytes unchanged, for a limit below [2 ^ 63]
    or [SIZE_MAX], which means no limit, and consumes no more of the source than the limit allows. *)
Theorem zcio_copy_moves {C1 C2} (vt1 : zcio_stream_vtable C1) (vt2 : zcio_stream_vtable C2)
  inv1 acc room inv2 rem (Hsink : Sink vt1 inv1 acc room) (Hsrc : Source vt2 inv2 rem)
  (Hroom : ∀ c, inv1 c → 0 ≤ room c) fl1 fl2 c1 c2 limit fuel
  (H1 : inv1 c1) (H2 : inv2 c2) (Hlim : limit = SIZE_MAX ∨ 0 ≤ limit < 2 ^ 63)
  (Hfuel : (length (rem c2) < fuel)%nat) :
  let avail := if limit =? SIZE_MAX then zlen (rem c2) else Z.min limit (zlen (rem c2)) in
  let k := Z.min avail (room c1) in
  ∃ c1' c2' j,
    zcio_copy fuel (Some (mk_stream vt1 c1 fl1)) (Some (mk_stream vt2 c2 fl2)) limit
      = Ok (Some (mk_stream vt1 c1' fl1), Some (mk_stream vt2 c2' fl2), k) ∧
    acc c1' = acc c1 ++ ztake k (rem c2) ∧ k ≤ j ∧ rem c2' = zdrop j (rem c2) ∧
    (limit = SIZE_MAX ∨ j ≤ limit).
Proof.
  intros avail k.
  set (L := if limit =? SIZE_MAX then zlen (rem c2) else limit).
  destruct (copy_loop_spec (vt1 := vt1) (vt2 := vt2) fl1 fl2 Hroom fuel c1 c2 limit 0 L)
    as (c1' & c2' & j & H & Ha & _ & Hj & Hr); [done | done | lia | done | |].
  - unfold copy_left, L. destruct (Z.eqb_spec limit SIZE_MAX); lia.
  - assert (Z.min (Z.min L (zlen (rem c2))) (room c1) = k) as Hk
      by (unfold L, k, avail; destruct (limit =? SIZE_MAX); lia).
    rewrite Hk in *. exists c1', c2', j. split_and!; [done | done | lia | done |].
    unfold L in Hj. destruct (Z.eqb_spec limit SIZE_MAX); [by left | right; lia].
Qed.

(** A finite limit of [2 ^ 63] bytes or more (and below [SIZE_MAX]) is cast
    to a negative [int64_t], so [zcio_copy] returns 0 without reading or
    writing anything, although the header promises "up to limit bytes". *)
Theorem zcio_copy_huge_limit {C1 C2} (dst : zcio_stream C1) (src : zcio_stream C2) limit fuel
  (Hlim : 2 ^ 63 ≤ limit < SIZE_MAX) (Hfuel : (0 < fuel)%nat) :
  zcio_copy fuel (Some dst) (Some src) limit = Ok (Some dst, Some src, 0).
Proof.
  destruct fuel as [|fuel]; [lia|]. unfold zcio_copy. cbn [copy_loop].
  unfold SIZE_MAX in *. rewrite (proj2 (Z.eqb_neq _ _)) by lia. cbn [orb].
  replace (0 <? i64 limit) with false; [done|]. symmetry. apply Z.ltb_ge.
  unfold i64. rewrite mod_once by lia. destruct (_ <? _) eqn:E; btest; lia.
Qed.
