(* ===== verification/Membuf.v ===== *)
(** * Membuf: memory views and counting streams ([src/membuf.c])

    The context is the C struct; [m_data = None] is a NULL data pointer (a
    pure counting stream).  [memory_source] and [memory_sink] show that the
    memory stream keeps the promises of [Stream.Source] and [Stream.Sink]. *)
From stdpp Require Import base tactics list option strings.
From Stdlib Require Import ZArith Lia.
From S2P Require Import Prelude Types Stream.

Record membuf := mk_membuf {
  m_data : option bytes;
  m_size : Z;
  m_rpos : Z;
  m_wpos : Z;
  m_total_read : Z;
  m_total_written : Z;
  m_counting : bool;
}.

Definition mb_read (m : membuf) (n : Z) : exec (membuf * Z * bytes) :=
  match m_data m with
  | Some data =>
      let avail := u64 (m_size m - m_rpos m) in
      let k := if n <? avail then n else avail in
      d ← mem_read (m_rpos m) k data;
      Ok (mk_membuf (m_data m) (m_size m) (m_rpos m + k) (m_wpos m)
            (m_total_read m + k) (m_total_written m) (m_counting m), k, d)
  | None => Ok (m, 0, [])
  end.

Definition mb_write (m : membuf) (src : bytes) : exec (membuf * Z) :=
  let n := zlen src in
  match m_data m with
  | Some data =>
      let avail := u64 (m_size m - m_wpos m) in
      let k := if n <? avail then n else avail in
      data' ← mem_write (m_wpos m) (ztake k src) data;
      Ok (mk_membuf (Some data') (m_size m) (m_rpos m) (m_wpos m + k)
            (m_total_read m) (m_total_written m + k) (m_counting m), k)
  | None =>
      Ok (mk_membuf None (m_size m) (m_rpos m) (m_wpos m)
            (m_total_read m) (m_total_written m + n) (m_counting m), n)
  end.

(** [if (p < 0) p = 0; if (p > size) p = size;] *)
Definition mb_clamp (size p : Z) : Z :=
  let p := if p <? 0 then 0 else p in if size <? p then size else p.

(** [int64_t p = base + off; clamp; *cursor = p], for a selected cursor. *)
Definition mb_seek_cursor (selected : bool) (size base off cur : Z) : exec Z :=
  if selected then p ← sadd64 base off; Ok (mb_clamp size p) else Ok cur.

Definition mb_seek (m : membuf) (off : Z) (origin : zcio_seek_origin) (which : Z)
  : exec (membuf * Z) :=
  let base cur := match origin with
                  | ZCIO_SEEK_CUR => cur | ZCIO_SEEK_END => m_size m | ZCIO_SEEK_SET => 0 end in
  let do_r := negb (Z.land which ZCIO_SEEK_READ =? 0) in
  let do_w := negb (Z.land which ZCIO_SEEK_WRITE =? 0) in
  rp ← mb_seek_cursor do_r (m_size m) (base (m_rpos m)) off (m_rpos m);
  wp ← mb_seek_cursor do_w (m_size m) (base (m_wpos m)) off (m_wpos m);
  Ok (mk_membuf (m_data m) (m_size m) rp wp (m_total_read m) (m_total_written m) (m_counting m),
      if do_w then wp else if do_r then rp else -1).

Definition mb_avail (m : membuf) : Z :=
  match m_data m with Some _ => m_size m - m_rpos m | None => 0 end.

Definition MEM_VT : zcio_stream_vtable membuf := {|
  vt_name := B "memory"; vt_read := Some mb_read; vt_write := Some mb_write;
  vt_seek := Some mb_seek; vt_flush := None; vt_close := None; vt_destroy := true;
  vt_available := Some mb_avail; vt_eof := None |}.

Definition COUNT_VT : zcio_stream_vtable membuf := {|
  vt_name := B "counting"; vt_read := Some mb_read; vt_write := Some mb_write;
  vt_seek := Some mb_seek; vt_flush := None; vt_close := None; vt_destroy := true;
  vt_available := Some mb_avail; vt_eof := None |}.

(** The struct is zero-initialised by [zcio_xcalloc]. *)
Definition mb_new `{Allocator} (data : option bytes) (size : Z) (counting : bool) : option membuf :=
  if zcio_xcalloc_ok 1 56 then Some (mk_membuf data size 0 0 0 0 counting) else None.

Definition zcio_memory_stream `{Allocator} (data : option bytes) (size : Z)
  : option (zcio_stream membuf) :=
  match data with
  | None => None
  | Some _ =>
      match mb_new data size false with
      | None => None
      | Some m => zcio_stream_new (Some MEM_VT) m
          (Z.lor ZCIO_STREAM_OWNS_CTX (Z.lor ZCIO_STREAM_READABLE ZCIO_STREAM_WRITABLE))
      end
  end.

Definition zcio_counting_stream `{Allocator} (data : option bytes) (size : Z)
  : option (zcio_stream membuf) :=
  match mb_new data (match data with Some _ => size | None => 0 end) true with
  | None => None
  | Some m => zcio_stream_new (Some COUNT_VT) m
      (Z.lor ZCIO_STREAM_OWNS_CTX (Z.lor ZCIO_STREAM_READABLE ZCIO_STREAM_WRITABLE))
  end.

(** The vtable identity test [s->vt != &COUNT_VT] is a comparison of names: no
    other table of the program is named "counting". *)
Definition is_count_vt (s : zcio_stream membuf) : bool :=
  bool_decide (vt_name (s_vt s) = B "counting").

Definition zcio_counting_bytes_written (s : option (zcio_stream membuf)) : Z :=
  match s with
  | Some st => if is_count_vt st then m_total_written (s_ctx st) else ZCIO_ERR_INVALID_ARG
  | None => ZCIO_ERR_INVALID_ARG
  end.

Definition zcio_counting_bytes_read (s : option (zcio_stream membuf)) : Z :=
  match s with
  | Some st => if is_count_vt st then m_total_read (s_ctx st) else ZCIO_ERR_INVALID_ARG
  | None => ZCIO_ERR_INVALID_ARG
  end.

(** ** Invariant: the cursors stay inside the view *)

Definition mb_wf (m : membuf) : Prop :=
  0 ≤ m_rpos m ≤ m_size m ∧ 0 ≤ m_wpos m ≤ m_size m ∧ m_size m < 2 ^ 63 ∧
  match m_data m with Some d => zlen d = m_size m | None => m_size m = 0 end.

(** A view over memory (not a pure counter). *)
Definition mb_mem (m : membuf) : Prop := mb_wf m ∧ is_Some (m_data m).

Definition mb_bytes (m : membuf) : bytes := default [] (m_data m).
Definition mb_rem (m : membuf) : bytes := zdrop (m_rpos m) (mb_bytes m).
Definition mb_acc (m : membuf) : bytes := ztake (m_wpos m) (mb_bytes m).
Definition mb_room (m : membuf) : Z := m_size m - m_wpos m.

#[export] Instance memory_source : Source MEM_VT mb_mem mb_rem.
Proof.
  intros [data size rp wp tr tw cnt] n [Hwf [d Hd]] Hn. simpl in Hd. subst data.
  unfold mb_wf, mb_rem, mb_bytes in *. simpl in *. destruct Hwf as (Hr & Hw & Hs & Hl).
  exists mb_read. unfold mb_read. simpl. rewrite wrap_small by lia.
  set (k := if n <? size - rp then n else size - rp).
  assert (0 ≤ k ≤ n ∧ k ≤ size - rp ∧ (k = 0 → size = rp)) as (H1 & H2 & H3)
    by (unfold k; bcase; lia).
  rewrite mem_read_ok by lia. simpl. eexists _, k. split_and!; [done|done|..]; simpl; try lia.
  - split; [|eauto]. unfold mb_wf. simpl. lia.
  - zl.
  - intros ->%H3. rewrite drop_ge by lia. done.
  - rewrite drop_drop. f_equal. lia.
Qed.

#[export] Instance memory_sink : Sink MEM_VT mb_mem mb_acc mb_room.
Proof.
  intros [data size rp wp tr tw cnt] src [Hwf [d Hd]] Hsrc. simpl in Hd. subst data.
  unfold mb_wf, mb_acc, mb_room, mb_bytes in *. simpl in *. destruct Hwf as (Hr & Hw & Hs & Hl).
  exists mb_write. unfold mb_write. simpl. rewrite wrap_small by lia.
  set (k := if _ <? size - wp then _ else size - wp).
  assert (0 ≤ k ≤ zlen src ∧ k ≤ size - wp) as (H1 & H2) by (unfold k; bcase; lia).
  assert (k = 0 → size = wp) as H3.
  { destruct src; [done|]. unfold k. cbn [length]. bcase; lia. }
  assert (zlen (ztake k src) = k) as Hk by zl.
  rewrite mem_write_ok by lia. simpl. eexists _, k. split_and!; [done|done|..]; simpl; try lia.
  - split; [|eauto]. unfold mb_wf. simpl. split_and!; try lia. zl.
  - rewrite app_assoc, take_app_length'; [done | zl].
Qed.

(** ** Properties *)

Lemma mb_clamp_range size p : 0 ≤ size → 0 ≤ mb_clamp size p ≤ size.
Proof. intros. unfold mb_clamp. repeat bcase; lia. Qed.

Lemma mb_read_wf m n m' r d :
  0 ≤ n → mb_wf m → mb_read m n = Ok (m', r, d) → mb_wf m' ∧ mb_rem m' = zdrop r (mb_rem m).
Proof.
  destruct m as [[data|] size rp wp tr tw cnt]; unfold mb_wf, mb_read, mb_rem, mb_bytes; simpl.
  - intros Hn (Hr & Hw & Hs & Hl). rewrite wrap_small by lia.
    set (k := if n <? size - rp then n else size - rp).
    assert (0 ≤ k ≤ size - rp) by (unfold k; bcase; lia).
    rewrite mem_read_ok by lia. intros [= <- <- <-]. simpl. split; [lia|].
    rewrite drop_drop. f_equal. lia.
  - intros Hn Hwf [= <- <- <-]. done.
Qed.

Lemma mb_write_wf m src m' r : mb_wf m → mb_write m src = Ok (m', r) → mb_wf m'.
Proof.
  destruct m as [[data|] size rp wp tr tw cnt]; unfold mb_wf, mb_write; simpl.
  - intros (Hr & Hw & Hs & Hl). rewrite wrap_small by lia.
    set (k := if _ <? size - wp then _ else size - wp).
    assert (0 ≤ k ≤ size - wp ∧ k ≤ zlen src) by (unfold k; bcase; lia).
    assert (zlen (ztake k src) = k) as Hk by zl.
    rewrite mem_write_ok by lia. intros [= <- <-]. simpl. split_and!; try lia. zl.
  - intros Hwf [= <- <-]. done.
Qed.


(** Every operation of a well-formed memory or counting stream is memory
    safe and keeps both cursors inside the view: a read or a write always
    returns, with the stream well formed, and so does every seek whose target
    does not overflow [int64_t]; the cursor it reports lies in [0, size]. *)
Theorem membuf_ops_safe (m : membuf) (Hwf : mb_wf m) :
  (∀ n, 0 ≤ n → ∃ m' d, mb_read m n = Ok (m', zlen d, d) ∧ mb_wf m') ∧
  (∀ src, ∃ m' r, mb_write m src = Ok (m', r) ∧ 0 ≤ r ≤ zlen src ∧ mb_wf m') ∧
  (∀ off origin, - 2 ^ 63 ≤ off < 2 ^ 63 - m_size m →
     ∃ m' r, mb_seek m off origin ZCIO_SEEK_BOTH = Ok (m', r) ∧ 0 ≤ r ≤ m_size m ∧ mb_wf m').
Proof.
  split_and!.
  - intros n Hn. destruct m as [[data|] size rp wp tr tw cnt] eqn:Em.
    + pose proof Hwf as (Hr & Hw & Hs & Hl). simpl in *.
      assert (∃ m' r d, mb_read m n = Ok (m', r, d) ∧ r = zlen d) as (m' & r & d & Hm & ->).
      { rewrite Em. unfold mb_read. simpl. rewrite wrap_small by lia.
        rewrite mem_read_ok by (repeat bcase; lia). simpl. do 3 eexists. split; [done|].
        rewrite zlen_slice; [done|..]; repeat bcase; lia. }
      subst m. exists m', d. split; [done|]. by eapply mb_read_wf.
    + eexists _, []. done.
  - intros src. assert (∃ m' r, mb_write m src = Ok (m', r) ∧ 0 ≤ r ≤ zlen src) as (m' & r & Hm & Hr).
    { pose proof Hwf as (Hr & Hw & Hs & Hl). destruct m as [[data|] size rp wp tr tw cnt].
      - unfold mb_write. simpl in *. rewrite wrap_small by lia.
        rewrite mem_write_ok; [|lia|zlen_simpl; repeat bcase; lia]. simpl. do 2 eexists. split; [done|].
        bcase; lia.
      - do 2 eexists. split; [done|]. lia. }
    exists m', r. split; [done|]. split; [lia|]. by eapply mb_write_wf.
  - intros off origin Ho. pose proof Hwf as (Hr & Hw & Hs & Hl).
    unfold mb_seek, mb_seek_cursor, sadd64. cbn [negb Z.land ZCIO_SEEK_BOTH Z.eqb].
    assert (∀ cur, 0 ≤ cur ≤ m_size m → bool_decide (- 2 ^ 63 ≤ match origin with
      | ZCIO_SEEK_CUR => cur | ZCIO_SEEK_END => m_size m | ZCIO_SEEK_SET => 0 end + off < 2 ^ 63)
      = true) as Hb by (intros; apply bool_decide_true; destruct origin; lia).
    simpl negb. cbv iota. rewrite !Hb by lia. cbn [mbind exec_bind].
    eexists _, _. split; [done|]. split; [by apply mb_clamp_range; lia|].
    unfold mb_wf. simpl. split_and!; try (apply mb_clamp_range; lia); [lia|done].
Qed.

(** A relative seek is computed as [base + off] in [int64_t] before it is
    clamped: from a read cursor [p > 0], an offset of [INT64_MAX] overflows,
    which C leaves undefined, instead of clamping to the end. *)
Theorem membuf_seek_overflow (m : membuf) (Hp : 0 < m_rpos m) :
  mb_seek m (2 ^ 63 - 1) ZCIO_SEEK_CUR ZCIO_SEEK_READ = Fault.
Proof.
  unfold mb_seek, mb_seek_cursor, sadd64. simpl negb. cbv iota.
  rewrite bool_decide_false by lia. done.
Qed.

(** ** Witnesses on concrete views *)

Definition ex_mem (d : bytes) : membuf := mk_membuf (Some d) (zlen d) 0 0 0 0 false.

Lemma ex_mem_ok d : zlen d < 2 ^ 63 → mb_mem (ex_mem d).
Proof. intros. split; [|by eexists]. unfold mb_wf, ex_mem. simpl. lia. Qed.

Lemma zcio_read_full_exact_witness :
  ∃ c', zcio_read_full (Some (mk_stream MEM_VT (ex_mem (B "hello")) 7)) 3
    = Ok (Some (mk_stream MEM_VT c' 7), 3, B "hel") ∧ mb_mem c' ∧ mb_rem c' = B "lo".
Proof.
  apply (zcio_read_full_exact MEM_VT mb_mem mb_rem memory_source 7 (ex_mem (B "hello")) 3);
    [apply ex_mem_ok; vm_compute; done | done].
Defined.

Lemma zcio_copy_moves_witness :
  ∃ c1' c2' j,
    zcio_copy 10 (Some (mk_stream MEM_VT (ex_mem [0; 0]) 7))
      (Some (mk_stream MEM_VT (ex_mem (B "hello")) 7)) 3
      = Ok (Some (mk_stream MEM_VT c1' 7), Some (mk_stream MEM_VT c2' 7), 2) ∧
    mb_acc c1' = B "he" ∧ 2 ≤ j ∧ mb_rem c2' = zdrop j (B "hello") ∧ (3 = SIZE_MAX ∨ j ≤ 3).
Proof.
  apply (zcio_copy_moves MEM_VT MEM_VT mb_mem mb_acc mb_room mb_mem mb_rem
           memory_sink memory_source
           (λ c (H : mb_mem c), proj2 (Z.le_0_sub _ _) (proj2 (proj1 (proj2 (proj1 H)))))
           7 7 (ex_mem [0; 0]) (ex_mem (B "hello")) 3 10);
    [by apply ex_mem_ok | by apply ex_mem_ok | right; lia | simpl; lia].
Defined.

Lemma zcio_copy_huge_limit_witness :
  zcio_copy 10 (Some (mk_stream MEM_VT (ex_mem [0; 0]) 7))
    (Some (mk_stream MEM_VT (ex_mem (B "hello")) 7)) (2 ^ 63)
  = Ok (Some (mk_stream MEM_VT (ex_mem [0; 0]) 7),
        Some (mk_stream MEM_VT (ex_mem (B "hello")) 7), 0).
Proof.
  apply (zcio_copy_huge_limit (mk_stream MEM_VT (ex_mem [0; 0]) 7)
           (mk_stream MEM_VT (ex_mem (B "hello")) 7) (2 ^ 63) 10);
    [unfold SIZE_MAX; lia | lia].
Defined.

Lemma membuf_ops_safe_witness :
  mb_wf (ex_mem (B "abc")) ∧
  ∃ m' d, mb_read (ex_mem (B "abc")) 2 = Ok (m', zlen d, d) ∧ mb_wf m'.
Proof.
  assert (mb_wf (ex_mem (B "abc"))) as H by (apply ex_mem_ok; done). split; [exact H|].
  apply (proj1 (membuf_ops_safe (ex_mem (B "abc")) H)). lia.
Defined.

Lemma membuf_seek_overflow_witness :
  mb_seek (mk_membuf (Some (B "abc")) 3 1 0 0 0 false) (2 ^ 63 - 1) ZCIO_SEEK_CUR ZCIO_SEEK_READ
  = Fault.
Proof. apply (membuf_seek_overflow (mk_membuf (Some (B "abc")) 3 1 0 0 0 false)). simpl. lia. Defined.
