(* ===== verification/Ring.v ===== *)
(** * Ring: the lock-free single-producer single-consumer ring ([src/ring.c])

    First the sequential operations, each a translation of the C function;
    then (Module [Spsc]) the two threads as a step relation whose steps are
    the code's individual atomic accesses and byte copies. *)
From stdpp Require Import base tactics list option strings relations.
From Stdlib Require Import ZArith Lia.
From S2P Require Import Prelude Types Stream.

(** ** State

    [r_data] is the memory after the 16-byte header; [r_head] and [r_tail] are
    the two atomic cursors of the header. *)
Record zcio_ring := mk_ring {
  r_owned : bool;
  r_head : Z;
  r_tail : Z;
  r_data : bytes;
  r_capacity : Z;
  r_non_blocking : bool;
}.

Definition RING_HEADER : Z := 16.
Definition zcio_ring_header_size : Z := RING_HEADER.

Definition ring_init `{Allocator} (mem : bytes) (total : Z) (own nb : bool) : option zcio_ring :=
  if total <=? RING_HEADER then None
  else if zcio_xcalloc_ok 1 40 then
    Some (mk_ring own 0 0 (zdrop RING_HEADER mem) (total - RING_HEADER) nb)
  else None.

Definition zcio_ring_new `{Allocator} (capacity : Z) (non_blocking : bool) : option zcio_ring :=
  if SIZE_MAX - RING_HEADER - 1 <? capacity then None
  else
    let total := capacity + RING_HEADER + 1 in
    match zcio_xmalloc total with
    | None => None
    | Some mem => ring_init mem total true non_blocking
    end.

Definition zcio_ring_attach `{Allocator} (mem : option bytes) (total_size : Z) (non_blocking : bool)
  : option zcio_ring :=
  match mem with
  | None => None
  | Some mem => ring_init mem total_size false non_blocking
  end.

(** The block released by [zcio_ring_free], when the ring owns it. *)
Definition zcio_ring_free (r : option zcio_ring) : bool :=
  match r with Some r => r_owned r | None => false end.

(** ** Queries: 64-bit unsigned arithmetic, evaluated left to right *)

Definition avail_read (cap h t : Z) : Z := u64 (u64 (h + cap) - t) mod cap.
Definition avail_write (cap h t : Z) : Z := u64 (u64 (u64 (cap - 1) + t) - h) mod cap.

Definition zcio_ring_available_read (r : zcio_ring) : Z :=
  avail_read (r_capacity r) (r_head r) (r_tail r).

Definition zcio_ring_available_write (r : zcio_ring) : Z :=
  avail_write (r_capacity r) (r_head r) (r_tail r).

(** ** Write *)

(** One pass of the loop body with [avail > 0]: at most two [memcpy]s around
    the wrap point, then the new head. *)
Definition ring_write_chunk (r : zcio_ring) (src : bytes) (written : Z)
  : exec (zcio_ring * Z) :=
  let n := zlen src in
  let avail := zcio_ring_available_write r in
  let chunk := if avail <? n - written then avail else n - written in
  let h := r_head r in
  let fin := if chunk <? u64 (r_capacity r - h) then chunk else u64 (r_capacity r - h) in
  d1 ← mem_write h (slice written fin src) (r_data r);
  d2 ← (if fin <? chunk then mem_write 0 (slice (written + fin) (chunk - fin) src) d1 else Ok d1);
  Ok (mk_ring (r_owned r) (u64 (h + chunk) mod r_capacity r) (r_tail r) d2
        (r_capacity r) (r_non_blocking r), written + chunk).

Fixpoint ring_write_loop (fuel : nat) (r : zcio_ring) (src : bytes) (written full_spins : Z)
  : exec (zcio_ring * Z) :=
  match fuel with
  | O => OutOfFuel
  | S fuel =>
      if written <? zlen src then
        if zcio_ring_available_write r =? 0 then
          if r_non_blocking r then
            if (0 <? written) || (100 <? full_spins) then Ok (r, written)
            else ring_write_loop fuel r src written (full_spins + 1)
          else ring_write_loop fuel r src written full_spins
        else
          '(r', written') ← ring_write_chunk r src written;
          ring_write_loop fuel r' src written' full_spins
      else Ok (r, written)
  end.

Definition zcio_ring_write (fuel : nat) (r : zcio_ring) (src : option bytes) : exec (zcio_ring * Z) :=
  match src with
  | None => Ok (r, ZCIO_ERR_INVALID_ARG)
  | Some src => ring_write_loop fuel r src 0 0
  end.

(** ** Read: [acc] is what [dst] holds so far *)

Definition ring_read_chunk (r : zcio_ring) (n : Z) (acc : bytes) : exec (zcio_ring * bytes) :=
  let got := zlen acc in
  let avail := zcio_ring_available_read r in
  let chunk := if avail <? n - got then avail else n - got in
  let t := r_tail r in
  let fin := if chunk <? u64 (r_capacity r - t) then chunk else u64 (r_capacity r - t) in
  d1 ← mem_read t fin (r_data r);
  d2 ← (if fin <? chunk then mem_read 0 (chunk - fin) (r_data r) else Ok []);
  Ok (mk_ring (r_owned r) (r_head r) (u64 (t + chunk) mod r_capacity r) (r_data r)
        (r_capacity r) (r_non_blocking r), acc ++ d1 ++ d2).

Fixpoint ring_read_loop (fuel : nat) (r : zcio_ring) (n : Z) (acc : bytes) (empty_spins : Z)
  : exec (zcio_ring * Z * bytes) :=
  match fuel with
  | O => OutOfFuel
  | S fuel =>
      let got := zlen acc in
      if got <? n then
        if zcio_ring_available_read r =? 0 then
          if r_non_blocking r then
            if (0 <? got) || (1000000 <? empty_spins) then Ok (r, got, acc)
            else ring_read_loop fuel r n acc (empty_spins + 1)
          else ring_read_loop fuel r n acc empty_spins
        else
          '(r', acc') ← ring_read_chunk r n acc;
          ring_read_loop fuel r' n acc' empty_spins
      else Ok (r, got, acc)
  end.

Definition zcio_ring_read (fuel : nat) (r : zcio_ring) (dst_null : bool) (n : Z)
  : exec (zcio_ring * Z * bytes) :=
  if dst_null then Ok (r, ZCIO_ERR_INVALID_ARG, []) else ring_read_loop fuel r n [] 0.

(** ** Stream adapter

    The vtable's entries run the loops with the fuel that is enough on a
    non-blocking ring. *)
Definition ring_fuel : nat := Z.to_nat 1000004.

Definition RING_VT : zcio_stream_vtable zcio_ring := {|
  vt_name := B "ring";
  vt_read := Some (λ r n, zcio_ring_read ring_fuel r false n);
  vt_write := Some (λ r src, zcio_ring_write ring_fuel r (Some src));
  vt_seek := None; vt_flush := None; vt_close := None; vt_destroy := true;
  vt_available := Some zcio_ring_available_read; vt_eof := None |}.

Definition zcio_ring_as_stream `{Allocator} (r : option zcio_ring) (take_ownership : bool)
  : option (zcio_stream zcio_ring) :=
  match r with
  | None => None
  | Some r =>
      let flags := Z.lor ZCIO_STREAM_READABLE ZCIO_STREAM_WRITABLE in
      let flags := if take_ownership then Z.lor flags ZCIO_STREAM_OWNS_CTX else flags in
      zcio_stream_new (Some RING_VT) r flags
  end.

(** ** Invariant and abstraction: a bounded FIFO queue *)

Definition ring_wf (r : zcio_ring) : Prop :=
  0 < r_capacity r ≤ 2 ^ 63 ∧ zlen (r_data r) = r_capacity r ∧
  0 ≤ r_head r < r_capacity r ∧ 0 ≤ r_tail r < r_capacity r.

(** The queued bytes, oldest first. *)
Definition ring_queue (r : zcio_ring) : bytes :=
  let n := zcio_ring_available_read r in
  ztake n (zdrop (r_tail r) (r_data r) ++ r_data r).

(** How many more bytes fit: one slot is always kept empty. *)
Definition ring_room (r : zcio_ring) : Z := r_capacity r - 1 - zlen (ring_queue r).

Section Arith.
Variables cap h t : Z.
Hypothesis Hcap : 0 < cap ≤ 2 ^ 63.
Hypothesis Hh : 0 ≤ h < cap.
Hypothesis Ht : 0 ≤ t < cap.

Lemma avail_read_eq : avail_read cap h t = if t <=? h then h - t else h + cap - t.
Proof.
  unfold avail_read. rewrite (wrap_small 64 (h + cap)) by lia.
  rewrite wrap_small by lia. rewrite mod_once by lia. repeat bcase; lia.
Qed.

Lemma avail_write_eq : avail_write cap h t = cap - 1 - avail_read cap h t.
Proof.
  rewrite avail_read_eq. unfold avail_write.
  rewrite (wrap_small 64 (cap - 1)) by lia. rewrite (wrap_small 64 (cap - 1 + t)) by lia.
  rewrite wrap_small by lia. rewrite mod_once by lia. repeat bcase; lia.
Qed.

Lemma avail_read_bounds : 0 ≤ avail_read cap h t < cap.
Proof. rewrite avail_read_eq. bcase; lia. Qed.

(** Advancing a cursor by [k] slots. *)
Lemma advance_bound p k : 0 ≤ u64 (p + k) mod cap < cap.
Proof. apply Z.mod_pos_bound. lia. Qed.

Lemma advance_eq p k : 0 ≤ p < cap → 0 ≤ k ≤ cap →
  u64 (p + k) mod cap = if p + k <? cap then p + k else p + k - cap.
Proof. intros. rewrite wrap_small by lia. apply mod_once; lia. Qed.
End Arith.

Lemma avail_read_advance_head cap h t k :
  0 < cap ≤ 2 ^ 63 → 0 ≤ h < cap → 0 ≤ t < cap → 0 ≤ k < cap - avail_read cap h t →
  avail_read cap (u64 (h + k) mod cap) t = avail_read cap h t + k.
Proof.
  intros Hc Hh Ht Hk. pose proof (avail_read_bounds cap h t Hc Hh Ht).
  rewrite advance_eq by lia.
  rewrite !avail_read_eq in * by (repeat bcase; lia). repeat bcase; lia.
Qed.

Lemma avail_read_advance_tail cap h t k :
  0 < cap ≤ 2 ^ 63 → 0 ≤ h < cap → 0 ≤ t < cap → 0 ≤ k ≤ avail_read cap h t →
  avail_read cap h (u64 (t + k) mod cap) = avail_read cap h t - k.
Proof.
  intros Hc Hh Ht Hk. pose proof (avail_read_bounds cap h t Hc Hh Ht).
  rewrite advance_eq by lia.
  rewrite !avail_read_eq in * by (repeat bcase; lia). repeat bcase; lia.
Qed.

(** The [i]-th slot counted from cursor [p]; and how far slot [j] is from it. *)
Definition slot (cap p i : Z) : Z := if p + i <? cap then p + i else p + i - cap.
Definition slot_dist (cap p j : Z) : Z := if p <=? j then j - p else j - p + cap.

Lemma zlen_ring_queue r : ring_wf r → zlen (ring_queue r) = zcio_ring_available_read r.
Proof.
  intros (Hc & Hl & Hh & Ht). unfold ring_queue, zcio_ring_available_read.
  pose proof (avail_read_bounds _ _ _ Hc Hh Ht). zl.
Qed.

Lemma lookup_ring_queue r i :
  ring_wf r → 0 ≤ i < zcio_ring_available_read r →
  ring_queue r !! Z.to_nat i = r_data r !! Z.to_nat (slot (r_capacity r) (r_tail r) i).
Proof.
  intros (Hc & Hl & Hh & Ht) Hi. unfold ring_queue, zcio_ring_available_read in *.
  rewrite lookup_take_lt by lia. unfold slot. bcase.
  - rewrite lookup_app_l by zl. rewrite lookup_drop. f_equal. lia.
  - rewrite lookup_app_r by zl. f_equal. zl.
Qed.

Lemma ring_room_eq r : ring_wf r → zcio_ring_available_write r = ring_room r.
Proof.
  intros Hwf. unfold ring_room. rewrite (zlen_ring_queue r Hwf).
  destruct Hwf as (Hc & Hl & Hh & Ht). apply avail_write_eq; done.
Qed.

Lemma ring_room_nonneg r : ring_wf r → 0 ≤ ring_room r.
Proof.
  intros Hwf. unfold ring_room. rewrite (zlen_ring_queue r Hwf).
  destruct Hwf as (Hc & Hl & Hh & Ht). unfold zcio_ring_available_read.
  pose proof (avail_read_bounds _ _ _ Hc Hh Ht). lia.
Qed.

(** The two copies of [zcio_ring_write] store [k] bytes of [src] in the [k]
    slots from [h] on, and touch no other slot. *)
Lemma ring_store cap h data src written k :
  0 < cap ≤ 2 ^ 63 → zlen data = cap → 0 ≤ h < cap → 0 ≤ k ≤ cap →
  0 ≤ written → written + k ≤ zlen src →
  let fin := if k <? u64 (cap - h) then k else u64 (cap - h) in
  ∃ d, (d1 ← mem_write h (slice written fin src) data;
        if fin <? k then mem_write 0 (slice (written + fin) (k - fin) src) d1 else Ok d1) = Ok d ∧
    zlen d = cap ∧
    ∀ j, 0 ≤ j < cap → d !! Z.to_nat j =
      if slot_dist cap h j <? k then src !! Z.to_nat (written + slot_dist cap h j)
      else data !! Z.to_nat j.
Proof.
  intros Hc Hl Hh Hk Hw Hs. rewrite wrap_small by lia. intros fin.
  assert (fin = Z.min k (cap - h)) as Hfin by (unfold fin; bcase; lia). clearbody fin.
  assert (zlen (slice written fin src) = fin) as Hl1 by zl.
  rewrite mem_write_ok by lia. cbn [mbind exec_bind].
  set (d1 := _ ++ _ ++ _).
  assert (zlen d1 = cap) as Hd1 by (unfold d1; zl).
  assert (∀ j, 0 ≤ j < cap → d1 !! Z.to_nat j =
    if bool_decide (h ≤ j < h + fin) then src !! Z.to_nat (written + (j - h)) else data !! Z.to_nat j)
    as Hj1.
  { intros j Hj. unfold d1. rewrite lookup_mem_write by lia. rewrite Hl1. case_bool_decide; [|done].
    apply lookup_slice_Z; lia. }
  clearbody d1. bcase.
  - assert (zlen (slice (written + fin) (k - fin) src) = k - fin) as Hl2 by zl.
    rewrite mem_write_ok by lia. eexists. split; [done|]. split; [zl|].
    intros j Hj. rewrite lookup_mem_write, Hl2, Hj1 by lia. unfold slot_dist.
    repeat case_bool_decide; repeat bcase; try lia; try done.
    + rewrite lookup_slice_Z by lia. f_equal. lia.
  - eexists. split; [done|]. split; [done|]. intros j Hj. rewrite Hj1 by done. unfold slot_dist.
    repeat case_bool_decide; repeat bcase; try lia; done.
Qed.

Lemma ring_write_chunk_spec r src written :
  ring_wf r → 0 ≤ written < zlen src →
  let k := Z.min (ring_room r) (zlen src - written) in
  ∃ r', ring_write_chunk r src written = Ok (r', written + k) ∧ ring_wf r' ∧
    ring_queue r' = ring_queue r ++ slice written k src ∧
    r_capacity r' = r_capacity r ∧ r_non_blocking r' = r_non_blocking r ∧ r_tail r' = r_tail r.
Proof.
  intros Hwf Hw k. unfold ring_write_chunk. rewrite (ring_room_eq r Hwf).
  assert ((if ring_room r <? zlen src - written then ring_room r else zlen src - written) = k)
    as -> by (unfold k; bcase; lia).
  pose proof (ring_room_nonneg r Hwf) as Hroom. pose proof (zlen_ring_queue r Hwf) as Hq.
  pose proof Hwf as (Hc & Hl & Hh & Ht).
  pose proof (avail_read_bounds _ _ _ Hc Hh Ht) as Hab.
  assert (0 ≤ k < r_capacity r - zcio_ring_available_read r) as Hk.
  { unfold k, ring_room. rewrite Hq. unfold ring_room in Hroom. lia. }
  unfold zcio_ring_available_read in *.
  destruct (ring_store _ _ _ src written k Hc Hl Hh) as (d & Hd & Hdl & Hdj); [lia..|].
  destruct (mem_write _ _ (r_data r)) as [d1| |] eqn:E1; try discriminate.
  cbn [mbind exec_bind] in Hd |- *. rewrite Hd. cbn [mbind exec_bind].
  set (r' := mk_ring _ _ _ _ _ _). exists r'.
  assert (ring_wf r') as Hwf'.
  { unfold ring_wf. simpl. pose proof (advance_bound (r_capacity r) Hc (r_head r) k). lia. }
  split_and!; try done.
  assert (zcio_ring_available_read r' = avail_read (r_capacity r) (r_head r) (r_tail r) + k) as Ha.
  { apply avail_read_advance_head; lia. }
  apply list_eq_Z.
  - rewrite (zlen_ring_queue r' Hwf'), Ha. zl.
  - intros i Hi. rewrite (zlen_ring_queue r' Hwf') in Hi. rewrite lookup_ring_queue by done.
    simpl. rewrite Hdj by (unfold slot; bcase; lia).
    assert (slot_dist (r_capacity r) (r_head r) (slot (r_capacity r) (r_tail r) i) =
      if i <? zlen (ring_queue r) then i - zlen (ring_queue r) + r_capacity r
      else i - zlen (ring_queue r)) as ->.
    { rewrite Hq, avail_read_eq in * by done. unfold slot_dist, slot. repeat bcase; lia. }
    bcase.
    + rewrite (proj2 (Z.ltb_ge _ _)) by lia. rewrite lookup_app_l by lia.
      rewrite lookup_ring_queue; [done | done | unfold zcio_ring_available_read; lia].
    + rewrite (proj2 (Z.ltb_lt _ _)) by lia. rewrite lookup_app_r by lia.
      replace (Z.to_nat i - length (ring_queue r))%nat
        with (Z.to_nat (i - zlen (ring_queue r))) by lia.
      rewrite lookup_slice_Z by lia. done.
Qed.

(** The two copies of [zcio_ring_read] fetch the first [k] queued bytes. *)
Lemma ring_fetch r k :
  ring_wf r → 0 ≤ k ≤ zcio_ring_available_read r →
  let fin := if k <? u64 (r_capacity r - r_tail r) then k else u64 (r_capacity r - r_tail r) in
  ∃ d1 d2, mem_read (r_tail r) fin (r_data r) = Ok d1 ∧
    (if fin <? k then mem_read 0 (k - fin) (r_data r) else Ok []) = Ok d2 ∧
    d1 ++ d2 = ztake k (ring_queue r).
Proof.
  intros Hwf Hk fin. pose proof (zlen_ring_queue r Hwf) as Hq.
  pose proof Hwf as (Hc & Hl & Hh & Ht). pose proof (avail_read_bounds _ _ _ Hc Hh Ht) as Hab.
  unfold zcio_ring_available_read in *.
  assert (fin = Z.min k (r_capacity r - r_tail r)) as Hfin
    by (unfold fin; rewrite wrap_small by lia; bcase; lia).
  clearbody fin. exists (slice (r_tail r) fin (r_data r)), (slice 0 (k - fin) (r_data r)).
  rewrite mem_read_ok by lia. split; [done|]. split.
  - bcase; [by rewrite mem_read_ok by lia|]. replace (k - fin) with 0 by lia. done.
  - apply list_eq_Z.
    + zl.
    + intros i Hi. assert (zlen (slice (r_tail r) fin (r_data r)) = fin) as H1 by zl.
      assert (zlen (slice 0 (k - fin) (r_data r)) = k - fin) as H2 by zl.
      zlen_simpl_in Hi. rewrite lookup_take_lt by lia. rewrite lookup_ring_queue;
        [|done|unfold zcio_ring_available_read; lia].
      unfold slot. destruct (decide (i < fin)).
      * rewrite lookup_app_l by lia. rewrite lookup_slice_Z by lia. f_equal. bcase; lia.
      * rewrite lookup_app_r by lia.
        replace (Z.to_nat i - length (slice (r_tail r) fin (r_data r)))%nat
          with (Z.to_nat (i - fin)) by lia.
        rewrite lookup_slice_Z by lia. f_equal. bcase; lia.
Qed.

Lemma ring_read_chunk_spec r n acc :
  ring_wf r → zlen acc < n →
  let k := Z.min (zlen (ring_queue r)) (n - zlen acc) in
  ∃ r', ring_read_chunk r n acc = Ok (r', acc ++ ztake k (ring_queue r)) ∧ ring_wf r' ∧
    ring_queue r' = zdrop k (ring_queue r) ∧
    r_capacity r' = r_capacity r ∧ r_non_blocking r' = r_non_blocking r ∧ r_head r' = r_head r.
Proof.
  intros Hwf Hw k. unfold ring_read_chunk.
  pose proof (zlen_ring_queue r Hwf) as Hq. pose proof Hwf as (Hc & Hl & Hh & Ht).
  assert ((if zcio_ring_available_read r <? n - zlen acc then zcio_ring_available_read r
           else n - zlen acc) = k) as -> by (unfold k; rewrite Hq; bcase; lia).
  destruct (ring_fetch r k Hwf) as (d1 & d2 & -> & Hd2 & Hd); [unfold k; rewrite Hq; lia|].
  cbn [mbind exec_bind]. rewrite Hd2. cbn [mbind exec_bind].
  set (r' := mk_ring _ _ _ _ _ _). exists r'. rewrite Hd.
  assert (0 ≤ k ≤ zcio_ring_available_read r) as Hk by (unfold k; rewrite Hq; lia).
  assert (ring_wf r') as Hwf'.
  { unfold ring_wf. simpl. pose proof (advance_bound (r_capacity r) Hc (r_tail r) k). lia. }
  split_and!; try done.
  assert (zcio_ring_available_read r' = zcio_ring_available_read r - k) as Ha.
  { apply avail_read_advance_tail; done. }
  apply list_eq_Z.
  - rewrite (zlen_ring_queue r' Hwf'), Ha. zl.
  - intros i Hi. rewrite (zlen_ring_queue r' Hwf') in Hi. rewrite lookup_ring_queue by done.
    rewrite Ha in Hi. pose proof (avail_read_bounds _ _ _ Hc Hh Ht) as Hab.
    fold (zcio_ring_available_read r) in Hab. rewrite lookup_drop. replace (Z.to_nat k + Z.to_nat i)%nat with (Z.to_nat (k + i)) by lia.
    rewrite lookup_ring_queue by (done || lia). simpl. do 2 f_equal.
    rewrite advance_eq by (done || lia). unfold zcio_ring_available_read in *.
    unfold slot. repeat bcase; lia.
Qed.

(** ** The loops on a non-blocking ring (or one with enough room) *)

Lemma ring_write_spin fuel r src spins :
  ring_wf r → ring_room r = 0 → r_non_blocking r = true → src ≠ [] →
  spins ≤ 101 → 102 - spins < Z.of_nat fuel →
  ring_write_loop fuel r src 0 spins = Ok (r, 0).
Proof.
  revert spins. induction fuel as [|fuel IH]; intros spins Hwf Hr Hnb Hs Hsp Hf; [lia|].
  cbn [ring_write_loop]. rewrite (ring_room_eq r Hwf), Hr, Hnb.
  destruct src as [|b src]; [done|]. rewrite (proj2 (Z.ltb_lt _ _)) by (simpl; lia).
  simpl (0 =? 0). cbn [Z.ltb Z.compare orb]. cbv iota. bcase; [done|]. apply IH; done || lia.
Qed.

Lemma ring_read_spin fuel r n spins :
  ring_wf r → ring_queue r = [] → r_non_blocking r = true → 0 < n →
  spins ≤ 1000001 → 1000002 - spins < Z.of_nat fuel →
  ring_read_loop fuel r n [] spins = Ok (r, 0, []).
Proof.
  revert spins. induction fuel as [|fuel IH]; intros spins Hwf Hr Hnb Hs Hsp Hf; [lia|].
  cbn [ring_read_loop]. rewrite <- (zlen_ring_queue r Hwf), Hr, Hnb.
  rewrite (proj2 (Z.ltb_lt _ _)) by (simpl; lia). simpl (_ =? 0). cbv iota.
  simpl (zlen []). cbn [Z.ltb Z.compare orb]. bcase; [done|]. apply IH; done || lia.
Qed.

Lemma ring_write_loop_spec fuel r src :
  ring_wf r → r_non_blocking r = true ∨ zlen src ≤ ring_room r →
  (103 ≤ fuel)%nat →
  let k := Z.min (ring_room r) (zlen src) in
  ∃ r', ring_write_loop fuel r src 0 0 = Ok (r', k) ∧ ring_wf r' ∧
    ring_queue r' = ring_queue r ++ ztake k src ∧
    r_capacity r' = r_capacity r ∧ r_non_blocking r' = r_non_blocking r.
Proof.
  intros Hwf Hnb Hf k. pose proof (ring_room_nonneg r Hwf) as Hroom.
  destruct (decide (src = [])) as [->|Hne].
  { destruct fuel; [lia|]. exists r. assert (k = 0) as -> by (unfold k; simpl; lia).
    simpl. rewrite app_nil_r. done. }
  assert (0 < zlen src) by (destruct src; simpl; [done|lia]).
  destruct (decide (ring_room r = 0)) as [H0|H0].
  { destruct Hnb as [Hnb|?]; [|lia]. exists r. rewrite ring_write_spin by (done || lia).
    assert (k = 0) as -> by (unfold k; lia). cbn [Z.to_nat]. rewrite take_0, app_nil_r. done. }
  destruct fuel as [|fuel]; [lia|]. cbn [ring_write_loop].
  rewrite (proj2 (Z.ltb_lt _ _)), (ring_room_eq r Hwf), (proj2 (Z.eqb_neq _ _)) by lia.
  destruct (ring_write_chunk_spec r src 0 Hwf) as (r' & -> & Hwf' & Hq & Hc & Hb & _); [lia|].
  rewrite Z.sub_0_r in *. fold k in Hq |- *. cbn [mbind exec_bind].
  replace (slice 0 k src) with (ztake k src) in Hq by (unfold slice; done).
  exists r'. rewrite Z.add_0_l. split; [|done].
  destruct fuel as [|fuel]; [lia|]. cbn [ring_write_loop]. bcase; [|done].
  rewrite (ring_room_eq r' Hwf').
  assert (ring_room r' = 0) as ->.
  { unfold ring_room. rewrite Hq, Hc. zlen_simpl. unfold ring_room in *. lia. }
  rewrite Hb. destruct Hnb as [->|?]; [|lia]. simpl (0 =? 0). cbv iota.
  rewrite (proj2 (Z.ltb_lt 0 k)) by lia. done.
Qed.

Lemma ring_read_loop_spec fuel r n :
  ring_wf r → 0 ≤ n → r_non_blocking r = true ∨ n ≤ zlen (ring_queue r) →
  1000003 ≤ Z.of_nat fuel →
  let k := Z.min (zlen (ring_queue r)) n in
  ∃ r', ring_read_loop fuel r n [] 0 = Ok (r', k, ztake k (ring_queue r)) ∧ ring_wf r' ∧
    ring_queue r' = zdrop k (ring_queue r) ∧
    r_capacity r' = r_capacity r ∧ r_non_blocking r' = r_non_blocking r.
Proof.
  intros Hwf Hn Hnb Hf k. pose proof (zlen_ring_queue r Hwf) as Hql.
  destruct (decide (n = 0)) as [->|Hne].
  { destruct fuel; [lia|]. exists r. assert (k = 0) as -> by (unfold k; simpl; lia). done. }
  destruct (decide (ring_queue r = [])) as [H0|H0].
  { destruct Hnb as [Hnb|?]; [|rewrite H0 in *; simpl in *; lia].
    exists r. rewrite ring_read_spin by (done || lia).
    assert (k = 0) as -> by (unfold k; rewrite H0; simpl; lia). rewrite H0. done. }
  assert (0 < zlen (ring_queue r)) by (destruct (ring_queue r); simpl; [done|lia]).
  destruct fuel as [|fuel]; [lia|]. cbn [ring_read_loop].
  rewrite (proj2 (Z.ltb_lt _ _)) by (simpl; lia).
  rewrite <- Hql, (proj2 (Z.eqb_neq _ _)) by lia.
  destruct (ring_read_chunk_spec r n [] Hwf) as (r' & -> & Hwf' & Hq & Hc & Hb & _);
    [simpl; lia|].
  simpl (zlen []) in *. rewrite Z.sub_0_r in *. fold k in Hq |- *. cbn [mbind exec_bind app].
  exists r'. split; [|done]. assert (zlen (ztake k (ring_queue r)) = k) as Hk by zl.
  destruct fuel as [|fuel]; [lia|]. cbn [ring_read_loop]. rewrite Hk. bcase; [|done].
  rewrite <- (zlen_ring_queue r' Hwf').
  assert (zlen (ring_queue r') = 0) as -> by (rewrite Hq; zl).
  rewrite Hb. destruct Hnb as [->|?]; [|lia]. simpl (0 =? 0). cbv iota.
  rewrite (proj2 (Z.ltb_lt 0 k)) by lia. done.
Qed.

(** ** The ring as a backend of the stream layer *)

Definition ring_nb (r : zcio_ring) : Prop := ring_wf r ∧ r_non_blocking r = true.

#[export] Instance ring_source : Source RING_VT ring_nb ring_queue.
Proof.
  intros r n [Hwf Hnb] Hn.
  destruct (ring_read_loop_spec ring_fuel r n Hwf) as (r' & Hr & Hwf' & Hq & _ & Hb);
    [lia | by left | unfold ring_fuel; lia |].
  eexists _, r', _. split; [done|]. unfold zcio_ring_read. split; [exact Hr|].
  ands; [by split; [done | congruence] |].
  intros H0. destruct (ring_queue r); [done|]. simpl in H0. lia.
Qed.

#[export] Instance ring_sink : Sink RING_VT ring_nb ring_queue ring_room.
Proof.
  intros r src [Hwf Hnb] Hsrc. pose proof (ring_room_nonneg r Hwf).
  assert (0 < zlen src) by (destruct src; simpl; [done|lia]).
  destruct (ring_write_loop_spec ring_fuel r src Hwf) as (r' & Hr & Hwf' & Hq & Hc & Hb);
    [by left | unfold ring_fuel; lia |].
  eexists _, r', _. split; [done|]. unfold zcio_ring_write. split; [exact Hr|].
  ands; [by split; [done | congruence] |].
  unfold ring_room in *. rewrite Hq, Hc. zlen_simpl. lia.
Qed.

(** ** Properties *)

(** A well-formed ring is a bounded FIFO: on a non-blocking ring (or
    whenever the data fits) [zcio_ring_write] returns, touches no memory
    outside the ring, enqueues exactly the first [min (room, n)] bytes behind
    those already queued, returns that count and keeps the ring well formed. *)
Theorem zcio_ring_write_enqueues fuel r src (Hwf : ring_wf r)
  (Hnb : r_non_blocking r = true ∨ zlen src ≤ ring_room r) (Hfuel : (103 ≤ fuel)%nat) :
  let k := Z.min (ring_room r) (zlen src) in
  ∃ r', zcio_ring_write fuel r (Some src) = Ok (r', k) ∧ ring_wf r' ∧
    ring_queue r' = ring_queue r ++ ztake k src ∧ ring_room r' = ring_room r - k.
Proof.
  intros k. destruct (ring_write_loop_spec fuel r src Hwf Hnb Hfuel)
    as (r' & H & Hwf' & Hq & Hc & _). exists r'. ands.
  pose proof (ring_room_nonneg r Hwf). unfold ring_room in *. rewrite Hq, Hc.
  zlen_simpl. unfold k. lia.
Qed.

(** [zcio_ring_read] returns exactly the oldest [min (queued, n)] bytes, in
    order, removes them from the queue, and stays inside the ring's memory. *)
Theorem zcio_ring_read_dequeues fuel r n (Hwf : ring_wf r) (Hn : 0 ≤ n)
  (Hnb : r_non_blocking r = true ∨ n ≤ zlen (ring_queue r)) (Hfuel : 1000003 ≤ Z.of_nat fuel) :
  let k := Z.min (zlen (ring_queue r)) n in
  ∃ r', zcio_ring_read fuel r false n = Ok (r', k, ztake k (ring_queue r)) ∧ ring_wf r' ∧
    ring_queue r' = zdrop k (ring_queue r).
Proof.
  intros k. destruct (ring_read_loop_spec fuel r n Hwf Hn Hnb Hfuel)
    as (r' & H & Hwf' & Hq & _). exists r'. done.
Qed.

(** [zcio_ring_new c] makes an empty ring that can hold exactly [c] bytes
    (the extra slot is allocated); a capacity whose total size would wrap
    around is refused. *)
Theorem zcio_ring_new_capacity (a : Allocator) c nb (Hc : 0 ≤ c < 2 ^ 63) :
  (∀ r, zcio_ring_new c nb = Some r →
     ring_wf r ∧ ring_queue r = [] ∧ ring_room r = c ∧ r_non_blocking r = nb) ∧
  (∀ c', SIZE_MAX - 17 < c' → zcio_ring_new c' nb = None).
Proof.
  split.
  - intros r. unfold zcio_ring_new. bcase; [done|]. unfold zcio_xmalloc, malloc.
    unfold RING_HEADER in *. rewrite (proj2 (Z.eqb_neq _ _)) by lia. bcase; [|done].
    unfold ring_init, RING_HEADER. rewrite (proj2 (Z.leb_gt _ _)) by lia. bcase; [|done].
    intros [= <-]. set (r := mk_ring _ _ _ _ _ _).
    assert (ring_wf r) as Hwf by (unfold ring_wf; simpl; zl).
    assert (zlen (ring_queue r) = 0) as H0.
    { rewrite (zlen_ring_queue r Hwf). unfold zcio_ring_available_read.
      rewrite avail_read_eq by (simpl; lia). done. }
    split_and!; [done | | unfold ring_room; rewrite H0; simpl; lia | done].
    destruct (ring_queue r); [done | simpl in H0; lia].
  - intros c' Hc'. unfold zcio_ring_new, RING_HEADER. rewrite (proj2 (Z.ltb_lt _ _)) by lia. done.
Qed.

(** ** The two threads, step by step

    The producer runs any sequence of [zcio_ring_write] calls and the consumer
    any sequence of [zcio_ring_read] calls.  A step is one loop-head test (with
    its load of the other thread's cursor), one byte of a [memcpy], or one
    release store of a cursor; steps of the two threads interleave freely.
    [published] and [consumed] record the bytes passed by each cursor,
    [accepted] and [delivered] those of the calls that have returned. *)
Module Spsc.

Inductive producer :=
  | P_idle
  | P_loop (src : bytes) (written spins : Z)
  | P_copy (src : bytes) (written spins h chunk k : Z).

Inductive consumer :=
  | C_idle
  | C_loop (n : Z) (acc : bytes) (spins : Z)
  | C_copy (n : Z) (acc : bytes) (spins t chunk : Z) (d : bytes).

Record state := mk {
  rg : zcio_ring;
  prod : producer;
  cons : consumer;
  published : bytes;
  accepted : bytes;
  consumed : bytes;
  delivered : bytes;
}.

Definition set_data (r : zcio_ring) (d : bytes) : zcio_ring :=
  mk_ring (r_owned r) (r_head r) (r_tail r) d (r_capacity r) (r_non_blocking r).
Definition set_head (r : zcio_ring) (h : Z) : zcio_ring :=
  mk_ring (r_owned r) h (r_tail r) (r_data r) (r_capacity r) (r_non_blocking r).
Definition set_tail (r : zcio_ring) (t : Z) : zcio_ring :=
  mk_ring (r_owned r) (r_head r) t (r_data r) (r_capacity r) (r_non_blocking r).

(** The slot of the [k]-th byte of a chunk that starts at cursor [p]. *)
Definition copy_slot (cap p chunk k : Z) : Z :=
  let fin := if chunk <? u64 (cap - p) then chunk else u64 (cap - p) in
  if k <? fin then p + k else k - fin.

Definition init (r : zcio_ring) : state := mk r P_idle C_idle [] [] [] [].

Inductive step : state → state → Prop :=
  | p_call r c pu ac co de src :
      step (mk r P_idle c pu ac co de) (mk r (P_loop src 0 0) c pu ac co de)
  | p_return r c pu ac co de src w sp :
      (w <? zlen src) = false →
      step (mk r (P_loop src w sp) c pu ac co de) (mk r P_idle c pu (ac ++ ztake w src) co de)
  | p_give_up r c pu ac co de src w sp :
      (w <? zlen src) = true → zcio_ring_available_write r = 0 → r_non_blocking r = true →
      (0 <? w) || (100 <? sp) = true →
      step (mk r (P_loop src w sp) c pu ac co de) (mk r P_idle c pu (ac ++ ztake w src) co de)
  | p_yield r c pu ac co de src w sp :
      (w <? zlen src) = true → zcio_ring_available_write r = 0 →
      r_non_blocking r && ((0 <? w) || (100 <? sp)) = false →
      step (mk r (P_loop src w sp) c pu ac co de)
           (mk r (P_loop src w (if r_non_blocking r then sp + 1 else sp)) c pu ac co de)
  | p_begin r c pu ac co de src w sp avail :
      (w <? zlen src) = true → zcio_ring_available_write r = avail → avail ≠ 0 →
      step (mk r (P_loop src w sp) c pu ac co de)
           (mk r (P_copy src w sp (r_head r) (if avail <? zlen src - w then avail else zlen src - w) 0)
              c pu ac co de)
  | p_byte r c pu ac co de src w sp h chunk k b :
      k < chunk → src !! Z.to_nat (w + k) = Some b →
      step (mk r (P_copy src w sp h chunk k) c pu ac co de)
           (mk (set_data r (<[Z.to_nat (copy_slot (r_capacity r) h chunk k) := b]> (r_data r)))
              (P_copy src w sp h chunk (k + 1)) c pu ac co de)
  | p_publish r c pu ac co de src w sp h chunk :
      step (mk r (P_copy src w sp h chunk chunk) c pu ac co de)
           (mk (set_head r (u64 (h + chunk) mod r_capacity r)) (P_loop src (w + chunk) sp) c
              (pu ++ slice w chunk src) ac co de)
  | c_call r p pu ac co de n :
      0 ≤ n →
      step (mk r p C_idle pu ac co de) (mk r p (C_loop n [] 0) pu ac co de)
  | c_return r p pu ac co de n acc sp :
      (zlen acc <? n) = false →
      step (mk r p (C_loop n acc sp) pu ac co de) (mk r p C_idle pu ac co (de ++ acc))
  | c_give_up r p pu ac co de n acc sp :
      (zlen acc <? n) = true → zcio_ring_available_read r = 0 → r_non_blocking r = true →
      (0 <? zlen acc) || (1000000 <? sp) = true →
      step (mk r p (C_loop n acc sp) pu ac co de) (mk r p C_idle pu ac co (de ++ acc))
  | c_yield r p pu ac co de n acc sp :
      (zlen acc <? n) = true → zcio_ring_available_read r = 0 →
      r_non_blocking r && ((0 <? zlen acc) || (1000000 <? sp)) = false →
      step (mk r p (C_loop n acc sp) pu ac co de)
           (mk r p (C_loop n acc (if r_non_blocking r then sp + 1 else sp)) pu ac co de)
  | c_begin r p pu ac co de n acc sp avail :
      (zlen acc <? n) = true → zcio_ring_available_read r = avail → avail ≠ 0 →
      step (mk r p (C_loop n acc sp) pu ac co de)
           (mk r p (C_copy n acc sp (r_tail r) (if avail <? n - zlen acc then avail else n - zlen acc) [])
              pu ac co de)
  | c_byte r p pu ac co de n acc sp t chunk d b :
      zlen d < chunk → r_data r !! Z.to_nat (copy_slot (r_capacity r) t chunk (zlen d)) = Some b →
      step (mk r p (C_copy n acc sp t chunk d) pu ac co de)
           (mk r p (C_copy n acc sp t chunk (d ++ [b])) pu ac co de)
  | c_release r p pu ac co de n acc sp t chunk d :
      zlen d = chunk →
      step (mk r p (C_copy n acc sp t chunk d) pu ac co de)
           (mk (set_tail r (u64 (t + chunk) mod r_capacity r)) p (C_loop n (acc ++ d) sp)
              pu ac (co ++ d) de).

Inductive reachable (r0 : zcio_ring) : state → Prop :=
  | reach_init : reachable r0 (init r0)
  | reach_step s s' : reachable r0 s → step s s' → reachable r0 s'.

(** *** Index arithmetic: absolute positions modulo the capacity *)

Lemma mod_window cap i j : 0 < cap → 0 < j - i < cap → i mod cap ≠ j mod cap.
Proof.
  intros Hc Hij E. assert ((j - i) mod cap = 0) as H0.
  { rewrite Zminus_mod, E, Z.sub_diag. apply Z.mod_0_l. lia. }
  rewrite Z.mod_small in H0; lia.
Qed.

Lemma advance_mod cap p k :
  0 < cap ≤ 2 ^ 63 → 0 ≤ k < cap → u64 (p mod cap + k) mod cap = (p + k) mod cap.
Proof.
  intros Hc Hk. pose proof (Z.mod_pos_bound p cap ltac:(lia)).
  rewrite wrap_small by lia. rewrite Zplus_mod_idemp_l. done.
Qed.

Lemma copy_slot_mod cap p chunk k :
  0 < cap ≤ 2 ^ 63 → 0 ≤ k < chunk → chunk < cap →
  copy_slot cap (p mod cap) chunk k = (p + k) mod cap.
Proof.
  intros Hc Hk Hch. pose proof (Z.mod_pos_bound p cap ltac:(lia)).
  unfold copy_slot. rewrite wrap_small by lia. rewrite <- Zplus_mod_idemp_l.
  rewrite (mod_once (p mod cap + k)) by lia. repeat bcase; lia.
Qed.

Lemma avail_read_mod cap p c :
  0 < cap ≤ 2 ^ 63 → 0 ≤ p - c < cap → avail_read cap (p mod cap) (c mod cap) = p - c.
Proof.
  intros Hc Hpc. pose proof (Z.mod_pos_bound c cap ltac:(lia)) as Hb.
  assert (∃ n, p = c + n ∧ 0 ≤ n < cap) as (n & -> & Hn) by (exists (p - c); lia).
  pose proof (Z.mod_pos_bound (c + n) cap ltac:(lia)). rewrite avail_read_eq by lia.
  rewrite <- (Zplus_mod_idemp_l c) in *. rewrite (mod_once (c mod cap + n)) in * by lia.
  repeat bcase; lia.
Qed.

(** *** The invariant *)

(** Position [i] (counted from the first byte ever written) lives in slot
    [i mod cap]. *)
Definition holds (r : zcio_ring) (i : Z) (b : option Z) : Prop :=
  r_data r !! Z.to_nat (i mod r_capacity r) = b.

Record shared_inv (r : zcio_ring) (pu co : bytes) : Prop := {
  si_cap : 0 < r_capacity r ≤ 2 ^ 63;
  si_data : zlen (r_data r) = r_capacity r;
  si_head : r_head r = zlen pu mod r_capacity r;
  si_tail : r_tail r = zlen co mod r_capacity r;
  si_window : zlen co ≤ zlen pu < zlen co + r_capacity r;
  si_prefix : co = ztake (zlen co) pu;
  si_slots : ∀ i, zlen co ≤ i < zlen pu → holds r i (pu !! Z.to_nat i);
}.

Definition prod_inv (r : zcio_ring) (p : producer) (pu ac co : bytes) : Prop :=
  match p with
  | P_idle => pu = ac
  | P_loop src w _ => 0 ≤ w ≤ zlen src ∧ pu = ac ++ ztake w src
  | P_copy src w _ h chunk k =>
      0 ≤ w ∧ 0 < chunk ∧ 0 ≤ k ≤ chunk ∧ w + chunk ≤ zlen src ∧ pu = ac ++ ztake w src ∧
      h = r_head r ∧ zlen pu + chunk < zlen co + r_capacity r ∧
      ∀ j, 0 ≤ j < k → holds r (zlen pu + j) (src !! Z.to_nat (w + j))
  end.

Definition cons_inv (r : zcio_ring) (c : consumer) (pu co de : bytes) : Prop :=
  match c with
  | C_idle => co = de
  | C_loop _ acc _ => co = de ++ acc
  | C_copy n acc _ t chunk d =>
      co = de ++ acc ∧ 0 < chunk ∧ zlen d ≤ chunk ∧ zlen acc + chunk ≤ n ∧
      t = r_tail r ∧ zlen co + chunk ≤ zlen pu ∧ d = ztake (zlen d) (zdrop (zlen co) pu)
  end.

Definition inv (s : state) : Prop :=
  shared_inv (rg s) (published s) (consumed s) ∧
  prod_inv (rg s) (prod s) (published s) (accepted s) (consumed s) ∧
  cons_inv (rg s) (cons s) (published s) (consumed s) (delivered s).

Lemma inv_avail_read r pu co :
  shared_inv r pu co → zcio_ring_available_read r = zlen pu - zlen co.
Proof.
  intros [Hc Hd Hh Ht Hw _ _]. unfold zcio_ring_available_read. rewrite Hh, Ht.
  apply avail_read_mod; lia.
Qed.

Lemma inv_avail_write r pu co :
  shared_inv r pu co →
  zcio_ring_available_write r = r_capacity r - 1 - (zlen pu - zlen co).
Proof.
  intros Hs. rewrite <- (inv_avail_read r pu co Hs). destruct Hs as [Hc Hd Hh Ht Hw _ _].
  apply avail_write_eq; [done | rewrite Hh | rewrite Ht]; apply Z.mod_pos_bound; lia.
Qed.

(** A store to the slot of position [p] leaves the other positions of the
    window as they were. *)
Lemma holds_store r p i b v :
  0 < r_capacity r → zlen (r_data r) = r_capacity r → i - r_capacity r < p < i + r_capacity r →
  holds (set_data r (<[Z.to_nat (p mod r_capacity r) := b]> (r_data r))) i v ↔
  (if bool_decide (i = p) then v = Some b else holds r i v).
Proof.
  intros Hc Hd Hw. unfold holds, set_data. simpl.
  pose proof (Z.mod_pos_bound p (r_capacity r) Hc). pose proof (Z.mod_pos_bound i (r_capacity r) Hc).
  case_bool_decide as E.
  - subst. rewrite list_lookup_insert_eq by lia. split; intros; by symmetry.
  - rewrite list_lookup_insert_ne; [done|]. intros E'.
    assert (p mod r_capacity r = i mod r_capacity r) as Em by lia.
    destruct (decide (p < i)); [eapply mod_window; [..|exact Em]; lia|].
    symmetry in Em. eapply mod_window; [..|exact Em]; lia.
Qed.

Lemma inv_p_byte r c pu ac co de src w sp h chunk k b :
  k < chunk → src !! Z.to_nat (w + k) = Some b →
  inv (mk r (P_copy src w sp h chunk k) c pu ac co de) →
  inv (mk (set_data r (<[Z.to_nat (copy_slot (r_capacity r) h chunk k) := b]> (r_data r)))
         (P_copy src w sp h chunk (k + 1)) c pu ac co de).
Proof.
  intros Hk Hb (Hs & (Hw & Hch & Hkk & Hsrc & Hpu & -> & Hroom & Hst) & Hc). simpl in *.
  pose proof Hs as [Hcap Hd Hh Ht Hwin Hpre Hsl].
  rewrite Hh, copy_slot_mod by lia.
  split_and!; simpl.
  - constructor; try done; simpl; [by zlen_simpl|]. intros i Hi.
    apply holds_store; [lia | done | lia |]. rewrite bool_decide_false by lia. by apply Hsl.
  - ands. intros j Hj. apply holds_store; [lia | done | lia |].
    case_bool_decide; [|apply Hst; lia]. rewrite <- Hb. do 2 f_equal. lia.
  - destruct c; done.
Qed.

Lemma inv_p_publish r c pu ac co de src w sp h chunk :
  inv (mk r (P_copy src w sp h chunk chunk) c pu ac co de) →
  inv (mk (set_head r (u64 (h + chunk) mod r_capacity r)) (P_loop src (w + chunk) sp) c
         (pu ++ slice w chunk src) ac co de).
Proof.
  intros (Hs & (Hw & Hch & Hkk & Hsrc & Hpu & -> & Hroom & Hst) & Hc). simpl in *.
  pose proof Hs as [Hcap Hd Hh Ht Hwin Hpre Hsl].
  assert (zlen (pu ++ slice w chunk src) = zlen pu + chunk) as Hl by zl.
  split_and!; simpl.
  - constructor; simpl; try done; rewrite ?Hl; try lia.
    + rewrite Hh. apply advance_mod; lia.
    + rewrite take_app_le by lia. done.
    + intros i Hi. unfold holds. simpl. destruct (decide (i < zlen pu)).
      * rewrite lookup_app_l by lia. apply Hsl. lia.
      * rewrite lookup_app_r by lia.
        replace (Z.to_nat i - length pu)%nat with (Z.to_nat (i - zlen pu)) by lia.
        rewrite lookup_slice_Z by lia. specialize (Hst (i - zlen pu) ltac:(lia)).
        unfold holds in Hst. replace (zlen pu + (i - zlen pu)) with i in Hst by lia. done.
  - ands. rewrite Hpu, <- app_assoc. f_equal. unfold slice.
    rewrite Z2Nat.inj_add by lia. apply take_take_drop.
  - destruct c as [| |n acc sp' t ch d]; simpl in *; try done.
    destruct Hc as (Hco & Hch' & Hd' & Hn & Ht' & Hlim & Hdd).
    split_and!; try done; [lia|]. rewrite Hdd at 1.
    rewrite drop_app_le by lia. rewrite take_app_le; [done|]. zlen_simpl. lia.
Qed.

Lemma inv_c_byte r p pu ac co de n acc sp t chunk d b :
  zlen d < chunk → r_data r !! Z.to_nat (copy_slot (r_capacity r) t chunk (zlen d)) = Some b →
  inv (mk r p (C_copy n acc sp t chunk d) pu ac co de) →
  inv (mk r p (C_copy n acc sp t chunk (d ++ [b])) pu ac co de).
Proof.
  intros Hk Hb (Hs & Hp & (Hco & Hch & Hd' & Hn & Ht' & Hlim & Hdd)). simpl in *. subst t.
  pose proof Hs as [Hcap Hd Hh Ht Hwin Hpre Hsl].
  split_and!; simpl; try done. ands; [zl|].
  rewrite Ht, copy_slot_mod in Hb by lia.
  specialize (Hsl (zlen co + zlen d) ltac:(lia)). unfold holds in Hsl. rewrite Hb in Hsl.
  zlen_simpl. replace (Z.to_nat (Z.of_nat (length d + 1))) with (S (Z.to_nat (zlen d))) by lia.
  erewrite take_S_r; [|rewrite lookup_drop; etransitivity; [|symmetry; apply Hsl]; f_equal; lia].
  f_equal. done.
Qed.

Lemma inv_c_release r p pu ac co de n acc sp t chunk d :
  zlen d = chunk →
  inv (mk r p (C_copy n acc sp t chunk d) pu ac co de) →
  inv (mk (set_tail r (u64 (t + chunk) mod r_capacity r)) p (C_loop n (acc ++ d) sp)
         pu ac (co ++ d) de).
Proof.
  intros <- (Hs & Hp & (Hco & Hch & Hd' & Hn & -> & Hlim & Hdd)). simpl in *.
  pose proof Hs as [Hcap Hd Hh Ht Hwin Hpre Hsl].
  split_and!; simpl.
  - constructor; simpl; try done; zlen_simpl; try lia.
    + rewrite Ht, advance_mod by lia. f_equal. lia.
    + rewrite Hpre at 1. rewrite Hdd at 1. rewrite Nat2Z.inj_add, Z2Nat.inj_add by lia.
      apply take_take_drop.
    + intros i Hi. apply (Hsl i). lia.
  - destruct p as [| |src w sp' h ch k]; simpl in *; try done.
    destruct Hp as (? & ? & ? & ? & ? & ? & ? & ?). ands. zl.
  - rewrite Hco, <- app_assoc. done.
Qed.

Lemma step_inv s s' : step s s' → inv s → inv s'.
Proof.
  destruct 1; intros Hi; eauto using inv_p_byte, inv_p_publish, inv_c_byte, inv_c_release;
    btest; destruct Hi as (Hs & Hp & Hc); simpl in *; split_and!; simpl; try done; try lia.
  - split; [lia|]. rewrite take_0, app_nil_r. done.
  - by destruct Hp.
  - by destruct Hp.
  - destruct Hp as [Hw Hpu]. pose proof (inv_avail_write _ _ _ Hs).
    pose proof Hs as [Hcap _ _ _ Hwin _ _]. ands; bcase; lia.
  - rewrite app_nil_r. done.
  - pose proof (inv_avail_read _ _ _ Hs). pose proof Hs as [Hcap _ _ _ Hwin _ _].
    ands; bcase; lia.
Qed.

Lemma inv_init r : ring_wf r → r_head r = 0 → r_tail r = 0 → inv (init r).
Proof.
  intros (Hc & Hd & _ & _) Hh Ht. split_and!; simpl; try done. constructor; simpl; try done; try lia.
Qed.

Lemma reachable_inv r0 s :
  ring_wf r0 → r_head r0 = 0 → r_tail r0 = 0 → reachable r0 s → inv s.
Proof. intros Hwf Hh Ht. induction 1; eauto using inv_init, step_inv. Qed.

(** *** Consequences of the invariant *)

Lemma inv_queue r pu co :
  shared_inv r pu co → ring_wf r ∧ ring_queue r = zdrop (zlen co) pu.
Proof.
  intros Hs. pose proof (inv_avail_read _ _ _ Hs) as Ha. pose proof Hs as [Hcap Hd Hh Ht Hwin _ Hsl].
  assert (ring_wf r) as Hwf.
  { split_and!; try lia; rewrite ?Hh, ?Ht; apply Z.mod_pos_bound; lia. }
  split; [done|]. apply list_eq_Z.
  - rewrite (zlen_ring_queue r Hwf), Ha. zl.
  - intros i Hi. rewrite (zlen_ring_queue r Hwf), Ha in Hi. rewrite lookup_ring_queue by (done || lia).
    rewrite lookup_drop. replace (Z.to_nat (zlen co) + Z.to_nat i)%nat with (Z.to_nat (zlen co + i)) by lia.
    rewrite <- (Hsl (zlen co + i)) by lia. unfold slot. do 2 f_equal. rewrite Ht.
    pose proof (Z.mod_pos_bound (zlen co) (r_capacity r) ltac:(lia)).
    rewrite <- Zplus_mod_idemp_l, (mod_once (zlen co mod r_capacity r + i)) by lia. done.
Qed.

(** The slot the producer (consumer) is about to touch. *)
Definition prod_slot (s : state) : option Z :=
  match prod s with
  | P_copy _ _ _ h chunk k =>
      if k <? chunk then Some (copy_slot (r_capacity (rg s)) h chunk k) else None
  | _ => None
  end.

Definition cons_slot (s : state) : option Z :=
  match cons s with
  | C_copy _ _ _ t chunk d =>
      if zlen d <? chunk then Some (copy_slot (r_capacity (rg s)) t chunk (zlen d)) else None
  | _ => None
  end.

Definition both_idle (s : state) : bool :=
  match prod s, cons s with P_idle, C_idle => true | _, _ => false end.

Lemma prod_slot_pos s i :
  inv s → prod_slot s = Some i →
  ∃ p, i = p mod r_capacity (rg s) ∧ zlen (published s) ≤ p < zlen (consumed s) + r_capacity (rg s).
Proof.
  destruct s as [r p c pu ac co de]. intros (Hs & Hp & Hc). unfold prod_slot. simpl in *.
  destruct p as [| |src w sp h chunk k]; try done. destruct (k <? chunk) eqn:E; [|done]. btest.
  intros [= <-]. destruct Hp as (Hw & Hch & Hk & Hl & Hpu & -> & Hroom & _).
  destruct Hs as [Hcap Hd Hh Ht Hwin _ _]. exists (zlen pu + k). rewrite Hh, copy_slot_mod by lia.
  split; [done|lia].
Qed.

Lemma cons_slot_pos s i :
  inv s → cons_slot s = Some i →
  ∃ p, i = p mod r_capacity (rg s) ∧ zlen (consumed s) ≤ p < zlen (published s).
Proof.
  destruct s as [r p c pu ac co de]. intros (Hs & Hp & Hc). unfold cons_slot. simpl in *.
  destruct c as [| |n acc sp t chunk d]; try done. destruct (_ <? chunk) eqn:E; [|done]. btest.
  intros [= <-]. destruct Hc as (Hco & Hch & Hd' & Hn & -> & Hlim & Hdd).
  destruct Hs as [Hcap Hd Hh Ht Hwin _ _]. exists (zlen co + zlen d). rewrite Ht, copy_slot_mod by lia.
  split; [done|lia].
Qed.

(** *** The sequential functions are runs of one thread *)

(** After [k] byte steps of a chunk. *)
Definition copied (r : zcio_ring) (src : bytes) (w k : Z) (d : bytes) : Prop :=
  zlen d = r_capacity r ∧ ∀ j, 0 ≤ j < r_capacity r → d !! Z.to_nat j =
    if slot_dist (r_capacity r) (r_head r) j <? k
    then src !! Z.to_nat (w + slot_dist (r_capacity r) (r_head r) j)
    else r_data r !! Z.to_nat j.

Lemma copy_slot_slot cap p chunk k :
  0 < cap ≤ 2 ^ 63 → 0 ≤ p < cap → 0 ≤ k < chunk → chunk ≤ cap →
  copy_slot cap p chunk k = slot cap p k ∧ 0 ≤ slot cap p k < cap ∧
  (∀ j, 0 ≤ j < cap → slot_dist cap p j = k ↔ j = slot cap p k).
Proof.
  intros Hc Hp Hk Hch. unfold copy_slot, slot, slot_dist. rewrite wrap_small by lia.
  split_and!; [repeat bcase; lia..|]. intros j Hj. repeat bcase; lia.
Qed.

Lemma run_bytes r src w sp chunk m c pu ac co de :
  ring_wf r → 0 ≤ w → w + chunk ≤ zlen src → chunk ≤ r_capacity r →
  (Z.of_nat m ≤ chunk) →
  ∃ d, copied r src w (Z.of_nat m) d ∧
    rtc step (mk r (P_copy src w sp (r_head r) chunk 0) c pu ac co de)
             (mk (set_data r d) (P_copy src w sp (r_head r) chunk (Z.of_nat m)) c pu ac co de).
Proof.
  intros Hwf Hw Hs Hch. pose proof Hwf as (Hc & Hl & Hh & Ht).
  induction m as [|m IH]; intros Hm.
  - exists (r_data r). split.
    + split; [done|]. intros j Hj. rewrite (proj2 (Z.ltb_ge _ _)); [done|].
      unfold slot_dist. bcase; lia.
    + destruct r; apply rtc_refl.
  - destruct IH as (d & [Hdl Hd] & Hrun); [lia|].
    destruct (lookup_lt_is_Some_2 src (Z.to_nat (w + Z.of_nat m))) as [b Hb]; [lia|].
    destruct (copy_slot_slot (r_capacity r) (r_head r) chunk (Z.of_nat m)) as (Hcs & Hsr & Hsd);
      [lia..|].
    exists (<[Z.to_nat (slot (r_capacity r) (r_head r) (Z.of_nat m)) := b]> d). split.
    + split; [by zlen_simpl|]. intros j Hj. specialize (Hsd j Hj).
      destruct (decide (j = slot (r_capacity r) (r_head r) (Z.of_nat m))) as [->|Hne].
      * rewrite list_lookup_insert_eq by lia. rewrite (proj2 Hsd eq_refl).
        rewrite (proj2 (Z.ltb_lt _ _)) by lia. done.
      * rewrite list_lookup_insert_ne by lia. rewrite Hd by done.
        assert (slot_dist (r_capacity r) (r_head r) j ≠ Z.of_nat m) by (intros E; apply Hne, Hsd, E).
        repeat bcase; lia || done.
    + eapply rtc_r; [exact Hrun|]. rewrite <- Hcs.
      replace (Z.of_nat (S m)) with (Z.of_nat m + 1) by lia.
      apply (p_byte (set_data r d)); [lia | done].
Qed.

Lemma run_chunk r src w sp c pu ac co de r' w' :
  ring_wf r → 0 ≤ w < zlen src → zcio_ring_available_write r ≠ 0 →
  ring_write_chunk r src w = Ok (r', w') →
  rtc step (mk r (P_loop src w sp) c pu ac co de)
    (mk r' (P_loop src w' sp) c (pu ++ slice w (w' - w) src) ac co de).
Proof.
  intros Hwf Hw Ha. unfold ring_write_chunk.
  set (chunk := if _ <? _ then _ else zlen src - w). intros Hr.
  pose proof (ring_room_eq r Hwf). pose proof (ring_room_nonneg r Hwf).
  pose proof (zlen_ring_queue r Hwf) as Hq. pose proof Hwf as (Hc & Hl & Hh & Ht).
  assert (0 < chunk ≤ r_capacity r ∧ w + chunk ≤ zlen src) as [Hch Hch'].
  { unfold chunk, ring_room in *. bcase; lia. }
  destruct (ring_store _ _ _ src w chunk Hc Hl Hh) as (d & Hd & Hdl & Hdj); [lia..|].
  destruct (mem_write _ _ (r_data r)) as [d1| |]; try discriminate.
  cbn [mbind exec_bind] in Hd, Hr. rewrite Hd in Hr. cbn [mbind exec_bind] in Hr.
  injection Hr as <- <-. replace (w + chunk - w) with chunk by lia.
  destruct (run_bytes r src w sp chunk (Z.to_nat chunk) c pu ac co de) as (d' & [Hl' Hd'] & Hrun);
    [done|lia..|]. rewrite Z2Nat.id in * by lia.
  assert (d' = d) as ->.
  { apply list_eq_Z; [lia|]. intros j Hj. rewrite Hd', Hdj by lia. done. }
  eapply rtc_l; [apply p_begin with (avail := zcio_ring_available_write r); [by apply Z.ltb_lt; lia|done|done]|].
  fold chunk. eapply rtc_r; [exact Hrun|]. apply (p_publish (set_data r d)).
Qed.

Lemma run_loop fuel r src w sp r' k c pu pu0 ac co de :
  ring_wf r → 0 ≤ w ≤ zlen src → pu = pu0 ++ ztake w src →
  ring_write_loop fuel r src w sp = Ok (r', k) →
  rtc step (mk r (P_loop src w sp) c pu ac co de)
           (mk r' P_idle c (pu0 ++ ztake k src) (ac ++ ztake k src) co de).
Proof.
  revert r w sp pu. induction fuel as [|fuel IH]; intros r w sp pu Hwf Hw -> H; [done|].
  cbn [ring_write_loop] in H. destruct (w <? zlen src) eqn:E.
  2:{ injection H as <- <-. apply rtc_once, p_return. done. }
  destruct (zcio_ring_available_write r =? 0) eqn:Ea; btest.
  - destruct (r_non_blocking r) eqn:Hnb.
    + destruct ((0 <? w) || (100 <? sp))%bool eqn:Eg.
      * injection H as <- <-. apply rtc_once, p_give_up; try done. by apply Z.ltb_lt.
      * eapply rtc_l; [apply p_yield; [by apply Z.ltb_lt|done|by rewrite Hnb, Eg]|].
        rewrite Hnb. by apply IH.
    + eapply rtc_l; [apply p_yield; [by apply Z.ltb_lt|done|by rewrite Hnb]|].
      rewrite Hnb. by apply IH.
  - destruct (ring_write_chunk_spec r src w Hwf) as (r1 & Hr1 & Hwf1 & _); [lia|].
    pose proof (ring_room_nonneg r Hwf).
    rewrite Hr1 in H. cbn [mbind exec_bind] in H.
    etrans; [eapply run_chunk; [done|lia|done|exact Hr1]|].
    apply IH; [done | lia | | done]. rewrite <- app_assoc. f_equal.
    replace (w + Z.min (ring_room r) (zlen src - w) - w)
      with (Z.min (ring_room r) (zlen src - w)) by lia.
    unfold slice. rewrite Z2Nat.inj_add by lia. symmetry. symmetry. apply take_take_drop.
Qed.
End Spsc.

(** What the two threads have moved. *)
Lemma spsc_moved r0 s (Hwf : ring_wf r0) (Hh : r_head r0 = 0) (Ht : r_tail r0 = 0)
  (Hs : Spsc.reachable r0 s) :
  Spsc.delivered s `prefix_of` Spsc.published s ∧
  Spsc.accepted s `prefix_of` Spsc.published s ∧
  0 ≤ zlen (Spsc.published s) - zlen (Spsc.consumed s) < r_capacity (Spsc.rg s) ∧
  (Spsc.both_idle s = true → Spsc.accepted s = Spsc.delivered s ++ ring_queue (Spsc.rg s)).
Proof.
  pose proof (Spsc.reachable_inv _ _ Hwf Hh Ht Hs) as (Hi & Hp & Hc).
  destruct s as [r p c pu ac co de]. unfold Spsc.both_idle. simpl in *.
  pose proof (Spsc.inv_queue _ _ _ Hi) as [_ ->]. destruct Hi as [Hcap Hd Hh' Ht' Hwin Hpre _].
  assert (co `prefix_of` pu) as Hcop by (rewrite Hpre; apply prefix_take).
  split_and!.
  - transitivity co; [|done]. destruct c as [| |]; simpl in Hc; [subst; done|..];
      (eexists; first [exact Hc | exact (proj1 Hc)]).
  - destruct p as [| |]; simpl in Hp; [subst; done|..]; eexists;
      first [exact (proj2 Hp) | destruct Hp as (_ & _ & _ & _ & Hpu & _); exact Hpu].
  - lia.
  - lia.
  - destruct p, c; try done. intros _. simpl in *. subst ac co. rewrite Hpre at 1.
    symmetry. apply take_drop.
Qed.

(** Memory safety and race freedom: whenever the producer is about to store
    a byte and the consumer about to fetch one, both slots lie inside the
    buffer and they are different. *)
Theorem spsc_race_free r0 s (Hwf : ring_wf r0) (Hh : r_head r0 = 0) (Ht : r_tail r0 = 0)
  (Hs : Spsc.reachable r0 s) :
  (∀ i, Spsc.prod_slot s = Some i ∨ Spsc.cons_slot s = Some i →
     0 ≤ i < zlen (r_data (Spsc.rg s))) ∧
  (∀ i j, Spsc.prod_slot s = Some i → Spsc.cons_slot s = Some j → i ≠ j).
Proof.
  pose proof (Spsc.reachable_inv _ _ Hwf Hh Ht Hs) as Hi.
  pose proof (proj1 Hi) as [Hcap Hd _ _ Hwin _ _].
  split.
  - intros i [Hp | Hp]; [apply Spsc.prod_slot_pos in Hp | apply Spsc.cons_slot_pos in Hp];
      try done; destruct Hp as (p & -> & _); rewrite Hd; apply Z.mod_pos_bound; lia.
  - intros i j Hp Hc. apply Spsc.prod_slot_pos in Hp as (p & -> & Hp); [|done].
    apply Spsc.cons_slot_pos in Hc as (q & -> & Hq); [|done].
    intros E. symmetry in E. eapply Spsc.mod_window; [..|exact E]; lia.
Qed.

(** C36: Two threads, one producing and one consuming, interleaved in any way:
    what finished reads delivered is always a prefix of what writes published,
    finished writes only count published bytes, at most [capacity - 1] bytes
    are ever in flight, and when neither thread is inside a call the bytes
    accepted are exactly those delivered followed by those still queued.
    Whenever the producer is about to store a byte and the consumer about to
    fetch one, both slots lie inside the buffer and they are different. *)
Theorem spsc_fifo r0 s (Hwf : ring_wf r0) (Hh : r_head r0 = 0) (Ht : r_tail r0 = 0)
  (Hs : Spsc.reachable r0 s) :
  (Spsc.delivered s `prefix_of` Spsc.published s ∧
   Spsc.accepted s `prefix_of` Spsc.published s ∧
   0 ≤ zlen (Spsc.published s) - zlen (Spsc.consumed s) < r_capacity (Spsc.rg s) ∧
   (Spsc.both_idle s = true → Spsc.accepted s = Spsc.delivered s ++ ring_queue (Spsc.rg s))) ∧
  (∀ i, Spsc.prod_slot s = Some i ∨ Spsc.cons_slot s = Some i →
     0 ≤ i < zlen (r_data (Spsc.rg s))) ∧
  (∀ i j, Spsc.prod_slot s = Some i → Spsc.cons_slot s = Some j → i ≠ j).
Proof. split; [by eapply spsc_moved|by eapply spsc_race_free]. Qed.

(** No deadlock: on a ring of at least two slots the producer and the
    consumer never both find the ring unusable; some thread can move a byte. *)
Theorem spsc_no_deadlock r0 s (Hwf : ring_wf r0) (Hh : r_head r0 = 0) (Ht : r_tail r0 = 0)
  (Hs : Spsc.reachable r0 s) (Hcap : 2 ≤ r_capacity (Spsc.rg s)) :
  zcio_ring_available_write (Spsc.rg s) ≠ 0 ∨ zcio_ring_available_read (Spsc.rg s) ≠ 0.
Proof.
  pose proof (Spsc.reachable_inv _ _ Hwf Hh Ht Hs) as (Hi & _ & _).
  rewrite (Spsc.inv_avail_write _ _ _ Hi), (Spsc.inv_avail_read _ _ _ Hi).
  destruct Hi as [? _ _ _ Hwin _ _]. lia.
Qed.


(** The sequential [zcio_ring_write] is one thread of the interleaving
    model running alone: whatever it returns, the producer reaches the same
    ring by atomic steps, publishing exactly the bytes it reports. *)
Theorem ring_write_is_a_run fuel r src r' k c pu ac co de (Hwf : ring_wf r)
  (Hw : zcio_ring_write fuel r (Some src) = Ok (r', k)) :
  rtc Spsc.step (Spsc.mk r Spsc.P_idle c pu ac co de)
    (Spsc.mk r' Spsc.P_idle c (pu ++ ztake k src) (ac ++ ztake k src) co de).
Proof.
  eapply rtc_l; [apply Spsc.p_call|]. simpl in Hw.
  eapply Spsc.run_loop; [done| |  |exact Hw]; [lia|].
  cbn [Z.to_nat]. rewrite take_0, app_nil_r. done.
Qed.

(** [zcio_ring_attach] accepts a block of 17 bytes, whose single data byte
    is the reserved slot: such a ring has no room at all, and a blocking write
    of one byte or more to it never returns. *)
Theorem ring_attach_17_no_room (a : Allocator) mem r (Hmem : zlen mem = 17)
  (Hr : zcio_ring_attach (Some mem) 17 false = Some r) :
  ring_wf r ∧ ring_room r = 0 ∧
  ∀ fuel src, src ≠ [] → zcio_ring_write fuel r (Some src) = OutOfFuel.
Proof.
  unfold zcio_ring_attach, ring_init, RING_HEADER in Hr. simpl in Hr.
  destruct (zcio_xcalloc_ok _ _); [|done]. injection Hr as <-.
  set (r := mk_ring _ _ _ _ _ _).
  assert (ring_wf r) as Hwf by (unfold ring_wf; simpl; zlen_simpl; lia).
  split_and!; [done..|]. intros fuel src Hs. unfold zcio_ring_write.
  generalize 0 at 2 as sp. induction fuel as [|fuel IH]; intros sp; [done|].
  cbn [ring_write_loop]. rewrite (proj2 (Z.ltb_lt _ _)); [apply IH|].
  destruct src; simpl; [done|lia].
Qed.

(** ** Witnesses *)

(** A ring of capacity 5 (four usable bytes), cursors in the middle. *)
Definition ex_ring : zcio_ring := mk_ring true 4 3 [0; 0; 0; 65; 0] 5 true.

Lemma ex_ring_wf : ring_wf ex_ring.
Proof. unfold ring_wf, ex_ring. simpl. lia. Qed.

Lemma zcio_ring_write_enqueues_witness :
  ∃ r', zcio_ring_write 200 ex_ring (Some [66; 67; 68; 69]) = Ok (r', 3) ∧ ring_wf r' ∧
    ring_queue r' = [65; 66; 67; 68] ∧ ring_room r' = 0.
Proof.
  apply (zcio_ring_write_enqueues 200 ex_ring [66; 67; 68; 69] ex_ring_wf
           (or_introl eq_refl)). lia.
Defined.

Lemma zcio_ring_read_dequeues_witness :
  ∃ r', zcio_ring_read ring_fuel ex_ring false 7 = Ok (r', 1, [65]) ∧ ring_wf r' ∧
    ring_queue r' = [].
Proof.
  apply (zcio_ring_read_dequeues ring_fuel ex_ring 7 ex_ring_wf); [lia | left; reflexivity |].
  unfold ring_fuel. lia.
Defined.

Lemma zcio_ring_new_capacity_witness :
  ∃ r, @zcio_ring_new always_alloc 4 true = Some r ∧ ring_wf r ∧ ring_room r = 4.
Proof.
  destruct (@zcio_ring_new always_alloc 4 true) as [r|] eqn:E; [|discriminate].
  exists r. destruct (proj1 (zcio_ring_new_capacity always_alloc 4 true ltac:(lia)) r E)
    as (H1 & _ & H2 & _). done.
Defined.

Definition ex_empty : zcio_ring := mk_ring true 0 0 [0; 0; 0] 3 true.
Lemma ex_empty_wf : ring_wf ex_empty.
Proof. unfold ring_wf, ex_empty. simpl. lia. Qed.

(** The producer has begun to copy [66; 67]. *)
Definition ex_state : Spsc.state :=
  Spsc.mk ex_empty (Spsc.P_copy [66; 67] 0 0 0 2 0) Spsc.C_idle [] [] [] [].

Lemma ex_state_reachable : Spsc.reachable ex_empty ex_state.
Proof.
  eapply Spsc.reach_step;
    [eapply Spsc.reach_step; [apply Spsc.reach_init | apply (Spsc.p_call _ _ _ _ _ _ [66; 67])] |].
  refine (Spsc.p_begin ex_empty _ _ _ _ _ [66; 67] 0 0 2 _ _ _); [done | vm_compute; done | done].
Qed.

Lemma spsc_fifo_witness :
  Spsc.delivered ex_state `prefix_of` Spsc.published ex_state ∧ Spsc.prod_slot ex_state = Some 0 ∧ 0 ≤ 0 < 3.
Proof.
  destruct (spsc_fifo ex_empty ex_state ex_empty_wf eq_refl eq_refl ex_state_reachable) as ((H1 & _) & H2 & _).
  split; [exact H1|]. split; [reflexivity|]. apply (H2 0). left. reflexivity.
Defined.

Lemma spsc_no_deadlock_witness :
  zcio_ring_available_write ex_empty ≠ 0 ∨ zcio_ring_available_read ex_empty ≠ 0.
Proof.
  apply (spsc_no_deadlock ex_empty ex_state ex_empty_wf eq_refl eq_refl ex_state_reachable).
  simpl. lia.
Defined.

Lemma ring_write_is_a_run_witness :
  ∃ r', zcio_ring_write 200 ex_empty (Some [66]) = Ok (r', 1) ∧
    rtc Spsc.step (Spsc.init ex_empty) (Spsc.mk r' Spsc.P_idle Spsc.C_idle [66] [66] [] []).
Proof.
  eexists. split; [vm_compute; reflexivity|].
  apply (ring_write_is_a_run 200 ex_empty [66] _ 1 Spsc.C_idle [] [] [] [] ex_empty_wf).
  vm_compute. reflexivity.
Defined.

Lemma ring_attach_17_no_room_witness :
  ∃ r, @zcio_ring_attach always_alloc (Some (replicate 17 0)) 17 false = Some r ∧ ring_room r = 0.
Proof.
  eexists. split; [vm_compute; reflexivity|].
  apply (ring_attach_17_no_room always_alloc (replicate 17 0)); vm_compute; reflexivity.
Defined.
