(* ===== verification/Buf.v ===== *)
(** * Buf: the shared growable byte buffer [zhs_buf] ([src/http_util.c])

    The record is the C struct; [b_data] is the whole allocation ([b_cap]
    bytes, those past [b_len] indeterminate).  [buf_contents] is the abstract
    value, a byte queue; the class [Emits] states what an output routine
    promises to its callers: on success it appended exactly [out]; when memory
    runs out it reports [ZCIO_ERR_NOMEM] having appended a prefix. *)
From stdpp Require Import base tactics list option strings.
From Stdlib Require Import ZArith Lia.
From S2P Require Import Prelude Types.

Record zhs_buf := mk_buf { b_data : bytes; b_off : Z; b_len : Z; b_cap : Z }.

Definition buf_empty : zhs_buf := mk_buf [] 0 0 0.

Definition ZHS_AVAIL (b : zhs_buf) : Z := b_len b - b_off b.

(** The readable region [off, len). *)
Definition buf_contents (b : zhs_buf) : bytes := slice (b_off b) (ZHS_AVAIL b) (b_data b).

Section Ops.
Context `{Allocator}.

(** [while (cap < need)]: doubling, at most 64 times. *)
Fixpoint buf_grow (fuel : nat) (cap need : Z) : Z :=
  match fuel with
  | O => cap
  | S fuel =>
      if cap <? need then
        if SIZE_MAX / 2 <? cap then need else buf_grow fuel (cap * 2) need
      else cap
  end.

Definition zhs_buf_reserve_ (b : zhs_buf) (extra : Z) : Z * zhs_buf :=
  if SIZE_MAX - b_len b <? extra then (ZCIO_ERR_NOMEM, b)
  else
    let need := b_len b + extra in
    if need <=? b_cap b then (ZCIO_OK, b)
    else
      let cap := buf_grow 65 (if b_cap b =? 0 then 256 else b_cap b) need in
      if alloc_ok cap then
        (ZCIO_OK, mk_buf (b_data b ++ replicate (Z.to_nat (cap - b_cap b)) junk)
                    (b_off b) (b_len b) cap)
      else (ZCIO_ERR_NOMEM, b).

Definition zhs_buf_append_ (b : zhs_buf) (src : bytes) : Z * zhs_buf :=
  let n := zlen src in
  if n =? 0 then (ZCIO_OK, b)
  else
    let '(r, b) := zhs_buf_reserve_ b n in
    if negb (r =? ZCIO_OK) then (r, b)
    else (ZCIO_OK,
          mk_buf (ztake (b_len b) (b_data b) ++ src ++ zdrop (b_len b + n) (b_data b))
            (b_off b) (b_len b + n) (b_cap b)).

Definition zhs_buf_append_str_ (b : zhs_buf) (s : bytes) : Z * zhs_buf := zhs_buf_append_ b s.
Definition zhs_buf_append_u8_ (b : zhs_buf) (v : Z) : Z * zhs_buf := zhs_buf_append_ b [v].

Definition zhs_buf_consume_ (b : zhs_buf) (n : Z) : zhs_buf :=
  let n := if ZHS_AVAIL b <? n then ZHS_AVAIL b else n in
  let off := b_off b + n in
  if off =? b_len b then mk_buf (b_data b) 0 0 (b_cap b)
  else if (4096 <=? off) && (b_len b - off <=? off) then
    (* memmove of the live bytes to the front *)
    mk_buf (slice off (b_len b - off) (b_data b) ++ zdrop (b_len b - off) (b_data b))
      0 (b_len b - off) (b_cap b)
  else mk_buf (b_data b) off (b_len b) (b_cap b).

Definition zhs_buf_reset_ (b : zhs_buf) : zhs_buf := mk_buf (b_data b) 0 0 (b_cap b).
Definition zhs_buf_free_ (b : zhs_buf) : zhs_buf := buf_empty.

(** ** Sequencing output routines: stop at the first failure *)

Definition emitter : Type := zhs_buf → Z * zhs_buf.
Definition emit_seq (f g : emitter) : emitter := λ b,
  let '(r, b) := f b in if negb (r =? ZCIO_OK) then (r, b) else g b.
Definition emit_ok : emitter := λ b, (ZCIO_OK, b).
Definition put (s : bytes) : emitter := λ b, zhs_buf_append_ b s.

(** ** Invariant *)

Definition buf_wf (b : zhs_buf) : Prop :=
  0 ≤ b_off b ≤ b_len b ∧ b_len b ≤ b_cap b ∧ b_cap b = zlen (b_data b) ∧ b_cap b ≤ SIZE_MAX.

Lemma buf_grow_ge fuel cap need :
  0 < cap → need ≤ cap * 2 ^ Z.of_nat fuel → need ≤ SIZE_MAX → cap ≤ SIZE_MAX →
  need ≤ buf_grow fuel cap need ≤ SIZE_MAX ∧ cap ≤ buf_grow fuel cap need.
Proof.
  unfold SIZE_MAX. revert cap. induction fuel as [|fuel IH]; intros cap Hc Hn Hm Hcm.
  - cbn [buf_grow]. change (2 ^ Z.of_nat 0) with 1 in Hn. lia.
  - cbn [buf_grow]. unfold SIZE_MAX. repeat bcase; try lia.
    pose proof (Z.mul_div_le (2 ^ 64 - 1) 2 ltac:(lia)).
    rewrite Nat2Z.inj_succ, Z.pow_succ_r in Hn by lia.
    destruct (IH (cap * 2)); lia.
Qed.

Lemma buf_reserve_spec b extra :
  buf_wf b → 0 ≤ extra →
  ∃ r b', zhs_buf_reserve_ b extra = (r, b') ∧ buf_wf b' ∧
    b_off b' = b_off b ∧ b_len b' = b_len b ∧ buf_contents b' = buf_contents b ∧
    ztake (b_len b) (b_data b') = ztake (b_len b) (b_data b) ∧
    ((r = ZCIO_OK ∧ b_len b + extra ≤ b_cap b') ∨ (r = ZCIO_ERR_NOMEM ∧ b' = b)) ∧
    ((∀ n, alloc_ok n = true) → b_len b + extra ≤ SIZE_MAX → r = ZCIO_OK).
Proof.
  intros (Ho & Hl & Hc & Hm) He. unfold zhs_buf_reserve_. bcase.
  { exists ZCIO_ERR_NOMEM, b. ands; right; done. }
  bcase. { exists ZCIO_OK, b. ands; left; ands. }
  set (cap0 := if b_cap b =? 0 then 256 else b_cap b).
  assert (0 < cap0 ∧ b_cap b ≤ cap0 ≤ SIZE_MAX) as [H1 H2]
    by (unfold cap0, SIZE_MAX in *; bcase; lia).
  destruct (buf_grow_ge 65 cap0 (b_len b + extra)) as [H3 H4]; [lia | | lia | lia |].
  { unfold SIZE_MAX in *. change (2 ^ Z.of_nat 65) with (2 * 2 ^ 64). nia. }
  set (cap := buf_grow _ _ _) in *. bcase.
  - eexists ZCIO_OK, _. split; [done|]. unfold buf_wf, buf_contents, ZHS_AVAIL, slice. simpl.
    assert (ztake (b_len b) (b_data b ++ replicate (Z.to_nat (cap - b_cap b)) junk)
            = ztake (b_len b) (b_data b)) by (apply take_app_le; lia).
    ands; [zl | ].
    rewrite drop_app_le by lia. apply take_app_le. zl.
  - exists ZCIO_ERR_NOMEM, b. ands; right; done.
Qed.
End Ops.

Notation "f ▷ g" := (emit_seq f g) (at level 62, right associativity).

(** The buffer holds [x], then [out] was appended. *)
Class Emits `{Allocator} (f : emitter) (out : bytes) : Prop :=
  emits : ∀ b, buf_wf b → ∃ r b', f b = (r, b') ∧ buf_wf b' ∧
    ((r = ZCIO_OK ∧ buf_contents b' = buf_contents b ++ out ∧ b_len b' = b_len b + zlen out ∧
      b_off b' = b_off b) ∨
     (r = ZCIO_ERR_NOMEM ∧ ∃ p, p `prefix_of` out ∧ buf_contents b' = buf_contents b ++ p)) ∧
    ((∀ n, alloc_ok n = true) → b_len b + zlen out ≤ SIZE_MAX → r = ZCIO_OK).

Section Facts.
Context `{Allocator}.

#[export] Instance emits_put s : Emits (put s) s.
Proof.
  intros b Hwf. unfold put, zhs_buf_append_. bcase.
  { exists ZCIO_OK, b. destruct s; [|simpl in *; lia]. rewrite app_nil_r.
    ands. left. simpl. ands. }
  destruct (buf_reserve_spec b (zlen s) Hwf) as (r & b1 & -> & Hwf1 & Ho & Hl & Hc & Ht & Hr & Ha);
    [lia|].
  pose proof Hwf as (Ho' & Hl' & _). pose proof Hwf1 as (_ & _ & Hd & Hm).
  destruct Hr as [[-> Hfit] | [-> ->]].
  - simpl. eexists _, _. split; [done|].
    assert (zlen (ztake (b_len b1) (b_data b1)) = b_len b) as Hzt by zl.
    split; [|split; [left|done]].
    + unfold buf_wf. simpl. ands. zl.
    + split_and!; simpl; try done; try lia. rewrite <- Hc.
      unfold buf_contents, ZHS_AVAIL, slice. simpl. rewrite drop_app_le by lia.
      rewrite app_assoc, take_app_length' by zl. f_equal.
      rewrite take_drop_commute. do 2 f_equal. lia.
  - exists ZCIO_ERR_NOMEM, b. simpl. split; [done|]. split; [done|]. split; [right; split; [done|]|done].
    exists []. rewrite app_nil_r. split; [apply prefix_nil | done].
Qed.

#[export] Instance emits_u8 v : Emits (λ b, zhs_buf_append_u8_ b v) [v] := emits_put [v].

#[export] Instance emits_ok : Emits emit_ok [].
Proof.
  intros b Hwf. exists ZCIO_OK, b. rewrite app_nil_r. ands. left. simpl. ands.
Qed.

#[export] Instance emits_seq f g x y `{!Emits f x, !Emits g y} : Emits (f ▷ g) (x ++ y).
Proof.
  intros b Hwf. unfold emit_seq.
  destruct (emits (f := f) b Hwf) as (r & b1 & -> & Hwf1 & Hr & Ha).
  destruct Hr as [(-> & Hc & Hl & Ho) | (-> & p & Hp & Hc)].
  - simpl. destruct (emits (f := g) b1 Hwf1) as (r2 & b2 & Hg & Hwf2 & Hr2 & Ha2).
    exists r2, b2. split; [done|]. split; [done|]. rewrite Hc in Hr2. split.
    + destruct Hr2 as [(-> & Hc2 & Hl2 & Ho2) | (-> & p & Hp & Hc2)]; [left | right].
      * rewrite Hc2, app_assoc. ands. zl.
      * split; [done|]. exists (x ++ p). split; [by apply prefix_app|]. by rewrite Hc2, app_assoc.
    + intros Hall Hs. apply Ha2; [done|]. zlen_simpl_in Hs. lia.
  - exists ZCIO_ERR_NOMEM, b1. split; [done|]. split; [done|]. split.
    + right. split; [done|]. exists p. split; [by apply prefix_app_r | done].
    + intros Hall Hs. specialize (Ha Hall). zlen_simpl_in Hs. discriminate Ha. lia.
Qed.

Lemma emits_eq f x y : Emits f x → x = y → Emits f y.
Proof. by intros ? <-. Qed.

Lemma emits_ext f g x : (∀ b, f b = g b) → Emits g x → Emits f x.
Proof. intros He Hg b Hwf. rewrite He. by apply Hg. Qed.

Lemma buf_empty_wf : buf_wf buf_empty.
Proof. unfold buf_wf, SIZE_MAX. simpl. lia. Qed.

Lemma zlen_contents b : buf_wf b → zlen (buf_contents b) = ZHS_AVAIL b.
Proof. intros (Ho & Hl & Hc & Hm). unfold buf_contents, ZHS_AVAIL in *. zl. Qed.

Lemma consume_spec b n :
  buf_wf b → 0 ≤ n →
  buf_wf (zhs_buf_consume_ b n) ∧ buf_contents (zhs_buf_consume_ b n) = zdrop n (buf_contents b) ∧
  b_len (zhs_buf_consume_ b n) ≤ b_len b ∧ b_cap (zhs_buf_consume_ b n) = b_cap b.
Proof.
  intros Hwf Hn. pose proof (zlen_contents b Hwf) as Hz. pose proof Hwf as (Ho & Hl & Hc & Hm).
  unfold zhs_buf_consume_.
  set (k := if ZHS_AVAIL b <? n then ZHS_AVAIL b else n).
  assert (0 ≤ k ≤ ZHS_AVAIL b) as Hk by (unfold k, ZHS_AVAIL in *; bcase; lia).
  assert (zdrop n (buf_contents b) = zdrop k (buf_contents b)) as ->.
  { unfold k. bcase; [|done]. rewrite !drop_ge by lia. done. }
  assert (zdrop k (buf_contents b) = slice (b_off b + k) (b_len b - (b_off b + k)) (b_data b)) as ->.
  { unfold buf_contents, slice, ZHS_AVAIL in *. rewrite skipn_firstn_comm, drop_drop.
    f_equal; [lia | f_equal; lia]. }
  unfold ZHS_AVAIL in *. bcase.
  - unfold buf_wf, buf_contents, ZHS_AVAIL, slice. simpl. ands.
    replace (Z.to_nat (b_len b - (b_off b + k))) with 0%nat by lia. done.
  - bcase; btest.
    + assert (zlen (slice (b_off b + k) (b_len b - (b_off b + k)) (b_data b))
              = b_len b - (b_off b + k)) as Hs by zl.
      unfold buf_wf, buf_contents, ZHS_AVAIL. simpl. ands.
      * zl.
      * unfold slice at 1. rewrite drop_0. apply ztake_app_zlen. lia.
    + unfold buf_wf, buf_contents, ZHS_AVAIL. simpl. ands.
Qed.

Lemma reset_spec b : buf_wf b → buf_wf (zhs_buf_reset_ b) ∧ buf_contents (zhs_buf_reset_ b) = [].
Proof. intros (Ho & Hl & Hc & Hm). unfold buf_wf, buf_contents. simpl. ands. Qed.
End Facts.

(** A buffer that holds exactly [s]. *)
Definition buf_of (s : bytes) : zhs_buf := mk_buf s 0 (zlen s) (zlen s).

Lemma buf_of_wf s : zlen s ≤ SIZE_MAX → buf_wf (buf_of s).
Proof. intros. unfold buf_wf, buf_of. cbn. ands. Qed.

Lemma buf_of_contents s : buf_contents (buf_of s) = s.
Proof. unfold buf_contents, buf_of, ZHS_AVAIL. cbn. apply slice_all. lia. Qed.
