(* ===== verification/HttpUtil.v ===== *)
(** * HttpUtil: limits, header lists, validation and formatting

    The parts of [src/http_util.c] that every protocol module of the server
    leans on (the byte buffer is in [Buf], UTF-8 in [Utf8], request targets in
    [Target]).  Header names and values are C strings: the model stores the
    bytes before the first NUL, all that is ever read back. *)
From stdpp Require Import base tactics list option strings.
From Stdlib Require Import ZArith Lia.
From S2P Require Import Prelude Types Buf.

(** ** C strings and decimal output *)

Fixpoint cstr (s : bytes) : bytes :=
  match s with
  | [] => []
  | c :: s => if c =? 0 then [] else c :: cstr s
  end.

(** [snprintf("%d")] of a value below [10 ^ 20]. *)
Fixpoint dec_digits (fuel : nat) (n : Z) (acc : bytes) : bytes :=
  match fuel with
  | O => acc
  | S fuel =>
      if n <? 10 then (48 + n) :: acc else dec_digits fuel (n / 10) ((48 + n mod 10) :: acc)
  end.

Definition dec (n : Z) : bytes :=
  if n <? 0 then 45 :: dec_digits 20 (- n) [] else dec_digits 20 n [].

(** [%0<w>d] *)
Definition dec_pad (w : nat) (n : Z) : bytes :=
  replicate (w - length (dec n)) 48 ++ dec n.

(** ** Limits *)

Record zhs_limits := mk_limits {
  max_header_bytes : Z;
  max_headers : Z;
  max_body_bytes : Z;
  max_url_bytes : Z;
  max_streams : Z;
  max_requests_per_conn : Z;
  max_connections : Z;
  max_out_bytes : Z;
  header_timeout_ms : Z;
  idle_timeout_ms : Z;
  write_timeout_ms : Z;
  drain_timeout_ms : Z;
}.

(** [cfg && cfg->field ? cfg->field : default]; the limit fields of a
    configuration form a record of the same shape. *)
Definition limit_or (cfg : option zhs_limits) (field : zhs_limits → Z) (default : Z) : Z :=
  match cfg with
  | Some c => if field c =? 0 then default else field c
  | None => default
  end.

Definition zhs_limits_resolve_ (cfg : option zhs_limits) : zhs_limits := {|
  max_header_bytes := limit_or cfg max_header_bytes (32 * 1024);
  max_headers := limit_or cfg max_headers 128;
  max_body_bytes := limit_or cfg max_body_bytes (64 * 1024 * 1024);
  max_url_bytes := limit_or cfg max_url_bytes 8192;
  max_streams := limit_or cfg max_streams 128;
  max_requests_per_conn := limit_or cfg max_requests_per_conn 1024;
  max_connections := limit_or cfg max_connections 1024;
  max_out_bytes := limit_or cfg max_out_bytes (4 * 1024 * 1024);
  header_timeout_ms := limit_or cfg header_timeout_ms 10000;
  idle_timeout_ms := limit_or cfg idle_timeout_ms 60000;
  write_timeout_ms := limit_or cfg write_timeout_ms 30000;
  drain_timeout_ms := limit_or cfg drain_timeout_ms 5000 |}.

(** ** Character classes *)

Definition tolower (c : Z) : Z := if (65 <=? c) && (c <=? 90) then c + 32 else c.

Definition is_tchar (c : Z) : bool :=
  if ((97 <=? c) && (c <=? 122)) || ((65 <=? c) && (c <=? 90)) || ((48 <=? c) && (c <=? 57))
  then true
  else bool_decide (c ∈ B "!#$%&'*+-.^_`|~").

Definition zhs_token_ok_ (s : bytes) : bool :=
  if zlen s =? 0 then false else forallb is_tchar s.

Definition zhs_lower_token_ok_ (s : bytes) : bool :=
  if zlen s =? 0 then false
  else forallb (λ c, if (65 <=? c) && (c <=? 90) then false else is_tchar c) s.

Definition zhs_value_ok_ (s : bytes) : bool :=
  forallb (λ c, negb (((c <? 32) && negb (c =? 9)) || (c =? 127))) s.

(** ** Bounded header lists *)

Record zhs_hdr := mk_hdr { hdr_name : bytes; hdr_value : bytes }.
Record zhs_hdrs := mk_hdrs { h_v : list zhs_hdr; h_cap : Z; h_bytes : Z }.
Abbreviation h_n h := (zlen (h_v h)).

Definition hdrs_empty : zhs_hdrs := mk_hdrs [] 0 0.

(** [lim->max_header_bytes > SIZE_MAX / 2 ? SIZE_MAX : 2 * ...] *)
Definition hdr_budget (lim : zhs_limits) : Z :=
  if SIZE_MAX / 2 <? max_header_bytes lim then SIZE_MAX else max_header_bytes lim * 2.

Definition zhs_hdrs_add_ `{Allocator} (h : zhs_hdrs) (name value : bytes) (lim : zhs_limits)
    (lower_name : bool) : Z * zhs_hdrs :=
  let nlen := zlen name in
  let vlen := zlen value in
  if max_headers lim <=? h_n h then (ZCIO_ERR_PROTOCOL, h)
  else if (max_header_bytes lim <? nlen) || (max_header_bytes lim <? vlen) ||
          (u64 (hdr_budget lim - h_bytes h) <? u64 (nlen + vlen + 32))
  then (ZCIO_ERR_PROTOCOL, h)
  else
    let grow := h_n h =? h_cap h in
    let ncap := if h_cap h =? 0 then 8 else h_cap h * 2 in
    let ncap := if max_headers lim <? ncap then max_headers lim else ncap in
    if grow && negb (alloc_ok (ncap * 16)) then (ZCIO_ERR_NOMEM, h)
    else
      let h := if grow then mk_hdrs (h_v h) ncap (h_bytes h) else h in
      if negb (alloc_ok (nlen + 1)) || negb (alloc_ok (vlen + 1)) then (ZCIO_ERR_NOMEM, h)
      else
        let nm := if lower_name then map tolower name else name in
        (ZCIO_OK, mk_hdrs (h_v h ++ [mk_hdr (cstr nm) (cstr value)]) (h_cap h)
                    (h_bytes h + (nlen + vlen + 32))).

(** Compare a stored name with a query, folding the query's case. *)
Fixpoint hdr_name_eq (stored query : bytes) : bool :=
  match stored, query with
  | [], [] => true
  | a :: stored, c :: query => if a =? tolower c then hdr_name_eq stored query else false
  | _, _ => false
  end.

Definition zhs_hdrs_get_ (h : zhs_hdrs) (name : bytes) : option bytes :=
  hdr_value <$> find (λ e, hdr_name_eq (hdr_name e) name) (h_v h).

Definition zhs_hdrs_count_ (h : zhs_hdrs) (name : bytes) : Z :=
  zlen (List.filter (λ e, hdr_name_eq (hdr_name e) name) (h_v h)).

Definition zhs_hdrs_free_ (h : zhs_hdrs) : zhs_hdrs := hdrs_empty.

(** ** Formatting *)

Record tm := mk_tm {
  tm_wday : Z; tm_mday : Z; tm_mon : Z; tm_year : Z; tm_hour : Z; tm_min : Z; tm_sec : Z }.

Definition DAYS : list bytes := [B "Sun"; B "Mon"; B "Tue"; B "Wed"; B "Thu"; B "Fri"; B "Sat"].
Definition MONS : list bytes :=
  [B "Jan"; B "Feb"; B "Mar"; B "Apr"; B "May"; B "Jun";
   B "Jul"; B "Aug"; B "Sep"; B "Oct"; B "Nov"; B "Dec"].

(** [time] and [gmtime_r] are the caller's: [t] is the broken-down UTC time. *)
Definition zhs_http_date_ (t : tm) : bytes :=
  ztake 31 (default [] (DAYS !! Z.to_nat (tm_wday t)) ++ B ", " ++ dec_pad 2 (tm_mday t) ++ B " " ++
    default [] (MONS !! Z.to_nat (tm_mon t)) ++ B " " ++ dec_pad 4 (tm_year t + 1900) ++ B " " ++
    dec_pad 2 (tm_hour t) ++ B ":" ++ dec_pad 2 (tm_min t) ++ B ":" ++ dec_pad 2 (tm_sec t) ++
    B " GMT").

Definition STATUS_TEXT : list (Z * bytes) := [
  (100, B "Continue"); (101, B "Switching Protocols"); (200, B "OK"); (201, B "Created");
  (202, B "Accepted"); (204, B "No Content"); (206, B "Partial Content");
  (301, B "Moved Permanently"); (302, B "Found"); (303, B "See Other"); (304, B "Not Modified");
  (307, B "Temporary Redirect"); (308, B "Permanent Redirect"); (400, B "Bad Request");
  (401, B "Unauthorized"); (403, B "Forbidden"); (404, B "Not Found");
  (405, B "Method Not Allowed"); (408, B "Request Timeout"); (409, B "Conflict");
  (411, B "Length Required"); (413, B "Content Too Large"); (414, B "URI Too Long");
  (415, B "Unsupported Media Type"); (421, B "Misdirected Request"); (426, B "Upgrade Required");
  (429, B "Too Many Requests"); (431, B "Request Header Fields Too Large");
  (500, B "Internal Server Error"); (501, B "Not Implemented"); (502, B "Bad Gateway");
  (503, B "Service Unavailable"); (505, B "HTTP Version Not Supported")].

Definition zhs_status_text_ (status : Z) : bytes :=
  match find (λ e, fst e =? status) STATUS_TEXT with
  | Some e => snd e
  | None => []
  end.

(** ** Header-list facts *)

(** The invariant [zhs_hdrs_add_] maintains under the limits [lim]. *)
Definition hdrs_wf (lim : zhs_limits) (h : zhs_hdrs) : Prop :=
  h_n h ≤ max_headers lim ∧ 0 ≤ h_bytes h ≤ hdr_budget lim ∧ h_n h ≤ h_cap h ∧
  32 * h_n h + Z.of_nat (sum_list_with (λ e, length (hdr_name e) + length (hdr_value e))%nat (h_v h))
    ≤ h_bytes h.

Lemma hdrs_empty_wf lim : 0 ≤ max_headers lim → 0 ≤ max_header_bytes lim → hdrs_wf lim hdrs_empty.
Proof.
  intros. unfold hdrs_wf, hdrs_empty, hdr_budget, SIZE_MAX. simpl. repeat bcase; lia.
Qed.

Lemma cstr_length s : (length (cstr s) ≤ length s)%nat.
Proof. induction s as [|c s IH]; simpl; [lia|]. bcase; simpl; lia. Qed.

Lemma cstr_id s : Forall (λ c, c ≠ 0) s → cstr s = s.
Proof. induction 1 as [|c s Hc Hs IH]; [done|]. cbn [cstr]. bcase; [done|]. by rewrite IH. Qed.

Lemma hdr_budget_range lim : 0 ≤ max_header_bytes lim → 0 ≤ hdr_budget lim ≤ SIZE_MAX.
Proof.
  intros. unfold hdr_budget, SIZE_MAX. pose proof (Z.mul_div_le (2 ^ 64 - 1) 2 ltac:(lia)).
  bcase; lia.
Qed.

Lemma hdrs_add_wf `{Allocator} lim h name value lower r h' :
  hdrs_wf lim h → 0 ≤ max_header_bytes lim ≤ SIZE_MAX → zlen name + zlen value < 2 ^ 63 →
  zhs_hdrs_add_ h name value lim lower = (r, h') →
  hdrs_wf lim h' ∧
  (r = ZCIO_OK → h_v h' = h_v h ++ [mk_hdr (cstr (if lower then map tolower name else name))
                                      (cstr value)]) ∧
  (r ≠ ZCIO_OK → h_v h' = h_v h).
Proof.
  intros (Hn & Hb & Hc & Hs) Hm Hl. unfold zhs_hdrs_add_. bcase; [intros [= <- <-]; by ands|].
  bcase; [intros [= <- <-]; by ands|]. btest.
  set (ncap := if max_headers lim <? _ then max_headers lim else _).
  assert (h_n h = h_cap h → h_n h < ncap) as Hncap by (unfold ncap; intros; repeat bcase; lia).
  clearbody ncap.
  bcase; [intros [= <- <-]; by ands|].
  set (h1 := if h_n h =? h_cap h then _ else h).
  assert (h_v h1 = h_v h ∧ h_bytes h1 = h_bytes h ∧ h_n h < h_cap h1) as (Hv1 & Hb1 & Hc1).
  { unfold h1. bcase; simpl; ands; specialize (Hncap ltac:(lia)); lia. }
  clearbody h1. bcase; intros [= <- <-].
  { unfold hdrs_wf. rewrite Hv1, Hb1. ands. }
  unfold hdrs_wf. simpl. rewrite Hv1, Hb1. split; [|done].
  pose proof (hdr_budget_range lim ltac:(lia)) as HQ. unfold SIZE_MAX in *.
  rewrite !wrap_small in * by lia.
  rewrite sum_list_with_app. simpl.
  pose proof (cstr_length (if lower then map tolower name else name)) as Hs1.
  pose proof (cstr_length value) as Hs2.
  assert (length (if lower then map tolower name else name) = length name) as Hs3
    by (destruct lower; [apply length_map | done]).
  ands; zlen_simpl; lia.
Qed.

Lemma hdrs_add_code `{Allocator} h name value lim lower :
  let r := fst (zhs_hdrs_add_ h name value lim lower) in
  r = ZCIO_OK ∨ r = ZCIO_ERR_PROTOCOL ∨ r = ZCIO_ERR_NOMEM.
Proof.
  unfold zhs_hdrs_add_. destruct (max_headers lim <=? h_n h); [auto|].
  destruct (_ || _); [auto|]. set (g := (h_n h =? h_cap h) && _). clearbody g.
  destruct g; [auto|]. destruct (negb _ || negb _); auto.
Qed.

Lemma token_ok_no_nul s : zhs_token_ok_ s = true → Forall (λ c, c ≠ 0) s.
Proof.
  unfold zhs_token_ok_. bcase; [done|]. rewrite forallb_forall. intros Hf.
  apply Forall_forall. intros c Hin%list_elem_of_In%Hf ->. done.
Qed.

(** ** Decimal output *)

Definition dec_char (c : Z) : Prop := c = 45 ∨ 48 ≤ c ≤ 57.

Lemma dec_digits_chars fuel n acc :
  0 ≤ n → Forall dec_char acc → Forall dec_char (dec_digits fuel n acc).
Proof.
  revert n acc. induction fuel as [|fuel IH]; intros n acc Hn Hacc; cbn [dec_digits]; [done|].
  bcase.
  - constructor; [unfold dec_char; lia|done].
  - apply IH; [apply Z.div_pos; lia|].
    pose proof (Z.mod_pos_bound n 10 ltac:(lia)). constructor; [unfold dec_char; lia|done].
Qed.

Lemma dec_chars n : Forall dec_char (dec n).
Proof.
  unfold dec. bcase; [constructor; [by left|]|]; apply dec_digits_chars; (lia || by constructor).
Qed.

(** The value a string of digits denotes. *)
Definition dec_val (s : bytes) : Z := fold_left (λ v c, v * 10 + (c - 48)) s 0.

Lemma dec_digits_val fuel n acc :
  0 ≤ n < 10 ^ Z.of_nat fuel →
  ∃ ds, dec_digits fuel n acc = ds ++ acc ∧ dec_val ds = n ∧ Forall (λ c, 48 ≤ c ≤ 57) ds ∧
    (1 ≤ fuel → ds ≠ [])%nat.
Proof.
  revert n acc. induction fuel as [|fuel IH]; intros n acc Hn.
  { exists []. change (10 ^ Z.of_nat 0) with 1 in Hn. cbn. split; [done|]. split; [lia|]. split; [done|lia]. }
  cbn [dec_digits]. bcase.
  { exists [48 + n]. unfold dec_val. cbn. split; [done|]. split; [lia|]. split; [|done].
    constructor; [lia|done]. }
  rewrite Nat2Z.inj_succ, Z.pow_succ_r in Hn by lia.
  pose proof (Z.mod_pos_bound n 10 ltac:(lia)). pose proof (Z.div_mod n 10 ltac:(lia)).
  destruct (IH (n / 10) ((48 + n mod 10) :: acc)) as (ds & -> & Hv & Hds & Hne).
  { split; [apply Z.div_pos; lia|]. apply Z.div_lt_upper_bound; lia. }
  exists (ds ++ [48 + n mod 10]). split; [by rewrite <- app_assoc|].
  split; [unfold dec_val in *; rewrite fold_left_app, Hv; cbn; lia|].
  split; [apply Forall_app; split; [done|]; constructor; [lia|done] | intros _ E; by destruct ds].
Qed.

Lemma dec_spec n :
  0 ≤ n < 10 ^ 20 → dec_val (dec n) = n ∧ Forall (λ c, 48 ≤ c ≤ 57) (dec n) ∧ dec n ≠ [].
Proof.
  intros Hn. unfold dec. bcase; [lia|].
  destruct (dec_digits_val 20 n [] Hn) as (ds & -> & Hv & Hd & Hne). rewrite app_nil_r. ands.
  apply Hne. lia.
Qed.

Lemma value_ok_chars s : Forall dec_char s → zhs_value_ok_ s = true.
Proof.
  intros Hs. unfold zhs_value_ok_. apply forallb_forall. intros c Hc%list_elem_of_In.
  rewrite Forall_forall in Hs. specialize (Hs c Hc). unfold dec_char in Hs.
  destruct (c <? 32) eqn:E; btest; [lia|]. destruct (c =? 127) eqn:E'; btest; [lia|done].
Qed.

Lemma value_ok_app a b : zhs_value_ok_ (a ++ b) = zhs_value_ok_ a && zhs_value_ok_ b.
Proof. apply forallb_app. Qed.

Lemma value_ok_take n s : zhs_value_ok_ s = true → zhs_value_ok_ (ztake n s) = true.
Proof.
  intros H. rewrite <- (take_drop (Z.to_nat n) s), value_ok_app in H. by apply andb_prop in H as [? _].
Qed.

Lemma value_ok_date t : zhs_value_ok_ (zhs_http_date_ t) = true.
Proof.
  unfold zhs_http_date_. apply value_ok_take.
  assert (∀ w n, zhs_value_ok_ (dec_pad w n) = true) as Hp.
  { intros w n. unfold dec_pad. rewrite value_ok_app. apply andb_true_intro.
    split; apply value_ok_chars; [|apply dec_chars].
    apply Forall_replicate. right. lia. }
  assert (∀ l i, forallb zhs_value_ok_ l = true → zhs_value_ok_ (default [] (l !! i)) = true) as Hl.
  { intros l i Hf. destruct (l !! i) as [x|] eqn:E; [|done]. cbn. rewrite forallb_forall in Hf.
    apply Hf. apply list_elem_of_In. by eapply list_elem_of_lookup_2. }
  rewrite !value_ok_app, !Hp, !Hl by done. done.
Qed.


(** ** Properties *)

(** From a well-formed header list (at most [max_headers] fields, bytes
    accounted for within the budget) an add either stores exactly the given
    name, lowercased on request, and value behind the existing fields, or
    rejects with a cap or memory error and stores nothing; the list stays
    within its limits in every case, and a full list always rejects. *)
Theorem zhs_hdrs_add_bounded (a : Allocator) lim h name value lower
  (Hwf : hdrs_wf lim h) (Hm : 0 ≤ max_header_bytes lim ≤ SIZE_MAX)
  (Hl : zlen name + zlen value < 2 ^ 63) :
  ∃ r h', zhs_hdrs_add_ h name value lim lower = (r, h') ∧ hdrs_wf lim h' ∧
    (r = ZCIO_OK ∨ r = ZCIO_ERR_PROTOCOL ∨ r = ZCIO_ERR_NOMEM) ∧
    (r = ZCIO_OK → h_v h' = h_v h ++
       [mk_hdr (cstr (if lower then map tolower name else name)) (cstr value)] ∧
       zlen name ≤ max_header_bytes lim ∧ zlen value ≤ max_header_bytes lim) ∧
    (r ≠ ZCIO_OK → h_v h' = h_v h) ∧ (h_n h = max_headers lim → r = ZCIO_ERR_PROTOCOL).
Proof.
  destruct (zhs_hdrs_add_ h name value lim lower) as [r h'] eqn:E. exists r, h'.
  destruct (hdrs_add_wf lim h name value lower r h' Hwf Hm Hl E) as (Hwf' & Hok & Hno).
  split; [done|]. split; [done|]. unfold zhs_hdrs_add_ in E. revert E. bcase.
  { intros [= <- <-]. ands. }
  bcase; [intros [= <- <-]; ands|]. btest.
  assert (zlen name ≤ max_header_bytes lim ∧ zlen value ≤ max_header_bytes lim) as [Hn1 Hv1] by lia.
  set (g := (h_n h =? h_cap h) && _). clearbody g.
  destruct g; [intros [= <- <-]; ands|].
  destruct (negb _ || negb _); intros [= <- <-]; ands; intros; ands; by apply Hok.
Qed.

(** The operations of the byte buffer, as a caller issues them. *)
Inductive buf_op := BAppend (s : bytes) | BConsume (n : Z) | BReset.

Definition buf_run `{Allocator} (b : zhs_buf) (op : buf_op) : zhs_buf :=
  match op with
  | BAppend s => snd (zhs_buf_append_ b s)
  | BConsume n => zhs_buf_consume_ b n
  | BReset => zhs_buf_reset_ b
  end.

(** A byte queue without any storage. *)
Definition queue_run (q : bytes) (op : buf_op) : bytes :=
  match op with
  | BAppend s => q ++ s
  | BConsume n => zdrop n q
  | BReset => []
  end.

Definition op_size (op : buf_op) : Z := match op with BAppend s => zlen s | _ => 0 end.

Lemma buf_run_refines `{Allocator} b op :
  (∀ n, alloc_ok n = true) → buf_wf b → (∀ n, op = BConsume n → 0 ≤ n) →
  b_len b + op_size op ≤ SIZE_MAX →
  buf_wf (buf_run b op) ∧ buf_contents (buf_run b op) = queue_run (buf_contents b) op ∧
  b_len (buf_run b op) ≤ b_len b + op_size op.
Proof.
  intros Ha Hwf Hn Hs. destruct op as [s|n|]; simpl in *.
  - destruct (emits_put s b Hwf) as (r & b' & Hp & Hwf' & Hr & Hal). unfold put in Hp.
    rewrite Hp. simpl. specialize (Hal Ha Hs). destruct Hr as [(_ & Hc & Hl & _)|[-> _]]; [|done].
    ands.
  - destruct (consume_spec b n Hwf) as (H1 & H2 & H3 & _); [by apply Hn | ands].
  - destruct (reset_spec b Hwf). pose proof Hwf as (? & ? & _). ands.
Qed.

(** The growable buffer implements a byte queue: after any sequence of
    appends, consumes and resets that memory can hold, with the growth,
    clamping and compaction of the code, the readable region is exactly the
    queue's contents and the cursors stay inside the allocation. *)
Theorem zhs_buf_refines_queue (a : Allocator) ops b (Halloc : ∀ n, alloc_ok n = true)
  (Hwf : buf_wf b) (Hpos : Forall (λ op, ∀ n, op = BConsume n → 0 ≤ n) ops)
  (Hsize : b_len b + fold_right Z.add 0 (map op_size ops) ≤ SIZE_MAX) :
  buf_wf (fold_left buf_run ops b) ∧
  buf_contents (fold_left buf_run ops b) = fold_left queue_run ops (buf_contents b).
Proof.
  revert b Hwf Hsize. induction Hpos as [|op ops Hop Hops IH]; intros b Hwf Hsize; [done|].
  simpl in *. assert (∀ l, 0 ≤ fold_right Z.add 0 (map op_size l)) as Hnn.
  { clear. induction l as [|o l IH]; simpl; [lia|]. destruct o; simpl; lia. }
  specialize (Hnn ops). destruct (buf_run_refines b op Halloc Hwf Hop) as (H1 & H2 & H3); [lia|].
  rewrite <- H2. apply IH; [done|lia].
Qed.

(** ** Witnesses *)

Definition ex_limits : zhs_limits := zhs_limits_resolve_ None.

Lemma zhs_hdrs_add_bounded_witness :
  hdrs_wf ex_limits hdrs_empty ∧
  ∃ r h', @zhs_hdrs_add_ always_alloc hdrs_empty (B "Host") (B "a.b") ex_limits true = (r, h') ∧
    hdrs_wf ex_limits h' ∧ h_v h' = [mk_hdr (B "host") (B "a.b")].
Proof.
  assert (hdrs_wf ex_limits hdrs_empty) as H by (apply hdrs_empty_wf; vm_compute; discriminate).
  split; [exact H|].
  destruct (zhs_hdrs_add_bounded always_alloc ex_limits hdrs_empty (B "Host") (B "a.b") true H)
    as (r & h' & E & Hwf & _ & Hok & _); [vm_compute; split; discriminate | vm_compute; done |].
  exists r, h'. split; [exact E|]. split; [exact Hwf|]. vm_compute in E.
  injection E as <- <-. reflexivity.
Defined.

Lemma zhs_buf_refines_queue_witness :
  let ops := [BAppend (B "abc"); BConsume 2; BAppend (B "de")] in
  buf_contents (fold_left (@buf_run always_alloc) ops buf_empty) = B "cde".
Proof.
  refine (proj2 (zhs_buf_refines_queue always_alloc
    [BAppend (B "abc"); BConsume 2; BAppend (B "de")] buf_empty (λ n, eq_refl) buf_empty_wf _ _)).
  - repeat constructor; intros n [= <-]; lia.
  - unfold SIZE_MAX. simpl. lia.
Defined.
