(* ===== verification/Utf8.v ===== *)
(** * Utf8: the incremental UTF-8 validator of [src/http_util.c]

    The 364-entry table is the C array.  The properties relate it to Unicode:
    a byte string is accepted exactly when it is the UTF-8 encoding of a
    sequence of scalar values. *)
From stdpp Require Import base tactics list option strings.
From Stdlib Require Import ZArith Lia.
From S2P Require Import Prelude.

Definition utf8_dfa : list Z := [
  (* byte -> character class *)
  0;0;0;0;0;0;0;0;0;0;0;0;0;0;0;0; 0;0;0;0;0;0;0;0;0;0;0;0;0;0;0;0;
  0;0;0;0;0;0;0;0;0;0;0;0;0;0;0;0; 0;0;0;0;0;0;0;0;0;0;0;0;0;0;0;0;
  0;0;0;0;0;0;0;0;0;0;0;0;0;0;0;0; 0;0;0;0;0;0;0;0;0;0;0;0;0;0;0;0;
  0;0;0;0;0;0;0;0;0;0;0;0;0;0;0;0; 0;0;0;0;0;0;0;0;0;0;0;0;0;0;0;0;
  1;1;1;1;1;1;1;1;1;1;1;1;1;1;1;1; 9;9;9;9;9;9;9;9;9;9;9;9;9;9;9;9;
  7;7;7;7;7;7;7;7;7;7;7;7;7;7;7;7; 7;7;7;7;7;7;7;7;7;7;7;7;7;7;7;7;
  8;8;2;2;2;2;2;2;2;2;2;2;2;2;2;2; 2;2;2;2;2;2;2;2;2;2;2;2;2;2;2;2;
  10;3;3;3;3;3;3;3;3;3;3;3;3;4;3;3; 11;6;6;6;5;8;8;8;8;8;8;8;8;8;8;8;
  (* class + state -> new state *)
  0;12;24;36;60;96;84;12;12;12;48;72; 12;12;12;12;12;12;12;12;12;12;12;12;
  12; 0;12;12;12;12;12; 0;12; 0;12;12; 12;24;12;12;12;12;12;24;12;24;12;12;
  12;12;12;12;12;12;12;24;12;12;12;12; 12;24;12;12;12;12;12;12;12;24;12;12;
  12;12;12;12;12;12;12;36;12;36;12;12; 12;36;12;12;12;12;12;36;12;36;12;12;
  12;36;12;12;12;12;12;12;12;12;12;12].

Definition ZHS_UTF8_ACCEPT : Z := 0.
Definition ZHS_UTF8_REJECT : Z := 12.

(** [utf8_dfa[i]]; an index outside the table would be an out-of-bounds read. *)
Definition dfa_at (i : Z) : Z := nth (Z.to_nat i) utf8_dfa 0.

Definition zhs_utf8_step_ (state byte : Z) : Z := dfa_at (256 + state + dfa_at byte).

Fixpoint utf8_loop (st : Z) (s : bytes) : bool :=
  match s with
  | [] => st =? ZHS_UTF8_ACCEPT
  | b :: s =>
      let st := zhs_utf8_step_ st b in
      if st =? ZHS_UTF8_REJECT then false else utf8_loop st s
  end.

Definition zhs_utf8_valid_ (s : bytes) : bool := utf8_loop ZHS_UTF8_ACCEPT s.

(** ** Specification: Unicode scalar values and their encoding *)

Definition is_scalar (c : Z) : Prop := 0 ≤ c < 55296 ∨ 57344 ≤ c < 1114112.

Definition utf8_encode (c : Z) : bytes :=
  if c <? 128 then [c]
  else if c <? 2048 then [192 + c / 64; 128 + c mod 64]
  else if c <? 65536 then [224 + c / 4096; 128 + c / 64 mod 64; 128 + c mod 64]
  else [240 + c / 262144; 128 + c / 4096 mod 64; 128 + c / 64 mod 64; 128 + c mod 64].

Definition utf8_of (cs : list Z) : bytes := concat (map utf8_encode cs).

(** ** The automaton, state by state *)

Definition between (lo hi b : Z) : bool := (lo <=? b) && (b <=? hi).

(** What each live state expects next. *)
Definition spec_step (st b : Z) : Z :=
  if st =? 0 then
    if between 0 127 b then 0 else if between 194 223 b then 24
    else if between 225 236 b || between 238 239 b then 36
    else if b =? 237 then 60 else if b =? 224 then 48
    else if b =? 240 then 72 else if between 241 243 b then 84
    else if b =? 244 then 96 else 12
  else if st =? 24 then if between 128 191 b then 0 else 12
  else if st =? 36 then if between 128 191 b then 24 else 12
  else if st =? 48 then if between 160 191 b then 24 else 12
  else if st =? 60 then if between 128 159 b then 24 else 12
  else if st =? 72 then if between 144 191 b then 36 else 12
  else if st =? 84 then if between 128 191 b then 36 else 12
  else if st =? 96 then if between 128 143 b then 36 else 12
  else 12.

Definition live_states : list Z := [0; 24; 36; 48; 60; 72; 84; 96].

(** Every table lookup is in range and has the expected outcome. *)
Definition step_table_ok : bool :=
  forallb (λ st, forallb (λ n, let b := Z.of_nat n in
    bool_decide (zhs_utf8_step_ st b = spec_step st b) &&
    (256 + st + dfa_at b <? zlen utf8_dfa)) (seq 0 256)) live_states.

Lemma step_table : step_table_ok = true.
Proof. vm_compute. reflexivity. Qed.

Lemma step_eq st b :
  st ∈ live_states → is_byte b →
  zhs_utf8_step_ st b = spec_step st b ∧ 256 + st + dfa_at b < zlen utf8_dfa.
Proof.
  intros Hst Hb. pose proof step_table as H. unfold step_table_ok in H.
  rewrite forallb_forall in H. specialize (H st (proj1 (list_elem_of_In _ _) Hst)).
  rewrite forallb_forall in H. unfold is_byte in Hb.
  specialize (H (Z.to_nat b)). rewrite Z2Nat.id in H by lia.
  destruct (andb_prop _ _ (H ltac:(apply in_seq; lia))) as [H1%bool_decide_eq_true H2]. btest. done.
Qed.

Lemma spec_step_live st b : st ∈ live_states → spec_step st b ≠ 12 → spec_step st b ∈ live_states.
Proof.
  intros Hst. unfold spec_step, live_states in *.
  repeat bcase; intros; try done; apply list_elem_of_In; simpl; tauto.
Qed.

(** ** The loop *)

Lemma loop_cons st b s :
  st ∈ live_states → is_byte b →
  utf8_loop st (b :: s) = if spec_step st b =? 12 then false else utf8_loop (spec_step st b) s.
Proof. intros Hst Hb. cbn [utf8_loop]. by rewrite (proj1 (step_eq st b Hst Hb)). Qed.

(** What a state inside a character expects: the range of the next byte, and
    the state after it. *)
Definition cont_states : list (Z * Z * Z * Z) :=
  [(24, 128, 191, 0); (36, 128, 191, 24); (48, 160, 191, 24); (60, 128, 159, 24);
   (72, 144, 191, 36); (84, 128, 191, 36); (96, 128, 143, 36)].

Lemma spec_cont st lo hi nx b :
  (st, lo, hi, nx) ∈ cont_states →
  st ∈ live_states ∧ st ≠ 0 ∧ nx ≠ 12 ∧ spec_step st b = if between lo hi b then nx else 12.
Proof.
  unfold cont_states, live_states. rewrite !list_elem_of_In. simpl.
  intros [[= <- <- <- <-]|[[= <- <- <- <-]|[[= <- <- <- <-]|[[= <- <- <- <-]|[[= <- <- <- <-]|
    [[= <- <- <- <-]|[[= <- <- <- <-]|[]]]]]]]]; (split; [tauto|split; [lia|split; [lia|done]]]).
Qed.

Lemma loop_mid st lo hi nx s :
  (st, lo, hi, nx) ∈ cont_states → is_bytes s → utf8_loop st s = true →
  ∃ b s', s = b :: s' ∧ lo ≤ b ≤ hi ∧ is_bytes s' ∧ utf8_loop nx s' = true.
Proof.
  intros Hin Hs Hl. destruct s as [|b s].
  { destruct (spec_cont _ _ _ _ 0 Hin) as (_ & Hne & _). simpl in Hl.
    unfold ZHS_UTF8_ACCEPT in Hl. by btest. }
  inversion Hs; subst. destruct (spec_cont _ _ _ _ b Hin) as (Hst & _ & Hn12 & Hsp).
  rewrite loop_cons, Hsp in Hl by done. unfold between in *. revert Hl. bcase.
  - bcase; [done|]. intros Hl. by exists b, s.
  - done.
Qed.

Lemma loop_mid_step st lo hi nx b s :
  (st, lo, hi, nx) ∈ cont_states → is_byte b → lo ≤ b ≤ hi →
  utf8_loop st (b :: s) = utf8_loop nx s.
Proof.
  intros Hin Hb Hr. destruct (spec_cont _ _ _ _ b Hin) as (Hst & _ & Hn12 & Hsp).
  rewrite loop_cons, Hsp by done. unfold between.
  destruct (_ && _) eqn:E; [|apply andb_false_iff in E as [E|E]; btest; lia].
  bcase; [done|done].
Qed.

Ltac in_cont := apply list_elem_of_In; simpl; tauto.

Lemma encode2 b1 b2 :
  194 ≤ b1 ≤ 223 → 128 ≤ b2 ≤ 191 →
  ∃ c, is_scalar c ∧ utf8_encode c = [b1; b2].
Proof.
  intros. exists ((b1 - 192) * 64 + (b2 - 128)). split; [unfold is_scalar; lia|].
  unfold utf8_encode. repeat bcase; try lia. repeat f_equal; dlia.
Qed.

Lemma encode3 b1 b2 b3 :
  (b1 = 224 ∧ 160 ≤ b2 ≤ 191 ∨ (225 ≤ b1 ≤ 236 ∨ 238 ≤ b1 ≤ 239) ∧ 128 ≤ b2 ≤ 191 ∨
   b1 = 237 ∧ 128 ≤ b2 ≤ 159) → 128 ≤ b3 ≤ 191 →
  ∃ c, is_scalar c ∧ utf8_encode c = [b1; b2; b3].
Proof.
  intros. exists ((b1 - 224) * 4096 + (b2 - 128) * 64 + (b3 - 128)).
  split; [unfold is_scalar; lia|].
  unfold utf8_encode. repeat bcase; try lia. repeat f_equal; dlia.
Qed.

Lemma encode4 b1 b2 b3 b4 :
  (b1 = 240 ∧ 144 ≤ b2 ≤ 191 ∨ 241 ≤ b1 ≤ 243 ∧ 128 ≤ b2 ≤ 191 ∨ b1 = 244 ∧ 128 ≤ b2 ≤ 143) →
  128 ≤ b3 ≤ 191 → 128 ≤ b4 ≤ 191 →
  ∃ c, is_scalar c ∧ utf8_encode c = [b1; b2; b3; b4].
Proof.
  intros. exists ((b1 - 240) * 262144 + (b2 - 128) * 4096 + (b3 - 128) * 64 + (b4 - 128)).
  split; [unfold is_scalar; lia|].
  unfold utf8_encode. repeat bcase; try lia. repeat f_equal; dlia.
Qed.

(** The first byte decides the length of the character. *)
Lemma loop_first b s :
  is_byte b → utf8_loop 0 (b :: s) = true →
  (b < 128 ∧ utf8_loop 0 s = true) ∨ (194 ≤ b ≤ 223 ∧ utf8_loop 24 s = true) ∨
  ((225 ≤ b ≤ 236 ∨ 238 ≤ b ≤ 239) ∧ utf8_loop 36 s = true) ∨
  (b = 237 ∧ utf8_loop 60 s = true) ∨ (b = 224 ∧ utf8_loop 48 s = true) ∨
  (b = 240 ∧ utf8_loop 72 s = true) ∨ (241 ≤ b ≤ 243 ∧ utf8_loop 84 s = true) ∨
  (b = 244 ∧ utf8_loop 96 s = true).
Proof.
  intros Hb. rewrite loop_cons; [|in_cont|done].
  unfold spec_step, between. cbn [Z.eqb].
  assert (∀ x y, (x || y)%bool = true → x = true ∨ y = true) as Hor by (intros [] []; auto).
  repeat bcase; intros; try done.
  all: try match goal with H : (_ || _)%bool = true |- _ => apply Hor in H as [?|?]; btest end.
  all: repeat first [left; split; [lia|assumption] | split; [lia|assumption] | right].
Qed.

Lemma loop_decode s :
  is_bytes s → utf8_loop 0 s = true → ∃ cs, Forall is_scalar cs ∧ s = utf8_of cs.
Proof.
  induction s as [s IH] using (induction_ltof1 _ (@length Z)); unfold ltof in IH.
  intros Hs Hl. destruct s as [|b s]; [by exists []|]. inversion Hs as [|?? Hb Hs']; subst.
  assert (∀ c w s', is_scalar c → utf8_encode c = w → (0 < length w)%nat → b :: s = w ++ s' →
    is_bytes s' → utf8_loop 0 s' = true → ∃ cs, Forall is_scalar cs ∧ b :: s = utf8_of cs) as Step.
  { intros c w s' Hc Hw Hlen Heq Hs0 Hl0. destruct (IH s') as (cs & Hcs & ->); [|done|done|].
    { rewrite Heq. zl. }
    exists (c :: cs). split; [by constructor|]. unfold utf8_of. simpl. by rewrite Hw. }
  destruct (loop_first b s Hb Hl) as [[Hr Hl1]|[[Hr Hl1]|[[Hr Hl1]|[[Hr Hl1]|[[Hr Hl1]|[[Hr Hl1]|
    [[Hr Hl1]|[Hr Hl1]]]]]]]].
  { apply (Step b [b] s); try done; [unfold is_scalar, is_byte in *; lia| |simpl; lia].
    unfold utf8_encode. bcase; [done|lia]. }
  { destruct (loop_mid 24 128 191 0 s) as (b2 & s2 & -> & H2 & Hs2 & Hl2); [in_cont|done|done|].
    destruct (encode2 b b2) as (c & Hc & Hw); [lia|lia|]. (apply (Step c [b; b2] s2); try done; simpl; lia). }
  1-3: first [ pose proof (loop_mid 36 128 191 24 s ltac:(in_cont) Hs' Hl1) as Hm
             | pose proof (loop_mid 48 160 191 24 s ltac:(in_cont) Hs' Hl1) as Hm
             | pose proof (loop_mid 60 128 159 24 s ltac:(in_cont) Hs' Hl1) as Hm ];
    destruct Hm as (b2 & s2 & -> & H2 & Hs2 & Hl2);
    destruct (loop_mid 24 128 191 0 s2) as (b3 & s3 & -> & H3 & Hs3 & Hl3); [in_cont|done|done|];
    destruct (encode3 b b2 b3) as (c & Hc & Hw); [lia|lia|]; (apply (Step c [b; b2; b3] s3); try done; simpl; lia).
  all: first [ pose proof (loop_mid 72 144 191 36 s ltac:(in_cont) Hs' Hl1) as Hm
             | pose proof (loop_mid 84 128 191 36 s ltac:(in_cont) Hs' Hl1) as Hm
             | pose proof (loop_mid 96 128 143 36 s ltac:(in_cont) Hs' Hl1) as Hm ];
    destruct Hm as (b2 & s2 & -> & H2 & Hs2 & Hl2);
    destruct (loop_mid 36 128 191 24 s2) as (b3 & s3 & -> & H3 & Hs3 & Hl3); [in_cont|done|done|];
    destruct (loop_mid 24 128 191 0 s3) as (b4 & s4 & -> & H4 & Hs4 & Hl4); [in_cont|done|done|];
    destruct (encode4 b b2 b3 b4) as (c & Hc & Hw); [lia|lia|lia|];
    (apply (Step c [b; b2; b3; b4] s4); try done; simpl; lia).
Qed.

Lemma encode_bytes c : is_scalar c → is_bytes (utf8_encode c).
Proof.
  intros Hc. unfold utf8_encode, is_scalar in *.
  repeat bcase; repeat constructor; unfold is_byte; dlia.
Qed.

Lemma loop_encode c s : is_scalar c → utf8_loop 0 (utf8_encode c ++ s) = utf8_loop 0 s.
Proof.
  intros Hc. pose proof (encode_bytes c Hc) as Hb. unfold utf8_encode, is_scalar in *.
  revert Hb. repeat bcase; intros Hb; cbn [app]; repeat (apply Forall_cons in Hb as [? Hb]);
    (rewrite loop_cons; [|in_cont|done]); unfold spec_step, between; cbn [Z.eqb];
    unfold is_byte in *.
  - repeat bcase; try lia; done.
  - repeat bcase; try dlia. rewrite (loop_mid_step 24 128 191 0); [done|in_cont|done|dlia].
  - repeat bcase; try dlia.
    all: first [ rewrite (loop_mid_step 36 128 191 24); [|in_cont|done|dlia]
               | rewrite (loop_mid_step 48 160 191 24); [|in_cont|done|dlia]
               | rewrite (loop_mid_step 60 128 159 24); [|in_cont|done|dlia] ].
    all: rewrite (loop_mid_step 24 128 191 0); [done|in_cont|done|dlia].
  - repeat bcase; try dlia.
    all: first [ rewrite (loop_mid_step 72 144 191 36); [|in_cont|done|dlia]
               | rewrite (loop_mid_step 84 128 191 36); [|in_cont|done|dlia]
               | rewrite (loop_mid_step 96 128 143 36); [|in_cont|done|dlia] ].
    all: rewrite (loop_mid_step 36 128 191 24); [|in_cont|done|dlia].
    all: rewrite (loop_mid_step 24 128 191 0); [done|in_cont|done|dlia].
Qed.

(** ** Property *)

(** The validator accepts a byte string exactly when it is the UTF-8
    encoding of a sequence of Unicode scalar values, so it rejects overlong
    forms, surrogates, code points above U+10FFFF and truncated characters;
    and no byte drives a live state of the automaton outside its table. *)
Theorem zhs_utf8_valid_iff s (Hs : is_bytes s) :
  (zhs_utf8_valid_ s = true ↔ ∃ cs, Forall is_scalar cs ∧ s = utf8_of cs) ∧
  (∀ st b, st ∈ live_states → b ∈ s → 0 ≤ 256 + st + dfa_at b < zlen utf8_dfa ∧
     (zhs_utf8_step_ st b = ZHS_UTF8_REJECT ∨ zhs_utf8_step_ st b ∈ live_states)).
Proof.
  split; [split|].
  - apply loop_decode, Hs.
  - intros (cs & Hcs & ->). clear Hs. unfold zhs_utf8_valid_, ZHS_UTF8_ACCEPT.
    induction Hcs as [|c cs Hc Hcs IH]; [done|].
    change (utf8_of (c :: cs)) with (utf8_encode c ++ utf8_of cs).
    rewrite (loop_encode c (utf8_of cs) Hc). exact IH.
  - intros st b Hst Hin. rewrite Forall_forall in Hs. specialize (Hs b Hin).
    destruct (step_eq st b Hst Hs) as [-> Hr]. split.
    + split; [|done]. unfold dfa_at. assert (Forall (λ x, 0 ≤ x) utf8_dfa) as Hd.
      { apply Forall_forall. intros x Hx. assert (forallb (Z.leb 0) utf8_dfa = true) as Hall
          by (vm_compute; reflexivity). rewrite forallb_forall in Hall.
        apply list_elem_of_In, Hall in Hx. by btest. }
      assert (0 ≤ nth (Z.to_nat b) utf8_dfa 0).
      { destruct (nth_in_or_default (Z.to_nat b) utf8_dfa 0) as [Hn|Hn]; [|rewrite Hn; lia].
        rewrite Forall_forall in Hd. by apply Hd, list_elem_of_In. }
      unfold live_states in Hst. rewrite list_elem_of_In in Hst. simpl in Hst. lia.
    + destruct (decide (spec_step st b = 12)) as [->|Hne]; [by left|right].
      by apply spec_step_live.
Qed.

Lemma zhs_utf8_valid_iff_witness :
  zhs_utf8_valid_ [226; 130; 172; 240; 159; 152; 128] = true ∧
  zhs_utf8_valid_ [237; 160; 128] = false.
Proof.
  assert (is_bytes [226; 130; 172; 240; 159; 152; 128]) as H1
    by (repeat constructor; vm_compute; intuition discriminate).
  split; [|vm_compute; reflexivity].
  apply (proj1 (zhs_utf8_valid_iff [226; 130; 172; 240; 159; 152; 128] H1)).
  exists [8364; 128512]. split; [|reflexivity].
  repeat constructor; vm_compute; intuition discriminate.
Defined.
