(* ===== verification/Target.v ===== *)
(** * Target: request-target decoding ([src/http_util.c])

    Percent-decoding, the in-place removal of dot segments and the
    decoder that combines them.  The path buffer is the C allocation, so a
    write outside it is a [Fault]; the specification works on lists of
    segments. *)
From stdpp Require Import base tactics list option strings.
From Stdlib Require Import ZArith Lia.
From S2P Require Import Prelude Types HttpUtil.

(** ** Percent-decoding *)

Definition hexval (c : Z) : Z :=
  if (48 <=? c) && (c <=? 57) then c - 48
  else if (97 <=? c) && (c <=? 102) then c - 97 + 10
  else if (65 <=? c) && (c <=? 70) then c - 65 + 10
  else -1.

(** A decoded control byte is refused, any other is stored. *)
Definition pct_put (c : Z) (rest : Z + bytes) : Z + bytes :=
  if (c <? 32) || (c =? 127) then inl ZCIO_ERR_PROTOCOL
  else match rest with inl e => inl e | inr s => inr (c :: s) end.

Fixpoint pct_decode (s : bytes) : Z + bytes :=
  match s with
  | [] => inr []
  | c :: r =>
      if c =? 37 then
        match r with
        | a :: b :: r' =>
            let hi := hexval a in
            let lo := hexval b in
            if (hi <? 0) || (lo <? 0) then inl ZCIO_ERR_PROTOCOL
            else pct_put (u8 (Z.lor (Z.shiftl hi 4) lo)) (pct_decode r')
        | _ => inl ZCIO_ERR_PROTOCOL
        end
      else pct_put c (pct_decode r)
  end.

(** ** Dot segments, in place *)

(** [while (end < len && path[end] != '/') end++] from the given suffix. *)
Fixpoint seg_len (l : bytes) : Z :=
  match l with
  | [] => 0
  | c :: l => if c =? 47 then 0 else 1 + seg_len l
  end.

(** [while (o > 0 && path[o - 1] != '/') o--; if (o > 0) o--] *)
Fixpoint pop_seg (fuel : nat) (path : bytes) (o : Z) : Z :=
  match fuel with
  | O => o
  | S fuel =>
      if (0 <? o) && negb (default 0 (path !! Z.to_nat (o - 1)) =? 47)
      then pop_seg fuel path (o - 1)
      else if 0 <? o then o - 1 else o
  end.

(** The loop body's branch on the segment [path[seg .. seg + slen)]. *)
Definition dot_segment (path : bytes) (o seg slen : Z) : exec (option (bytes * Z)) :=
  if (slen =? 1) && (default 0 (path !! Z.to_nat seg) =? 46) then Ok (Some (path, o))
  else if (slen =? 2) && (default 0 (path !! Z.to_nat seg) =? 46) &&
          (default 0 (path !! Z.to_nat (seg + 1)) =? 46) then
    if o =? 0 then Ok None else Ok (Some (path, pop_seg (S (Z.to_nat o)) path o))
  else
    path ← mem_write o [47] path;
    s ← mem_read seg slen path;
    path ← mem_write (o + 1) s path;
    Ok (Some (path, o + 1 + slen)).

Fixpoint dot_loop (fuel : nat) (path : bytes) (len o i : Z) : exec (option (bytes * Z)) :=
  if i <? len then
    match fuel with
    | O => OutOfFuel
    | S fuel =>
        let seg := i + 1 in
        let slen := seg_len (slice seg (len - seg) path) in
        r ← dot_segment path o seg slen;
        match r with
        | None => Ok None
        | Some (path, o) =>
            let i := seg + slen in
            if (i =? len - 1) && (default 0 (path !! Z.to_nat i) =? 47) then
              path ← mem_write o [47] path;
              Ok (Some (path, o + 1))
            else dot_loop fuel path len o i
        end
    end
  else Ok (Some (path, o)).

(** Result code, the buffer and [*out_len]. *)
Definition remove_dot_segments (path : bytes) (len : Z) : exec (Z * bytes * Z) :=
  r ← dot_loop (Z.to_nat len) path len 0 0;
  match r with
  | None => Ok (ZCIO_ERR_PROTOCOL, path, 0)
  | Some (path, o) =>
      if o =? 0 then path ← mem_write 0 [47] path; Ok (ZCIO_OK, path, 1)
      else Ok (ZCIO_OK, path, o)
  end.

(** ** The decoder *)

(** The bytes before the first '?' and, when there is one, those after it. *)
Fixpoint split_query (s : bytes) : bytes * option bytes :=
  match s with
  | [] => ([], None)
  | c :: s =>
      if c =? 63 then ([], Some s)
      else let '(p, q) := split_query s in (c :: p, q)
  end.

(** Result code, [*path_out] and [*query_out]. *)
Definition zhs_decode_target_ `{Allocator} (raw : bytes) (lim : zhs_limits) :
    exec (Z * option bytes * option bytes) :=
  let rawlen := zlen raw in
  if rawlen =? 0 then Ok (ZCIO_ERR_PROTOCOL, None, None)
  else if max_url_bytes lim <? rawlen then Ok (ZCIO_ERR_PROTOCOL, None, None)
  else if bool_decide (raw = [42]) then
    match zcio_strdup_ (Some [42]) with
    | Some s => Ok (ZCIO_OK, Some s, None)
    | None => Ok (ZCIO_ERR_NOMEM, None, None)
    end
  else if negb (default 0 (raw !! 0%nat) =? 47) then Ok (ZCIO_ERR_PROTOCOL, None, None)
  else
    let '(praw, q) := split_query raw in
    match malloc (zlen praw + 2) with
    | None => Ok (ZCIO_ERR_NOMEM, None, None)
    | Some path =>
        match pct_decode praw with
        | inl _ => Ok (ZCIO_ERR_PROTOCOL, None, None)
        | inr d =>
            path ← mem_write 0 d path;
            '(r, path, norm_len) ← remove_dot_segments path (zlen d);
            if negb (r =? ZCIO_OK) then Ok (ZCIO_ERR_PROTOCOL, None, None)
            else
              path ← mem_write norm_len [0] path;
              match q with
              | None => Ok (ZCIO_OK, Some (ztake norm_len path), None)
              | Some q =>
                  if negb (zhs_value_ok_ q) then Ok (ZCIO_ERR_PROTOCOL, None, None)
                  else if alloc_ok (zlen q + 1)
                  then Ok (ZCIO_OK, Some (ztake norm_len path), Some q)
                  else Ok (ZCIO_ERR_NOMEM, None, None)
              end
        end
    end.

(** ** Specification: a stack of segments *)

(** The path made of the given segments. *)
Definition render (segs : list bytes) : bytes := concat (map (cons 47) segs).

(** The segments of a '/'-rooted path, without its first '/'. *)
Fixpoint split_segs (s : bytes) : bytes * list bytes :=
  match s with
  | [] => ([], [])
  | c :: s =>
      let '(cur, rest) := split_segs s in
      if c =? 47 then ([], cur :: rest) else (c :: cur, rest)
  end.

Definition segments (path : bytes) : list bytes := snd (split_segs path).

(** One segment: "." is dropped, ".." pops, anything else is pushed. *)
Definition seg_step (st : list bytes) (s : bytes) : option (list bytes) :=
  if bool_decide (s = [46]) then Some st
  else if bool_decide (s = [46; 46]) then
    match st with [] => None | _ => Some (removelast st) end
  else Some (st ++ [s]).

Fixpoint seg_run (st segs : list bytes) : option (list bytes) :=
  match segs with
  | [] => Some st
  | s :: segs => st' ← seg_step st s; seg_run st' segs
  end.

Definition no_slash (s : bytes) : Prop := 47 ∉ s.

Definition clean_seg (s : bytes) : Prop := no_slash s ∧ s ≠ [46] ∧ s ≠ [46; 46].

(** *** Rendering and splitting *)

Lemma render_app a b : render (a ++ b) = render a ++ render b.
Proof. unfold render. by rewrite map_app, concat_app. Qed.

Lemma render_snoc a s : render (a ++ [s]) = render a ++ 47 :: s.
Proof. rewrite render_app. unfold render. simpl. by rewrite app_nil_r. Qed.

Lemma split_segs_spec s :
  let '(cur, rest) := split_segs s in
  s = cur ++ render rest ∧ no_slash cur ∧ Forall no_slash rest.
Proof.
  induction s as [|c s IH]; simpl.
  - split; [done|]. split; [|done]. apply not_elem_of_nil.
  - destruct (split_segs s) as [cur rest]. destruct IH as (-> & Hc & Hr). bcase.
    + subst. split; [done|]. split; [apply not_elem_of_nil|]. by constructor.
    + split; [done|]. split; [|done]. unfold no_slash in *. rewrite elem_of_cons. intros [?|?]; congruence.
Qed.

Lemma segments_spec p :
  p !! 0%nat = Some 47 → p = render (segments p) ∧ Forall no_slash (segments p) ∧ segments p ≠ [].
Proof.
  destruct p as [|c p]; [done|]. intros [= ->]. unfold segments.
  pose proof (split_segs_spec p) as H. simpl.
  destruct (split_segs p) as [cur rest]. destruct H as (-> & Hc & Hr). simpl.
  split; [done|]. split; [by constructor | done].
Qed.

Lemma seg_len_spec s rest :
  no_slash s → seg_len (s ++ render rest) = zlen s.
Proof.
  intros Hs. induction s as [|c s IH]; simpl.
  - by destruct rest.
  - unfold no_slash in Hs. rewrite elem_of_cons in Hs. bcase; [naive_solver|].
    rewrite IH; [lia|]. unfold no_slash. naive_solver.
Qed.

(** Popping from the rendering of a stack that has a last segment. *)
Lemma pop_seg_spec st s path o fuel :
  no_slash s → ztake o path = render st ++ 47 :: s → 0 ≤ o ≤ zlen path →
  (length s < fuel)%nat → pop_seg fuel path o = zlen (render st).
Proof.
  revert path o fuel. induction s as [|c s IH] using rev_ind; intros path o fuel Hs Ht Ho Hf.
  - destruct fuel as [|fuel]; [simpl in Hf; lia|].
    assert (o = zlen (render st) + 1) as -> by (apply (f_equal length) in Ht; zlen_simpl_in Ht; lia).
    cbn [pop_seg]. assert (path !! Z.to_nat (zlen (render st) + 1 - 1) = Some 47) as ->.
    { rewrite <- (take_drop (Z.to_nat (zlen (render st) + 1)) path), Ht.
      rewrite lookup_app_l by zl. rewrite lookup_app_r by zl.
      replace (_ - _)%nat with 0%nat by lia. done. }
    simpl. rewrite andb_false_r. bcase; lia.
  - assert (o = zlen (render st) + 2 + zlen s) as -> by
      (apply (f_equal length) in Ht; zlen_simpl_in Ht; lia).
    destruct fuel as [|fuel]; [zlen_simpl_in Hf; lia|]. cbn [pop_seg].
    assert (path !! Z.to_nat (zlen (render st) + 2 + zlen s - 1) = Some c) as ->.
    { rewrite <- (take_drop (Z.to_nat (zlen (render st) + 2 + zlen s)) path), Ht.
      rewrite lookup_app_l by zl. rewrite lookup_app_r by zl. cbn [lookup list_lookup].
      replace (Z.to_nat _ - _)%nat with (S (length s)) by lia. cbn.
      by apply list_lookup_middle. }
    unfold no_slash in Hs. rewrite elem_of_app, list_elem_of_singleton in Hs.
    simpl. destruct (c =? 47) eqn:Ec; btest; [naive_solver|].
    destruct (0 <? _) eqn:E0; btest; [|lia]. cbn [andb negb]. apply IH.
    + unfold no_slash. naive_solver.
    + replace (zlen (render st) + 2 + zlen s - 1) with (zlen (render st) + 1 + zlen s) by lia.
      assert (ztake (zlen (render st) + 1 + zlen s) path =
        ztake (zlen (render st) + 1 + zlen s) (ztake (zlen (render st) + 2 + zlen s) path)) as ->.
      { rewrite take_take. f_equal. lia. }
      rewrite Ht. rewrite app_comm_cons, app_assoc. apply ztake_app_zlen. zl.
    + lia.
    + zlen_simpl_in Hf. lia.
Qed.

(** *** One segment of the in-place loop *)

Lemma dot_test (s : bytes) pre post o :
  o = zlen pre →
  (zlen s =? 1) && (default 0 ((pre ++ s ++ post) !! Z.to_nat o) =? 46) = bool_decide (s = [46]) ∧
  (zlen s =? 2) && (default 0 ((pre ++ s ++ post) !! Z.to_nat o) =? 46) &&
    (default 0 ((pre ++ s ++ post) !! Z.to_nat (o + 1)) =? 46) = bool_decide (s = [46; 46]).
Proof.
  intros ->.
  assert (∀ k : nat, (pre ++ s ++ post) !! Z.to_nat (zlen pre + Z.of_nat k) = (s ++ post) !! k) as Hl.
  { intros k. rewrite lookup_app_r by lia. f_equal. lia. }
  pose proof (Hl 0%nat) as H0. rewrite Z.add_0_r in H0.
  rewrite H0, (Hl 1%nat : _ !! Z.to_nat (_ + 1) = _). clear Hl H0.
  destruct s as [|a [|b [|c s]]]; cbn.
  - split; by case_bool_decide.
  - split; [|by case_bool_decide].
    destruct (a =? 46) eqn:E; btest; case_bool_decide; naive_solver.
  - split; [by case_bool_decide|].
    destruct (a =? 46) eqn:E; destruct (b =? 46) eqn:E'; btest; case_bool_decide; naive_solver.
  - rewrite !bool_decide_false by done.
    split; destruct (_ =? _) eqn:E at 1; btest; try lia; done.
Qed.

(** The '/' and the segment move down over the gap [x]. *)
Lemma push_segment r x (s t : bytes) :
  ∃ x', zlen x' = zlen x ∧
    (path ← mem_write (zlen r) [47] (r ++ x ++ (47 :: s) ++ t);
     w ← mem_read (zlen r + zlen x + 1) (zlen s) path;
     path ← mem_write (zlen r + 1) w path;
     Ok (Some (path, zlen r + 1 + zlen s)))
    = Ok (Some (r ++ (47 :: s) ++ x' ++ t, zlen r + 1 + zlen s)).
Proof.
  assert (∃ h y, x ++ [47] = h :: y) as (h & y & Hy)
    by (destruct x as [|h y]; [by exists 47, [] | by exists h, (y ++ [47])]).
  assert (zlen y = zlen x) as Hlen by (apply (f_equal length) in Hy; zlen_simpl_in Hy; lia).
  assert (r ++ x ++ (47 :: s) ++ t = r ++ [h] ++ (y ++ s ++ t)) as ->.
  { change (47 :: s) with ([47] ++ s). rewrite <- !app_assoc, (app_assoc x [47]), Hy. done. }
  exists (zdrop (zlen s) (y ++ s)). split; [zl|].
  rewrite (mem_write_at r [h]); [|done|done]. cbn [mbind exec_bind].
  rewrite (app_assoc [47]), (app_assoc r). rewrite (mem_read_at (r ++ [47] ++ y) s t); [|zl|done].
  cbn [mbind exec_bind].
  assert ((r ++ [47] ++ y) ++ s ++ t =
    (r ++ [47]) ++ ztake (zlen s) (y ++ s) ++ zdrop (zlen s) (y ++ s) ++ t) as ->.
  { rewrite (app_assoc (ztake _ _)), take_drop. by rewrite <- !app_assoc. }
  rewrite mem_write_at; [|zl|zl]. cbn [mbind exec_bind]. by rewrite <- !app_assoc.
Qed.

Lemma dot_segment_spec st x s t :
  Forall no_slash st → no_slash s →
  match seg_step st s with
  | None => dot_segment (render st ++ x ++ (47 :: s) ++ t) (zlen (render st))
              (zlen (render st) + zlen x + 1) (zlen s) = Ok None
  | Some st' => ∃ x', dot_segment (render st ++ x ++ (47 :: s) ++ t) (zlen (render st))
              (zlen (render st) + zlen x + 1) (zlen s)
              = Ok (Some (render st' ++ x' ++ t, zlen (render st'))) ∧
      zlen (render st' ++ x') = zlen (render st) + zlen x + 1 + zlen s ∧ Forall no_slash st'
  end.
Proof.
  intros Hst Hs. unfold dot_segment, seg_step.
  destruct (dot_test s (render st ++ x ++ [47]) t (zlen (render st) + zlen x + 1)) as [H1 H2]; [zl|].
  assert ((render st ++ x ++ [47]) ++ s ++ t = render st ++ x ++ (47 :: s) ++ t) as Heq
    by (by rewrite <- !app_assoc).
  rewrite Heq in H1, H2. rewrite H1, H2. clear H1 H2. case_bool_decide as E1; [|case_bool_decide as E2].
  - exists (x ++ 47 :: s). rewrite <- app_assoc. split; [done|]. split; [zl|done].
  - destruct st as [|s0 st0 _] using rev_ind; [done|].
    destruct (st0 ++ [s0]) eqn:E; [by destruct st0|]. rewrite <- E in *. clear E Heq.
    rewrite removelast_last. apply Forall_app in Hst as [Hst0 Hs0]. apply Forall_cons in Hs0 as [Hs0 _].
    exists ((47 :: s0) ++ x ++ 47 :: s). bcase; [rewrite render_snoc in Heqb; zlen_simpl_in Heqb; lia|].
    rewrite (pop_seg_spec st0 s0); [|done| | |].
    + rewrite render_snoc. split; [|split; [zl|done]]. do 3 f_equal. by rewrite <- !app_assoc.
    + rewrite ztake_app_zlen by done. apply render_snoc.
    + zl.
    + rewrite render_snoc. zl.
  - destruct (push_segment (render st) x s t) as (x' & Hx & Hp). exists x'. rewrite render_snoc.
    split; [|split; [zl|apply Forall_app; split; [done|by constructor]]].
    etrans; [exact Hp|]. rewrite <- app_assoc. do 3 f_equal. zl.
Qed.

Lemma render_one rest : zlen (render rest) = 1 → rest = [[]].
Proof.
  destruct rest as [|[|c s] [|s' rest]]; try done; unfold render; simpl; intros H; try lia.
  all: zlen_simpl_in H; lia.
Qed.

Lemma dot_loop_spec fuel st rest x t len :
  Forall no_slash st → Forall no_slash rest → (length rest ≤ fuel)%nat →
  len = zlen (render st) + zlen x + zlen (render rest) →
  match seg_run st rest with
  | None => dot_loop fuel (render st ++ x ++ render rest ++ t) len (zlen (render st))
              (zlen (render st) + zlen x) = Ok None
  | Some st' => ∃ x', dot_loop fuel (render st ++ x ++ render rest ++ t) len (zlen (render st))
              (zlen (render st) + zlen x)
              = Ok (Some (render st' ++ x' ++ t, zlen (render st'))) ∧
      zlen (render st' ++ x') = len ∧ Forall no_slash st'
  end.
Proof.
  revert st x fuel. induction rest as [|s rest IH]; intros st x fuel Hst Hrest Hf Hlen.
  - change (render []) with (@nil Z) in *. simpl. destruct fuel; cbn [dot_loop]; bcase;
      try (simpl in Hlen; lia); exists x; (split; [done | split; [zl|done]]).
  - inversion Hrest as [|?? Hs Hrest']; subst. destruct fuel as [|fuel]; [simpl in Hf; lia|].
    assert (render (s :: rest) = (47 :: s) ++ render rest) as Hr by done.
    cbn [dot_loop seg_run]. bcase; [|exfalso; rewrite Hr in Heqb; zlen_simpl_in Heqb; lia].
    assert (seg_len (slice (zlen (render st) + zlen x + 1)
      (zlen (render st) + zlen x + zlen (render (s :: rest)) - (zlen (render st) + zlen x + 1))
      (render st ++ x ++ render (s :: rest) ++ t)) = zlen s) as ->.
    { rewrite <- (seg_len_spec s rest) by done. f_equal. unfold slice.
      rewrite Hr. cbn [app]. rewrite <- (app_assoc s).
      replace (render st ++ x ++ 47 :: s ++ render rest ++ t)
        with ((render st ++ x ++ [47]) ++ s ++ render rest ++ t) by (by rewrite <- !app_assoc).
      rewrite zdrop_app_zlen by zl. rewrite (app_assoc s). apply ztake_app_zlen. zl. }
    rewrite Hr, <- (app_assoc (47 :: s)).
    pose proof (dot_segment_spec st x s (render rest ++ t) Hst Hs) as Hd.
    destruct (seg_step st s) as [st1|]; [|by rewrite Hd].
    destruct Hd as (x1 & -> & Hx1 & Hst1). cbn [mbind exec_bind option_bind].
    specialize (IH st1 x1 fuel Hst1 Hrest' ltac:(simpl in Hf; lia)).
    zlen_simpl_in Hx1.
    specialize (IH ltac:(rewrite Hr; zl)).
    replace (zlen (render st) + zlen x + 1 + zlen s) with (zlen (render st1) + zlen x1) by lia.
    destruct ((_ =? _) && _) eqn:Eb; btest; [|exact IH].
    assert (rest = [[]]) as -> by (apply render_one; zlen_simpl_in H; lia).
    cbn [seg_run seg_step]. change (render [[]]) with [47] in *. clear IH H0.
    assert (∃ h x2, x1 ++ [47] = h :: x2) as (h & x2 & Hh)
      by (destruct x1 as [|h x2]; [by exists 47, [] | by exists h, (x2 ++ [47])]).
    rewrite (app_assoc x1), Hh. change ((h :: x2) ++ t) with ([h] ++ x2 ++ t).
    rewrite (mem_write_at _ [h]) by done.
    apply (f_equal length) in Hh. zlen_simpl_in Hh.
    exists x2. rewrite render_snoc. split; [|split; [zl|]].
    + simpl. rewrite <- (app_assoc (render st1)). do 3 f_equal. zl.
    + apply Forall_app. split; [done|]. constructor; [apply not_elem_of_nil|done].
Qed.

(** ** The whole decoder *)

Definition path_ok (c : Z) : Prop := 32 ≤ c ∧ c ≠ 127.

Lemma pct_decode_spec s d : pct_decode s = inr d → zlen d ≤ zlen s ∧ Forall path_ok d.
Proof.
  revert d. induction s as [s IH] using (induction_ltof1 _ (@length Z)); unfold ltof in IH.
  intros d. assert (∀ c r, (length r < length s)%nat → pct_put c (pct_decode r) = inr d →
    zlen d ≤ zlen s ∧ Forall path_ok d) as Hput.
  { intros c r Hr. unfold pct_put. bcase; [done|]. destruct (pct_decode r) as [|d'] eqn:E; [done|].
    intros [= <-]. destruct (IH r Hr d' E). split; [cbn [length]; lia|].
    constructor; [unfold path_ok; lia | done]. }
  destruct s as [|c s]; simpl; [intros [= <-]; by split|].
  bcase; [|apply Hput; simpl; lia]. destruct s as [|a [|b s]]; try done.
  bcase; [done|]. apply Hput. simpl. lia.
Qed.

Lemma pct_decode_root s d : pct_decode (47 :: s) = inr d → d !! 0%nat = Some 47.
Proof. simpl. unfold pct_put. simpl. destruct (pct_decode s); [done|]. by intros [= <-]. Qed.

Lemma split_query_spec s :
  let '(p, q) := split_query s in
  63 ∉ p ∧ s = p ++ (match q with Some q => 63 :: q | None => [] end).
Proof.
  induction s as [|c s IH]; simpl; [split; [apply not_elem_of_nil|done]|]. bcase.
  - subst. split; [apply not_elem_of_nil|done].
  - destruct (split_query s) as [p q]. destruct IH as [Hp ->]. split; [|done].
    rewrite elem_of_cons. intros [?|?]; [congruence|done].
Qed.

Definition canonical (st : list bytes) : bytes := match st with [] => [47] | _ => render st end.

(** What a request target means, without buffers. *)
Definition target_spec (raw : bytes) (lim : zhs_limits) : Z * option bytes * option bytes :=
  let bad := (ZCIO_ERR_PROTOCOL, None, None) in
  if (zlen raw =? 0) || (max_url_bytes lim <? zlen raw) then bad
  else if bool_decide (raw = [42]) then (ZCIO_OK, Some [42], None)
  else if negb (default 0 (raw !! 0%nat) =? 47) then bad
  else
    let '(praw, q) := split_query raw in
    match pct_decode praw with
    | inl _ => bad
    | inr d =>
        match seg_run [] (segments d), q with
        | None, _ => bad
        | Some st, None => (ZCIO_OK, Some (canonical st), None)
        | Some st, Some q =>
            if zhs_value_ok_ q then (ZCIO_OK, Some (canonical st), Some q) else bad
        end
    end.

Lemma remove_dot_segments_spec d tail :
  d !! 0%nat = Some 47 →
  match seg_run [] (segments d) with
  | None => ∃ p, remove_dot_segments (d ++ tail) (zlen d) = Ok (ZCIO_ERR_PROTOCOL, p, 0)
  | Some st => ∃ x, remove_dot_segments (d ++ tail) (zlen d)
        = Ok (ZCIO_OK, canonical st ++ x ++ tail, zlen (canonical st)) ∧
      zlen (canonical st ++ x) = zlen d
  end.
Proof.
  intros Hd. destruct (segments_spec d Hd) as (Hr & Hns & Hne). unfold remove_dot_segments.
  assert (length (segments d) ≤ length d)%nat as Hlen.
  { rewrite Hr at 2. generalize (segments d). intros l. induction l as [|s l IH]; cbn [length]; [lia|].
    change (render (s :: l)) with ((47 :: s) ++ render l). zl. }
  pose proof (dot_loop_spec (Z.to_nat (zlen d)) [] (segments d) [] tail (zlen d)
    ltac:(constructor) Hns ltac:(lia) ltac:(rewrite Hr at 1; done)) as Hl.
  rewrite <- Hr in Hl. change (render []) with (@nil Z) in Hl. cbn [app length] in Hl.
  change (Z.of_nat 0 + Z.of_nat 0) with 0 in Hl. change (Z.of_nat 0) with 0 in Hl.
  destruct (seg_run [] (segments d)) as [st|].
  - destruct Hl as (x & -> & Hx & _). cbn [mbind exec_bind]. destruct st as [|s st].
    + cbn [render canonical map concat app length] in *.
      destruct x as [|h x].
      { destruct d; [done|]. cbn in Hx. lia. }
      bcase; [|done]. change (h :: x) with ([h] ++ x). rewrite <- app_assoc.
      exists x. pose proof (mem_write_at [] [h] (x ++ tail) [47] 0 eq_refl eq_refl) as Hw.
      cbn [app] in Hw. cbn [app]. rewrite Hw. done.
    + bcase; [change (render (s :: st)) with ((47 :: s) ++ render st) in Heqb; zlen_simpl_in Heqb; lia|].
      by exists x.
  - rewrite Hl. by exists (d ++ tail).
Qed.

Lemma decode_target_cases `{Allocator} raw lim :
  zhs_decode_target_ raw lim = Ok (target_spec raw lim) ∨
  (zhs_decode_target_ raw lim = Ok (ZCIO_ERR_NOMEM, None, None) ∧ ∃ n, alloc_ok n = false).
Proof.
  unfold zhs_decode_target_, target_spec.
  destruct (zlen raw =? 0) eqn:E1; [by left|]. cbn [orb].
  destruct (_ <? zlen raw); [by left|]. case_bool_decide.
  { unfold zcio_strdup_. destruct (alloc_ok _) eqn:Ea; [by left|right]. eauto. }
  destruct (raw !! 0%nat) as [c|] eqn:E0; [|by left]. cbn [default].
  destruct (negb (id c =? 47)) eqn:Ec; [by left|]. btest. unfold id in Ec. subst c.
  pose proof (split_query_spec raw) as Hq. destruct (split_query raw) as [praw q].
  destruct Hq as [_ Hraw].
  assert (∃ p, praw = 47 :: p) as [p Hp].
  { destruct praw as [|c p].
    - exfalso. subst raw. destruct q; done.
    - subst raw. injection E0 as ->. by exists p. }
  unfold malloc. destruct (alloc_ok (zlen praw + 2)) eqn:Ea; [|right; eauto].
  destruct (pct_decode praw) as [|d] eqn:Ed; [by left|].
  destruct (pct_decode_spec praw d Ed) as [Hlen _].
  assert (d !! 0%nat = Some 47) as Hd by (subst praw; by eapply pct_decode_root).
  rewrite mem_write_ok by (cbn; zl). cbn [mbind exec_bind]. change (ztake 0 _) with (@nil Z). cbn [app].
  set (tail := zdrop (0 + zlen d) _).
  assert (zlen tail = zlen praw + 2 - zlen d) as Ht by (subst tail; zl).
  pose proof (remove_dot_segments_spec d tail Hd) as Hrd.
  destruct (seg_run [] (segments d)) as [st|]; [|destruct Hrd as (p' & ->); by left].
  destruct Hrd as (x & -> & Hx). cbn [mbind exec_bind]. cbn [negb Z.eqb].
  rewrite mem_write_ok by (cbn; zlen_simpl; zlen_simpl_in Hx; lia). cbn [mbind exec_bind].
  rewrite (ztake_app_zlen (canonical st)) by done. rewrite (ztake_app_zlen (canonical st)) by done.
  change (ZCIO_OK =? ZCIO_OK) with true. cbn [negb].
  destruct q as [q|]; [|by left]. destruct (zhs_value_ok_ q); [|by left]. cbn [negb].
  destruct (alloc_ok (zlen q + 1)) eqn:Eq; [by left|right; eauto].
Qed.

(** *** What the segment stack guarantees *)

Lemma seg_step_clean st s st' :
  Forall clean_seg st → no_slash s → seg_step st s = Some st' → Forall clean_seg st'.
Proof.
  intros Hst Hs. unfold seg_step. case_bool_decide; [by intros [= <-]|]. case_bool_decide.
  - destruct st as [|s0 st _] using rev_ind; [done|].
    destruct (st ++ [s0]) eqn:E; [by destruct st|]. rewrite <- E in *. intros [= <-].
    rewrite removelast_last. by apply Forall_app in Hst as [? _].
  - intros [= <-]. apply Forall_app. split; [done|]. by constructor.
Qed.

Lemma seg_run_clean st segs st' :
  Forall clean_seg st → Forall no_slash segs → seg_run st segs = Some st' → Forall clean_seg st'.
Proof.
  intros Hst Hs. revert st Hst. induction Hs as [|s segs Hs Hsegs IH]; simpl; intros st Hst.
  - by intros [= <-].
  - intros (st1 & H1 & H2)%bind_Some. eapply IH; [|done]. by eapply seg_step_clean.
Qed.

(** Every segment kept comes from the input. *)
Lemma seg_run_subset st segs st' :
  seg_run st segs = Some st' → ∀ s, s ∈ st' → s ∈ st ∨ s ∈ segs.
Proof.
  revert st. induction segs as [|s0 segs IH]; simpl; intros st.
  - intros [= <-]. auto.
  - intros (st1 & H1 & H2)%bind_Some s Hs. apply (IH _ H2) in Hs as [Hs|Hs].
    + unfold seg_step in H1. revert H1. case_bool_decide; [intros [= <-]; auto|].
      case_bool_decide.
      * destruct st as [|s1 st _] using rev_ind; [done|].
        destruct (st ++ [s1]) eqn:E; [by destruct st|]. rewrite <- E in *. intros [= <-].
        rewrite removelast_last in Hs. left. apply elem_of_app. auto.
      * intros [= <-]. apply elem_of_app in Hs as [Hs|Hs]; [auto|].
        apply list_elem_of_singleton in Hs as ->. right. by left.
    + right. by right.
Qed.

Lemma render_elem segs s c : s ∈ segs → c ∈ s → c ∈ render segs.
Proof.
  intros Hs Hc. unfold render. apply list_elem_of_In, in_concat. exists (47 :: s).
  split; [apply in_map_iff; exists s; split; [done|by apply list_elem_of_In]|].
  apply list_elem_of_In. by right.
Qed.

(** Read off a result code and its outputs. *)
Ltac ret :=
  do 3 eexists; split; [reflexivity|]; split; [tauto|];
  split; [first [done | by intros []] | first [done | intros _; split; [lia|]]].

Lemma decode_target_result `{Allocator} raw lim :
  ∃ r po qo, zhs_decode_target_ raw lim = Ok (r, po, qo) ∧
    (r = ZCIO_OK ∨ r = ZCIO_ERR_PROTOCOL ∨ r = ZCIO_ERR_NOMEM) ∧
    (r ≠ ZCIO_OK → po = None ∧ qo = None) ∧
    (r = ZCIO_OK → zlen raw ≤ max_url_bytes lim ∧
      ((raw = [42] ∧ po = Some [42] ∧ qo = None) ∨
       ∃ segs, po = Some (canonical segs) ∧ Forall clean_seg segs ∧
         Forall (Forall path_ok) segs ∧ zlen (canonical segs) ≤ zlen raw ∧
         (∀ q, qo = Some q → zhs_value_ok_ q = true))).
Proof.
  destruct (decode_target_cases raw lim) as [->|[-> _]]; [|ret].
  unfold target_spec. destruct (zlen raw =? 0) eqn:E1; [ret|].
  destruct (_ <? zlen raw) eqn:E2; [ret|]. btest. cbn [orb].
  case_bool_decide; [ret; left; done|].
  destruct (negb _) eqn:Ec; [ret|]. btest.
  pose proof (split_query_spec raw) as Hq. destruct (split_query raw) as [praw q].
  destruct Hq as [_ Hraw]. destruct (pct_decode praw) as [|d] eqn:Ed; [ret|].
  destruct (pct_decode_spec praw d Ed) as [Hlen Hctl].
  destruct (seg_run [] (segments d)) as [st|] eqn:Es; [|ret].
  assert (d !! 0%nat = Some 47) as Hd.
  { destruct praw as [|c p].
    - exfalso. subst raw. destruct q; done.
    - subst raw. cbn in Ec. subst c. by eapply pct_decode_root. }
  destruct (segments_spec d Hd) as (Hr & Hns & _).
  assert (Forall clean_seg st) as Hclean by (by eapply seg_run_clean).
  assert (Forall (Forall path_ok) st) as Hok.
  { apply Forall_forall. intros s Hs. apply Forall_forall. intros c Hc.
    destruct (seg_run_subset _ _ _ Es s Hs) as [H'|H']; [by apply elem_of_nil in H'|].
    rewrite Forall_forall in Hctl. apply Hctl. rewrite Hr. by eapply render_elem. }
  assert (zlen (canonical st) ≤ zlen raw).
  { pose proof (remove_dot_segments_spec d [] Hd) as Hrd. rewrite Es in Hrd.
    destruct Hrd as (x & _ & Hx). subst raw. zlen_simpl_in Hx. zl. }
  destruct q as [q|]; [destruct (zhs_value_ok_ q) eqn:Ev|]; ret;
    right; exists st; split_and!; try done; by intros ? [= <-].
Qed.

(** ** Properties *)

(** C38: With memory available, request-target decoding (the percent decoder,
    the in-place segment loop with its overlapping moves and its trailing-slash
    case, and the query split) computes exactly the list specification: decode,
    split at '/', drop ".", pop on "..", refuse a pop above the root. *)
Theorem zhs_decode_target_refines (a : Allocator) raw lim (Ha : ∀ n, alloc_ok n = true) :
  zhs_decode_target_ raw lim = Ok (target_spec raw lim).
Proof.
  destruct (decode_target_cases raw lim) as [H|(_ & n & Hn)]; [exact H|].
  rewrite Ha in Hn. discriminate.
Qed.

(** Decoding any request target never reads or writes outside the path
    buffer, terminates, and on success hands a handler either the literal "*"
    or a '/'-rooted path in which no segment is "." or ".." and no byte is a
    control character, together with a query free of control characters. *)
Theorem zhs_decode_target_safe (a : Allocator) raw lim :
  ∃ r po qo, zhs_decode_target_ raw lim = Ok (r, po, qo) ∧
    (r = ZCIO_OK ∨ r = ZCIO_ERR_PROTOCOL ∨ r = ZCIO_ERR_NOMEM) ∧
    (r ≠ ZCIO_OK → po = None ∧ qo = None) ∧
    (r = ZCIO_OK → zlen raw ≤ max_url_bytes lim ∧
      ((raw = [42] ∧ po = Some [42] ∧ qo = None) ∨
       ∃ segs, po = Some (canonical segs) ∧ Forall clean_seg segs ∧
         Forall (Forall path_ok) segs ∧ zlen (canonical segs) ≤ zlen raw ∧
         (∀ q, qo = Some q → zhs_value_ok_ q = true))).
Proof. exact (decode_target_result raw lim). Qed.

(** ** Witness *)

Lemma zhs_decode_target_refines_witness :
  @zhs_decode_target_ always_alloc (B "/a/./b%2f../../c/?x=1") (zhs_limits_resolve_ None)
  = Ok (ZCIO_OK, Some (B "/c/"), Some (B "x=1")).
Proof.
  rewrite (zhs_decode_target_refines always_alloc _ _ (λ n, eq_refl)).
  vm_compute. reflexivity.
Defined.
