(* ===== verification/HpackInt.v ===== *)
(** * HpackInt: the prefixed integers of [src/hpack.c], shared with QPACK

    The decoder takes the bytes from the current position on and returns the
    number consumed and the value, or an error code.  The encoder writes to a
    byte buffer; [int_code] is what it writes. *)
From stdpp Require Import base tactics list option strings.
From Stdlib Require Import ZArith Lia.
From S2P Require Import Prelude Types Buf.

Definition ZHP_INT_MAX : Z := Z.shiftl 1 24.

(** The continuation octets: at most four (shifts 0, 7, 14, 21). *)
Fixpoint int_cont (p : bytes) (i v shift : Z) : Z + (Z * Z) :=
  match p with
  | [] => inl ZCIO_ERR_PROTOCOL
  | b :: p =>
      let i := i + 1 in
      let v := u64 (v + Z.shiftl (Z.land b 127) shift) in
      if ZHP_INT_MAX <? v then inl ZCIO_ERR_PROTOCOL
      else if Z.land b 128 =? 0 then inr (i, v)
      else
        let shift := shift + 7 in
        if 28 <=? shift then inl ZCIO_ERR_PROTOCOL else int_cont p i v shift
  end.

Definition zhp_int_decode_ (p : bytes) (prefix_bits : Z) : Z + (Z * Z) :=
  match p with
  | [] => inl ZCIO_ERR_PROTOCOL
  | b :: p =>
      let prefix_max := Z.shiftl 1 prefix_bits - 1 in
      let v := Z.land b prefix_max in
      if v <? prefix_max then inr (1, v) else int_cont p 1 v 0
  end.

Section Encode.
Context `{Allocator}.

(** [while (v >= 128)]: seven bits a round, at most ten rounds for 64 bits. *)
Fixpoint int_encode_loop (fuel : nat) (v : Z) : emitter :=
  match fuel with
  | O => emit_ok
  | S fuel =>
      if 128 <=? v
      then (λ b, zhs_buf_append_u8_ b (u8 (Z.lor 128 (Z.land v 127)))) ▷
           int_encode_loop fuel (Z.shiftr v 7)
      else (λ b, zhs_buf_append_u8_ b (u8 v))
  end.

Definition zhp_int_encode_ (prefix_bits flags v : Z) : emitter :=
  let prefix_max := u8 (Z.shiftl 1 prefix_bits - 1) in
  if v <? prefix_max then (λ b, zhs_buf_append_u8_ b (u8 (Z.lor flags (u8 v))))
  else (λ b, zhs_buf_append_u8_ b (u8 (Z.lor flags prefix_max))) ▷
       int_encode_loop 10 (v - prefix_max).
End Encode.

(** ** What the encoder writes *)

Fixpoint int_code_loop (fuel : nat) (v : Z) : bytes :=
  match fuel with
  | O => []
  | S fuel =>
      if 128 <=? v
      then u8 (Z.lor 128 (Z.land v 127)) :: int_code_loop fuel (Z.shiftr v 7)
      else [u8 v]
  end.

Definition int_code (prefix_bits flags v : Z) : bytes :=
  let prefix_max := u8 (Z.shiftl 1 prefix_bits - 1) in
  if v <? prefix_max then [u8 (Z.lor flags (u8 v))]
  else u8 (Z.lor flags prefix_max) :: int_code_loop 10 (v - prefix_max).

#[export] Instance emits_int_loop `{Allocator} fuel v :
  Emits (int_encode_loop fuel v) (int_code_loop fuel v).
Proof.
  revert v. induction fuel as [|fuel IH]; intros v; simpl; [apply _|].
  bcase; [|apply _]. exact (emits_seq _ _ [_] _).
Qed.

#[export] Instance emits_int `{Allocator} prefix flags v :
  Emits (zhp_int_encode_ prefix flags v) (int_code prefix flags v).
Proof.
  unfold zhp_int_encode_, int_code. bcase; [apply _|]. exact (emits_seq _ _ [_] _).
Qed.

(** ** Facts *)

(** The prefixes of RFC 7541: [prefix_max] is a mask of low bits. *)
Lemma prefix_mask k : 1 ≤ k ≤ 8 → Z.shiftl 1 k - 1 = Z.ones k ∧ 1 ≤ Z.ones k ≤ 255 ∧ 2 ^ k ≤ 256.
Proof.
  intros Hk. rewrite Z.shiftl_1_l, Z.ones_equiv.
  assert (2 ^ 1 ≤ 2 ^ k) by (apply Z.pow_le_mono_r; lia).
  assert (2 ^ k ≤ 2 ^ 8) by (apply Z.pow_le_mono_r; lia). lia.
Qed.

Lemma land_127 b : 0 ≤ Z.land b 127 < 128.
Proof. change 127 with (Z.ones 7). rewrite Z.land_ones by lia. apply Z.mod_pos_bound. lia. Qed.

Lemma more_bit b : is_byte b → (Z.land b 128 =? 0) = (b <? 128).
Proof.
  intros Hb. assert (forallb (λ n, Bool.eqb (Z.land (Z.of_nat n) 128 =? 0) (Z.of_nat n <? 128))
    (seq 0 256) = true) as H by (vm_compute; reflexivity).
  rewrite forallb_forall in H. unfold is_byte in Hb. specialize (H (Z.to_nat b)).
  rewrite Z2Nat.id in H by lia. apply eqb_prop, H, in_seq. lia.
Qed.

Lemma cont_octet v : 128 ≤ v → u8 (Z.lor 128 (Z.land v 127)) = 128 + v mod 128.
Proof.
  intros Hv. change 127 with (Z.ones 7). rewrite Z.land_ones by lia. change (2 ^ 7) with 128.
  pose proof (Z.mod_pos_bound v 128 ltac:(lia)) as Hm. generalize dependent (v mod 128). clear v Hv.
  intros m Hm. assert (forallb (λ n, u8 (Z.lor 128 (Z.of_nat n)) =? 128 + Z.of_nat n)
    (seq 0 128) = true) as H by (vm_compute; reflexivity).
  rewrite forallb_forall in H. specialize (H (Z.to_nat m)). rewrite Z2Nat.id in H by lia.
  apply Z.eqb_eq, H, in_seq. lia.
Qed.

(** One octet of the continuation, with [b]'s seven bits entering at [shift]. *)
Lemma int_cont_step b p i v shift :
  is_byte b → 0 ≤ shift ≤ 21 → 0 ≤ v ≤ ZHP_INT_MAX →
  int_cont (b :: p) i v shift =
    let v := v + b mod 128 * 2 ^ shift in
    if ZHP_INT_MAX <? v then inl ZCIO_ERR_PROTOCOL
    else if b <? 128 then inr (i + 1, v)
    else if 28 <=? shift + 7 then inl ZCIO_ERR_PROTOCOL else int_cont p (i + 1) v (shift + 7).
Proof.
  intros Hb Hs Hv. cbn [int_cont]. rewrite more_bit by done.
  change 127 with (Z.ones 7). rewrite Z.land_ones by lia. change (2 ^ 7) with 128.
  rewrite Z.shiftl_mul_pow2 by lia. rewrite wrap_small; [done|].
  pose proof (Z.mod_pos_bound b 128 ltac:(lia)).
  assert (2 ^ shift ≤ 2 ^ 21) by (apply Z.pow_le_mono_r; lia).
  assert (0 < 2 ^ shift) by (apply Z.pow_pos_nonneg; lia).
  change ZHP_INT_MAX with 16777216 in Hv. nia.
Qed.

(** [k] groups of seven bits remain. *)
Lemma int_cont_code k fuel w p i v :
  (k ≤ 4)%nat → (k ≤ fuel)%nat → 0 ≤ w < 2 ^ (7 * Z.of_nat k) → (1 ≤ k)%nat → 0 ≤ v →
  v + w * 2 ^ (28 - 7 * Z.of_nat k) ≤ ZHP_INT_MAX →
  int_cont (int_code_loop fuel w ++ p) i v (28 - 7 * Z.of_nat k) =
    inr (i + zlen (int_code_loop fuel w), v + w * 2 ^ (28 - 7 * Z.of_nat k)).
Proof.
  revert fuel w i v. induction k as [|k IH]; intros fuel w i v H4 Hf Hw H1 Hv Hmax; [lia|].
  destruct fuel as [|fuel]; [lia|]. cbn [int_code_loop].
  assert (0 < 2 ^ (28 - 7 * Z.of_nat (S k))) as Hp by (apply Z.pow_pos_nonneg; lia).
  assert (0 ≤ w * 2 ^ (28 - 7 * Z.of_nat (S k))) by nia.
  bcase; cbn [app].
  - assert (1 ≤ k)%nat as Hk.
    { destruct k; [|lia]. change (2 ^ (7 * Z.of_nat 1)) with 128 in Hw. lia. }
    rewrite cont_octet by done. pose proof (Z.mod_pos_bound w 128 ltac:(lia)).
    pose proof (Z.div_mod w 128 ltac:(lia)) as Hdm.
    assert (2 ^ (28 - 7 * Z.of_nat k) = 128 * 2 ^ (28 - 7 * Z.of_nat (S k))) as Hpow.
    { change 128 with (2 ^ 7) at 1. rewrite <- Z.pow_add_r by lia. f_equal. lia. }
    assert (2 ^ (7 * Z.of_nat (S k)) = 128 * 2 ^ (7 * Z.of_nat k)) as Hpow'.
    { change 128 with (2 ^ 7) at 1. rewrite <- Z.pow_add_r by lia. f_equal. lia. }
    rewrite int_cont_step; [|unfold is_byte; lia|lia|nia]. cbv zeta.
    replace ((128 + w mod 128) mod 128) with (w mod 128) by dlia.
    assert (0 ≤ w / 128) by (apply Z.div_pos; lia).
    destruct (ZHP_INT_MAX <? _) eqn:E1; btest; [nia|].
    destruct (_ <? 128) eqn:E2; btest; [lia|]. destruct (28 <=? _) eqn:E3; btest; [lia|].
    replace (28 - 7 * Z.of_nat (S k) + 7) with (28 - 7 * Z.of_nat k) by lia.
    rewrite Z.shiftr_div_pow2 by lia. change (2 ^ 7) with 128.
    rewrite IH; [|lia|lia| |lia|nia|].
    + f_equal. f_equal; [cbn [length]; lia|]. rewrite Hpow. nia.
    + split; [lia|]. apply Z.div_lt_upper_bound; lia.
    + rewrite Hpow. nia.
  - rewrite (wrap_small 8 w) by lia. rewrite int_cont_step; [|unfold is_byte; lia|lia|nia]. cbv zeta.
    rewrite (Z.mod_small w 128) by lia.
    destruct (ZHP_INT_MAX <? _) eqn:E1; btest; [lia|].
    destruct (_ <? 128) eqn:E2; btest; [|lia]. done.
Qed.

(** Flags occupy the bits above the prefix. *)
Lemma lor_flags k flags x :
  1 ≤ k ≤ 8 → is_byte flags → Z.land flags (Z.ones k) = 0 → 0 ≤ x ≤ Z.ones k →
  u8 (Z.lor flags x) = flags + x ∧ Z.land (flags + x) (Z.ones k) = x.
Proof.
  intros Hk Hf Hl Hx. destruct (prefix_mask k Hk) as (_ & Ho & Hp).
  rewrite Z.land_ones in * by lia. rewrite Z.ones_equiv in *.
  assert (flags = flags / 2 ^ k * 2 ^ k) as Hfl
    by (pose proof (Z.div_mod flags (2 ^ k) ltac:(lia)); lia).
  assert ((flags + x) mod 2 ^ k = x) as Hmod.
  { rewrite Hfl, Z.add_comm, Z.mod_add by lia. apply Z.mod_small. lia. }
  assert (Z.lor flags x = flags + x) as Hlor.
  { rewrite <- Z.add_lor_land. enough (Z.land flags x = 0) by lia.
    rewrite Hfl, <- Z.shiftl_mul_pow2 by lia. apply Z.bits_inj'. intros n Hn.
    rewrite Z.land_spec, Z.shiftl_spec, Z.bits_0 by lia. destruct (decide (n < k)).
    - by rewrite Z.testbit_neg_r by lia.
    - destruct (decide (x = 0)) as [->|]; [by rewrite Z.bits_0, andb_false_r|].
      rewrite (Z.bits_above_log2 x n); [apply andb_false_r|lia|].
      apply Z.log2_lt_pow2; [lia|]. assert (2 ^ k ≤ 2 ^ n) by (apply Z.pow_le_mono_r; lia). lia. }
  split; [|done]. rewrite Hlor. apply wrap_small. change (2 ^ 8) with 256.
  unfold is_byte in Hf. assert (flags / 2 ^ k * 2 ^ k + 2 ^ k ≤ 256); [|lia].
  assert ((flags / 2 ^ k + 1) * 2 ^ k ≤ 256); [|lia].
  assert (256 = 2 ^ (8 - k) * 2 ^ k) as H256.
  { rewrite <- Z.pow_add_r by lia. by replace (8 - k + k) with 8 by lia. }
  rewrite H256. apply Z.mul_le_mono_nonneg_r; [lia|].
  assert (flags / 2 ^ k < 2 ^ (8 - k)); [|lia]. apply Z.div_lt_upper_bound; lia.
Qed.

Lemma int_roundtrip k flags v p :
  1 ≤ k ≤ 8 → is_byte flags → Z.land flags (Z.ones k) = 0 → 0 ≤ v ≤ ZHP_INT_MAX →
  zhp_int_decode_ (int_code k flags v ++ p) k = inr (zlen (int_code k flags v), v).
Proof.
  intros Hk Hf Hl Hv. unfold int_code, zhp_int_decode_.
  destruct (prefix_mask k Hk) as (-> & Ho & Hp). change ZHP_INT_MAX with 16777216 in *.
  rewrite (wrap_small 8 (Z.ones k)) by lia.
  destruct (lor_flags k flags (Z.ones k) Hk Hf Hl ltac:(lia)) as [Hm1 Hm2].
  bcase; cbn [app].
  - rewrite (wrap_small 8 v) by lia.
    destruct (lor_flags k flags v Hk Hf Hl ltac:(lia)) as [-> ->]. by bcase; [|lia].
  - rewrite Hm1, Hm2. bcase; [lia|].
    pose proof (int_cont_code 4 10 (v - Z.ones k) p 1 (Z.ones k)) as H.
    change (28 - 7 * Z.of_nat 4) with 0 in H. change (2 ^ (7 * Z.of_nat 4)) with 268435456 in H.
    rewrite Z.mul_1_r in H. change ZHP_INT_MAX with 16777216 in H. rewrite H; [|lia..].
    f_equal. f_equal; [cbn [length]; lia|lia].
Qed.

(** Whatever is accepted lies in range and was inside the input. *)
Lemma int_cont_bounds k p i v c w :
  is_bytes p → 0 ≤ v ≤ ZHP_INT_MAX → (k ≤ 4)%nat →
  int_cont p i v (28 - 7 * Z.of_nat k) = inr (c, w) →
  i < c ≤ i + zlen p ∧ c ≤ i + Z.max 1 (Z.of_nat k) ∧ 0 ≤ w ≤ ZHP_INT_MAX.
Proof.
  intros Hp. revert i v k. induction Hp as [|b p Hb Hp IH]; intros i v k Hv Hk; [done|].
  destruct k as [|k].
  { change (28 - 7 * Z.of_nat 0) with 28. cbn [int_cont]. repeat bcase; try done.
    intros [= <- <-]. split; [cbn [length]; lia|]. split; [lia|].
    pose proof (wrap_bound 64 (v + Z.shiftl (Z.land b 127) 28)). lia. }
  rewrite int_cont_step by (done || lia). cbv zeta.
  pose proof (Z.mod_pos_bound b 128 ltac:(lia)).
  assert (0 < 2 ^ (28 - 7 * Z.of_nat (S k))) by (apply Z.pow_pos_nonneg; lia).
  destruct (ZHP_INT_MAX <? _) eqn:E1; btest; [done|].
  destruct (b <? 128); [intros [= <- <-]; split; [cbn [length]; lia|]; split; [lia|]; nia|].
  destruct (28 <=? _) eqn:E2; btest; [done|]. intros Hc.
  replace (28 - 7 * Z.of_nat (S k) + 7) with (28 - 7 * Z.of_nat k) in Hc by lia.
  apply IH in Hc; [|nia|lia]. cbn [length]. lia.
Qed.

Lemma int_decode_bounds k p c v :
  is_bytes p → 1 ≤ k ≤ 8 → zhp_int_decode_ p k = inr (c, v) →
  1 ≤ c ≤ zlen p ∧ c ≤ 5 ∧ 0 ≤ v ≤ ZHP_INT_MAX.
Proof.
  intros Hp Hk. unfold zhp_int_decode_. inversion Hp as [|b p' Hb Hp']; subst; [done|].
  destruct (prefix_mask k Hk) as (-> & Ho & H2). rewrite Z.land_ones by lia.
  rewrite Z.ones_equiv in *. pose proof (Z.mod_pos_bound b (2 ^ k) ltac:(lia)).
  change ZHP_INT_MAX with 16777216. bcase.
  - intros [= <- <-]. cbn [length]. lia.
  - intros Hc. apply (int_cont_bounds 4 p' 1 _ c v) in Hc; [|done| |lia].
    + change ZHP_INT_MAX with 16777216 in *. cbn [length]. lia.
    + change ZHP_INT_MAX with 16777216. lia.
Qed.

Lemma int_decode_err k p e : zhp_int_decode_ p k = inl e → e = ZCIO_ERR_PROTOCOL.
Proof.
  assert (∀ i v s q, int_cont q i v s = inl e → e = ZCIO_ERR_PROTOCOL) as Hc.
  { intros i v s q. revert i v s. induction q as [|b q IH]; simpl; intros i v s; [congruence|].
    repeat bcase; try congruence. apply IH. }
  destruct p as [|b p]; simpl; [congruence|]. bcase; [done|]. apply Hc.
Qed.

Lemma int_code_bytes k flags v : is_bytes (int_code k flags v).
Proof.
  assert (∀ f w, is_bytes (int_code_loop f w)) as Hl.
  { induction f as [|f IH]; intros w; simpl; [constructor|]. bcase; repeat constructor;
      try apply u8_byte; apply IH. }
  unfold int_code. bcase; repeat constructor; try apply u8_byte. apply Hl.
Qed.

Lemma int_code_pos k flags v : 1 ≤ zlen (int_code k flags v).
Proof. unfold int_code. bcase; cbn [length]; lia. Qed.

(** ** Properties *)

(** Prefixed integers round-trip: for every prefix width and flag bits
    outside the prefix, encoding a value of at most [ZHP_INT_MAX] appends a
    code that the decoder reads back, whatever follows it, consuming exactly
    the code and yielding the value. *)
Theorem zhp_int_roundtrip (a : Allocator) k flags v rest b (Hk : 1 ≤ k ≤ 8)
  (Hf : is_byte flags) (Hl : Z.land flags (Z.ones k) = 0) (Hv : 0 ≤ v ≤ ZHP_INT_MAX)
  (Hb : buf_wf b) :
  ∃ r b', zhp_int_encode_ k flags v b = (r, b') ∧
    (r = ZCIO_OK → ∃ code, buf_contents b' = buf_contents b ++ code ∧ is_bytes code ∧
       zhp_int_decode_ (code ++ rest) k = inr (zlen code, v)) ∧
    (r ≠ ZCIO_OK → r = ZCIO_ERR_NOMEM).
Proof.
  destruct (emits_int k flags v b Hb) as (r & b' & He & _ & Hr & _). exists r, b'.
  split; [done|]. destruct Hr as [(-> & Hc & _)|(-> & _)].
  - split; [|done]. intros _. exists (int_code k flags v). split; [done|].
    split; [apply int_code_bytes|]. by apply int_roundtrip.
  - by split.
Qed.

(** On arbitrary input the integer decoder accepts only values up to
    [ZHP_INT_MAX], consuming at least one and at most five of the given bytes,
    and refuses everything else with a protocol error. *)
Theorem zhp_int_decode_bounded k p (Hp : is_bytes p) (Hk : 1 ≤ k ≤ 8) :
  match zhp_int_decode_ p k with
  | inl e => e = ZCIO_ERR_PROTOCOL
  | inr (c, v) => 1 ≤ c ≤ zlen p ∧ c ≤ 5 ∧ 0 ≤ v ≤ ZHP_INT_MAX
  end.
Proof.
  destruct (zhp_int_decode_ p k) as [e|[c v]] eqn:E.
  - by eapply int_decode_err.
  - by apply int_decode_bounds in E.
Qed.

Lemma zhp_int_roundtrip_witness :
  ∃ r b', @zhp_int_encode_ always_alloc 5 224 1337 buf_empty = (r, b') ∧ r = ZCIO_OK ∧
    ∃ code, buf_contents b' = code ∧ zhp_int_decode_ (code ++ [7]) 5 = inr (zlen code, 1337).
Proof.
  destruct (zhp_int_roundtrip always_alloc 5 224 1337 [7] buf_empty ltac:(lia)
    ltac:(unfold is_byte; lia) eq_refl ltac:(vm_compute; split; discriminate) buf_empty_wf)
    as (r & b' & He & Hok & _).
  exists r, b'. split; [exact He|]. vm_compute in He. injection He as <- <-.
  split; [reflexivity|]. destruct (Hok eq_refl) as (code & Hc & _ & Hd). exists code.
  split; [exact Hc | exact Hd].
Defined.

Lemma zhp_int_decode_bounded_witness :
  zhp_int_decode_ [255; 129; 128; 128; 128; 1] 7 = inl ZCIO_ERR_PROTOCOL ∧
  ∃ c v, zhp_int_decode_ [31; 154; 10; 99] 5 = inr (c, v) ∧ c ≤ 5 ∧ v = 1337.
Proof.
  split; [reflexivity|]. exists 3, 1337. split; [reflexivity|]. split; [|reflexivity].
  assert (is_bytes [31; 154; 10; 99]) as H by (repeat constructor; unfold is_byte; lia).
  exact (proj1 (proj2 (zhp_int_decode_bounded 5 [31; 154; 10; 99] H ltac:(lia)))).
Defined.
