(* ===== verification/Huffman.v ===== *)
(** * Huffman: the canonical Huffman decoder of [src/hpack.c]

    The two tables are the C arrays.  The decoder keeps the code's bit
    positions, its 32-bit code arithmetic and its output cap; the reference is
    an encoder that writes, for each byte, the code word the tables assign it,
    padded with ones. *)
From stdpp Require Import base tactics list option strings.
From Stdlib Require Import ZArith Lia.
From S2P Require Import Prelude Types Buf.

Definition ZHP_HUFF_MAXBITS : nat := 30.

Definition HUFF_COUNT : list Z := [
  0; 0; 0; 0; 0; 10; 26; 32; 6; 0; 5; 3; 2; 6; 2; 3; 0; 0; 0; 3; 8; 13; 26; 29; 12; 4; 15; 19;
  29; 0; 4].

Definition HUFF_SYMBOL : list Z := [
  48; 49; 50; 97; 99; 101; 105; 111; 115; 116; 32; 37; 45; 46; 47; 51; 52; 53; 54; 55; 56; 57;
  61; 65; 95; 98; 100; 102; 103; 104; 108; 109; 110; 112; 114; 117; 58; 66; 67; 68; 69; 70; 71;
  72; 73; 74; 75; 76; 77; 78; 79; 80; 81; 82; 83; 84; 85; 86; 87; 89; 106; 107; 113; 118; 119;
  120; 121; 122; 38; 42; 44; 59; 88; 90; 33; 34; 40; 41; 63; 39; 43; 124; 35; 62; 0; 36; 64;
  91; 93; 126; 94; 125; 60; 96; 123; 92; 195; 208; 128; 130; 131; 162; 184; 194; 224; 226; 153;
  161; 167; 172; 176; 177; 179; 209; 216; 217; 227; 229; 230; 129; 132; 133; 134; 136; 146;
  154; 156; 160; 163; 164; 169; 170; 173; 178; 181; 185; 186; 187; 189; 190; 196; 198; 228;
  232; 233; 1; 135; 137; 138; 139; 140; 141; 143; 147; 149; 150; 151; 152; 155; 157; 158; 165;
  166; 168; 174; 175; 180; 182; 183; 188; 191; 197; 231; 239; 9; 142; 144; 145; 148; 159; 171;
  206; 215; 225; 236; 237; 199; 207; 234; 235; 192; 193; 200; 201; 202; 205; 210; 213; 218;
  219; 238; 240; 242; 243; 255; 203; 204; 211; 212; 214; 221; 222; 223; 241; 244; 245; 246;
  247; 248; 250; 251; 252; 253; 254; 2; 3; 4; 5; 6; 7; 8; 11; 12; 14; 15; 16; 17; 18; 19; 20;
  21; 23; 24; 25; 26; 27; 28; 29; 30; 31; 127; 220; 249; 10; 13; 22; 256].

Definition huff_bit (input : bytes) (pos : Z) : Z :=
  Z.land (Z.shiftr (nth (Z.to_nat (Z.shiftr pos 3)) input 0) (7 - Z.land pos 7)) 1.

(** The loop over code lengths, [len = 31 - fuel]; yields the C return value,
    the new bit position and the symbol. *)
Fixpoint huff_symbol_loop (fuel : nat) (input : bytes) (total_bits bitpos code first index : Z) :
    Z * Z * Z :=
  match fuel with
  | O => (-1, bitpos, -1)
  | S fuel' =>
      if total_bits <=? bitpos then (1, bitpos, -1)
      else
        let code := u32 (Z.lor (Z.shiftl code 1) (huff_bit input bitpos)) in
        let bitpos := bitpos + 1 in
        let cnt := nth (31 - fuel) HUFF_COUNT 0 in
        if code <? u32 (first + cnt)
        then (0, bitpos, nth (Z.to_nat (index + u32 (code - first))) HUFF_SYMBOL 0)
        else huff_symbol_loop fuel' input total_bits bitpos code
               (u32 (Z.shiftl (u32 (first + cnt)) 1)) (index + cnt)
  end.

Definition huff_symbol (input : bytes) (total_bits bitpos : Z) : Z * Z * Z :=
  huff_symbol_loop ZHP_HUFF_MAXBITS input total_bits bitpos 0 0 0.

Section Decode.
Context `{Allocator}.

(** [for (bp = start; bp < total_bits; bp++)]: every bit is one. *)
Definition huff_padding_ok (input : bytes) (start total_bits : Z) : bool :=
  forallb (λ k, negb (huff_bit input (start + Z.of_nat k) =? 0))
    (seq 0 (Z.to_nat (total_bits - start))).

Fixpoint huff_decode_loop (fuel : nat) (input : bytes) (total_bits bitpos produced max_out : Z)
    (out : zhs_buf) : exec (Z * zhs_buf) :=
  if bitpos <? total_bits then
    match fuel with
    | O => OutOfFuel
    | S fuel =>
        let start := bitpos in
        let '(r, bitpos, sym) := huff_symbol input total_bits bitpos in
        if r =? 1 then
          if 7 <? total_bits - start then Ok (ZCIO_ERR_PROTOCOL, out)
          else if huff_padding_ok input start total_bits then Ok (ZCIO_OK, out)
          else Ok (ZCIO_ERR_PROTOCOL, out)
        else if r <? 0 then Ok (ZCIO_ERR_PROTOCOL, out)
        else if sym =? 256 then Ok (ZCIO_ERR_PROTOCOL, out)
        else if max_out <=? produced then Ok (ZCIO_ERR_PROTOCOL, out)
        else
          let '(a, out) := zhs_buf_append_u8_ out (u8 sym) in
          if negb (a =? ZCIO_OK) then Ok (a, out)
          else huff_decode_loop fuel input total_bits bitpos (produced + 1) max_out out
    end
  else Ok (ZCIO_OK, out).

Definition zhp_huff_decode_ (input : bytes) (out : zhs_buf) (max_out : Z) : exec (Z * zhs_buf) :=
  if SIZE_MAX / 8 <? zlen input then Ok (ZCIO_ERR_PROTOCOL, out)
  else
    let total_bits := zlen input * 8 in
    huff_decode_loop (Z.to_nat total_bits) input total_bits 0 0 max_out out.
End Decode.

(** ** The same decoder on a list of bits *)

Definition byte_bits (b : Z) : list bool := map (λ k, Z.testbit b (7 - Z.of_nat k)) (seq 0 8).
Definition bits_of (s : bytes) : list bool := concat (map byte_bits s).

(** What the symbol loop finds in the bits that are left. *)
Inductive sym_result := Sym (s : Z) (rest : list bool) | Short | NoCode.

Fixpoint sym_loop (fuel : nat) (bits : list bool) (code first index : Z) : sym_result :=
  match fuel with
  | O => NoCode
  | S fuel' =>
      match bits with
      | [] => Short
      | b :: bits =>
          let code := 2 * code + Z.b2z b in
          let cnt := nth (31 - fuel) HUFF_COUNT 0 in
          if code <? first + cnt
          then Sym (nth (Z.to_nat (index + (code - first))) HUFF_SYMBOL 0) bits
          else sym_loop fuel' bits code (2 * (first + cnt)) (index + cnt)
      end
  end.

Definition next_sym (bits : list bool) : sym_result := sym_loop 30 bits 0 0 0.

(** [first] and [index] at the loop's entry depend on the length only. *)
Fixpoint level (n : nat) : Z * Z :=
  match n with
  | O => (0, 0)
  | S n => let '(first, index) := level n in
           let cnt := nth (S n) HUFF_COUNT 0 in (2 * (first + cnt), index + cnt)
  end.

(** Every level: the arithmetic fits 32 bits, the codes fit the level, the
    symbols fit the table; the last level leaves no code over. *)
Definition levels_ok : bool :=
  forallb (λ n, let '(first, index) := level n in let cnt := nth (S n) HUFF_COUNT 0 in
    (0 <=? first) && (0 <=? index) && (0 <=? cnt) && (index + cnt <=? 257) &&
    (first + cnt <=? 2 ^ Z.of_nat (S n))) (seq 0 30) &&
  (fst (level 29) + nth 30 HUFF_COUNT 0 =? 2 ^ 30).

Lemma levels_are_ok : levels_ok = true.
Proof. vm_compute. reflexivity. Qed.

Lemma level_bounds n :
  (n < 30)%nat →
  let '(first, index) := level n in let cnt := nth (S n) HUFF_COUNT 0 in
  0 ≤ first ∧ 0 ≤ index ∧ 0 ≤ cnt ∧ index + cnt ≤ 257 ∧ first + cnt ≤ 2 ^ Z.of_nat (S n) ∧
  (n = 29%nat → first + cnt = 2 ^ 30).
Proof.
  intros Hn. pose proof levels_are_ok as H. unfold levels_ok in H. btest.
  rewrite forallb_forall in H. specialize (H n ltac:(apply in_seq; lia)).
  destruct (level n) as [first index] eqn:E. btest. split_and!; try done.
  intros ->. by rewrite E in H0.
Qed.

(** ** Reference encoder *)

(** The [n] low bits of [v], most significant first. *)
Definition code_bits (n : nat) (v : Z) : list bool :=
  map (λ k, Z.testbit v (Z.of_nat (n - 1 - k))) (seq 0 n).

(** The code word of the [j]-th symbol in canonical order. *)
Fixpoint canonical_word (fuel n : nat) (j : Z) : list bool :=
  match fuel with
  | O => []
  | S fuel =>
      let '(first, index) := level n in
      if j <? index + nth (S n) HUFF_COUNT 0 then code_bits (S n) (first + (j - index))
      else canonical_word fuel (S n) j
  end.

Definition code_word (s : Z) : list bool :=
  match list_find (λ x, x = s) HUFF_SYMBOL with
  | Some (j, _) => canonical_word 30 0 (Z.of_nat j)
  | None => []
  end.

Definition bits_byte (l : list bool) : Z := fold_left (λ v (b : bool), 2 * v + Z.b2z b) l 0.

Fixpoint pack (fuel : nat) (bits : list bool) : bytes :=
  match fuel with
  | O => []
  | S fuel =>
      match bits with [] => [] | _ => bits_byte (take 8 bits) :: pack fuel (drop 8 bits) end
  end.

Definition huff_bits (s : bytes) : list bool := concat (map code_word s).

(** Pad with ones to a whole number of bytes. *)
Definition huff_pad (s : bytes) : nat := (8 - length (huff_bits s) mod 8) mod 8.

Definition huff_encode (s : bytes) : bytes :=
  let bits := huff_bits s ++ replicate (huff_pad s) true in pack (length bits) bits.

(** ** The bit list and the C bit reader *)

Lemma length_byte_bits b : length (byte_bits b) = 8%nat.
Proof. done. Qed.

Lemma length_bits_of s : length (bits_of s) = (8 * length s)%nat.
Proof.
  induction s as [|b s IH]; [done|]. unfold bits_of in *. cbn [map concat].
  rewrite length_app, IH, length_byte_bits. cbn [length]. lia.
Qed.

Lemma bits_of_lookup s n k :
  (k < 8)%nat → bits_of s !! (8 * n + k)%nat = (λ b, Z.testbit b (7 - Z.of_nat k)) <$> s !! n.
Proof.
  intros Hk. revert n. induction s as [|b s IH]; intros n; [by rewrite lookup_nil|].
  unfold bits_of in *. cbn [map concat]. destruct n as [|n].
  - rewrite lookup_app_l by (rewrite length_byte_bits; lia). unfold byte_bits. cbn [lookup list_lookup].
    rewrite Nat.mul_0_r, Nat.add_0_l. do 8 (destruct k as [|k]; [done|]). lia.
  - rewrite lookup_app_r by (rewrite length_byte_bits; lia). rewrite length_byte_bits.
    replace (8 * S n + k - 8)%nat with (8 * n + k)%nat by lia. rewrite IH. done.
Qed.

Lemma huff_bit_spec s pos :
  0 ≤ pos < zlen s * 8 → ∃ b, bits_of s !! Z.to_nat pos = Some b ∧ huff_bit s pos = Z.b2z b.
Proof.
  intros Hp. pose proof (Z.div_mod pos 8 ltac:(lia)). pose proof (Z.mod_pos_bound pos 8 ltac:(lia)).
  replace (Z.to_nat pos) with (8 * Z.to_nat (pos / 8) + Z.to_nat (pos mod 8))%nat by dlia.
  rewrite bits_of_lookup by lia.
  destruct (lookup_lt_is_Some_2 s (Z.to_nat (pos / 8))) as [x Hx]; [dlia|].
  rewrite Hx. eexists. split; [reflexivity|]. unfold huff_bit.
  rewrite (Z.shiftr_div_pow2 pos 3) by lia. change (2 ^ 3) with 8. rewrite (nth_lookup_Some _ _ _ _ Hx).
  change 7 with (Z.ones 3) at 2. rewrite Z.land_ones by lia. change (2 ^ 3) with 8.
  change 1 with (Z.ones 1). rewrite Z.land_ones by lia. change (2 ^ 1) with 2.
  rewrite <- Z.bit0_mod, Z.shiftr_spec by lia. do 2 f_equal. lia.
Qed.

Lemma huff_symbol_loop_spec fuel n input bitpos code :
  (fuel + n = 30)%nat → 0 ≤ bitpos ≤ zlen input * 8 → 0 ≤ code < 2 ^ Z.of_nat n →
  fst (level n) ≤ 2 * code →
  let res := huff_symbol_loop fuel input (zlen input * 8) bitpos code (fst (level n)) (snd (level n)) in
  match sym_loop fuel (zdrop bitpos (bits_of input)) code (fst (level n)) (snd (level n)) with
  | Sym s rest => ∃ bp, res = (0, bp, s) ∧ rest = zdrop bp (bits_of input) ∧
      bitpos < bp ≤ zlen input * 8
  | Short => ∃ bp, res = (1, bp, -1)
  | NoCode => False
  end.
Proof.
  revert n bitpos code. induction fuel as [|fuel IH]; intros n bitpos code Hn Hbp Hc Hf; cbv zeta.
  { assert (n = 30%nat) as -> by lia.
    assert (fst (level 30) = 2 * 2 ^ Z.of_nat 30) as E by (vm_compute; reflexivity). lia. }
  cbn [huff_symbol_loop sym_loop]. replace (31 - S fuel)%nat with (S n) by lia.
  pose proof (level_bounds n ltac:(lia)) as H.
  destruct (level n) as [first index] eqn:El. cbn [fst snd] in *.
  destruct H as (H1 & H2 & H3 & H4 & H5 & _).
  assert (2 ^ Z.of_nat (S n) ≤ 2 ^ 30) as Hpow by (apply Z.pow_le_mono_r; lia).
  assert (2 ^ Z.of_nat (S n) = 2 * 2 ^ Z.of_nat n) as Hpow2
    by (rewrite Nat2Z.inj_succ; apply Z.pow_succ_r; lia).
  bcase.
  - rewrite drop_ge by (rewrite length_bits_of; lia). by exists bitpos.
  - destruct (huff_bit_spec input bitpos ltac:(lia)) as (b & Hb & ->).
    rewrite (drop_S _ b) by done.
    replace (S (Z.to_nat bitpos)) with (Z.to_nat (bitpos + 1)) by lia.
    assert (Z.lor (Z.shiftl code 1) (Z.b2z b) = 2 * code + Z.b2z b) as ->.
    { rewrite Z.shiftl_mul_pow2 by lia. change (2 ^ 1) with 2. rewrite Z.mul_comm.
      destruct b; cbn [Z.b2z]; [|by rewrite Z.lor_0_r, Z.add_0_r].
      destruct code; simpl; try done; lia. }
    assert (0 ≤ Z.b2z b ≤ 1) as Hbr by (destruct b; cbn; lia). set (cnt := nth (S n) HUFF_COUNT 0) in *.
    set (code' := 2 * code + Z.b2z b) in *. assert (0 ≤ code' < 2 ^ Z.of_nat (S n)) by lia.
    rewrite (wrap_small 32 code') by lia. rewrite (wrap_small 32 (first + cnt)) by lia.
    bcase.
    + rewrite (wrap_small 32 (code' - first)) by lia. exists (bitpos + 1). split; [done|].
      split; [done|lia].
    + assert (level (S n) = (2 * (first + cnt), index + cnt)) as El' by (cbn [level]; by rewrite El).
      specialize (IH (S n) (bitpos + 1) code' ltac:(lia) ltac:(lia) ltac:(lia)).
      rewrite El' in IH. cbn [fst snd] in IH.
      rewrite Z.shiftl_mul_pow2 by lia. change (2 ^ 1) with 2. rewrite (Z.mul_comm _ 2).
      rewrite (wrap_small 32 (2 * (first + cnt))) by lia.
      specialize (IH ltac:(lia)). destruct (sym_loop _ _ _ _ _); [|done|done].
      destruct IH as (bp & Hr & Hd & Hlt). exists bp. split; [done|]. split; [done|lia].
Qed.

(** The symbol decoder on the C buffer and on its bits agree, and never fail
    to find a code. *)
Lemma huff_symbol_spec input bitpos :
  0 ≤ bitpos ≤ zlen input * 8 →
  match next_sym (zdrop bitpos (bits_of input)) with
  | Sym s rest => ∃ bp, huff_symbol input (zlen input * 8) bitpos = (0, bp, s) ∧
      rest = zdrop bp (bits_of input) ∧ bitpos < bp ≤ zlen input * 8
  | Short => ∃ bp, huff_symbol input (zlen input * 8) bitpos = (1, bp, -1)
  | NoCode => False
  end.
Proof. intros Hb. apply (huff_symbol_loop_spec 30 0); cbn; lia. Qed.

(** ** The code tree *)

Fixpoint leaves (fuel : nat) (pre : list bool) (code first index : Z) : list (list bool * Z) :=
  match fuel with
  | O => []
  | S fuel' =>
      concat (map (λ b : bool,
        let code := 2 * code + Z.b2z b in
        let cnt := nth (31 - fuel) HUFF_COUNT 0 in
        let pre := pre ++ [b] in
        if code <? first + cnt
        then [(pre, nth (Z.to_nat (index + (code - first))) HUFF_SYMBOL 0)]
        else leaves fuel' pre code (2 * (first + cnt)) (index + cnt)) [false; true])
  end.

Lemma sym_loop_leaf fuel pre bits code first index s rest :
  sym_loop fuel bits code first index = Sym s rest →
  ∃ c, bits = c ++ rest ∧ (pre ++ c, s) ∈ leaves fuel pre code first index ∧ c ≠ [].
Proof.
  revert pre bits code first index. induction fuel as [|fuel IH]; intros pre bits code first index;
    [done|]. cbn [sym_loop leaves]. destruct bits as [|b bits]; [done|].
  assert (∀ x, x ∈ (if 2 * code + Z.b2z b <? first + nth (31 - S fuel) HUFF_COUNT 0
       then [(pre ++ [b], nth (Z.to_nat (index + (2 * code + Z.b2z b - first))) HUFF_SYMBOL 0)]
       else leaves fuel (pre ++ [b]) (2 * code + Z.b2z b) (2 * (first + nth (31 - S fuel) HUFF_COUNT 0))
              (index + nth (31 - S fuel) HUFF_COUNT 0)) →
     x ∈ leaves (S fuel) pre code first index) as Hin.
  { intros x Hx. cbn [leaves map concat]. rewrite app_nil_r, elem_of_app. destruct b; auto. }
  bcase; intros Hs.
  - injection Hs as <- <-. exists [b]. split; [done|]. split; [apply Hin; by left|done].
  - destruct (IH (pre ++ [b]) _ _ _ _ Hs) as (c & -> & Hc & _). exists (b :: c).
    split; [done|]. split; [|done]. apply Hin. by rewrite <- app_assoc in Hc.
Qed.

Lemma sym_loop_mono fuel bits more code first index s rest :
  sym_loop fuel bits code first index = Sym s rest →
  sym_loop fuel (bits ++ more) code first index = Sym s (rest ++ more).
Proof.
  revert bits code first index. induction fuel as [|fuel IH]; intros bits code first index; [done|].
  cbn [sym_loop]. destruct bits as [|b bits]; [done|]. cbn [app]. bcase; [|apply IH].
  by intros [= <- <-].
Qed.

Definition leaves_ok : bool :=
  forallb (λ e, bool_decide (e.1 = code_word e.2) && (0 <=? e.2) && (e.2 <=? 256))
    (leaves 30 [] 0 0 0).

Lemma leaves_are_ok : leaves_ok = true.
Proof. vm_compute. reflexivity. Qed.

Definition words_ok : bool :=
  forallb (λ n, match next_sym (code_word (Z.of_nat n)) with
                | Sym s [] => s =? Z.of_nat n | _ => false end) (seq 0 257).

Lemma words_are_ok : words_ok = true.
Proof. vm_compute. reflexivity. Qed.

(** A symbol is found exactly when its code word comes next. *)
Lemma next_sym_inv bits s rest :
  next_sym bits = Sym s rest → bits = code_word s ++ rest ∧ 0 ≤ s ≤ 256 ∧ code_word s ≠ [].
Proof.
  intros Hs. apply (sym_loop_leaf _ []) in Hs as (c & -> & Hin & Hne). cbn [app] in Hin.
  pose proof leaves_are_ok as H. unfold leaves_ok in H. rewrite forallb_forall in H.
  apply list_elem_of_In, H in Hin. btest. cbn [fst snd] in *. case_bool_decide; [|done].
  subst c. split; [done|]. split; [lia|done].
Qed.

Lemma next_sym_word s rest : 0 ≤ s ≤ 256 → next_sym (code_word s ++ rest) = Sym s rest.
Proof.
  intros Hs. pose proof words_are_ok as H. unfold words_ok in H. rewrite forallb_forall in H.
  specialize (H (Z.to_nat s) ltac:(apply in_seq; lia)). rewrite Z2Nat.id in H by lia.
  destruct (next_sym (code_word s)) as [s' [|]| |] eqn:E; try done. btest. subst s'.
  by apply (sym_loop_mono _ _ rest) in E.
Qed.

(** Up to seven ones are no code. *)
Lemma next_sym_pad k : (k ≤ 7)%nat → next_sym (replicate k true) = Short.
Proof. intros Hk. do 8 (destruct k as [|k]; [reflexivity|]). lia. Qed.


(** ** The decoder on bits *)

Fixpoint huff_spec (fuel : nat) (bits : list bool) (produced max_out : Z) : Z * bytes :=
  match fuel, bits with
  | _, [] => (ZCIO_OK, [])
  | O, _ => (ZCIO_ERR, [])
  | S fuel, _ =>
      match next_sym bits with
      | NoCode => (ZCIO_ERR_PROTOCOL, [])
      | Short =>
          if 7 <? zlen bits then (ZCIO_ERR_PROTOCOL, [])
          else if forallb id bits then (ZCIO_OK, []) else (ZCIO_ERR_PROTOCOL, [])
      | Sym s rest =>
          if s =? 256 then (ZCIO_ERR_PROTOCOL, [])
          else if max_out <=? produced then (ZCIO_ERR_PROTOCOL, [])
          else let '(r, o) := huff_spec fuel rest (produced + 1) max_out in (r, s :: o)
      end
  end.

Lemma padding_spec input start :
  0 ≤ start ≤ zlen input * 8 →
  huff_padding_ok input start (zlen input * 8) = forallb id (zdrop start (bits_of input)).
Proof.
  intros Hs. unfold huff_padding_ok.
  assert (length (zdrop start (bits_of input)) = Z.to_nat (zlen input * 8 - start)) as Hl
    by (zlen_simpl; rewrite length_bits_of; lia).
  rewrite <- Hl. assert (∀ k, (k < length (zdrop start (bits_of input)))%nat →
    zdrop start (bits_of input) !! k = Some (negb (huff_bit input (start + Z.of_nat k) =? 0))) as Hk.
  { intros k Hk. destruct (huff_bit_spec input (start + Z.of_nat k)) as (b & Hb & ->); [lia|].
    rewrite lookup_drop. replace (Z.to_nat start + k)%nat with (Z.to_nat (start + Z.of_nat k)) by lia.
    rewrite Hb. by destruct b. }
  clear Hl. generalize dependent (zdrop start (bits_of input)). intros l. clear Hs.
  revert start. induction l as [|b l IH]; intros start Hk; [done|]. cbn [length seq forallb].
  pose proof (Hk 0%nat ltac:(cbn; lia)) as H0. cbn in H0. injection H0 as ->. f_equal.
  rewrite <- seq_shift, forallb_map. rewrite <- (IH (start + 1)).
  - apply forallb_ext. intros k. do 3 f_equal. lia.
  - intros k Hlt. etrans; [exact (Hk (S k) ltac:(cbn; lia))|]. do 4 f_equal. lia.
Qed.

Section Loop.
Context `{Allocator}.

Lemma huff_decode_loop_spec fuel input bitpos produced max_out out :
  buf_wf out → 0 ≤ bitpos ≤ zlen input * 8 → zlen input * 8 - bitpos ≤ Z.of_nat fuel →
  ∃ r out', huff_decode_loop fuel input (zlen input * 8) bitpos produced max_out out = Ok (r, out') ∧
    buf_wf out' ∧
    let '(r0, o) := huff_spec fuel (zdrop bitpos (bits_of input)) produced max_out in
    ((r = r0 ∧ buf_contents out' = buf_contents out ++ o ∧ b_len out' = b_len out + zlen o ∧
      b_off out' = b_off out) ∨
     (r = ZCIO_ERR_NOMEM ∧ ∃ p, p `prefix_of` o ∧ buf_contents out' = buf_contents out ++ p)) ∧
    ((∀ n, alloc_ok n = true) → b_len out + zlen o ≤ SIZE_MAX → r = r0).
Proof.
  assert (∀ r b, buf_wf b → ∃ r' b', Ok (r, b) = Ok (r', b') ∧ buf_wf b' ∧
    (((r' = r ∧ buf_contents b' = buf_contents b ++ [] ∧ b_len b' = b_len b + zlen (@nil Z) ∧
      b_off b' = b_off b) ∨
     (r' = ZCIO_ERR_NOMEM ∧ ∃ p, p `prefix_of` [] ∧ buf_contents b' = buf_contents b ++ p)) ∧
    ((∀ n, alloc_ok n = true) → b_len b + zlen (@nil Z) ≤ SIZE_MAX → r' = r))) as Hret.
  { intros r b Hb. exists r, b. rewrite app_nil_r. ands. left. cbn. ands. }
  revert bitpos produced out. induction fuel as [|fuel IH]; intros bitpos produced out Hwf Hbp Hf.
  { cbn [huff_decode_loop huff_spec]. bcase; [lia|].
    rewrite drop_ge by (rewrite length_bits_of; lia). by apply Hret. }
  cbn [huff_decode_loop]. bcase.
  2:{ rewrite drop_ge by (rewrite length_bits_of; lia). by apply Hret. }
  assert (∃ b l, zdrop bitpos (bits_of input) = b :: l) as (b0 & l0 & Hd0).
  { destruct (zdrop bitpos (bits_of input)) eqn:E; [|eauto]. apply (f_equal length) in E.
    zlen_simpl_in E. rewrite length_bits_of in E. cbn in E. lia. }
  pose proof (huff_symbol_spec input bitpos Hbp) as Hsym.
  assert (zlen (zdrop bitpos (bits_of input)) = zlen input * 8 - bitpos) as Hlen
    by (zlen_simpl; rewrite length_bits_of; lia).
  cbn [huff_spec]. rewrite padding_spec by done.
  destruct (zdrop bitpos (bits_of input)) as [|b1 l1] eqn:Hd; [done|]. rewrite Hd0 in *. clear Hd0 b1 l1.
  destruct (next_sym (b0 :: l0)) as [s rest| |] eqn:En; [|destruct Hsym as (bp & ->)|done].
  - destruct Hsym as (bp & -> & Hrest & Hbp'). apply next_sym_inv in En as (_ & Hs & _).
    change (0 =? 1) with false. change (0 <? 0) with false. cbv iota.
    bcase; [by apply Hret|]. bcase; [by apply Hret|].
    rewrite (wrap_small 8 s) by lia.
    destruct (emits_u8 s out Hwf) as (r & b' & -> & Hwf' & Hr & Ha).
    specialize (IH bp (produced + 1)). rewrite <- Hrest in IH.
    destruct (huff_spec fuel rest (produced + 1) max_out) as [r0 o] eqn:Eo.
    destruct Hr as [(-> & Hc & Hl & Ho)|(-> & p & Hp & Hc)].
    + change (negb (ZCIO_OK =? ZCIO_OK)) with false. cbv iota.
      destruct (IH b' Hwf' ltac:(lia) ltac:(lia)) as (r2 & b2 & -> & Hwf2 & Hr2 & Ha2).
      exists r2, b2. split; [done|]. split; [done|]. rewrite Hc, <- app_assoc in Hr2. split.
      * destruct Hr2 as [(-> & H1 & H2 & H3)|(-> & p & H1 & H2)]; [left|right].
        -- split; [done|]. split; [done|]. cbn [length] in *. split; [lia|congruence].
        -- split; [done|]. exists (s :: p). split; [by apply prefix_cons|].
           by rewrite <- app_assoc in H2.
      * intros Hall Hsz. apply Ha2; [done|]. cbn [length] in *. lia.
    + change (negb (ZCIO_ERR_NOMEM =? ZCIO_OK)) with true. cbv iota. exists ZCIO_ERR_NOMEM, b'.
      split; [done|]. split; [done|]. split.
      * right. split; [done|]. exists p. split; [|done].
        destruct Hp as [q Hq]. exists (q ++ o). by rewrite app_assoc, <- Hq.
      * intros Hall Hsz. cbn [length] in *. discriminate Ha; [done|lia].
  - change (1 =? 1) with true. cbv iota. rewrite <- Hlen. bcase; [by apply Hret|]. bcase; by apply Hret.
Qed.
End Loop.

(** ** The bit specification and the encoder *)

Lemma code_word_nonempty s : 0 ≤ s ≤ 256 → code_word s ≠ [].
Proof.
  intros Hs E. pose proof (next_sym_word s [] Hs) as H. rewrite E in H. discriminate H.
Qed.

Lemma all_ones l : forallb id l = true → l = replicate (length l) true.
Proof. induction l as [|[] l IH]; cbn; intros H; [done| |done]. by rewrite <- IH. Qed.

Ltac hstop :=
  intros [= <- <-]; split_and!; try done; try (by left); try (by right); try (by apply Forall_nil); try (cbn; lia).

Lemma huff_spec_inv fuel bits produced max_out r o :
  (length bits ≤ fuel)%nat → huff_spec fuel bits produced max_out = (r, o) →
  (r = ZCIO_OK ∨ r = ZCIO_ERR_PROTOCOL) ∧ is_bytes o ∧ zlen o ≤ Z.max 0 (max_out - produced) ∧
  (r = ZCIO_OK → ∃ k, (k ≤ 7)%nat ∧ bits = huff_bits o ++ replicate k true).
Proof.
  revert bits produced r o. induction fuel as [|fuel IH]; intros bits produced r o Hf.
  { destruct bits; [|cbn in Hf; lia]. hstop.
    exists 0%nat. split; [lia|done]. }
  cbn [huff_spec]. destruct bits as [|b bits].
  { hstop. exists 0%nat. split; [lia|done]. }
  destruct (next_sym (b :: bits)) as [s rest| |] eqn:En.
  - apply next_sym_inv in En as (Hb & Hs & Hne). rewrite Hb.
    assert (length rest ≤ fuel)%nat as Hr.
    { apply (f_equal length) in Hb. destruct (code_word s); [done|]. zlen_simpl_in Hb. cbn in Hf. lia. }
    bcase; [hstop|].
    bcase; [hstop|].
    destruct (huff_spec fuel rest (produced + 1) max_out) as [r1 o1] eqn:E. intros [= <- <-].
    destruct (IH _ _ _ _ Hr E) as (H1 & H2 & H3 & H4). split; [done|].
    split; [constructor; [unfold is_byte; lia|done]|]. split; [cbn [length]; lia|].
    intros Hok. destruct (H4 Hok) as (k & Hk & ->). exists k. split; [done|].
    unfold huff_bits. cbn [map concat]. by rewrite app_assoc.
  - bcase; [hstop|].
    bcase; hstop.
    intros _. exists (length (b :: bits)). split; [lia|]. unfold huff_bits.
    cbn [map concat app]. by apply all_ones.
  - hstop.
Qed.

Lemma huff_spec_encode fuel o k produced max_out :
  is_bytes o → (k ≤ 7)%nat → produced + zlen o ≤ max_out →
  (length (huff_bits o ++ replicate k true) ≤ fuel)%nat →
  huff_spec fuel (huff_bits o ++ replicate k true) produced max_out = (ZCIO_OK, o).
Proof.
  intros Ho Hk. revert fuel produced. induction Ho as [|s o Hs Ho IH]; intros fuel produced Hp Hf.
  - unfold huff_bits in *. cbn [map concat app] in *. destruct k as [|k]; [by destruct fuel|].
    destruct fuel as [|fuel]; [cbn in Hf; lia|]. cbn [replicate huff_spec].
    change (true :: replicate k true) with (replicate (S k) true). rewrite next_sym_pad by done.
    rewrite length_replicate. bcase; [lia|].
    assert (forallb id (replicate (S k) true) = true) as ->; [|done].
    apply forallb_forall. intros x Hx. apply list_elem_of_In, elem_of_replicate in Hx as [-> _]. done.
  - assert (huff_bits (s :: o) = code_word s ++ huff_bits o) as Hb by done.
    rewrite Hb, <- app_assoc in *. unfold is_byte in Hs.
    pose proof (code_word_nonempty s ltac:(lia)) as Hne.
    pose proof (next_sym_word s (huff_bits o ++ replicate k true) ltac:(lia)) as Hn.
    zlen_simpl_in Hf. destruct (code_word s) as [|c w]; [done|]. cbn [app length] in *.
    destruct fuel as [|fuel]; [lia|]. cbn [huff_spec]. rewrite Hn. bcase; [lia|]. bcase; [lia|].
    rewrite IH; [done|lia|zl].
Qed.

(** Packing bits into bytes and back. *)
Lemma bits_byte_bits b : is_byte b → bits_byte (byte_bits b) = b.
Proof.
  intros Hb. assert (forallb (λ n, bits_byte (byte_bits (Z.of_nat n)) =? Z.of_nat n) (seq 0 256) = true)
    as H by (vm_compute; reflexivity).
  rewrite forallb_forall in H. unfold is_byte in Hb. specialize (H (Z.to_nat b)).
  rewrite Z2Nat.id in H by lia. apply Z.eqb_eq, H, in_seq. lia.
Qed.

Lemma pack_bits_of fuel s :
  is_bytes s → (length s ≤ fuel)%nat → pack fuel (bits_of s) = s.
Proof.
  intros Hs. revert fuel. induction Hs as [|b s Hb Hs IH]; intros fuel Hf; [by destruct fuel|].
  destruct fuel as [|fuel]; [cbn in Hf; lia|]. unfold bits_of in *. cbn [map concat pack].
  destruct (byte_bits b ++ concat (map byte_bits s)) eqn:E.
  { apply (f_equal length) in E. rewrite length_app, length_byte_bits in E. cbn in E. lia. }
  rewrite <- E. rewrite take_app_length' by done. rewrite drop_app_length' by done.
  rewrite bits_byte_bits by done. rewrite IH; [done|cbn in Hf; lia].
Qed.

Lemma byte_bits_byte l : length l = 8%nat → byte_bits (bits_byte l) = l ∧ is_byte (bits_byte l).
Proof.
  intros Hl. do 8 (destruct l as [|? l]; [done|]). destruct l; [|done].
  assert (∀ b0 b1 b2 b3 b4 b5 b6 b7 : bool, let l := [b0; b1; b2; b3; b4; b5; b6; b7] in
    (bool_decide (byte_bits (bits_byte l) = l) && bool_decide (is_byte (bits_byte l))) = true) as H
    by (intros [] [] [] [] [] [] [] []; vm_compute; reflexivity).
  specialize (H b b0 b1 b2 b3 b4 b5 b6). cbv zeta in H. apply andb_prop in H as [H1 H2].
  apply bool_decide_eq_true in H1, H2. done.
Qed.

Lemma bits_of_pack fuel bits :
  (length bits mod 8 = 0)%nat → (length bits ≤ fuel)%nat →
  bits_of (pack fuel bits) = bits ∧ is_bytes (pack fuel bits).
Proof.
  revert bits. induction fuel as [|fuel IH]; intros bits Hm Hf.
  { destruct bits; [done|cbn in Hf; lia]. }
  cbn [pack]. destruct bits as [|b bits]; [done|]. set (l := b :: bits) in *.
  assert (8 ≤ length l)%nat as H8.
  { pose proof (Nat.div_mod (length l) 8 ltac:(lia)). unfold l in *. cbn [length] in *. lia. }
  destruct (byte_bits_byte (take 8 l)) as [H1 H2]; [rewrite length_take; lia|].
  destruct (IH (drop 8 l)) as [H3 H4].
  - rewrite length_drop. pose proof (Nat.div_mod (length l) 8 ltac:(lia)).
    symmetry. apply Nat.mod_unique with (length l / 8 - 1)%nat; lia.
  - rewrite length_drop. lia.
  - split; [|by constructor]. unfold bits_of in *. cbn [map concat].
    rewrite H1, H3. apply take_drop.
Qed.

(** A byte string whose bits are code words and padding is the encoding. *)
Lemma huff_encode_bits input o k :
  is_bytes input → (k ≤ 7)%nat → bits_of input = huff_bits o ++ replicate k true →
  input = huff_encode o.
Proof.
  intros Hi Hk Hb. assert (k = huff_pad o) as ->.
  { apply (f_equal length) in Hb. rewrite length_bits_of, length_app, length_replicate in Hb.
    unfold huff_pad. generalize dependent (length (huff_bits o)). intros n Hn.
    pose proof (Nat.div_mod n 8 ltac:(lia)). pose proof (Nat.mod_upper_bound n 8 ltac:(lia)).
    destruct (decide (n mod 8 = 0)%nat) as [E|E].
    - rewrite E in *. change ((8 - 0) mod 8)%nat with 0%nat. lia.
    - rewrite Nat.mod_small by lia. lia. }
  unfold huff_encode. rewrite <- Hb. symmetry. apply pack_bits_of; [done|].
  rewrite length_bits_of. lia.
Qed.

Lemma bits_of_encode o :
  bits_of (huff_encode o) = huff_bits o ++ replicate (huff_pad o) true ∧ is_bytes (huff_encode o) ∧
  (huff_pad o ≤ 7)%nat.
Proof.
  assert (huff_pad o ≤ 7)%nat
    by (unfold huff_pad; pose proof (Nat.mod_upper_bound (8 - length (huff_bits o) mod 8) 8); lia).
  unfold huff_encode. set (bits := _ ++ _).
  destruct (bits_of_pack (length bits) bits) as [H1 H2]; [|lia|done].
  unfold bits, huff_pad. rewrite length_app, length_replicate.
  pose proof (Nat.div_mod (length (huff_bits o)) 8 ltac:(lia)).
  pose proof (Nat.mod_upper_bound (length (huff_bits o)) 8 ltac:(lia)).
  destruct (decide (length (huff_bits o) mod 8 = 0)%nat) as [E|E].
  - rewrite E. change ((8 - 0) mod 8)%nat with 0%nat. by rewrite Nat.add_0_r.
  - rewrite (Nat.mod_small (8 - _)) by lia. symmetry.
    apply Nat.mod_unique with (S (length (huff_bits o) / 8)); lia.
Qed.

(** What the callers of the decoder rely on. *)
Lemma huff_decode_cases `{Allocator} input out max_out :
  is_bytes input → buf_wf out → 0 ≤ max_out →
  ∃ r out', zhp_huff_decode_ input out max_out = Ok (r, out') ∧ buf_wf out' ∧
    (r = ZCIO_OK ∨ r = ZCIO_ERR_PROTOCOL ∨ r = ZCIO_ERR_NOMEM) ∧
    ∃ o, buf_contents out' = buf_contents out ++ o ∧ is_bytes o ∧ zlen o ≤ max_out ∧
      (r = ZCIO_OK → input = huff_encode o ∧ b_off out' = b_off out).
Proof.
  intros Hi Hb Hm. unfold zhp_huff_decode_. bcase.
  { exists ZCIO_ERR_PROTOCOL, out. ands. exists []. rewrite app_nil_r. ands. }
  destruct (huff_decode_loop_spec (Z.to_nat (zlen input * 8)) input 0 0 max_out out Hb
    ltac:(lia) ltac:(lia)) as (r & out' & -> & Hwf & Hl).
  exists r, out'. split; [done|]. split; [done|]. change (zdrop 0 (bits_of input)) with (bits_of input) in Hl.
  destruct (huff_spec _ (bits_of input) 0 max_out) as [r0 o] eqn:Eo.
  apply huff_spec_inv in Eo as (Hr0 & Ho & Hlen & Henc); [|rewrite length_bits_of; lia].
  destruct Hl as [[(-> & Hc & _ & Hoff)|(-> & p & [q ->] & Hc)] _].
  - split; [tauto|]. exists o. ands. intros Hok. destruct (Henc Hok) as (k & Hk & Hbits).
    split; [|done]. by eapply huff_encode_bits.
  - split; [tauto|]. exists p. apply Forall_app in Ho as [Hp _]. zlen_simpl_in Hlen. ands.
Qed.

(** ** Properties *)

(** Huffman decoding is total and exact.  On any input it terminates
    without running past the input or the tables, appends at most [max_out]
    bytes, and it succeeds only when the input is precisely the canonical
    encoding (code words, then at most seven one bits) of the bytes it
    appended; every other input is a protocol error (or memory ran out). *)
Theorem zhp_huff_decode_exact (a : Allocator) input out max_out (Hi : is_bytes input)
  (Hb : buf_wf out) (Hm : 0 ≤ max_out) :
  ∃ r out', zhp_huff_decode_ input out max_out = Ok (r, out') ∧ buf_wf out' ∧
    (r = ZCIO_OK ∨ r = ZCIO_ERR_PROTOCOL ∨ r = ZCIO_ERR_NOMEM) ∧
    ∃ o, buf_contents out' = buf_contents out ++ o ∧ is_bytes o ∧ zlen o ≤ max_out ∧
      (r = ZCIO_OK → input = huff_encode o).
Proof.
  destruct (huff_decode_cases input out max_out Hi Hb Hm) as (r & out' & He & Hwf & Hr & o & Hc & Ho & Hl & Hx).
  exists r, out'. ands. exists o. ands. intros Hok. by apply Hx.
Qed.

(** Decoding inverts the canonical encoder: for every byte string within
    the output cap, with memory available, decoding its encoding succeeds and
    appends exactly that string. *)
Theorem zhp_huff_roundtrip (a : Allocator) s out max_out (Hs : is_bytes s) (Hb : buf_wf out)
  (Hm : zlen s ≤ max_out) (Ha : ∀ n, alloc_ok n = true) (Hsz : b_len out + zlen s ≤ SIZE_MAX)
  (Hin : zlen (huff_encode s) ≤ SIZE_MAX / 8) :
  ∃ out', zhp_huff_decode_ (huff_encode s) out max_out = Ok (ZCIO_OK, out') ∧
    buf_contents out' = buf_contents out ++ s.
Proof.
  destruct (bits_of_encode s) as (Hbits & _ & Hpad). unfold zhp_huff_decode_. bcase; [lia|].
  destruct (huff_decode_loop_spec (Z.to_nat (zlen (huff_encode s) * 8)) (huff_encode s) 0 0 max_out
    out Hb ltac:(lia) ltac:(lia)) as (r & out' & -> & Hwf & H).
  change (zdrop 0 (bits_of (huff_encode s))) with (bits_of (huff_encode s)) in H.
  pose proof (length_bits_of (huff_encode s)) as Hl. rewrite Hbits in H, Hl.
  rewrite huff_spec_encode in H; [|done|done|lia|lia].
  destruct H as [Hr Hok]. specialize (Hok Ha Hsz). subst r. exists out'. split; [done|].
  destruct Hr as [(_ & Hc & _)|(Hr & _)]; [done|discriminate Hr].
Qed.

(** The RFC 7541 C.4.1 example. *)
Lemma zhp_huff_decode_exact_witness :
  ∃ r out', @zhp_huff_decode_ always_alloc [241; 227; 194; 229; 242; 58; 107; 160; 171; 144; 244; 255]
      buf_empty 64 = Ok (r, out') ∧ r = ZCIO_OK ∧ buf_contents out' = B "www.example.com".
Proof.
  assert (is_bytes [241; 227; 194; 229; 242; 58; 107; 160; 171; 144; 244; 255]) as H
    by (repeat constructor; unfold is_byte; lia).
  destruct (zhp_huff_decode_exact always_alloc _ buf_empty 64 H buf_empty_wf ltac:(lia))
    as (r & out' & E & _).
  exists r, out'. split; [exact E|]. vm_compute in E. injection E as <- <-.
  split; vm_compute; reflexivity.
Defined.

Lemma zhp_huff_roundtrip_witness :
  ∃ out', @zhp_huff_decode_ always_alloc (huff_encode (B "no-cache")) buf_empty 8 = Ok (ZCIO_OK, out') ∧
    buf_contents out' = B "no-cache".
Proof.
  apply (zhp_huff_roundtrip always_alloc (B "no-cache") buf_empty 8).
  - repeat constructor; vm_compute; intuition discriminate.
  - exact buf_empty_wf.
  - vm_compute. discriminate.
  - intros n. reflexivity.
  - vm_compute. discriminate.
  - vm_compute. discriminate.
Defined.
