(* ===== verification/Hpack.v ===== *)
(** * Hpack: HTTP/2 header compression ([src/hpack.c])

    The decoder with its bounded dynamic table, and the stateless encoder.  The
    table is the C struct: an array with a live window [head, tail) whose
    entries are oldest first; [live] is the FIFO it stands for. *)
From stdpp Require Import base tactics list option strings.
From Stdlib Require Import ZArith Lia.
From S2P Require Import Prelude Types Buf HttpUtil HpackInt Huffman.

(** ** Static table *)

Definition HPACK_STATIC : list (bytes * bytes) := [
  (B ":authority", []); (B ":method", B "GET"); (B ":method", B "POST"); (B ":path", B "/");
  (B ":path", B "/index.html"); (B ":scheme", B "http"); (B ":scheme", B "https");
  (B ":status", B "200"); (B ":status", B "204"); (B ":status", B "206"); (B ":status", B "304");
  (B ":status", B "400"); (B ":status", B "404"); (B ":status", B "500");
  (B "accept-charset", []); (B "accept-encoding", B "gzip, deflate"); (B "accept-language", []);
  (B "accept-ranges", []); (B "accept", []); (B "access-control-allow-origin", []);
  (B "age", []); (B "allow", []); (B "authorization", []); (B "cache-control", []);
  (B "content-disposition", []); (B "content-encoding", []); (B "content-language", []);
  (B "content-length", []); (B "content-location", []); (B "content-range", []);
  (B "content-type", []); (B "cookie", []); (B "date", []); (B "etag", []); (B "expect", []);
  (B "expires", []); (B "from", []); (B "host", []); (B "if-match", []);
  (B "if-modified-since", []); (B "if-none-match", []); (B "if-range", []);
  (B "if-unmodified-since", []); (B "last-modified", []); (B "link", []); (B "location", []);
  (B "max-forwards", []); (B "proxy-authenticate", []); (B "proxy-authorization", []);
  (B "range", []); (B "referer", []); (B "refresh", []); (B "retry-after", []); (B "server", []);
  (B "set-cookie", []); (B "strict-transport-security", []); (B "transfer-encoding", []);
  (B "user-agent", []); (B "vary", []); (B "via", []); (B "www-authenticate", [])].

Definition HPACK_STATIC_N : Z := zlen HPACK_STATIC.

(** Both strings end at the same place and agree up to case. *)
Fixpoint ci_eq (a b : bytes) : bool :=
  match a, b with
  | [], [] => true
  | x :: a, y :: b => if negb (tolower x =? tolower y) then false else ci_eq a b
  | _, _ => false
  end.

(** 1-based index of the first entry with that name, 0 when there is none. *)
Fixpoint static_search (i : Z) (table : list (bytes * bytes)) (name : bytes) : Z :=
  match table with
  | [] => 0
  | e :: table => if ci_eq (fst e) name then i + 1 else static_search (i + 1) table name
  end.

Definition hpack_static_name_index (name : bytes) : Z := static_search 0 HPACK_STATIC name.

(** ** Dynamic table *)

Definition ZHP_DEC_TABLE_MAX : Z := 4096.

Record zhp_ent := mk_ent { ent_name : bytes; ent_val : bytes }.

Record zhp_dec := mk_dec {
  d_max : Z; d_used : Z; d_e : list zhp_ent; d_head : Z; d_tail : Z; d_cap : Z }.

Definition ent_cost (e : zhp_ent) : Z := zlen (ent_name e) + zlen (ent_val e) + 32.
Definition ent_junk : zhp_ent := mk_ent [] [].
Definition ent_at (d : zhp_dec) (i : Z) : zhp_ent := nth (Z.to_nat i) (d_e d) ent_junk.

Definition set_max (d : zhp_dec) (m : Z) : zhp_dec :=
  mk_dec m (d_used d) (d_e d) (d_head d) (d_tail d) (d_cap d).

Section Table.
Context `{Allocator}.

Definition zhp_dec_new_ (max_table_bytes : Z) : option zhp_dec :=
  if alloc_ok 48 then
    Some (mk_dec (if ZHP_DEC_TABLE_MAX <? max_table_bytes then ZHP_DEC_TABLE_MAX else max_table_bytes)
            0 [] 0 0 0)
  else None.

Definition dec_evict (d : zhp_dec) : zhp_dec :=
  let o := ent_at d (d_head d) in
  let head := d_head d + 1 in
  let used := u64 (d_used d - ent_cost o) in
  if head =? d_tail d then mk_dec (d_max d) used (d_e d) 0 0 (d_cap d)
  else mk_dec (d_max d) used (d_e d) head (d_tail d) (d_cap d).

(** [while (used + cost > max && head < tail) dec_evict(d)] *)
Fixpoint dec_evict_loop (fuel : nat) (d : zhp_dec) (cost : Z) : zhp_dec :=
  match fuel with
  | O => d
  | S fuel =>
      if (d_max d <? u64 (d_used d + cost)) && (d_head d <? d_tail d)
      then dec_evict_loop fuel (dec_evict d) cost else d
  end.

Definition live_count (d : zhp_dec) : nat := Z.to_nat (d_tail d - d_head d).

Definition dec_set_max (d : zhp_dec) (newmax : Z) : zhp_dec :=
  let d := set_max d newmax in dec_evict_loop (live_count d) d 0.

(** The array grows to [ncap] slots, the new ones indeterminate. *)
Definition dec_grow (d : zhp_dec) : Z * zhp_dec :=
  let ncap := if d_cap d =? 0 then 16 else d_cap d * 2 in
  if alloc_ok (ncap * 32) then
    (ZCIO_OK, mk_dec (d_max d) (d_used d)
                (d_e d ++ replicate (Z.to_nat (ncap - d_cap d)) ent_junk) (d_head d) (d_tail d) ncap)
  else (ZCIO_ERR_NOMEM, d).

Definition dec_reserve (d : zhp_dec) : Z * zhp_dec :=
  if d_tail d <? d_cap d then (ZCIO_OK, d)
  else if 0 <? d_head d then
    let n := d_tail d - d_head d in
    let d := mk_dec (d_max d) (d_used d)
               (slice (d_head d) n (d_e d) ++ zdrop n (d_e d)) 0 n (d_cap d) in
    if d_tail d <? d_cap d then (ZCIO_OK, d) else dec_grow d
  else dec_grow d.

Definition dec_add (d : zhp_dec) (name val : bytes) : Z * zhp_dec :=
  let cost := zlen name + zlen val + 32 in
  if negb (zcio_xmalloc_ok (zlen name)) || negb (zcio_xmalloc_ok (zlen val)) then (ZCIO_ERR_NOMEM, d)
  else
    let d := dec_evict_loop (live_count d) d cost in
    if d_max d <? cost then (ZCIO_OK, d)
    else
      let '(r, d) := dec_reserve d in
      if negb (r =? ZCIO_OK) then (ZCIO_ERR_NOMEM, d)
      else (ZCIO_OK,
            mk_dec (d_max d) (d_used d + cost) (<[Z.to_nat (d_tail d) := mk_ent name val]> (d_e d))
              (d_head d) (d_tail d + 1) (d_cap d)).

(** Static: 1..61.  Dynamic: 62.. from the newest. *)
Definition hpack_resolve (d : zhp_dec) (idx : Z) : Z + (bytes * bytes) :=
  if idx =? 0 then inl ZCIO_ERR_PROTOCOL
  else if idx <=? HPACK_STATIC_N then inr (nth (Z.to_nat (idx - 1)) HPACK_STATIC ([], []))
  else
    let di := idx - HPACK_STATIC_N - 1 in
    let cnt := d_tail d - d_head d in
    if cnt <=? di then inl ZCIO_ERR_PROTOCOL
    else let e := ent_at d (d_tail d - 1 - di) in inr (ent_name e, ent_val e).

(** ** Field representations *)

(** The body of a string literal at [pos], its Huffman flag known: the new
    position and the string, and the scratch buffer afterwards. *)
Definition string_at (block : bytes) (pos : Z) (huff : bool) (prefix_bits max_out : Z)
    (scratch : zhs_buf) : exec ((Z + (Z * bytes)) * zhs_buf) :=
  match zhp_int_decode_ (zdrop pos block) prefix_bits with
  | inl c => Ok (inl c, scratch)
  | inr (c, slen) =>
      let pos := pos + c in
      if u64 (zlen block - pos) <? slen then Ok (inl ZCIO_ERR_PROTOCOL, scratch)
      else
        let s := slice pos slen block in
        let pos := pos + slen in
        if huff then
          '(r, scratch) ← zhp_huff_decode_ s (zhs_buf_reset_ scratch) max_out;
          if negb (r =? ZCIO_OK) then Ok (inl r, scratch)
          else Ok (inr (pos, ztake (b_len scratch) (b_data scratch)), scratch)
        else if max_out <? slen then Ok (inl ZCIO_ERR_PROTOCOL, scratch)
        else Ok (inr (pos, s), scratch)
  end.

Definition hpack_string (block : bytes) (pos max_out : Z) (scratch : zhs_buf) :
    exec ((Z + (Z * bytes)) * zhs_buf) :=
  if zlen block <=? pos then Ok (inl ZCIO_ERR_PROTOCOL, scratch)
  else
    let huff := negb (Z.land (nth (Z.to_nat pos) block 0) 128 =? 0) in
    string_at block pos huff 7 max_out scratch.

Definition hpack_literal (d : zhp_dec) (block : bytes) (pos prefix_bits max_out : Z)
    (nbuf vbuf : zhs_buf) : exec ((Z + (Z * bytes * bytes)) * zhs_buf * zhs_buf) :=
  match zhp_int_decode_ (zdrop pos block) prefix_bits with
  | inl c => Ok (inl c, nbuf, vbuf)
  | inr (c, nidx) =>
      let pos := pos + c in
      '(name, nbuf) ←
        (if nidx =? 0 then hpack_string block pos max_out nbuf
         else Ok (match hpack_resolve d nidx with
                  | inl r => inl r
                  | inr (nm, _) => inr (pos, nm)
                  end, nbuf));
      match name with
      | inl r => Ok (inl r, nbuf, vbuf)
      | inr (pos, nm) =>
          '(value, vbuf) ← hpack_string block pos max_out vbuf;
          match value with
          | inl r => Ok (inl r, nbuf, vbuf)
          | inr (pos, vl) => Ok (inr (pos, nm, vl), nbuf, vbuf)
          end
      end
  end.

(** One representation: an error, a size update, or a field line with the
    incremental-indexing flag. *)
Inductive repr :=
  | RErr (rc : Z)
  | RResize (pos newmax : Z)
  | RField (pos : Z) (nm vl : bytes) (add : bool).

Definition literal_repr (add : bool) (l : (Z + (Z * bytes * bytes)) * zhs_buf * zhs_buf) :
    repr * zhs_buf * zhs_buf :=
  let '(r, nbuf, vbuf) := l in
  (match r with inl rc => RErr rc | inr (pos, nm, vl) => RField pos nm vl add end, nbuf, vbuf).

Definition hpack_repr (d : zhp_dec) (block : bytes) (pos max_decoded_bytes : Z) (seen_field : bool)
    (nbuf vbuf : zhs_buf) : exec (repr * zhs_buf * zhs_buf) :=
  let b := nth (Z.to_nat pos) block 0 in
  if negb (Z.land b 128 =? 0) then
    Ok (match zhp_int_decode_ (zdrop pos block) 7 with
        | inl c => RErr c
        | inr (c, idx) =>
            match hpack_resolve d idx with
            | inl rc => RErr rc
            | inr (nm, vl) => RField (pos + c) nm vl false
            end
        end, nbuf, vbuf)
  else if negb (Z.land b 64 =? 0) then
    literal_repr true <$> hpack_literal d block pos 6 max_decoded_bytes nbuf vbuf
  else if negb (Z.land b 32 =? 0) then
    Ok (if seen_field then RErr ZCIO_ERR_PROTOCOL
        else match zhp_int_decode_ (zdrop pos block) 5 with
             | inl c => RErr c
             | inr (c, newmax) =>
                 if ZHP_DEC_TABLE_MAX <? newmax then RErr ZCIO_ERR_PROTOCOL
                 else RResize (pos + c) newmax
             end, nbuf, vbuf)
  else literal_repr false <$> hpack_literal d block pos 4 max_decoded_bytes nbuf vbuf.

(** ** The block decoder, for any emit callback with its state *)

Context {U : Type} (emit : U → bytes → bytes → Z * U).

Fixpoint decode_loop (fuel : nat) (d : zhp_dec) (block : bytes) (max_decoded_bytes pos decoded : Z)
    (seen_field : bool) (nbuf vbuf : zhs_buf) (u : U) : exec (Z * zhp_dec * U) :=
  if pos <? zlen block then
    match fuel with
    | O => OutOfFuel
    | S fuel =>
        '(r, nbuf, vbuf) ← hpack_repr d block pos max_decoded_bytes seen_field nbuf vbuf;
        match r with
        | RErr rc => Ok (rc, d, u)
        | RResize pos newmax =>
            decode_loop fuel (dec_set_max d newmax) block max_decoded_bytes pos decoded seen_field
              nbuf vbuf u
        | RField pos nm vl add =>
            let nl := zlen nm in
            let vln := zlen vl in
            if (u64 (max_decoded_bytes - decoded) <? nl) ||
               (u64 (max_decoded_bytes - decoded - nl) <? vln)
            then Ok (ZCIO_ERR_PROTOCOL, d, u)
            else
              let decoded := decoded + nl + vln in
              let '(er, u) := emit u nm vl in
              if negb (er =? 0) then Ok (er, d, u)
              else
                let '(rc, d) := if add then dec_add d nm vl else (ZCIO_OK, d) in
                if negb (rc =? ZCIO_OK) then Ok (rc, d, u)
                else decode_loop fuel d block max_decoded_bytes pos decoded true nbuf vbuf u
        end
    end
  else Ok (ZCIO_OK, d, u).

Definition zhp_decode_ (d : zhp_dec) (block : bytes) (max_decoded_bytes : Z) (u : U) :
    exec (Z * zhp_dec * U) :=
  decode_loop (length block) d block max_decoded_bytes 0 0 false buf_empty buf_empty u.

(** ** Stateless encoder *)

Definition hpack_raw_string (s : bytes) : emitter := zhp_int_encode_ 7 0 (zlen s) ▷ put s.

Definition zhp_encode_ (out : zhs_buf) (name value : option bytes) : Z * zhs_buf :=
  match name, value with
  | Some name, Some value =>
      let sidx := hpack_static_name_index name in
      ((if 0 <? sidx then zhp_int_encode_ 4 0 sidx
        else zhp_int_encode_ 4 0 0 ▷ hpack_raw_string name) ▷ hpack_raw_string value) out
  | _, _ => (ZCIO_ERR_INVALID_ARG, out)
  end.

Definition zhp_encode_status_ (out : zhs_buf) (status : Z) : Z * zhs_buf :=
  let v := dec status in
  if 16 <=? zlen v then (ZCIO_ERR, out)
  else (zhp_int_encode_ 4 0 8 ▷ hpack_raw_string v) out.
End Table.

(** ** The dynamic table as a FIFO *)

Definition live (d : zhp_dec) : list zhp_ent := slice (d_head d) (d_tail d - d_head d) (d_e d).

Fixpoint size_of (l : list zhp_ent) : Z :=
  match l with [] => 0 | e :: l => ent_cost e + size_of l end.

(** RFC 7541 section 4: evict from the old end until [cost] more octets fit. *)
Fixpoint fifo_evict (max cost : Z) (l : list zhp_ent) : list zhp_ent :=
  match l with
  | [] => []
  | _ :: l' => if max <? size_of l + cost then fifo_evict max cost l' else l
  end.

Definition fifo_add (max : Z) (l : list zhp_ent) (e : zhp_ent) : list zhp_ent :=
  if max <? ent_cost e then [] else fifo_evict max (ent_cost e) l ++ [e].

(** The table's shape, without the size limit. *)
Definition dec_shape (d : zhp_dec) : Prop :=
  0 ≤ d_head d ≤ d_tail d ∧ d_tail d ≤ d_cap d ∧ d_cap d = zlen (d_e d) ∧
  d_used d = size_of (live d) ∧ d_used d ≤ ZHP_DEC_TABLE_MAX ∧ 0 ≤ d_max d ≤ ZHP_DEC_TABLE_MAX.

Definition dec_wf (d : zhp_dec) : Prop := dec_shape d ∧ d_used d ≤ d_max d.

Lemma size_of_app l k : size_of (l ++ k) = size_of l + size_of k.
Proof. induction l as [|e l IH]; cbn [size_of app]; lia. Qed.

Lemma ent_cost_pos e : 32 ≤ ent_cost e.
Proof. unfold ent_cost. lia. Qed.

Lemma size_of_nonneg l : 0 ≤ size_of l.
Proof. induction l as [|e l IH]; cbn [size_of]; [lia|]. pose proof (ent_cost_pos e). lia. Qed.

Lemma zlen_live d : dec_shape d → zlen (live d) = d_tail d - d_head d.
Proof. intros (Hh & Ht & Hc & _). unfold live. zl. Qed.

Lemma live_at d i :
  dec_shape d → 0 ≤ i < d_tail d - d_head d → live d !! Z.to_nat i = Some (ent_at d (d_head d + i)).
Proof.
  intros (Hh & Ht & Hc & _) Hi. unfold live. rewrite lookup_slice_Z by lia. unfold ent_at.
  destruct (lookup_lt_is_Some_2 (d_e d) (Z.to_nat (d_head d + i))) as [x Hx]; [lia|].
  by rewrite (nth_lookup_Some _ _ _ _ Hx).
Qed.

Lemma dec_evict_spec d :
  dec_shape d → d_head d < d_tail d →
  ∃ e, live d = e :: live (dec_evict d) ∧ dec_shape (dec_evict d) ∧
    d_max (dec_evict d) = d_max d ∧ live_count (dec_evict d) = pred (live_count d).
Proof.
  intros Hs Hlt. pose proof (zlen_live d Hs) as Hz. pose proof (live_at d 0 Hs ltac:(lia)) as H0.
  rewrite Z.add_0_r in H0. destruct (live d) as [|e l] eqn:El; [done|]. injection H0 as He.
  exists e. pose proof Hs as (Hh & Ht & Hc & Hu & Hu2 & Hm).
  assert (live (dec_evict d) = l) as Hl.
  { unfold dec_evict. bcase; unfold live in *; cbn [d_e d_head d_tail].
    - cbn [length] in Hz. destruct l; [|cbn [length] in Hz; lia]. done.
    - apply (f_equal (drop 1)) in El. cbn [drop] in El. rewrite drop_0 in El. rewrite <- El.
      unfold slice. rewrite skipn_firstn_comm, drop_drop. f_equal; [lia|f_equal; lia]. }
  assert (u64 (d_used d - ent_cost e) = size_of l) as Hused.
  { rewrite Hu, El. cbn [size_of]. rewrite wrap_small; [lia|].
    pose proof (size_of_nonneg l). pose proof (ent_cost_pos e). rewrite El in Hu. cbn [size_of] in Hu.
    change ZHP_DEC_TABLE_MAX with 4096 in *. lia. }
  pose proof (ent_cost_pos e). rewrite El in Hu. cbn [size_of] in Hu.
  split; [by rewrite Hl|]. unfold dec_shape. rewrite Hl. revert Hl. unfold dec_evict, live_count.
  rewrite <- He. rewrite Hused. bcase; cbn [d_head d_tail d_cap d_e d_used d_max]; intros Hl; ands.
Qed.

Lemma dec_evict_loop_spec fuel d cost :
  dec_shape d → 0 ≤ cost < 2 ^ 63 → (live_count d ≤ fuel)%nat →
  let d' := dec_evict_loop fuel d cost in
  dec_shape d' ∧ live d' = fifo_evict (d_max d) cost (live d) ∧ d_max d' = d_max d.
Proof.
  intros Hs Hc. revert d Hs. induction fuel as [|fuel IH]; intros d Hs Hf; cbv zeta.
  - cbn [dec_evict_loop]. split; [done|]. split; [|done].
    pose proof (zlen_live d Hs). unfold live_count in Hf.
    destruct (live d); [done|cbn [length] in *; lia].
  - cbn [dec_evict_loop]. pose proof Hs as (Hh & Ht & _ & Hu & Hu2 & Hm).
    pose proof (size_of_nonneg (live d)).
    change ZHP_DEC_TABLE_MAX with 4096 in *. rewrite (wrap_small 64) by lia. bcase.
    + destruct (dec_evict_spec d Hs) as (e & El & Hs' & Hmax & Hcnt); [lia|].
      destruct (IH _ Hs' ltac:(lia)) as (G1 & G2 & G3). rewrite Hmax in *.
      split; [done|]. split; [|done]. rewrite G2, El. cbn [fifo_evict].
      rewrite <- El, <- Hu. by bcase; [|lia].
    + split; [done|]. split; [|done]. pose proof (zlen_live d Hs).
      destruct (live d) as [|e l] eqn:El; [done|]. cbn [fifo_evict]. rewrite <- Hu.
      apply andb_false_iff in Heqb as [E|E]; btest; [by bcase; [lia|]|cbn [length] in *; lia].
Qed.

Lemma fifo_evict_fits max cost l :
  cost ≤ max → size_of (fifo_evict max cost l) + cost ≤ max.
Proof.
  intros Hc. induction l as [|e l IH]; cbn [fifo_evict]; [cbn; lia|]. by bcase; [|lia].
Qed.

Lemma fifo_evict_size max cost l : size_of (fifo_evict max cost l) ≤ size_of l.
Proof.
  induction l as [|e l IH]; cbn [fifo_evict]; [lia|]. bcase; [|lia].
  cbn [size_of]. pose proof (ent_cost_pos e). lia.
Qed.

Lemma fifo_evict_all max cost l : max < cost → fifo_evict max cost l = [].
Proof.
  intros Hc. induction l as [|e l IH]; cbn [fifo_evict]; [done|]. bcase; [done|].
  pose proof (size_of_nonneg (e :: l)). lia.
Qed.

Lemma dec_set_max_spec d m :
  dec_wf d → 0 ≤ m ≤ ZHP_DEC_TABLE_MAX →
  dec_wf (dec_set_max d m) ∧ live (dec_set_max d m) = fifo_evict m 0 (live d) ∧
  d_max (dec_set_max d m) = m.
Proof.
  intros [Hs Hfit] Hm. assert (dec_shape (set_max d m)) as Hs'.
  { destruct Hs as (? & ? & ? & ? & ? & ?). unfold dec_shape, set_max. cbn. ands. }
  unfold dec_set_max.
  destruct (dec_evict_loop_spec (live_count (set_max d m)) (set_max d m) 0 Hs' ltac:(lia) ltac:(lia))
    as (H1 & H2 & H3). cbv zeta in *. split; [|done]. split; [done|].
  pose proof H1 as (_ & _ & _ & -> & _). rewrite H2, H3. cbn [d_max set_max].
  pose proof (fifo_evict_fits m 0 (live (set_max d m)) ltac:(lia)). lia.
Qed.

Section Add.
Context `{Allocator}.

Lemma dec_grow_spec d :
  dec_shape d → d_tail d = d_cap d →
  let '(r, d') := dec_grow d in
  dec_shape d' ∧ live d' = live d ∧ d_max d' = d_max d ∧ d_used d' = d_used d ∧
  (r = ZCIO_OK → d_tail d' < d_cap d').
Proof.
  intros Hs Ht. unfold dec_grow. set (ncap := if d_cap d =? 0 then 16 else d_cap d * 2).
  pose proof Hs as (Hh & Htc & Hc & Hu & Hu2 & Hm).
  assert (d_cap d < ncap) by (unfold ncap; bcase; lia). bcase; [|by ands].
  assert (live (mk_dec (d_max d) (d_used d) (d_e d ++ replicate (Z.to_nat (ncap - d_cap d)) ent_junk)
    (d_head d) (d_tail d) ncap) = live d) as Hl.
  { unfold live, slice. cbn. rewrite drop_app_le by lia. apply take_app_le. zl. }
  unfold dec_shape. rewrite Hl. cbn. ands. zl.
Qed.

Lemma dec_reserve_spec d :
  dec_shape d →
  let '(r, d') := dec_reserve d in
  dec_shape d' ∧ live d' = live d ∧ d_max d' = d_max d ∧ d_used d' = d_used d ∧
  (r = ZCIO_OK → d_tail d' < d_cap d').
Proof.
  intros Hs. unfold dec_reserve. pose proof Hs as (Hh & Htc & Hc & Hu & Hu2 & Hm).
  bcase; [by ands|]. bcase; [|apply dec_grow_spec; [done|lia]].
  set (d1 := mk_dec _ _ _ _ _ _). assert (live d1 = live d) as Hl.
  { unfold live, d1. cbn. rewrite Z.sub_0_r. unfold slice at 1. rewrite drop_0.
    apply ztake_app_zlen. rewrite zlen_slice by lia. lia. }
  assert (dec_shape d1) as Hs1.
  { unfold dec_shape. rewrite Hl. unfold d1. cbn. ands. unfold slice. zl. }
  bcase; [unfold d1 at 3 4; ands|]. pose proof (dec_grow_spec d1 Hs1) as Hg.
  destruct (dec_grow d1) as [r d']. destruct Hg as (H1 & H2 & H3 & H4 & H5);
    [pose proof Hs1 as (_ & ? & _); cbn in *; lia|]. ands.
Qed.

Lemma dec_add_spec d name val :
  dec_wf d → zlen name + zlen val < 2 ^ 62 →
  let '(r, d') := dec_add d name val in
  dec_wf d' ∧ d_max d' = d_max d ∧ (r = ZCIO_OK ∨ r = ZCIO_ERR_NOMEM) ∧
  (r = ZCIO_OK → live d' = fifo_add (d_max d) (live d) (mk_ent name val)) ∧
  ((∀ n, alloc_ok n = true) → r = ZCIO_OK).
Proof.
  intros [Hs Hfit] Hlen. unfold dec_add.
  destruct (negb _ || negb _) eqn:Ea.
  { split; [done|]. split; [done|]. split; [by right|]. split; [done|]. intros Hall. unfold zcio_xmalloc_ok in Ea. rewrite !Hall in Ea. done. }
  set (cost := zlen name + zlen val + 32).
  assert (ent_cost (mk_ent name val) = cost) as Hcost by done.
  destruct (dec_evict_loop_spec (live_count d) d cost Hs ltac:(lia) ltac:(lia)) as (Hs1 & Hl1 & Hm1).
  cbv zeta in Hs1, Hl1, Hm1. set (d1 := dec_evict_loop _ d cost) in *. rewrite Hm1.
  assert (d_used d1 = size_of (live d1)) as Hu1 by apply Hs1.
  pose proof Hs as (_ & _ & _ & Hu & _ & Hmd).
  pose proof (fifo_evict_size (d_max d) cost (live d)).
  unfold fifo_add. rewrite Hcost. bcase.
  - split; [split; [done|]; rewrite Hu1, Hl1, fifo_evict_all by lia; cbn; lia|].
    split; [done|]. split; [by left|]. split; [|done]. intros _. rewrite Hl1. by apply fifo_evict_all.
  - pose proof (fifo_evict_fits (d_max d) cost (live d) ltac:(lia)) as Hf.
    pose proof (dec_reserve_spec d1 Hs1) as Hr. destruct (dec_reserve d1) as [r d2] eqn:Er.
    destruct Hr as (Hs2 & Hl2 & Hm2 & Hu2 & Ht2).
    destruct (negb (r =? ZCIO_OK)) eqn:Eok; btest.
    + split; [split; [done|]; rewrite Hu2, Hm2, Hm1, Hu1, Hl1; lia|]. split; [congruence|].
      split; [by right|]. split; [done|]. intros Hall. exfalso. apply Eok. revert Er.
      unfold dec_reserve, dec_grow. repeat bcase; try (by intros [= <- _]); congruence.
    + specialize (Ht2 Eok). set (d3 := mk_dec _ _ _ _ _ _). pose proof Hs2 as (Hh & Htc & Hc & Hu3 & Hu4 & Hm4).
      assert (live d3 = live d2 ++ [mk_ent name val]) as Hl3.
      { unfold live, d3, slice. cbn.
        replace (Z.to_nat (d_tail d2 + 1 - d_head d2)) with (S (Z.to_nat (d_tail d2 - d_head d2))) by lia.
        rewrite (take_S_r _ _ (mk_ent name val)).
        - f_equal. rewrite !take_drop_commute, take_insert_ge by lia. done.
        - rewrite lookup_drop. replace (_ + _)%nat with (Z.to_nat (d_tail d2)) by lia.
          apply list_lookup_insert_eq. lia. }
      assert (dec_wf d3) as Hwf3.
      { split.
        - unfold dec_shape. rewrite Hl3, size_of_app. unfold d3. cbn. rewrite Hm2, Hm1, Hu2, Hu1.
          rewrite length_insert. rewrite Hl2, Hl1. unfold ent_cost. cbn. fold cost.
          ands.
        - unfold d3. cbn. rewrite Hm2, Hm1, Hu2, Hu1, Hl1. lia. }
      split; [done|]. split; [cbn; congruence|]. split; [by left|]. split; [|done].
      intros _. by rewrite Hl3, Hl2, Hl1.
Qed.
End Add.

(** ** One representation *)

Section Repr.
Context `{Allocator}.

Definition decode_error (e : Z) : Prop := e = ZCIO_ERR_PROTOCOL ∨ e = ZCIO_ERR_NOMEM.

Lemma is_bytes_zdrop n s : is_bytes s → is_bytes (zdrop n s).
Proof. apply Forall_drop. Qed.

Lemma string_at_total block pos huff prefix max_out scratch :
  is_bytes block → zlen block < 2 ^ 63 → 0 ≤ pos → 1 ≤ prefix ≤ 8 → buf_wf scratch → 0 ≤ max_out →
  ∃ res scratch', string_at block pos huff prefix max_out scratch = Ok (res, scratch') ∧
    buf_wf scratch' ∧
    match res with
    | inl e => decode_error e
    | inr (p, s) => pos < p ≤ zlen block ∧ zlen s ≤ max_out
    end.
Proof.
  intros Hb Hlen Hp Hk Hs Hm. unfold string_at.
  destruct (zhp_int_decode_ (zdrop pos block) prefix) as [e|[c slen]] eqn:Ei.
  { apply int_decode_err in Ei as ->. do 2 eexists. split; [done|]. split; [done|by left]. }
  apply int_decode_bounds in Ei as (Hc & _ & Hv); [|by apply is_bytes_zdrop|lia].
  zlen_simpl_in Hc. rewrite (wrap_small 64) by lia.
  bcase; [by do 2 eexists; split; [done|]; split; [done|left]|]. destruct huff.
  - destruct (reset_spec scratch Hs) as [Hwr Hcr].
    destruct (huff_decode_cases (slice (pos + c) slen block) (zhs_buf_reset_ scratch) max_out)
      as (r & s' & -> & Hwf & Hr & o & Hco & Ho & Hlo & Hok); [|done|done|].
    { by apply Forall_take, is_bytes_zdrop. }
    cbn [mbind exec_bind]. destruct (negb (r =? ZCIO_OK)) eqn:Er; btest.
    + do 2 eexists. split; [done|]. split; [done|]. unfold decode_error. tauto.
    + do 2 eexists. split; [done|]. split; [done|]. split; [lia|].
      destruct (Hok Er) as [_ Hoff]. rewrite Hcr in Hco.
      assert (ztake (b_len s') (b_data s') = o) as ->; [|done].
      cbn [app] in Hco. rewrite <- Hco. unfold buf_contents, ZHS_AVAIL, slice. rewrite Hoff.
      cbn [b_off zhs_buf_reset_]. by rewrite Z.sub_0_r, drop_0.
  - bcase; [by do 2 eexists; split; [done|]; split; [done|left]|].
    do 2 eexists. split; [done|]. split; [done|]. split; [lia|]. rewrite zlen_slice by lia. lia.
Qed.

Lemma hpack_string_total block pos max_out scratch :
  is_bytes block → zlen block < 2 ^ 63 → 0 ≤ pos → buf_wf scratch → 0 ≤ max_out →
  ∃ res scratch', hpack_string block pos max_out scratch = Ok (res, scratch') ∧ buf_wf scratch' ∧
    match res with
    | inl e => decode_error e
    | inr (p, s) => pos < p ≤ zlen block ∧ zlen s ≤ max_out
    end.
Proof.
  intros Hb Hlen Hp Hs Hm. unfold hpack_string.
  bcase; [by do 2 eexists; split; [done|]; split; [done|left]|]. apply string_at_total; done || lia.
Qed.

Lemma hpack_resolve_err d idx e : hpack_resolve d idx = inl e → e = ZCIO_ERR_PROTOCOL.
Proof. unfold hpack_resolve. repeat bcase; congruence. Qed.

Lemma hpack_literal_total d block pos prefix max_out nbuf vbuf :
  is_bytes block → zlen block < 2 ^ 63 → 0 ≤ pos → 1 ≤ prefix ≤ 8 → buf_wf nbuf → buf_wf vbuf →
  0 ≤ max_out →
  ∃ res n' v', hpack_literal d block pos prefix max_out nbuf vbuf = Ok (res, n', v') ∧
    buf_wf n' ∧ buf_wf v' ∧
    match res with
    | inl e => decode_error e
    | inr (p, _, _) => pos < p ≤ zlen block
    end.
Proof.
  intros Hb Hlen Hp Hk Hn Hv Hm. unfold hpack_literal.
  destruct (zhp_int_decode_ (zdrop pos block) prefix) as [e|[c nidx]] eqn:Ei.
  { apply int_decode_err in Ei as ->. do 3 eexists. split; [done|]. ands. by left. }
  apply int_decode_bounds in Ei as (Hc & _ & _); [|by apply is_bytes_zdrop|lia].
  zlen_simpl_in Hc.
  assert (∃ name n', (if nidx =? 0 then hpack_string block (pos + c) max_out nbuf
         else Ok (match hpack_resolve d nidx with
                  | inl r => inl r | inr (nm, _) => inr (pos + c, nm) end, nbuf)) = Ok (name, n') ∧
     buf_wf n' ∧ match name with inl e => decode_error e | inr (p, _) => pos < p ≤ zlen block end)
    as (name & n' & -> & Hn' & Hname).
  { bcase.
    - destruct (hpack_string_total block (pos + c) max_out nbuf) as (r & s & -> & Hs & Hr); try done; [lia|].
      exists r, s. split; [done|]. split; [done|]. destruct r as [|[p s0]]; [done|lia].
    - do 2 eexists. split; [done|]. split; [done|].
      destruct (hpack_resolve d nidx) as [e|[nm vl]] eqn:Er; [|lia].
      apply hpack_resolve_err in Er as ->. by left. }
  cbn [mbind exec_bind]. destruct name as [e|[p nm]]; [by exists (inl e), n', vbuf|].
  destruct (hpack_string_total block p max_out vbuf) as (r & s & -> & Hs & Hr); try done; [lia|].
  cbn [mbind exec_bind]. destruct r as [e|[p' vl]]; [by exists (inl e), n', s|].
  exists (inr (p', nm, vl)), n', s. ands.
Qed.

Lemma hpack_repr_total d block pos max_out seen nbuf vbuf :
  is_bytes block → zlen block < 2 ^ 63 → 0 ≤ pos < zlen block → buf_wf nbuf → buf_wf vbuf →
  0 ≤ max_out →
  ∃ r n' v', hpack_repr d block pos max_out seen nbuf vbuf = Ok (r, n', v') ∧ buf_wf n' ∧ buf_wf v' ∧
    match r with
    | RErr e => decode_error e
    | RResize p m => pos < p ≤ zlen block ∧ 0 ≤ m ≤ ZHP_DEC_TABLE_MAX ∧ seen = false
    | RField p _ _ _ => pos < p ≤ zlen block
    end.
Proof.
  intros Hb Hlen Hp Hn Hv Hm. unfold hpack_repr.
  assert (∀ k c v, 1 ≤ k ≤ 8 → zhp_int_decode_ (zdrop pos block) k = inr (c, v) →
    pos < pos + c ≤ zlen block ∧ 0 ≤ v) as Hint.
  { intros k c v Hk Hi. apply int_decode_bounds in Hi as (Hc & _ & Hv0);
      [zlen_simpl_in Hc; lia|by apply is_bytes_zdrop|lia]. }
  destruct (negb (Z.land _ 128 =? 0)).
  { do 3 eexists. split; [done|]. split; [done|]. split; [done|].
    destruct (zhp_int_decode_ _ 7) as [e|[c idx]] eqn:Ei; [apply int_decode_err in Ei as ->; by left|].
    destruct (hpack_resolve d idx) as [e|[nm vl]] eqn:Er; [apply hpack_resolve_err in Er as ->; by left|].
    apply Hint in Ei; lia. }
  destruct (negb (Z.land _ 64 =? 0)).
  { destruct (hpack_literal_total d block pos 6 max_out nbuf vbuf)
      as (r & n' & v' & -> & Hn' & Hv' & Hr); try done; try lia.
    cbn. do 3 eexists. split; [done|]. ands. destruct r as [|[[? ?] ?]]; done. }
  destruct (negb (Z.land _ 32 =? 0)).
  { do 3 eexists. split; [done|]. split; [done|]. split; [done|]. destruct seen; [by left|].
    destruct (zhp_int_decode_ _ 5) as [e|[c m]] eqn:Ei; [apply int_decode_err in Ei as ->; by left|].
    apply Hint in Ei; [|lia]. bcase; [by left|]. ands. }
  destruct (hpack_literal_total d block pos 4 max_out nbuf vbuf)
    as (r & n' & v' & -> & Hn' & Hv' & Hr); try done; try lia.
  cbn. do 3 eexists. split; [done|]. ands. destruct r as [|[[? ?] ?]]; done.
Qed.
End Repr.

(** ** The block decoder *)

(** Emitting fields in order, stopping at the first nonzero answer. *)
Fixpoint run_emits {U} (emit : U → bytes → bytes → Z * U) (u : U) (fs : list (bytes * bytes)) : Z * U :=
  match fs with
  | [] => (0, u)
  | (n, v) :: fs => let '(r, u) := emit u n v in if negb (r =? 0) then (r, u) else run_emits emit u fs
  end.

Fixpoint fields_size (fs : list (bytes * bytes)) : Z :=
  match fs with [] => 0 | (n, v) :: fs => zlen n + zlen v + fields_size fs end.

Lemma fields_size_nonneg fs : 0 ≤ fields_size fs.
Proof. induction fs as [|[n v] fs IH]; cbn [fields_size]; lia. Qed.

Section Loop.
Context `{Allocator} {U : Type} (emit : U → bytes → bytes → Z * U).

Lemma decode_loop_total fuel d block max pos decoded seen nbuf vbuf u :
  is_bytes block → zlen block < 2 ^ 63 → 0 ≤ pos → zlen block - pos ≤ Z.of_nat fuel →
  dec_wf d → 0 ≤ decoded ≤ max → max < 2 ^ 62 → buf_wf nbuf → buf_wf vbuf →
  ∃ rc d' u', decode_loop emit fuel d block max pos decoded seen nbuf vbuf u = Ok (rc, d', u') ∧
    dec_wf d' ∧ ∃ fs r, run_emits emit u fs = (r, u') ∧ decoded + fields_size fs ≤ max ∧
      (r ≠ 0 → rc = r) ∧ (r = 0 → rc = ZCIO_OK ∨ decode_error rc).
Proof.
  intros Hb Hlen. revert d pos decoded seen nbuf vbuf u.
  assert (∀ d u decoded rc, dec_wf d → decoded ≤ max → rc = ZCIO_OK ∨ decode_error rc →
    ∃ rc' d' u', Ok (rc, d, u) = Ok (rc', d', u') ∧ dec_wf d' ∧
    ∃ fs r, run_emits emit u fs = (r, u') ∧ decoded + fields_size fs ≤ max ∧
      (r ≠ 0 → rc' = r) ∧ (r = 0 → rc' = ZCIO_OK ∨ decode_error rc')) as Hret.
  { intros d u decoded rc Hd Hdec Hrc. exists rc, d, u. split; [done|]. split; [done|].
    exists [], 0. cbn. ands. }
  induction fuel as [|fuel IH]; intros d pos decoded seen nbuf vbuf u Hp Hf Hd Hdec Hmax Hn Hv;
    cbn [decode_loop]; (bcase; [|apply Hret; [done|lia|by left]]); [lia|].
  destruct (hpack_repr_total d block pos max seen nbuf vbuf) as (r & n' & v' & -> & Hn' & Hv' & Hr);
    try done; [lia|]. cbn [mbind exec_bind]. destruct r as [e|p m|p nm vl add].
  - apply Hret; [done|lia|by right].
  - destruct (dec_set_max_spec d m Hd) as (Hd' & _); [tauto|]. apply IH; try done; lia.
  - rewrite (wrap_small 64 (max - decoded)) by lia.
    destruct (max - decoded <? zlen nm) eqn:E1; btest; cbn [orb]; [apply Hret; [done|lia|right; by left]|].
    rewrite wrap_small by lia.
    destruct (_ <? zlen vl) eqn:E2; btest; [apply Hret; [done|lia|right; by left]|].
    destruct (emit u nm vl) as [er u1] eqn:Ee. destruct (negb (er =? 0)) eqn:Eer; btest.
    + exists er, d, u1. split; [done|]. split; [done|]. exists [(nm, vl)], er. cbn.
      rewrite Ee. bcase; [|done]. ands.
    + subst er. assert (∃ rc d1, (if add then dec_add d nm vl else (ZCIO_OK, d)) = (rc, d1) ∧ dec_wf d1 ∧
        (rc = ZCIO_OK ∨ rc = ZCIO_ERR_NOMEM)) as (rc & d1 & -> & Hd1 & Hrc).
      { destruct add; [|exists ZCIO_OK, d; ands; by left].
        pose proof (dec_add_spec d nm vl Hd ltac:(lia)) as Ha. destruct (dec_add d nm vl) as [rc d1].
        exists rc, d1. ands; tauto. }
      bcase.
      * exists rc, d1, u1. split; [done|]. split; [done|]. exists [(nm, vl)], 0. cbn. rewrite Ee.
        cbn. ands. intros _. right. right. tauto.
      * destruct (IH d1 p (decoded + zlen nm + zlen vl) true n' v' u1) as (rc2 & d2 & u2 & -> & Hd2 &
          fs & r & Hr1 & Hr2 & Hr3 & Hr4); try done; try lia.
        exists rc2, d2, u2. split; [done|]. split; [done|]. exists ((nm, vl) :: fs), r.
        cbn [run_emits fields_size]. rewrite Ee. cbn. ands.
Qed.
End Loop.

(** ** What the encoder writes, and reading it back *)

Definition str_code (s : bytes) : bytes := int_code 7 0 (zlen s) ++ s.

Definition field_code (name value : bytes) : bytes :=
  (if 0 <? hpack_static_name_index name then int_code 4 0 (hpack_static_name_index name)
   else int_code 4 0 0 ++ str_code name) ++ str_code value.

(** The name a peer sees: static names are lower case. *)
Definition wire_name (name : bytes) : bytes :=
  if 0 <? hpack_static_name_index name then map tolower name else name.

#[export] Instance emits_raw_string `{Allocator} s : Emits (hpack_raw_string s) (str_code s).
Proof. unfold hpack_raw_string, str_code. apply _. Qed.

#[export] Instance emits_field `{Allocator} name value :
  Emits (λ b, zhp_encode_ b (Some name) (Some value)) (field_code name value).
Proof. unfold zhp_encode_, field_code. bcase; apply _. Qed.

#[export] Instance emits_status `{Allocator} status :
  zlen (dec status) < 16 →
  Emits (λ b, zhp_encode_status_ b status) (int_code 4 0 8 ++ str_code (dec status)).
Proof.
  intros Hs. unfold zhp_encode_status_. eapply emits_ext; [|exact (emits_seq (zhp_int_encode_ 4 0 8) (hpack_raw_string (dec status)) _ _)].
  intros b. cbv zeta. bcase; [lia|done].
Qed.

Lemma ci_eq_lower a b : ci_eq a b = true → map tolower a = map tolower b.
Proof.
  revert b. induction a as [|x a IH]; intros [|y b]; cbn; try done. bcase; [done|].
  intros H%IH. by rewrite Heqb0, H.
Qed.

Lemma static_search_spec i table name :
  0 ≤ i →
  static_search i table name = 0 ∨
  ∃ k e, table !! k = Some e ∧ static_search i table name = i + Z.of_nat k + 1 ∧ ci_eq e.1 name = true.
Proof.
  revert i. induction table as [|e table IH]; intros i Hi; cbn; [by left|]. bcase.
  - right. exists 0%nat, e. ands.
  - destruct (IH (i + 1) ltac:(lia)) as [?|(k & e' & Hk & Hs & Hc)]; [by left|right].
    exists (S k), e'. ands.
Qed.

Definition static_lower_ok : bool :=
  forallb (λ e, bool_decide (map tolower e.1 = e.1)) HPACK_STATIC.

Lemma static_lower_is_ok : static_lower_ok = true.
Proof. vm_compute. reflexivity. Qed.

Lemma static_name_spec name :
  0 < hpack_static_name_index name →
  1 ≤ hpack_static_name_index name ≤ HPACK_STATIC_N ∧
  (nth (Z.to_nat (hpack_static_name_index name - 1)) HPACK_STATIC ([], [])).1 = map tolower name.
Proof.
  intros Hpos. unfold hpack_static_name_index in *.
  destruct (static_search_spec 0 HPACK_STATIC name ltac:(lia)) as [E|(k & e & Hk & E & Hc)];
    [lia|]. rewrite E in *. pose proof (lookup_lt_Some _ _ _ Hk). split; [unfold HPACK_STATIC_N; lia|].
  replace (Z.to_nat (0 + Z.of_nat k + 1 - 1)) with k by lia. rewrite (nth_lookup_Some _ _ _ _ Hk).
  apply ci_eq_lower in Hc. rewrite <- Hc. pose proof static_lower_is_ok as Hl.
  unfold static_lower_ok in Hl. rewrite forallb_forall in Hl.
  apply list_elem_of_lookup_2, list_elem_of_In, Hl in Hk. by apply bool_decide_eq_true in Hk.
Qed.

(** First octets: the prefix value only. *)
Lemma int_code_head k v :
  1 ≤ k ≤ 8 → 0 ≤ v → ∃ b c, int_code k 0 v = b :: c ∧ 0 ≤ b ≤ Z.ones k.
Proof.
  intros Hk Hv. unfold int_code. destruct (prefix_mask k Hk) as (-> & Ho & _).
  rewrite (wrap_small 8 (Z.ones k)) by lia. rewrite !Z.lor_0_l. bcase.
  - do 2 eexists. split; [done|]. rewrite (wrap_small 8 v), wrap_small; rewrite ?wrap_small; lia.
  - do 2 eexists. split; [done|]. rewrite wrap_small; lia.
Qed.

Lemma low_bits b m k : 0 ≤ b < 2 ^ k → m = 2 ^ k → 0 ≤ k → Z.land b m = 0.
Proof.
  intros Hb -> Hk. apply Z.bits_inj'. intros n Hn. rewrite Z.land_spec, Z.bits_0.
  destruct (decide (n = k)) as [->|].
  - rewrite (Z.testbit_eqb b k) by lia. rewrite Z.div_small by lia. done.
  - rewrite Z.pow2_bits_false by lia. apply andb_false_r.
Qed.

Section Read.
Context `{Allocator}.

Lemma string_at_read pre k flags s rest max_out scratch :
  1 ≤ k ≤ 8 → is_byte flags → Z.land flags (Z.ones k) = 0 →
  zlen s ≤ ZHP_INT_MAX → zlen s ≤ max_out →
  zlen (pre ++ (int_code k flags (zlen s) ++ s) ++ rest) < 2 ^ 63 →
  string_at (pre ++ (int_code k flags (zlen s) ++ s) ++ rest) (zlen pre) false k max_out scratch =
    Ok (inr (zlen pre + zlen (int_code k flags (zlen s) ++ s), s), scratch).
Proof.
  intros Hk Hfl Hla Hi Hm Hlen. unfold string_at. rewrite zdrop_app_zlen by done.
  rewrite <- app_assoc. rewrite (int_roundtrip k flags (zlen s)) by (done || lia).
  zlen_simpl_in Hlen. rewrite wrap_small by zl. bcase; [zlen_simpl_in Heqb; lia|]. bcase; [lia|].
  do 3 f_equal. f_equal; [zl|]. unfold slice. rewrite app_assoc.
  rewrite zdrop_app_zlen by zl. by rewrite ztake_app_zlen.
Qed.

(** The first octet of a literal written without Huffman coding. *)
Lemma raw_string_head pre s rest :
  Z.land (nth (Z.to_nat (zlen pre)) (pre ++ str_code s ++ rest) 0) 128 = 0 ∧
  zlen pre < zlen (pre ++ str_code s ++ rest).
Proof.
  unfold str_code. pose proof (int_code_pos 7 0 (zlen s)). split; [|zl].
  destruct (int_code_head 7 (zlen s) ltac:(lia) ltac:(lia)) as (b & c & Hbc & Hb).
  rewrite Nat2Z.id, app_nth2, Nat.sub_diag, Hbc by lia. change (Z.ones 7) with 127 in Hb.
  cbn [app nth]. apply (low_bits b 128 7); [lia|done|lia].
Qed.

Lemma string_read pre s rest max_out scratch :
  zlen s ≤ ZHP_INT_MAX → zlen s ≤ max_out → zlen (pre ++ str_code s ++ rest) < 2 ^ 63 →
  hpack_string (pre ++ str_code s ++ rest) (zlen pre) max_out scratch =
    Ok (inr (zlen pre + zlen (str_code s), s), scratch).
Proof.
  intros Hi Hm Hlen. unfold hpack_string. destruct (raw_string_head pre s rest) as [-> Hlt].
  bcase; [lia|]. apply string_at_read; try done; try lia; unfold is_byte; lia.
Qed.

Lemma repr_read d pre name value rest max_out seen nbuf vbuf :
  zlen name ≤ ZHP_INT_MAX → zlen value ≤ ZHP_INT_MAX → zlen name ≤ max_out → zlen value ≤ max_out →
  zlen (pre ++ field_code name value ++ rest) < 2 ^ 63 →
  hpack_repr d (pre ++ field_code name value ++ rest) (zlen pre) max_out seen nbuf vbuf =
    Ok (RField (zlen pre + zlen (field_code name value)) (wire_name name) value false, nbuf, vbuf).
Proof.
  intros Hn Hv Hnm Hvm Hlen. unfold hpack_repr.
  set (idx := if 0 <? hpack_static_name_index name then hpack_static_name_index name else 0).
  assert (∃ tl, field_code name value = int_code 4 0 idx ++ tl) as [tl Htl].
  { unfold field_code, idx. bcase; [by eexists|]. rewrite <- app_assoc. by eexists. }
  assert (0 ≤ idx ≤ ZHP_INT_MAX) as Hidx.
  { unfold idx. change ZHP_INT_MAX with 16777216. destruct (0 <? _) eqn:Ei; btest; [|lia].
    destruct (static_name_spec name Ei) as [Hr _]. change HPACK_STATIC_N with 61 in Hr. lia. }
  destruct (int_code_head 4 idx ltac:(lia) ltac:(lia)) as (b & c & Hbc & Hb).
  change (Z.ones 4) with 15 in Hb.
  assert (nth (Z.to_nat (zlen pre)) (pre ++ field_code name value ++ rest) 0 = b) as ->.
  { rewrite Nat2Z.id, app_nth2, Nat.sub_diag, Htl, Hbc by lia. done. }
  rewrite (low_bits b 128 7), (low_bits b 64 6), (low_bits b 32 5) by (done || lia).
  change (negb (0 =? 0)) with false. cbv iota.
  unfold hpack_literal. rewrite zdrop_app_zlen by done.
  assert (zhp_int_decode_ (field_code name value ++ rest) 4 = inr (zlen (int_code 4 0 idx), idx)) as ->.
  { rewrite Htl, <- app_assoc. apply int_roundtrip; try lia; [unfold is_byte; lia|done]. }
  unfold field_code, wire_name, idx in *. destruct (0 <? _) eqn:Ei; btest.
  - destruct (static_name_spec name Ei) as [Hr Hname]. bcase; [lia|].
    unfold hpack_resolve. bcase; [lia|]. bcase; [|lia].
    destruct (nth _ HPACK_STATIC _) as [nm vl] eqn:Ee. cbn [fst] in Hname. subst nm.
    cbn [mbind exec_bind]. rewrite <- app_assoc, app_assoc.
    replace (zlen pre + zlen (int_code 4 0 (hpack_static_name_index name)))
      with (zlen (pre ++ int_code 4 0 (hpack_static_name_index name))) by zl.
    rewrite string_read; [|done|done|].
    + cbn. do 4 f_equal. zl.
    + rewrite <- app_assoc. rewrite <- app_assoc in Hlen. done.
  - change (0 =? 0) with true. cbv iota.
    replace (pre ++ ((int_code 4 0 0 ++ str_code name) ++ str_code value) ++ rest)
      with ((pre ++ int_code 4 0 0) ++ str_code name ++ (str_code value ++ rest)) in *
      by (by rewrite <- !app_assoc).
    replace (zlen pre + zlen (int_code 4 0 0)) with (zlen (pre ++ int_code 4 0 0)) by zl.
    rewrite string_read by done. cbn [mbind exec_bind].
    replace ((pre ++ int_code 4 0 0) ++ str_code name ++ str_code value ++ rest)
      with ((pre ++ int_code 4 0 0 ++ str_code name) ++ str_code value ++ rest) in *
      by (by rewrite <- !app_assoc).
    replace (zlen (pre ++ int_code 4 0 0) + zlen (str_code name))
      with (zlen (pre ++ int_code 4 0 0 ++ str_code name)) by zl.
    rewrite string_read by done. cbn. do 4 f_equal. zl.
Qed.
End Read.

Definition block_code (hs : list (bytes * bytes)) : bytes :=
  concat (map (λ h, field_code h.1 h.2) hs).

Section ReadBlock.
Context `{Allocator} {U : Type} (emit : U → bytes → bytes → Z * U).

Definition wire_fields (hs : list (bytes * bytes)) : list (bytes * bytes) :=
  map (λ h, (wire_name h.1, h.2)) hs.

Lemma zlen_wire_name n : zlen (wire_name n) = zlen n.
Proof. unfold wire_name. bcase; [by rewrite length_map|done]. Qed.

Lemma field_code_pos n v : 1 ≤ zlen (field_code n v).
Proof.
  unfold field_code, str_code. pose proof (int_code_pos 7 0 (zlen v)). zlen_simpl. lia.
Qed.

Lemma decode_loop_read fuel d pre hs max decoded seen nbuf vbuf u :
  zlen (pre ++ block_code hs) < 2 ^ 63 → (length (block_code hs) ≤ fuel)%nat →
  Forall (λ h, zlen h.1 ≤ ZHP_INT_MAX ∧ zlen h.2 ≤ ZHP_INT_MAX) hs →
  0 ≤ decoded → decoded + fields_size hs ≤ max → max < 2 ^ 62 →
  decode_loop emit fuel d (pre ++ block_code hs) max (zlen pre) decoded seen nbuf vbuf u =
    let '(r, u') := run_emits emit u (wire_fields hs) in Ok (r, d, u').
Proof.
  intros Hlen Hf Hall. revert fuel pre decoded seen u Hlen Hf.
  induction Hall as [|[n v] hs [Hn Hv] Hall IH]; intros fuel pre decoded seen u Hlen Hf Hdec Hmax Hm.
  - unfold block_code, wire_fields. cbn. rewrite app_nil_r. destruct fuel; cbn [decode_loop];
      (bcase; [lia|done]).
  - pose proof (field_code_pos n v) as Hfp. pose proof (fields_size_nonneg hs) as Hnn.
    assert (block_code ((n, v) :: hs) = field_code n v ++ block_code hs) as Hb by done.
    cbn [fields_size fst snd] in *. rewrite Hb in *. zlen_simpl_in Hf.
    destruct fuel as [|fuel]; [lia|]. cbn [decode_loop]. bcase; [|zlen_simpl_in Heqb; lia].
    rewrite repr_read by (done || lia). cbn [mbind exec_bind].
    rewrite zlen_wire_name. rewrite !wrap_small by lia.
    bcase; [apply orb_true_iff in Heqb0 as [E|E]; btest; lia|].
    unfold wire_fields. cbn [map run_emits fst snd].
    destruct (emit u (wire_name n) v) as [er u1]. destruct (negb (er =? 0)) eqn:Eer; [done|]. cbv iota.
    change (negb (ZCIO_OK =? ZCIO_OK)) with false. cbv iota. rewrite app_assoc.
    replace (zlen pre + zlen (field_code n v)) with (zlen (pre ++ field_code n v)) by zl.
    apply IH; try lia. by rewrite <- app_assoc.
Qed.
End ReadBlock.

(** ** Properties *)

(** C39: The dynamic table implements the bounded FIFO of RFC 7541: inserting
    an entry evicts from the old end exactly until it fits (or empties the
    table when it can never fit), the accounted size stays the sum of the live
    entries and within the limit, and the entries keep their wire order,
    newest first, through array compaction and growth. *)
Theorem hpack_table_fifo (a : Allocator) d name val (Hd : dec_wf d)
  (Hl : zlen name + zlen val < 2 ^ 62) :
  let '(r, d') := dec_add d name val in
  dec_wf d' ∧ d_max d' = d_max d ∧ (r = ZCIO_OK ∨ r = ZCIO_ERR_NOMEM) ∧
  (r = ZCIO_OK → live d' = fifo_add (d_max d) (live d) (mk_ent name val) ∧
     ∀ i, 0 ≤ i < zlen (live d') →
       ∃ e, hpack_resolve d' (HPACK_STATIC_N + 1 + i) = inr (ent_name e, ent_val e) ∧
         reverse (live d') !! Z.to_nat i = Some e) ∧
  size_of (live d') = d_used d' ∧ d_used d' ≤ d_max d' ≤ ZHP_DEC_TABLE_MAX.
Proof.
  pose proof (dec_add_spec d name val Hd Hl) as H. destruct (dec_add d name val) as [r d'].
  destruct H as (Hd' & Hm & Hr & Hlive & _). split; [done|]. split; [done|]. split; [done|].
  pose proof Hd' as [Hs Hfit]. pose proof Hs as (Hh & Ht & Hc & Hu & _ & Hmx).
  split; [|ands]. intros Hok. split; [by apply Hlive|]. intros i Hi. rewrite (zlen_live d' Hs) in Hi.
  exists (ent_at d' (d_tail d' - 1 - i)). split.
  - unfold hpack_resolve. change HPACK_STATIC_N with 61. repeat bcase; try lia.
    by replace (61 + 1 + i - 61 - 1) with i by lia.
  - rewrite reverse_lookup by (rewrite <- (zlen_live d' Hs) in Hi; lia).
    pose proof (zlen_live d' Hs). replace (_ - _)%nat with (Z.to_nat (d_tail d' - d_head d' - 1 - i)) by lia.
    rewrite (live_at d') by (done || lia). do 2 f_equal. lia.
Qed.

(** Decoding any header block from any well-formed table terminates
    without leaving the block, keeps the table well formed, hands the callback
    fields whose total size never exceeds the caller's cap, stops at the first
    callback refusal with its value, and otherwise returns success or a
    protocol or memory error. *)
Theorem zhp_decode_total (a : Allocator) (U : Type) (emit : U → bytes → bytes → Z * U)
  d block max u (Hb : is_bytes block) (Hlen : zlen block < 2 ^ 63) (Hd : dec_wf d)
  (Hm : 0 ≤ max < 2 ^ 62) :
  ∃ rc d' u', zhp_decode_ emit d block max u = Ok (rc, d', u') ∧ dec_wf d' ∧
    ∃ fs r, run_emits emit u fs = (r, u') ∧ fields_size fs ≤ max ∧
      (r ≠ 0 → rc = r) ∧
      (r = 0 → rc = ZCIO_OK ∨ rc = ZCIO_ERR_PROTOCOL ∨ rc = ZCIO_ERR_NOMEM).
Proof.
  destruct (decode_loop_total emit (length block) d block max 0 0 false buf_empty buf_empty u Hb Hlen)
    as (rc & d' & u' & E & Hd' & fs & r & H1 & H2 & H3 & H4); try done; try lia;
    [apply buf_empty_wf..|].
  exists rc, d', u'. split; [exact E|]. split; [done|]. by exists fs, r.
Qed.

(** C40: Encoder and decoder agree: writing any list of headers with the
    stateless encoder and decoding the block reports exactly those fields in
    order (static names in lower case), whatever the decoder's table holds,
    and leaves the table unchanged. *)
Theorem hpack_roundtrip (a : Allocator) (U : Type) (emit : U → bytes → bytes → Z * U) hs out d max u
  (Hh : Forall (λ h, zlen h.1 ≤ ZHP_INT_MAX ∧ zlen h.2 ≤ ZHP_INT_MAX) hs)
  (Hm : fields_size hs ≤ max < 2 ^ 62) (Hb : buf_wf out) (Ha : ∀ n, alloc_ok n = true)
  (Hsz : b_len out + zlen (block_code hs) < 2 ^ 63) :
  ∃ out', foldr (λ h f, (λ b, zhp_encode_ b (Some h.1) (Some h.2)) ▷ f) emit_ok hs out = (ZCIO_OK, out') ∧
    ∃ block, buf_contents out' = buf_contents out ++ block ∧
      zhp_decode_ emit d block max u =
        (let '(r, u') := run_emits emit u (wire_fields hs) in Ok (r, d, u')).
Proof.
  assert (Emits (foldr (λ h f, (λ b, zhp_encode_ b (Some h.1) (Some h.2)) ▷ f) emit_ok hs)
    (block_code hs)) as Hem.
  { clear. induction hs as [|h hs IH]; [apply emits_ok|]. unfold block_code. cbn.
    exact (emits_seq _ _ (field_code h.1 h.2) (block_code hs)). }
  pose proof Hb as (Ho & _). destruct (Hem out Hb) as (r & out' & E & _ & Hr & Hal).
  specialize (Hal Ha ltac:(unfold SIZE_MAX; lia)). subst r. exists out'. split; [exact E|].
  exists (block_code hs). split; [by destruct Hr as [(_ & Hc & _)|(Hr & _)]|].
  apply (decode_loop_read emit (length (block_code hs)) d [] hs max 0 false buf_empty buf_empty u);
    cbn [app]; lia || done.
Qed.

(** ** Witnesses *)

(** A callback that records the fields. *)
Definition log_emit (u : list (bytes * bytes)) (n v : bytes) : Z * list (bytes * bytes) :=
  (0, u ++ [(n, v)]).

Definition empty_dec : zhp_dec := mk_dec 64 0 [] 0 0 0.

Lemma empty_dec_wf : dec_wf empty_dec.
Proof. vm_compute. intuition discriminate. Qed.

Lemma hpack_table_fifo_witness :
  let '(r, d') := @dec_add always_alloc empty_dec (B "a") (B "b") in
  r = ZCIO_OK ∧ live d' = [mk_ent (B "a") (B "b")] ∧ d_used d' ≤ d_max d'.
Proof.
  pose proof (hpack_table_fifo always_alloc empty_dec (B "a") (B "b") empty_dec_wf eq_refl) as H.
  destruct (dec_add empty_dec (B "a") (B "b")) as [r d'] eqn:E.
  destruct H as (_ & _ & _ & _ & _ & H & _). vm_compute in E. injection E as <- <-.
  split; [reflexivity|]. split; [reflexivity|]. exact H.
Defined.

(** RFC 7541 C.4.1: Huffman-coded authority, added to the table. *)
Definition rfc_c41 : bytes :=
  [130; 134; 132; 65; 140; 241; 227; 194; 229; 242; 58; 107; 160; 171; 144; 244; 255].

Lemma zhp_decode_total_witness :
  ∃ d', @zhp_decode_ always_alloc _ log_emit (mk_dec 4096 0 [] 0 0 0) rfc_c41 1000 [] =
    Ok (ZCIO_OK, d', [(B ":method", B "GET"); (B ":scheme", B "http"); (B ":path", B "/");
                      (B ":authority", B "www.example.com")]) ∧ dec_wf d'.
Proof.
  assert (is_bytes rfc_c41) as Hb by (repeat constructor; vm_compute; intuition discriminate).
  destruct (zhp_decode_total always_alloc _ log_emit (mk_dec 4096 0 [] 0 0 0) rfc_c41 1000 [] Hb
    eq_refl ltac:(vm_compute; intuition discriminate) ltac:(lia)) as (rc & d' & u' & E & Hd & _).
  exists d'. split; [|exact Hd]. vm_compute in E. injection E as <- <- <-. vm_compute. reflexivity.
Defined.

Lemma hpack_roundtrip_witness :
  ∃ out', foldr (λ h f, (λ b, @zhp_encode_ always_alloc b (Some h.1) (Some h.2)) ▷ f) emit_ok
      [(B "Server", B "zcio"); (B "x-a", [])] buf_empty = (ZCIO_OK, out') ∧
    ∃ block, buf_contents out' = block ∧
      @zhp_decode_ always_alloc _ log_emit empty_dec block 100 [] =
        Ok (0, empty_dec, [(B "server", B "zcio"); (B "x-a", [])]).
Proof.
  apply (hpack_roundtrip always_alloc _ log_emit [(B "Server", B "zcio"); (B "x-a", [])] buf_empty
    empty_dec 100 []).
  - repeat constructor; vm_compute; discriminate.
  - vm_compute. intuition discriminate.
  - exact buf_empty_wf.
  - intros n. reflexivity.
  - vm_compute. reflexivity.
Defined.
