(* ===== verification/Qpack.v ===== *)
(** * Qpack: HTTP/3 header compression ([src/qpack.c])

    Static table only: the decoder refuses every dynamic or post-base
    reference; the encoder is stateless.  Integers and Huffman strings are
    those of [HpackInt] and [Huffman], string literals those of [Hpack]. *)
From stdpp Require Import base tactics list option strings.
From Stdlib Require Import ZArith Lia.
From S2P Require Import Prelude Types Buf HttpUtil HpackInt Huffman Hpack.

Definition QPACK_STATIC : list (bytes * bytes) := [
  (B ":authority", []); (B ":path", B "/"); (B "age", B "0"); (B "content-disposition", []);
  (B "content-length", B "0"); (B "cookie", []); (B "date", []); (B "etag", []);
  (B "if-modified-since", []); (B "if-none-match", []); (B "last-modified", []); (B "link", []);
  (B "location", []); (B "referer", []); (B "set-cookie", []); (B ":method", B "CONNECT");
  (B ":method", B "DELETE"); (B ":method", B "GET"); (B ":method", B "HEAD");
  (B ":method", B "OPTIONS"); (B ":method", B "POST"); (B ":method", B "PUT");
  (B ":scheme", B "http"); (B ":scheme", B "https"); (B ":status", B "103");
  (B ":status", B "200"); (B ":status", B "304"); (B ":status", B "404"); (B ":status", B "503");
  (B "accept", B "*/*"); (B "accept", B "application/dns-message");
  (B "accept-encoding", B "gzip, deflate, br"); (B "accept-ranges", B "bytes");
  (B "access-control-allow-headers", B "cache-control");
  (B "access-control-allow-headers", B "content-type"); (B "access-control-allow-origin", B "*");
  (B "cache-control", B "max-age=0"); (B "cache-control", B "max-age=2592000");
  (B "cache-control", B "max-age=604800"); (B "cache-control", B "no-cache");
  (B "cache-control", B "no-store"); (B "cache-control", B "public, max-age=31536000");
  (B "content-encoding", B "br"); (B "content-encoding", B "gzip");
  (B "content-type", B "application/dns-message");
  (B "content-type", B "application/javascript"); (B "content-type", B "application/json");
  (B "content-type", B "application/x-www-form-urlencoded"); (B "content-type", B "image/gif");
  (B "content-type", B "image/jpeg"); (B "content-type", B "image/png");
  (B "content-type", B "text/css"); (B "content-type", B "text/html;charset=utf-8");
  (B "content-type", B "text/plain"); (B "content-type", B "text/plain;charset=utf-8");
  (B "range", B "bytes=0-"); (B "strict-transport-security", B "max-age=31536000");
  (B "strict-transport-security", B "max-age=31536000;includesubdomains");
  (B "strict-transport-security", B "max-age=31536000;includesubdomains;preload");
  (B "vary", B "accept-encoding"); (B "vary", B "origin");
  (B "x-content-type-options", B "nosniff"); (B "x-xss-protection", B "1; mode=block");
  (B ":status", B "100"); (B ":status", B "204"); (B ":status", B "206"); (B ":status", B "302");
  (B ":status", B "400"); (B ":status", B "403"); (B ":status", B "421"); (B ":status", B "425");
  (B ":status", B "500"); (B "accept-language", []);
  (B "access-control-allow-credentials", B "FALSE");
  (B "access-control-allow-credentials", B "TRUE"); (B "access-control-allow-headers", B "*");
  (B "access-control-allow-methods", B "get");
  (B "access-control-allow-methods", B "get, post, options");
  (B "access-control-allow-methods", B "options");
  (B "access-control-expose-headers", B "content-length");
  (B "access-control-request-headers", B "content-type");
  (B "access-control-request-method", B "get"); (B "access-control-request-method", B "post");
  (B "alt-svc", B "clear"); (B "authorization", []);
  (B "content-security-policy", B "script-src 'none';object-src 'none';base-uri 'none'");
  (B "early-data", B "1"); (B "expect-ct", []); (B "forwarded", []); (B "if-range", []);
  (B "origin", []); (B "purpose", B "prefetch"); (B "server", []);
  (B "timing-allow-origin", B "*"); (B "upgrade-insecure-requests", B "1"); (B "user-agent", []);
  (B "x-forwarded-for", []); (B "x-frame-options", B "deny");
  (B "x-frame-options", B "sameorigin")].

Definition QPACK_STATIC_N : Z := zlen QPACK_STATIC.
Definition QPACK_STATUS_NAME_IDX : Z := 24.

(** 0-based index of the first entry with that name, -1 when there is none. *)
Fixpoint qpack_search (i : Z) (table : list (bytes * bytes)) (name : bytes) : Z :=
  match table with
  | [] => -1
  | e :: table => if ci_eq (fst e) name then i else qpack_search (i + 1) table name
  end.

Definition qpack_static_name_index (name : bytes) : Z := qpack_search 0 QPACK_STATIC name.

Section Decode.
Context `{Allocator}.

(** The same body as HPACK's literals, for any prefix width. *)
Definition qpack_read_string (block : bytes) (pos : Z) (huff : bool) (prefix_bits max_out : Z)
    (scratch : zhs_buf) : exec ((Z + (Z * bytes)) * zhs_buf) :=
  string_at block pos huff prefix_bits max_out scratch.

(** One field line: an error or the position after it with name and value. *)
Definition line_result : Type := Z + (Z * bytes * bytes).

Definition static_entry (idx : Z) : bytes * bytes := nth (Z.to_nat idx) QPACK_STATIC ([], []).

(** The value literal that ends a literal field line. *)
Definition qpack_value (block : bytes) (pos max_out : Z) (nm : bytes) (vbuf : zhs_buf) :
    exec (line_result * zhs_buf) :=
  if zlen block <=? pos then Ok (inl ZCIO_ERR_PROTOCOL, vbuf)
  else
    '(value, vbuf) ← qpack_read_string block pos
       (negb (Z.land (nth (Z.to_nat pos) block 0) 128 =? 0)) 7 max_out vbuf;
    Ok (match value with inl e => inl e | inr (pos, vl) => inr (pos, nm, vl) end, vbuf).

Definition qpack_line (block : bytes) (pos max_out : Z) (nbuf vbuf : zhs_buf) :
    exec (line_result * zhs_buf * zhs_buf) :=
  let b := nth (Z.to_nat pos) block 0 in
  let bit m := negb (Z.land b m =? 0) in
  if bit 128 then
    Ok (if negb (bit 64) then inl ZCIO_ERR_PROTOCOL
        else match zhp_int_decode_ (zdrop pos block) 6 with
             | inl r => inl r
             | inr (r, idx) =>
                 if QPACK_STATIC_N <=? idx then inl ZCIO_ERR_PROTOCOL
                 else let '(nm, vl) := static_entry idx in inr (pos + r, nm, vl)
             end, nbuf, vbuf)
  else if bit 64 then
    if negb (bit 16) then Ok (inl ZCIO_ERR_PROTOCOL, nbuf, vbuf)
    else match zhp_int_decode_ (zdrop pos block) 4 with
         | inl r => Ok (inl r, nbuf, vbuf)
         | inr (r, idx) =>
             if QPACK_STATIC_N <=? idx then Ok (inl ZCIO_ERR_PROTOCOL, nbuf, vbuf)
             else
               '(res, vbuf) ← qpack_value block (pos + r) max_out (fst (static_entry idx)) vbuf;
               Ok (res, nbuf, vbuf)
         end
  else if bit 32 then
    '(name, nbuf) ← qpack_read_string block pos (bit 8) 3 max_out nbuf;
    match name with
    | inl r => Ok (inl r, nbuf, vbuf)
    | inr (pos, nm) =>
        '(res, vbuf) ← qpack_value block pos max_out nm vbuf;
        Ok (res, nbuf, vbuf)
    end
  else if bit 16 then Ok (inl ZCIO_ERR_PROTOCOL, nbuf, vbuf)
  else Ok (inl ZCIO_ERR_PROTOCOL, nbuf, vbuf).

Context {U : Type} (emit : U → bytes → bytes → Z * U).

Fixpoint lines_loop (fuel : nat) (block : bytes) (max_decoded_bytes pos decoded : Z)
    (nbuf vbuf : zhs_buf) (u : U) : exec (Z * U) :=
  if pos <? zlen block then
    match fuel with
    | O => OutOfFuel
    | S fuel =>
        '(r, nbuf, vbuf) ← qpack_line block pos max_decoded_bytes nbuf vbuf;
        match r with
        | inl rc => Ok (rc, u)
        | inr (pos, nm, vl) =>
            let nl := zlen nm in
            let vln := zlen vl in
            if (u64 (max_decoded_bytes - decoded) <? nl) ||
               (u64 (max_decoded_bytes - decoded - nl) <? vln)
            then Ok (ZCIO_ERR_PROTOCOL, u)
            else
              let decoded := decoded + nl + vln in
              let '(er, u) := emit u nm vl in
              if negb (er =? 0) then Ok (er, u)
              else lines_loop fuel block max_decoded_bytes pos decoded nbuf vbuf u
        end
    end
  else Ok (ZCIO_OK, u).

Definition zqp_decode_ (block : bytes) (max_decoded_bytes : Z) (u : U) : exec (Z * U) :=
  match zhp_int_decode_ block 8 with
  | inl c => Ok (c, u)
  | inr (c, ric) =>
      let pos := c in
      if negb (ric =? 0) then Ok (ZCIO_ERR_PROTOCOL, u)
      else if zlen block <=? pos then Ok (ZCIO_ERR_PROTOCOL, u)
      else
        match zhp_int_decode_ (zdrop pos block) 7 with
        | inl c => Ok (c, u)
        | inr (c, base) =>
            lines_loop (length block) block max_decoded_bytes (pos + c) 0 buf_empty buf_empty u
        end
  end.

(** ** Stateless encoder *)

Definition qpack_raw_string (s : bytes) : emitter := zhp_int_encode_ 7 0 (zlen s) ▷ put s.

Definition zqp_prefix_encode_ : emitter :=
  (λ b, zhs_buf_append_u8_ b 0) ▷ (λ b, zhs_buf_append_u8_ b 0).

Definition zqp_encode_ (out : zhs_buf) (name value : option bytes) : Z * zhs_buf :=
  match name, value with
  | Some name, Some value =>
      let idx := qpack_static_name_index name in
      ((if 0 <=? idx then zhp_int_encode_ 4 80 idx
        else zhp_int_encode_ 3 32 (zlen name) ▷ put name) ▷ qpack_raw_string value) out
  | _, _ => (ZCIO_ERR_INVALID_ARG, out)
  end.

(** The statuses with a full static entry. *)
Definition STATUS_INDEX : list (Z * Z) := [
  (100, 63); (103, 24); (200, 25); (204, 64); (206, 65); (302, 66); (304, 26); (400, 67);
  (403, 68); (404, 27); (421, 69); (425, 70); (500, 71); (503, 28)].

Definition zqp_encode_status_ (out : zhs_buf) (status : Z) : Z * zhs_buf :=
  let idx := match find (λ e, fst e =? status) STATUS_INDEX with Some e => snd e | None => -1 end in
  if 0 <=? idx then zhp_int_encode_ 6 192 idx out
  else
    let v := dec status in
    if 16 <=? zlen v then (ZCIO_ERR, out)
    else (zhp_int_encode_ 4 80 QPACK_STATUS_NAME_IDX ▷ qpack_raw_string v) out.
End Decode.

(** ** Decoding is total *)

Section Total.
Context `{Allocator}.

Lemma qpack_value_total block pos max_out nm vbuf :
  is_bytes block → zlen block < 2 ^ 63 → 0 ≤ pos → buf_wf vbuf → 0 ≤ max_out →
  ∃ res v', qpack_value block pos max_out nm vbuf = Ok (res, v') ∧ buf_wf v' ∧
    match res with inl e => decode_error e | inr (p, _, _) => pos < p ≤ zlen block end.
Proof.
  intros Hb Hlen Hp Hv Hm. unfold qpack_value, qpack_read_string.
  bcase; [by do 2 eexists; split; [done|]; split; [done|left]|].
  edestruct (string_at_total block pos) as (r & v' & -> & Hv' & Hr); [done|done|done| |exact Hv|exact Hm|];
    [lia|]. cbn. do 2 eexists. split; [done|]. split; [done|]. destruct r as [|[p s]]; [done|lia].
Qed.

Lemma qpack_line_total block pos max_out nbuf vbuf :
  is_bytes block → zlen block < 2 ^ 63 → 0 ≤ pos < zlen block → buf_wf nbuf → buf_wf vbuf →
  0 ≤ max_out →
  ∃ r n' v', qpack_line block pos max_out nbuf vbuf = Ok (r, n', v') ∧ buf_wf n' ∧ buf_wf v' ∧
    match r with inl e => decode_error e | inr (p, _, _) => pos < p ≤ zlen block end.
Proof.
  intros Hb Hlen Hp Hn Hv Hm. unfold qpack_line.
  assert (∀ r, decode_error r ∨ False → ∃ r' n' v',
    Ok (inl r : line_result, nbuf, vbuf) = Ok (r', n', v') ∧ buf_wf n' ∧ buf_wf v' ∧
    match r' with inl e => decode_error e | inr (p, _, _) => pos < p ≤ zlen block end) as Herr.
  { intros r Hr. do 3 eexists. split; [done|]. ands. tauto. }
  assert (∀ k c v, 1 ≤ k ≤ 8 → zhp_int_decode_ (zdrop pos block) k = inr (c, v) →
    pos < pos + c ≤ zlen block ∧ 0 ≤ v) as Hint.
  { intros k c v Hk Hi. apply int_decode_bounds in Hi as (Hc & _ & Hv0);
      [zlen_simpl_in Hc; lia|by apply is_bytes_zdrop|lia]. }
  assert (decode_error ZCIO_ERR_PROTOCOL) as Hpe by (by left).
  destruct (negb (Z.land _ 128 =? 0)).
  { destruct (negb (negb _)); [apply Herr; auto|].
    destruct (zhp_int_decode_ _ 6) as [e|[c idx]] eqn:Ei; [apply int_decode_err in Ei as ->; apply Herr; auto|].
    bcase; [apply Herr; auto|]. destruct (static_entry idx) as [nm vl].
    apply Hint in Ei; [|lia]. do 3 eexists. split; [done|]. ands. }
  destruct (negb (Z.land _ 64 =? 0)).
  { destruct (negb (negb _)); [apply Herr; auto|].
    destruct (zhp_int_decode_ _ 4) as [e|[c idx]] eqn:Ei; [apply int_decode_err in Ei as ->; apply Herr; auto|].
    bcase; [apply Herr; auto|]. apply Hint in Ei; [|lia].
    edestruct (qpack_value_total block (pos + c)) as (r & v' & -> & Hv' & Hr);
      [done|done|lia|exact Hv|exact Hm|].
    cbn. do 3 eexists. split; [done|]. ands. destruct r as [|[[p ?] ?]]; [done|lia]. }
  destruct (negb (Z.land _ 32 =? 0)).
  { unfold qpack_read_string at 1.
    edestruct (string_at_total block pos) as (r & n' & -> & Hn' & Hr); [done|done|lia| |exact Hn|exact Hm|];
      [lia|]. cbn [mbind exec_bind]. destruct r as [e|[p nm]]; [do 3 eexists; split; [done|]; ands|].
    edestruct (qpack_value_total block p) as (r & v' & -> & Hv' & Hr');
      [done|done|lia|exact Hv|exact Hm|].
    cbn. do 3 eexists. split; [done|]. ands. destruct r as [|[[p' ?] ?]]; [done|lia]. }
  destruct (negb (Z.land _ 16 =? 0)); apply Herr; auto.
Qed.

Context {U : Type} (emit : U → bytes → bytes → Z * U).

Lemma lines_loop_total fuel block max pos decoded nbuf vbuf u :
  is_bytes block → zlen block < 2 ^ 63 → 0 ≤ pos → zlen block - pos ≤ Z.of_nat fuel →
  0 ≤ decoded ≤ max → max < 2 ^ 62 → buf_wf nbuf → buf_wf vbuf →
  ∃ rc u', lines_loop emit fuel block max pos decoded nbuf vbuf u = Ok (rc, u') ∧
    ∃ fs r, run_emits emit u fs = (r, u') ∧ decoded + fields_size fs ≤ max ∧
      (r ≠ 0 → rc = r) ∧ (r = 0 → rc = ZCIO_OK ∨ decode_error rc).
Proof.
  intros Hb Hlen. revert pos decoded nbuf vbuf u.
  assert (∀ u decoded rc, decoded ≤ max → rc = ZCIO_OK ∨ decode_error rc →
    ∃ rc' u', Ok (rc, u) = Ok (rc', u') ∧ ∃ fs r, run_emits emit u fs = (r, u') ∧
      decoded + fields_size fs ≤ max ∧ (r ≠ 0 → rc' = r) ∧
      (r = 0 → rc' = ZCIO_OK ∨ decode_error rc')) as Hret.
  { intros u decoded rc Hdec Hrc. exists rc, u. split; [done|]. exists [], 0. cbn. ands. }
  induction fuel as [|fuel IH]; intros pos decoded nbuf vbuf u Hp Hf Hdec Hmax Hn Hv;
    cbn [lines_loop]; (bcase; [|apply Hret; [lia|by left]]); [lia|].
  destruct (qpack_line_total block pos max nbuf vbuf) as (r & n' & v' & -> & Hn' & Hv' & Hr);
    try done; [lia|]. cbn [mbind exec_bind]. destruct r as [e|[[p nm] vl]].
  - apply Hret; [lia|by right].
  - rewrite (wrap_small 64 (max - decoded)) by lia.
    destruct (max - decoded <? zlen nm) eqn:E1; btest; cbn [orb]; [apply Hret; [lia|right; by left]|].
    rewrite wrap_small by lia.
    destruct (_ <? zlen vl) eqn:E2; btest; [apply Hret; [lia|right; by left]|].
    destruct (emit u nm vl) as [er u1] eqn:Ee. destruct (negb (er =? 0)) eqn:Eer; btest.
    + exists er, u1. split; [done|]. exists [(nm, vl)], er. cbn. rewrite Ee. bcase; [|done]. ands.
    + subst er. destruct (IH p (decoded + zlen nm + zlen vl) n' v' u1)
        as (rc2 & u2 & -> & fs & r & Hr1 & Hr2 & Hr3 & Hr4); try done; try lia.
      exists rc2, u2. split; [done|]. exists ((nm, vl) :: fs), r.
      cbn [run_emits fields_size]. rewrite Ee. cbn. ands.
Qed.
End Total.

(** ** Round trip *)

Definition line_code (name value : bytes) : bytes :=
  (if 0 <=? qpack_static_name_index name then int_code 4 80 (qpack_static_name_index name)
   else int_code 3 32 (zlen name) ++ name) ++ str_code value.

Definition qwire_name (name : bytes) : bytes :=
  if 0 <=? qpack_static_name_index name then map tolower name else name.

#[export] Instance emits_qpack_raw `{Allocator} s : Emits (qpack_raw_string s) (str_code s).
Proof. unfold qpack_raw_string, str_code. apply _. Qed.

#[export] Instance emits_line `{Allocator} name value :
  Emits (λ b, zqp_encode_ b (Some name) (Some value)) (line_code name value).
Proof.
  unfold zqp_encode_, line_code. generalize (qpack_static_name_index name). intros idx. bcase.
  - exact (emits_seq (zhp_int_encode_ 4 80 idx) (qpack_raw_string value) _ _).
  - exact (emits_seq (zhp_int_encode_ 3 32 (zlen name) ▷ put name) (qpack_raw_string value) _ _).
Qed.

#[export] Instance emits_prefix `{Allocator} : Emits zqp_prefix_encode_ [0; 0].
Proof. exact (emits_seq _ _ [0] [0]). Qed.

Definition qstatic_lower_ok : bool :=
  forallb (λ e, bool_decide (map tolower e.1 = e.1)) QPACK_STATIC.

Lemma qstatic_lower_is_ok : qstatic_lower_ok = true.
Proof. vm_compute. reflexivity. Qed.

Lemma qpack_search_spec i table name :
  0 ≤ i →
  qpack_search i table name = -1 ∨
  ∃ k e, table !! k = Some e ∧ qpack_search i table name = i + Z.of_nat k ∧ ci_eq e.1 name = true.
Proof.
  revert i. induction table as [|e table IH]; intros i Hi; cbn; [by left|]. bcase.
  - right. exists 0%nat, e. ands.
  - destruct (IH (i + 1) ltac:(lia)) as [?|(k & e' & Hk & Hs & Hc)]; [by left|right].
    exists (S k), e'. ands.
Qed.

Lemma qstatic_name_spec name :
  0 ≤ qpack_static_name_index name →
  qpack_static_name_index name < QPACK_STATIC_N ∧
  (static_entry (qpack_static_name_index name)).1 = map tolower name.
Proof.
  intros Hpos. unfold qpack_static_name_index, static_entry in *.
  destruct (qpack_search_spec 0 QPACK_STATIC name ltac:(lia)) as [E|(k & e & Hk & E & Hc)];
    [lia|]. rewrite E in *. pose proof (lookup_lt_Some _ _ _ Hk). split; [unfold QPACK_STATIC_N; lia|].
  replace (Z.to_nat (0 + Z.of_nat k)) with k by lia. rewrite (nth_lookup_Some _ _ _ _ Hk).
  apply ci_eq_lower in Hc. rewrite <- Hc. pose proof qstatic_lower_is_ok as Hl.
  unfold qstatic_lower_ok in Hl. rewrite forallb_forall in Hl.
  apply list_elem_of_lookup_2, list_elem_of_In, Hl in Hk. by apply bool_decide_eq_true in Hk.
Qed.

(** The first octet keeps the flag bits above the prefix. *)
Lemma int_code_flag_head k flags v :
  1 ≤ k ≤ 8 → is_byte flags → Z.land flags (Z.ones k) = 0 → 0 ≤ v →
  ∃ b c, int_code k flags v = b :: c ∧ flags ≤ b ≤ flags + Z.ones k.
Proof.
  intros Hk Hf Hl Hv. unfold int_code. destruct (prefix_mask k Hk) as (-> & Ho & _).
  rewrite (wrap_small 8 (Z.ones k)) by lia. bcase.
  - rewrite (wrap_small 8 v) by lia. destruct (lor_flags k flags v Hk Hf Hl) as [-> _]; [lia|].
    do 2 eexists. split; [done|lia].
  - destruct (lor_flags k flags (Z.ones k) Hk Hf Hl) as [-> _]; [lia|]. do 2 eexists. split; [done|lia].
Qed.

(** The flag tests on the octets the encoder writes first. *)
Lemma line_flags b :
  (80 ≤ b ≤ 95 → Z.land b 128 = 0 ∧ Z.land b 64 ≠ 0 ∧ Z.land b 16 ≠ 0) ∧
  (32 ≤ b ≤ 39 → Z.land b 128 = 0 ∧ Z.land b 64 = 0 ∧ Z.land b 32 ≠ 0 ∧ Z.land b 8 = 0).
Proof.
  assert (forallb (λ n, let b := Z.of_nat n in
    implb ((80 <=? b) && (b <=? 95)) ((Z.land b 128 =? 0) && negb (Z.land b 64 =? 0) && negb (Z.land b 16 =? 0)) &&
    implb ((32 <=? b) && (b <=? 39)) ((Z.land b 128 =? 0) && (Z.land b 64 =? 0) && negb (Z.land b 32 =? 0) &&
      (Z.land b 8 =? 0))) (seq 0 256) = true) as Hall by (vm_compute; reflexivity).
  rewrite forallb_forall in Hall.
  split; intros Hb; specialize (Hall (Z.to_nat b) ltac:(apply in_seq; lia));
    rewrite Z2Nat.id in Hall by lia; cbv zeta in Hall; apply andb_prop in Hall as [H1 H2].
  - rewrite implb_true_iff in H1. specialize (H1 ltac:(apply andb_true_intro; lia)). by btest.
  - rewrite implb_true_iff in H2. specialize (H2 ltac:(apply andb_true_intro; lia)). by btest.
Qed.

Section Read.
Context `{Allocator}.

Lemma qpack_value_read pre s rest max_out nm vbuf :
  zlen s ≤ ZHP_INT_MAX → zlen s ≤ max_out → zlen (pre ++ str_code s ++ rest) < 2 ^ 63 →
  qpack_value (pre ++ str_code s ++ rest) (zlen pre) max_out nm vbuf =
    Ok (inr (zlen pre + zlen (str_code s), nm, s), vbuf).
Proof.
  intros Hi Hm Hlen. unfold qpack_value, qpack_read_string.
  destruct (raw_string_head pre s rest) as [-> Hlt]. bcase; [lia|].
  change (negb (0 =? 0)) with false. unfold str_code in *.
  rewrite string_at_read; try done; try lia; unfold is_byte; lia.
Qed.

Lemma line_read pre name value rest max_out nbuf vbuf :
  zlen name ≤ ZHP_INT_MAX → zlen value ≤ ZHP_INT_MAX → zlen name ≤ max_out → zlen value ≤ max_out →
  zlen (pre ++ line_code name value ++ rest) < 2 ^ 63 →
  qpack_line (pre ++ line_code name value ++ rest) (zlen pre) max_out nbuf vbuf =
    Ok (inr (zlen pre + zlen (line_code name value), qwire_name name, value), nbuf, vbuf).
Proof.
  intros Hn Hv Hnm Hvm Hlen. unfold qpack_line, line_code, qwire_name in *.
  destruct (0 <=? qpack_static_name_index name) eqn:Ei; btest.
  - destruct (qstatic_name_spec name Ei) as [Hr Hname]. set (idx := qpack_static_name_index name) in *.
    change QPACK_STATIC_N with 99 in *.
    destruct (int_code_flag_head 4 80 idx) as (b & c & Hbc & Hb); [lia|unfold is_byte; lia|done|lia|].
    change (Z.ones 4) with 15 in Hb.
    assert (nth (Z.to_nat (zlen pre)) (pre ++ (int_code 4 80 idx ++ str_code value) ++ rest) 0 = b) as ->.
    { rewrite Nat2Z.id, app_nth2, Nat.sub_diag, Hbc by lia. done. }
    destruct (line_flags b) as [Hfl _]. destruct (Hfl ltac:(lia)) as (-> & H64 & H16).
    apply Z.eqb_neq in H64, H16. rewrite H64, H16. cbn [negb Z.eqb].
    rewrite zdrop_app_zlen by done. rewrite <- app_assoc.
    rewrite (int_roundtrip 4 80 idx); [|lia|unfold is_byte; lia|done|change ZHP_INT_MAX with 16777216; lia].
    bcase; [lia|]. rewrite Hname.
    replace (pre ++ int_code 4 80 idx ++ str_code value ++ rest)
      with ((pre ++ int_code 4 80 idx) ++ str_code value ++ rest) by (by rewrite <- !app_assoc).
    replace (zlen pre + zlen (int_code 4 80 idx)) with (zlen (pre ++ int_code 4 80 idx)) by zl.
    rewrite qpack_value_read; [|done|done|by rewrite <- !app_assoc in *].
    replace (zlen pre + zlen (int_code 4 80 idx ++ str_code value))
      with (zlen (pre ++ int_code 4 80 idx) + zlen (str_code value)) by zl. done.
  - destruct (int_code_flag_head 3 32 (zlen name)) as (b & c & Hbc & Hb);
      [lia|unfold is_byte; lia|done|lia|].
    change (Z.ones 3) with 7 in Hb. set (nc := int_code 3 32 (zlen name)) in *.
    assert (nth (Z.to_nat (zlen pre)) (pre ++ ((nc ++ name) ++ str_code value) ++ rest) 0 = b) as ->.
    { rewrite Nat2Z.id, app_nth2, Nat.sub_diag, Hbc by lia. done. }
    destruct (line_flags b) as [_ Hfl]. destruct (Hfl ltac:(lia)) as (-> & -> & H32 & ->).
    apply Z.eqb_neq in H32. rewrite H32. cbn [negb Z.eqb]. unfold qpack_read_string at 1.
    rewrite <- (app_assoc (nc ++ name)). unfold nc in *.
    rewrite string_at_read; [|lia|unfold is_byte; lia|done|done|done|by rewrite <- !app_assoc in *].
    cbn [mbind exec_bind]. set (nm := int_code 3 32 (zlen name) ++ name) in *.
    replace (pre ++ nm ++ str_code value ++ rest) with ((pre ++ nm) ++ str_code value ++ rest)
      by (by rewrite <- !app_assoc).
    replace (zlen pre + zlen nm) with (zlen (pre ++ nm)) by zl.
    rewrite qpack_value_read; [|done|done|by rewrite <- !app_assoc in *].
    replace (zlen pre + zlen (nm ++ str_code value)) with (zlen (pre ++ nm) + zlen (str_code value))
      by zl. done.
Qed.

Context {U : Type} (emit : U → bytes → bytes → Z * U).

Definition lines_code (hs : list (bytes * bytes)) : bytes := concat (map (λ h, line_code h.1 h.2) hs).
Definition qwire_fields (hs : list (bytes * bytes)) : list (bytes * bytes) :=
  map (λ h, (qwire_name h.1, h.2)) hs.

Lemma zlen_qwire_name n : zlen (qwire_name n) = zlen n.
Proof. unfold qwire_name. bcase; [by rewrite length_map|done]. Qed.

Lemma lines_loop_read fuel pre hs max decoded nbuf vbuf u :
  zlen (pre ++ lines_code hs) < 2 ^ 63 → (length (lines_code hs) ≤ fuel)%nat →
  Forall (λ h, zlen h.1 ≤ ZHP_INT_MAX ∧ zlen h.2 ≤ ZHP_INT_MAX) hs →
  0 ≤ decoded → decoded + fields_size hs ≤ max → max < 2 ^ 62 →
  lines_loop emit fuel (pre ++ lines_code hs) max (zlen pre) decoded nbuf vbuf u =
    Ok (run_emits emit u (qwire_fields hs)).
Proof.
  intros Hlen Hf Hall. revert fuel pre decoded u Hlen Hf.
  induction Hall as [|[n v] hs [Hn Hv] Hall IH]; intros fuel pre decoded u Hlen Hf Hdec Hmax Hm.
  - unfold lines_code, qwire_fields. cbn. rewrite app_nil_r. destruct fuel; cbn [lines_loop];
      (bcase; [lia|done]).
  - assert (1 ≤ zlen (line_code n v)) as Hfp.
    { unfold line_code, str_code. pose proof (int_code_pos 7 0 (zlen v)). zlen_simpl. lia. }
    pose proof (fields_size_nonneg hs) as Hnn.
    assert (lines_code ((n, v) :: hs) = line_code n v ++ lines_code hs) as Hb by done.
    cbn [fields_size fst snd] in *. rewrite Hb in *. zlen_simpl_in Hf.
    destruct fuel as [|fuel]; [lia|]. cbn [lines_loop]. bcase; [|zlen_simpl_in Heqb; lia].
    rewrite line_read by (done || lia). cbn [mbind exec_bind].
    rewrite zlen_qwire_name. rewrite !wrap_small by lia.
    bcase; [apply orb_true_iff in Heqb0 as [E|E]; btest; lia|].
    unfold qwire_fields. cbn [map run_emits fst snd].
    destruct (emit u (qwire_name n) v) as [er u1]. destruct (negb (er =? 0)) eqn:Eer; [done|]. cbv iota.
    rewrite app_assoc.
    replace (zlen pre + zlen (line_code n v)) with (zlen (pre ++ line_code n v)) by zl.
    apply IH; try lia. by rewrite <- app_assoc.
Qed.

Lemma section_read hs max u :
  zlen (lines_code hs) < 2 ^ 62 → Forall (λ h, zlen h.1 ≤ ZHP_INT_MAX ∧ zlen h.2 ≤ ZHP_INT_MAX) hs →
  fields_size hs ≤ max < 2 ^ 62 →
  zqp_decode_ emit ([0; 0] ++ lines_code hs) max u = Ok (run_emits emit u (qwire_fields hs)).
Proof.
  intros Hlen Hall Hm. unfold zqp_decode_.
  change (zhp_int_decode_ ([0; 0] ++ lines_code hs) 8) with (inr (1, 0) : Z + (Z * Z)).
  cbn [negb Z.eqb]. bcase; [zlen_simpl_in Heqb; lia|].
  change (zdrop 1 ([0; 0] ++ lines_code hs)) with (0 :: lines_code hs).
  change (zhp_int_decode_ (0 :: lines_code hs) 7) with (inr (1, 0) : Z + (Z * Z)).
  change (1 + 1) with (zlen [0; 0]).
  apply lines_loop_read; try done; try lia; [zlen_simpl; lia|zl].
Qed.
End Read.

(** *** Status lines *)

Definition status_code (status : Z) : bytes :=
  let idx := match find (λ e, fst e =? status) STATUS_INDEX with Some e => snd e | None => -1 end in
  if 0 <=? idx then int_code 6 192 idx
  else int_code 4 80 QPACK_STATUS_NAME_IDX ++ str_code (dec status).

Lemma emits_qpack_status `{Allocator} status :
  zlen (dec status) < 16 → Emits (λ b, zqp_encode_status_ b status) (status_code status).
Proof.
  intros Hs. unfold zqp_encode_status_, status_code. set (idx := match _ with Some _ => _ | None => _ end).
  clearbody idx. cbv zeta. bcase; [apply emits_int|].
  eapply emits_ext; [|exact (emits_seq (zhp_int_encode_ 4 80 QPACK_STATUS_NAME_IDX)
    (qpack_raw_string (dec status)) _ _)].
  intros b. cbv beta. bcase; [lia|done].
Qed.

Definition statuses_ok `{Allocator} : bool :=
  forallb (λ n, let s := Z.of_nat n in
    (zlen (dec s) <? 16) &&
    match zqp_decode_ log_emit ([0; 0] ++ status_code s) 10 [] with
    | Ok (rc, fs) => (rc =? 0) && bool_decide (fs = [(B ":status", dec s)])
    | _ => false
    end) (seq 100 900).

Lemma statuses_are_ok `{Allocator} : statuses_ok = true.
Proof. vm_compute. reflexivity. Qed.

Lemma section_total (a : Allocator) (U : Type) (emit : U → bytes → bytes → Z * U)
  block max u (Hb : is_bytes block) (Hlen : zlen block < 2 ^ 63) (Hm : 0 ≤ max < 2 ^ 62) :
  ∃ rc u', zqp_decode_ emit block max u = Ok (rc, u') ∧
    (∃ fs r, run_emits emit u fs = (r, u') ∧ fields_size fs ≤ max ∧ (r ≠ 0 → rc = r) ∧
      (r = 0 → rc = ZCIO_OK ∨ rc = ZCIO_ERR_PROTOCOL ∨ rc = ZCIO_ERR_NOMEM)) ∧
    (∀ c ric, zhp_int_decode_ block 8 = inr (c, ric) → ric ≠ 0 → rc = ZCIO_ERR_PROTOCOL ∧ u' = u).
Proof.
  assert (∀ rc, rc = ZCIO_ERR_PROTOCOL → ∃ rc' u', Ok (rc, u) = Ok (rc', u') ∧
    (∃ fs r, run_emits emit u fs = (r, u') ∧ fields_size fs ≤ max ∧ (r ≠ 0 → rc' = r) ∧
      (r = 0 → rc' = ZCIO_OK ∨ rc' = ZCIO_ERR_PROTOCOL ∨ rc' = ZCIO_ERR_NOMEM)) ∧
    rc' = ZCIO_ERR_PROTOCOL ∧ u' = u) as Herr.
  { intros rc ->. do 2 eexists. split; [done|]. split; [|done]. exists [], 0. cbn. ands. }
  unfold zqp_decode_. destruct (zhp_int_decode_ block 8) as [e|[c ric]] eqn:Ei.
  { apply int_decode_err in Ei as ->. destruct (Herr _ eq_refl) as (rc & u' & E & H1 & H2 & H3).
    exists rc, u'. split; [exact E|]. split; [exact H1|]. intros ? ? [=]. }
  bcase.
  { destruct (Herr _ eq_refl) as (rc & u' & E & H1 & H2). exists rc, u'. ands. }
  apply int_decode_bounds in Ei as (Hc & _ & _); [|done|lia]. bcase.
  { destruct (Herr _ eq_refl) as (rc & u' & E & H1 & H2). exists rc, u'. ands. }
  destruct (zhp_int_decode_ (zdrop c block) 7) as [e|[c2 base]] eqn:Eb.
  { apply int_decode_err in Eb as ->. destruct (Herr _ eq_refl) as (rc & u' & E & H1 & H2).
    exists rc, u'. ands. }
  apply int_decode_bounds in Eb as (Hc2 & _ & _); [|by apply is_bytes_zdrop|lia].
  destruct (lines_loop_total emit (length block) block max (c + c2) 0 buf_empty buf_empty u Hb Hlen)
    as (rc & u' & E & fs & r & H1 & H2 & H3 & H4); try done; try lia; [apply buf_empty_wf..|].
  exists rc, u'. split; [exact E|]. split; [by exists fs, r|]. intros ? ? [= <- <-]. lia.
Qed.

(** ** Properties *)

(** QPACK decoding is total on arbitrary input: it terminates inside the
    block, reports fields whose total size never exceeds the caller's cap,
    stops at the first refusal of the callback, and accepts no block with a
    nonzero Required Insert Count. *)
Theorem zqp_decode_total (a : Allocator) (U : Type) (emit : U → bytes → bytes → Z * U)
  block max u (Hb : is_bytes block) (Hlen : zlen block < 2 ^ 63) (Hm : 0 ≤ max < 2 ^ 62) :
  ∃ rc u', zqp_decode_ emit block max u = Ok (rc, u') ∧
    (∃ fs r, run_emits emit u fs = (r, u') ∧ fields_size fs ≤ max ∧ (r ≠ 0 → rc = r) ∧
      (r = 0 → rc = ZCIO_OK ∨ rc = ZCIO_ERR_PROTOCOL ∨ rc = ZCIO_ERR_NOMEM)) ∧
    (∀ c ric, zhp_int_decode_ block 8 = inr (c, ric) → ric ≠ 0 → rc = ZCIO_ERR_PROTOCOL ∧ u' = u).
Proof. by apply section_total. Qed.

(** Encoder and decoder agree: a field section written by the stateless
    encoder (prefix, then one line per header) decodes to exactly those
    headers in order, static names in lower case. *)
Theorem qpack_roundtrip (a : Allocator) (U : Type) (emit : U → bytes → bytes → Z * U) hs out max u
  (Hh : Forall (λ h, zlen h.1 ≤ ZHP_INT_MAX ∧ zlen h.2 ≤ ZHP_INT_MAX) hs)
  (Hm : fields_size hs ≤ max < 2 ^ 62) (Hb : buf_wf out) (Ha : ∀ n, alloc_ok n = true)
  (Hsz : b_len out + 2 + zlen (lines_code hs) < 2 ^ 62) :
  ∃ out', (zqp_prefix_encode_ ▷
      foldr (λ h f, (λ b, zqp_encode_ b (Some h.1) (Some h.2)) ▷ f) emit_ok hs) out = (ZCIO_OK, out') ∧
    ∃ block, buf_contents out' = buf_contents out ++ block ∧
      zqp_decode_ emit block max u = Ok (run_emits emit u (qwire_fields hs)).
Proof.
  assert (Emits (foldr (λ h f, (λ b, zqp_encode_ b (Some h.1) (Some h.2)) ▷ f) emit_ok hs)
    (lines_code hs)) as Hem.
  { clear. induction hs as [|h hs IH]; [apply emits_ok|]. unfold lines_code. cbn.
    exact (emits_seq _ _ (line_code h.1 h.2) (lines_code hs)). }
  pose proof Hb as (Ho & _).
  destruct (emits_seq zqp_prefix_encode_ _ [0; 0] (lines_code hs) out Hb) as (r & out' & E & _ & Hr & Hal).
  specialize (Hal Ha ltac:(unfold SIZE_MAX; zlen_simpl; lia)). subst r. exists out'. split; [exact E|].
  exists ([0; 0] ++ lines_code hs). split; [by destruct Hr as [(_ & Hc & _)|(Hr & _)]|].
  apply section_read; [lia|done|done].
Qed.

(** Every three-digit status, through the indexed entries or the name
    reference, reads back as exactly one [:status] field with its decimal
    digits. *)
Theorem qpack_status_roundtrip (a : Allocator) status out (Hs : 100 ≤ status ≤ 999)
  (Hb : buf_wf out) (Ha : ∀ n, alloc_ok n = true) (Hsz : b_len out + 100 ≤ SIZE_MAX) :
  ∃ out' code, zqp_encode_status_ out status = (ZCIO_OK, out') ∧
    buf_contents out' = buf_contents out ++ code ∧
    zqp_decode_ log_emit ([0; 0] ++ code) 10 [] = Ok (ZCIO_OK, [(B ":status", dec status)]).
Proof.
  pose proof statuses_are_ok as H. unfold statuses_ok in H. rewrite forallb_forall in H.
  specialize (H (Z.to_nat status) ltac:(apply in_seq; lia)). rewrite Z2Nat.id in H by lia.
  cbv zeta in H. apply andb_prop in H as [H1 H2]. btest.
  destruct (zqp_decode_ _ _ _ _) as [[rc fs]| |] eqn:Ed; try done. apply andb_prop in H2 as [H2 H3].
  btest. apply bool_decide_eq_true in H3. subst rc fs.
  destruct (emits_qpack_status status H1 out Hb) as (r & out' & E & _ & Hr & Hal).
  assert (zlen (status_code status) ≤ 100) as Hlen.
  { unfold status_code. set (idx := match _ with Some _ => _ | None => _ end).
    assert (∀ k f v, zlen (int_code k f v) ≤ 11) as Hic.
    { intros k f v. unfold int_code. bcase; [cbn; lia|].
      assert (∀ n w, (length (int_code_loop n w) ≤ n)%nat) as Hl.
      { induction n as [|n IH]; intros w; cbn; [lia|]. bcase; cbn; [specialize (IH (Z.shiftr w 7))|]; lia. }
      specialize (Hl 10%nat (v - u8 (Z.shiftl 1 k - 1))). cbn [length]. lia. }
    pose proof (Hic 6 192 idx). bcase; [lia|]. unfold str_code. zlen_simpl.
    pose proof (Hic 4 80 QPACK_STATUS_NAME_IDX). pose proof (Hic 7 0 (zlen (dec status))). lia. }
  specialize (Hal Ha ltac:(lia)). subst r.
  destruct Hr as [(_ & Hc & _)|(Hr & _)]; [|done]. by exists out', (status_code status).
Qed.

(** ** Witnesses *)

(** RFC 9204 B.1: a literal with a static name reference. *)
Definition rfc_b1 : bytes := [0; 0; 81; 11] ++ B "/index.html".

Lemma zqp_decode_total_witness :
  @zqp_decode_ always_alloc _ log_emit rfc_b1 1000 [] = Ok (ZCIO_OK, [(B ":path", B "/index.html")]).
Proof.
  assert (is_bytes rfc_b1) as Hb by (repeat constructor; vm_compute; intuition discriminate).
  destruct (zqp_decode_total always_alloc _ log_emit rfc_b1 1000 [] Hb eq_refl ltac:(lia))
    as (rc & u' & E & _).
  rewrite E. vm_compute in E. injection E as <- <-. vm_compute. reflexivity.
Defined.

Lemma qpack_roundtrip_witness :
  ∃ out', (@zqp_prefix_encode_ always_alloc ▷
      foldr (λ h f, (λ b, @zqp_encode_ always_alloc b (Some h.1) (Some h.2)) ▷ f) emit_ok
        [(B "Server", B "zcio"); (B "x-a", [])]) buf_empty = (ZCIO_OK, out') ∧
    ∃ block, buf_contents out' = block ∧
      @zqp_decode_ always_alloc _ log_emit block 100 [] =
        Ok (0, [(B "server", B "zcio"); (B "x-a", [])]).
Proof.
  apply (qpack_roundtrip always_alloc _ log_emit [(B "Server", B "zcio"); (B "x-a", [])] buf_empty 100 []).
  - repeat constructor; vm_compute; discriminate.
  - vm_compute. intuition discriminate.
  - exact buf_empty_wf.
  - intros n. reflexivity.
  - vm_compute. reflexivity.
Defined.

Lemma qpack_status_roundtrip_witness :
  ∃ out' code, @zqp_encode_status_ always_alloc buf_empty 418 = (ZCIO_OK, out') ∧
    buf_contents out' = code ∧
    @zqp_decode_ always_alloc _ log_emit ([0; 0] ++ code) 10 [] = Ok (ZCIO_OK, [(B ":status", B "418")]).
Proof.
  apply (qpack_status_roundtrip always_alloc 418 buf_empty ltac:(lia) buf_empty_wf (λ n, eq_refl)).
  vm_compute. discriminate.
Defined.
