(* ===== verification/Respond.v ===== *)
(** * Respond: the request object and the response policy
    ([src/http_internal.h], [src/http_server.c])

    What every protocol module shares: the request under assembly, the checks
    and the header policy of [zcio_http_respond], and [zhs_dispatch_], which
    runs the user's handler and guarantees a response.  The protocol module is
    seen through the class [Transport] (its [respond_fn] hook and the
    WebSocket detach); the handler is any program of the calls a handler can
    make, [hprog], a parameter of the server. *)
From stdpp Require Import base tactics list option strings.
From Stdlib Require Import ZArith Lia.
From S2P Require Import Prelude Types Buf HttpUtil.

(** ** The request *)

Record zcio_http_req := mk_req {
  version : Z;
  secure : bool;
  is_head : bool;
  ws_upgrade : bool;
  method : option bytes;
  path : option bytes;
  query : option bytes;
  authority : option bytes;
  headers : zhs_hdrs;
  body : zhs_buf;
  stream_id : Z;
  responded : bool;
}.

Definition req_empty : zcio_http_req :=
  mk_req 0 false false false None None None None hdrs_empty buf_empty 0 false.

(** Assignments to one field. *)
Definition req_set_version (v : Z) (x : zcio_http_req) : zcio_http_req :=
  mk_req v (secure x) (is_head x) (ws_upgrade x) (method x) (path x) (query x) (authority x)
    (headers x) (body x) (stream_id x) (responded x).
Definition req_set_secure (v : bool) (x : zcio_http_req) : zcio_http_req :=
  mk_req (version x) v (is_head x) (ws_upgrade x) (method x) (path x) (query x) (authority x)
    (headers x) (body x) (stream_id x) (responded x).
Definition req_set_is_head (v : bool) (x : zcio_http_req) : zcio_http_req :=
  mk_req (version x) (secure x) v (ws_upgrade x) (method x) (path x) (query x) (authority x)
    (headers x) (body x) (stream_id x) (responded x).
Definition req_set_ws_upgrade (v : bool) (x : zcio_http_req) : zcio_http_req :=
  mk_req (version x) (secure x) (is_head x) v (method x) (path x) (query x) (authority x)
    (headers x) (body x) (stream_id x) (responded x).
Definition req_set_method (v : option bytes) (x : zcio_http_req) : zcio_http_req :=
  mk_req (version x) (secure x) (is_head x) (ws_upgrade x) v (path x) (query x) (authority x)
    (headers x) (body x) (stream_id x) (responded x).
Definition req_set_path (v : option bytes) (x : zcio_http_req) : zcio_http_req :=
  mk_req (version x) (secure x) (is_head x) (ws_upgrade x) (method x) v (query x) (authority x)
    (headers x) (body x) (stream_id x) (responded x).
Definition req_set_query (v : option bytes) (x : zcio_http_req) : zcio_http_req :=
  mk_req (version x) (secure x) (is_head x) (ws_upgrade x) (method x) (path x) v (authority x)
    (headers x) (body x) (stream_id x) (responded x).
Definition req_set_authority (v : option bytes) (x : zcio_http_req) : zcio_http_req :=
  mk_req (version x) (secure x) (is_head x) (ws_upgrade x) (method x) (path x) (query x) v
    (headers x) (body x) (stream_id x) (responded x).
Definition req_set_headers (v : zhs_hdrs) (x : zcio_http_req) : zcio_http_req :=
  mk_req (version x) (secure x) (is_head x) (ws_upgrade x) (method x) (path x) (query x)
    (authority x) v (body x) (stream_id x) (responded x).
Definition req_set_body (v : zhs_buf) (x : zcio_http_req) : zcio_http_req :=
  mk_req (version x) (secure x) (is_head x) (ws_upgrade x) (method x) (path x) (query x)
    (authority x) (headers x) v (stream_id x) (responded x).
Definition req_set_stream_id (v : Z) (x : zcio_http_req) : zcio_http_req :=
  mk_req (version x) (secure x) (is_head x) (ws_upgrade x) (method x) (path x) (query x)
    (authority x) (headers x) (body x) v (responded x).
Definition req_set_responded (v : bool) (x : zcio_http_req) : zcio_http_req :=
  mk_req (version x) (secure x) (is_head x) (ws_upgrade x) (method x) (path x) (query x)
    (authority x) (headers x) (body x) (stream_id x) v.

Definition zhs_req_reset_ (r : zcio_http_req) : zcio_http_req := req_empty.

(** Accessors handed to the user. *)
Definition zcio_http_req_method (r : option zcio_http_req) : bytes :=
  match r with Some r => default [] (method r) | None => [] end.
Definition zcio_http_req_path (r : option zcio_http_req) : bytes :=
  match r with Some r => default [] (path r) | None => [] end.
Definition zcio_http_req_query (r : option zcio_http_req) : bytes :=
  match r with Some r => default [] (query r) | None => [] end.
Definition zcio_http_req_header (r : option zcio_http_req) (name : bytes) : option bytes :=
  match r with Some r => zhs_hdrs_get_ (headers r) name | None => None end.
Definition zcio_http_req_header_count (r : option zcio_http_req) : Z :=
  match r with Some r => h_n (headers r) | None => 0 end.
Definition zcio_http_req_header_at (r : option zcio_http_req) (i : Z) : Z * option (bytes * bytes) :=
  match r with
  | Some r =>
      match (h_v (headers r)) !! Z.to_nat i with
      | Some h => (ZCIO_OK, Some (hdr_name h, hdr_value h))
      | None => (ZCIO_ERR_INVALID_ARG, None)
      end
  | None => (ZCIO_ERR_INVALID_ARG, None)
  end.
Definition zcio_http_req_body (r : option zcio_http_req) : bytes :=
  match r with Some r => buf_contents (body r) | None => [] end.

(** ** The server's configuration and its handler *)

Definition hdr_arg : Type := option bytes * option bytes.

(** What a handler does with a request: calls of [zcio_http_respond] and of
    the upgrade path, each with a continuation on its result. *)
Inductive hprog :=
  | HRet
  | HRespond (status : Z) (hdrs : list hdr_arg) (body : option bytes) (body_len : Z) (k : Z → hprog)
  | HUpgrade (resp : bytes) (k : bool → hprog).

Class Server := {
  srv_host : option bytes;
  srv_hsts : bool;
  srv_http3 : bool;
  srv_bound_port : Z;
  srv_now : tm;
  srv_handler : zcio_http_req → hprog;
}.

Definition zhs_redirect_host_ `{Server} : option bytes := srv_host.

(** ** Header policy *)

(** Equality of C strings up to case. *)
Fixpoint ci_eq_str (a b : bytes) : bool :=
  match a, b with
  | [], [] => true
  | x :: a, y :: b => if negb (tolower x =? tolower y) then false else ci_eq_str a b
  | _, _ => false
  end.

Definition DROP : list bytes :=
  [B "connection"; B "keep-alive"; B "proxy-connection"; B "transfer-encoding"; B "upgrade"; B "te";
   B "trailer"; B "content-length"; B "date"; B "server"].

Definition respond_filtered (name : bytes) : bool := existsb (λ d, ci_eq_str name d) DROP.

(** A header the caller may send: token name, no control bytes in the value. *)
Definition hdr_arg_ok (h : hdr_arg) : bool :=
  match h with
  | (None, _) => false
  | (Some k, v) => zhs_token_ok_ k && zhs_value_ok_ (default [] v)
  end.

Definition final_headers `{Server} (is_secure : bool) (hdrs : list hdr_arg) : list (bytes * bytes) :=
  map (λ h, (default [] (fst h), default [] (snd h)))
    (List.filter (λ h, negb (respond_filtered (default [] (fst h)))) hdrs) ++
  [(B "date", zhs_http_date_ srv_now); (B "server", B "zcio")] ++
  (if srv_hsts && is_secure then [(B "strict-transport-security", B "max-age=31536000")] else []) ++
  (if srv_http3 && is_secure
   then [(B "alt-svc", ztake 47 (B "h3=" ++ [34] ++ B ":" ++ dec srv_bound_port ++ [34]))] else []).

(** What a protocol module offers the policy layer.  [detach gone]: [gone] says
    that the stream of the connection was handed over before. *)
Class Transport (C : Type) := {
  get_req : C → zcio_http_req;
  mark_responded : C → C;
  respond_fn : C → Z → list (bytes * bytes) → option bytes → Z → Z * C;
  detach : bool → C → bytes → bool * C;
}.

Section Policy.
Context `{Allocator} `{Server} {C : Type} `{Transport C}.

Definition zcio_http_respond (c : option C) (status : Z) (hdrs : list hdr_arg)
    (bd : option bytes) (body_len : Z) : Z * option C :=
  match c with
  | None => (ZCIO_ERR_INVALID_ARG, c)
  | Some r =>
      if responded (get_req r) then (ZCIO_ERR_INVALID_ARG, c)
      else if (status <? 100) || (599 <? status) then (ZCIO_ERR_INVALID_ARG, c)
      else if negb (forallb hdr_arg_ok hdrs) then (ZCIO_ERR_INVALID_ARG, c)
      else if SIZE_MAX / 16 - 4 <? zlen hdrs then (ZCIO_ERR_NOMEM, c)
      else if negb (zcio_xmalloc_ok ((zlen hdrs + 4) * 16)) then (ZCIO_ERR_NOMEM, c)
      else
        let fin := final_headers (secure (get_req r)) hdrs in
        let '(rc, r) := respond_fn (mark_responded r) status fin bd body_len in
        (rc, Some r)
  end.

(** Run a handler; the flag is [srv->upgrade_detached], which is set together
    with the stream of the connection becoming NULL. *)
Fixpoint run_handler (p : hprog) (c : C) (detached : bool) : C * bool :=
  match p with
  | HRet => (c, detached)
  | HRespond status hdrs bd body_len k =>
      let '(rc, c') := zcio_http_respond (Some c) status hdrs bd body_len in
      run_handler (k rc) (default c c') detached
  | HUpgrade resp k =>
      let '(ok, c) := detach detached c resp in run_handler (k ok) c (detached || ok)
  end.

Definition zhs_dispatch_ (c : C) : Z * C :=
  let '(c, detached) := run_handler (srv_handler (get_req c)) c false in
  if detached then (1, c)
  else if negb (responded (get_req c)) then
    let '(_, c') := zcio_http_respond (Some c) 500 [] (Some (B "Internal Server Error")) 21 in
    (0, default c c')
  else (0, c).
End Policy.

(** What the transport's hooks preserve, a dispatch preserves. *)
Section Preserve.
Context `{Allocator} `{Server} {C : Type} `{Transport C} (P : C → Prop).
Context (Pmark : ∀ c, P c → P (mark_responded c)).
Context (Prespond : ∀ c s h b n, P c → P (snd (respond_fn c s h b n))).
Context (Pdetach : ∀ g c r, P c → P (snd (detach g c r))).

Lemma respond_preserves c s h b n :
  P c → ∃ rc c', zcio_http_respond (Some c) s h b n = (rc, Some c') ∧ P c'.
Proof.
  intros Hc. unfold zcio_http_respond. repeat (bcase; [by do 2 eexists|]).
  specialize (Prespond (mark_responded c) s (final_headers (secure (get_req c)) h) b n (Pmark c Hc)).
  destruct (respond_fn _ _ _ _ _) as [rc c']. by do 2 eexists.
Qed.

Lemma run_handler_preserves p c det : P c → P (fst (run_handler p c det)).
Proof.
  revert c det. induction p as [|s h b n k IH|r k IH]; intros c det Hc; cbn [run_handler]; [done| |].
  - destruct (respond_preserves c s h b n Hc) as (rc & c' & -> & Hc'). by apply IH.
  - specialize (Pdetach det c r Hc). destruct (detach det c r) as [ok c']. by apply IH.
Qed.

Lemma dispatch_preserves c :
  P c → ∃ rc c', zhs_dispatch_ c = (rc, c') ∧ P c' ∧ (rc = 0 ∨ rc = 1).
Proof.
  intros Hc. unfold zhs_dispatch_.
  pose proof (run_handler_preserves (srv_handler (get_req c)) c false Hc) as H2.
  destruct (run_handler _ _ _) as [c1 det]. destruct det; [by exists 1, c1; auto|].
  destruct (negb _); [|by exists 0, c1; auto].
  destruct (respond_preserves c1 500 [] (Some (B "Internal Server Error")) 21 H2) as (rc & c' & -> & Hc').
  exists 0, c'. auto.
Qed.
End Preserve.

(** ** Exactly one response *)

(** The laws of a transport: the hooks do not touch the [responded] flag,
    which [mark_responded] sets. *)
Class TransportOk (C : Type) `{Transport C} := {
  mark_sets : ∀ c : C, responded (get_req (mark_responded c)) = true;
  respond_keeps : ∀ (c : C) s h b n,
    responded (get_req (snd (respond_fn c s h b n))) = responded (get_req c);
  detach_keeps : ∀ g (c : C) r, responded (get_req (snd (detach g c r))) = responded (get_req c);
}.

(** Any transport, with the calls of its hook logged. *)
#[export] Instance logged (C : Type) `{Transport C} : Transport (C * list (Z * list (bytes * bytes))) := {|
  get_req := λ c, get_req c.1;
  mark_responded := λ c, (mark_responded c.1, c.2);
  respond_fn := λ c s h b n,
    let '(rc, c') := respond_fn c.1 s h b n in (rc, (c', c.2 ++ [(s, h)]));
  detach := λ g c r, let '(ok, c') := detach g c.1 r in (ok, (c', c.2)) |}.

Section Once.
Context `{Allocator} `{Server} {C : Type} `{TransportOk C}.

(** A response the protocol module may be given: status in range, no header
    that could split or reframe it. *)
Definition response_ok (e : Z * list (bytes * bytes)) : Prop :=
  100 ≤ e.1 ≤ 599 ∧
  Forall (λ h, zhs_token_ok_ h.1 = true ∧ zhs_value_ok_ h.2 = true ∧
    (respond_filtered h.1 = true → h.1 = B "date" ∨ h.1 = B "server")) e.2.

Lemma final_headers_ok sec hdrs status :
  100 ≤ status ≤ 599 → forallb hdr_arg_ok hdrs = true → response_ok (status, final_headers sec hdrs).
Proof.
  intros Hs Hh. split; [done|]. cbn [snd]. unfold final_headers.
  rewrite !Forall_app. split_and!.
  - apply Forall_forall. intros h Hin%list_elem_of_In. apply in_map_iff in Hin as ([k v] & <- & Hin).
    apply filter_In in Hin as [Hin Hf]. rewrite forallb_forall in Hh. specialize (Hh _ Hin).
    cbn [fst snd] in *. destruct k as [k|]; [|done]. cbn [hdr_arg_ok] in Hh.
    apply andb_prop in Hh as [G1 G2]. cbn [default] in *. apply negb_true_iff in Hf.
    unfold id in *. split_and!; [done|done|]. intros Hx. congruence.
  - repeat constructor; cbn [fst snd]; try done; try apply value_ok_date; intros _; auto.
  - destruct (_ && _); [|constructor]. repeat constructor; done.
  - destruct (_ && _); [|constructor]. constructor; [|constructor]. cbn [fst snd].
    split; [done|]. split; [|vm_compute; discriminate].
    apply value_ok_take. rewrite !value_ok_app. rewrite (value_ok_chars (dec _)) by apply dec_chars. done.
Qed.

(** The flag and the log agree. *)
Definition logged_ok (c : C * list (Z * list (bytes * bytes))) : Prop :=
  Forall response_ok c.2 ∧ length c.2 = (if responded (get_req c.1) then 1 else 0)%nat.

Lemma respond_logged c status hdrs bd n :
  logged_ok c →
  ∃ rc c', zcio_http_respond (Some c) status hdrs bd n = (rc, Some c') ∧ logged_ok c' ∧
    ((∀ k, alloc_ok k = true) → 100 ≤ status ≤ 599 → hdrs = [] → responded (get_req c'.1) = true).
Proof.
  intros [Hl Hn]. unfold zcio_http_respond.
  destruct (responded (get_req c)) eqn:Er; [exists ZCIO_ERR_INVALID_ARG, c; by ands|].
  destruct (_ || _) eqn:Es; [exists ZCIO_ERR_INVALID_ARG, c; ands; intros _ Hst; apply orb_true_iff in Es as [E|E]; btest; lia|].
  btest. destruct (negb _) eqn:Eh; [exists ZCIO_ERR_INVALID_ARG, c; ands; intros _ _ ->; done|]. btest.
  destruct (_ <? zlen hdrs) eqn:El; [exists ZCIO_ERR_NOMEM, c; ands; intros _ _ ->; by vm_compute in El|].
  destruct (negb (zcio_xmalloc_ok _)) eqn:Ea.
  { exists ZCIO_ERR_NOMEM, c. ands. intros Hall. unfold zcio_xmalloc_ok in Ea. by rewrite Hall in Ea. }
  cbn [respond_fn logged]. destruct (respond_fn _ _ _ _ _) as [rc c'] eqn:Ef.
  exists rc, (c', c.2 ++ [(status, final_headers (secure (get_req c)) hdrs)]). split; [done|].
  assert (responded (get_req c') = true) as Hr.
  { pose proof (respond_keeps (mark_responded c.1) status (final_headers (secure (get_req c)) hdrs) bd n) as Hk.
    cbn [fst get_req mark_responded logged] in Ef, Hk. rewrite Ef in Hk. cbn [snd] in Hk. rewrite Hk. apply mark_sets. }
  split; [|by intros]. unfold logged_ok. cbn [fst snd]. rewrite Hr. cbn in Er. rewrite Er in Hn.
  split; [apply Forall_app; split; [done|]; constructor; [apply final_headers_ok; [lia|done]|done]|].
  rewrite length_app, Hn. done.
Qed.

Lemma run_handler_logged p c det :
  logged_ok c → ∃ c' det', run_handler p c det = (c', det') ∧ logged_ok c' ∧ (det = true → det' = true).
Proof.
  revert c det. induction p as [|status hdrs bd n k IH|resp k IH]; intros c det Hc; cbn [run_handler].
  - by exists c, det.
  - destruct (respond_logged c status hdrs bd n Hc) as (rc & c' & -> & Hc' & _). by apply IH.
  - cbn [detach logged]. destruct (detach det c.1 resp) as [ok c1] eqn:Ed.
    destruct (IH ok (c1, c.2) (det || ok)) as (c' & det' & E & Hc' & Hd).
    + destruct Hc as [Hl Hn]. split; [done|]. cbn [fst snd].
      pose proof (detach_keeps det c.1 resp) as Hk. rewrite Ed in Hk. cbn in Hk. by rewrite Hk.
    + exists c', det'. ands. intros ->. by apply Hd.
Qed.

(** C18: Whatever the handler does, a dispatch hands the protocol module at
    most one response, and exactly one when the connection was not detached
    and memory is available; every response has a status in 100..599, token
    header names, values free of CR, LF, NUL and other controls, and no
    framing or hop-by-hop header of the caller's. *)
Theorem zhs_dispatch_one_response (c : C) (Hr : responded (get_req c) = false) :
  ∃ rc c', zhs_dispatch_ (c, []) = (rc, c') ∧ (length c'.2 ≤ 1)%nat ∧ Forall response_ok c'.2 ∧
    (rc = 0 ∨ rc = 1) ∧ (rc = 0 → (∀ n, alloc_ok n = true) → length c'.2 = 1%nat).
Proof.
  unfold zhs_dispatch_.
  destruct (run_handler_logged (srv_handler (get_req (c, @nil (Z * list (bytes * bytes)))))
    (c, []) false) as (c1 & det & -> & Hc1 & _).
  { split; [constructor|]. cbn. by rewrite Hr. }
  assert (∀ c, logged_ok c → (length c.2 ≤ 1)%nat ∧ Forall response_ok c.2) as Hle.
  { intros c0 [G1 G2]. split; [|done]. rewrite G2. destruct (responded (get_req c0.1)); lia. }
  destruct det; [exists 1, c1; destruct (Hle c1 Hc1); ands; by right|].
  destruct (responded (get_req c1)) eqn:E; cbn [negb].
  - exists 0, c1. destruct (Hle c1 Hc1). destruct Hc1 as [_ Hn]. cbn in E. rewrite E in Hn. ands; by left.
  - destruct (respond_logged c1 500 [] (Some (B "Internal Server Error")) 21 Hc1)
      as (rc & c2 & -> & Hc2 & Hresp).
    exists 0, c2. destruct (Hle c2 Hc2). ands. intros _ Hall. destruct Hc2 as [_ Hn].
    specialize (Hresp Hall ltac:(lia) eq_refl). by rewrite Hresp in Hn.
Qed.
End Once.
