(* ===== verification/H1.v ===== *)
(** * H1: the HTTP/1.1 request parser and response writer ([src/h1.c])

    The sans-I/O state machine: [zh1_feed_] consumes from the input buffer,
    dispatches complete requests and appends wire bytes to the output buffer.
    The state is the C struct; each stage is the C function of the same name,
    with the same early returns.  Stages return the C code together with the
    new connection and input buffer. *)
From stdpp Require Import base tactics list option strings.
From Stdlib Require Import ZArith Lia.
From S2P Require Import Prelude Types Buf HttpUtil Target Respond.

Inductive h1_state :=
  | H1_REQLINE | H1_HEADERS | H1_BODY_CL | H1_CHUNK_SIZE | H1_CHUNK_DATA | H1_CHUNK_CRLF
  | H1_TRAILER | H1_DEAD.

#[global] Instance h1_state_eq_dec : EqDecision h1_state.
Proof. solve_decision. Defined.

Definition P_MORE : Z := 1.
Definition P_NEXT : Z := 2.
Definition P_CLOSE : Z := 3.
Definition P_COMPLETE : Z := 4.

Definition FIN_OK : Z := 0.
Definition FIN_DETACHED : Z := 1.
Definition FIN_HARD : Z := 2.

Definition ZH1_NEED_MORE : Z := 0.
Definition ZH1_DISPATCHED : Z := 1.
Definition ZH1_CLOSE : Z := 2.
Definition ZH1_DETACHED : Z := 3.

Definition ZH1_F_SECURE : Z := 1.
Definition ZH1_F_REDIRECT : Z := 2.

Definition H1_CHUNK_LINE_MAX : Z := 4096.

Record zh1_conn := mk_conn {
  c_lim : zhs_limits;
  c_flags : Z;
  c_out : zhs_buf;
  c_state : h1_state;
  c_req : zcio_http_req;
  c_head_bytes : Z;
  c_receiving : bool;
  c_is_http10 : bool;
  c_keep_alive : bool;
  c_graceful : bool;
  c_close_after : bool;
  c_req_count : Z;
  c_chunked : bool;
  c_cl_remaining : Z;
  c_chunk_remaining : Z;
}.

(** Assignments to one field. *)
Definition set_out (v : zhs_buf) (x : zh1_conn) : zh1_conn :=
  mk_conn (c_lim x) (c_flags x) v (c_state x) (c_req x) (c_head_bytes x) (c_receiving x)
    (c_is_http10 x) (c_keep_alive x) (c_graceful x) (c_close_after x) (c_req_count x) (c_chunked
    x) (c_cl_remaining x) (c_chunk_remaining x).
Definition set_state (v : h1_state) (x : zh1_conn) : zh1_conn :=
  mk_conn (c_lim x) (c_flags x) (c_out x) v (c_req x) (c_head_bytes x) (c_receiving x)
    (c_is_http10 x) (c_keep_alive x) (c_graceful x) (c_close_after x) (c_req_count x) (c_chunked
    x) (c_cl_remaining x) (c_chunk_remaining x).
Definition set_req (v : zcio_http_req) (x : zh1_conn) : zh1_conn :=
  mk_conn (c_lim x) (c_flags x) (c_out x) (c_state x) v (c_head_bytes x) (c_receiving x)
    (c_is_http10 x) (c_keep_alive x) (c_graceful x) (c_close_after x) (c_req_count x) (c_chunked
    x) (c_cl_remaining x) (c_chunk_remaining x).
Definition set_head_bytes (v : Z) (x : zh1_conn) : zh1_conn :=
  mk_conn (c_lim x) (c_flags x) (c_out x) (c_state x) (c_req x) v (c_receiving x) (c_is_http10
    x) (c_keep_alive x) (c_graceful x) (c_close_after x) (c_req_count x) (c_chunked x)
    (c_cl_remaining x) (c_chunk_remaining x).
Definition set_receiving (v : bool) (x : zh1_conn) : zh1_conn :=
  mk_conn (c_lim x) (c_flags x) (c_out x) (c_state x) (c_req x) (c_head_bytes x) v (c_is_http10
    x) (c_keep_alive x) (c_graceful x) (c_close_after x) (c_req_count x) (c_chunked x)
    (c_cl_remaining x) (c_chunk_remaining x).
Definition set_is_http10 (v : bool) (x : zh1_conn) : zh1_conn :=
  mk_conn (c_lim x) (c_flags x) (c_out x) (c_state x) (c_req x) (c_head_bytes x) (c_receiving x)
    v (c_keep_alive x) (c_graceful x) (c_close_after x) (c_req_count x) (c_chunked x)
    (c_cl_remaining x) (c_chunk_remaining x).
Definition set_keep_alive (v : bool) (x : zh1_conn) : zh1_conn :=
  mk_conn (c_lim x) (c_flags x) (c_out x) (c_state x) (c_req x) (c_head_bytes x) (c_receiving x)
    (c_is_http10 x) v (c_graceful x) (c_close_after x) (c_req_count x) (c_chunked x)
    (c_cl_remaining x) (c_chunk_remaining x).
Definition set_graceful (v : bool) (x : zh1_conn) : zh1_conn :=
  mk_conn (c_lim x) (c_flags x) (c_out x) (c_state x) (c_req x) (c_head_bytes x) (c_receiving x)
    (c_is_http10 x) (c_keep_alive x) v (c_close_after x) (c_req_count x) (c_chunked x)
    (c_cl_remaining x) (c_chunk_remaining x).
Definition set_close_after (v : bool) (x : zh1_conn) : zh1_conn :=
  mk_conn (c_lim x) (c_flags x) (c_out x) (c_state x) (c_req x) (c_head_bytes x) (c_receiving x)
    (c_is_http10 x) (c_keep_alive x) (c_graceful x) v (c_req_count x) (c_chunked x)
    (c_cl_remaining x) (c_chunk_remaining x).
Definition set_req_count (v : Z) (x : zh1_conn) : zh1_conn :=
  mk_conn (c_lim x) (c_flags x) (c_out x) (c_state x) (c_req x) (c_head_bytes x) (c_receiving x)
    (c_is_http10 x) (c_keep_alive x) (c_graceful x) (c_close_after x) v (c_chunked x)
    (c_cl_remaining x) (c_chunk_remaining x).
Definition set_chunked (v : bool) (x : zh1_conn) : zh1_conn :=
  mk_conn (c_lim x) (c_flags x) (c_out x) (c_state x) (c_req x) (c_head_bytes x) (c_receiving x)
    (c_is_http10 x) (c_keep_alive x) (c_graceful x) (c_close_after x) (c_req_count x) v
    (c_cl_remaining x) (c_chunk_remaining x).
Definition set_cl_remaining (v : Z) (x : zh1_conn) : zh1_conn :=
  mk_conn (c_lim x) (c_flags x) (c_out x) (c_state x) (c_req x) (c_head_bytes x) (c_receiving x)
    (c_is_http10 x) (c_keep_alive x) (c_graceful x) (c_close_after x) (c_req_count x) (c_chunked
    x) v (c_chunk_remaining x).
Definition set_chunk_remaining (v : Z) (x : zh1_conn) : zh1_conn :=
  mk_conn (c_lim x) (c_flags x) (c_out x) (c_state x) (c_req x) (c_head_bytes x) (c_receiving x)
    (c_is_http10 x) (c_keep_alive x) (c_graceful x) (c_close_after x) (c_req_count x) (c_chunked
    x) (c_cl_remaining x) v.

(** ** Local helpers *)

Definition h1_is_digit (c : Z) : bool := (48 <=? c) && (c <=? 57).

Definition h1_hex (c : Z) : Z :=
  if (48 <=? c) && (c <=? 57) then c - 48
  else if (97 <=? c) && (c <=? 102) then c - 97 + 10
  else if (65 <=? c) && (c <=? 70) then c - 65 + 10
  else -1.

Definition h1_ci_eq_n (a b : bytes) (n : Z) : bool :=
  bool_decide (map tolower (ztake n a) = map tolower (ztake n b)).

Definition h1_ci_eq (a b : bytes) : bool := (zlen a =? zlen b) && h1_ci_eq_n a b (zlen a).

(** [memchr]: the offset of the first [c]. *)
Fixpoint memchr (c : Z) (s : bytes) : option Z :=
  match s with
  | [] => None
  | x :: s => if x =? c then Some 0 else (λ i, i + 1) <$> memchr c s
  end.

(** The bytes after the last [c], when there is one. *)
Fixpoint strrchr_after (c : Z) (s : bytes) : option bytes :=
  match s with
  | [] => None
  | x :: s =>
      match strrchr_after c s with
      | Some r => Some r
      | None => if x =? c then Some s else None
      end
  end.

Definition is_ows (c : Z) : bool := (c =? 32) || (c =? 9).

Fixpoint drop_while (f : Z → bool) (s : bytes) : bytes :=
  match s with [] => [] | c :: s' => if f c then drop_while f s' else s end.

(** The bytes before the first ',' and the rest from it on. *)
Fixpoint span_comma (s : bytes) : bytes * bytes :=
  match s with
  | [] => ([], [])
  | c :: s' => if c =? 44 then ([], s) else let '(e, r) := span_comma s' in (c :: e, r)
  end.

(** [while (end > start && is_ows(end[-1])) end--] *)
Definition trim_end (s : bytes) : bytes := rev (drop_while is_ows (rev s)).
Definition trim_start (s : bytes) : bytes := drop_while is_ows s.

Fixpoint token_loop (fuel : nat) (p tok : bytes) : bool :=
  match fuel with
  | O => false
  | S fuel =>
      match p with
      | [] => false
      | _ =>
          let p := drop_while (λ c, is_ows c || (c =? 44)) p in
          let '(el, p) := span_comma p in
          let el := trim_end el in
          if (zlen el =? zlen tok) && h1_ci_eq_n el tok (zlen tok) then true
          else token_loop fuel p tok
      end
  end.

Definition h1_token_in_list (lst tok : bytes) : bool := token_loop (length lst) lst tok.

Definition b64_char (c : Z) : bool :=
  ((65 <=? c) && (c <=? 90)) || ((97 <=? c) && (c <=? 122)) || ((48 <=? c) && (c <=? 57)) ||
  (c =? 43) || (c =? 47).

Definition h1_b64_declen (s : bytes) : Z :=
  let n := zlen s in
  if (n =? 0) || negb (n mod 4 =? 0) then -1
  else
    let pad := (if nth (Z.to_nat (n - 1)) s 0 =? 61 then 1 else 0) +
               (if (2 <=? n) && (nth (Z.to_nat (n - 2)) s 0 =? 61) then 1 else 0) in
    if forallb b64_char (ztake (n - pad) s) then n / 4 * 3 - pad else -1.

(** No line yet, a bare LF, or a line and the bytes it takes with its CRLF. *)
Inductive line_result := LineMore | LineBad | Line (line : bytes) (consumed : Z).

Definition h1_find_line (input : zhs_buf) : line_result :=
  let p := buf_contents input in
  match memchr 10 p with
  | None => LineMore
  | Some idx =>
      if (idx =? 0) || negb (nth (Z.to_nat (idx - 1)) p 0 =? 13) then LineBad
      else Line (ztake (idx - 1) p) (idx + 1)
  end.

Section H1.
Context `{Allocator} `{Server}.

(** ** Responses *)

(** [APP(...)]: any failure of the output buffer is [ZCIO_ERR_NOMEM]. *)
Definition status_line (status : Z) : bytes :=
  ztake 63 (B "HTTP/1.1 " ++ dec status ++ B " " ++ zhs_status_text_ status ++ [13; 10]).

Definition CRLF : bytes := [13; 10].

Definition emit_simple (status : Z) (extra : option (bytes * bytes)) : emitter :=
  put (status_line status) ▷ put (B "date: ") ▷ put (zhs_http_date_ srv_now) ▷
  put (CRLF ++ B "server: zcio" ++ CRLF) ▷
  match extra with
  | Some (n, v) => put n ▷ put (B ": ") ▷ put v ▷ put CRLF
  | None => emit_ok
  end ▷
  put (B "content-length: 0" ++ CRLF ++ B "connection: close" ++ CRLF ++ CRLF).

(** Run an emitter on the connection's output. *)
Definition emit_out (f : emitter) (c : zh1_conn) : Z * zh1_conn :=
  let '(r, out) := f (c_out c) in
  (if r =? ZCIO_OK then ZCIO_OK else ZCIO_ERR_NOMEM, set_out out c).

Definition h1_emit_simple (c : zh1_conn) (status : Z) (extra : option (bytes * bytes)) : Z * zh1_conn :=
  let '(r, c) := emit_out (emit_simple status extra) c in
  if negb (r =? ZCIO_OK) then (r, c)
  else (P_CLOSE, set_state H1_DEAD (set_close_after true c)).

Definition h1_error (c : zh1_conn) (status : Z) : Z * zh1_conn := h1_emit_simple c status None.

Definition bodiless (status : Z) : bool :=
  ((100 <=? status) && (status <? 200)) || (status =? 204) || (status =? 304).

(** The header fields of a response, one line each. *)
Definition put_fields (hdrs : list (bytes * bytes)) : emitter :=
  foldr (λ h f, (put (fst h) ▷ put (B ": ") ▷ put (snd h) ▷ put CRLF) ▷ f) emit_ok hdrs.

Definition h1_respond (c : zh1_conn) (status : Z) (hdrs : list (bytes * bytes)) (bd : option bytes)
    (body_len : Z) : Z * zh1_conn :=
  let suppress := bodiless status || is_head (c_req c) in
  let close_conn := c_close_after c || c_graceful c || negb (c_keep_alive c) ||
    (max_requests_per_conn (c_lim c) <=? u32 (c_req_count c + 1)) in
  let '(r, c) := emit_out
    (put (status_line status) ▷ put_fields hdrs ▷
     (if negb (bodiless status)
      then put (ztake 47 (B "content-length: " ++ dec body_len ++ CRLF)) else emit_ok) ▷
     put (if close_conn then B "connection: close" ++ CRLF ++ CRLF
          else B "connection: keep-alive" ++ CRLF ++ CRLF) ▷
     match bd with
     | Some b => if negb suppress && negb (body_len =? 0) then put (ztake body_len b) else emit_ok
     | None => emit_ok
     end) c in
  if negb (r =? ZCIO_OK) then (r, c)
  else
    let c := if close_conn then set_close_after true c else c in
    (ZCIO_OK,
     if max_out_bytes (c_lim c) <? b_len (c_out c) then set_close_after true c else c).

Definition nonempty (s : option bytes) : bool := match s with Some (_ :: _) => true | _ => false end.

Definition h1_redirect (c : zh1_conn) : Z * zh1_conn :=
  let host := if nonempty zhs_redirect_host_ then zhs_redirect_host_ else authority (c_req c) in
  if negb (nonempty host) then h1_error c 400
  else
    let '(r, c) := emit_out
      (put (B "HTTP/1.1 301 Moved Permanently" ++ CRLF ++ B "date: ") ▷ put (zhs_http_date_ srv_now) ▷
       put (CRLF ++ B "server: zcio" ++ CRLF ++ B "location: https://") ▷ put (default [] host) ▷
       put (default (B "/") (path (c_req c))) ▷
       match query (c_req c) with Some q => put (B "?") ▷ put q | None => emit_ok end ▷
       put (CRLF ++ B "content-length: 0" ++ CRLF ++ B "connection: close" ++ CRLF ++ CRLF)) c in
    if negb (r =? ZCIO_OK) then (r, c)
    else (P_CLOSE, set_state H1_DEAD (set_close_after true c)).

(** ** Request line *)

(** A stage's result: code, connection, input. *)
Definition stage : Type := exec (Z * zh1_conn * zhs_buf).

Definition fail (c : zh1_conn) (input : zhs_buf) (status : Z) : stage :=
  let '(r, c) := h1_error c status in Ok (r, c, input).

Definition h1_dupn (s : bytes) : option bytes :=
  if zcio_xmalloc_ok (zlen s + 1) then Some (cstr s) else None.

(** METHOD SP request-target SP HTTP-version *)
Definition split_reqline (line : bytes) : option (bytes * bytes * bytes) :=
  mlen ← memchr 32 line;
  let rest := zdrop (mlen + 1) line in
  tlen ← memchr 32 rest;
  Some (ztake mlen line, ztake tlen rest, zdrop (tlen + 1) rest).

(** [Some is_http10], or the status to answer. *)
Definition check_version (v : bytes) : Z + bool :=
  if bool_decide (v = B "HTTP/1.1") then inr false
  else if bool_decide (v = B "HTTP/1.0") then inr true
  else if (6 <=? zlen v) && bool_decide (ztake 5 v = B "HTTP/") && h1_is_digit (nth 5 v 0)
  then inl 505 else inl 400.

Definition h1_reqline (c : zh1_conn) (input : zhs_buf) : stage :=
  let c := if 0 <? ZHS_AVAIL input then set_receiving true c else c in
  match h1_find_line input with
  | LineMore =>
      if max_header_bytes (c_lim c) <? ZHS_AVAIL input then fail c input 431 else Ok (P_MORE, c, input)
  | LineBad => fail c input 400
  | Line line consumed =>
      if u64 (max_header_bytes (c_lim c) - c_head_bytes c) <? consumed then fail c input 431
      else
        let c := set_head_bytes (c_head_bytes c + consumed) c in
        let rest := zhs_buf_consume_ input consumed in
        if (zlen line =? 0) || is_ows (nth 0 line 0) then fail c rest 400
        else
          match split_reqline line with
          | None => fail c rest 400
          | Some (m, target, v) =>
              if negb (zhs_token_ok_ m) then fail c rest 400
              else
                match check_version v with
                | inl status => fail c rest status
                | inr http10 =>
                    let c := set_is_http10 http10 c in
                    if max_url_bytes (c_lim c) <? zlen target then fail c rest 414
                    else
                      match h1_dupn m with
                      | None => Ok (ZCIO_ERR_NOMEM, c, rest)
                      | Some meth =>
                          let c := set_req (req_set_is_head (bool_decide (m = B "HEAD"))
                                     (req_set_method (Some meth) (c_req c))) c in
                          '(dr, p, q) ← zhs_decode_target_ target (c_lim c);
                          let c := set_req (req_set_query q (req_set_path p (c_req c))) c in
                          if negb (dr =? ZCIO_OK) then fail c rest 400
                          else Ok (P_NEXT, set_state H1_HEADERS
                                 (set_req (req_set_version 1 (c_req c)) c), rest)
                      end
                end
          end
  end.

(** ** Header block and framing *)

(** The digits of one Content-Length value: 0 and the value, or a status. *)
Fixpoint cl_digits (s : bytes) (v : Z) : Z * Z :=
  match s with
  | [] => (0, v)
  | c :: s =>
      if negb (h1_is_digit c) then (400, 0)
      else if (UINT64_MAX - 9) / 10 <? v then (413, 0)
      else cl_digits s (v * 10 + (c - 48))
  end.

Definition h1_frame_content_length (c : zh1_conn) : Z * Z :=
  match List.filter (λ h, bool_decide (hdr_name h = B "content-length")) (h_v (headers (c_req c))) with
  | [] => (400, 0)
  | _ :: _ :: _ => (400, 0)
  | [h] =>
      if zlen (hdr_value h) =? 0 then (400, 0)
      else
        let '(e, v) := cl_digits (hdr_value h) 0 in
        if negb (e =? 0) then (e, 0)
        else if max_body_bytes (c_lim c) <? v then (413, 0) else (0, v)
  end.

(** The field-line loop; ends with the blank line, [P_NEXT]. *)
Fixpoint header_lines (fuel : nat) (c : zh1_conn) (input : zhs_buf) : stage :=
  match fuel with
  | O => OutOfFuel
  | S fuel =>
      match h1_find_line input with
      | LineMore =>
          if max_header_bytes (c_lim c) <? ZHS_AVAIL input then fail c input 431
          else Ok (P_MORE, c, input)
      | LineBad => fail c input 400
      | Line line consumed =>
          if u64 (max_header_bytes (c_lim c) - c_head_bytes c) <? consumed then fail c input 431
          else
            let c := set_head_bytes (c_head_bytes c + consumed) c in
            let rest := zhs_buf_consume_ input consumed in
            if zlen line =? 0 then Ok (P_NEXT, c, rest)
            else if is_ows (nth 0 line 0) then fail c rest 400
            else
              match memchr 58 line with
              | None => fail c rest 400
              | Some nlen =>
                  let name := ztake nlen line in
                  if negb (zhs_token_ok_ name) then fail c rest 400
                  else
                    let value := trim_end (trim_start (zdrop (nlen + 1) line)) in
                    if negb (zhs_value_ok_ value) then fail c rest 400
                    else
                      let '(a, hs) := zhs_hdrs_add_ (headers (c_req c)) name value (c_lim c) true in
                      let c := set_req (req_set_headers hs (c_req c)) c in
                      if a =? ZCIO_ERR_PROTOCOL then fail c rest 431
                      else if negb (a =? ZCIO_OK) then Ok (a, c, rest)
                      else header_lines fuel c rest
              end
      end
  end.

(** After the blank line: Host, redirect mode, body framing, persistence. *)
Definition head_done (c : zh1_conn) : Z * zh1_conn :=
  let h := headers (c_req c) in
  let hostc := zhs_hdrs_count_ h (B "host") in
  if negb (c_is_http10 c) && negb (hostc =? 1) then h1_error c 400
  else if c_is_http10 c && (1 <? hostc) then h1_error c 400
  else
    let auth :=
      if 1 <=? hostc then
        let hv := default [] (zhs_hdrs_get_ h (B "host")) in
        zcio_strdup_ (Some (default hv (strrchr_after 64 hv)))
      else None in
    let c := set_req (req_set_authority auth (c_req c)) c in
    if (1 <=? hostc) && negb (bool_decide (is_Some auth)) then (ZCIO_ERR_NOMEM, c)
    else if negb (Z.land (c_flags c) ZH1_F_REDIRECT =? 0) then h1_redirect c
    else
      let te := zhs_hdrs_get_ h (B "transfer-encoding") in
      let tec := zhs_hdrs_count_ h (B "transfer-encoding") in
      let clc := zhs_hdrs_count_ h (B "content-length") in
      if bool_decide (is_Some te) && negb (clc =? 0) then h1_error c 400
      else if bool_decide (is_Some te) && c_is_http10 c then h1_error c 400
      else
        let c := set_head_bytes 0 c in
        let framed : Z + zh1_conn :=
          match te with
          | Some te =>
              if negb (tec =? 1) || negb (h1_ci_eq te (B "chunked")) then inl 501
              else inr (set_state H1_CHUNK_SIZE (set_chunk_remaining 0 (set_chunked true c)))
          | None =>
              if negb (clc =? 0) then
                let '(e, cl) := h1_frame_content_length c in
                if negb (e =? 0) then inl e else inr (set_state H1_BODY_CL (set_cl_remaining cl c))
              else inr (set_state H1_BODY_CL (set_cl_remaining 0 c))
          end in
        match framed with
        | inl e => h1_error c e
        | inr c =>
            let conn := zhs_hdrs_get_ h (B "connection") in
            let has tok := match conn with Some v => h1_token_in_list v tok | None => false end in
            (P_NEXT,
             set_keep_alive (if c_is_http10 c then has (B "keep-alive") else negb (has (B "close"))) c)
        end.

Definition h1_headers (c : zh1_conn) (input : zhs_buf) : stage :=
  '(r, c, input) ← header_lines (S (Z.to_nat (ZHS_AVAIL input))) c input;
  if negb (r =? P_NEXT) then Ok (r, c, input)
  else let '(r, c) := head_done c in Ok (r, c, input).

(** ** Body *)

Definition h1_append_body (c : zh1_conn) (p : bytes) : Z * zh1_conn :=
  let '(r, b) := zhs_buf_append_ (body (c_req c)) p in
  (if r =? ZCIO_OK then 0 else ZCIO_ERR_NOMEM, set_req (req_set_body b (c_req c)) c).

Definition h1_body_cl (c : zh1_conn) (input : zhs_buf) : stage :=
  if c_cl_remaining c =? 0 then Ok (P_COMPLETE, c, input)
  else
    let avail := ZHS_AVAIL input in
    if avail =? 0 then Ok (P_MORE, c, input)
    else
      let take := if avail <? c_cl_remaining c then avail else c_cl_remaining c in
      let '(e, c) := h1_append_body c (ztake take (buf_contents input)) in
      if negb (e =? 0) then Ok (e, c, input)
      else
        let input := zhs_buf_consume_ input take in
        let c := set_cl_remaining (c_cl_remaining c - take) c in
        Ok (if c_cl_remaining c =? 0 then P_COMPLETE else P_MORE, c, input).

(** The hex size at the start of a chunk line: [None] on overflow, otherwise
    the size, whether there was a digit, and what follows the digits. *)
Fixpoint chunk_size_loop (line : bytes) (size : Z) (any : bool) : option (Z * bool * bytes) :=
  match line with
  | [] => Some (size, any, [])
  | ch :: line' =>
      let hv := h1_hex ch in
      if hv <? 0 then Some (size, any, line)
      else if Z.shiftr UINT64_MAX 4 <? size then None
      else chunk_size_loop line' (u64 (Z.lor (Z.shiftl size 4) hv)) true
  end.

Definition chunk_size (line : bytes) : option (Z * bool * bytes) := chunk_size_loop line 0 false.

(** One turn of the loop: go round again, or return. *)
Inductive turn := Again (c : zh1_conn) (input : zhs_buf) | Return (r : Z) (c : zh1_conn) (input : zhs_buf).

Definition stop (c : zh1_conn) (input : zhs_buf) (status : Z) : turn :=
  let '(r, c) := h1_error c status in Return r c input.

Definition chunk_size_turn (c : zh1_conn) (input : zhs_buf) : turn :=
  match h1_find_line input with
  | LineMore =>
      if H1_CHUNK_LINE_MAX <? ZHS_AVAIL input then stop c input 400 else Return P_MORE c input
  | LineBad => stop c input 400
  | Line line consumed =>
      let rest := zhs_buf_consume_ input consumed in
      if H1_CHUNK_LINE_MAX <? zlen line then stop c rest 400
      else
        match chunk_size line with
        | None => stop c rest 400
        | Some (size, any, ext) =>
            if negb any || match ext with ch :: _ => negb (ch =? 59) | [] => false end
            then stop c rest 400
            else if size =? 0 then Again (set_state H1_TRAILER c) rest
            else if u64 (max_body_bytes (c_lim c) - b_len (body (c_req c))) <? size
            then stop c rest 413
            else Again (set_state H1_CHUNK_DATA (set_chunk_remaining size c)) rest
        end
  end.

Definition chunk_data_turn (c : zh1_conn) (input : zhs_buf) : turn :=
  if 0 <? c_chunk_remaining c then
    let avail := ZHS_AVAIL input in
    if avail =? 0 then Return P_MORE c input
    else
      let take := if avail <? c_chunk_remaining c then avail else c_chunk_remaining c in
      let '(e, c) := h1_append_body c (ztake take (buf_contents input)) in
      if negb (e =? 0) then Return e c input
      else
        let input := zhs_buf_consume_ input take in
        let c := set_chunk_remaining (c_chunk_remaining c - take) c in
        if 0 <? c_chunk_remaining c then Return P_MORE c input
        else Again (set_state H1_CHUNK_CRLF c) input
  else Again (set_state H1_CHUNK_CRLF c) input.

Definition chunk_crlf_turn (c : zh1_conn) (input : zhs_buf) : turn :=
  if ZHS_AVAIL input <? 2 then Return P_MORE c input
  else if bool_decide (ztake 2 (buf_contents input) = CRLF)
  then Again (set_state H1_CHUNK_SIZE c) (zhs_buf_consume_ input 2)
  else stop c input 400.

Definition trailer_turn (c : zh1_conn) (input : zhs_buf) : turn :=
  match h1_find_line input with
  | LineMore =>
      if max_header_bytes (c_lim c) <? ZHS_AVAIL input then stop c input 431 else Return P_MORE c input
  | LineBad => stop c input 400
  | Line line consumed =>
      if u64 (max_header_bytes (c_lim c) - c_head_bytes c) <? consumed then stop c input 431
      else
        let c := set_head_bytes (c_head_bytes c + consumed) c in
        let rest := zhs_buf_consume_ input consumed in
        if zlen line =? 0 then Return P_COMPLETE c rest else Again c rest
  end.

Definition chunk_turn (c : zh1_conn) (input : zhs_buf) : turn :=
  match c_state c with
  | H1_CHUNK_SIZE => chunk_size_turn c input
  | H1_CHUNK_DATA => chunk_data_turn c input
  | H1_CHUNK_CRLF => chunk_crlf_turn c input
  | _ => trailer_turn c input
  end.

Fixpoint chunk_loop (fuel : nat) (c : zh1_conn) (input : zhs_buf) : stage :=
  match fuel with
  | O => OutOfFuel
  | S fuel =>
      match chunk_turn c input with
      | Return r c input => Ok (r, c, input)
      | Again c input => chunk_loop fuel c input
      end
  end.

(** Every line takes at least two bytes, and two states take none. *)
Definition h1_body_chunk (c : zh1_conn) (input : zhs_buf) : stage :=
  chunk_loop (3 * Z.to_nat (ZHS_AVAIL input) + 3) c input.

(** ** Dispatch *)

Definition h1_detect_ws (c : zh1_conn) : zh1_conn :=
  let r := c_req c in
  let h := headers r in
  let get n := zhs_hdrs_get_ h n in
  let has n tok := match get n with Some v => h1_token_in_list v tok | None => false end in
  if c_is_http10 c then c
  else if negb (bool_decide (method r = Some (B "GET"))) then c
  else if negb (has (B "upgrade") (B "websocket")) then c
  else if negb (has (B "connection") (B "upgrade")) then c
  else if negb match get (B "sec-websocket-key") with Some k => h1_b64_declen k =? 16 | None => false end
  then c
  else if negb (bool_decide (get (B "sec-websocket-version") = Some (B "13"))) then c
  else set_req (req_set_ws_upgrade true r) c.

(** The server's detach: write the 101 and the queued output to the blocking
    transport; [write_ok] says which blocking writes the peer accepts.  [gone]:
    the connection's stream is NULL, an earlier call has handed it over. *)
Context (write_ok : bytes → bool).

Definition zhs_detach_for_upgrade_ (gone : bool) (c : zh1_conn) (resp : bytes) : bool * zh1_conn :=
  if negb (version (c_req c) =? 1) then (false, c)
  else if gone then (false, c)
  else if negb (write_ok resp) then (false, c)
  else if 0 <? ZHS_AVAIL (c_out c) then
    if negb (write_ok (buf_contents (c_out c))) then (false, c)
    else (true, set_out (zhs_buf_consume_ (c_out c) (ZHS_AVAIL (c_out c))) c)
  else (true, c).

Definition h1_transport : Transport zh1_conn := {|
  get_req := c_req;
  mark_responded := λ c, set_req (req_set_responded true (c_req c)) c;
  respond_fn := h1_respond;
  detach := zhs_detach_for_upgrade_ |}.

Definition h1_finish (c : zh1_conn) : Z * zh1_conn :=
  let r := req_set_stream_id 0 (req_set_secure (negb (Z.land (c_flags c) ZH1_F_SECURE =? 0))
             (req_set_version 1 (c_req c))) in
  let '(e, b) := zhs_buf_reserve_ (body r) 1 in
  let c := set_req (req_set_body b r) c in
  if negb (e =? ZCIO_OK) then (FIN_HARD, c)
  else
    let '(d, c) := @zhs_dispatch_ _ _ _ h1_transport (h1_detect_ws c) in
    if d =? 1 then (FIN_DETACHED, c)
    else (FIN_OK, set_req_count (u32 (c_req_count c + 1)) c).

Definition h1_reset_next (c : zh1_conn) : zh1_conn :=
  mk_conn (c_lim c) (c_flags c) (c_out c) H1_REQLINE (zhs_req_reset_ (c_req c)) 0 false false false
    (c_graceful c) (c_close_after c) (c_req_count c) false 0 0.

(** ** Entry points *)

Definition zh1_new_ (lim : zhs_limits) (flags : Z) (out : zhs_buf) : option zh1_conn :=
  if zcio_xcalloc_ok 1 512 then
    Some (mk_conn lim flags out H1_REQLINE req_empty 0 false false false false false 0 false 0 0)
  else None.

Definition run_stage (c : zh1_conn) (input : zhs_buf) : stage :=
  match c_state c with
  | H1_REQLINE => h1_reqline c input
  | H1_HEADERS => h1_headers c input
  | H1_BODY_CL => h1_body_cl c input
  | H1_DEAD => Ok (P_CLOSE, c, input)
  | _ => h1_body_chunk c input
  end.

Fixpoint feed_loop (fuel : nat) (dispatched : bool) (c : zh1_conn) (input : zhs_buf) : stage :=
  match fuel with
  | O => OutOfFuel
  | S fuel =>
      if bool_decide (c_state c = H1_DEAD) then Ok (ZH1_CLOSE, c, input)
      else
        '(r, c, input) ← run_stage c input;
        if r <? 0 then Ok (r, c, input)
        else if r =? P_MORE then Ok (if dispatched then ZH1_DISPATCHED else ZH1_NEED_MORE, c, input)
        else if r =? P_NEXT then feed_loop fuel dispatched c input
        else if r =? P_CLOSE then Ok (ZH1_CLOSE, c, input)
        else if r =? P_COMPLETE then
          let '(f, c) := h1_finish c in
          if f =? FIN_DETACHED then Ok (ZH1_DETACHED, c, input)
          else if f =? FIN_HARD then Ok (ZCIO_ERR_NOMEM, c, input)
          else if c_close_after c then Ok (ZH1_CLOSE, c, input)
          else feed_loop fuel true (h1_reset_next c) input
        else Ok (ZCIO_ERR_PROTOCOL, c, input)
  end.

(** A request takes three stages and at least two bytes. *)
Definition zh1_feed_ (c : zh1_conn) (input : zhs_buf) : stage :=
  feed_loop (3 * Z.to_nat (ZHS_AVAIL input) + 4) false c input.

Definition zh1_idle_ (c : zh1_conn) : bool :=
  bool_decide (c_state c = H1_REQLINE) && negb (c_receiving c).
Definition zh1_mid_headers_ (c : zh1_conn) : bool :=
  c_receiving c && (bool_decide (c_state c = H1_REQLINE) || bool_decide (c_state c = H1_HEADERS)).
Definition zh1_receiving_ (c : zh1_conn) : bool := c_receiving c.
Definition zh1_graceful_ (c : zh1_conn) : zh1_conn := set_graceful true c.
End H1.
