(* ===== verification/H1Safe.v ===== *)
(** * H1Safe: the invariant of the HTTP/1.1 connection

    Every stage of [H1] keeps the connection well formed and terminates, and a
    request reaches the handler only when its framing is unambiguous. *)
From stdpp Require Import base tactics list option strings.
From Stdlib Require Import ZArith Lia.
From S2P Require Import Prelude Types Buf HttpUtil Target Respond H1.

(** ** Lines *)

Lemma memchr_spec c s :
  match memchr c s with
  | None => c ∉ s
  | Some i => 0 ≤ i < zlen s ∧ s = ztake i s ++ c :: zdrop (i + 1) s ∧ c ∉ ztake i s
  end.
Proof.
  induction s as [|x s IH]; [apply not_elem_of_nil|]. cbn [memchr]. bcase.
  - subst. split; [cbn [length]; lia|]. split; [done|apply not_elem_of_nil].
  - destruct (memchr c s) as [i|]; cbn [fmap option_fmap option_map].
    + destruct IH as (Hi & Hs & Hn). replace (Z.to_nat (i + 1)) with (S (Z.to_nat i)) by lia.
      replace (Z.to_nat (i + 1 + 1)) with (S (Z.to_nat (i + 1))) by lia. cbn [take drop app].
      split; [cbn [length]; lia|]. split; [congruence|]. rewrite elem_of_cons. intros [?|?]; congruence.
    + rewrite elem_of_cons. intros [?|?]; congruence.
Qed.

Lemma memchr_app c s t : c ∉ s → memchr c (s ++ c :: t) = Some (zlen s).
Proof.
  induction s as [|x s IH]; cbn [app memchr]; intros Hn.
  - by rewrite Z.eqb_refl.
  - rewrite elem_of_cons in Hn. bcase; [exfalso; apply Hn; by left|].
    rewrite IH by (intros ?; apply Hn; by right). cbn. f_equal. lia.
Qed.

Lemma find_line_spec input :
  buf_wf input →
  match h1_find_line input with
  | LineMore => 10 ∉ buf_contents input
  | LineBad => True
  | Line line consumed =>
      consumed = zlen line + 2 ∧ consumed ≤ ZHS_AVAIL input ∧ 10 ∉ line ∧
      buf_contents input = line ++ CRLF ++ zdrop consumed (buf_contents input)
  end.
Proof.
  intros Hwf. unfold h1_find_line. rewrite <- (zlen_contents input Hwf).
  pose proof (memchr_spec 10 (buf_contents input)) as Hm.
  destruct (memchr 10 (buf_contents input)) as [i|]; [|done].
  destruct Hm as (Hi & Hs & Hn). destruct (_ || _) eqn:E; [done|]. btest.
  set (p := buf_contents input) in *.
  assert (ztake i p = ztake (i - 1) p ++ [13]) as Ht.
  { replace (Z.to_nat i) with (S (Z.to_nat (i - 1))) by lia. apply take_S_r.
    destruct (lookup_lt_is_Some_2 p (Z.to_nat (i - 1))) as [x Hx]; [lia|].
    rewrite (nth_lookup_Some _ _ _ _ Hx) in H0. by rewrite Hx, H0. }
  split; [zl|]. split; [lia|]. split.
  - intros Hin. apply Hn. rewrite Ht. apply elem_of_app. by left.
  - rewrite Hs at 1. rewrite Ht, <- app_assoc. done.
Qed.

Lemma find_line_app input line rest :
  buf_contents input = line ++ CRLF ++ rest → 10 ∉ line →
  h1_find_line input = Line line (zlen line + 2).
Proof.
  intros Hc Hn. unfold h1_find_line. rewrite Hc.
  change (line ++ CRLF ++ rest) with (line ++ [13] ++ 10 :: rest). rewrite app_assoc.
  rewrite memchr_app by (rewrite elem_of_app, list_elem_of_singleton; intros [?|?]; [done|lia]).
  assert (zlen (line ++ [13]) = zlen line + 1) as -> by zl.
  assert (nth (Z.to_nat (zlen line + 1 - 1)) ((line ++ [13]) ++ 10 :: rest) 0 = 13) as ->.
  { rewrite <- app_assoc, app_nth2 by lia. replace (_ - _)%nat with 0%nat by lia. done. }
  destruct (_ || _) eqn:E; [apply orb_true_iff in E as [E|E]; btest; lia|].
  f_equal; [|lia]. rewrite <- app_assoc. apply ztake_app_zlen. lia.
Qed.

Lemma avail_consume input n :
  buf_wf input → 0 ≤ n ≤ ZHS_AVAIL input →
  buf_wf (zhs_buf_consume_ input n) ∧ ZHS_AVAIL (zhs_buf_consume_ input n) = ZHS_AVAIL input - n ∧
  buf_contents (zhs_buf_consume_ input n) = zdrop n (buf_contents input).
Proof.
  intros Hwf Hn. destruct (consume_spec input n Hwf ltac:(lia)) as (Hwf' & Hc & _).
  split; [done|]. split; [|done]. rewrite <- (zlen_contents _ Hwf'), Hc.
  rewrite <- (zlen_contents _ Hwf) in *. zl.
Qed.

(** ** Header names and counts *)

Lemma hdr_name_eq_spec a q : hdr_name_eq a q = bool_decide (a = map tolower q).
Proof.
  revert q. induction a as [|x a IH]; intros [|c q]; cbn [hdr_name_eq map]; try done.
  destruct (x =? tolower c) eqn:E; btest.
  - rewrite IH. apply bool_decide_ext. split; congruence.
  - symmetry. apply bool_decide_false. congruence.
Qed.

Lemma tchar_lower c : is_tchar c = true → is_tchar (tolower c) = true ∧ ¬ (65 ≤ tolower c ≤ 90) ∧ 33 ≤ c < 127.
Proof.
  intros Hc. assert (33 ≤ c < 127) as Hr.
  { unfold is_tchar in Hc. destruct (_ || _) eqn:E.
    - apply orb_true_iff in E as [E|E]; [apply orb_true_iff in E as [E|E]|]; btest; lia.
    - apply bool_decide_eq_true, list_elem_of_In in Hc. simpl in Hc. lia. }
  assert (forallb (λ n, let c := Z.of_nat n in implb (is_tchar c)
    (is_tchar (tolower c) && negb ((65 <=? tolower c) && (tolower c <=? 90)))) (seq 0 128) = true) as H
    by (vm_compute; reflexivity).
  rewrite forallb_forall in H. specialize (H (Z.to_nat c) ltac:(apply in_seq; lia)).
  rewrite Z2Nat.id in H by lia. cbv zeta in H. rewrite Hc in H. cbn [implb] in H. btest.
  split; [done|]. split; [|done]. apply andb_false_iff in H0 as [E|E]; btest; lia.
Qed.

Lemma token_lower s :
  zhs_token_ok_ s = true → zhs_lower_token_ok_ (cstr (map tolower s)) = true.
Proof.
  intros Hs. rewrite cstr_id.
  - unfold zhs_token_ok_, zhs_lower_token_ok_ in *. rewrite length_map. bcase; [done|].
    rewrite forallb_map. rewrite forallb_forall in *. intros c Hc. specialize (Hs c Hc).
    destruct (tchar_lower c Hs) as (H1 & H2 & _). destruct (_ && _) eqn:E; [btest; lia|done].
  - pose proof (token_ok_no_nul s Hs) as Hn. clear Hs. induction Hn as [|c s Hc Hn IH]; [constructor|].
    cbn. constructor; [|done]. unfold tolower. bcase; lia.
Qed.

Lemma value_ok_cstr s : zhs_value_ok_ s = true → cstr s = s.
Proof.
  intros Hs. apply cstr_id. apply Forall_forall. intros c Hc ->.
  unfold zhs_value_ok_ in Hs. rewrite forallb_forall in Hs.
  by apply list_elem_of_In, Hs in Hc.
Qed.

(** ** The invariant *)

Definition lims_ok (l : zhs_limits) : Prop :=
  0 ≤ max_header_bytes l < 2 ^ 62 ∧ 0 ≤ max_headers l ∧ 0 ≤ max_body_bytes l < 2 ^ 63.

Definition hdr_clean (h : zhs_hdr) : Prop :=
  zhs_lower_token_ok_ (hdr_name h) = true ∧ zhs_value_ok_ (hdr_value h) = true.

Definition path_clean (p : bytes) : Prop :=
  p = [42] ∨ ∃ segs, p = canonical segs ∧ Forall clean_seg segs ∧ Forall (Forall path_ok) segs.

Definition conn_base (c : zh1_conn) : Prop :=
  lims_ok (c_lim c) ∧ buf_wf (c_out c) ∧ buf_wf (body (c_req c)) ∧
  0 ≤ c_head_bytes c ≤ max_header_bytes (c_lim c) ∧
  hdrs_wf (c_lim c) (headers (c_req c)) ∧ Forall hdr_clean (h_v (headers (c_req c))) ∧
  0 ≤ b_len (body (c_req c)) ≤ max_body_bytes (c_lim c).

(** The request line was accepted. *)
Definition line_good (r : zcio_http_req) : Prop :=
  (∃ m, method r = Some m ∧ zhs_token_ok_ m = true) ∧ (∃ p, path r = Some p ∧ path_clean p) ∧
  (∀ q, query r = Some q → zhs_value_ok_ q = true).

Definition count (r : zcio_http_req) (name : string) : Z := zhs_hdrs_count_ (headers r) (B name).
Definition get (r : zcio_http_req) (name : string) : option bytes := zhs_hdrs_get_ (headers r) (B name).

(** Exactly one Host (at most one for HTTP/1.0). *)
Definition host_good (http10 : bool) (r : zcio_http_req) : Prop :=
  if http10 then count r "host" ≤ 1 else count r "host" = 1.

(** How the body is delimited; [total] is its length when that is declared. *)
Inductive framing (http10 : bool) (r : zcio_http_req) : option Z → Prop :=
  | frame_none : get r "transfer-encoding" = None → count r "content-length" = 0 →
      framing http10 r (Some 0)
  | frame_cl v n : get r "transfer-encoding" = None → count r "content-length" = 1 →
      get r "content-length" = Some v → v ≠ [] → cl_digits v 0 = (0, n) → framing http10 r (Some n)
  | frame_chunked te : http10 = false → get r "transfer-encoding" = Some te →
      count r "transfer-encoding" = 1 → h1_ci_eq te (B "chunked") = true →
      count r "content-length" = 0 → framing http10 r None.

Definition conn_state (c : zh1_conn) : Prop :=
  let r := c_req c in
  match c_state c with
  | H1_REQLINE => headers r = hdrs_empty ∧ b_len (body r) = 0 ∧ c_head_bytes c = 0
  | H1_HEADERS => line_good r ∧ b_len (body r) = 0
  | H1_BODY_CL => line_good r ∧ host_good (c_is_http10 c) r ∧ 0 ≤ c_cl_remaining c ∧
      b_len (body r) + c_cl_remaining c ≤ max_body_bytes (c_lim c) ∧
      framing (c_is_http10 c) r (Some (b_len (body r) + c_cl_remaining c))
  | H1_DEAD => True
  | s => line_good r ∧ host_good (c_is_http10 c) r ∧ framing (c_is_http10 c) r None ∧
      (s = H1_CHUNK_DATA → 0 ≤ c_chunk_remaining c ∧
         b_len (body r) + c_chunk_remaining c ≤ max_body_bytes (c_lim c))
  end.

(** What the handler may rely on. *)
Definition req_good (lim : zhs_limits) (http10 : bool) (r : zcio_http_req) : Prop :=
  line_good r ∧ host_good http10 r ∧ Forall hdr_clean (h_v (headers r)) ∧ hdrs_wf lim (headers r) ∧
  b_len (body r) ≤ max_body_bytes lim ∧
  ∃ total, framing http10 r total ∧ (∀ n, total = Some n → b_len (body r) = n).

Section Stages.
Context `{Allocator} `{Server}.

(** ** Output *)

#[local] Instance emits_fields hdrs :
  Emits (put_fields hdrs) (concat (map (λ h, h.1 ++ B ": " ++ h.2 ++ CRLF) hdrs)).
Proof.
  induction hdrs as [|h hdrs IH]; [apply emits_ok|].
  exact (emits_seq _ _ (h.1 ++ B ": " ++ h.2 ++ CRLF) _).
Qed.

Lemma emit_out_spec f x c :
  Emits f x → buf_wf (c_out c) →
  ∃ r out', emit_out f c = (r, set_out out' c) ∧ buf_wf out' ∧
    ((r = ZCIO_OK ∧ buf_contents out' = buf_contents (c_out c) ++ x ∧
      b_len out' = b_len (c_out c) + zlen x) ∨ r = ZCIO_ERR_NOMEM) ∧
    ((∀ n, alloc_ok n = true) → b_len (c_out c) + zlen x ≤ SIZE_MAX → r = ZCIO_OK).
Proof.
  intros Hf Hwf. unfold emit_out. destruct (Hf (c_out c) Hwf) as (r & out' & -> & Hwf' & Hr & Ha).
  destruct Hr as [(-> & Hc & Hl & _)|(-> & _)].
  - exists ZCIO_OK, out'. split; [done|]. split; [done|]. split; [left; ands|done].
  - exists ZCIO_ERR_NOMEM, out'. split; [done|]. split; [done|]. split; [by right|].
    intros Hall Hs. discriminate (Ha Hall Hs).
Qed.

Lemma base_set_out c out : conn_base c → buf_wf out → conn_base (set_out out c).
Proof. unfold conn_base. cbn. tauto. Qed.

(** The result of a stage that gave up. *)
Definition gave_up (c c' : zh1_conn) (r : Z) : Prop :=
  conn_base c' ∧ c_lim c' = c_lim c ∧ (r = ZCIO_ERR_NOMEM ∨ (r = P_CLOSE ∧ c_state c' = H1_DEAD)).

Lemma error_spec c status :
  conn_base c → ∃ r c', h1_error c status = (r, c') ∧ gave_up c c' r.
Proof.
  intros Hb. unfold h1_error, h1_emit_simple, emit_simple.
  edestruct emit_out_spec as (r & out' & -> & Hwf & Hr & _); [apply _|apply Hb|].
  destruct Hr as [(-> & _)| ->]; cbn.
  - do 2 eexists. split; [done|]. split; [by apply (base_set_out c)|]. split; [done|by right].
  - do 2 eexists. split; [done|]. split; [by apply base_set_out|]. split; [done|by left].
Qed.

Lemma redirect_spec c :
  conn_base c → ∃ r c', h1_redirect c = (r, c') ∧ gave_up c c' r.
Proof.
  intros Hb. unfold h1_redirect. generalize (if nonempty zhs_redirect_host_ then zhs_redirect_host_ else authority (c_req c)).
  intros host. destruct (negb _); [by apply error_spec|].
  assert (∃ x, Emits (match query (c_req c) with Some q => put (B "?") ▷ put q | None => emit_ok end) x)
    as [x Hx] by (destruct (query (c_req c)); eexists; apply _).
  edestruct emit_out_spec as (r & out' & -> & Hwf & Hr & _); [apply _|apply Hb|].
  destruct Hr as [(-> & _)| ->]; cbn.
  - do 2 eexists. split; [done|]. split; [by apply (base_set_out c)|]. split; [done|by right].
  - do 2 eexists. split; [done|]. split; [by apply base_set_out|]. split; [done|by left].
Qed.

(** ** Stages

    [outcome c input r c' input']: the stage returned [r]; nothing was read
    twice, the invariant holds, and progress was made when the loop goes on. *)
Definition outcome (c : zh1_conn) (input : zhs_buf) (r : Z) (c' : zh1_conn) (input' : zhs_buf) : Prop :=
  buf_wf input' ∧ ZHS_AVAIL input' ≤ ZHS_AVAIL input ∧ conn_base c' ∧ c_lim c' = c_lim c ∧
  (r = ZCIO_ERR_NOMEM ∨ (r = P_CLOSE ∧ c_state c' = H1_DEAD) ∨ (r = P_MORE ∧ conn_state c') ∨
   (r = P_NEXT ∧ conn_state c' ∧ ZHS_AVAIL input' < ZHS_AVAIL input ∧ c_state c' ≠ H1_REQLINE) ∨
   (r = P_COMPLETE ∧ req_good (c_lim c') (c_is_http10 c') (c_req c') ∧ conn_state c')).

Lemma fail_outcome c c1 input input1 status :
  conn_base c1 → c_lim c1 = c_lim c → buf_wf input1 → ZHS_AVAIL input1 ≤ ZHS_AVAIL input →
  ∃ r c' input', fail c1 input1 status = Ok (r, c', input') ∧ outcome c input r c' input'.
Proof.
  intros Hb Hl Hi Ha. unfold fail. destruct (error_spec c1 status Hb) as (r & c' & -> & Hb' & Hl' & Hr).
  do 3 eexists. split; [done|]. unfold outcome. split; [done|]. split; [done|]. split; [done|].
  split; [congruence|]. tauto.
Qed.

Lemma base_head c n :
  conn_base c → 0 ≤ n ≤ max_header_bytes (c_lim c) → conn_base (set_head_bytes n c).
Proof. unfold conn_base. cbn. tauto. Qed.

(** The head budget check passed. *)
Lemma head_budget c consumed :
  conn_base c → 0 ≤ consumed →
  (u64 (max_header_bytes (c_lim c) - c_head_bytes c) <? consumed) = false →
  conn_base (set_head_bytes (c_head_bytes c + consumed) c).
Proof.
  intros Hb Hc Hlt. pose proof Hb as (Hl & _ & _ & Hh & _). unfold lims_ok in Hl.
  rewrite wrap_small in Hlt by lia. btest. apply base_head; [done|lia].
Qed.

Lemma reqline_outcome c input :
  conn_base c → conn_state c → c_state c = H1_REQLINE → buf_wf input →
  ∃ r c' input', h1_reqline c input = Ok (r, c', input') ∧ outcome c input r c' input' ∧
    r ≠ P_COMPLETE ∧ (r = P_NEXT → c_state c' = H1_HEADERS).
Proof.
  intros Hb Hst Hs Hi. unfold h1_reqline.
  set (c1 := if 0 <? ZHS_AVAIL input then set_receiving true c else c).
  assert (conn_base c1 ∧ conn_state c1 ∧ c_lim c1 = c_lim c ∧ c_req c1 = c_req c ∧
    c_state c1 = H1_REQLINE) as (Hb1 & Hst1 & Hl1 & Hr1 & Hs1) by (unfold c1; bcase; ands).
  clearbody c1. unfold conn_state in Hst1. rewrite Hs1 in Hst1. destruct Hst1 as (Hh & Hbl & Hhb).
  assert (∀ c2 input2 status, conn_base c2 → c_lim c2 = c_lim c → buf_wf input2 →
    ZHS_AVAIL input2 ≤ ZHS_AVAIL input →
    ∃ r c' input', fail c2 input2 status = Ok (r, c', input') ∧ outcome c input r c' input' ∧
      r ≠ P_COMPLETE ∧ (r = P_NEXT → c_state c' = H1_HEADERS)) as Hfail.
  { intros c2 i2 st Hb2 Hl2 Hi2 Ha2.
    destruct (fail_outcome c c2 input i2 st Hb2 Hl2 Hi2 Ha2) as (r & c' & i' & E & Ho).
    exists r, c', i'. split; [done|]. split; [done|].
    unfold fail in E. destruct (error_spec c2 st Hb2) as (r0 & c3 & E2 & _ & _ & [-> | [-> _]]);
      rewrite E2 in E; injection E as <- _ _; done. }
  pose proof (find_line_spec input Hi) as Hline.
  destruct (h1_find_line input) as [| |line consumed].
  { bcase; [by apply Hfail|]. do 3 eexists. split; [done|]. split; [|done].
    unfold outcome, conn_state. rewrite Hs1. ands. right. right. left. ands. }
  { by apply Hfail. }
  destruct Hline as (Hcon & Hav & Hlf & Hcont).
  destruct (_ <? consumed) eqn:Ebud; [by apply Hfail|].
  pose proof (head_budget c1 consumed Hb1 ltac:(lia) Ebud) as Hb2.
  set (c2 := set_head_bytes (c_head_bytes c1 + consumed) c1) in *.
  destruct (avail_consume input consumed Hi ltac:(lia)) as (Hi' & Ha' & _).
  set (rest := zhs_buf_consume_ input consumed) in *.
  assert (c_lim c2 = c_lim c) as Hl2 by done. assert (ZHS_AVAIL rest ≤ ZHS_AVAIL input) by lia.
  destruct (_ || _); [by apply Hfail|].
  destruct (split_reqline line) as [[[m target] v]|]; [|by apply Hfail].
  destruct (zhs_token_ok_ m) eqn:Em; cbn [negb]; [|by apply Hfail].
  destruct (check_version v) as [status|http10]; [by apply Hfail|].
  destruct (_ <? zlen target); [by apply Hfail|].
  unfold h1_dupn. destruct (zcio_xmalloc_ok _).
  2:{ do 3 eexists. split; [done|]. split; [|done]. unfold outcome. split_and!; try done. by left. }
  destruct (decode_target_result target (c_lim (set_is_http10 http10 c2)))
    as (dr & p & q & E & Hdr & Hno & Hok).
  cbn [c_lim set_req] in *. rewrite E. cbn [mbind exec_bind].
  destruct (dr =? ZCIO_OK) eqn:Edr; btest; cbn [negb]; [|by apply Hfail].
  do 3 eexists. split; [done|]. split; [|done]. unfold outcome. split; [done|]. split; [done|].
  split; [exact Hb2|]. split; [done|]. right. right. right. left. split; [done|].
  split; [|split; [lia|done]]. unfold conn_state. cbn. split; [|by rewrite <- Hr1 in Hbl || done].
  destruct (Hok Edr) as [_ Hp]. rewrite (cstr_id m (token_ok_no_nul m Em)).
  split; [by exists m|]. destruct Hp as [(_ & -> & ->)|(segs & -> & Hcl & Hpk & _ & Hq)].
  - split; [|done]. eexists. split; [done|by left].
  - split; [|done]. eexists. split; [done|]. right. by exists segs.
Qed.

Lemma drop_while_length f s : (length (drop_while f s) ≤ length s)%nat.
Proof. induction s as [|c s IH]; cbn; [lia|]. bcase; cbn [length] in *; lia. Qed.

Lemma trim_length s : (length (trim_end (trim_start s)) ≤ length s)%nat.
Proof.
  unfold trim_end, trim_start. rewrite length_rev.
  etrans; [apply drop_while_length|]. rewrite length_rev. apply drop_while_length.
Qed.

Lemma header_lines_outcome fuel c input :
  conn_base c → conn_state c → c_state c = H1_HEADERS → buf_wf input →
  ZHS_AVAIL input < Z.of_nat fuel →
  ∃ r c' input', header_lines fuel c input = Ok (r, c', input') ∧ outcome c input r c' input' ∧
    r ≠ P_COMPLETE ∧ (r = P_NEXT → c_state c' = H1_HEADERS).
Proof.
  revert c input. induction fuel as [|fuel IH]; intros c input Hb Hst Hs Hi Hf.
  { pose proof (zlen_contents input Hi). lia. }
  cbn [header_lines].
  assert (∀ c2 input2 status, conn_base c2 → c_lim c2 = c_lim c → buf_wf input2 →
    ZHS_AVAIL input2 ≤ ZHS_AVAIL input →
    ∃ r c' input', fail c2 input2 status = Ok (r, c', input') ∧ outcome c input r c' input' ∧
      r ≠ P_COMPLETE ∧ (r = P_NEXT → c_state c' = H1_HEADERS)) as Hfail.
  { intros c2 i2 st Hb2 Hl2 Hi2 Ha2.
    destruct (fail_outcome c c2 input i2 st Hb2 Hl2 Hi2 Ha2) as (r & c' & i' & E & Ho).
    exists r, c', i'. split; [done|]. split; [done|].
    unfold fail in E. destruct (error_spec c2 st Hb2) as (r0 & c3 & E2 & _ & _ & [-> | [-> _]]);
      rewrite E2 in E; injection E as <- _ _; done. }
  unfold conn_state in Hst. rewrite Hs in Hst. destruct Hst as [Hg Hbl].
  pose proof (find_line_spec input Hi) as Hline.
  destruct (h1_find_line input) as [| |line consumed].
  { bcase; [by apply Hfail|]. do 3 eexists. split; [done|]. split; [|done].
    unfold outcome, conn_state. rewrite Hs. ands. right. right. left. ands. }
  { by apply Hfail. }
  destruct Hline as (Hcon & Hav & Hlf & Hcont).
  destruct (_ <? consumed) eqn:Ebud; [by apply Hfail|].
  pose proof (head_budget c consumed Hb ltac:(lia) Ebud) as Hb2.
  pose proof Hb as (Hlim & _ & _ & Hhb & Hhw & Hhc & _). unfold lims_ok in Hlim.
  rewrite wrap_small in Ebud by lia. btest.
  set (c2 := set_head_bytes (c_head_bytes c + consumed) c) in *.
  destruct (avail_consume input consumed Hi ltac:(lia)) as (Hi' & Ha' & _).
  set (rest := zhs_buf_consume_ input consumed) in *.
  assert (c_lim c2 = c_lim c) as Hl2 by done. assert (ZHS_AVAIL rest ≤ ZHS_AVAIL input) by lia.
  bcase.
  { do 3 eexists. split; [done|]. split; [|done]. unfold outcome, conn_state. cbn. rewrite Hs.
    split_and!; try done. right. right. right. left. split_and!; try done; lia. }
  destruct (is_ows _); [by apply Hfail|].
  pose proof (memchr_spec 58 line) as Hm. destruct (memchr 58 line) as [nlen|]; [|by apply Hfail].
  destruct (zhs_token_ok_ (ztake nlen line)) eqn:Et; cbn [negb]; [|by apply Hfail].
  set (value := trim_end (trim_start (zdrop (nlen + 1) line))).
  destruct (zhs_value_ok_ value) eqn:Ev; cbn [negb]; [|by apply Hfail].
  destruct (zhs_hdrs_add_ (headers (c_req c2)) (ztake nlen line) value (c_lim c2) true) as [a hs] eqn:Ea.
  assert (zlen (ztake nlen line) + zlen value < 2 ^ 63) as Hlen.
  { pose proof (trim_length (zdrop (nlen + 1) line)) as Htl. fold value in Htl. zlen_simpl. zlen_simpl_in Htl. lia. }
  destruct (hdrs_add_wf (c_lim c) (headers (c_req c)) (ztake nlen line) value true a hs) as (Hw & Hok & Hno);
    [done|unfold SIZE_MAX; lia|exact Hlen|exact Ea|].
  set (c3 := set_req (req_set_headers hs (c_req c2)) c2).
  assert (Forall hdr_clean (h_v hs)) as Hhc'.
  { destruct (decide (a = ZCIO_OK)) as [E|E]; [rewrite (Hok E)|by rewrite (Hno E)].
    apply Forall_app. split; [done|]. constructor; [|done]. split; cbn [hdr_name hdr_value].
    - by apply token_lower.
    - by rewrite value_ok_cstr. }
  assert (conn_base c3) as Hb3.
  { unfold conn_base in *. cbn in *. tauto. }
  bcase; [by apply Hfail|]. bcase.
  { do 3 eexists. split; [done|].
    assert (a = ZCIO_ERR_NOMEM) as ->.
    { pose proof (hdrs_add_code (headers (c_req c2)) (ztake nlen line) value (c_lim c2) true) as Hcode.
      rewrite Ea in Hcode. cbn in Hcode. tauto. }
    split; [|done]. unfold outcome. split_and!; try done. by left. }
  destruct (IH c3 rest Hb3) as (r & c' & i' & E & Ho & Hr); [|done|done|lia|].
  { unfold conn_state, c3. cbn. rewrite Hs. done. }
  exists r, c', i'. split; [done|]. split; [|done].
  destruct Ho as (O1 & O2 & O3 & O4 & O5). unfold outcome. split; [done|]. split; [lia|].
  split; [done|]. split; [done|]. destruct O5 as [?|[?|[?|[(-> & ? & ? & ?)|?]]]]; auto.
  right. right. right. left. split_and!; try done. lia.
Qed.

(** ** Framing *)

Lemma find_filter {A} (f : A → bool) l : find f l = head (List.filter f l).
Proof. induction l as [|x l IH]; [done|]. cbn. by destruct (f x). Qed.

Lemma get_filter r name :
  get r name = hdr_value <$> head (List.filter (λ h, bool_decide (hdr_name h = map tolower (B name)))
                                    (h_v (headers r))).
Proof.
  unfold get, zhs_hdrs_get_. rewrite find_filter. do 2 f_equal. apply filter_ext. intros h.
  apply hdr_name_eq_spec.
Qed.

Lemma count_filter r name :
  count r name = zlen (List.filter (λ h, bool_decide (hdr_name h = map tolower (B name)))
                         (h_v (headers r))).
Proof.
  unfold count, zhs_hdrs_count_. do 2 f_equal. apply filter_ext. intros h. apply hdr_name_eq_spec.
Qed.

Lemma cl_digits_nonneg s v n : 0 ≤ v → cl_digits s v = (0, n) → 0 ≤ n.
Proof.
  revert v. induction s as [|c s IH]; cbn; intros v Hv; [congruence|]. bcase; [done|]. bcase; [done|].
  unfold h1_is_digit in *. apply IH. btest. lia.
Qed.

Lemma frame_cl_spec c n :
  h1_frame_content_length c = (0, n) →
  count (c_req c) "content-length" = 1 ∧ 0 ≤ n ≤ max_body_bytes (c_lim c) ∧
  ∃ v, get (c_req c) "content-length" = Some v ∧ v ≠ [] ∧ cl_digits v 0 = (0, n).
Proof.
  unfold h1_frame_content_length. rewrite count_filter, get_filter.
  change (map tolower (B "content-length")) with (B "content-length").
  destruct (List.filter _ _) as [|h [|h' l]]; try done. bcase; [done|].
  destruct (cl_digits _ 0) as [e v] eqn:Ed. bcase; [intros [= -> _]; done|]. subst e.
  bcase; [done|]. intros [= <-]. split; [done|]. split; [apply cl_digits_nonneg in Ed; lia|].
  exists (hdr_value h). split; [done|]. split; [|done]. intros E. by rewrite E in Heqb.
Qed.

Lemma frame_cl_code c e n :
  h1_frame_content_length c = (e, n) → e = 0 ∨ e = 400 ∨ e = 413.
Proof.
  assert (∀ s v e n, cl_digits s v = (e, n) → e = 0 ∨ e = 400 ∨ e = 413) as Hd.
  { induction s as [|ch s IH]; cbn; intros v e' n'; [intros [= <- _]; auto|].
    bcase; [intros [= <- _]; auto|]. bcase; [intros [= <- _]; auto|]. apply IH. }
  unfold h1_frame_content_length. destruct (List.filter _ _) as [|h [|h' l]];
    try (intros [= <- _]; auto). bcase; [intros [= <- _]; auto|].
  destruct (cl_digits _ 0) as [e' v] eqn:Ed. apply Hd in Ed.
  repeat (bcase; [intros [= <- _]; auto|]). intros [= <- _]; auto.
Qed.

Lemma head_done_spec c :
  conn_base c → c_state c = H1_HEADERS → line_good (c_req c) → b_len (body (c_req c)) = 0 →
  ∃ r c', head_done c = (r, c') ∧ conn_base c' ∧ c_lim c' = c_lim c ∧
    (r = ZCIO_ERR_NOMEM ∨ (r = P_CLOSE ∧ c_state c' = H1_DEAD) ∨
     (r = P_NEXT ∧ conn_state c' ∧ (c_state c' = H1_BODY_CL ∨ c_state c' = H1_CHUNK_SIZE))).
Proof.
  intros Hb Hs Hg Hbl. unfold head_done.
  assert (∀ c2 status, conn_base c2 → c_lim c2 = c_lim c → ∃ r c', h1_error c2 status = (r, c') ∧
    conn_base c' ∧ c_lim c' = c_lim c ∧
    (r = ZCIO_ERR_NOMEM ∨ (r = P_CLOSE ∧ c_state c' = H1_DEAD) ∨
     (r = P_NEXT ∧ conn_state c' ∧ (c_state c' = H1_BODY_CL ∨ c_state c' = H1_CHUNK_SIZE)))) as Herr.
  { intros c2 st Hb2 Hl2. destruct (error_spec c2 st Hb2) as (r & c' & E & G1 & G2 & G3).
    exists r, c'. split; [done|]. split; [done|]. split; [congruence|]. tauto. }
  change (zhs_hdrs_count_ (headers (c_req c)) (B "host")) with (count (c_req c) "host").
  change (zhs_hdrs_get_ (headers (c_req c)) (B "transfer-encoding")) with (get (c_req c) "transfer-encoding").
  change (zhs_hdrs_count_ (headers (c_req c)) (B "transfer-encoding"))
    with (count (c_req c) "transfer-encoding").
  change (zhs_hdrs_count_ (headers (c_req c)) (B "content-length")) with (count (c_req c) "content-length").
  destruct (negb (c_is_http10 c) && _) eqn:E1; [by apply Herr|].
  destruct (c_is_http10 c && (1 <? _)) eqn:E2; [by apply Herr|].
  assert (host_good (c_is_http10 c) (c_req c)) as Hhost.
  { unfold host_good. destruct (c_is_http10 c); cbn [andb negb] in *; btest; lia. }
  clear E1 E2. generalize (if 1 <=? count (c_req c) "host" then
    zcio_strdup_ (Some (default (default [] (zhs_hdrs_get_ (headers (c_req c)) (B "host")))
      (strrchr_after 64 (default [] (zhs_hdrs_get_ (headers (c_req c)) (B "host")))))) else None).
  intros auth. set (c1 := set_req (req_set_authority auth (c_req c)) c).
  assert (conn_base c1) as Hb1 by (unfold conn_base in *; cbn in *; tauto).
  destruct ((1 <=? _) && _).
  { do 2 eexists. split; [done|]. split; [done|]. split; [done|]. by left. }
  destruct (negb (Z.land _ _ =? 0)).
  { destruct (redirect_spec c1 Hb1) as (r & c' & E & G1 & G2 & G3). exists r, c'. ands; tauto. }
  destruct (bool_decide (is_Some _) && negb (count (c_req c) "content-length" =? 0)) eqn:Etc;
    [by apply Herr|].
  destruct (bool_decide (is_Some _) && c_is_http10 c1) eqn:Et10; [by apply Herr|].
  pose proof Hb1 as (Hlim & _). unfold lims_ok in Hlim.
  pose proof (base_head c1 0 Hb1 ltac:(lia)) as Hb2. set (c2 := set_head_bytes 0 c1) in *.
  assert (∀ c3, conn_base c3 → c_lim c3 = c_lim c → conn_state c3 →
    (c_state c3 = H1_BODY_CL ∨ c_state c3 = H1_CHUNK_SIZE) → ∀ ka, ∃ r c',
    (P_NEXT, set_keep_alive ka c3) = (r, c') ∧ conn_base c' ∧ c_lim c' = c_lim c ∧
    (r = ZCIO_ERR_NOMEM ∨ (r = P_CLOSE ∧ c_state c' = H1_DEAD) ∨
     (r = P_NEXT ∧ conn_state c' ∧ (c_state c' = H1_BODY_CL ∨ c_state c' = H1_CHUNK_SIZE)))) as Hnext.
  { intros c3 Hb3 Hl3 Hst3 Hs3 ka. do 2 eexists. split; [done|]. split; [exact Hb3|]. split; [exact Hl3|].
    right. right. split; [done|]. split; [exact Hst3|exact Hs3]. }
  destruct (get (c_req c) "transfer-encoding") as [te|] eqn:Ete; cbv beta iota zeta.
  - destruct (_ || _) eqn:Ech; [by apply Herr|]. btest.
    rewrite bool_decide_true in Etc, Et10 by eauto. cbn [andb] in *. btest.
    apply Hnext; [exact Hb2|done| |by right]. unfold conn_state. cbn. split; [done|]. split; [done|].
    split; [|done]. cbn in Et10. eapply frame_chunked; eauto.
  - destruct (count (c_req c) "content-length" =? 0) eqn:Ecl; btest; cbn [negb].
    + apply Hnext; [exact Hb2|done| |by left]. unfold conn_state. cbn. rewrite Hbl.
      split; [done|]. split; [done|]. split; [lia|]. split; [cbn in Hlim; lia|]. by apply frame_none.
    + destruct (h1_frame_content_length c2) as [e cl] eqn:Ef. destruct (e =? 0) eqn:Ee; btest; cbn [negb].
      * subst e. apply frame_cl_spec in Ef as (F1 & F2 & v & F3 & F4 & F5). cbn in F2.
        apply Hnext; [exact Hb2|done| |by left]. unfold conn_state. cbn. rewrite Hbl.
        split; [done|]. split; [done|]. split; [lia|]. split; [lia|]. by apply (frame_cl _ _ v).
      * by apply Herr.
Qed.

Lemma headers_outcome c input :
  conn_base c → conn_state c → c_state c = H1_HEADERS → buf_wf input →
  ∃ r c' input', h1_headers c input = Ok (r, c', input') ∧ outcome c input r c' input' ∧
    r ≠ P_COMPLETE ∧ (r = P_NEXT → c_state c' = H1_BODY_CL ∨ c_state c' = H1_CHUNK_SIZE).
Proof.
  intros Hb Hst Hs Hi. unfold h1_headers.
  destruct (header_lines_outcome (S (Z.to_nat (ZHS_AVAIL input))) c input Hb Hst Hs Hi ltac:(lia))
    as (r & c1 & i1 & -> & Ho & Hr & Hn). cbn [mbind exec_bind].
  destruct Ho as (O1 & O2 & O3 & O4 & O5). destruct (r =? P_NEXT) eqn:Er; btest; cbn [negb].
  - subst r. specialize (Hn eq_refl).
    destruct O5 as [E|[[E _]|[[E _]|[(_ & Hst1 & Hlt & _)|[E _]]]]]; try discriminate E.
    unfold conn_state in Hst1. rewrite Hn in Hst1. destruct Hst1 as [Hg Hbl].
    destruct (head_done_spec c1 O3 Hn Hg Hbl) as (r & c2 & -> & Hb2 & Hl2 & Hr2).
    do 3 eexists. split; [done|]. unfold outcome.
    destruct Hr2 as [-> | [[-> Hd]|(-> & Hst2 & Hs2)]].
    + split_and!; try done; [congruence|by left].
    + split_and!; try done; [congruence|by right; left].
    + split; [|done]. split_and!; try done; [congruence|]. right. right. right. left.
      split_and!; try done. destruct Hs2 as [-> | ->]; done.
  - do 3 eexists. split; [done|]. split; [|done]. unfold outcome. tauto.
Qed.

(** ** Body *)

Lemma append_cases b p :
  buf_wf b → ∃ r b', zhs_buf_append_ b p = (r, b') ∧ buf_wf b' ∧
    ((r = ZCIO_OK ∧ b_len b' = b_len b + zlen p ∧ buf_contents b' = buf_contents b ++ p ∧
      b_off b' = b_off b) ∨ (r = ZCIO_ERR_NOMEM ∧ b' = b)) ∧
    ((∀ n, alloc_ok n = true) → b_len b + zlen p ≤ SIZE_MAX → r = ZCIO_OK).
Proof.
  intros Hwf. destruct (emits_put p b Hwf) as (r & b' & E & Hwf' & Hr & Ha).
  exists r, b'. split; [exact E|]. split; [done|]. split; [|done].
  destruct Hr as [(-> & Hc & Hl & Ho)|(-> & _)]; [by left; ands|right].
  split; [done|]. unfold put, zhs_buf_append_ in E. destruct (zlen p =? 0); [by injection E|].
  destruct (buf_reserve_spec b (zlen p) Hwf) as (r2 & b2 & E2 & _ & _ & _ & _ & _ & Hr2 & _); [lia|].
  rewrite E2 in E. destruct Hr2 as [[-> _]|[-> ->]]; cbn in E; [discriminate E|by injection E].
Qed.

(** Append to the body what the framing still allows. *)
Lemma append_body_spec c p :
  conn_base c → b_len (body (c_req c)) + zlen p ≤ max_body_bytes (c_lim c) →
  ∃ e b', h1_append_body c p = (e, set_req (req_set_body b' (c_req c)) c) ∧ buf_wf b' ∧
    conn_base (set_req (req_set_body b' (c_req c)) c) ∧
    ((e = 0 ∧ b_len b' = b_len (body (c_req c)) + zlen p ∧
      buf_contents b' = buf_contents (body (c_req c)) ++ p) ∨
     (e = ZCIO_ERR_NOMEM ∧ b' = body (c_req c))) ∧
    ((∀ n, alloc_ok n = true) → e = 0).
Proof.
  intros Hb Hlen. unfold h1_append_body. pose proof Hb as (Hlim & _ & Hbw & _ & _ & _ & Hbl).
  unfold lims_ok in Hlim.
  destruct (append_cases (body (c_req c)) p Hbw) as (r & b' & -> & Hwf & Hr & Ha).
  assert (b_len b' ≤ max_body_bytes (c_lim c) ∧ 0 ≤ b_len b') as Hle.
  { destruct Hr as [(_ & Hl & _)|[_ ->]]; lia. }
  do 2 eexists. split; [done|]. split; [done|]. split.
  { unfold conn_base in *. cbn in *. tauto. }
  split.
  - destruct Hr as [(-> & Hl & Hc & _)|[-> ->]]; [by left|by right].
  - intros Hall. by rewrite Ha by (done || (unfold SIZE_MAX; lia)).
Qed.

Lemma body_frame r b http10 total :
  framing http10 r total → framing http10 (req_set_body b r) total.
Proof. intros [?|?|?]; [by apply frame_none|by eapply frame_cl|by eapply frame_chunked]. Qed.

Lemma body_cl_outcome c input :
  conn_base c → conn_state c → c_state c = H1_BODY_CL → buf_wf input →
  ∃ r c' input', h1_body_cl c input = Ok (r, c', input') ∧ outcome c input r c' input' ∧ r ≠ P_NEXT.
Proof.
  intros Hb Hst Hs Hi. pose proof Hst as Hst0. unfold conn_state in Hst. rewrite Hs in Hst.
  destruct Hst as (Hg & Hh & Hcl & Hsum & Hf). pose proof Hb as (_ & _ & _ & _ & Hhw & Hhc & Hbl).
  unfold h1_body_cl. bcase.
  { do 3 eexists. split; [done|]. split; [|done]. unfold outcome. ands. right. right. right. right.
    split; [done|]. split; [|done]. unfold req_good. split_and!; try done; [lia|]. eexists. split; [exact Hf|].
    intros n [= <-]. lia. }
  bcase.
  { do 3 eexists. split; [done|]. split; [|done]. unfold outcome. ands. right. right. left. ands. }
  pose proof (zlen_contents input Hi) as Hz.
  set (take := if ZHS_AVAIL input <? c_cl_remaining c then _ else _).
  assert (0 < take ≤ ZHS_AVAIL input ∧ take ≤ c_cl_remaining c) as Ht by (unfold take; bcase; lia).
  assert (zlen (ztake take (buf_contents input)) = take) as Hzt by zl.
  destruct (append_body_spec c (ztake take (buf_contents input)) Hb) as (e & b' & -> & Hbw & Hb' & He & _);
    [lia|]. set (c1 := set_req _ c) in *.
  destruct He as [(-> & Hl & _)|(-> & ->)].
  - change (negb (0 =? 0)) with false. cbv iota.
    destruct (avail_consume input take Hi ltac:(lia)) as (Hi' & Ha' & _).
    do 3 eexists. split; [done|]. unfold outcome. cbn [c_cl_remaining set_cl_remaining c1 set_req].
    destruct (c_cl_remaining c - take =? 0) eqn:E; btest; (split; [|done]).
    + assert (framing (c_is_http10 c) (req_set_body b' (c_req c)) (Some (b_len b'))) as Hf'.
      { apply body_frame. rewrite Hl, Hzt. by replace (b_len (body (c_req c)) + take)
          with (b_len (body (c_req c)) + c_cl_remaining c) by lia. }
      split_and!; try done; [lia|]. right. right. right. right. split; [done|]. split.
      * unfold req_good. cbn. split_and!; try done; [lia|]. exists (Some (b_len b')). split; [exact Hf'|by intros n [= <-]].
      * unfold conn_state. cbn. rewrite Hs, E. split; [done|]. split; [done|]. split; [lia|]. split; [lia|].
        by rewrite Z.add_0_r.
    + split_and!; try done; [lia|]. right. right. left. split; [done|]. unfold conn_state. cbn. rewrite Hs.
      split; [done|]. split; [done|]. split; [lia|]. rewrite Hl, Hzt.
      split; [lia|]. apply body_frame. by replace (b_len (body (c_req c)) + take + (c_cl_remaining c - take))
        with (b_len (body (c_req c)) + c_cl_remaining c) by lia.
  - do 3 eexists. split; [done|]. split; [|done]. unfold outcome. split_and!; try done. by left.
Qed.

(** ** Chunked body *)

Definition chunk_rank (s : h1_state) : Z := match s with H1_CHUNK_DATA => 1 | _ => 0 end.

Definition in_chunks (c : zh1_conn) : Prop :=
  conn_base c ∧ conn_state c ∧
  (c_state c = H1_CHUNK_SIZE ∨ c_state c = H1_CHUNK_DATA ∨ c_state c = H1_CHUNK_CRLF ∨
   c_state c = H1_TRAILER).

Definition turn_ok (c : zh1_conn) (input : zhs_buf) (t : turn) : Prop :=
  match t with
  | Return r c' input' => outcome c input r c' input' ∧ r ≠ P_NEXT
  | Again c' input' =>
      in_chunks c' ∧ c_lim c' = c_lim c ∧ buf_wf input' ∧ ZHS_AVAIL input' ≤ ZHS_AVAIL input ∧
      3 * ZHS_AVAIL input' + chunk_rank (c_state c') < 3 * ZHS_AVAIL input + chunk_rank (c_state c)
  end.

Lemma stop_ok c c1 input input1 status :
  conn_base c1 → c_lim c1 = c_lim c → buf_wf input1 → ZHS_AVAIL input1 ≤ ZHS_AVAIL input →
  turn_ok c input (stop c1 input1 status).
Proof.
  intros Hb Hl Hi Ha. unfold stop. destruct (error_spec c1 status Hb) as (r & c' & -> & Hb' & Hl' & Hr).
  cbn. split; [|by destruct Hr as [-> | [-> _]]]. unfold outcome. split_and!; try done; [congruence|tauto].
Qed.

Lemma more_ok c input : in_chunks c → buf_wf input → turn_ok c input (Return P_MORE c input).
Proof.
  intros (Hb & Hst & _) Hi. cbn. split; [|done]. unfold outcome. ands. right. right. left. ands.
Qed.

Lemma chunk_size_nonneg line size any s a e :
  0 ≤ size → chunk_size_loop line size any = Some (s, a, e) → 0 ≤ s.
Proof.
  revert size any. induction line as [|ch line IH]; cbn; intros size any Hs; [congruence|].
  bcase; [congruence|]. bcase; [done|]. apply IH. pose proof (wrap_bound 64 (Z.lor (Z.shiftl size 4) (h1_hex ch))).
  lia.
Qed.

(** The framing facts shared by the chunk states. *)
Lemma chunk_facts c :
  in_chunks c → line_good (c_req c) ∧ host_good (c_is_http10 c) (c_req c) ∧
    framing (c_is_http10 c) (c_req c) None ∧
    (c_state c = H1_CHUNK_DATA → 0 ≤ c_chunk_remaining c ∧
       b_len (body (c_req c)) + c_chunk_remaining c ≤ max_body_bytes (c_lim c)).
Proof.
  intros (_ & Hst & Hs). unfold conn_state in Hst.
  destruct Hs as [E|[E|[E|E]]]; rewrite E in *; tauto.
Qed.

Lemma again_ok c input c' i' :
  conn_base c' → c_lim c' = c_lim c → line_good (c_req c') →
  host_good (c_is_http10 c') (c_req c') → framing (c_is_http10 c') (c_req c') None →
  (c_state c' = H1_CHUNK_SIZE ∨ c_state c' = H1_CHUNK_DATA ∨ c_state c' = H1_CHUNK_CRLF ∨
   c_state c' = H1_TRAILER) →
  (c_state c' = H1_CHUNK_DATA → 0 ≤ c_chunk_remaining c' ∧
     b_len (body (c_req c')) + c_chunk_remaining c' ≤ max_body_bytes (c_lim c')) →
  buf_wf i' → ZHS_AVAIL i' ≤ ZHS_AVAIL input →
  3 * ZHS_AVAIL i' + chunk_rank (c_state c') < 3 * ZHS_AVAIL input + chunk_rank (c_state c) →
  turn_ok c input (Again c' i').
Proof.
  intros Hb Hl Hg Hh Hf Hs Hd Hi Ha Hm. cbn [turn_ok]. split; [|done]. split; [done|]. split; [|done].
  unfold conn_state. destruct Hs as [E|[E|[E|E]]]; rewrite E in *; tauto.
Qed.

Lemma chunk_turn_ok c input :
  in_chunks c → buf_wf input → turn_ok c input (chunk_turn c input).
Proof.
  intros Hc Hi. pose proof (chunk_facts c Hc) as (Hg & Hh & Hf & Hd). pose proof Hc as (Hb & Hst & Hs).
  pose proof (find_line_spec input Hi) as Hline. pose proof (zlen_contents input Hi) as Hz.
  assert (∀ i2 status, buf_wf i2 → ZHS_AVAIL i2 ≤ ZHS_AVAIL input → turn_ok c input (stop c i2 status))
    as Hstop by (intros; by apply stop_ok).
  pose proof Hb as (Hlim & _ & _ & Hhb & Hhw & Hhc & Hbl). unfold lims_ok in Hlim.
  unfold chunk_turn. destruct Hs as [E|[E|[E|E]]]; rewrite E.
  - unfold chunk_size_turn. destruct (h1_find_line input) as [| |line consumed].
    { bcase; [by apply Hstop|by apply more_ok]. }
    { by apply Hstop. }
    destruct Hline as (Hcon & Hav & _ & _).
    destruct (avail_consume input consumed Hi ltac:(lia)) as (Hi' & Ha' & _).
    set (rest := zhs_buf_consume_ input consumed) in *. assert (ZHS_AVAIL rest ≤ ZHS_AVAIL input) by lia.
    bcase; [by apply Hstop|]. destruct (chunk_size line) as [[[size any] ext]|] eqn:Es; [|by apply Hstop].
    destruct (_ || _); [by apply Hstop|]. apply chunk_size_nonneg in Es; [|lia].
    bcase.
    { apply again_ok; try done; cbn; rewrite ?E; cbn; auto; lia. }
    rewrite wrap_small by lia. bcase; [by apply Hstop|].
    apply again_ok; try done; cbn; rewrite ?E; cbn; auto; lia.
  - unfold chunk_data_turn. specialize (Hd E). bcase.
    2:{ apply again_ok; try done; cbn; rewrite ?E; cbn; auto; lia. }
    bcase; [by apply more_ok|].
    set (take := if ZHS_AVAIL input <? c_chunk_remaining c then _ else _).
    assert (0 < take ≤ ZHS_AVAIL input ∧ take ≤ c_chunk_remaining c) as Ht by (unfold take; bcase; lia).
    assert (zlen (ztake take (buf_contents input)) = take) as Hzt by zl.
    destruct (append_body_spec c (ztake take (buf_contents input)) Hb) as (e & b' & -> & Hbw & Hb' & He & _);
      [lia|]. set (c1 := set_req _ c) in *.
    destruct (avail_consume input take Hi ltac:(lia)) as (Hi' & Ha' & _).
    destruct He as [(-> & Hl & _)|(-> & ->)].
    + change (negb (0 =? 0)) with false. cbv iota. cbn [c_chunk_remaining set_chunk_remaining c1 set_req].
      bcase.
      * cbn [turn_ok]. split; [|done]. unfold outcome. split; [done|]. split; [lia|]. split; [exact Hb'|].
        split; [done|]. right. right. left. split; [done|]. unfold conn_state. cbn. rewrite E.
        split; [done|]. split; [done|]. split; [by apply body_frame|]. intros _. lia.
      * apply again_ok; try done; cbn; rewrite ?E; cbn; auto; try lia. by apply body_frame.
    + cbn [turn_ok]. split; [|done]. unfold outcome. split; [done|]. split; [lia|]. split; [exact Hb'|].
      split; [done|]. by left.
  - unfold chunk_crlf_turn. bcase; [by apply more_ok|]. case_bool_decide; [|by apply Hstop].
    destruct (avail_consume input 2 Hi ltac:(lia)) as (Hi' & Ha' & _).
    apply again_ok; try done; cbn; rewrite ?E; cbn; auto; lia.
  - unfold trailer_turn. destruct (h1_find_line input) as [| |line consumed].
    { bcase; [by apply Hstop|by apply more_ok]. }
    { by apply Hstop. }
    destruct Hline as (Hcon & Hav & _ & _).
    destruct (avail_consume input consumed Hi ltac:(lia)) as (Hi' & Ha' & _).
    destruct (_ <? consumed) eqn:Ebud; [by apply Hstop|].
    pose proof (head_budget c consumed Hb ltac:(lia) Ebud) as Hb2.
    set (c2 := set_head_bytes (c_head_bytes c + consumed) c) in *. bcase.
    + cbn [turn_ok]. split; [|done]. unfold outcome. split; [done|]. split; [lia|]. split; [exact Hb2|].
      split; [done|]. right. right. right. right. split; [done|]. split.
      * unfold req_good. cbn. do 4 (split; [done|]). split; [lia|]. by exists None.
      * unfold conn_state. cbn. by rewrite E.
    + apply again_ok; try done; cbn; rewrite ?E; cbn; auto; lia.
Qed.

Lemma chunk_loop_outcome fuel c input :
  in_chunks c → buf_wf input → 3 * ZHS_AVAIL input + chunk_rank (c_state c) < Z.of_nat fuel →
  ∃ r c' input', chunk_loop fuel c input = Ok (r, c', input') ∧ outcome c input r c' input' ∧ r ≠ P_NEXT.
Proof.
  revert c input. induction fuel as [|fuel IH]; intros c input Hc Hi Hf.
  { pose proof (zlen_contents input Hi). destruct (c_state c); cbn in Hf; lia. }
  cbn [chunk_loop]. pose proof (chunk_turn_ok c input Hc Hi) as Ht.
  destruct (chunk_turn c input) as [c1 i1|r c1 i1].
  - destruct Ht as (T1 & T2 & T3 & T4 & T5).
    destruct (IH c1 i1 T1 T3 ltac:(lia)) as (r & c' & i' & -> & (O1 & O2 & O3 & O4 & O5) & Hr).
    do 3 eexists. split; [done|]. split; [|done]. unfold outcome. split; [done|]. split; [lia|].
    split; [done|]. split; [congruence|]. tauto.
  - destruct Ht as [Ho Hr]. by do 3 eexists.
Qed.

(** ** Dispatch *)

Lemma some_emits_respond c status hdrs bd n :
  buf_wf (c_out c) → ∃ r out ca, h1_respond c status hdrs bd n = (r, set_close_after ca (set_out out c)) ∧
    buf_wf out ∧ (r = ZCIO_OK ∨ r = ZCIO_ERR_NOMEM).
Proof.
  intros Hwf. unfold h1_respond. set (close_conn := _ || _). clearbody close_conn.
  set (suppress := _ || _). clearbody suppress.
  assert (∃ x, Emits (if negb (bodiless status)
      then put (ztake 47 (B "content-length: " ++ dec n ++ CRLF)) else emit_ok) x) as [x1 Hx1]
    by (destruct (negb _); eexists; apply _).
  assert (∃ x, Emits (match bd with
     | Some b => if negb suppress && negb (n =? 0) then put (ztake n b) else emit_ok
     | None => emit_ok end) x) as [x2 Hx2]
    by (destruct bd; [destruct (_ && _)|]; eexists; apply _).
  edestruct emit_out_spec as (r & out' & -> & Hwf' & Hr & _); [apply _|exact Hwf|].
  assert (∀ c, set_close_after (c_close_after c) c = c) as Hid by (by intros []).
  destruct Hr as [(-> & _)| ->]; cbn.
  - exists ZCIO_OK, out', (if max_out_bytes (c_lim c) <? b_len out' then true
      else if close_conn then true else c_close_after c).
    split; [|auto]. f_equal. destruct close_conn; cbn; bcase; destruct c; done.
  - exists ZCIO_ERR_NOMEM, out', (c_close_after c). split; [done|auto].
Qed.

Context (write_ok : bytes → bool).

(** What dispatching leaves alone of the parser's state. *)
Definition same_parse (c c' : zh1_conn) : Prop :=
  c_lim c' = c_lim c ∧ c_state c' = c_state c ∧ c_is_http10 c' = c_is_http10 c ∧ c_head_bytes c' = c_head_bytes c ∧
  c_cl_remaining c' = c_cl_remaining c ∧ c_chunk_remaining c' = c_chunk_remaining c ∧
  method (c_req c') = method (c_req c) ∧ path (c_req c') = path (c_req c) ∧ query (c_req c') = query (c_req c) ∧
  headers (c_req c') = headers (c_req c) ∧ b_len (body (c_req c')) = b_len (body (c_req c)).

Lemma same_parse_state c c' : same_parse c c' → conn_state c → conn_state c'.
Proof.
  intros (E1 & E2 & E3 & E4 & E5 & E6 & E7 & E8 & E9 & E10 & E11) Hst.
  assert (∀ h t, framing h (c_req c) t → framing h (c_req c') t) as Hf.
  { intros h t. destruct 1; [apply frame_none|eapply frame_cl|eapply frame_chunked]; unfold get, count in *;
      rewrite ?E10; done. }
  unfold conn_state, line_good, host_good, count in *. rewrite E1, E2, E3, E4, E5, E6, E7, E8, E9, E10, E11.
  destruct (c_state c); try tauto; destruct Hst as (G1 & G2 & G3); split_and!; try tauto; intuition auto.
Qed.

Lemma finish_spec c :
  conn_base c →
  ∃ f c', h1_finish write_ok c = (f, c') ∧ conn_base c' ∧ c_lim c' = c_lim c ∧
    (f = FIN_OK ∨ f = FIN_DETACHED ∨ f = FIN_HARD) ∧ same_parse c c'.
Proof.
  intros Hb. unfold h1_finish. pose proof Hb as (Hlim & Ho & Hbw & Hhb & Hhw & Hhc & Hbl).
  cbn [body req_set_stream_id req_set_secure req_set_version].
  destruct (buf_reserve_spec (body (c_req c)) 1 Hbw) as (e & b & -> & Hwf & _ & Hl & _); [lia|].
  set (c1 := set_req _ c). set (P := λ c', conn_base c' ∧ same_parse c c').
  assert (P c1) as Hb1.
  { unfold P, conn_base, same_parse, c1. cbn. rewrite Hl. ands. }
  bcase; [exists FIN_HARD, c1; destruct Hb1; split_and!; try done; auto|].
  assert (P (h1_detect_ws c1)) as Hb2.
  { unfold h1_detect_ws. repeat (bcase; [done|]). unfold P, conn_base, same_parse in *. cbn in *. tauto. }
  destruct (@dispatch_preserves _ _ _ (h1_transport write_ok) P) with (c := h1_detect_ws c1)
    as (rc & c2 & -> & [Hb3 Hs3] & Hrc).
  - intros c0 G. unfold P, conn_base, same_parse in *. cbn in *. tauto.
  - intros c0 st hs bd n [G1 G2]. cbn [respond_fn h1_transport].
    destruct (some_emits_respond c0 st hs bd n) as (r & out & ca & -> & Hout & _); [apply G1|].
    unfold P, conn_base, same_parse in *. cbn in *. tauto.
  - intros g c0 r [G1 G2]. cbn [detach h1_transport]. unfold zhs_detach_for_upgrade_.
    repeat (bcase; [by cbn|]). pose proof G1 as (_ & Ho0 & _).
    bcase; [bcase; [by cbn|]|by cbn]. split; [|exact G2]. cbn.
    apply base_set_out; [done|]. apply avail_consume; [done|lia].
  - done.
  - assert (c_lim c2 = c_lim c) by apply Hs3.
    bcase; [exists FIN_DETACHED, c2; split_and!; try done; auto|]. exists FIN_OK. eexists. split; [done|].
    split; [exact Hb3|]. split; [done|]. split; [auto|exact Hs3].
Qed.

Lemma reset_ok c : conn_base c → conn_base (h1_reset_next c) ∧ conn_state (h1_reset_next c).
Proof.
  intros (Hlim & Ho & _). unfold lims_ok in Hlim. split; [|done].
  unfold conn_base, h1_reset_next. cbn. unfold lims_ok. split; [done|]. split; [done|].
  split; [apply buf_empty_wf|]. split; [lia|]. split; [apply hdrs_empty_wf; lia|].
  split; [constructor|lia].
Qed.

Definition feed_rank (s : h1_state) : Z :=
  match s with H1_REQLINE | H1_HEADERS | H1_DEAD => 0 | _ => 1 end.

Lemma stage_outcome c input :
  conn_base c → conn_state c → c_state c ≠ H1_DEAD → buf_wf input →
  ∃ r c' input', run_stage c input = Ok (r, c', input') ∧ outcome c input r c' input' ∧
    (r = P_COMPLETE → feed_rank (c_state c) = 1).
Proof.
  intros Hb Hst Hd Hi. unfold run_stage. destruct (c_state c) eqn:E; try done.
  - destruct (reqline_outcome c input Hb Hst E Hi) as (r & c' & i' & E1 & Ho & Hn & _). by exists r, c', i'.
  - destruct (headers_outcome c input Hb Hst E Hi) as (r & c' & i' & E1 & Ho & Hn & _). by exists r, c', i'.
  - destruct (body_cl_outcome c input Hb Hst E Hi) as (r & c' & i' & E1 & Ho & _). by exists r, c', i'.
  - destruct (chunk_loop_outcome (3 * Z.to_nat (ZHS_AVAIL input) + 3) c input) as (r & c' & i' & E1 & Ho & _);
      [unfold in_chunks; auto 10|done|rewrite E; cbn; lia|]. by exists r, c', i'.
  - destruct (chunk_loop_outcome (3 * Z.to_nat (ZHS_AVAIL input) + 3) c input) as (r & c' & i' & E1 & Ho & _);
      [unfold in_chunks; auto 10|done|rewrite E; cbn; lia|]. by exists r, c', i'.
  - destruct (chunk_loop_outcome (3 * Z.to_nat (ZHS_AVAIL input) + 3) c input) as (r & c' & i' & E1 & Ho & _);
      [unfold in_chunks; auto 10|done|rewrite E; cbn; lia|]. by exists r, c', i'.
  - destruct (chunk_loop_outcome (3 * Z.to_nat (ZHS_AVAIL input) + 3) c input) as (r & c' & i' & E1 & Ho & _);
      [unfold in_chunks; auto 10|done|rewrite E; cbn; lia|]. by exists r, c', i'.
Qed.
End Stages.

(** ** The whole feed *)

Section Feed.
Context `{Allocator}.

(** A server with another handler. *)
Definition with_handler (S : Server) (h : zcio_http_req → hprog) : Server := {|
  srv_host := @srv_host S; srv_hsts := @srv_hsts S; srv_http3 := @srv_http3 S;
  srv_bound_port := @srv_bound_port S; srv_now := @srv_now S; srv_handler := h |}.

Definition feed_code (r : Z) : Prop :=
  r = ZH1_NEED_MORE ∨ r = ZH1_DISPATCHED ∨ r = ZH1_CLOSE ∨ r = ZH1_DETACHED ∨ r = ZCIO_ERR_NOMEM.

(** One turn of the loop, over any way to finish a request and to go on. *)
Definition feed_turn (fin : zh1_conn → Z * zh1_conn) (k : bool → zh1_conn → zhs_buf → stage)
    (d : bool) (r : Z) (c : zh1_conn) (input : zhs_buf) : stage :=
  if r <? 0 then Ok (r, c, input)
  else if r =? P_MORE then Ok (if d then ZH1_DISPATCHED else ZH1_NEED_MORE, c, input)
  else if r =? P_NEXT then k d c input
  else if r =? P_CLOSE then Ok (ZH1_CLOSE, c, input)
  else if r =? P_COMPLETE then
    let '(f, c) := fin c in
    if f =? FIN_DETACHED then Ok (ZH1_DETACHED, c, input)
    else if f =? FIN_HARD then Ok (ZCIO_ERR_NOMEM, c, input)
    else if c_close_after c then Ok (ZH1_CLOSE, c, input)
    else k true (h1_reset_next c) input
  else Ok (ZCIO_ERR_PROTOCOL, c, input).

Lemma feed_loop_S `{Server} w fuel d c input : c_state c ≠ H1_DEAD →
  feed_loop w (S fuel) d c input =
  '(r, c, input) ← run_stage c input; feed_turn (h1_finish w) (feed_loop w fuel) d r c input.
Proof. intros Hd. cbn [feed_loop]. by rewrite bool_decide_eq_false_2. Qed.

Lemma feed_turn_nomem fin k d c i : feed_turn fin k d ZCIO_ERR_NOMEM c i = Ok (ZCIO_ERR_NOMEM, c, i).
Proof. done. Qed.
Lemma feed_turn_more fin k d c i :
  feed_turn fin k d P_MORE c i = Ok (if d then ZH1_DISPATCHED else ZH1_NEED_MORE, c, i).
Proof. done. Qed.
Lemma feed_turn_next fin k d c i : feed_turn fin k d P_NEXT c i = k d c i.
Proof. done. Qed.
Lemma feed_turn_close fin k d c i : feed_turn fin k d P_CLOSE c i = Ok (ZH1_CLOSE, c, i).
Proof. done. Qed.
Lemma feed_turn_complete fin k d c i f c' : fin c = (f, c') →
  feed_turn fin k d P_COMPLETE c i =
    if f =? FIN_DETACHED then Ok (ZH1_DETACHED, c', i)
    else if f =? FIN_HARD then Ok (ZCIO_ERR_NOMEM, c', i)
    else if c_close_after c' then Ok (ZH1_CLOSE, c', i)
    else k true (h1_reset_next c') i.
Proof. unfold feed_turn. by intros ->. Qed.

Lemma feed_loop_outcome `{Server} w fuel d c input :
  conn_base c → conn_state c → buf_wf input →
  3 * ZHS_AVAIL input + feed_rank (c_state c) < Z.of_nat fuel →
  ∃ r c' input', feed_loop w fuel d c input = Ok (r, c', input') ∧ buf_wf input' ∧
    ZHS_AVAIL input' ≤ ZHS_AVAIL input ∧ conn_base c' ∧ c_lim c' = c_lim c ∧ feed_code r ∧
    (r ≠ ZCIO_ERR_NOMEM → conn_state c').
Proof.
  unfold feed_code. revert d c input. induction fuel as [|fuel IH]; intros d c input Hb Hst Hi Hf.
  { pose proof (zlen_contents input Hi). destruct (c_state c); cbn in Hf; lia. }
  destruct (decide (c_state c = H1_DEAD)) as [Hd|Hd].
  { cbn [feed_loop]. rewrite bool_decide_eq_true_2 by done. do 3 eexists. split; [done|]. do 4 (split; [done|]). by split; [auto|]. }
  rewrite feed_loop_S by done. destruct (stage_outcome c input Hb Hst Hd Hi) as (r & c1 & i1 & -> & (O1 & O2 & O3 & O4 & O5) & Hrk).
  cbn [mbind exec_bind]. destruct O5 as [-> | [[-> Hs]|[[-> Hs]|[(-> & Hs & Hlt & Hne)|(-> & Hg & Hs)]]]].
  - do 3 eexists. split; [done|]. do 4 (split; [done|]). by split; [auto 10|].
  - do 3 eexists. split; [done|]. do 4 (split; [done|]). split; [auto|]. intros _. unfold conn_state. by rewrite Hs.
  - do 3 eexists. split; [done|]. do 4 (split; [done|]). split; [destruct d; auto|done].
  - rewrite feed_turn_next.
    destruct (IH d c1 i1 O3 Hs O1) as (r & c2 & i2 & -> & R1 & R2 & R3 & R4 & R5 & R6).
    { assert (0 ≤ feed_rank (c_state c) ∧ feed_rank (c_state c1) ≤ 1) by
        (split; [destruct (c_state c)|destruct (c_state c1)]; cbn; lia). lia. }
    do 3 eexists. split; [done|]. split; [done|]. split; [lia|]. split; [done|]. split; [congruence|].
    by split.
  - specialize (Hrk eq_refl).
    destruct (finish_spec w c1 O3) as (f & c2 & Ef & F1 & F2 & F3 & F5). erewrite feed_turn_complete by exact Ef.
    assert (c_lim c2 = c_lim c) as F4 by congruence. apply same_parse_state in F5; [|done].
    destruct F3 as [-> | [-> | ->]]; cbn.
    + bcase.
      { do 3 eexists. split; [done|]. do 4 (split; [done|]). by split; [auto|]. }
      destruct (reset_ok c2 F1) as [G1 G2].
      destruct (IH true (h1_reset_next c2) i1 G1 G2 O1) as (r & c3 & i3 & -> & R1 & R2 & R3 & R4 & R5 & R6).
      { cbn. lia. }
      do 3 eexists. split; [done|]. split; [done|]. split; [lia|]. split; [done|].
      split; [rewrite R4; exact F4|]. by split.
    + do 3 eexists. split; [done|]. do 4 (split; [done|]). by split; [auto|].
    + do 3 eexists. split; [done|]. do 4 (split; [done|]). by split; [auto 10|].
Qed.

Lemma req_good_finish lim http10 r b s ws :
  req_good lim http10 r → b_len b = b_len (body r) →
  req_good lim http10 (req_set_ws_upgrade ws (req_set_body b
    (req_set_stream_id 0 (req_set_secure s (req_set_version 1 r))))).
Proof.
  intros (G1 & G2 & G3 & G4 & G5 & total & G6 & G7) Hl. unfold req_good. cbn.
  do 4 (split; [done|]). rewrite Hl. split; [done|]. exists total. split; [|done].
  destruct G6 as [?|?|?]; [by apply frame_none|by eapply frame_cl|by eapply frame_chunked].
Qed.

Lemma finish_agree S h1 h2 w c :
  buf_wf (body (c_req c)) → req_good (c_lim c) (c_is_http10 c) (c_req c) →
  (∀ http10 r, req_good (c_lim c) http10 r → version r = 1 → h1 r = h2 r) →
  @h1_finish _ (with_handler S h1) w c = @h1_finish _ (with_handler S h2) w c.
Proof.
  intros Hbw Hg Hagree. unfold h1_finish.
  destruct (buf_reserve_spec (body (c_req c)) 1 Hbw) as (e & b & Hres & _ & _ & Hl & _); [lia|].
  cbn [body req_set_stream_id req_set_secure req_set_version]. rewrite Hres.
  destruct (negb (e =? ZCIO_OK)); [done|].
  set (c1 := set_req _ c).
  assert (h1 (c_req (h1_detect_ws c1)) = h2 (c_req (h1_detect_ws c1))) as He.
  { apply (Hagree (c_is_http10 c)); [|unfold h1_detect_ws; repeat (bcase; [done|]); done].
    pose proof (req_good_finish _ _ _ b (negb (Z.land (c_flags c) ZH1_F_SECURE =? 0)) true Hg Hl) as Ht.
    pose proof (req_good_finish _ _ _ b (negb (Z.land (c_flags c) ZH1_F_SECURE =? 0))
      (ws_upgrade (c_req c)) Hg Hl) as Hn.
    assert (∀ r : zcio_http_req, req_set_ws_upgrade (ws_upgrade r) r = r) as Hid by (by intros []).
    assert (req_good (c_lim c) (c_is_http10 c) (c_req c1)) as Hn'.
    { unfold c1. cbn [c_req set_req]. rewrite <- (Hid (req_set_body _ _)). exact Hn. }
    unfold h1_detect_ws. repeat (bcase; [exact Hn'|]). exact Ht. }
  unfold zhs_dispatch_. cbn [get_req h1_transport srv_handler with_handler]. rewrite He. reflexivity.
Qed.
(** Handlers that agree on good requests are interchangeable. *)
Lemma feed_agree S w h1 h2 c input :
  (∀ http10 r, req_good (c_lim c) http10 r → version r = 1 → h1 r = h2 r) →
  conn_base c → conn_state c → buf_wf input →
  @zh1_feed_ _ (with_handler S h1) w c input = @zh1_feed_ _ (with_handler S h2) w c input.
Proof.
  intros Hagree Hb Hst Hi.
  unfold zh1_feed_. generalize (3 * Z.to_nat (ZHS_AVAIL input) + 4)%nat. intros fuel.
  generalize false at 1 2. revert c input Hagree Hb Hst Hi.
  induction fuel as [|fuel IH]; intros c input Hagree Hb Hst Hi d; [done|].
  destruct (decide (c_state c = H1_DEAD)) as [Hd|Hd].
  { cbn [feed_loop]. rewrite !bool_decide_eq_true_2 by done. done. }
  rewrite !feed_loop_S by done.
  destruct (@stage_outcome _ (with_handler S h2) c input Hb Hst Hd Hi)
    as (r & c1 & i1 & E & (O1 & O2 & O3 & O4 & O5) & _).
  change (@run_stage _ (with_handler S h1) c input) with (@run_stage _ (with_handler S h2) c input).
  rewrite E. cbn [mbind exec_bind].
  destruct O5 as [-> | [[-> _]|[[-> _]|[(-> & Hs & _)|(-> & Hg & _)]]]].
  - by rewrite !feed_turn_nomem.
  - by rewrite !feed_turn_close.
  - by rewrite !feed_turn_more.
  - rewrite !feed_turn_next. by apply IH; [rewrite O4|..].
  - destruct (@finish_spec _ (with_handler S h2) w c1 O3) as (f & c2 & E2 & F1 & F2 & F3 & _).
    pose proof (finish_agree S h1 h2 w c1 (proj1 (proj2 (proj2 O3))) Hg) as E1.
    rewrite O4 in E1. specialize (E1 Hagree).
    rewrite E2 in E1. rewrite !(feed_turn_complete _ _ _ _ _ _ _ E1), !(feed_turn_complete _ _ _ _ _ _ _ E2).
    destruct F3 as [-> | [-> | ->]]; cbn; [|done|done].
    destruct (c_close_after c2); [done|]. destruct (reset_ok c2 F1) as [G1 G2].
    apply IH; [|done..]. cbn. by rewrite F2, O4.
Qed.
End Feed.

(** ** Properties *)

(** C4: Feeding any bytes to a well-formed connection terminates with one of
    the documented results, never consumes more than the input holds, keeps
    every buffer, cursor and cap of the connection within its limits, and
    leaves the connection in a consistent parser state, whatever the result,
    unless memory ran out. *)
Theorem zh1_feed_total (a : Allocator) (S : Server) w c input
  (Hb : conn_base c) (Hst : conn_state c) (Hi : buf_wf input) :
  ∃ r c' input', zh1_feed_ w c input = Ok (r, c', input') ∧ feed_code r ∧ buf_wf input' ∧
    ZHS_AVAIL input' ≤ ZHS_AVAIL input ∧ conn_base c' ∧ c_lim c' = c_lim c ∧
    (r ≠ ZCIO_ERR_NOMEM → conn_state c').
Proof.
  unfold zh1_feed_. destruct (feed_loop_outcome w (3 * Z.to_nat (ZHS_AVAIL input) + 4) false c input
    Hb Hst Hi) as (r & c' & i' & E & R); [pose proof (zlen_contents input Hi); destruct (c_state c); cbn; lia|].
  exists r, c', i'. tauto.
Qed.

(** C3: No request smuggling: a handler is only ever run on requests whose
    framing is unambiguous (token method, canonical path, exactly one Host or
    at most one for HTTP/1.0, either no body headers, or exactly one
    Content-Length of digits whose value is the body's length, or exactly one
    Transfer-Encoding "chunked" without Content-Length on HTTP/1.1, lower-case
    token names, control-free values, body within the cap).  Two servers whose
    handlers differ only on other requests are indistinguishable. *)
Theorem h1_no_smuggling (a : Allocator) (S : Server) w h1 h2 c input
  (Hagree : ∀ lim http10 r, req_good lim http10 r → h1 r = h2 r)
  (Hb : conn_base c) (Hst : conn_state c) (Hi : buf_wf input) :
  @zh1_feed_ a (with_handler S h1) w c input = @zh1_feed_ a (with_handler S h2) w c input.
Proof.
  apply feed_agree; [|done..]. intros. by eapply Hagree.
Qed.

(** ** Witnesses *)

Definition ex_server (h : zcio_http_req → hprog) : Server := {|
  srv_host := None; srv_hsts := false; srv_http3 := false; srv_bound_port := 80;
  srv_now := mk_tm 0 6 10 94 8 49 37; srv_handler := h |}.

Definition hello : zcio_http_req → hprog := λ r,
  HRespond 200 [(Some (B "x-path"), path r)] (Some (B "hi")) 2 (λ _, HRet).

Definition ex_conn : zh1_conn :=
  mk_conn ex_limits 0 buf_empty H1_REQLINE req_empty 0 false false false false false 0 false 0 0.

Lemma ex_conn_ok : conn_base ex_conn ∧ conn_state ex_conn.
Proof.
  split; [|vm_compute; auto]. unfold conn_base, lims_ok, hdrs_wf, buf_wf.
  split_and!; try (vm_compute; discriminate); try (vm_compute; reflexivity). constructor.
Qed.

Definition ex_request : bytes :=
  B "POST /a/../b?x HTTP/1.1" ++ CRLF ++ B "Host: u@h" ++ CRLF ++ B "Content-Length: 3" ++ CRLF ++ CRLF ++
  B "abc".

Lemma zh1_feed_total_witness :
  ∃ c' i', @zh1_feed_ always_alloc (ex_server hello) (λ _, true) ex_conn (buf_of ex_request)
    = Ok (ZH1_DISPATCHED, c', i') ∧
    buf_contents (c_out c') =
      B "HTTP/1.1 200 OK" ++ CRLF ++ B "x-path: /b" ++ CRLF ++
      B "date: Sun, 06 Nov 1994 08:49:37 GMT" ++ CRLF ++ B "server: zcio" ++ CRLF ++
      B "content-length: 2" ++ CRLF ++ B "connection: keep-alive" ++ CRLF ++ CRLF ++ B "hi" ∧
    conn_state c'.
Proof.
  destruct (zh1_feed_total always_alloc (ex_server hello) (λ _, true) ex_conn (buf_of ex_request)
    (proj1 ex_conn_ok) (proj2 ex_conn_ok) (buf_of_wf ex_request ltac:(vm_compute; discriminate)))
    as (r & c' & i' & E & _ & _ & _ & _ & _ & Hst).
  exists c', i'. vm_compute in E. injection E as <- <- <-.
  split; [vm_compute; reflexivity|]. split; [vm_compute; reflexivity|]. apply Hst. discriminate.
Defined.

(** A request with both a length and a transfer coding: no handler matters. *)
Definition ex_smuggle : bytes :=
  B "POST / HTTP/1.1" ++ CRLF ++ B "Host: h" ++ CRLF ++ B "Content-Length: 3" ++ CRLF ++
  B "Transfer-Encoding: chunked" ++ CRLF ++ CRLF ++ B "abc".

Lemma h1_no_smuggling_witness :
  @zh1_feed_ always_alloc (with_handler (ex_server hello) hello) (λ _, true) ex_conn (buf_of ex_smuggle) =
  @zh1_feed_ always_alloc (with_handler (ex_server hello)
    (λ r, if path r is Some _ then hello r else HRet)) (λ _, true) ex_conn (buf_of ex_smuggle).
Proof.
  apply (h1_no_smuggling always_alloc (ex_server hello) (λ _, true) hello
    (λ r, if path r is Some _ then hello r else HRet)); [|apply ex_conn_ok|apply ex_conn_ok|].
  - intros lim http10 r ((_ & (p & Hp & _) & _) & _). rewrite Hp. reflexivity.
  - apply buf_of_wf. vm_compute. discriminate.
Defined.

#[export] Instance h1_transport_ok `{Allocator} w :
  @TransportOk zh1_conn (h1_transport w).
Proof.
  constructor.
  - done.
  - intros c s h b n. cbn [respond_fn h1_transport get_req]. unfold h1_respond, emit_out.
    match goal with |- context [?f (c_out c)] => generalize (f (c_out c)) end.
    intros [r out]. destruct (r =? ZCIO_OK); cbn; repeat bcase; reflexivity.
  - intros g c r. cbn. unfold zhs_detach_for_upgrade_. repeat case_match; done.
Qed.

(** A handler that answers twice, the first time with a split header. *)
Definition twice : zcio_http_req → hprog := λ _,
  HRespond 200 [(Some (B "a"), Some [13; 10])] None 0 (λ _,
  HRespond 204 [(Some (B "Content-Length"), Some (B "9"))] None 0 (λ _,
  HRespond 200 [] None 0 (λ _, HRet))).

Lemma zhs_dispatch_one_response_witness :
  ∃ rc c', @zhs_dispatch_ always_alloc (ex_server twice) _
      (@logged _ (@h1_transport always_alloc (λ _, true))) (ex_conn, []) = (rc, c') ∧
    rc = 0 ∧ map fst c'.2 = [204] ∧ Forall response_ok c'.2.
Proof.
  destruct (@zhs_dispatch_one_response always_alloc (ex_server twice) _
    (@h1_transport always_alloc (λ _, true)) _ ex_conn eq_refl)
    as (rc & c' & E & _ & Hok & _).
  exists rc, c'. split; [exact E|]. vm_compute in E. injection E as <- <-.
  split; [reflexivity|]. split; [reflexivity|]. exact Hok.
Defined.

(** A second upgrade in one handler fails: the stream is gone. *)
Definition upgrade_twice : zcio_http_req → hprog := λ _,
  HUpgrade (B "101") (λ ok1, HUpgrade (B "101") (λ ok2,
    HRespond (if ok1 && negb ok2 then 204 else 500) [] None 0 (λ _, HRet))).

Example second_upgrade_refused :
  let c := set_req (req_set_version 1 (c_req ex_conn)) ex_conn in
  let '(rc, c') := @zhs_dispatch_ always_alloc (ex_server upgrade_twice) _
    (@logged _ (@h1_transport always_alloc (λ _, true))) (c, []) in
  rc = 1 ∧ map fst c'.2 = [204].
Proof. vm_compute. split; reflexivity. Qed.
