(* ===== verification/H2.v ===== *)
(** * H2: the HTTP/2 server connection ([src/h2.c])

    Frames, streams, flow control and flood guards of the sans-I/O HTTP/2
    module.  The stream table is a list (the used part of the C vector);
    a [zh2_stream] pointer is the id of its entry, the ids being distinct.
    HPACK decoding is [Hpack], the handler is run through [Respond].  Reads of
    a frame's payload fault outside the payload. *)
From stdpp Require Import base tactics list option strings.
From Stdlib Require Import ZArith Lia.
From S2P Require Import Prelude Types Buf HttpUtil Target Hpack Respond H1.

(** ** Wire constants *)

Definition ZH2_PREFACE : bytes :=
  B "PRI * HTTP/2.0" ++ [13; 10; 13; 10] ++ B "SM" ++ [13; 10; 13; 10].
Definition ZH2_PREFACE_LEN : Z := 24.
Definition ZH2_FRAME_HDR : Z := 9.

Definition ZH2_FT_DATA : Z := 0.
Definition ZH2_FT_HEADERS : Z := 1.
Definition ZH2_FT_PRIORITY : Z := 2.
Definition ZH2_FT_RST_STREAM : Z := 3.
Definition ZH2_FT_SETTINGS : Z := 4.
Definition ZH2_FT_PUSH_PROMISE : Z := 5.
Definition ZH2_FT_PING : Z := 6.
Definition ZH2_FT_GOAWAY : Z := 7.
Definition ZH2_FT_WINDOW_UPDATE : Z := 8.
Definition ZH2_FT_CONTINUATION : Z := 9.

Definition ZH2_FL_END_STREAM : Z := 0x01.
Definition ZH2_FL_ACK : Z := 0x01.
Definition ZH2_FL_END_HEADERS : Z := 0x04.
Definition ZH2_FL_PADDED : Z := 0x08.
Definition ZH2_FL_PRIORITY : Z := 0x20.

Definition ZH2_E_NO_ERROR : Z := 0x0.
Definition ZH2_E_PROTOCOL_ERROR : Z := 0x1.
Definition ZH2_E_FLOW_CONTROL_ERROR : Z := 0x3.
Definition ZH2_E_STREAM_CLOSED : Z := 0x5.
Definition ZH2_E_FRAME_SIZE_ERROR : Z := 0x6.
Definition ZH2_E_REFUSED_STREAM : Z := 0x7.
Definition ZH2_E_COMPRESSION_ERROR : Z := 0x9.
Definition ZH2_E_ENHANCE_YOUR_CALM : Z := 0xb.

Definition ZH2_S_HEADER_TABLE_SIZE : Z := 1.
Definition ZH2_S_ENABLE_PUSH : Z := 2.
Definition ZH2_S_MAX_CONCURRENT_STREAMS : Z := 3.
Definition ZH2_S_INITIAL_WINDOW_SIZE : Z := 4.
Definition ZH2_S_MAX_FRAME_SIZE : Z := 5.
Definition ZH2_S_MAX_HEADER_LIST_SIZE : Z := 6.

Definition ZH2_OUR_MAX_FRAME : Z := 16384.
Definition ZH2_OUR_INITIAL_WINDOW : Z := 65535.
Definition ZH2_CONN_WINDOW : Z := 65535.
Definition ZH2_DEFAULT_INIT_WINDOW : Z := 65535.
Definition ZH2_DEFAULT_MAX_FRAME : Z := 16384.
Definition ZH2_MAX_WINDOW : Z := 0x7fffffff.

Definition ZH2_CONT_MAX : Z := 64.
Definition ZH2_PING_PER_FEED : Z := 128.
Definition ZH2_SETTINGS_PER_FEED : Z := 64.
Definition ZH2_HERR_MALFORMED : Z := 1.

Definition ZH2_OK : Z := 0.
Definition ZH2_CLOSING : Z := 1.

(** ** Structures *)

(** [zh2_stream]; the request is owned by the stream. *)
Record zh2_stream := mk_stream2 {
  st_id : Z;
  st_recv_window : Z;
  st_got_headers : bool;
  st_end_stream_recv : bool;
  st_dispatched : bool;
  st_send_window : Z;
  st_responded : bool;
  st_resp_headers_done : bool;
  st_resp_end_after_body : bool;
  st_send_done : bool;
  st_resp_body : zhs_buf;
  st_body_off : Z;
  st_req : zcio_http_req;
}.

(** The header block under reassembly (the [hdr_*] fields of [zh2_conn]); a stream
    pointer is the id of an entry of the table. *)
Record zh2_hdr := mk_hdr2 {
  hdr_active : bool;
  hdr_id : Z;
  hdr_stream : option Z;
  hdr_refuse : Z;
  hdr_trailer : bool;
  hdr_end_stream : bool;
  hdr_block : zhs_buf;
  cont_count : Z;
}.

(** [zh2_conn]; [h2_out] is the loop's buffer, [h2_streams] the used part of
    the stream table. *)
Record zh2_conn := mk_h2 {
  h2_lim : zhs_limits;
  h2_secure : bool;
  h2_out : zhs_buf;
  h2_dec : zhp_dec;
  h2_preface_got : Z;
  h2_preface_done : bool;
  h2_need_settings : bool;
  h2_closing : bool;
  h2_goaway_sent : bool;
  h2_peer_goaway : bool;
  h2_got_error : bool;
  h2_oom : bool;
  h2_recv_window : Z;
  h2_send_window : Z;
  h2_peer_initial_window : Z;
  h2_peer_max_frame : Z;
  h2_streams : list zh2_stream;
  h2_streams_cap : Z;
  h2_last_client_id : Z;
  h2_open_count : Z;
  h2_total_streams : Z;
  h2_rapid_reset : Z;
  h2_hdr : zh2_hdr;
}.

(** [zh2_hdrctx], without the limits and the trailer flag, which are arguments. *)
Record zh2_hdrctx := mk_hdrctx {
  x_seen_regular : bool;
  x_herr : Z;
  x_method : option bytes;
  x_scheme : option bytes;
  x_path : option bytes;
  x_authority : option bytes;
  x_headers : zhs_hdrs;
}.

(** Assignments to one field. *)
Definition hdr_set_block (v : zhs_buf) (s : zh2_hdr) : zh2_hdr :=
  mk_hdr2 (hdr_active s) (hdr_id s) (hdr_stream s) (hdr_refuse s) (hdr_trailer s) (hdr_end_stream s) v
    (cont_count s).
Definition hdr_set_cont (v : Z) (s : zh2_hdr) : zh2_hdr :=
  mk_hdr2 (hdr_active s) (hdr_id s) (hdr_stream s) (hdr_refuse s) (hdr_trailer s) (hdr_end_stream s)
    (hdr_block s) v.
Definition st_set_recv_window (v : Z) (s : zh2_stream) : zh2_stream :=
  mk_stream2 (st_id s) v (st_got_headers s) (st_end_stream_recv s) (st_dispatched s)
    (st_send_window s) (st_responded s) (st_resp_headers_done s) (st_resp_end_after_body s)
    (st_send_done s) (st_resp_body s) (st_body_off s) (st_req s).
Definition st_set_got_headers (v : bool) (s : zh2_stream) : zh2_stream :=
  mk_stream2 (st_id s) (st_recv_window s) v (st_end_stream_recv s) (st_dispatched s)
    (st_send_window s) (st_responded s) (st_resp_headers_done s) (st_resp_end_after_body s)
    (st_send_done s) (st_resp_body s) (st_body_off s) (st_req s).
Definition st_set_end_stream_recv (v : bool) (s : zh2_stream) : zh2_stream :=
  mk_stream2 (st_id s) (st_recv_window s) (st_got_headers s) v (st_dispatched s)
    (st_send_window s) (st_responded s) (st_resp_headers_done s) (st_resp_end_after_body s)
    (st_send_done s) (st_resp_body s) (st_body_off s) (st_req s).
Definition st_set_dispatched (v : bool) (s : zh2_stream) : zh2_stream :=
  mk_stream2 (st_id s) (st_recv_window s) (st_got_headers s) (st_end_stream_recv s) v
    (st_send_window s) (st_responded s) (st_resp_headers_done s) (st_resp_end_after_body s)
    (st_send_done s) (st_resp_body s) (st_body_off s) (st_req s).
Definition st_set_send_window (v : Z) (s : zh2_stream) : zh2_stream :=
  mk_stream2 (st_id s) (st_recv_window s) (st_got_headers s) (st_end_stream_recv s)
    (st_dispatched s) v (st_responded s) (st_resp_headers_done s) (st_resp_end_after_body s)
    (st_send_done s) (st_resp_body s) (st_body_off s) (st_req s).
Definition st_set_responded (v : bool) (s : zh2_stream) : zh2_stream :=
  mk_stream2 (st_id s) (st_recv_window s) (st_got_headers s) (st_end_stream_recv s)
    (st_dispatched s) (st_send_window s) v (st_resp_headers_done s) (st_resp_end_after_body s)
    (st_send_done s) (st_resp_body s) (st_body_off s) (st_req s).
Definition st_set_resp_headers_done (v : bool) (s : zh2_stream) : zh2_stream :=
  mk_stream2 (st_id s) (st_recv_window s) (st_got_headers s) (st_end_stream_recv s)
    (st_dispatched s) (st_send_window s) (st_responded s) v (st_resp_end_after_body s)
    (st_send_done s) (st_resp_body s) (st_body_off s) (st_req s).
Definition st_set_resp_end_after_body (v : bool) (s : zh2_stream) : zh2_stream :=
  mk_stream2 (st_id s) (st_recv_window s) (st_got_headers s) (st_end_stream_recv s)
    (st_dispatched s) (st_send_window s) (st_responded s) (st_resp_headers_done s) v
    (st_send_done s) (st_resp_body s) (st_body_off s) (st_req s).
Definition st_set_send_done (v : bool) (s : zh2_stream) : zh2_stream :=
  mk_stream2 (st_id s) (st_recv_window s) (st_got_headers s) (st_end_stream_recv s)
    (st_dispatched s) (st_send_window s) (st_responded s) (st_resp_headers_done s)
    (st_resp_end_after_body s) v (st_resp_body s) (st_body_off s) (st_req s).
Definition st_set_resp_body (v : zhs_buf) (s : zh2_stream) : zh2_stream :=
  mk_stream2 (st_id s) (st_recv_window s) (st_got_headers s) (st_end_stream_recv s)
    (st_dispatched s) (st_send_window s) (st_responded s) (st_resp_headers_done s)
    (st_resp_end_after_body s) (st_send_done s) v (st_body_off s) (st_req s).
Definition st_set_body_off (v : Z) (s : zh2_stream) : zh2_stream :=
  mk_stream2 (st_id s) (st_recv_window s) (st_got_headers s) (st_end_stream_recv s)
    (st_dispatched s) (st_send_window s) (st_responded s) (st_resp_headers_done s)
    (st_resp_end_after_body s) (st_send_done s) (st_resp_body s) v (st_req s).
Definition st_set_req (v : zcio_http_req) (s : zh2_stream) : zh2_stream :=
  mk_stream2 (st_id s) (st_recv_window s) (st_got_headers s) (st_end_stream_recv s)
    (st_dispatched s) (st_send_window s) (st_responded s) (st_resp_headers_done s)
    (st_resp_end_after_body s) (st_send_done s) (st_resp_body s) (st_body_off s) v.

Definition h2_set_out (v : zhs_buf) (s : zh2_conn) : zh2_conn :=
  mk_h2 (h2_lim s) (h2_secure s) v (h2_dec s) (h2_preface_got s) (h2_preface_done s)
    (h2_need_settings s) (h2_closing s) (h2_goaway_sent s) (h2_peer_goaway s) (h2_got_error s)
    (h2_oom s) (h2_recv_window s) (h2_send_window s) (h2_peer_initial_window s)
    (h2_peer_max_frame s) (h2_streams s) (h2_streams_cap s) (h2_last_client_id s)
    (h2_open_count s) (h2_total_streams s) (h2_rapid_reset s) (h2_hdr s).
Definition h2_set_dec (v : zhp_dec) (s : zh2_conn) : zh2_conn :=
  mk_h2 (h2_lim s) (h2_secure s) (h2_out s) v (h2_preface_got s) (h2_preface_done s)
    (h2_need_settings s) (h2_closing s) (h2_goaway_sent s) (h2_peer_goaway s) (h2_got_error s)
    (h2_oom s) (h2_recv_window s) (h2_send_window s) (h2_peer_initial_window s)
    (h2_peer_max_frame s) (h2_streams s) (h2_streams_cap s) (h2_last_client_id s)
    (h2_open_count s) (h2_total_streams s) (h2_rapid_reset s) (h2_hdr s).
Definition h2_set_preface_got (v : Z) (s : zh2_conn) : zh2_conn :=
  mk_h2 (h2_lim s) (h2_secure s) (h2_out s) (h2_dec s) v (h2_preface_done s) (h2_need_settings s)
    (h2_closing s) (h2_goaway_sent s) (h2_peer_goaway s) (h2_got_error s) (h2_oom s)
    (h2_recv_window s) (h2_send_window s) (h2_peer_initial_window s) (h2_peer_max_frame s)
    (h2_streams s) (h2_streams_cap s) (h2_last_client_id s) (h2_open_count s) (h2_total_streams s)
    (h2_rapid_reset s) (h2_hdr s).
Definition h2_set_preface_done (v : bool) (s : zh2_conn) : zh2_conn :=
  mk_h2 (h2_lim s) (h2_secure s) (h2_out s) (h2_dec s) (h2_preface_got s) v (h2_need_settings s)
    (h2_closing s) (h2_goaway_sent s) (h2_peer_goaway s) (h2_got_error s) (h2_oom s)
    (h2_recv_window s) (h2_send_window s) (h2_peer_initial_window s) (h2_peer_max_frame s)
    (h2_streams s) (h2_streams_cap s) (h2_last_client_id s) (h2_open_count s) (h2_total_streams s)
    (h2_rapid_reset s) (h2_hdr s).
Definition h2_set_need_settings (v : bool) (s : zh2_conn) : zh2_conn :=
  mk_h2 (h2_lim s) (h2_secure s) (h2_out s) (h2_dec s) (h2_preface_got s) (h2_preface_done s) v
    (h2_closing s) (h2_goaway_sent s) (h2_peer_goaway s) (h2_got_error s) (h2_oom s)
    (h2_recv_window s) (h2_send_window s) (h2_peer_initial_window s) (h2_peer_max_frame s)
    (h2_streams s) (h2_streams_cap s) (h2_last_client_id s) (h2_open_count s) (h2_total_streams s)
    (h2_rapid_reset s) (h2_hdr s).
Definition h2_set_closing (v : bool) (s : zh2_conn) : zh2_conn :=
  mk_h2 (h2_lim s) (h2_secure s) (h2_out s) (h2_dec s) (h2_preface_got s) (h2_preface_done s)
    (h2_need_settings s) v (h2_goaway_sent s) (h2_peer_goaway s) (h2_got_error s) (h2_oom s)
    (h2_recv_window s) (h2_send_window s) (h2_peer_initial_window s) (h2_peer_max_frame s)
    (h2_streams s) (h2_streams_cap s) (h2_last_client_id s) (h2_open_count s) (h2_total_streams s)
    (h2_rapid_reset s) (h2_hdr s).
Definition h2_set_goaway_sent (v : bool) (s : zh2_conn) : zh2_conn :=
  mk_h2 (h2_lim s) (h2_secure s) (h2_out s) (h2_dec s) (h2_preface_got s) (h2_preface_done s)
    (h2_need_settings s) (h2_closing s) v (h2_peer_goaway s) (h2_got_error s) (h2_oom s)
    (h2_recv_window s) (h2_send_window s) (h2_peer_initial_window s) (h2_peer_max_frame s)
    (h2_streams s) (h2_streams_cap s) (h2_last_client_id s) (h2_open_count s) (h2_total_streams s)
    (h2_rapid_reset s) (h2_hdr s).
Definition h2_set_peer_goaway (v : bool) (s : zh2_conn) : zh2_conn :=
  mk_h2 (h2_lim s) (h2_secure s) (h2_out s) (h2_dec s) (h2_preface_got s) (h2_preface_done s)
    (h2_need_settings s) (h2_closing s) (h2_goaway_sent s) v (h2_got_error s) (h2_oom s)
    (h2_recv_window s) (h2_send_window s) (h2_peer_initial_window s) (h2_peer_max_frame s)
    (h2_streams s) (h2_streams_cap s) (h2_last_client_id s) (h2_open_count s) (h2_total_streams s)
    (h2_rapid_reset s) (h2_hdr s).
Definition h2_set_got_error (v : bool) (s : zh2_conn) : zh2_conn :=
  mk_h2 (h2_lim s) (h2_secure s) (h2_out s) (h2_dec s) (h2_preface_got s) (h2_preface_done s)
    (h2_need_settings s) (h2_closing s) (h2_goaway_sent s) (h2_peer_goaway s) v (h2_oom s)
    (h2_recv_window s) (h2_send_window s) (h2_peer_initial_window s) (h2_peer_max_frame s)
    (h2_streams s) (h2_streams_cap s) (h2_last_client_id s) (h2_open_count s) (h2_total_streams s)
    (h2_rapid_reset s) (h2_hdr s).
Definition h2_set_oom (v : bool) (s : zh2_conn) : zh2_conn :=
  mk_h2 (h2_lim s) (h2_secure s) (h2_out s) (h2_dec s) (h2_preface_got s) (h2_preface_done s)
    (h2_need_settings s) (h2_closing s) (h2_goaway_sent s) (h2_peer_goaway s) (h2_got_error s) v
    (h2_recv_window s) (h2_send_window s) (h2_peer_initial_window s) (h2_peer_max_frame s)
    (h2_streams s) (h2_streams_cap s) (h2_last_client_id s) (h2_open_count s) (h2_total_streams s)
    (h2_rapid_reset s) (h2_hdr s).
Definition h2_set_recv_window (v : Z) (s : zh2_conn) : zh2_conn :=
  mk_h2 (h2_lim s) (h2_secure s) (h2_out s) (h2_dec s) (h2_preface_got s) (h2_preface_done s)
    (h2_need_settings s) (h2_closing s) (h2_goaway_sent s) (h2_peer_goaway s) (h2_got_error s)
    (h2_oom s) v (h2_send_window s) (h2_peer_initial_window s) (h2_peer_max_frame s)
    (h2_streams s) (h2_streams_cap s) (h2_last_client_id s) (h2_open_count s) (h2_total_streams s)
    (h2_rapid_reset s) (h2_hdr s).
Definition h2_set_send_window (v : Z) (s : zh2_conn) : zh2_conn :=
  mk_h2 (h2_lim s) (h2_secure s) (h2_out s) (h2_dec s) (h2_preface_got s) (h2_preface_done s)
    (h2_need_settings s) (h2_closing s) (h2_goaway_sent s) (h2_peer_goaway s) (h2_got_error s)
    (h2_oom s) (h2_recv_window s) v (h2_peer_initial_window s) (h2_peer_max_frame s)
    (h2_streams s) (h2_streams_cap s) (h2_last_client_id s) (h2_open_count s) (h2_total_streams s)
    (h2_rapid_reset s) (h2_hdr s).
Definition h2_set_peer_initial_window (v : Z) (s : zh2_conn) : zh2_conn :=
  mk_h2 (h2_lim s) (h2_secure s) (h2_out s) (h2_dec s) (h2_preface_got s) (h2_preface_done s)
    (h2_need_settings s) (h2_closing s) (h2_goaway_sent s) (h2_peer_goaway s) (h2_got_error s)
    (h2_oom s) (h2_recv_window s) (h2_send_window s) v (h2_peer_max_frame s) (h2_streams s)
    (h2_streams_cap s) (h2_last_client_id s) (h2_open_count s) (h2_total_streams s)
    (h2_rapid_reset s) (h2_hdr s).
Definition h2_set_peer_max_frame (v : Z) (s : zh2_conn) : zh2_conn :=
  mk_h2 (h2_lim s) (h2_secure s) (h2_out s) (h2_dec s) (h2_preface_got s) (h2_preface_done s)
    (h2_need_settings s) (h2_closing s) (h2_goaway_sent s) (h2_peer_goaway s) (h2_got_error s)
    (h2_oom s) (h2_recv_window s) (h2_send_window s) (h2_peer_initial_window s) v (h2_streams s)
    (h2_streams_cap s) (h2_last_client_id s) (h2_open_count s) (h2_total_streams s)
    (h2_rapid_reset s) (h2_hdr s).
Definition h2_set_streams (v : list zh2_stream) (s : zh2_conn) : zh2_conn :=
  mk_h2 (h2_lim s) (h2_secure s) (h2_out s) (h2_dec s) (h2_preface_got s) (h2_preface_done s)
    (h2_need_settings s) (h2_closing s) (h2_goaway_sent s) (h2_peer_goaway s) (h2_got_error s)
    (h2_oom s) (h2_recv_window s) (h2_send_window s) (h2_peer_initial_window s)
    (h2_peer_max_frame s) v (h2_streams_cap s) (h2_last_client_id s) (h2_open_count s)
    (h2_total_streams s) (h2_rapid_reset s) (h2_hdr s).
Definition h2_set_streams_cap (v : Z) (s : zh2_conn) : zh2_conn :=
  mk_h2 (h2_lim s) (h2_secure s) (h2_out s) (h2_dec s) (h2_preface_got s) (h2_preface_done s)
    (h2_need_settings s) (h2_closing s) (h2_goaway_sent s) (h2_peer_goaway s) (h2_got_error s)
    (h2_oom s) (h2_recv_window s) (h2_send_window s) (h2_peer_initial_window s)
    (h2_peer_max_frame s) (h2_streams s) v (h2_last_client_id s) (h2_open_count s)
    (h2_total_streams s) (h2_rapid_reset s) (h2_hdr s).
Definition h2_set_last_client_id (v : Z) (s : zh2_conn) : zh2_conn :=
  mk_h2 (h2_lim s) (h2_secure s) (h2_out s) (h2_dec s) (h2_preface_got s) (h2_preface_done s)
    (h2_need_settings s) (h2_closing s) (h2_goaway_sent s) (h2_peer_goaway s) (h2_got_error s)
    (h2_oom s) (h2_recv_window s) (h2_send_window s) (h2_peer_initial_window s)
    (h2_peer_max_frame s) (h2_streams s) (h2_streams_cap s) v (h2_open_count s)
    (h2_total_streams s) (h2_rapid_reset s) (h2_hdr s).
Definition h2_set_open_count (v : Z) (s : zh2_conn) : zh2_conn :=
  mk_h2 (h2_lim s) (h2_secure s) (h2_out s) (h2_dec s) (h2_preface_got s) (h2_preface_done s)
    (h2_need_settings s) (h2_closing s) (h2_goaway_sent s) (h2_peer_goaway s) (h2_got_error s)
    (h2_oom s) (h2_recv_window s) (h2_send_window s) (h2_peer_initial_window s)
    (h2_peer_max_frame s) (h2_streams s) (h2_streams_cap s) (h2_last_client_id s) v
    (h2_total_streams s) (h2_rapid_reset s) (h2_hdr s).
Definition h2_set_total_streams (v : Z) (s : zh2_conn) : zh2_conn :=
  mk_h2 (h2_lim s) (h2_secure s) (h2_out s) (h2_dec s) (h2_preface_got s) (h2_preface_done s)
    (h2_need_settings s) (h2_closing s) (h2_goaway_sent s) (h2_peer_goaway s) (h2_got_error s)
    (h2_oom s) (h2_recv_window s) (h2_send_window s) (h2_peer_initial_window s)
    (h2_peer_max_frame s) (h2_streams s) (h2_streams_cap s) (h2_last_client_id s)
    (h2_open_count s) v (h2_rapid_reset s) (h2_hdr s).
Definition h2_set_rapid_reset (v : Z) (s : zh2_conn) : zh2_conn :=
  mk_h2 (h2_lim s) (h2_secure s) (h2_out s) (h2_dec s) (h2_preface_got s) (h2_preface_done s)
    (h2_need_settings s) (h2_closing s) (h2_goaway_sent s) (h2_peer_goaway s) (h2_got_error s)
    (h2_oom s) (h2_recv_window s) (h2_send_window s) (h2_peer_initial_window s)
    (h2_peer_max_frame s) (h2_streams s) (h2_streams_cap s) (h2_last_client_id s)
    (h2_open_count s) (h2_total_streams s) v (h2_hdr s).
Definition h2_set_hdr (v : zh2_hdr) (s : zh2_conn) : zh2_conn :=
  mk_h2 (h2_lim s) (h2_secure s) (h2_out s) (h2_dec s) (h2_preface_got s) (h2_preface_done s)
    (h2_need_settings s) (h2_closing s) (h2_goaway_sent s) (h2_peer_goaway s) (h2_got_error s)
    (h2_oom s) (h2_recv_window s) (h2_send_window s) (h2_peer_initial_window s)
    (h2_peer_max_frame s) (h2_streams s) (h2_streams_cap s) (h2_last_client_id s)
    (h2_open_count s) (h2_total_streams s) (h2_rapid_reset s) v.

Definition x_set_seen_regular (v : bool) (s : zh2_hdrctx) : zh2_hdrctx :=
  mk_hdrctx v (x_herr s) (x_method s) (x_scheme s) (x_path s) (x_authority s) (x_headers s).
Definition x_set_herr (v : Z) (s : zh2_hdrctx) : zh2_hdrctx :=
  mk_hdrctx (x_seen_regular s) v (x_method s) (x_scheme s) (x_path s) (x_authority s)
    (x_headers s).
Definition x_set_method (v : option bytes) (s : zh2_hdrctx) : zh2_hdrctx :=
  mk_hdrctx (x_seen_regular s) (x_herr s) v (x_scheme s) (x_path s) (x_authority s) (x_headers s).
Definition x_set_scheme (v : option bytes) (s : zh2_hdrctx) : zh2_hdrctx :=
  mk_hdrctx (x_seen_regular s) (x_herr s) (x_method s) v (x_path s) (x_authority s) (x_headers s).
Definition x_set_path (v : option bytes) (s : zh2_hdrctx) : zh2_hdrctx :=
  mk_hdrctx (x_seen_regular s) (x_herr s) (x_method s) (x_scheme s) v (x_authority s)
    (x_headers s).
Definition x_set_authority (v : option bytes) (s : zh2_hdrctx) : zh2_hdrctx :=
  mk_hdrctx (x_seen_regular s) (x_herr s) (x_method s) (x_scheme s) (x_path s) v (x_headers s).
Definition x_set_headers (v : zhs_hdrs) (s : zh2_hdrctx) : zh2_hdrctx :=
  mk_hdrctx (x_seen_regular s) (x_herr s) (x_method s) (x_scheme s) (x_path s) (x_authority s) v.

(** ** Byte helpers *)

Definition be (s : bytes) : Z := fold_left (λ v b, v * 256 + b) s 0.
Definition rd24 (p : bytes) (off : Z) : exec Z := be <$> mem_read off 3 p.
Definition rd32 (p : bytes) (off : Z) : exec Z := be <$> mem_read off 4 p.
Definition rd16 (p : bytes) (off : Z) : exec Z := be <$> mem_read off 2 p.
Definition rd8 (p : bytes) (off : Z) : exec Z := be <$> mem_read off 1 p.
Definition wr32 (v : Z) : bytes := [u8 (Z.shiftr v 24); u8 (Z.shiftr v 16); u8 (Z.shiftr v 8); u8 v].
Definition wr16 (v : Z) : bytes := [u8 (Z.shiftr v 8); u8 v].

Definition flag (flags f : Z) : bool := negb (Z.land flags f =? 0).

Section H2.
Context `{Allocator} `{Server}.
Abbreviation conn := zh2_conn.

(** ** Frame emission *)

Definition frame_hdr (len type flags sid : Z) : bytes :=
  [u8 (Z.shiftr len 16); u8 (Z.shiftr len 8); u8 len; type; flags] ++ wr32 sid.

(** [payload] has [len] bytes. *)
Definition h2_frame (c : conn) (len type flags sid : Z) (payload : bytes) : Z * conn :=
  let '(r, out) := (put (frame_hdr len type flags sid) ▷ put payload) (h2_out c) in (r, h2_set_out out c).

(** The [q_*] helpers: a frame whose failure is a fatal allocation failure. *)
Definition queue (c : conn) (type flags sid : Z) (payload : bytes) : conn :=
  let '(r, c) := h2_frame c (zlen payload) type flags sid payload in
  if negb (r =? ZCIO_OK) then h2_set_oom true c else c.

Definition q_rst (c : conn) (id code : Z) : conn := queue c ZH2_FT_RST_STREAM 0 id (wr32 code).
Definition q_window_update (c : conn) (id incr : Z) : conn :=
  if incr =? 0 then c else queue c ZH2_FT_WINDOW_UPDATE 0 id (wr32 incr).
Definition q_settings_ack (c : conn) : conn := queue c ZH2_FT_SETTINGS ZH2_FL_ACK 0 [].
Definition q_ping_ack (c : conn) (data : bytes) : conn := queue c ZH2_FT_PING ZH2_FL_ACK 0 data.
Definition q_goaway (c : conn) (code : Z) : conn :=
  if h2_goaway_sent c then c
  else h2_set_goaway_sent true (queue c ZH2_FT_GOAWAY 0 0 (wr32 (h2_last_client_id c) ++ wr32 code)).

Definition conn_error (c : conn) (code : Z) : conn :=
  h2_set_closing true (h2_set_got_error true (q_goaway c code)).

(** ** Stream table *)

Fixpoint index_of (l : list zh2_stream) (id : Z) : option nat :=
  match l with
  | [] => None
  | s :: l => if st_id s =? id then Some 0%nat else option_map S (index_of l id)
  end.

Definition find_index (c : conn) (id : Z) : option nat := index_of (h2_streams c) id.
Definition find_stream (c : conn) (id : Z) : option zh2_stream := find_index c id ≫= λ i, h2_streams c !! i.

(** A write through a stream pointer. *)
Definition upd_stream (id : Z) (f : zh2_stream → zh2_stream) (c : conn) : conn :=
  match find_index c id with
  | Some i => h2_set_streams (alter f i (h2_streams c)) c
  | None => c
  end.

Definition h2_stream_new (c : conn) (id : Z) : bool * conn :=
  let n := zlen (h2_streams c) in
  let ncap := if h2_streams_cap c =? 0 then 8 else h2_streams_cap c * 2 in
  let full := n =? h2_streams_cap c in
  if full && negb (alloc_ok (ncap * 8)) then (false, c)
  else
    let c := if full then h2_set_streams_cap ncap c else c in
    if negb (zcio_xcalloc_ok 1 232) then (false, c)
    else
      let st := mk_stream2 id ZH2_OUR_INITIAL_WINDOW false false false (h2_peer_initial_window c)
                  false false false false buf_empty 0 req_empty in
      (true, h2_set_open_count (u32 (h2_open_count c + 1)) (h2_set_streams (h2_streams c ++ [st]) c)).

(** [streams[idx] = streams[--nstreams]] *)
Definition stream_close (c : conn) (idx : nat) : conn :=
  let l := h2_streams c in
  let n := pred (length l) in
  let l' := match l !! n with Some z => take n (<[idx := z]> l) | None => l end in
  let c := h2_set_streams l' c in
  if h2_open_count c =? 0 then c else h2_set_open_count (h2_open_count c - 1) c.

Definition rst_stream (c : conn) (id code : Z) : conn :=
  let c := q_rst c id code in
  match find_index c id with Some i => stream_close c i | None => c end.

(** ** Flow control of the receive side *)

(** [st]: the stream when it is still open. *)
Definition recv_consume (c : conn) (st : option Z) (len : Z) : conn :=
  let c := h2_set_recv_window (h2_recv_window c - len) c in
  let c :=
    if h2_recv_window c <=? ZH2_CONN_WINDOW - ZH2_OUR_MAX_FRAME then
      h2_set_recv_window ZH2_CONN_WINDOW (q_window_update c 0 (u32 (ZH2_CONN_WINDOW - h2_recv_window c)))
    else c in
  match st ≫= find_stream c with
  | Some s =>
      let w := st_recv_window s - len in
      let low := w <=? ZH2_OUR_INITIAL_WINDOW - ZH2_OUR_MAX_FRAME in
      let c := if low then q_window_update c (st_id s) (u32 (ZH2_OUR_INITIAL_WINDOW - w)) else c in
      upd_stream (st_id s) (st_set_recv_window (if low then ZH2_OUR_INITIAL_WINDOW else w)) c
  | None => c
  end.

(** ** Header decoding *)

Definition dup_n (s : bytes) : option bytes := if zcio_xmalloc_ok (zlen s + 1) then Some s else None.

Definition nm_eq (s lit : bytes) : bool := bool_decide (s = lit).

Definition is_conn_specific (n : bytes) : bool :=
  nm_eq n (B "connection") || nm_eq n (B "keep-alive") || nm_eq n (B "proxy-connection") ||
  nm_eq n (B "transfer-encoding") || nm_eq n (B "upgrade").

Definition hdrctx_empty : zh2_hdrctx := mk_hdrctx false 0 None None None None hdrs_empty.

(** A pseudo-header's slot: how it is read and how it is set. *)
Definition pseudo_slot (name : bytes)
  : option ((zh2_hdrctx → option bytes) * (option bytes → zh2_hdrctx → zh2_hdrctx)) :=
  if nm_eq name (B ":method") then Some (x_method, x_set_method)
  else if nm_eq name (B ":scheme") then Some (x_scheme, x_set_scheme)
  else if nm_eq name (B ":path") then Some (x_path, x_set_path)
  else if nm_eq name (B ":authority") then Some (x_authority, x_set_authority)
  else None.

Definition h2_emit (lim : zhs_limits) (trailer : bool) (x : zh2_hdrctx) (name value : bytes)
  : Z * zh2_hdrctx :=
  let malformed x := (-1, x_set_herr ZH2_HERR_MALFORMED x) in
  if (0 <? zlen name) && (nth 0 name 0 =? 58) then
    if trailer || x_seen_regular x then malformed x
    else match pseudo_slot name with
    | None => malformed x
    | Some (get, set) =>
        if bool_decide (is_Some (get x)) then malformed x
        else match dup_n value with
        | None => (-1, x_set_herr ZCIO_ERR_NOMEM x)
        | Some v => (0, set (Some v) x)
        end
    end
  else
    let x := x_set_seen_regular true x in
    if negb (zhs_lower_token_ok_ name) then malformed x
    else if is_conn_specific name then malformed x
    else if nm_eq name (B "te") && negb (nm_eq value (B "trailers")) then malformed x
    else if trailer then (0, x)
    else
      let '(r, hs) := zhs_hdrs_add_ (x_headers x) name value lim false in
      let x := x_set_headers hs x in
      if r =? ZCIO_ERR_NOMEM then (-1, x_set_herr ZCIO_ERR_NOMEM x)
      else if negb (r =? ZCIO_OK) then malformed x
      else (0, x).

(** ** Responses *)

(** The HTTP/2 name of a header is its lower-case form. *)
Definition h2_encode_header (fb : zhs_buf) (name value : bytes) : Z * zhs_buf :=
  if (64 <=? zlen name) && negb (zcio_xmalloc_ok (zlen name + 1)) then (ZCIO_ERR_NOMEM, fb)
  else zhp_encode_ fb (Some (map tolower name)) (Some value).

Definition field_block (status : Z) (hdrs : list (bytes * bytes)) : emitter :=
  (λ b, zhp_encode_status_ b status) ▷
  foldr (λ h k, (λ b, h2_encode_header b h.1 h.2) ▷ k) emit_ok hdrs.

(** HEADERS and CONTINUATION frames of at most [maxf] bytes: the do-while loop
    over what is left of the field block. *)
Fixpoint respond_frames (fuel : nat) (c : conn) (first has_body : bool) (maxf id : Z) (fb : bytes)
  : Z * conn :=
  match fuel with
  | O => (ZCIO_OK, c)
  | S fuel =>
      let chunk := if maxf <? zlen fb then maxf else zlen fb in
      let last := chunk =? zlen fb in
      let type := if first then ZH2_FT_HEADERS else ZH2_FT_CONTINUATION in
      let flags := Z.lor (if last then ZH2_FL_END_HEADERS else 0)
                         (if first && negb has_body then ZH2_FL_END_STREAM else 0) in
      let '(r, c) := h2_frame c chunk type flags id (ztake chunk fb) in
      if negb (r =? ZCIO_OK) then (ZCIO_ERR_NOMEM, c)
      else if last then (ZCIO_OK, c)
      else respond_frames fuel c false has_body maxf id (zdrop chunk fb)
  end.

Definition zh2_respond (c : conn) (id : Z) (status : Z) (hdrs : list (bytes * bytes)) (bd : option bytes)
    (body_len : Z) : Z * conn :=
  match find_stream c id with
  | None => (ZCIO_ERR, c)
  | Some st =>
      if st_responded st then (ZCIO_ERR, c)
      else
        let '(r, fb) := field_block status hdrs buf_empty in
        if negb (r =? ZCIO_OK) then (r, h2_set_oom true c)
        else
          let has_body := bool_decide (is_Some bd) && (0 <? body_len) && negb (is_head (st_req st)) &&
            (200 <=? status) && negb (status =? 204) && negb (status =? 304) in
          let maxf := if h2_peer_max_frame c =? 0 then ZH2_DEFAULT_MAX_FRAME else h2_peer_max_frame c in
          let data := ztake (b_len fb) (b_data fb) in
          let '(r, c) := respond_frames (S (length data)) c true has_body maxf id data in
          if negb (r =? ZCIO_OK) then (ZCIO_ERR_NOMEM, h2_set_oom true c)
          else
            let c := upd_stream id (λ s, st_set_req (req_set_responded true (st_req s))
                       (st_set_responded true (st_set_resp_headers_done true s))) c in
            if has_body then
              let '(a, b) := zhs_buf_append_ (st_resp_body st) (ztake body_len (default [] bd)) in
              if negb (a =? ZCIO_OK)
              then (ZCIO_ERR_NOMEM, h2_set_oom true (upd_stream id (st_set_resp_body b) c))
              else (ZCIO_OK, upd_stream id (λ s, st_set_resp_end_after_body true (st_set_resp_body b s)) c)
            else (ZCIO_OK, upd_stream id (st_set_send_done true) c)
  end.

(** ** Dispatch *)

(** The connection together with the stream whose request is being answered. *)
Definition h2_transport : Transport (conn * Z) := {|
  get_req := λ c, match find_stream c.1 c.2 with Some s => st_req s | None => req_empty end;
  mark_responded := λ c, (upd_stream c.2 (λ s, st_set_req (req_set_responded true (st_req s)) s) c.1, c.2);
  respond_fn := λ c status hdrs bd n, let '(r, c') := zh2_respond c.1 c.2 status hdrs bd n in (r, (c', c.2));
  detach := λ _ c _, (false, c) |}.

(** The request as the handler sees it. *)
Definition dispatch_req (secure : bool) (id : Z) (r : zcio_http_req) : zcio_http_req :=
  req_set_responded false (req_set_stream_id id (req_set_secure secure (req_set_version 2
    (req_set_body (snd (zhs_buf_reserve_ (body r) 1)) r)))).

Definition h2_dispatch (c : conn) (id : Z) : conn :=
  match find_stream c id with
  | None => c
  | Some st =>
      if st_dispatched st then c
      else
        let c := upd_stream id (λ s, st_set_req (dispatch_req (h2_secure c) id (st_req s))
                   (st_set_dispatched true s)) c in
        let '(_, (c, _)) := @zhs_dispatch_ _ _ _ h2_transport (c, id) in
        let c := upd_stream id (λ s, st_set_req (zhs_req_reset_ (st_req s)) s) c in
        match find_index c id with
        | Some i =>
            match h2_streams c !! i with
            | Some s => if st_send_done s && st_end_stream_recv s then stream_close c i else c
            | None => c
            end
        | None => c
        end
  end.

(** ** Header blocks *)

Definition hdr_idle (b : zhs_buf) : zh2_hdr := mk_hdr2 false 0 None 0 false false b 0.

(** [:authority] without what precedes its first '@', else the Host header. *)
Definition h2_authority (x : zh2_hdrctx) : option bytes :=
  match x_authority x with
  | Some a => let a := cstr a in
      Some (match memchr 64 a with Some i => zdrop (i + 1) a | None => a end)
  | None => zhs_hdrs_get_ (x_headers x) (B "host")
  end.

(** The request of a complete header block, for the open stream [id]. *)
Definition accept_request (c : conn) (id : Z) (x : zh2_hdrctx) (end_stream : bool) : exec conn :=
  let set_req f c := upd_stream id (λ s, st_set_req (f (st_req s)) s) c in
  match x_method x, x_scheme x, x_path x with
  | Some m, Some _, Some p =>
      if negb (zhs_token_ok_ (cstr m)) then Ok (rst_stream c id ZH2_E_PROTOCOL_ERROR)
      else
        let c := set_req (req_set_method (Some (cstr m))) c in
        '(pr, path, query) ← zhs_decode_target_ (cstr p) (h2_lim c);
        if negb (pr =? ZCIO_OK) then
          Ok (if pr =? ZCIO_ERR_NOMEM then h2_set_oom true c else rst_stream c id ZH2_E_PROTOCOL_ERROR)
        else
          let c := set_req (λ r, req_set_query query (req_set_path path r)) c in
          let auth := h2_authority x in
          let dup := zcio_strdup_ auth in
          let c := set_req (req_set_authority dup) c in
          if bool_decide (is_Some auth) && negb (bool_decide (is_Some dup)) then Ok (h2_set_oom true c)
          else
            let c := set_req (λ r, req_set_headers (x_headers x)
                       (req_set_is_head (bool_decide (cstr m = B "HEAD")) r)) c in
            let c := upd_stream id (λ s, st_set_end_stream_recv end_stream (st_set_got_headers true s)) c in
            Ok (if end_stream then h2_dispatch c id else c)
  | _, _, _ => Ok (rst_stream c id ZH2_E_PROTOCOL_ERROR)
  end.

Definition h2_finish_headers (c : conn) : exec conn :=
  let h := h2_hdr c in
  '(dr, d, x) ← zhp_decode_ (h2_emit (h2_lim c) (hdr_trailer h)) (h2_dec c) (buf_contents (hdr_block h))
                  (max_header_bytes (h2_lim c)) hdrctx_empty;
  let c := h2_set_hdr (hdr_idle (zhs_buf_reset_ (hdr_block h))) (h2_set_dec d c) in
  let id := hdr_id h in
  let refuse := hdr_refuse h in
  if (x_herr x =? ZCIO_ERR_NOMEM) || (dr =? ZCIO_ERR_NOMEM) then Ok (h2_set_oom true c)
  else if negb (dr =? ZCIO_OK) && (x_herr x =? 0) then Ok (conn_error c ZH2_E_COMPRESSION_ERROR)
  else if x_herr x =? ZH2_HERR_MALFORMED then
    Ok (match hdr_stream h with
        | Some s => rst_stream c s ZH2_E_PROTOCOL_ERROR
        | None => q_rst c id (if negb (refuse =? 0) then refuse else ZH2_E_PROTOCOL_ERROR)
        end)
  else if negb (refuse =? 0) then Ok (q_rst c id refuse)
  else match hdr_stream h with
  | None => Ok (q_rst c id ZH2_E_REFUSED_STREAM)
  | Some s =>
      if hdr_trailer h then
        if negb (hdr_end_stream h) then Ok (rst_stream c s ZH2_E_PROTOCOL_ERROR)
        else Ok (h2_dispatch (upd_stream s (st_set_end_stream_recv true) c) s)
      else accept_request c s x (hdr_end_stream h)
  end.

Definition hdr_accumulate (c : conn) (frag : bytes) : bool * conn :=
  let cap := max_header_bytes (h2_lim c) in
  let cap := if SIZE_MAX - 4096 <? cap then SIZE_MAX else cap + 4096 in
  if u64 (cap - b_len (hdr_block (h2_hdr c))) <? zlen frag
  then (false, conn_error c ZH2_E_ENHANCE_YOUR_CALM)
  else
    let '(a, b) := zhs_buf_append_ (hdr_block (h2_hdr c)) frag in
    let c := h2_set_hdr (hdr_set_block b (h2_hdr c)) c in
    if negb (a =? ZCIO_OK) then (false, h2_set_oom true c) else (true, c).

(** ** Frame handlers *)

(** The payload without its padding and, when [prio], its priority fields;
    [None]: a malformed frame. *)
Definition strip (flags : Z) (prio : bool) (p : bytes) : exec (option bytes) :=
  let rem := zlen p in
  let padded := flag flags ZH2_FL_PADDED in
  if padded && (rem <? 1) then Ok None
  else
    pad ← (if padded then rd8 p 0 else Ok 0);
    let off := if padded then 1 else 0 in
    let pri := prio && flag flags ZH2_FL_PRIORITY in
    if pri && (rem - off <? 5) then Ok None
    else
      let off := if pri then off + 5 else off in
      if rem - off <? pad then Ok None
      else d ← mem_read off (rem - off - pad) p; Ok (Some d).

(** Begin reassembly, also for a refused stream. *)
Definition begin_headers (c : conn) (flags id : Z) (st : option Z) (refuse : Z) (trailer : bool)
    (frag : bytes) : exec conn :=
  let c := h2_set_hdr (mk_hdr2 true id st refuse trailer (flag flags ZH2_FL_END_STREAM)
             (zhs_buf_reset_ (hdr_block (h2_hdr c))) 0) c in
  let '(ok, c) := hdr_accumulate c frag in
  if negb ok then Ok c
  else if flag flags ZH2_FL_END_HEADERS then h2_finish_headers c else Ok c.

Definition h2_on_headers (c : conn) (flags id : Z) (payload : bytes) : exec conn :=
  if id =? 0 then Ok (conn_error c ZH2_E_PROTOCOL_ERROR)
  else
    f ← strip flags true payload;
    match f with
    | None => Ok (conn_error c ZH2_E_PROTOCOL_ERROR)
    | Some frag =>
        match find_stream c id with
        | None =>
            if (Z.land id 1 =? 0) || (id <=? h2_last_client_id c) then Ok (conn_error c ZH2_E_PROTOCOL_ERROR)
            else
              let c := h2_set_total_streams (u32 (h2_total_streams c + 1)) (h2_set_last_client_id id c) in
              let maxr := max_requests_per_conn (h2_lim c) in
              let '(refuse, c) :=
                if h2_closing c || h2_peer_goaway c then (ZH2_E_REFUSED_STREAM, c)
                else if negb (maxr =? 0) && (maxr <? h2_total_streams c) then
                  (ZH2_E_REFUSED_STREAM, h2_set_closing true (q_goaway c ZH2_E_NO_ERROR))
                else if max_streams (h2_lim c) <=? h2_open_count c then (ZH2_E_REFUSED_STREAM, c)
                else (0, c) in
              if negb (refuse =? 0) then begin_headers c flags id None refuse false frag
              else
                let '(ok, c) := h2_stream_new c id in
                if negb ok then Ok (h2_set_oom true c)
                else begin_headers c flags id (Some id) 0 false frag
        | Some st =>
            if st_end_stream_recv st then Ok (conn_error c ZH2_E_STREAM_CLOSED)
            else if negb (st_got_headers st) then Ok (conn_error c ZH2_E_PROTOCOL_ERROR)
            else begin_headers c flags id (Some id) 0 true frag
        end
    end.

Definition h2_on_continuation (c : conn) (flags : Z) (payload : bytes) : exec conn :=
  let c := h2_set_hdr (hdr_set_cont (u32 (cont_count (h2_hdr c) + 1)) (h2_hdr c)) c in
  if ZH2_CONT_MAX <? cont_count (h2_hdr c) then Ok (conn_error c ZH2_E_ENHANCE_YOUR_CALM)
  else
    let '(ok, c) := hdr_accumulate c payload in
    if negb ok then Ok c
    else if flag flags ZH2_FL_END_HEADERS then h2_finish_headers c else Ok c.

Definition h2_on_data (c : conn) (flags id : Z) (payload : bytes) : exec conn :=
  let len := zlen payload in
  if id =? 0 then Ok (conn_error c ZH2_E_PROTOCOL_ERROR)
  else if h2_recv_window c <? len then Ok (conn_error c ZH2_E_FLOW_CONTROL_ERROR)
  else match find_stream c id with
  | None =>
      let c := recv_consume c None len in
      Ok (if h2_last_client_id c <? id then conn_error c ZH2_E_PROTOCOL_ERROR else c)
  | Some st =>
      if st_end_stream_recv st || negb (st_got_headers st) then Ok (conn_error c ZH2_E_STREAM_CLOSED)
      else if st_recv_window st <? len then
        Ok (recv_consume (rst_stream c id ZH2_E_FLOW_CONTROL_ERROR) None len)
      else
        f ← strip flags false payload;
        match f with
        | None => Ok (conn_error c ZH2_E_PROTOCOL_ERROR)
        | Some data =>
            if u64 (max_body_bytes (h2_lim c) - b_len (body (st_req st))) <? zlen data then
              Ok (recv_consume (rst_stream c id ZH2_E_ENHANCE_YOUR_CALM) None len)
            else
              let '(a, b) := zhs_buf_append_ (body (st_req st)) data in
              let c := upd_stream id (λ s, st_set_req (req_set_body b (st_req s)) s) c in
              if negb (a =? ZCIO_OK) then Ok (h2_set_oom true c)
              else
                let end_stream := flag flags ZH2_FL_END_STREAM in
                let c := recv_consume c (if end_stream then None else Some id) len in
                Ok (if end_stream then h2_dispatch (upd_stream id (st_set_end_stream_recv true) c) id else c)
        end
  end.

Definition h2_on_rst_stream (c : conn) (id len : Z) : conn :=
  if negb (len =? 4) then conn_error c ZH2_E_FRAME_SIZE_ERROR
  else if id =? 0 then conn_error c ZH2_E_PROTOCOL_ERROR
  else match find_index c id with
  | Some i =>
      let answered := match h2_streams c !! i with Some st => st_responded st | None => true end in
      let c := if negb answered then h2_set_rapid_reset (u32 (h2_rapid_reset c + 1)) c else c in
      let c := stream_close c i in
      if max_streams (h2_lim c) <? h2_rapid_reset c then conn_error c ZH2_E_ENHANCE_YOUR_CALM else c
  | None => if h2_last_client_id c <? id then conn_error c ZH2_E_PROTOCOL_ERROR else c
  end.

(** [for each stream: send_window += delta], stopping at the first overflow. *)
Fixpoint retarget (delta : Z) (l : list zh2_stream) : bool * list zh2_stream :=
  match l with
  | [] => (true, [])
  | s :: l =>
      let w := st_send_window s + delta in
      if ZH2_MAX_WINDOW <? w then (false, st_set_send_window w s :: l)
      else let '(ok, l) := retarget delta l in (ok, st_set_send_window w s :: l)
  end.

(** One setting; [false]: a connection error was raised. *)
Definition apply_setting (c : conn) (sid val : Z) : bool * conn :=
  if sid =? ZH2_S_ENABLE_PUSH then
    if 1 <? val then (false, conn_error c ZH2_E_PROTOCOL_ERROR) else (true, c)
  else if sid =? ZH2_S_INITIAL_WINDOW_SIZE then
    if ZH2_MAX_WINDOW <? val then (false, conn_error c ZH2_E_FLOW_CONTROL_ERROR)
    else
      let '(ok, l) := retarget (val - h2_peer_initial_window c) (h2_streams c) in
      let c := h2_set_streams l c in
      if negb ok then (false, conn_error c ZH2_E_FLOW_CONTROL_ERROR)
      else (true, h2_set_peer_initial_window val c)
  else if sid =? ZH2_S_MAX_FRAME_SIZE then
    if (val <? 16384) || (16777215 <? val) then (false, conn_error c ZH2_E_PROTOCOL_ERROR)
    else (true, h2_set_peer_max_frame val c)
  else (true, c).

(** [n] settings from offset [off]. *)
Fixpoint settings_loop (n : nat) (c : conn) (payload : bytes) (off : Z) : exec conn :=
  match n with
  | O => Ok (q_settings_ack c)
  | S n =>
      sid ← rd16 payload off;
      val ← rd32 payload (off + 2);
      let '(ok, c) := apply_setting c sid val in
      if negb ok then Ok c else settings_loop n c payload (off + 6)
  end.

(** The second result is [settings_this_feed]. *)
Definition h2_on_settings (c : conn) (flags id : Z) (payload : bytes) (count : Z) : exec (conn * Z) :=
  let len := zlen payload in
  if negb (id =? 0) then Ok (conn_error c ZH2_E_PROTOCOL_ERROR, count)
  else if flag flags ZH2_FL_ACK then
    Ok (if negb (len =? 0) then conn_error c ZH2_E_FRAME_SIZE_ERROR else c, count)
  else if negb (len mod 6 =? 0) then Ok (conn_error c ZH2_E_FRAME_SIZE_ERROR, count)
  else
    let count := u32 (count + 1) in
    if ZH2_SETTINGS_PER_FEED <? count then Ok (conn_error c ZH2_E_ENHANCE_YOUR_CALM, count)
    else c ← settings_loop (Z.to_nat (len / 6)) c payload 0; Ok (c, count).

Definition h2_on_ping (c : conn) (flags id : Z) (payload : bytes) (count : Z) : conn * Z :=
  if negb (id =? 0) then (conn_error c ZH2_E_PROTOCOL_ERROR, count)
  else if negb (zlen payload =? 8) then (conn_error c ZH2_E_FRAME_SIZE_ERROR, count)
  else if flag flags ZH2_FL_ACK then (c, count)
  else
    let count := u32 (count + 1) in
    if (ZH2_PING_PER_FEED <? count) || (max_out_bytes (h2_lim c) <? ZHS_AVAIL (h2_out c))
    then (conn_error c ZH2_E_ENHANCE_YOUR_CALM, count)
    else (q_ping_ack c payload, count).

Definition h2_on_window_update (c : conn) (id : Z) (payload : bytes) : exec conn :=
  if negb (zlen payload =? 4) then Ok (conn_error c ZH2_E_FRAME_SIZE_ERROR)
  else
    v ← rd32 payload 0;
    let incr := Z.land v 0x7fffffff in
    if id =? 0 then
      if incr =? 0 then Ok (conn_error c ZH2_E_PROTOCOL_ERROR)
      else
        let c := h2_set_send_window (h2_send_window c + incr) c in
        Ok (if ZH2_MAX_WINDOW <? h2_send_window c then conn_error c ZH2_E_FLOW_CONTROL_ERROR else c)
    else
      let st := find_stream c id in
      let idle := h2_last_client_id c <? id in
      Ok (if incr =? 0 then
            match st with
            | Some _ => rst_stream c id ZH2_E_PROTOCOL_ERROR
            | None => if idle then conn_error c ZH2_E_PROTOCOL_ERROR else c
            end
          else match st with
          | Some s =>
              let w := st_send_window s + incr in
              let c := upd_stream id (st_set_send_window w) c in
              if ZH2_MAX_WINDOW <? w then rst_stream c id ZH2_E_FLOW_CONTROL_ERROR else c
          | None => if idle then conn_error c ZH2_E_PROTOCOL_ERROR else c
          end).

Definition h2_on_goaway (c : conn) (id len : Z) : conn :=
  if negb (id =? 0) then conn_error c ZH2_E_PROTOCOL_ERROR
  else if len <? 8 then conn_error c ZH2_E_FRAME_SIZE_ERROR
  else h2_set_peer_goaway true c.

(** ** Feed *)

(** One byte per turn. *)
Fixpoint consume_preface (fuel : nat) (c : conn) (input : zhs_buf) : bool * conn * zhs_buf :=
  if (h2_preface_got c <? ZH2_PREFACE_LEN) && (0 <? ZHS_AVAIL input) then
    match fuel with
    | O => (false, c, input)
    | S fuel =>
        if negb (nth 0 (buf_contents input) 0 =? nth (Z.to_nat (h2_preface_got c)) ZH2_PREFACE 0)
        then (false, conn_error c ZH2_E_PROTOCOL_ERROR, input)
        else consume_preface fuel (h2_set_preface_got (h2_preface_got c + 1) c) (zhs_buf_consume_ input 1)
    end
  else if h2_preface_got c <? ZH2_PREFACE_LEN then (false, c, input)
  else (true, h2_set_preface_done true c, input).

(** Counters of one feed: PING and SETTINGS frames answered. *)
Definition counts : Type := Z * Z.

Definition on_frame (c : conn) (n : counts) (type flags sid : Z) (payload : bytes) : exec (conn * counts) :=
  let len := zlen payload in
  let keep c := Ok (c, n) in
  if type =? ZH2_FT_DATA then c ← h2_on_data c flags sid payload; keep c
  else if type =? ZH2_FT_HEADERS then c ← h2_on_headers c flags sid payload; keep c
  else if type =? ZH2_FT_PRIORITY then
    keep (if sid =? 0 then conn_error c ZH2_E_PROTOCOL_ERROR
          else if negb (len =? 5) then conn_error c ZH2_E_FRAME_SIZE_ERROR else c)
  else if type =? ZH2_FT_RST_STREAM then keep (h2_on_rst_stream c sid len)
  else if type =? ZH2_FT_SETTINGS then
    '(c, k) ← h2_on_settings c flags sid payload n.2; Ok (c, (n.1, k))
  else if type =? ZH2_FT_PUSH_PROMISE then keep (conn_error c ZH2_E_PROTOCOL_ERROR)
  else if type =? ZH2_FT_PING then
    let '(c, k) := h2_on_ping c flags sid payload n.1 in Ok (c, (k, n.2))
  else if type =? ZH2_FT_GOAWAY then keep (h2_on_goaway c sid len)
  else if type =? ZH2_FT_WINDOW_UPDATE then c ← h2_on_window_update c sid payload; keep c
  else if type =? ZH2_FT_CONTINUATION then c ← h2_on_continuation c flags payload; keep c
  else keep c.

(** What may not come next: before SETTINGS, inside a header block. *)
Definition out_of_order (c : conn) (type sid : Z) : bool :=
  if hdr_active (h2_hdr c) then negb (type =? ZH2_FT_CONTINUATION) || negb (sid =? hdr_id (h2_hdr c))
  else type =? ZH2_FT_CONTINUATION.

Fixpoint frames_loop (fuel : nat) (c : conn) (n : counts) (input : zhs_buf) : exec (conn * zhs_buf) :=
  match fuel with
  | O => OutOfFuel
  | S fuel =>
      if h2_got_error c || h2_oom c then Ok (c, input)
      else if ZHS_AVAIL input <? ZH2_FRAME_HDR then Ok (c, input)
      else
        let p := buf_contents input in
        len ← rd24 p 0;
        type ← rd8 p 3;
        flags ← rd8 p 4;
        v ← rd32 p 5;
        let sid := Z.land v 0x7fffffff in
        if ZH2_OUR_MAX_FRAME <? len then Ok (conn_error c ZH2_E_FRAME_SIZE_ERROR, input)
        else if ZHS_AVAIL input <? ZH2_FRAME_HDR + len then Ok (c, input)
        else
          payload ← mem_read ZH2_FRAME_HDR len p;
          if h2_need_settings c && negb (type =? ZH2_FT_SETTINGS)
          then Ok (conn_error c ZH2_E_PROTOCOL_ERROR, input)
          else
            let c := h2_set_need_settings false c in
            if out_of_order c type sid then Ok (conn_error c ZH2_E_PROTOCOL_ERROR, input)
            else
              '(c, n) ← on_frame c n type flags sid payload;
              frames_loop fuel c n (zhs_buf_consume_ input (ZH2_FRAME_HDR + len))
  end.

(** A frame takes at least nine bytes. *)
Definition zh2_feed_ (c : conn) (input : zhs_buf) : exec (Z * conn * zhs_buf) :=
  if h2_oom c then Ok (ZCIO_ERR_NOMEM, c, input)
  else
    let '(ready, c, input) :=
      if h2_preface_done c then (true, c, input)
      else consume_preface (Z.to_nat ZH2_PREFACE_LEN) c input in
    if negb ready then Ok (if h2_got_error c then ZH2_CLOSING else ZH2_OK, c, input)
    else
      '(c, input) ← frames_loop (S (Z.to_nat (ZHS_AVAIL input))) c (0, 0) input;
      Ok (if h2_oom c then ZCIO_ERR_NOMEM
          else if h2_closing c || h2_got_error c then ZH2_CLOSING else ZH2_OK, c, input).

(** ** Pump *)

(** The size of the next DATA frame of a stream; 0: blocked. *)
Definition data_chunk (c : conn) (st : zh2_stream) : Z :=
  let total := b_len (st_resp_body st) in
  let swin := if st_send_window st <? 0 then 0 else st_send_window st in
  let cwin := if h2_send_window c <? 0 then 0 else h2_send_window c in
  let win := if swin <? cwin then swin else cwin in
  let used := ZHS_AVAIL (h2_out c) in
  if win <=? 0 then 0
  else if max_out_bytes (h2_lim c) <=? used then 0
  else
    let budget := max_out_bytes (h2_lim c) - used in
    if budget <=? ZH2_FRAME_HDR then 0
    else
      let chunk := total - st_body_off st in
      let chunk := if win <? chunk then win else chunk in
      let chunk := if h2_peer_max_frame c <? chunk then h2_peer_max_frame c else chunk in
      if budget - ZH2_FRAME_HDR <? chunk then budget - ZH2_FRAME_HDR else chunk.

(** [chunk] bytes of the stream at [i] were framed. *)
Definition account (i : nat) (chunk : Z) (last : bool) (c : conn) : conn :=
  let upd s :=
    let s := st_set_send_window (st_send_window s - chunk) (st_set_body_off (st_body_off s + chunk) s) in
    if last then st_set_send_done true s else s in
  h2_set_send_window (h2_send_window c - chunk) (h2_set_streams (alter upd i (h2_streams c)) c).

(** The DATA frames of the stream at [i]; [false]: out of memory. *)
Fixpoint pump_stream (fuel : nat) (c : conn) (i : nat) : exec (bool * conn) :=
  match h2_streams c !! i with
  | None => Fault
  | Some st =>
      let total := b_len (st_resp_body st) in
      if negb (st_body_off st <? total) then Ok (true, c)
      else
        let chunk := data_chunk c st in
        if chunk =? 0 then Ok (true, c)
        else match fuel with
        | O => OutOfFuel
        | S fuel =>
            let last := st_body_off st + chunk =? total in
            let flags := if last && st_resp_end_after_body st then ZH2_FL_END_STREAM else 0 in
            d ← mem_read (st_body_off st) chunk (b_data (st_resp_body st));
            let '(r, c) := h2_frame c chunk ZH2_FT_DATA flags (st_id st) d in
            if negb (r =? ZCIO_OK) then Ok (false, h2_set_oom true c)
            else pump_stream fuel (account i chunk last c) i
        end
  end.

Fixpoint pump_loop (fuel : nat) (c : conn) (i : nat) : exec conn :=
  match h2_streams c !! i with
  | None => Ok c
  | Some st =>
      match fuel with
      | O => OutOfFuel
      | S fuel =>
          '(ok, c) ← (if st_resp_headers_done st && negb (st_send_done st)
                      then pump_stream (Z.to_nat (b_len (st_resp_body st))) c i else Ok (true, c));
          if negb ok then Ok c
          else match h2_streams c !! i with
          | None => Fault
          | Some st =>
              if st_send_done st && st_end_stream_recv st then pump_loop fuel (stream_close c i) i
              else pump_loop fuel c (S i)
          end
      end
  end.

(** Each turn moves on or drops a stream. *)
Definition zh2_pump_ (c : conn) : exec conn :=
  if h2_oom c then Ok c else pump_loop (length (h2_streams c)) c 0.

(** ** Lifecycle *)

Definition settings_payload (lim : zhs_limits) : bytes :=
  let hlist := if 0xffffffff <? max_header_bytes lim then 0xffffffff else u32 (max_header_bytes lim) in
  wr16 ZH2_S_HEADER_TABLE_SIZE ++ wr32 ZHP_DEC_TABLE_MAX ++
  wr16 ZH2_S_MAX_CONCURRENT_STREAMS ++ wr32 (max_streams lim) ++
  wr16 ZH2_S_INITIAL_WINDOW_SIZE ++ wr32 ZH2_OUR_INITIAL_WINDOW ++
  wr16 ZH2_S_MAX_FRAME_SIZE ++ wr32 ZH2_OUR_MAX_FRAME ++
  wr16 ZH2_S_MAX_HEADER_LIST_SIZE ++ wr32 hlist.

Definition zh2_new_ (lim : zhs_limits) (secure : bool) (out : zhs_buf) : option conn :=
  if negb (zcio_xcalloc_ok 1 184) then None
  else match zhp_dec_new_ ZHP_DEC_TABLE_MAX with
  | None => None
  | Some d =>
      let c := mk_h2 lim secure out d 0 false true false false false false false ZH2_CONN_WINDOW
                 ZH2_CONN_WINDOW ZH2_DEFAULT_INIT_WINDOW ZH2_DEFAULT_MAX_FRAME [] 0 0 0 0 0
                 (hdr_idle buf_empty) in
      let '(r, c) := h2_frame c 30 ZH2_FT_SETTINGS 0 0 (settings_payload lim) in
      if negb (r =? ZCIO_OK) then None else Some c
  end.

Definition zh2_idle_ (c : option conn) : bool :=
  match c with
  | None => true
  | Some c => h2_got_error c || (negb (hdr_active (h2_hdr c)) && bool_decide (h2_streams c = []))
  end.

Definition zh2_graceful_ (c : conn) : conn := h2_set_closing true (q_goaway c ZH2_E_NO_ERROR).
End H2.
