(* ===== verification/H2Safe.v ===== *)
(** * H2Safe: the invariant of the HTTP/2 connection

    Every frame keeps the connection well formed, feeding terminates, and a
    request reaches the handler only when it passed the checks of
    [h2_req_good]. *)
From stdpp Require Import base tactics list option strings.
From Stdlib Require Import ZArith Lia.
From S2P Require Import Prelude Types Buf HttpUtil Target Hpack Respond H1 H1Safe H2.

(** ** The invariant *)

(** Field names a request may carry over HTTP/2. *)
Definition h2_name_ok (h : zhs_hdr) : Prop :=
  zhs_lower_token_ok_ (hdr_name h) = true ∧ is_conn_specific (hdr_name h) = false ∧
  (hdr_name h = B "te" → hdr_value h = B "trailers").

(** A decoded request. *)
Definition h2_req_good (lim : zhs_limits) (r : zcio_http_req) : Prop :=
  line_good r ∧ Forall h2_name_ok (h_v (headers r)) ∧ hdrs_wf lim (headers r) ∧
  b_len (body r) ≤ max_body_bytes lim.

Definition low_water : Z := 65535 - 16384.

Record stream_ok (lim : zhs_limits) (last init : Z) (err : bool) (s : zh2_stream) : Prop := {
  so_id : 1 ≤ st_id s ≤ last;
  so_recv : low_water < st_recv_window s ≤ 65535;
  so_send : - ZH2_MAX_WINDOW ≤ st_send_window s ≤ 2 * ZH2_MAX_WINDOW;
  so_room : err = false → init - ZH2_MAX_WINDOW ≤ st_send_window s ≤ ZH2_MAX_WINDOW;
  so_body : buf_wf (body (st_req s));
  so_resp : buf_wf (st_resp_body s);
  so_resp_off : b_off (st_resp_body s) = 0;
  so_off : 0 ≤ st_body_off s ≤ b_len (st_resp_body s);
  so_cap : b_len (body (st_req s)) ≤ max_body_bytes lim;
  so_disp : st_dispatched s = true → st_end_stream_recv s = true;
  so_good : st_got_headers s = true → st_dispatched s = false → h2_req_good lim (st_req s);
}.

Definition h2_lims_ok (l : zhs_limits) : Prop := lims_ok l ∧ 0 ≤ max_streams l < 2 ^ 32.

Record h2_base (c : zh2_conn) : Prop := {
  hb_lim : h2_lims_ok (h2_lim c);
  hb_out : buf_wf (h2_out c);
  hb_dec : dec_wf (h2_dec c);
  hb_preface : 0 ≤ h2_preface_got c ≤ ZH2_PREFACE_LEN;
  hb_recv : low_water < h2_recv_window c ≤ 65535;
  hb_send : 0 ≤ h2_send_window c ≤ 2 * ZH2_MAX_WINDOW;
  hb_send_ok : h2_got_error c = false → h2_send_window c ≤ ZH2_MAX_WINDOW;
  hb_frame : 16384 ≤ h2_peer_max_frame c ≤ 16777215;
  hb_init : 0 ≤ h2_peer_initial_window c ≤ ZH2_MAX_WINDOW;
  hb_ids : NoDup (map st_id (h2_streams c));
  hb_streams : Forall (stream_ok (h2_lim c) (h2_last_client_id c) (h2_peer_initial_window c) (h2_got_error c))
                 (h2_streams c);
  hb_last : 0 ≤ h2_last_client_id c < 2 ^ 31;
  hb_open : h2_open_count c = zlen (h2_streams c) ∧ h2_open_count c ≤ max_streams (h2_lim c);
  hb_block : buf_wf (hdr_block (h2_hdr c)) ∧ is_bytes (buf_contents (hdr_block (h2_hdr c))) ∧
             b_len (hdr_block (h2_hdr c)) ≤ max_header_bytes (h2_lim c) + 4096;
  hb_cont : 0 ≤ cont_count (h2_hdr c) ∧ (h2_got_error c = false → cont_count (h2_hdr c) ≤ ZH2_CONT_MAX);
}.

(** The stream a header block is for is open and waits for it. *)
Definition linked (c : zh2_conn) : Prop :=
  ∀ id, hdr_stream (h2_hdr c) = Some id → ∃ s, find_stream c id = Some s ∧
    st_end_stream_recv s = false ∧ st_dispatched s = false ∧ st_got_headers s = hdr_trailer (h2_hdr c).

(** The invariant is kept and the header block under reassembly not touched. *)
Definition keeps (c c' : zh2_conn) : Prop :=
  h2_base c' ∧ h2_lim c' = h2_lim c ∧ h2_hdr c' = h2_hdr c.

Lemma keeps_trans c1 c2 c3 : keeps c1 c2 → keeps c2 c3 → keeps c1 c3.
Proof. intros (_ & L1 & D1) (H2 & L2 & D2). split; [done|]. split; congruence. Qed.

Lemma keeps_refl c : h2_base c → keeps c c.
Proof. done. Qed.

(** ** The stream table *)

Lemma index_of_spec l id :
  match index_of l id with
  | Some i => ∃ s, l !! i = Some s ∧ st_id s = id
  | None => id ∉ map st_id l
  end.
Proof.
  induction l as [|s l IH]; cbn [index_of map]; [apply not_elem_of_nil|].
  destruct (st_id s =? id) eqn:E; btest; [by exists s|].
  destruct (index_of l id) as [i|]; cbn [option_map]; [exact IH|].
  rewrite elem_of_cons. intros [?|?]; [congruence|done].
Qed.

Lemma index_of_unique l i s : NoDup (map st_id l) → l !! i = Some s → index_of l (st_id s) = Some i.
Proof.
  revert i. induction l as [|x l IH]; intros i Hn Hi; [done|]. cbn [map] in Hn.
  apply NoDup_cons in Hn as [Hx Hn]. cbn [index_of]. destruct i as [|i]; cbn in Hi.
  - injection Hi as ->. by rewrite Z.eqb_refl.
  - destruct (st_id x =? st_id s) eqn:E; btest; [|by rewrite (IH i Hn Hi)].
    exfalso. apply Hx. rewrite E. apply list_elem_of_In, in_map, list_elem_of_In.
    by apply list_elem_of_lookup_2 in Hi.
Qed.

Lemma find_stream_spec c id :
  match find_stream c id with
  | Some s => ∃ i, find_index c id = Some i ∧ h2_streams c !! i = Some s ∧ st_id s = id
  | None => find_index c id = None ∧ id ∉ map st_id (h2_streams c)
  end.
Proof.
  unfold find_stream, find_index. pose proof (index_of_spec (h2_streams c) id) as Hi.
  destruct (index_of _ id) as [i|]; cbn [mbind option_bind]; [|done].
  destruct Hi as (s & Hs & He). rewrite Hs. by exists i.
Qed.

Lemma find_stream_ok c id s : h2_base c → find_stream c id = Some s →
  stream_ok (h2_lim c) (h2_last_client_id c) (h2_peer_initial_window c) (h2_got_error c) s ∧ st_id s = id.
Proof.
  intros Hb Hs. pose proof (find_stream_spec c id) as Hf. rewrite Hs in Hf.
  destruct Hf as (i & _ & Hi & He). split; [|done].
  pose proof (hb_streams c Hb) as Ha. rewrite Forall_lookup in Ha. eauto.
Qed.

Lemma map_id_alter f i l s : l !! i = Some s → st_id (f s) = st_id s → map st_id (alter f i l) = map st_id l.
Proof.
  revert i. induction l as [|x l IH]; intros i Hi Hf; [done|]. destruct i as [|i].
  - injection Hi as ->. cbn. by rewrite Hf.
  - cbn. f_equal. by apply IH.
Qed.

(** Lookups after a write through a pointer. *)
Lemma find_upd c id f s id' : find_stream c id = Some s → st_id (f s) = id →
  find_stream (upd_stream id f c) id' = if id' =? id then Some (f s) else find_stream c id'.
Proof.
  intros Hs Hf. pose proof (find_stream_spec c id) as Hi. rewrite Hs in Hi.
  destruct Hi as (i & Hx & Hi & He). unfold upd_stream. rewrite Hx. unfold find_stream, find_index.
  cbn [h2_streams h2_set_streams].
  assert (∀ l, l !! i = Some s → index_of l id = Some i →
    index_of (alter f i l) id' = index_of l id' ∧
    (index_of l id' ≫= λ j, alter f i l !! j) = if id' =? id then Some (f s) else index_of l id' ≫= λ j, l !! j) as Hg.
  { clear - He Hf. induction i as [|i IH] in He, Hf |- *; intros l Hl Hx.
    - destruct l as [|x l]; [done|]. injection Hl as ->. cbn [index_of alter list_alter].
      rewrite Hf, He. split; [done|].
      destruct (id =? id') eqn:E; btest.
      + subst id'. rewrite Z.eqb_refl. done.
      + destruct (id' =? id) eqn:E'; btest; [congruence|]. by destruct (index_of l id').
    - destruct l as [|x l]; [done|]. cbn in Hl. cbn [index_of] in Hx.
      destruct (st_id x =? id) eqn:Ex; btest; [done|].
      destruct (index_of l id) as [j|] eqn:Ej; [|done]. injection Hx as ->.
      destruct (IH Hf He l Hl Ej) as [G1 G2]. cbn [index_of alter list_alter].
      change (list_alter f i l) with (alter f i l). rewrite G1. split; [done|].
      destruct (st_id x =? id') eqn:E; btest.
      + subst id'. destruct (st_id x =? id) eqn:E'; btest; [congruence|]. done.
      + destruct (index_of l id') as [k|]; cbn in *; [exact G2|exact G2]. }
  destruct (Hg _ Hi Hx) as [-> ->]. done.
Qed.

Lemma swap_remove l i (s : zh2_stream) : l !! i = Some s →
  ∃ l', match l !! pred (length l) with Some z => take (pred (length l)) (<[i := z]> l) | None => l end = l' ∧
    l ≡ₚ s :: l'.
Proof.
  intros Hi. destruct l as [|z l1 _] using rev_ind; [done|]. rewrite length_app. cbn [length].
  replace (pred (length l1 + 1)) with (length l1) by lia.
  rewrite lookup_app_r, Nat.sub_diag by lia. cbn [lookup list_lookup]. eexists. split; [done|].
  destruct (decide (i < length l1)%nat) as [Hlt|Hge].
  - rewrite insert_app_l by done. rewrite take_app_length' by (by rewrite length_insert).
    rewrite lookup_app_l in Hi by done. rewrite <- (take_drop_middle l1 i s Hi) at 1.
    rewrite insert_take_drop by done. rewrite Permutation_app_comm. cbn.
    rewrite <- Permutation_middle. by rewrite <- Permutation_middle, perm_swap.
  - assert (i = length l1) as ->.
    { apply lookup_lt_Some in Hi. rewrite length_app in Hi. cbn in Hi. lia. }
    rewrite lookup_app_r, Nat.sub_diag in Hi by lia. injection Hi as ->.
    rewrite insert_app_r_alt, Nat.sub_diag by lia. rewrite take_app_length. by rewrite Permutation_app_comm.
Qed.

(** ** What the small steps keep *)

Section Steps.
Context `{Allocator}.

Lemma stream_ok_err lim last init e s : stream_ok lim last init e s → stream_ok lim last init true s.
Proof. intros []. by constructor. Qed.

Lemma stream_ok_last lim last last' init e s : last ≤ last' → stream_ok lim last init e s →
  stream_ok lim last' init e s.
Proof. intros Hl []. constructor; try done. lia. Qed.

Lemma base_out c o out' : h2_base c → buf_wf out' → keeps c (h2_set_oom o (h2_set_out out' c)).
Proof. intros [] Ho. split; [|done]. by constructor. Qed.

Lemma frame_shape c len t f sid p : buf_wf (h2_out c) →
  ∃ r out', h2_frame c len t f sid p = (r, h2_set_out out' c) ∧ buf_wf out' ∧
    (r = ZCIO_OK ∨ r = ZCIO_ERR_NOMEM) ∧
    (r = ZCIO_OK → buf_contents out' = buf_contents (h2_out c) ++ frame_hdr len t f sid ++ p).
Proof.
  intros Hw. unfold h2_frame. pose proof (emits_seq (put (frame_hdr len t f sid)) (put p) _ _) as He.
  destruct (He (h2_out c) Hw) as (r & out' & E & Hw' & Hr & _). rewrite E. exists r, out'. split; [done|].
  split; [done|]. destruct Hr as [(-> & Hc & _)|(-> & _)]; split; auto. done.
Qed.

Lemma set_oom_same c : h2_set_oom (h2_oom c) c = c.
Proof. by destruct c. Qed.

Lemma queue_shape c t f sid p : buf_wf (h2_out c) →
  ∃ out' o, queue c t f sid p = h2_set_oom o (h2_set_out out' c) ∧ buf_wf out'.
Proof.
  intros Hw. unfold queue. destruct (frame_shape c (zlen p) t f sid p Hw) as (r & out' & -> & Hw' & _).
  destruct (negb _); [by exists out', true|]. exists out', (h2_oom c). split; [|done].
  symmetry. apply (set_oom_same (h2_set_out out' c)).
Qed.

Lemma queue_keeps c t f sid p : h2_base c → keeps c (queue c t f sid p).
Proof.
  intros Hb. destruct (queue_shape c t f sid p (hb_out c Hb)) as (out' & o & -> & Hw). by apply base_out.
Qed.

Lemma goaway_shape c code : buf_wf (h2_out c) →
  ∃ out' o g, q_goaway c code = h2_set_goaway_sent g (h2_set_oom o (h2_set_out out' c)) ∧ buf_wf out'.
Proof.
  intros Hw. unfold q_goaway. destruct (h2_goaway_sent c) eqn:E.
  - exists (h2_out c), (h2_oom c), (h2_goaway_sent c). split; [by destruct c|done].
  - destruct (queue_shape c ZH2_FT_GOAWAY 0 0 (wr32 (h2_last_client_id c) ++ wr32 code) Hw)
      as (out' & o & -> & Hw'). by exists out', o, true.
Qed.

Lemma goaway_keeps c code : h2_base c → keeps c (q_goaway c code).
Proof.
  intros Hb. destruct (goaway_shape c code (hb_out c Hb)) as (out' & o & g & -> & Hw).
  destruct Hb. split; [|done]. by constructor.
Qed.

Lemma closing_keeps c v : h2_base c → keeps c (h2_set_closing v c).
Proof. intros []. split; [|done]. by constructor. Qed.

Lemma conn_error_keeps c code : h2_base c → keeps c (conn_error c code).
Proof.
  intros Hb. unfold conn_error. destruct (goaway_keeps c code Hb) as (Hb' & L & D).
  split; [|done]. destruct Hb'. constructor; try done.
  - eapply Forall_impl; [exact hb_streams0|]. intros s. apply stream_ok_err.
  - split; [apply hb_cont0|done].
Qed.

Lemma conn_error_err c code : h2_got_error (conn_error c code) = true.
Proof. done. Qed.

Lemma ids_of_perm (l l' : list zh2_stream) s : l ≡ₚ s :: l' → map st_id l ≡ₚ st_id s :: map st_id l'.
Proof. intros ->. done. Qed.

Lemma close_keeps c i : h2_base c → (i < length (h2_streams c))%nat → keeps c (stream_close c i).
Proof.
  intros Hb Hi. destruct (lookup_lt_is_Some_2 _ _ Hi) as [s Hs].
  destruct (swap_remove _ _ _ Hs) as (l' & E & Hp). unfold stream_close. rewrite E.
  cbn [h2_open_count h2_set_streams]. destruct Hb. split; [|by destruct (_ =? 0)].
  pose proof (Permutation_length Hp) as Hl. cbn [length] in Hl. destruct hb_open0 as [Ho Hm].
  bcase; [lia|].
  constructor; cbn; try done.
  - rewrite (ids_of_perm _ _ _ Hp) in hb_ids0. by apply NoDup_cons in hb_ids0 as [_ ?].
  - rewrite Hp in hb_streams0. by apply Forall_cons_1 in hb_streams0 as [_ ?].
  - lia.
Qed.

Lemma rst_keeps c id code : h2_base c → keeps c (rst_stream c id code).
Proof.
  intros Hb. unfold rst_stream, q_rst. pose proof (queue_keeps c ZH2_FT_RST_STREAM 0 id (wr32 code) Hb) as Hk.
  destruct (find_index _ id) as [i|] eqn:E; [|done]. eapply keeps_trans; [exact Hk|].
  apply close_keeps; [apply Hk|]. unfold find_index in E. pose proof (index_of_spec (h2_streams (queue c ZH2_FT_RST_STREAM 0 id (wr32 code))) id) as Hx.
  rewrite E in Hx. destruct Hx as (s & Hs & _). by apply lookup_lt_Some in Hs.
Qed.

(** A write to an entry keeps what the written stream keeps. *)
Lemma alter_keeps c i f s : h2_base c → h2_streams c !! i = Some s →
  stream_ok (h2_lim c) (h2_last_client_id c) (h2_peer_initial_window c) (h2_got_error c) (f s) →
  st_id (f s) = st_id s → keeps c (h2_set_streams (alter f i (h2_streams c)) c).
Proof.
  intros Hb Hi Hok' Hid. destruct Hb. split; [|done]. constructor; cbn; try done.
  - by rewrite (map_id_alter f i _ s).
  - apply Forall_lookup. intros j x Hx. rewrite Forall_lookup in hb_streams0.
    destruct (decide (j = i)) as [->|Hne].
    + rewrite list_lookup_alter_eq, Hi in Hx. injection Hx as <-. done.
    + rewrite list_lookup_alter_ne in Hx by done. by eapply hb_streams0.
  - by rewrite length_alter.
Qed.

Lemma upd_keeps c id f : h2_base c →
  (∀ s, find_stream c id = Some s →
     stream_ok (h2_lim c) (h2_last_client_id c) (h2_peer_initial_window c) (h2_got_error c) s →
     stream_ok (h2_lim c) (h2_last_client_id c) (h2_peer_initial_window c) (h2_got_error c) (f s) ∧
     st_id (f s) = st_id s) →
  keeps c (upd_stream id f c).
Proof.
  intros Hb Hf. unfold upd_stream. pose proof (find_stream_spec c id) as Hs.
  destruct (find_stream c id) as [s|] eqn:Ef; [|destruct Hs as [-> _]; by apply keeps_refl].
  destruct Hs as (i & -> & Hi & _). destruct (find_stream_ok c id s Hb Ef) as [Hok _].
  destruct (Hf s eq_refl Hok) as [Hok' Hid]. by eapply alter_keeps.
Qed.

Lemma window_update_keeps c id n : h2_base c → keeps c (q_window_update c id n).
Proof. intros Hb. unfold q_window_update. destruct (n =? 0); [done|]. by apply queue_keeps. Qed.

Lemma recv_keeps c st len : h2_base c → 0 ≤ len ≤ ZH2_OUR_MAX_FRAME → keeps c (recv_consume c st len).
Proof.
  intros Hb Hl. unfold recv_consume. cbn [h2_recv_window h2_set_recv_window].
  set (low := h2_recv_window c - len <=? _).
  set (c1 := if low then _ else _). assert (keeps c c1) as Hk.
  { unfold c1, low, ZH2_CONN_WINDOW, ZH2_OUR_MAX_FRAME in *. destruct (_ <=? _) eqn:E; btest.
    - unfold q_window_update. set (n := u32 _). destruct (n =? 0).
      + destruct Hb. split; [|done]. by constructor.
      + destruct (queue_shape (h2_set_recv_window (h2_recv_window c - len) c) ZH2_FT_WINDOW_UPDATE 0 0 (wr32 n))
          as (out' & o & -> & Hw); [apply (hb_out c Hb)|]. destruct Hb. split; [|done]. by constructor.
    - destruct Hb. split; [|done]. constructor; try done. cbn. unfold low_water in *. lia. }
  clearbody c1. destruct (st ≫= find_stream c1) as [s|] eqn:Es; [|done].
  destruct st as [id|]; [|done]. cbn in Es. destruct (find_stream_ok c1 id s (proj1 Hk) Es) as [Hs Hid].
  set (w := st_recv_window s - len). set (lw := w <=? _).
  match goal with |- keeps _ (upd_stream _ _ ?x) => set (c2 := x) end.
  assert (keeps c1 c2 ∧ find_stream c2 (st_id s) = Some s ∧
    h2_last_client_id c2 = h2_last_client_id c1 ∧ h2_peer_initial_window c2 = h2_peer_initial_window c1 ∧
    h2_got_error c2 = h2_got_error c1) as (Hk2 & Hf & _).
  { unfold c2, q_window_update. destruct lw; [|rewrite Hid; split; [apply keeps_refl, Hk|done]].
    destruct (_ =? 0); [rewrite Hid; split; [apply keeps_refl, Hk|done]|].
    match goal with |- context [queue ?c ?t ?f ?i ?p] =>
      destruct (queue_shape c t f i p (hb_out c (proj1 Hk))) as (out' & o & -> & Hw) end.
    split; [apply base_out; [apply Hk|done]|]. rewrite Hid. done. }
  eapply keeps_trans; [exact Hk|]. eapply keeps_trans; [exact Hk2|]. apply upd_keeps; [apply Hk2|].
  intros s' Hs' Hok. rewrite Hf in Hs'. injection Hs' as <-. split; [|done]. destruct Hok.
  constructor; try done. cbn. unfold lw, w, ZH2_OUR_INITIAL_WINDOW, ZH2_OUR_MAX_FRAME, low_water in *.
  clear - so_recv0 Hl; bcase; lia.
Qed.

Lemma find_keep c c' id : h2_streams c' = h2_streams c → find_stream c' id = find_stream c id.
Proof. intros E. unfold find_stream, find_index. by rewrite E. Qed.
End Steps.

(** ** Decoding a header block *)

Section Decode.
Context `{Allocator}.

Definition hdrctx_ok (lim : zhs_limits) (x : zh2_hdrctx) : Prop :=
  hdrs_wf lim (x_headers x) ∧ Forall h2_name_ok (h_v (x_headers x)).

Lemma lower_token_no_nul s : zhs_lower_token_ok_ s = true → cstr s = s.
Proof.
  unfold zhs_lower_token_ok_. bcase; [done|]. rewrite forallb_forall. intros Hf. apply cstr_id.
  apply Forall_forall. intros c Hin%list_elem_of_In%Hf ->. done.
Qed.

Lemma pseudo_headers name get set x v : pseudo_slot name = Some (get, set) → x_headers (set v x) = x_headers x.
Proof. unfold pseudo_slot. repeat case_match; intros [= <- <-]; done. Qed.

Lemma emit_ok_inv lim trailer x name value r x' : lims_ok lim → hdrctx_ok lim x →
  zlen name + zlen value < 2 ^ 63 → h2_emit lim trailer x name value = (r, x') → hdrctx_ok lim x'.
Proof.
  intros (Hlm & _) Hx Hsz. unfold h2_emit. destruct (_ && _).
  { destruct (_ || _); [by intros [= <- <-]|]. destruct (pseudo_slot name) as [[get set]|] eqn:Ep; [|by intros [= <- <-]].
    bcase; [by intros [= <- <-]|]. destruct (dup_n value); intros [= <- <-]; [|done].
    unfold hdrctx_ok. by rewrite (pseudo_headers _ _ _ _ _ Ep). }
  destruct (negb (zhs_lower_token_ok_ name)) eqn:Et; [by intros [= <- <-]|]. btest.
  destruct (is_conn_specific name) eqn:Ec; [by intros [= <- <-]|].
  destruct (nm_eq name (B "te") && _) eqn:Ete; [by intros [= <- <-]|]. destruct trailer; [by intros [= <- <-]|].
  cbn [x_headers x_set_seen_regular].
  destruct (zhs_hdrs_add_ (x_headers x) name value lim false) as [a hs] eqn:Ea.
  destruct Hx as [Hw Hn]. unfold SIZE_MAX in *.
  destruct (hdrs_add_wf lim _ name value false a hs Hw ltac:(unfold SIZE_MAX; lia) Hsz Ea) as (Hw' & Hv & Hu).
  assert (Forall h2_name_ok (h_v hs)) as Hn'.
  { destruct (decide (a = ZCIO_OK)) as [->|Hne]; [|by rewrite Hu]. rewrite Hv by done.
    apply Forall_app. split; [done|]. constructor; [|constructor]. unfold h2_name_ok. cbn.
    rewrite (lower_token_no_nul name Et). split; [done|]. split; [done|]. intros ->.
    cbn in Ete. unfold nm_eq in Ete. apply negb_false_iff, bool_decide_eq_true in Ete. by rewrite Ete. }
  repeat (bcase; [by intros [= <- <-]|]). by intros [= <- <-].
Qed.

Lemma run_emits_inv lim trailer fs x r x' : lims_ok lim → hdrctx_ok lim x →
  fields_size fs < 2 ^ 63 → run_emits (h2_emit lim trailer) x fs = (r, x') → hdrctx_ok lim x'.
Proof.
  intros Hl. revert x. induction fs as [|[n v] fs IH]; intros x Hx Hs; cbn [run_emits fields_size] in *.
  { by intros [= <- <-]. }
  pose proof (fields_size_nonneg fs).
  destruct (h2_emit lim trailer x n v) as [e x1] eqn:Ee.
  assert (hdrctx_ok lim x1) as Hx1 by (eapply emit_ok_inv; [done|done| |exact Ee]; lia).
  destruct (negb _); [by intros [= <- <-]|]. apply IH; [done|lia].
Qed.
End Decode.

(** ** Responding and dispatching *)

Section Dispatch.
Context `{Allocator} `{Server}.

(** Everything a write to the stream table leaves alone. *)
Definition same_core (c c' : zh2_conn) : Prop :=
  h2_last_client_id c' = h2_last_client_id c ∧ h2_peer_initial_window c' = h2_peer_initial_window c ∧
  h2_got_error c' = h2_got_error c.

Lemma upd_step c id f s : h2_base c → find_stream c id = Some s →
  (stream_ok (h2_lim c) (h2_last_client_id c) (h2_peer_initial_window c) (h2_got_error c) s →
   stream_ok (h2_lim c) (h2_last_client_id c) (h2_peer_initial_window c) (h2_got_error c) (f s)) →
  st_id (f s) = st_id s →
  keeps c (upd_stream id f c) ∧ find_stream (upd_stream id f c) id = Some (f s) ∧
  same_core c (upd_stream id f c).
Proof.
  intros Hb Hf Hok Hid. destruct (find_stream_ok c id s Hb Hf) as [_ Hs]. split; [|split].
  - apply upd_keeps; [done|]. intros s' Hs' Ho. rewrite Hf in Hs'. injection Hs' as <-. auto.
  - rewrite (find_upd c id f s id Hf) by congruence. by rewrite Z.eqb_refl.
  - unfold upd_stream. by destruct (find_index c id).
Qed.

Lemma respond_frames_shape fuel c first hb maxf id fb : buf_wf (h2_out c) →
  ∃ r out', respond_frames fuel c first hb maxf id fb = (r, h2_set_out out' c) ∧ buf_wf out'.
Proof.
  revert c first fb. induction fuel as [|fuel IH]; intros c first fb Hw; cbn [respond_frames].
  { exists ZCIO_OK, (h2_out c). split; [by destruct c|done]. }
  match goal with |- context [h2_frame c ?a ?b ?d ?e ?f] =>
    destruct (frame_shape c a b d e f Hw) as (r & out' & -> & Hw' & _) end.
  destruct (negb (r =? ZCIO_OK)); [by do 2 eexists|]. destruct (_ =? zlen fb); [by do 2 eexists|].
  destruct (IH (h2_set_out out' c) false (zdrop (if maxf <? zlen fb then maxf else zlen fb) fb) Hw')
    as (r2 & o2 & -> & Hw2). by exists r2, o2.
Qed.

(** The stream being answered stays in the table, dispatched. *)
Definition answering (c0 : zh2_conn) (e : bool) (c : zh2_conn * Z) : Prop :=
  keeps c0 c.1 ∧ ∃ s, find_stream c.1 c.2 = Some s ∧ st_dispatched s = true ∧ st_end_stream_recv s = e.

Lemma answering_upd c0 e c id f : answering c0 e (c, id) →
  (∀ s lim last init err, stream_ok lim last init err s → find_stream c id = Some s →
     stream_ok lim last init err (f s)) →
  (∀ s, st_id (f s) = st_id s ∧ st_dispatched (f s) = st_dispatched s ∧
        st_end_stream_recv (f s) = st_end_stream_recv s) →
  answering c0 e (upd_stream id f c, id).
Proof.
  intros (Hk & s & Hs & Hd & He) Hok Hf. cbn [fst snd] in *. destruct (Hf s) as (Hi & Hdf & Hef).
  destruct (upd_step c id f s (proj1 Hk) Hs) as (Hk' & Hs' & _); [intros; by apply Hok|done|].
  split; [by eapply keeps_trans|]. exists (f s). cbn [fst snd]. split; [done|]. split; congruence.
Qed.

Lemma answering_out c0 e c id o out' : answering c0 e (c, id) → buf_wf out' →
  answering c0 e (h2_set_oom o (h2_set_out out' c), id).
Proof.
  intros (Hk & s & Hs) Hw. split; [|by exists s]. eapply keeps_trans; [exact Hk|]. apply base_out; [apply Hk|done].
Qed.

Lemma answering_oom c0 e c id o : answering c0 e (c, id) → answering c0 e (h2_set_oom o c, id).
Proof.
  intros Ha. pose proof (answering_out c0 e c id o (h2_out c) Ha (hb_out c (proj1 (proj1 Ha)))) as Hx.
  by destruct c.
Qed.

Lemma answering_resp c0 e c id b : answering c0 e (c, id) →
  (∀ s, find_stream c id = Some s → buf_wf b ∧ b_off b = 0 ∧ st_body_off s ≤ b_len b) →
  answering c0 e (upd_stream id (st_set_resp_body b) c, id).
Proof.
  intros Ha Hb. apply (answering_upd c0 e); [done| |by intros []].
  intros s lim last init err [] Hs. destruct (Hb s Hs) as (? & ? & ?). constructor; try done. cbn. lia.
Qed.

Lemma respond_answering c0 e c id status hdrs bd n : answering c0 e (c, id) →
  answering c0 e (snd (zh2_respond c id status hdrs bd n), id).
Proof.
  intros Ha. unfold zh2_respond. destruct (find_stream c id) as [st|] eqn:Es; [|done].
  destruct (st_responded st); [done|]. destruct (field_block _ _ _) as [r fb].
  destruct (negb (r =? ZCIO_OK)); [by apply answering_oom|]. set (hb := bool_decide _ && _ && _ && _ && _ && _).
  set (maxf := if h2_peer_max_frame c =? 0 then _ else _). set (data := ztake _ _).
  destruct (respond_frames_shape (S (length data)) c true hb maxf id data) as (r1 & out' & -> & Hw);
    [apply hb_out, Ha|].
  assert (answering c0 e (h2_set_out out' c, id)) as Ha1.
  { pose proof (answering_out c0 e c id (h2_oom c) out' Ha Hw) as Hx. by destruct c. }
  destruct (negb (r1 =? ZCIO_OK)); [by apply answering_oom|].
  set (f := λ s, st_set_req _ _).
  assert (answering c0 e (upd_stream id f (h2_set_out out' c), id)) as Ha2.
  { apply answering_upd; [done| |by intros []]. intros s lim last init err [] _. by constructor. }
  assert (find_stream (upd_stream id f (h2_set_out out' c)) id = Some (f st)) as Hf.
  { rewrite (find_upd (h2_set_out out' c) id f st id Es), Z.eqb_refl; [done|].
    by destruct (find_stream_ok c id st (proj1 (proj1 Ha)) Es). }
  destruct hb.
  2:{ apply answering_upd; [done| |by intros []]. intros s lim last init err [] _. by constructor. }
  destruct (find_stream_ok c id st (proj1 (proj1 Ha)) Es) as [Hst _].
  destruct (append_cases (st_resp_body st) (ztake n (default [] bd)) (so_resp _ _ _ _ _ Hst))
    as (a & b & -> & Hbw & Hr & _).
  assert (b_off b = 0 ∧ b_len (st_resp_body st) ≤ b_len b) as [Hb0 Hbl].
  { pose proof (so_resp_off _ _ _ _ _ Hst). destruct Hr as [(_ & Hl & _ & Ho)|[_ ->]]; lia. }
  pose proof (so_off _ _ _ _ _ Hst) as Hoff.
  destruct (negb (a =? ZCIO_OK)).
  - apply answering_oom, answering_resp; [done|]. intros s Hs. rewrite Hf in Hs. injection Hs as <-. cbn. lia || (split; [done|split; [done|lia]]).
  - cbn [snd]. apply answering_upd; [done| |by intros []].
    intros s lim last init err [] Hs. rewrite Hf in Hs. injection Hs as <-. constructor; try done. cbn. lia.
Qed.

Lemma dispatch_req_facts sec id r : buf_wf (body r) →
  buf_wf (body (dispatch_req sec id r)) ∧ b_len (body (dispatch_req sec id r)) = b_len (body r).
Proof.
  intros Hw. unfold dispatch_req. cbn. destruct (buf_reserve_spec (body r) 1 Hw) as (e & b & -> & Hw' & _ & Hl & _);
    [lia|]. done.
Qed.

Lemma reset_req_ok lim last init err s : 0 ≤ max_body_bytes lim → st_dispatched s = true →
  stream_ok lim last init err s →
  stream_ok lim last init err (st_set_req (zhs_req_reset_ (st_req s)) s).
Proof.
  intros Hm Hd []. constructor; try done. cbn. congruence.
Qed.

Lemma close_done_keeps c id : h2_base c → keeps c
  (match find_index c id with
   | Some i => match h2_streams c !! i with
               | Some s => if st_send_done s && st_end_stream_recv s then stream_close c i else c
               | None => c
               end
   | None => c
   end).
Proof.
  intros Hb. destruct (find_index c id) as [i|]; [|done]. destruct (h2_streams c !! i) as [s|] eqn:E; [|done].
  destruct (_ && _); [|done]. apply close_keeps; [done|]. by apply lookup_lt_Some in E.
Qed.

(** Marking the stream before the handler runs. *)
Lemma dispatch_begins c id st : h2_base c → find_stream c id = Some st → st_end_stream_recv st = true →
  answering c (st_end_stream_recv st)
    (upd_stream id (λ s, st_set_req (dispatch_req (h2_secure c) id (st_req s)) (st_set_dispatched true s)) c, id).
Proof.
  intros Hb Hs He. set (f := λ s, st_set_req _ _). destruct (upd_step c id f st Hb Hs) as (Hk & Hf & _); [|done|].
  - intros []. destruct (dispatch_req_facts (h2_secure c) id (st_req st) so_body0) as [G1 G2].
    constructor; try done. unfold f. cbn [st_req st_set_req]. lia.
  - split; [done|]. by exists (f st).
Qed.

Lemma dispatch_keeps c id : h2_base c →
  (∀ st, find_stream c id = Some st → st_end_stream_recv st = true) → keeps c (h2_dispatch c id).
Proof.
  intros Hb Hend. unfold h2_dispatch. destruct (find_stream c id) as [st|] eqn:Es; [|done].
  destruct (st_dispatched st); [done|].
  pose proof (dispatch_begins c id st Hb Es (Hend st eq_refl)) as Ha. set (c1 := upd_stream id _ c) in *.
  destruct (dispatch_preserves (H1 := h2_transport) (λ c', answering c (st_end_stream_recv st) c' ∧ c'.2 = id)) with (c := (c1, id))
    as (rc & [c2 id2] & -> & [Ha2 Hid] & _).
  - intros [c' i] [Ha' Hi]. cbn in *. subst i. split; [|done].
    apply answering_upd; [done| |by intros []]. intros s lim last init err [] _. by constructor.
  - intros [c' i] s h b n [Ha' Hi]. cbn in *. subst i.
    pose proof (respond_answering c (st_end_stream_recv st) c' id s h b n Ha') as Hr.
    destruct (zh2_respond c' id s h b n) as [r c'']. done.
  - done.
  - done.
  - cbn in Hid. subst id2. destruct Ha2 as (Hk & s & Hs & Hd & _). cbn [fst snd] in *.
    set (g := λ s, st_set_req (zhs_req_reset_ (st_req s)) s).
    destruct (upd_step c2 id g s (proj1 Hk) Hs) as (Hk' & _); [|done|].
    + apply reset_req_ok; [|done]. destruct (hb_lim c2 (proj1 Hk)) as [(_ & _ & ? & _) _]. done.
    + eapply keeps_trans; [exact Hk|]. eapply keeps_trans; [exact Hk'|]. apply close_done_keeps, Hk'.
Qed.
End Dispatch.

(** ** Complete header blocks *)

Section Headers.
Context `{Allocator}.

(** No header block is open and the stream has its complete request. *)
Definition ready (c : zh2_conn) (id : Z) : Prop :=
  hdr_active (h2_hdr c) = false ∧ ∃ st, find_stream c id = Some st ∧ st_end_stream_recv st = true ∧ st_got_headers st = true.

Definition dispatch_opt (S : Server) (c : zh2_conn) (od : option Z) : zh2_conn :=
  match od with Some id => h2_dispatch c id | None => c end.

(** Whatever the server, the operation brings the connection to one state that
    satisfies [P] and ends there, or by dispatching a request that is ready. *)
Definition settles (op : Server → exec zh2_conn) (P : zh2_conn → Prop) : Prop :=
  ∃ c' od, (∀ S, op S = Ok (dispatch_opt S c' od)) ∧ P c' ∧ ∀ id, od = Some id → ready c' id.

Lemma settles_now (op : Server → exec zh2_conn) (P : zh2_conn → Prop) c' : (∀ S, op S = Ok c') → P c' → settles op P.
Proof. intros E Hp. by exists c', None. Qed.

Lemma settles_dispatch (op : Server → exec zh2_conn) (P : zh2_conn → Prop) c' id :
  (∀ S, op S = Ok (h2_dispatch c' id)) → P c' → ready c' id → settles op P.
Proof. intros E Hp Hr. exists c', (Some id). split; [exact E|]. split; [done|]. by intros ? [= <-]. Qed.

Lemma settles_weaken op (P Q : zh2_conn → Prop) : (∀ c, P c → Q c) → settles op P → settles op Q.
Proof. intros Hpq (c' & od & E & Hp & Hr). exists c', od. auto. Qed.

Lemma settles_spec (S : Server) op (P : zh2_conn → Prop) :
  (∀ c, P c → h2_base c) → (∀ c c', P c → hdr_active (h2_hdr c) = false → keeps c c' → P c') →
  settles op P → ∃ c', op S = Ok c' ∧ P c'.
Proof.
  intros Hpb Hpk (c' & od & E & Hp & Hr). exists (dispatch_opt S c' od). split; [done|].
  destruct od as [id|]; [|done]. cbn. destruct (Hr id eq_refl) as (Ha & st' & E' & ? & _).
  apply (Hpk c'); [done..|]. apply dispatch_keeps; [auto|]. congruence.
Qed.

Lemma set_req_step c id s f : h2_base c → find_stream c id = Some s → st_got_headers s = false →
  (∀ r, body (f r) = body r) →
  let c' := upd_stream id (λ s, st_set_req (f (st_req s)) s) c in
  keeps c c' ∧ find_stream c' id = Some (st_set_req (f (st_req s)) s).
Proof.
  intros Hb Hs Hg Hf c'. destruct (upd_step c id (λ s, st_set_req (f (st_req s)) s) s Hb Hs) as (Hk & Hfs & _);
    [|done|done]. intros []. constructor; try done; cbn; try (by rewrite Hf). congruence.
Qed.

Lemma oom_keeps c v : h2_base c → keeps c (h2_set_oom v c).
Proof. intros []. split; [|done]. by constructor. Qed.

Lemma accept_keeps c id x e s : h2_base c → find_stream c id = Some s → st_got_headers s = false →
  st_dispatched s = false → hdr_active (h2_hdr c) = false → hdrctx_ok (h2_lim c) x →
  settles (λ S, accept_request c id x e) (keeps c).
Proof.
  intros Hb Hs Hg Hd Ha [Hxw Hxn]. unfold accept_request.
  assert (∀ code, settles (λ _, Ok (rst_stream c id code)) (keeps c)) as Hrst.
  { intros code. eapply settles_now; [done|]. by apply rst_keeps. }
  destruct (x_method x) as [m|]; [|apply Hrst]. destruct (x_scheme x); [|apply Hrst].
  destruct (x_path x) as [p|]; [|apply Hrst].
  destruct (negb (zhs_token_ok_ (cstr m))) eqn:Em; [by apply Hrst|]. btest.
  destruct (set_req_step c id s (req_set_method (Some (cstr m))) Hb Hs Hg ltac:(done)) as [Hk1 Hs1].
  set (c1 := upd_stream id _ c) in *.
  destruct (decode_target_result (cstr p) (h2_lim c1)) as (pr & po & qo & -> & _ & _ & Hok).
  cbn [mbind exec_bind]. destruct (negb (pr =? ZCIO_OK)) eqn:Ep.
  { eapply settles_now; [done|]. eapply keeps_trans; [exact Hk1|].
    destruct (pr =? ZCIO_ERR_NOMEM); [by apply oom_keeps, Hk1|]. apply rst_keeps, Hk1. }
  btest. destruct (Hok Ep) as [_ Hpath].
  assert ((∃ p', po = Some p' ∧ path_clean p') ∧ (∀ q, qo = Some q → zhs_value_ok_ q = true)) as [Hpo Hqo].
  { destruct Hpath as [(_ & -> & ->)|(segs & -> & ? & ? & _ & ?)].
    - split; [|done]. eexists. split; [done|]. by left.
    - split; [|done]. eexists. split; [done|]. right. by exists segs. }
  destruct (set_req_step c1 id _ (λ r, req_set_query qo (req_set_path po r)) (proj1 Hk1) Hs1 Hg ltac:(done))
    as [Hk2 Hs2]. set (c2 := upd_stream id _ c1) in *.
  set (dup := zcio_strdup_ (h2_authority x)).
  destruct (set_req_step c2 id _ (req_set_authority dup) (proj1 Hk2) Hs2 Hg ltac:(done)) as [Hk3 Hs3].
  set (c3 := upd_stream id _ c2) in *.
  assert (keeps c c3) as Hk by (eapply keeps_trans; [exact Hk1|]; by eapply keeps_trans).
  destruct (_ && _).
  { eapply settles_now; [done|]. eapply keeps_trans; [exact Hk|]. apply oom_keeps, Hk3. }
  set (hh := λ r, req_set_headers (x_headers x) (req_set_is_head (bool_decide (cstr m = B "HEAD")) r)).
  destruct (set_req_step c3 id _ hh (proj1 Hk3) Hs3 Hg ltac:(done)) as [Hk4 Hs4].
  set (c4 := upd_stream id _ c3) in *.
  set (g := λ s, st_set_end_stream_recv e (st_set_got_headers true s)).
  destruct (upd_step c4 id g _ (proj1 Hk4) Hs4) as (Hk5 & Hs5 & _); [|done|].
  { intros []. constructor; try done; [cbn; congruence|]. intros _ _. split; [|].
    - unfold line_good. cbn. split; [eauto|]. split; done.
    - cbn. assert (h2_lim c4 = h2_lim c) as -> by (rewrite (proj1 (proj2 Hk4)); apply Hk).
      split; [done|]. split; [done|]. assert (h2_lim c4 = h2_lim c) as HL by (rewrite (proj1 (proj2 Hk4)); apply Hk).
      rewrite HL in so_cap0. exact so_cap0. }
  assert (keeps c (upd_stream id g c4)) as Hk6.
  { eapply keeps_trans; [exact Hk|]. by eapply keeps_trans. }
  destruct e; [eapply settles_dispatch|eapply settles_now]; [done|exact Hk6| |done|exact Hk6].
  split; [by rewrite (proj2 (proj2 Hk6))|]. eexists. split; [exact Hs5|done].
Qed.

(** The block is done with. *)
Definition finished (c c' : zh2_conn) : Prop :=
  h2_base c' ∧ h2_lim c' = h2_lim c ∧ hdr_active (h2_hdr c') = false.

Lemma finished_keeps c c1 c' : finished c c1 → keeps c1 c' → finished c c'.
Proof. intros (_ & L & A) (G1 & G2 & G3). split; [done|]. split; [by rewrite G2|by rewrite G3]. Qed.

Lemma finish_headers_spec c : h2_base c → linked c → settles (λ S, h2_finish_headers c) (finished c).
Proof.
  intros Hb Hlk. unfold h2_finish_headers. destruct (hb_block c Hb) as (Hbw & Hby & Hbl).
  destruct (hb_lim c Hb) as [Hlim Hms]. pose proof Hlim as (Hmh & _ & Hmb).
  pose proof (zlen_contents _ Hbw) as Hzl. pose proof Hbw as (Hbo & _).
  destruct (zhp_decode_total _ zh2_hdrctx (h2_emit (h2_lim c) (hdr_trailer (h2_hdr c))) (h2_dec c)
    (buf_contents (hdr_block (h2_hdr c))) (max_header_bytes (h2_lim c)) hdrctx_empty Hby)
    as (dr & d & x & -> & Hd & fs & r & Hrun & Hfs & _); [unfold ZHS_AVAIL in *; lia|apply hb_dec, Hb|lia|].
  cbn [mbind exec_bind].
  assert (hdrctx_ok (h2_lim c) x) as Hx.
  { refine (run_emits_inv _ _ fs _ _ _ Hlim _ _ Hrun); [|lia]. split; [|constructor].
    apply hdrs_empty_wf; [apply Hlim|lia]. }
  set (c1 := h2_set_hdr _ _).
  assert (h2_base c1 ∧ hdr_active (h2_hdr c1) = false) as [Hb1 Ha1].
  { destruct (reset_spec _ Hbw) as [Hrw Hrc]. split; [|done]. destruct Hb. constructor; try done; cbn.
    split; [done|]. rewrite Hrc. split; [constructor|lia]. }
  assert (∀ c', keeps c1 c' → settles (λ _, Ok c') (finished c)) as Hret.
  { intros c' Hk. eapply settles_now; [done|]. by apply (finished_keeps c c1). }
  destruct (_ || _); [by apply Hret, oom_keeps|].
  destruct (_ && _); [by apply Hret, conn_error_keeps|].
  destruct (x_herr x =? _); [apply Hret; destruct (hdr_stream (h2_hdr c)); [by apply rst_keeps|by apply queue_keeps]|].
  destruct (negb (hdr_refuse _ =? 0)); [by apply Hret, queue_keeps|].
  destruct (hdr_stream (h2_hdr c)) as [id|] eqn:Eid; [|by apply Hret, queue_keeps].
  destruct (Hlk id Eid) as (s & Hs & He & Hdis & Hg). change (find_stream c id) with (find_stream c1 id) in Hs.
  destruct (hdr_trailer (h2_hdr c)).
  - destruct (negb _); [by apply Hret, rst_keeps|].
    destruct (upd_step c1 id (st_set_end_stream_recv true) s Hb1 Hs) as (Hk & Hs' & _); [by intros []|done|].
    eapply settles_dispatch; [done|by apply (finished_keeps c c1)|]. split; [by rewrite (proj2 (proj2 Hk))|]. by eexists.
  - eapply settles_weaken; [|exact (accept_keeps c1 id x (hdr_end_stream (h2_hdr c)) s Hb1 Hs Hg Hdis Ha1 Hx)].
    intros c'. by apply finished_keeps.
Qed.

Lemma accumulate_spec c frag : h2_base c → is_bytes frag →
  ∃ ok c', hdr_accumulate c frag = (ok, c') ∧ h2_base c' ∧ h2_lim c' = h2_lim c ∧
    h2_streams c' = h2_streams c ∧ h2_last_client_id c' = h2_last_client_id c ∧
    ∃ b, h2_hdr c' = hdr_set_block b (h2_hdr c).
Proof.
  intros Hb Hf. unfold hdr_accumulate. destruct (hb_block c Hb) as (Hbw & Hby & Hbl).
  destruct (hb_lim c Hb) as [(Hmh & _) _]. unfold SIZE_MAX. bcase; [lia|].
  pose proof Hbw as (Hbo & _).
  bcase.
  { do 2 eexists. split; [done|]. destruct (conn_error_keeps c ZH2_E_ENHANCE_YOUR_CALM Hb) as (Hb' & L & D).
    split; [done|]. split; [done|].
    destruct (goaway_shape c ZH2_E_ENHANCE_YOUR_CALM (hb_out c Hb)) as (out' & o & g & E & _).
    unfold conn_error. rewrite E. split; [done|]. split; [done|]. exists (hdr_block (h2_hdr c)). cbn. by destruct (h2_hdr c). }
  rewrite wrap_small in Heqb0 by lia.
  destruct (append_cases (hdr_block (h2_hdr c)) frag Hbw) as (a & b & -> & Hbw' & Hr & _).
  assert (h2_base (h2_set_hdr (hdr_set_block b (h2_hdr c)) c)) as Hb1.
  { destruct Hb. constructor; try done. cbn. split; [done|].
    destruct Hr as [(_ & Hl & -> & _)|(_ & ->)]; [|done]. split; [by apply Forall_app|lia]. }
  destruct (negb _); (do 2 eexists; split; [done|]).
  - split; [by apply oom_keeps|]. split; [done|]. split; [done|]. split; [done|]. by exists b.
  - split; [done|]. split; [done|]. split; [done|]. split; [done|]. by exists b.
Qed.

(** What a frame handler establishes. *)
Definition handled (c : zh2_conn) (c' : zh2_conn) : Prop :=
  h2_base c' ∧ h2_lim c' = h2_lim c ∧ (hdr_active (h2_hdr c') = true → linked c').

Lemma keeps_handled c c' : hdr_active (h2_hdr c) = false → keeps c c' → handled c c'.
Proof. intros Ha (G1 & G2 & G3). split; [done|]. split; [done|]. rewrite G3. congruence. Qed.

Lemma linked_same c c' b : linked c → h2_streams c' = h2_streams c → h2_hdr c' = hdr_set_block b (h2_hdr c) →
  linked c'.
Proof.
  intros Hl Hs Hh id Hid. rewrite Hh in Hid. cbn in Hid. destruct (Hl id Hid) as (s & Hf & R).
  exists s. rewrite (find_keep _ c' id Hs). split; [done|]. rewrite Hh. exact R.
Qed.

Lemma handled_keeps c c1 c' : handled c c1 → hdr_active (h2_hdr c1) = false → keeps c1 c' → handled c c'.
Proof. intros (_ & L & _) Ha (G1 & G2 & G3). split; [done|]. split; [by rewrite G2|by rewrite G3, Ha]. Qed.

Lemma settles_handled (S : Server) op c : settles op (handled c) → ∃ c', op S = Ok c' ∧ handled c c'.
Proof. apply settles_spec; [by intros c1 [? _]|apply handled_keeps]. Qed.

Lemma settles_keeps (S : Server) op c : settles op (keeps c) → ∃ c', op S = Ok c' ∧ keeps c c'.
Proof. apply settles_spec; [by intros c1 [? _]|]. intros c1 c2 Hk _. exact (keeps_trans _ _ _ Hk). Qed.

(** Accumulate a fragment, then finish the block when it is complete. *)
Lemma fragment_spec c frag (fin : bool) : h2_base c → is_bytes frag → linked c →
  settles (λ S, let '(ok, c) := hdr_accumulate c frag in
                if negb ok then Ok c else if fin then h2_finish_headers c else Ok c) (handled c).
Proof.
  intros Hb Hf Hl. destruct (accumulate_spec c frag Hb Hf) as (ok & c1 & -> & Hb1 & L1 & S1 & _ & b & D1).
  assert (linked c1) as Hl1 by (by eapply linked_same).
  destruct (negb ok); [by eapply settles_now|]. destruct fin; [|by eapply settles_now].
  eapply settles_weaken; [|exact (finish_headers_spec c1 Hb1 Hl1)].
  intros c2 (Hb2 & L2 & A2). split; [done|]. split; congruence.
Qed.
End Headers.

(** ** Reading a payload *)

Lemma be_bound s acc : is_bytes s → 0 ≤ acc →
  0 ≤ fold_left (λ v b, v * 256 + b) s acc < (acc + 1) * 256 ^ Z.of_nat (length s).
Proof.
  revert acc. induction s as [|b s IH]; intros acc Hs Ha.
  { cbn [fold_left length]. change (256 ^ Z.of_nat 0) with 1. lia. }
  apply Forall_cons_1 in Hs as [Hb Hs]. cbn [fold_left length]. unfold is_byte in Hb.
  destruct (IH (acc * 256 + b) Hs) as [H1 H2]; [lia|]. split; [done|].
  rewrite Nat2Z.inj_succ, Z.pow_succ_r by lia.
  assert (0 < 256 ^ Z.of_nat (length s)) by (apply Z.pow_pos_nonneg; lia). nia.
Qed.

Lemma slice_bytes off n (p : bytes) : is_bytes p → is_bytes (slice off n p).
Proof. intros Hp. unfold slice. by apply Forall_take, Forall_drop. Qed.

Lemma rd_ok off n p : is_bytes p → 0 ≤ off → 0 ≤ n → off + n ≤ zlen p →
  ∃ v, be <$> mem_read off n p = Ok v ∧ 0 ≤ v < 256 ^ n.
Proof.
  intros Hp Ho Hn Hl. rewrite mem_read_ok by done. exists (be (slice off n p)). split; [done|].
  destruct (be_bound (slice off n p) 0 (slice_bytes off n p Hp)) as [H1 H2]; [done|].
  unfold be. rewrite zlen_slice in H2 by done. lia.
Qed.

Lemma strip_spec flags prio p : is_bytes p →
  ∃ o, strip flags prio p = Ok o ∧ ∀ d, o = Some d → is_bytes d ∧ zlen d ≤ zlen p.
Proof.
  intros Hp. unfold strip. set (padded := flag flags ZH2_FL_PADDED). set (pri := prio && _).
  destruct (padded && _) eqn:E1; [by eexists|].
  assert (∃ pad, (if padded then rd8 p 0 else Ok 0) = Ok pad ∧ 0 ≤ pad) as (pad & -> & Hpad).
  { destruct padded; [|by exists 0]. cbn [andb] in E1. btest.
    destruct (rd_ok 0 1 p Hp) as (v & E & Hv); [lia..|]. exists v. split; [exact E|lia]. }
  cbn [mbind exec_bind]. set (off := if padded then 1 else 0).
  destruct (pri && _) eqn:E2; [by eexists|]. set (off' := if pri then off + 5 else off).
  assert (0 ≤ off' ≤ zlen p) as Ho.
  { unfold off', off in *. destruct padded, pri; cbn [andb] in *; btest; lia. }
  bcase; [by eexists|]. rewrite mem_read_ok by lia. eexists. split; [done|].
  intros d [= <-]. split; [by apply slice_bytes|]. rewrite zlen_slice; lia.
Qed.

(** ** Frame handlers *)

Section Frames.
Context `{Allocator} `{Server}.

Lemma base_err c : h2_base c → h2_base (h2_set_got_error true c).
Proof.
  intros []. constructor; try done; [|split; [apply hb_cont0|done]].
  eapply Forall_impl; [exact hb_streams0|]. intros s. apply stream_ok_err.
Qed.

(** The connection may already break the bounds that an error suspends. *)
Lemma conn_error_base c code : h2_base (h2_set_got_error true c) → keeps c (conn_error c code).
Proof.
  intros Hb. unfold conn_error. destruct (goaway_shape c code (hb_out _ Hb)) as (out' & o & g & -> & Hw).
  destruct Hb. split; [|done]. by constructor.
Qed.

Lemma begin_spec c flags id st refuse trailer frag : h2_base c → is_bytes frag →
  (∀ i, st = Some i → ∃ s, find_stream c i = Some s ∧ st_end_stream_recv s = false ∧
    st_dispatched s = false ∧ st_got_headers s = trailer) →
  settles (λ S, begin_headers c flags id st refuse trailer frag) (handled c).
Proof.
  intros Hb Hf Hst. unfold begin_headers. set (c1 := h2_set_hdr _ c).
  assert (h2_base c1) as Hb1.
  { destruct (hb_block c Hb) as (Hbw & _). destruct (hb_lim c Hb) as [(Hmh & _) _].
    destruct (reset_spec _ Hbw) as [Hrw Hrc].
    destruct Hb. constructor; try done; cbn. split; [done|]. rewrite Hrc. split; [constructor|lia]. }
  eapply settles_weaken; [|apply (fragment_spec c1 frag (flag flags ZH2_FL_END_HEADERS) Hb1 Hf)]; [done|].
  intros i Hi. destruct (Hst i Hi) as (s & Hs & R). by exists s.
Qed.

Lemma index_of_snoc l s : st_id s ∉ map st_id l → index_of (l ++ [s]) (st_id s) = Some (length l).
Proof.
  induction l as [|x l IH]; cbn [app index_of map length]; intros Hn; [by rewrite Z.eqb_refl|].
  rewrite elem_of_cons in Hn. bcase; [exfalso; auto|]. rewrite IH by auto. done.
Qed.

Lemma stream_new_spec c id : h2_base c → find_stream c id = None → 1 ≤ id ≤ h2_last_client_id c →
  h2_open_count c < max_streams (h2_lim c) →
  ∃ ok c', h2_stream_new c id = (ok, c') ∧ keeps c c' ∧
    (ok = true → ∃ s, find_stream c' id = Some s ∧ st_end_stream_recv s = false ∧
       st_dispatched s = false ∧ st_got_headers s = false).
Proof.
  intros Hb Hf Hid Ho. pose proof (find_stream_spec c id) as Hn. rewrite Hf in Hn. destruct Hn as [_ Hn].
  unfold h2_stream_new. set (full := _ =? h2_streams_cap c). set (ncap := if h2_streams_cap c =? 0 then _ else _).
  destruct (full && _); [exists false, c; split; [done|]; by split|].
  set (c1 := if full then _ else c).
  assert (keeps c c1 ∧ h2_streams c1 = h2_streams c ∧ h2_open_count c1 = h2_open_count c ∧ same_core c c1 ∧
    h2_lim c1 = h2_lim c) as (Hk & Hs & Hoc & (Hc1 & Hc2 & Hc3) & HL).
  { unfold c1. destruct full; [|done]. destruct Hb. split; [|done]. split; [|done]. by constructor. }
  clearbody c1. destruct (negb _); [exists false, c1; by split|].
  set (st := mk_stream2 id _ _ _ _ _ _ _ _ _ _ _ _). exists true. eexists. split; [done|].
  destruct (hb_lim c Hb) as [[_ [_ Hmb]] Hms]. pose proof (hb_init c Hb) as Hin.
  assert (stream_ok (h2_lim c) (h2_last_client_id c) (h2_peer_initial_window c) (h2_got_error c) st) as Hst.
  { constructor; try (by cbn); cbn; unfold low_water, ZH2_OUR_INITIAL_WINDOW, ZH2_MAX_WINDOW in *; rewrite ?Hc2; try lia. }
  split.
  - eapply keeps_trans; [exact Hk|]. pose proof (proj1 Hk) as Hb1. destruct Hb1. split; [|done].
    constructor; try done; cbn.
    + rewrite map_app. apply NoDup_app. split; [done|]. split; [|apply NoDup_singleton].
      intros i Hi Hj. apply list_elem_of_singleton in Hj. subst i. rewrite Hs in Hi. by apply Hn.
    + apply Forall_app. split; [done|]. constructor; [|constructor]. rewrite HL, Hc1, Hc2, Hc3. exact Hst.
    + destruct hb_open0 as [E1 E2]. rewrite length_app. cbn [length].
      rewrite wrap_small by (rewrite Hoc; destruct (hb_open c Hb); lia). rewrite HL. lia.
  - intros _. exists st. split; [|done]. unfold find_stream, find_index. cbn. rewrite Hs.
    change id with (st_id st). rewrite index_of_snoc by done. cbn.
    rewrite lookup_app_r, Nat.sub_diag by lia. done.
Qed.

Lemma on_headers_spec c flags id payload : h2_base c → hdr_active (h2_hdr c) = false → is_bytes payload →
  0 ≤ id < 2 ^ 31 → settles (λ S, h2_on_headers c flags id payload) (handled c).
Proof.
  intros Hb Ha Hp Hid. unfold h2_on_headers.
  assert (∀ code, settles (λ _, Ok (conn_error c code)) (handled c)) as Herr.
  { intros code. eapply settles_now; [done|]. by apply keeps_handled, conn_error_keeps. }
  destruct (id =? 0) eqn:E0; [apply Herr|]. btest. destruct (strip_spec flags true payload Hp) as (o & -> & Hd).
  cbn [mbind exec_bind]. destruct o as [frag|]; [|apply Herr]. destruct (Hd frag eq_refl) as [Hfb _].
  destruct (find_stream c id) as [s|] eqn:Es.
  { destruct (find_stream_ok c id s Hb Es) as [Hok _].
    destruct (st_end_stream_recv s) eqn:Ee; [apply Herr|]. destruct (st_got_headers s) eqn:Eg; [|apply Herr].
    apply begin_spec; [done..|]. intros i [= <-]. exists s. ands.
    destruct (st_dispatched s) eqn:Ed; [|done]. pose proof (so_disp _ _ _ _ _ Hok Ed). congruence. }
  destruct (_ || _) eqn:Eo; [apply Herr|]. btest.
  set (c1 := h2_set_total_streams _ _). assert (keeps c c1) as Hk1.
  { destruct Hb. split; [|done]. constructor; try done. eapply Forall_impl; [exact hb_streams0|].
    intros s. apply stream_ok_last. cbn. lia. }
  match goal with |- context [let '(_, _) := ?x in _] => destruct x as [refuse c2] eqn:Er end.
  assert (keeps c1 c2 ∧ find_stream c2 id = None ∧ h2_last_client_id c2 = id ∧
    (refuse = 0 → h2_open_count c2 < max_streams (h2_lim c2))) as (Hk2 & Hf2 & HL2 & Hop).
  { pose proof (proj1 Hk1) as Hb1. destruct (h2_closing c1 || h2_peer_goaway c1); [injection Er as <- <-; done|].
    destruct (negb _ && _).
    - injection Er as <- <-. destruct (goaway_keeps c1 ZH2_E_NO_ERROR Hb1) as (G1 & G2 & G3).
      split; [eapply keeps_trans; [by split; [exact G1|split]|by apply closing_keeps]|].
      destruct (goaway_shape c1 ZH2_E_NO_ERROR (hb_out c1 Hb1)) as (out' & oo & g & -> & _). done.
    - destruct (_ <=? _) eqn:El; injection Er as <- <-; btest; done. }
  clear Er. pose proof (keeps_trans _ _ _ Hk1 Hk2) as Hk. clearbody c1.
  assert (∀ c' x, keeps c c' → handled c' x → handled c x) as Hh.
  { intros c' x (_ & L & _) (B1 & B2 & B3). split; [done|]. split; [congruence|done]. }
  destruct (negb (refuse =? 0)) eqn:Erf.
  { eapply settles_weaken; [|by apply (begin_spec c2 flags id None refuse false frag (proj1 Hk) Hfb)]. eauto. }
  btest. destruct (stream_new_spec c2 id (proj1 Hk) Hf2) as (ok & c3 & -> & Hk3 & Hs3); [lia|auto|].
  destruct ok; cbn [negb].
  - eapply settles_weaken; [|apply (begin_spec c3 flags id (Some id) 0 false frag (proj1 Hk3) Hfb)].
    + intros c'. apply Hh. exact (keeps_trans _ _ _ Hk Hk3).
    + intros i [= <-]. by apply Hs3.
  - eapply settles_now; [done|]. apply keeps_handled; [done|]. eapply keeps_trans; [exact Hk|].
    eapply keeps_trans; [exact Hk3|]. apply oom_keeps, Hk3.
Qed.

Lemma on_continuation_spec c flags payload : h2_base c → h2_got_error c = false → linked c →
  is_bytes payload → settles (λ S, h2_on_continuation c flags payload) (handled c).
Proof.
  intros Hb He Hl Hp. unfold h2_on_continuation. set (c1 := h2_set_hdr _ c).
  destruct (hb_cont c Hb) as [Hc0 Hc1]. specialize (Hc1 He). unfold ZH2_CONT_MAX in *.
  assert (cont_count (h2_hdr c1) = cont_count (h2_hdr c) + 1) as Hcc by (cbn; by rewrite wrap_small by lia).
  assert (linked c1) as Hl1 by exact Hl.
  bcase.
  - eapply settles_now; [done|]. destruct (conn_error_base c1 ZH2_E_ENHANCE_YOUR_CALM) as (G1 & G2 & G3).
    { destruct (base_err c Hb). constructor; try done. unfold ZH2_CONT_MAX in *. split; [|done]. cbn in Hcc |- *. lia. }
    split; [done|]. split; [done|]. intros _.
    destruct (goaway_shape c1 ZH2_E_ENHANCE_YOUR_CALM (hb_out c Hb)) as (out' & o & g & E & _).
    unfold conn_error. rewrite E. exact Hl1.
  - assert (h2_base c1) as Hb1.
    { destruct Hb. constructor; try done. unfold ZH2_CONT_MAX. rewrite Hcc in *. split; [lia|]. intros _. lia. }
    exact (fragment_spec c1 payload (flag flags ZH2_FL_END_HEADERS) Hb1 Hp Hl1).
Qed.

Lemma queue_streams c t f i p : h2_streams (queue c t f i p) = h2_streams c.
Proof. unfold queue, h2_frame. destruct ((put _ ▷ put _) (h2_out c)) as [r out]. by destruct (negb _). Qed.

Lemma recv_none_streams c len : h2_streams (recv_consume c None len) = h2_streams c.
Proof.
  unfold recv_consume. cbn [mbind option_bind]. destruct (_ <=? _); [|done]. unfold q_window_update. cbn.
  destruct (_ =? 0); [done|]. apply (queue_streams (h2_set_recv_window _ c)).
Qed.

Lemma on_data_spec c flags id payload : h2_base c → hdr_active (h2_hdr c) = false → is_bytes payload →
  zlen payload ≤ ZH2_OUR_MAX_FRAME → settles (λ S, h2_on_data c flags id payload) (keeps c).
Proof.
  intros Hb Ha Hp Hlen. unfold h2_on_data.
  assert (∀ code, settles (λ _, Ok (conn_error c code)) (keeps c)) as Herr.
  { intros code. eapply settles_now; [done|]. by apply conn_error_keeps. }
  assert (∀ c' st, keeps c c' → keeps c (recv_consume c' st (zlen payload))) as Hrecv.
  { intros c' st Hk. eapply keeps_trans; [exact Hk|]. apply recv_keeps; [apply Hk|lia]. }
  destruct (id =? 0); [apply Herr|]. destruct (_ <? _); [apply Herr|].
  destruct (find_stream c id) as [s|] eqn:Es.
  2:{ eapply settles_now; [done|]. destruct (_ <? id); [|by apply Hrecv].
      eapply keeps_trans; [by apply Hrecv|]. apply conn_error_keeps, Hrecv, keeps_refl, Hb. }
  destruct (find_stream_ok c id s Hb Es) as [Hok Hid].
  destruct (st_end_stream_recv s || negb (st_got_headers s)) eqn:Est; [apply Herr|]. btest.
  destruct (_ <? _); [eapply settles_now; [done|]; by apply Hrecv, rst_keeps|].
  destruct (strip_spec flags false payload Hp) as (o & -> & Hd). cbn [mbind exec_bind].
  destruct o as [data|]; [|apply Herr]. destruct (Hd data eq_refl) as [Hdb Hdl].
  destruct (_ <? zlen data) eqn:Ecap; btest; [eapply settles_now; [done|]; by apply Hrecv, rst_keeps|].
  destruct (hb_lim c Hb) as [(_ & _ & Hmb) _]. pose proof (so_body _ _ _ _ _ Hok) as Hbw.
  pose proof (so_cap _ _ _ _ _ Hok) as Hcap. pose proof Hbw as (Hbo & _).
  rewrite wrap_small in Ecap by lia.
  destruct (append_cases (body (st_req s)) data Hbw) as (a & b & -> & Hbw' & Hr & _).
  assert (b_len b ≤ max_body_bytes (h2_lim c)) as Hbl by (destruct Hr as [(_ & -> & _)|(_ & ->)]; lia).
  set (f := λ s, st_set_req (req_set_body b (st_req s)) s).
  destruct (upd_step c id f s Hb Es) as (Hk & Hfs & _); [|done|].
  { intros []. constructor; try done. intros G1 G2. destruct (so_good0 G1 G2) as (R1 & R2 & R3 & _). done. }
  set (c1 := upd_stream id f c) in *.
  destruct (negb (a =? ZCIO_OK)).
  { eapply settles_now; [done|]. eapply keeps_trans; [exact Hk|]. apply oom_keeps, Hk. }
  destruct (flag flags ZH2_FL_END_STREAM); [|eapply settles_now; [done|by apply Hrecv]].
  pose proof (Hrecv c1 None Hk) as Hk2. set (c2 := recv_consume c1 None _) in *.
  assert (find_stream c2 id = Some (f s)) as Hs2 by (rewrite (find_keep c1); [done|apply recv_none_streams]).
  destruct (upd_step c2 id (st_set_end_stream_recv true) _ (proj1 Hk2) Hs2) as (Hk3 & Hs3 & _);
    [by intros []|done|].
  pose proof (keeps_trans _ _ _ Hk2 Hk3) as Hk4. eapply settles_dispatch; [done|exact Hk4|].
  split; [by rewrite (proj2 (proj2 Hk4))|]. eexists. split; [exact Hs3|]. split; [done|].
  cbn. congruence.
Qed.

Lemma on_rst_keeps c id len : h2_base c → keeps c (h2_on_rst_stream c id len).
Proof.
  intros Hb. unfold h2_on_rst_stream. destruct (negb _); [by apply conn_error_keeps|].
  destruct (id =? 0); [by apply conn_error_keeps|].
  destruct (find_index c id) as [i|] eqn:Ei; [|destruct (_ <? _); [by apply conn_error_keeps|done]].
  pose proof (index_of_spec (h2_streams c) id) as Hi. unfold find_index in Ei. rewrite Ei in Hi.
  destruct Hi as (s & Hs & _). apply lookup_lt_Some in Hs.
  set (c1 := if negb _ then _ else c).
  assert (keeps c c1 ∧ h2_streams c1 = h2_streams c) as [Hk Hst].
  { unfold c1. destruct (negb _); [|done]. destruct Hb. split; [|done]. split; [|done]. by constructor. }
  assert (keeps c (stream_close c1 i)) as Hk2.
  { eapply keeps_trans; [exact Hk|]. apply close_keeps; [apply Hk|]. by rewrite Hst. }
  destruct (_ <? _); [|done]. eapply keeps_trans; [exact Hk2|]. apply conn_error_keeps, Hk2.
Qed.

(** ** Settings and windows *)

Lemma retarget_spec lim last init val l : 0 ≤ val ≤ ZH2_MAX_WINDOW → 0 ≤ init ≤ ZH2_MAX_WINDOW →
  Forall (stream_ok lim last init false) l →
  let '(ok, l') := retarget (val - init) l in
  map st_id l' = map st_id l ∧ Forall (stream_ok lim last val (negb ok)) l'.
Proof.
  intros Hv Hin. induction l as [|s l IH]; intros Hl; cbn [retarget]; [split; [done|constructor]|].
  apply Forall_cons_1 in Hl as [Hs Hl]. specialize (IH Hl).
  pose proof (so_room _ _ _ _ _ Hs eq_refl) as Hr.
  assert (∀ e, (e = false → st_send_window s + (val - init) ≤ ZH2_MAX_WINDOW) →
    stream_ok lim last val e (st_set_send_window (st_send_window s + (val - init)) s)) as Hs'.
  { intros e He. destruct Hs. constructor; try done; cbn; [lia|]. intros G. specialize (He G). lia. }
  bcase.
  - cbn. split; [done|]. constructor; [apply Hs'; done|]. eapply Forall_impl; [exact Hl|].
    intros x Hx. apply stream_ok_err in Hx. destruct Hx. by constructor.
  - destruct (retarget (val - init) l) as [ok l']. destruct IH as [Hm Hf]. cbn. split; [by f_equal|].
    constructor; [|done]. apply Hs'. lia.
Qed.

Lemma apply_setting_spec c sid val : h2_base c → h2_got_error c = false → 0 ≤ val →
  ∃ ok c', apply_setting c sid val = (ok, c') ∧ keeps c c' ∧ (ok = true → h2_got_error c' = false).
Proof.
  intros Hb He Hv. unfold apply_setting.
  assert (∀ code, ∃ ok c', (false, conn_error c code) = (ok, c') ∧ keeps c c' ∧ (ok = true → h2_got_error c' = false)) as Herr.
  { intros code. do 2 eexists. split; [done|]. split; [by apply conn_error_keeps|done]. }
  assert (∃ ok c', (true, c) = (ok, c') ∧ keeps c c' ∧ (ok = true → h2_got_error c' = false)) as Hskip.
  { do 2 eexists. split; [done|]. done. }
  destruct (sid =? ZH2_S_ENABLE_PUSH); [by destruct (1 <? val)|].
  destruct (sid =? ZH2_S_INITIAL_WINDOW_SIZE).
  - destruct (ZH2_MAX_WINDOW <? val) eqn:Ev; [apply Herr|]. btest. pose proof (hb_streams c Hb) as Hs. rewrite He in Hs.
    pose proof (retarget_spec _ _ (h2_peer_initial_window c) val _ ltac:(lia) (hb_init c Hb) Hs) as Hr.
    destruct (retarget _ _) as [ok l']. destruct Hr as [Hids Hl].
    assert (length l' = length (h2_streams c)) as Hlen.
    { pose proof (f_equal length Hids) as Hx. by rewrite !length_map in Hx. }
    destruct ok; cbn [negb] in *; do 2 eexists; (split; [done|]).
    + split; [|done]. destruct Hb. split; [|done]. constructor; try done; cbn; [by rewrite Hids|by rewrite He|by rewrite Hlen].
    + split; [|done].
      assert (h2_base (h2_set_got_error true (h2_set_streams l' c))) as Hbe.
      { destruct Hb. constructor; try done; cbn; [by rewrite Hids| |by rewrite Hlen|].
        - eapply Forall_impl; [exact Hl|]. intros s []. by constructor.
        - split; [apply hb_cont0|done]. }
      destruct (conn_error_base _ ZH2_E_FLOW_CONTROL_ERROR Hbe) as (G1 & G2 & G3).
      split; [exact G1|]. split; [exact G2|exact G3].
  - destruct (sid =? ZH2_S_MAX_FRAME_SIZE); [|apply Hskip]. destruct (_ || _) eqn:Ef; [apply Herr|]. btest.
    do 2 eexists. split; [done|]. split; [|done]. destruct Hb. split; [|done]. constructor; try done.
Qed.

Lemma settings_loop_spec n c payload off : h2_base c → h2_got_error c = false → is_bytes payload →
  0 ≤ off → off + 6 * Z.of_nat n ≤ zlen payload →
  ∃ c', settings_loop n c payload off = Ok c' ∧ keeps c c'.
Proof.
  revert c off. induction n as [|n IH]; intros c off Hb He Hp Ho Hn; cbn [settings_loop].
  { eexists. split; [done|]. by apply queue_keeps. }
  destruct (rd_ok off 2 payload Hp) as (sid & E1 & _); [lia..|]. unfold rd16, rd32. rewrite E1.
  destruct (rd_ok (off + 2) 4 payload Hp) as (val & E2 & Hv); [lia..|]. cbn [mbind exec_bind]. rewrite E2.
  cbn [mbind exec_bind]. destruct (apply_setting_spec c sid val Hb He) as (ok & c1 & -> & Hk & Hok); [lia|].
  destruct ok; cbn [negb]; [|by exists c1].
  destruct (IH c1 (off + 6) (proj1 Hk) (Hok eq_refl) Hp) as (c2 & -> & Hk2); [lia..|].
  exists c2. split; [done|]. by eapply keeps_trans.
Qed.

Lemma on_settings_spec c flags id payload n : h2_base c → h2_got_error c = false → is_bytes payload →
  ∃ c' n', h2_on_settings c flags id payload n = Ok (c', n') ∧ keeps c c'.
Proof.
  intros Hb He Hp. unfold h2_on_settings.
  assert (∀ code (k : Z), ∃ c' n', Ok (conn_error c code, k) = Ok (c', n') ∧ keeps c c') as Herr.
  { intros code k. do 2 eexists. split; [done|]. by apply conn_error_keeps. }
  destruct (negb _); [apply Herr|]. destruct (flag flags ZH2_FL_ACK).
  { destruct (negb _); [apply Herr|by do 2 eexists]. }
  destruct (negb (_ =? 0)) eqn:Em; [apply Herr|]. btest. destruct (_ <? _); [apply Herr|].
  destruct (settings_loop_spec (Z.to_nat (zlen payload / 6)) c payload 0 Hb He Hp) as (c' & -> & Hk); [done| |].
  { rewrite Z2Nat.id by (apply Z.div_pos; lia). pose proof (Z.div_mod (zlen payload) 6). lia. }
  by do 2 eexists.
Qed.

Lemma on_ping_spec c flags id payload n : h2_base c →
  ∃ c' n', h2_on_ping c flags id payload n = (c', n') ∧ keeps c c'.
Proof.
  intros Hb. unfold h2_on_ping.
  repeat match goal with |- context [if ?b then _ else _] => destruct b end;
    do 2 eexists; (split; [done|]); first [done|by apply conn_error_keeps|by apply queue_keeps].
Qed.

(** Writing to a stream that is reset at once is not seen. *)
Lemma rst_after_upd c id f s code : find_stream c id = Some s → st_id (f s) = id → NoDup (map st_id (h2_streams c)) →
  rst_stream (upd_stream id f c) id code = rst_stream c id code.
Proof.
  intros Hs Hf Hn. pose proof (find_stream_spec c id) as Hi. rewrite Hs in Hi. destruct Hi as (i & Hx & Hi & Hid).
  unfold upd_stream. rewrite Hx. unfold rst_stream, q_rst, queue, h2_frame. cbn [h2_out h2_set_streams].
  destruct ((put _ ▷ put _) (h2_out c)) as [r out].
  assert (∀ o, let c1 := h2_set_oom o (h2_set_out out c) in
    find_index (h2_set_streams (alter f i (h2_streams c)) c1) id = Some i ∧ find_index c1 id = Some i ∧
    stream_close (h2_set_streams (alter f i (h2_streams c)) c1) i = stream_close c1 i) as Hg.
  { intros o c1. unfold find_index. cbn. split.
    - rewrite <- Hf. apply index_of_unique; [by rewrite (map_id_alter f i _ s) by (done || congruence)|].
      by rewrite list_lookup_alter_eq, Hi.
    - split; [exact Hx|]. unfold stream_close. cbn. rewrite length_alter.
      set (n := pred (length (h2_streams c))).
      assert (match alter f i (h2_streams c) !! n with Some z => take n (<[i:=z]> (alter f i (h2_streams c))) | None => alter f i (h2_streams c) end =
              match h2_streams c !! n with Some z => take n (<[i:=z]> (h2_streams c)) | None => h2_streams c end) as ->; [|by destruct c].
      destruct (decide (n = i)) as [->|Hne].
      + rewrite list_lookup_alter_eq, Hi. cbn. apply list_eq. intros j. destruct (decide (j < i)%nat).
        * rewrite !lookup_take_lt by done. rewrite !list_lookup_insert_ne by lia. by rewrite list_lookup_alter_ne by lia.
        * by rewrite !lookup_take_ge by lia.
      + rewrite list_lookup_alter_ne by done. destruct (h2_streams c !! n) as [z|] eqn:Ez.
        * f_equal. apply list_eq. intros j. destruct (decide (j = i)) as [->|Hj].
          -- rewrite !list_lookup_insert_eq; [done|by apply lookup_lt_Some in Hi|].
             rewrite length_alter. by apply lookup_lt_Some in Hi.
          -- rewrite !list_lookup_insert_ne by done. by rewrite list_lookup_alter_ne by done.
        * exfalso. apply lookup_lt_Some in Hi. apply lookup_ge_None in Ez. unfold n in Ez. lia. }
  destruct (Hg true) as (T1 & T2 & T3). destruct (Hg (h2_oom c)) as (F1 & F2 & F3).
  destruct (negb _).
  - change (find_index (h2_set_oom true (h2_set_out out (h2_set_streams (alter f i (h2_streams c)) c))) id)
      with (find_index (h2_set_streams (alter f i (h2_streams c)) (h2_set_oom true (h2_set_out out c))) id).
    rewrite T1. change (find_index (h2_set_oom true (h2_set_out out c)) id) with (find_index (h2_set_oom true (h2_set_out out c)) id).
    rewrite T2. exact T3.
  - destruct c. cbn in *. rewrite F1, F2. exact F3.
Qed.

Lemma on_window_update_spec c id payload : h2_base c → h2_got_error c = false → is_bytes payload →
  ∃ c', h2_on_window_update c id payload = Ok c' ∧ keeps c c'.
Proof.
  intros Hb He Hp. unfold h2_on_window_update.
  assert (∀ code, ∃ c', Ok (conn_error c code) = Ok c' ∧ keeps c c') as Herr.
  { intros code. eexists. split; [done|]. by apply conn_error_keeps. }
  destruct (negb _) eqn:El; [apply Herr|]. btest.
  destruct (rd_ok 0 4 payload Hp) as (v & Ev & Hv); [lia..|]. unfold rd32. rewrite Ev. cbn [mbind exec_bind].
  set (incr := Z.land v 0x7fffffff).
  assert (0 ≤ incr ≤ ZH2_MAX_WINDOW) as Hi.
  { unfold incr, ZH2_MAX_WINDOW. change 0x7fffffff with (Z.ones 31). rewrite Z.land_ones by lia.
    pose proof (Z.mod_pos_bound v (2 ^ 31) ltac:(lia)). change (Z.ones 31) with 2147483647. lia. }
  pose proof (hb_send c Hb) as Hs. pose proof (hb_send_ok c Hb He) as Hs'. unfold ZH2_MAX_WINDOW in *.
  destruct (id =? 0).
  - destruct (incr =? 0); [apply Herr|]. eexists. split; [done|].
    set (c1 := h2_set_send_window _ c). destruct (_ <? _) eqn:Ew; btest.
    + destruct (conn_error_base c1 ZH2_E_FLOW_CONTROL_ERROR) as (G1 & G2 & G3).
      { destruct (base_err c Hb). constructor; try done. unfold ZH2_MAX_WINDOW. cbn. lia. }
      split; [exact G1|]. split; [exact G2|exact G3].
    + cbn in Ew. destruct Hb. split; [|done]. constructor; try done; unfold ZH2_MAX_WINDOW; cbn; lia.
  - eexists. split; [done|].
    assert (keeps c (if h2_last_client_id c <? id then conn_error c ZH2_E_PROTOCOL_ERROR else c)) as Hidle.
    { destruct (_ <? id); [by apply conn_error_keeps|done]. }
    destruct (find_stream c id) as [s|] eqn:Es; [|by destruct (incr =? 0)].
    destruct (incr =? 0); [by apply rst_keeps|].
    destruct (find_stream_ok c id s Hb Es) as [Hok Hid]. pose proof (so_room _ _ _ _ _ Hok He) as Hr.
    destruct (2147483647 <? st_send_window s + incr) eqn:Ew; btest; unfold ZH2_MAX_WINDOW in *.
    + rewrite (rst_after_upd c id _ s) by (done || apply hb_ids, Hb). by apply rst_keeps.
    + destruct (upd_step c id (st_set_send_window (st_send_window s + incr)) s Hb Es) as (Hk & _); [|done|done].
      intros []. constructor; try done; cbn; unfold ZH2_MAX_WINDOW in *; lia.
Qed.

Lemma on_goaway_keeps c id len : h2_base c → keeps c (h2_on_goaway c id len).
Proof.
  intros Hb. unfold h2_on_goaway. repeat (bcase; [by apply conn_error_keeps|]). destruct Hb. split; [|done].
  by constructor.
Qed.

(** ** One frame, all frames *)

Definition h2_inv (c : zh2_conn) : Prop := h2_base c ∧ (hdr_active (h2_hdr c) = true → linked c).

Lemma on_frame_spec c n type flags sid payload : h2_inv c → h2_got_error c = false →
  out_of_order c type sid = false → is_bytes payload → zlen payload ≤ ZH2_OUR_MAX_FRAME → 0 ≤ sid < 2 ^ 31 →
  ∃ c' n', on_frame c n type flags sid payload = Ok (c', n') ∧ h2_inv c' ∧ h2_lim c' = h2_lim c.
Proof.
  intros [Hb Hl] He Hoo Hp Hlen Hsid. unfold on_frame, out_of_order in *.
  assert (∀ c' (n' : counts), handled c c' → ∃ c'' n'', Ok (c', n') = Ok (c'', n'') ∧ h2_inv c'' ∧ h2_lim c'' = h2_lim c) as Hret.
  { intros c' n' (G1 & G2 & G3). do 2 eexists. split; [done|]. split; [by split|done]. }
  destruct (hdr_active (h2_hdr c)) eqn:Ea.
  { btest. subst type sid. cbn.
    destruct (settles_handled _ _ _ (on_continuation_spec c flags payload Hb He (Hl eq_refl) Hp)) as (c' & -> & Hh). by apply Hret. }
  assert (∀ c' (n' : counts), keeps c c' → ∃ c'' n'', Ok (c', n') = Ok (c'', n'') ∧ h2_inv c'' ∧ h2_lim c'' = h2_lim c) as Hkeep.
  { intros c' n' Hk. by apply Hret, keeps_handled. }
  destruct (type =? ZH2_FT_DATA).
  { destruct (settles_keeps _ _ _ (on_data_spec c flags sid payload Hb Ea Hp Hlen)) as (c' & -> & Hk). by apply Hkeep. }
  destruct (type =? ZH2_FT_HEADERS).
  { destruct (settles_handled _ _ _ (on_headers_spec c flags sid payload Hb Ea Hp Hsid)) as (c' & -> & Hk). by apply Hret. }
  destruct (type =? ZH2_FT_PRIORITY).
  { apply Hkeep. repeat (bcase; [by apply conn_error_keeps|]). done. }
  destruct (type =? ZH2_FT_RST_STREAM); [by apply Hkeep, on_rst_keeps|].
  destruct (type =? ZH2_FT_SETTINGS).
  { destruct (on_settings_spec c flags sid payload n.2 Hb He Hp) as (c' & n' & -> & Hk). by apply Hkeep. }
  destruct (type =? ZH2_FT_PUSH_PROMISE); [by apply Hkeep, conn_error_keeps|].
  destruct (type =? ZH2_FT_PING).
  { destruct (on_ping_spec c flags sid payload n.1 Hb) as (c' & n' & -> & Hk). by apply Hkeep. }
  destruct (type =? ZH2_FT_GOAWAY); [by apply Hkeep, on_goaway_keeps|].
  destruct (type =? ZH2_FT_WINDOW_UPDATE).
  { destruct (on_window_update_spec c sid payload Hb He Hp) as (c' & -> & Hk). by apply Hkeep. }
  rewrite Hoo. by apply Hkeep.
Qed.

(** The next frame's header and payload, read from the input. *)
Definition next_frame (input : zhs_buf) : exec (Z * Z * Z * Z) :=
  let p := buf_contents input in
  len ← rd24 p 0; type ← rd8 p 3; flags ← rd8 p 4; v ← rd32 p 5; Ok (len, type, flags, Z.land v 0x7fffffff).

Lemma next_frame_ok input : buf_wf input → is_bytes (buf_contents input) → ZH2_FRAME_HDR ≤ ZHS_AVAIL input →
  ∃ len type flags v, let p := buf_contents input in
    rd24 p 0 = Ok len ∧ rd8 p 3 = Ok type ∧ rd8 p 4 = Ok flags ∧ rd32 p 5 = Ok v ∧
    0 ≤ len ∧ 0 ≤ Z.land v 0x7fffffff < 2 ^ 31.
Proof.
  intros Hw Hp Hn. unfold ZH2_FRAME_HDR in Hn. pose proof (zlen_contents input Hw) as Hz.
  destruct (rd_ok 0 3 _ Hp) as (len & E1 & H1); [lia..|]. destruct (rd_ok 3 1 _ Hp) as (ty & E2 & _); [lia..|].
  destruct (rd_ok 4 1 _ Hp) as (fl & E3 & _); [lia..|]. destruct (rd_ok 5 4 _ Hp) as (v & E4 & H4); [lia..|].
  exists len, ty, fl, v. split; [exact E1|]. split; [exact E2|]. split; [exact E3|]. split; [exact E4|].
  split; [lia|]. change 0x7fffffff with (Z.ones 31). rewrite Z.land_ones by lia. apply Z.mod_pos_bound. lia.
Qed.

Lemma need_settings_inv c v : h2_inv c → h2_inv (h2_set_need_settings v c).
Proof. intros [[] Hl]. split; [by constructor|exact Hl]. Qed.

Lemma input_drop input n : buf_wf input → is_bytes (buf_contents input) → 0 ≤ n ≤ ZHS_AVAIL input →
  buf_wf (zhs_buf_consume_ input n) ∧ is_bytes (buf_contents (zhs_buf_consume_ input n)) ∧
  ZHS_AVAIL (zhs_buf_consume_ input n) = ZHS_AVAIL input - n.
Proof.
  intros Hw Hp Hn. destruct (avail_consume input n Hw Hn) as (G1 & G2 & ->). split; [done|]. split; [|done].
  by apply Forall_drop.
Qed.

Lemma inv_error c code : h2_inv c → h2_inv (conn_error c code).
Proof.
  intros [Hb Hl]. destruct (conn_error_keeps c code Hb) as (G1 & G2 & G3). split; [done|]. rewrite G3. intros Ha.
  specialize (Hl Ha). intros id Hid. rewrite G3 in Hid |- *. destruct (Hl id Hid) as (s & Hs & R). exists s.
  split; [|done]. rewrite <- Hs. apply find_keep.
  destruct (goaway_shape c code (hb_out c Hb)) as (out' & o & g & E & _). unfold conn_error. by rewrite E.
Qed.

(** A returned feed: nothing more can be done with the input. *)
Definition stalled (c : zh2_conn) (input : zhs_buf) : Prop :=
  h2_got_error c = true ∨ h2_oom c = true ∨ ZHS_AVAIL input < ZH2_FRAME_HDR ∨
  ∃ len, rd24 (buf_contents input) 0 = Ok len ∧ ZHS_AVAIL input < ZH2_FRAME_HDR + len.

Lemma frames_loop_spec fuel c n input : h2_inv c → buf_wf input → is_bytes (buf_contents input) →
  ZHS_AVAIL input < Z.of_nat fuel →
  ∃ c' input', frames_loop fuel c n input = Ok (c', input') ∧ h2_inv c' ∧ h2_lim c' = h2_lim c ∧
    buf_wf input' ∧ is_bytes (buf_contents input') ∧ ZHS_AVAIL input' ≤ ZHS_AVAIL input ∧ stalled c' input'.
Proof.
  revert c n input. induction fuel as [|fuel IH]; intros c n input Hi Hw Hp Hf.
  { pose proof (zlen_contents input Hw). lia. }
  cbn [frames_loop]. destruct (h2_got_error c || h2_oom c) eqn:Ee.
  { do 2 eexists. split; [done|]. do 4 (split; [done|]). split; [lia|]. apply orb_true_iff in Ee. unfold stalled. tauto. }
  btest. destruct (ZHS_AVAIL input <? ZH2_FRAME_HDR) eqn:Ea; btest.
  { do 2 eexists. split; [done|]. do 4 (split; [done|]). split; [lia|]. unfold stalled. auto. }
  destruct (next_frame_ok input Hw Hp Ea) as (len & ty & fl & v & E1 & E2 & E3 & E4 & Hl & Hsid).
  rewrite E1. cbn [mbind exec_bind]. rewrite E2. cbn [mbind exec_bind]. rewrite E3. cbn [mbind exec_bind].
  rewrite E4. cbn [mbind exec_bind].
  assert (∀ code c1, h2_inv c1 → h2_lim c1 = h2_lim c → ∃ c' input', Ok (conn_error c1 code, input) = Ok (c', input') ∧ h2_inv c' ∧
    h2_lim c' = h2_lim c ∧ buf_wf input' ∧ is_bytes (buf_contents input') ∧ ZHS_AVAIL input' ≤ ZHS_AVAIL input ∧ stalled c' input') as Herr.
  { intros code c1 Hi1 HL. do 2 eexists. split; [done|]. split; [by apply inv_error|].
    split; [by rewrite (proj1 (proj2 (conn_error_keeps c1 code (proj1 Hi1))))|]. do 2 (split; [done|]). split; [lia|]. by left. }
  destruct (ZH2_OUR_MAX_FRAME <? len) eqn:Eb; btest; [by apply Herr|].
  destruct (ZHS_AVAIL input <? ZH2_FRAME_HDR + len) eqn:Ec; btest.
  { do 2 eexists. split; [done|]. do 4 (split; [done|]). split; [lia|]. unfold stalled. right. right. right. eauto. }
  unfold ZH2_FRAME_HDR in *. pose proof (zlen_contents input Hw) as Hz. rewrite mem_read_ok by lia. cbn [mbind exec_bind].
  destruct (h2_need_settings c && _); [by apply Herr|].
  set (c1 := h2_set_need_settings false c). assert (h2_inv c1) as Hi1 by by apply need_settings_inv.
  destruct (out_of_order c1 ty _) eqn:Eo; [by apply Herr|].
  destruct (on_frame_spec c1 n ty fl (Z.land v 0x7fffffff) (slice 9 len (buf_contents input)) Hi1)
    as (c2 & n2 & -> & Hi2 & HL2); [done|done|by apply slice_bytes|rewrite zlen_slice; lia|done|].
  cbn [mbind exec_bind]. destruct (input_drop input (9 + len) Hw Hp) as (G1 & G2 & G3); [lia|].
  destruct (IH c2 n2 (zhs_buf_consume_ input (9 + len)) Hi2 G1 G2) as (c3 & i3 & -> & R1 & R2 & R3 & R4 & R5 & R6); [lia|].
  do 2 eexists. split; [done|]. split; [done|]. split; [by rewrite R2, HL2|]. do 2 (split; [done|]). split; [lia|done].
Qed.

Lemma preface_spec fuel c input : h2_inv c → buf_wf input → is_bytes (buf_contents input) →
  ZH2_PREFACE_LEN - h2_preface_got c ≤ Z.of_nat fuel →
  ∃ ready c' input', consume_preface fuel c input = (ready, c', input') ∧ h2_inv c' ∧ h2_lim c' = h2_lim c ∧
    buf_wf input' ∧ is_bytes (buf_contents input') ∧ ZHS_AVAIL input' ≤ ZHS_AVAIL input ∧
    (ready = false → h2_got_error c' = true ∨ ZHS_AVAIL input' = 0).
Proof.
  revert c input. induction fuel as [|fuel IH]; intros c input Hi Hw Hp Hf; cbn [consume_preface];
    pose proof (hb_preface c (proj1 Hi)) as Hpf; pose proof (zlen_contents input Hw) as Hz.
  - destruct (_ <? ZH2_PREFACE_LEN) eqn:E; btest; [lia|]. cbn [andb]. do 3 eexists. split; [done|].
    split; [|by ands]. destruct Hi as [[] Hl]. split; [by constructor|exact Hl].
  - destruct (_ && _) eqn:E.
    + btest. destruct (negb _).
      { do 3 eexists. split; [done|]. split; [by apply inv_error|].
        split; [apply (conn_error_keeps c _ (proj1 Hi))|]. ands. by left. }
      destruct (input_drop input 1 Hw Hp) as (G1 & G2 & G3); [lia|].
      destruct (IH (h2_set_preface_got (h2_preface_got c + 1) c) (zhs_buf_consume_ input 1))
        as (rd & c' & i' & -> & R1 & R2 & R3 & R4 & R5 & R6); [|done|done|cbn; lia|].
      { destruct Hi as [[] Hl]. split; [|exact Hl]. constructor; try done. cbn. lia. }
      do 3 eexists. split; [done|]. split; [done|]. split; [done|]. split; [done|]. split; [done|]. split; [lia|done].
    + destruct (_ <? ZH2_PREFACE_LEN) eqn:E2; btest.
      * cbn [andb] in E. btest. do 3 eexists. split; [done|]. ands.
      * do 3 eexists. split; [done|]. split; [|by ands]. destruct Hi as [[] Hl]. split; [by constructor|exact Hl].
Qed.
End Frames.
