(* ===== verification/H2Pump.v ===== *)
(** * H2Pump: what leaves an HTTP/2 connection

    The pump as a relation: each DATA frame is a step taken within both flow
    control windows, the peer's frame size and the output cap; the theorems
    read the windows and the streams' bodies off the frames. *)
From stdpp Require Import base tactics list option strings.
From Stdlib Require Import ZArith Lia.
From S2P Require Import Prelude Types Buf HttpUtil Target Hpack Respond H1 H1Safe H2 H2Safe.

(** A DATA frame: stream, flags, payload. *)
Definition dframe : Type := Z * Z * bytes.
Definition df_id (f : dframe) : Z := f.1.1.
Definition df_flags (f : dframe) : Z := f.1.2.
Definition df_data (f : dframe) : bytes := f.2.

Definition wire_frame (f : dframe) : bytes :=
  frame_hdr (zlen (df_data f)) ZH2_FT_DATA (df_flags f) (df_id f) ++ df_data f.

Section Pump.
Context `{Allocator}.

(** What the pump does to a connection, with the frames it queued. *)
Inductive sends : zh2_conn → list dframe → zh2_conn → Prop :=
  | sends_nil c : sends c [] c
  | sends_data c c1 c' i st chunk fs :
      let last := st_body_off st + chunk =? b_len (st_resp_body st) in
      let flags := if last && st_resp_end_after_body st then ZH2_FL_END_STREAM else 0 in
      let d := slice (st_body_off st) chunk (b_data (st_resp_body st)) in
      h2_streams c !! i = Some st → st_send_done st = false →
      0 < chunk ≤ b_len (st_resp_body st) - st_body_off st →
      chunk ≤ st_send_window st → chunk ≤ h2_send_window c → chunk ≤ h2_peer_max_frame c →
      ZHS_AVAIL (h2_out c) + ZH2_FRAME_HDR + chunk ≤ max_out_bytes (h2_lim c) →
      h2_frame c chunk ZH2_FT_DATA flags (st_id st) d = (ZCIO_OK, c1) →
      sends (account i chunk last c1) fs c' →
      sends c ((st_id st, flags, d) :: fs) c'
  | sends_close c c' i st fs :
      h2_streams c !! i = Some st → st_send_done st = true → st_end_stream_recv st = true →
      sends (stream_close c i) fs c' → sends c fs c'.

Lemma sends_trans c1 fs1 c2 fs2 c3 : sends c1 fs1 c2 → sends c2 fs2 c3 → sends c1 (fs1 ++ fs2) c3.
Proof.
  induction 1; intros Hs; [done| |]; cbn [app].
  - eapply sends_data; eauto.
  - eapply sends_close; eauto.
Qed.

Lemma account_keeps c i chunk st : h2_base c → h2_streams c !! i = Some st →
  0 < chunk ≤ b_len (st_resp_body st) - st_body_off st → chunk ≤ st_send_window st → chunk ≤ h2_send_window c →
  keeps c (account i chunk (st_body_off st + chunk =? b_len (st_resp_body st)) c).
Proof.
  intros Hb Hi Hc Hw Hcw. unfold account. set (upd := λ s, _).
  assert (keeps c (h2_set_streams (alter upd i (h2_streams c)) c)) as Hk.
  { pose proof (hb_streams c Hb) as Hs. rewrite Forall_lookup in Hs. specialize (Hs i st Hi).
    pose proof (hb_init c Hb) as Hin. apply (alter_keeps c i upd st Hb Hi).
    - unfold upd. pose proof (so_room _ _ _ _ _ Hs) as Hroom. destruct Hs. unfold ZH2_MAX_WINDOW in *. destruct (_ =? _); constructor; try done; cbn; unfold ZH2_MAX_WINDOW in *; try (intros G; specialize (Hroom G)); lia.
    - unfold upd. by destruct (_ =? _). }
  pose proof (hb_send c Hb) as Hs. pose proof (hb_send_ok c Hb) as Hso. destruct Hk as ([] & L & D). split; [|done].
  constructor; try done; cbn; try lia. intros He. specialize (Hso He). lia.
Qed.

Lemma frame_keeps c chunk fl id d c1 : h2_base c → h2_frame c chunk ZH2_FT_DATA fl id d = (ZCIO_OK, c1) →
  ∃ out', c1 = h2_set_out out' c ∧ keeps c c1 ∧
    buf_contents out' = buf_contents (h2_out c) ++ frame_hdr chunk ZH2_FT_DATA fl id ++ d.
Proof.
  intros Hb E. destruct (frame_shape c chunk ZH2_FT_DATA fl id d (hb_out c Hb)) as (r & out' & E' & Hw & _ & Hc).
  rewrite E in E'. injection E' as <- ->. exists out'. split; [done|]. split; [|by apply Hc].
  rewrite <- (set_oom_same (h2_set_out out' c)). by apply base_out.
Qed.

(** The size of the next frame, when there is one. *)
Lemma data_chunk_spec c st : h2_base c → 0 ≤ st_body_off st < b_len (st_resp_body st) → data_chunk c st ≠ 0 →
  0 < data_chunk c st ≤ b_len (st_resp_body st) - st_body_off st ∧ data_chunk c st ≤ st_send_window st ∧
  data_chunk c st ≤ h2_send_window c ∧ data_chunk c st ≤ h2_peer_max_frame c ∧
  ZHS_AVAIL (h2_out c) + ZH2_FRAME_HDR + data_chunk c st ≤ max_out_bytes (h2_lim c).
Proof.
  intros Hb Ho Hn. pose proof (hb_frame c Hb) as Hf. unfold data_chunk, ZH2_FRAME_HDR in *. revert Hn.
  repeat (bcase; try done); lia.
Qed.

Lemma pump_stream_spec fuel c i st : h2_base c → h2_streams c !! i = Some st → st_send_done st = false →
  b_len (st_resp_body st) - st_body_off st ≤ Z.of_nat fuel →
  ∃ ok c' fs, pump_stream fuel c i = Ok (ok, c') ∧ keeps c c' ∧ length (h2_streams c') = length (h2_streams c) ∧
    (ok = false → h2_oom c' = true) ∧ (ok = true → sends c fs c' ∧ h2_oom c' = h2_oom c).
Proof.
  revert c st. induction fuel as [|fuel IH]; intros c st Hb Hi Hd Hf; cbn [pump_stream]; rewrite Hi;
    pose proof (hb_streams c Hb) as Hs; rewrite Forall_lookup in Hs; specialize (Hs i st Hi);
    pose proof (so_off _ _ _ _ _ Hs) as Ho;
    (destruct (negb _) eqn:E; btest; [exists true, c, []; split; [done|]; split; [done|]; split; [done|];
      split; [done|]; intros _; split; [constructor|done]|]); [lia|].
  destruct (data_chunk c st =? 0) eqn:Ez; btest.
  { exists true, c, []. do 4 (split; [done|]). intros _. split; [constructor|done]. }
  destruct (data_chunk_spec c st Hb ltac:(lia) Ez) as (H1 & H2 & H3 & H4 & H5).
  set (chunk := data_chunk c st) in *. pose proof (so_resp _ _ _ _ _ Hs) as (_ & Hle & Hcap & _).
  rewrite mem_read_ok by lia. cbn [mbind exec_bind].
  set (last := st_body_off st + chunk =? b_len (st_resp_body st)).
  set (flags := if last && _ then _ else _). set (d := slice _ _ _).
  destruct (frame_shape c chunk ZH2_FT_DATA flags (st_id st) d (hb_out c Hb)) as (r & out' & E' & Hw & Hr & _).
  rewrite E'. assert (keeps c (h2_set_out out' c)) as Hk1.
  { rewrite <- (set_oom_same (h2_set_out out' c)). by apply base_out. }
  destruct (negb (r =? ZCIO_OK)) eqn:Er; btest.
  { exists false. eexists. exists []. split; [done|]. split; [|done]. eapply keeps_trans; [exact Hk1|]. apply oom_keeps, Hk1. }
  subst r. pose proof (account_keeps (h2_set_out out' c) i chunk st (proj1 Hk1) Hi H1 H2 H3) as Hk2.
  fold last in Hk2. pose proof (keeps_trans _ _ _ Hk1 Hk2) as Hk. clear Hk2.
  set (c2 := account i chunk last (h2_set_out out' c)) in *.
  set (st2 := (let s := st_set_send_window (st_send_window st - chunk) (st_set_body_off (st_body_off st + chunk) st) in
               if last then st_set_send_done true s else s)).
  assert (h2_streams c2 !! i = Some st2) as Hi2.
  { unfold c2, account. cbn. rewrite list_lookup_alter_eq, Hi. done. }
  assert (length (h2_streams c2) = length (h2_streams c)) as Hl2 by (unfold c2, account; cbn; by rewrite length_alter).
  assert (∀ fs c', sends c2 fs c' → sends c ((st_id st, flags, d) :: fs) c') as Hstep.
  { intros fs c' Hfs. exact (sends_data c (h2_set_out out' c) c' i st chunk fs Hi Hd H1 H2 H3 H4 H5 E' Hfs). }
  destruct last eqn:El.
  - unfold last in El. btest. exists true, c2, [(st_id st, flags, d)].
    assert (pump_stream fuel c2 i = Ok (true, c2)) as ->.
    { destruct fuel; cbn [pump_stream]; rewrite Hi2; cbn; (destruct (negb _) eqn:En; btest; [done|cbn in *; lia]). }
    split; [done|]. split; [done|]. split; [done|]. split; [done|]. intros _. split; [|done].
    apply Hstep. constructor.
  - destruct (IH c2 st2 (proj1 Hk) Hi2) as (ok & c3 & fs & -> & Hk3 & Hl3 & Hf3 & Ht3); [done|cbn; lia|].
    exists ok, c3, ((st_id st, flags, d) :: fs). split; [done|]. split; [exact (keeps_trans _ _ _ Hk Hk3)|].
    split; [congruence|]. split; [done|]. intros Hok. destruct (Ht3 Hok) as [Hs3 Ho3]. split; [|done].
    by apply Hstep.
Qed.

Lemma pump_loop_spec fuel c i : h2_base c → (length (h2_streams c) - i ≤ fuel)%nat → h2_oom c = false →
  ∃ c', pump_loop fuel c i = Ok c' ∧ keeps c c' ∧ (h2_oom c' = false → ∃ fs, sends c fs c').
Proof.
  revert c i. induction fuel as [|fuel IH]; intros c i Hb Hf Hoom; cbn [pump_loop];
    (destruct (h2_streams c !! i) as [st|] eqn:Ei;
      [|exists c; split; [done|]; split; [done|]; intros _; exists []; constructor]).
  { apply lookup_lt_Some in Ei. lia. }
  set (run := st_resp_headers_done st && negb (st_send_done st)).
  assert (∃ ok c1 fs, (if run then pump_stream (Z.to_nat (b_len (st_resp_body st))) c i else Ok (true, c)) = Ok (ok, c1) ∧
    keeps c c1 ∧ length (h2_streams c1) = length (h2_streams c) ∧ (ok = false → h2_oom c1 = true) ∧
    (ok = true → sends c fs c1 ∧ h2_oom c1 = h2_oom c)) as (ok & c1 & fs & -> & Hk & Hl & Hno & Hyes).
  { destruct run eqn:Er.
    - unfold run in Er. btest. pose proof (hb_streams c Hb) as Hs. rewrite Forall_lookup in Hs.
      pose proof (so_off _ _ _ _ _ (Hs i st Ei)). apply (pump_stream_spec _ c i st); try done. lia.
    - exists true, c, []. do 4 (split; [done|]). intros _. split; [constructor|done]. }
  cbn [mbind exec_bind]. destruct ok; cbn [negb].
  2:{ exists c1. split; [done|]. split; [done|]. intros Hx. rewrite Hno in Hx by done. done. }
  destruct (Hyes eq_refl) as [Hs Ho]. pose proof (lookup_lt_Some _ _ _ Ei) as Hlt.
  destruct (lookup_lt_is_Some_2 (h2_streams c1) i) as [st1 Hi1]; [lia|]. rewrite Hi1.
  destruct (st_send_done st1 && st_end_stream_recv st1) eqn:Ed; btest.
  - pose proof (close_keeps c1 i (proj1 Hk) ltac:(lia)) as Hkc.
    assert (length (h2_streams (stream_close c1 i)) = pred (length (h2_streams c1)) ∧
            h2_oom (stream_close c1 i) = h2_oom c1) as [Hlc Hoc].
    { unfold stream_close. destruct (swap_remove _ _ _ Hi1) as (l' & -> & Hp). apply Permutation_length in Hp.
      cbn in Hp. cbn [h2_open_count h2_set_streams]. destruct (_ =? 0); cbn; split; (done || lia). }
    destruct (IH (stream_close c1 i) i (proj1 Hkc)) as (c2 & -> & Hk2 & Hs2); [lia|congruence|].
    exists c2. split; [done|]. split; [eapply keeps_trans; [exact Hk|]; by eapply keeps_trans|].
    intros Hx. destruct (Hs2 Hx) as [fs2 Hs2']. exists (fs ++ fs2). eapply sends_trans; [exact Hs|].
    by eapply sends_close.
  - destruct (IH c1 (S i) (proj1 Hk)) as (c2 & -> & Hk2 & Hs2); [lia|congruence|].
    exists c2. split; [done|]. split; [by eapply keeps_trans|].
    intros Hx. destruct (Hs2 Hx) as [fs2 Hs2']. exists (fs ++ fs2). by eapply sends_trans.
Qed.

(** ** Reading the frames *)

(** The frames of one stream: their flags and payloads. *)
Definition of_stream (id : Z) (fs : list dframe) : list (Z * bytes) :=
  map (λ f, (df_flags f, df_data f)) (List.filter (λ f, df_id f =? id) fs).

Definition payload (l : list (Z * bytes)) : bytes := concat (map snd l).
Definition total (fs : list dframe) : Z := zlen (concat (map df_data fs)).

(** What was sent for a stream: the next bytes of its body, within its window,
    END_STREAM on the frame that completes the body and on no other. *)
Definition stream_sent (s : zh2_stream) (fs : list dframe) : Prop :=
  let l := of_stream (st_id s) fs in
  let n := zlen (payload l) in
  payload l = slice (st_body_off s) n (b_data (st_resp_body s)) ∧
  n ≤ Z.max 0 (st_send_window s) ∧ n ≤ b_len (st_resp_body s) - st_body_off s ∧
  Forall (λ f, f.2 ≠ []) l ∧
  (l ≠ [] → map fst l = replicate (pred (length l)) 0 ++
     [if (st_body_off s + n =? b_len (st_resp_body s)) && st_resp_end_after_body s then ZH2_FL_END_STREAM else 0]).

Lemma stream_sent_nil s fs : st_body_off s ≤ b_len (st_resp_body s) → of_stream (st_id s) fs = [] → stream_sent s fs.
Proof.
  intros Ho E. unfold stream_sent. rewrite E. cbn. split_and!; try done; try lia.
Qed.

Lemma of_stream_cons id f fs : of_stream id (f :: fs) =
  if df_id f =? id then (df_flags f, df_data f) :: of_stream id fs else of_stream id fs.
Proof. unfold of_stream. cbn. by destruct (df_id f =? id). Qed.

Lemma stream_sent_other s f fs : st_id s ≠ df_id f → stream_sent s fs → stream_sent s (f :: fs).
Proof. unfold stream_sent. rewrite of_stream_cons. intros Hne. by destruct (df_id f =? st_id s) eqn:E; btest; [congruence|]. Qed.

Lemma perm_close c i st : h2_streams c !! i = Some st → h2_streams c ≡ₚ st :: h2_streams (stream_close c i).
Proof.
  intros Hi. unfold stream_close. destruct (swap_remove _ _ _ Hi) as (l' & -> & Hp).
  cbn [h2_open_count h2_set_streams]. by destruct (_ =? 0).
Qed.

Lemma sends_ids c fs c' : sends c fs c' → ∀ f, f ∈ fs → df_id f ∈ map st_id (h2_streams c).
Proof.
  induction 1 as [c|c c1 c' i st chunk fs last flags d Hi Hd H1 H2 H3 H4 H5 Hf _ IH|c c' i st fs Hi _ _ _ IH]; intros f Hin.
  - by apply elem_of_nil in Hin.
  - apply elem_of_cons in Hin as [->|Hin].
    + change (st_id st ∈ map st_id (h2_streams c)). apply list_elem_of_In, in_map, list_elem_of_In. by apply list_elem_of_lookup_2 in Hi.
    + specialize (IH f Hin). unfold account in IH. cbn in IH.
      unfold h2_frame in Hf. destruct ((put _ ▷ put _) _) as [r out]. injection Hf as _ <-. cbn in IH.
      rewrite (map_id_alter _ i _ st) in IH; [done|done|by destruct last].
  - specialize (IH f Hin). rewrite (ids_of_perm _ _ _ (perm_close c i st Hi)). apply elem_of_cons. by right.
Qed.

Lemma of_stream_none id fs (ids : list Z) : (∀ f, f ∈ fs → df_id f ∈ ids) → id ∉ ids → of_stream id fs = [].
Proof.
  intros Hf Hn. unfold of_stream. induction fs as [|f fs IH]; [done|]. cbn. destruct (df_id f =? id) eqn:E; btest.
  - exfalso. apply Hn. rewrite <- E. apply Hf. apply elem_of_cons. by left.
  - apply IH. intros g Hg. apply Hf. apply elem_of_cons. by right.
Qed.

(** One more frame in front. *)
Lemma stream_sent_cons s chunk fs :
  let last := st_body_off s + chunk =? b_len (st_resp_body s) in
  let s2 := (let s := st_set_send_window (st_send_window s - chunk) (st_set_body_off (st_body_off s + chunk) s) in
             if last then st_set_send_done true s else s) in
  0 ≤ st_body_off s → 0 < chunk ≤ b_len (st_resp_body s) - st_body_off s → chunk ≤ st_send_window s →
  b_len (st_resp_body s) ≤ zlen (b_data (st_resp_body s)) →
  stream_sent s2 fs →
  stream_sent s ((st_id s, if last && st_resp_end_after_body s then ZH2_FL_END_STREAM else 0,
                  slice (st_body_off s) chunk (b_data (st_resp_body s))) :: fs).
Proof.
  intros last s2 Ho Hc Hw Hlen. unfold stream_sent. rewrite of_stream_cons. unfold df_id, df_flags, df_data. cbn [fst snd].
  rewrite Z.eqb_refl.
  assert (st_id s2 = st_id s ∧ st_resp_body s2 = st_resp_body s ∧ st_body_off s2 = st_body_off s + chunk ∧
    st_send_window s2 = st_send_window s - chunk ∧ st_resp_end_after_body s2 = st_resp_end_after_body s)
    as (-> & -> & -> & -> & ->) by (unfold s2; by destruct last).
  set (l := of_stream (st_id s) fs). set (d := slice _ chunk _). intros (Hp & Hn1 & Hn2 & Hne & Hfl).
  assert (zlen d = chunk) as Hd by (unfold d; rewrite zlen_slice; lia).
  assert (zlen (payload ((if last && st_resp_end_after_body s then ZH2_FL_END_STREAM else 0, d) :: l)) = chunk + zlen (payload l)) as Hz.
  { unfold payload. cbn. rewrite length_app. lia. }
  rewrite Hz. split.
  { unfold payload at 1. cbn. fold (payload l). rewrite Hp at 1. unfold d. rewrite <- slice_app_split by lia. done. }
  split; [lia|]. split; [lia|]. split; [constructor; [intros E; cbn in E; rewrite E in Hd; cbn in Hd; lia|done]|].
  intros _. cbn [map fst length pred]. destruct l as [|[fl0 d0] l'].
  - cbn in Hn2 |- *. unfold last. rewrite Z.add_0_r. done.
  - specialize (Hfl ltac:(done)). unfold payload in Hfl |- *. rewrite Hfl. cbn [length pred replicate app].
    assert (0 < zlen (payload ((fl0, d0) :: l'))) as Hpos.
    { apply Forall_cons_1 in Hne as [Hne _]. unfold payload. cbn in *. rewrite length_app. destruct d0; [done|]. cbn. lia. }
    unfold last. replace (st_body_off s + chunk =? b_len (st_resp_body s)) with false by (symmetry; apply Z.eqb_neq; lia).
    cbn [andb]. rewrite <- Z.add_assoc. done.
Qed.

Lemma sends_streams c fs c' : sends c fs c' → h2_base c → h2_base c' ∧ ∀ s, s ∈ h2_streams c → stream_sent s fs.
Proof.
  induction 1 as [c|c c1 c' i st chunk fs last flags d Hi Hd H1 H2 H3 H4 H5 Hf Hs IH|c c' i st fs Hi Hsd Hes Hs IH]; intros Hb.
  - split; [done|]. intros s Hin. pose proof (hb_streams c Hb) as Ha. rewrite Forall_forall in Ha. apply stream_sent_nil; [|done].
    by destruct (so_off _ _ _ _ _ (Ha s Hin)).
  - destruct (frame_keeps c chunk flags (st_id st) d c1 Hb Hf) as (out' & -> & Hk1 & _).
    pose proof (account_keeps (h2_set_out out' c) i chunk st (proj1 Hk1) Hi H1 H2 H3) as Hk2. fold last in Hk2.
    destruct (IH (proj1 Hk2)) as [Hb' Hall]. split; [done|]. intros s Hin.
    apply list_elem_of_lookup_1 in Hin as [j Hj]. unfold account in Hall. cbn [h2_streams h2_set_send_window h2_set_streams] in Hall.
    pose proof (hb_streams c Hb) as Ha. rewrite Forall_lookup in Ha.
    destruct (decide (j = i)) as [->|Hne].
    + rewrite Hi in Hj. injection Hj as <-. pose proof (Ha i st Hi) as Hst.
      destruct (so_resp _ _ _ _ _ Hst) as (_ & Hle & Hcap & _). pose proof (so_off _ _ _ _ _ Hst).
      apply stream_sent_cons; try lia. apply Hall. apply list_elem_of_lookup_2 with i. cbn.
      rewrite list_lookup_alter_eq, Hi. done.
    + assert (st_id s ≠ st_id st) as Hid.
      { intros E. pose proof (index_of_unique _ _ _ (hb_ids c Hb) Hi) as E1.
        pose proof (index_of_unique _ _ _ (hb_ids c Hb) Hj) as E2. rewrite E in E2. congruence. }
      apply stream_sent_other; [done|]. apply (Hall s).
      apply list_elem_of_lookup_2 with j. cbn. by rewrite list_lookup_alter_ne.
  - pose proof (close_keeps c i Hb (lookup_lt_Some _ _ _ Hi)) as Hk. destruct (IH (proj1 Hk)) as [Hb' Hall].
    split; [done|]. intros s Hin. pose proof (perm_close c i st Hi) as Hp. rewrite Hp in Hin.
    apply elem_of_cons in Hin as [->|Hin]; [|by apply Hall].
    pose proof (hb_streams c Hb) as Ha. rewrite Forall_lookup in Ha.
    apply stream_sent_nil; [by destruct (so_off _ _ _ _ _ (Ha i st Hi))|].
    eapply of_stream_none; [exact (sends_ids _ _ _ Hs)|]. pose proof (hb_ids c Hb) as Hn.
    rewrite (ids_of_perm _ _ _ Hp) in Hn. by apply NoDup_cons in Hn as [? _].
Qed.

Lemma total_cons f fs : total (f :: fs) = zlen (df_data f) + total fs.
Proof. unfold total. cbn [map concat]. rewrite length_app. lia. Qed.

Lemma sends_conn c fs c' : sends c fs c' → h2_base c →
  buf_contents (h2_out c') = buf_contents (h2_out c) ++ concat (map wire_frame fs) ∧
  h2_send_window c' = h2_send_window c - total fs ∧
  Forall (λ f, 0 < zlen (df_data f) ≤ h2_peer_max_frame c) fs ∧
  ZHS_AVAIL (h2_out c') ≤ Z.max (ZHS_AVAIL (h2_out c)) (max_out_bytes (h2_lim c)).
Proof.
  induction 1 as [c|c c1 c' i st chunk fs last flags d Hi Hd H1 H2 H3 H4 H5 Hf Hs IH|c c' i st fs Hi Hsd Hes Hs IH]; intros Hb.
  - rewrite app_nil_r. unfold total. cbn. split_and!; [done|lia|constructor|lia].
  - destruct (frame_keeps c chunk flags (st_id st) d c1 Hb Hf) as (out' & -> & Hk1 & Hc1).
    pose proof (account_keeps (h2_set_out out' c) i chunk st (proj1 Hk1) Hi H1 H2 H3) as Hk2. fold last in Hk2.
    destruct (IH (proj1 Hk2)) as (R1 & R2 & R3 & R4). cbn [account h2_out h2_send_window h2_set_send_window h2_peer_max_frame h2_lim] in *.
    pose proof (hb_streams c Hb) as Ha. rewrite Forall_lookup in Ha. pose proof (Ha i st Hi) as Hst.
    destruct (so_resp _ _ _ _ _ Hst) as (_ & Hle & Hcap & _). pose proof (so_off _ _ _ _ _ Hst).
    assert (zlen d = chunk) as Hz by (unfold d; rewrite zlen_slice; lia).
    split; [|split; [|split]].
    + rewrite R1. cbn. rewrite Hc1. cbn [map concat]. unfold wire_frame at 2, df_data, df_flags, df_id. cbn [fst snd].
      rewrite Hz. by rewrite <- !app_assoc.
    + change (h2_send_window (h2_set_out _ _)) with (h2_send_window c) in R2. rewrite R2, total_cons. change (df_data _) with d. lia.
    + constructor; [change (df_data _) with d; lia|exact R3].
    + cbn in R4. pose proof (zlen_contents _ (hb_out c Hb)) as Z1. pose proof (zlen_contents _ (hb_out _ (proj1 Hk1))) as Z2.
      cbn in Z2. rewrite Hc1 in Z2. rewrite !length_app in Z2.
      assert (length (frame_hdr chunk ZH2_FT_DATA flags (st_id st)) = 9%nat) as Z3 by done.
      unfold ZH2_FRAME_HDR in *. lia.
  - pose proof (close_keeps c i Hb (lookup_lt_Some _ _ _ Hi)) as Hk. destruct (IH (proj1 Hk)) as (R1 & R2 & R3 & R4).
    unfold stream_close in *. destruct (swap_remove _ _ _ Hi) as (l' & E & _). rewrite E in *.
    cbn [h2_open_count h2_set_streams] in *. destruct (_ =? 0); exact (conj R1 (conj R2 (conj R3 R4))).
Qed.
End Pump.

(** C6: The pump terminates, keeps the connection well formed and never
    exceeds what the peer allowed: the bytes queued as DATA are exactly what
    the connection window lost, which stays non-negative; no frame is empty or
    larger than the peer's maximum; for every stream they are the next bytes of
    its response body, at most its own window, with END_STREAM on the frame
    that completes the body and on no other; and the output buffer stays
    within its cap. *)
Theorem zh2_pump_flow (a : Allocator) c (Hb : h2_base c) (Hoom : h2_oom c = false) :
  ∃ c', zh2_pump_ c = Ok c' ∧ keeps c c' ∧
    (h2_oom c' = false → ∃ fs,
       buf_contents (h2_out c') = buf_contents (h2_out c) ++ concat (map wire_frame fs) ∧
       h2_send_window c' = h2_send_window c - total fs ∧ 0 ≤ h2_send_window c' ∧
       Forall (λ f, 0 < zlen (df_data f) ≤ h2_peer_max_frame c) fs ∧
       (∀ s, s ∈ h2_streams c → stream_sent s fs) ∧
       ZHS_AVAIL (h2_out c') ≤ Z.max (ZHS_AVAIL (h2_out c)) (max_out_bytes (h2_lim c))).
Proof.
  unfold zh2_pump_. rewrite Hoom.
  destruct (pump_loop_spec (length (h2_streams c)) c 0 Hb ltac:(lia) Hoom) as (c' & E & Hk & Hs).
  exists c'. split; [exact E|]. split; [exact Hk|]. intros Hx. destruct (Hs Hx) as [fs Hfs]. exists fs.
  destruct (sends_conn c fs c' Hfs Hb) as (R1 & R2 & R3 & R4). destruct (sends_streams c fs c' Hfs Hb) as [Hb' R5].
  pose proof (hb_send c' Hb'). split_and!; try done. lia.
Qed.
