(* ===== verification/H2Run.v ===== *)
(** * H2Run: the life of an HTTP/2 connection

    The states the poll loop can bring a connection to, by creation, feeding,
    pumping, writing the output out and graceful shutdown: none of the calls
    faults or loops there, and the handler is run only on requests that passed
    the checks of [h2_req_good], which look at field names, not at values. *)
From stdpp Require Import base tactics list option strings.
From Stdlib Require Import ZArith Lia.
From S2P Require Import Prelude Types Buf HttpUtil Target Hpack Respond H1 H1Safe H2 H2Safe H2Pump.

(** The invariant between two calls; after an allocation failure only the
    shape matters, as nothing is parsed any more. *)
Definition h2_good (c : zh2_conn) : Prop :=
  h2_base c ∧ (h2_oom c = false → hdr_active (h2_hdr c) = true → linked c).

Lemma inv_good c : h2_inv c → h2_good c.
Proof. intros [Hb Hl]. by split. Qed.

(** ** Streams waiting for a header block *)

Lemma find_in c id s : h2_base c → find_stream c id = Some s ↔ s ∈ h2_streams c ∧ st_id s = id.
Proof.
  intros Hb. split.
  - intros Hs. pose proof (find_stream_spec c id) as Hf. rewrite Hs in Hf. destruct Hf as (i & _ & Hi & He).
    split; [|done]. by apply list_elem_of_lookup_2 in Hi.
  - intros [Hin <-]. apply list_elem_of_lookup_1 in Hin as [i Hi]. unfold find_stream, find_index.
    by rewrite (index_of_unique _ _ _ (hb_ids c Hb) Hi).
Qed.

Section Run.
Context `{Allocator, Server}.

Lemma sends_linked c fs c' : sends c fs c' → h2_base c → linked c → linked c' ∧ h2_hdr c' = h2_hdr c.
Proof.
  induction 1 as [c|c c1 c' i st chunk fs last flags d Hi Hd H1 H2 H3 H4 H5 Hf Hs IH|c c' i st fs Hi Hsd Hes Hs IH]; intros Hb Hl.
  - done.
  - destruct (frame_keeps c chunk flags (st_id st) d c1 Hb Hf) as (out' & -> & Hk1 & _).
    pose proof (account_keeps (h2_set_out out' c) i chunk st (proj1 Hk1) Hi H1 H2 H3) as Hk2. fold last in Hk2.
    destruct (IH (proj1 Hk2)) as [R1 R2]; [|split; [exact R1|exact R2]].
    intros id Hid. destruct (Hl id Hid) as (s & Hs1 & Hw). apply find_in in Hs1 as [Hin Hsid]; [|done].
    apply list_elem_of_lookup_1 in Hin as [j Hj].
    set (s2 := if decide (j = i) then
      (let s := st_set_send_window (st_send_window s - chunk) (st_set_body_off (st_body_off s + chunk) s) in
       if last then st_set_send_done true s else s) else s).
    exists s2. split; [|unfold s2; by destruct (decide (j = i)), last].
    apply find_in; [apply Hk2|]. split; [|unfold s2; by destruct (decide (j = i)), last].
    apply list_elem_of_lookup_2 with j. cbn. unfold s2. destruct (decide (j = i)) as [->|Hne].
    + by rewrite list_lookup_alter_eq, Hj.
    + by rewrite list_lookup_alter_ne.
  - pose proof (close_keeps c i Hb (lookup_lt_Some _ _ _ Hi)) as Hk.
    destruct (IH (proj1 Hk)) as [R1 R2]; [|split; [exact R1|by rewrite R2; apply Hk]].
    intros id Hid. rewrite (proj2 (proj2 Hk)) in Hid |- *. destruct (Hl id Hid) as (s & Hs1 & Hw).
    exists s. split; [|exact Hw]. apply find_in in Hs1 as [Hin Hsid]; [|done]. apply find_in; [apply Hk|]. split; [|done].
    rewrite (perm_close c i st Hi) in Hin. apply elem_of_cons in Hin as [->|?]; [|done].
    destruct Hw. congruence.
Qed.

Lemma pump_good c : h2_good c → ∃ c', zh2_pump_ c = Ok c' ∧ h2_good c' ∧ h2_lim c' = h2_lim c.
Proof.
  intros [Hb Hl]. unfold zh2_pump_. destruct (h2_oom c) eqn:Eo.
  { exists c. split; [done|]. split; [split; [done|]|done]. intros. congruence. }
  destruct (pump_loop_spec (length (h2_streams c)) c 0 Hb ltac:(lia) Eo) as (c' & -> & (Hk1 & Hk2 & Hk3) & Hs).
  exists c'. split; [done|]. split; [|done]. split; [done|]. intros Hx Ha. destruct (Hs Hx) as [fs Hfs].
  rewrite Hk3 in Ha. apply (sends_linked _ _ _ Hfs Hb), Hl; done.
Qed.

(** ** Feeding *)

Lemma preface_ok c input : h2_inv c → buf_wf input → is_bytes (buf_contents input) →
  ∃ ready c1 i1, (if h2_preface_done c then (true, c, input)
    else consume_preface (Z.to_nat ZH2_PREFACE_LEN) c input) = (ready, c1, i1) ∧ h2_inv c1 ∧ h2_lim c1 = h2_lim c ∧
    buf_wf i1 ∧ is_bytes (buf_contents i1) ∧ ZHS_AVAIL i1 ≤ ZHS_AVAIL input ∧
    (ready = false → h2_got_error c1 = true ∨ ZHS_AVAIL i1 = 0).
Proof.
  intros Hi Hw Hp. destruct (h2_preface_done c).
  - exists true, c, input. split; [done|]. do 4 (split; [done|]). split; [lia|done].
  - apply preface_spec; try done. pose proof (hb_preface c (proj1 Hi)). lia.
Qed.

Lemma feed_good c input : h2_good c → buf_wf input → is_bytes (buf_contents input) →
  ∃ r c' input', zh2_feed_ c input = Ok (r, c', input') ∧ h2_good c' ∧ h2_lim c' = h2_lim c ∧
    buf_wf input' ∧ is_bytes (buf_contents input') ∧ ZHS_AVAIL input' ≤ ZHS_AVAIL input ∧ stalled c' input' ∧
    (r = ZCIO_ERR_NOMEM → h2_oom c' = true) ∧
    (r = ZH2_OK → h2_got_error c' = false) ∧ (r = ZCIO_ERR_NOMEM ∨ r = ZH2_CLOSING ∨ r = ZH2_OK).
Proof.
  intros [Hb Hl] Hw Hp. unfold zh2_feed_. destruct (h2_oom c) eqn:Eo.
  { do 3 eexists. split; [done|]. split; [split; [done|]; intros; congruence|]. do 3 (split; [done|]). split; [lia|].
    split; [by right; left|]. split; [done|]. split; [done|]. by left. }
  assert (h2_inv c) as Hi by (split; [done|by apply Hl]).
  destruct (preface_ok c input Hi Hw Hp) as (ready & c1 & i1 & -> & R1 & R2 & R3 & R4 & R5 & R6).
  destruct ready; cbn [negb].
  - destruct (frames_loop_spec (S (Z.to_nat (ZHS_AVAIL i1))) c1 (0, 0) i1 R1 R3 R4) as (c2 & i2 & -> & F1 & F2 & F3 & F6 & F4 & F5); [lia|].
    cbn [mbind exec_bind]. do 3 eexists. split; [done|]. split; [by apply inv_good|]. split; [by rewrite F2|].
    do 2 (split; [done|]). split; [lia|]. split; [done|]. destruct (h2_oom c2), (h2_closing c2), (h2_got_error c2); cbn; split_and!; (done || auto).
  - do 3 eexists. split; [done|]. split; [by apply inv_good|]. do 3 (split; [done|]). split; [done|].
    split; [destruct (R6 eq_refl) as [?|?]; [by left|]; right; right; left; unfold ZH2_FRAME_HDR; lia|].
    destruct (h2_got_error c1); cbn; split_and!; (done || auto).
Qed.

(** ** Creation, graceful shutdown, output *)

Lemma new_good lim secure out c : h2_lims_ok lim → buf_wf out → zh2_new_ lim secure out = Some c →
  h2_good c ∧ h2_lim c = lim.
Proof.
  intros Hlim Ho. unfold zh2_new_. destruct (negb _); [done|]. unfold zhp_dec_new_. destruct (alloc_ok 48); [|done].
  set (c0 := mk_h2 lim _ _ _ _ _ _ _ _ _ _ _ _ _ _ _ _ _ _ _ _ _ _).
  assert (h2_base c0) as Hb.
  { destruct Hlim as [Hl Hm]. unfold c0. constructor; cbn; try done; try (constructor; done); try (by vm_compute; intuition discriminate);
      try (destruct Hl; split; [exact buf_empty_wf|]; split; [constructor|lia]). split; lia. }
  destruct (frame_shape c0 30 ZH2_FT_SETTINGS 0 0 (settings_payload lim) Ho) as (r & out' & -> & Hw' & _).
  destruct (negb _); [done|]. intros [= <-]. split; [|done].
  split; [|done]. rewrite <- (set_oom_same (h2_set_out out' c0)). by apply (base_out c0).
Qed.

Lemma graceful_good c : h2_good c → h2_good (zh2_graceful_ c) ∧ h2_lim (zh2_graceful_ c) = h2_lim c.
Proof.
  intros [Hb Hl]. unfold zh2_graceful_. destruct (goaway_shape c ZH2_E_NO_ERROR (hb_out c Hb)) as (out' & o & g & E & Hw).
  destruct (goaway_keeps c ZH2_E_NO_ERROR Hb) as (Hb' & HL & _). split; [|exact HL].
  split; [by apply closing_keeps|]. rewrite E. cbn. intros -> Ha.
  assert (h2_oom c = false → linked c) as Hl' by auto.
  destruct (h2_oom c) eqn:Eo; [|exact (Hl' eq_refl)].
  exfalso. revert E. unfold q_goaway, queue. destruct (h2_goaway_sent c); [intros E; apply (f_equal h2_oom) in E; cbn in E; congruence|].
  destruct (frame_shape c 8 ZH2_FT_GOAWAY 0 0 (wr32 (h2_last_client_id c) ++ wr32 ZH2_E_NO_ERROR) (hb_out c Hb)) as (r & o2 & E & _).
  change (zlen (wr32 (h2_last_client_id c) ++ wr32 ZH2_E_NO_ERROR)) with 8. rewrite E.
  destruct (negb _); intros E2; apply (f_equal h2_oom) in E2; cbn in E2; congruence.
Qed.

Lemma written_good c n : h2_good c → 0 ≤ n ≤ ZHS_AVAIL (h2_out c) →
  h2_good (h2_set_out (zhs_buf_consume_ (h2_out c) n) c).
Proof.
  intros [Hb Hl] Hn. split; [|exact Hl]. destruct (avail_consume _ n (hb_out c Hb) Hn) as (Hw & _ & _).
  rewrite <- (set_oom_same (h2_set_out _ c)). by apply base_out.
Qed.

(** ** The states of a connection *)

(** What the poll loop does with a connection: the limits and the buffers are
    the server's, the input the peer's. *)
Inductive h2_reach (lim : zhs_limits) : zh2_conn → Prop :=
  | reach_new secure out c : buf_wf out → zh2_new_ lim secure out = Some c → h2_reach lim c
  | reach_feed c input r c' input' : h2_reach lim c → buf_wf input → is_bytes (buf_contents input) →
      zh2_feed_ c input = Ok (r, c', input') → h2_reach lim c'
  | reach_pump c c' : h2_reach lim c → zh2_pump_ c = Ok c' → h2_reach lim c'
  | reach_graceful c : h2_reach lim c → h2_reach lim (zh2_graceful_ c)
  | reach_written c n : h2_reach lim c → 0 ≤ n ≤ ZHS_AVAIL (h2_out c) →
      h2_reach lim (h2_set_out (zhs_buf_consume_ (h2_out c) n) c).

Lemma reach_good lim c : h2_lims_ok lim → h2_reach lim c → h2_good c ∧ h2_lim c = lim.
Proof.
  intros Hlim. induction 1 as [secure out c Ho Hn|c input r c' input' _ [IH L] Hw Hp E|c c' _ [IH L] E|c _ [IH L]|c n _ [IH L] Hn].
  - exact (new_good _ _ _ _ Hlim Ho Hn).
  - destruct (feed_good c input IH Hw Hp) as (r2 & c2 & i2 & E2 & R1 & R2 & _). rewrite E in E2.
    injection E2 as <- <- <-. split; [done|congruence].
  - destruct (pump_good c IH) as (c2 & E2 & R1 & R2). rewrite E in E2. injection E2 as <-. split; [done|congruence].
  - destruct (graceful_good c IH) as [R1 R2]. split; [done|congruence].
  - split; [by apply written_good|done].
Qed.
End Run.

(** ** Handlers see checked requests only *)

Lemma dispatch_req_good `{Allocator} lim sec id r : buf_wf (body r) → h2_req_good lim r → h2_req_good lim (dispatch_req sec id r).
Proof.
  intros Hw (H1 & H2 & H3 & H4). destruct (dispatch_req_facts sec id r Hw) as [_ Hl].
  split; [exact H1|]. split; [exact H2|]. split; [exact H3|]. by rewrite Hl.
Qed.

Section Clean.
Context `{Allocator} (S : Server) (h1 h2 : zcio_http_req → hprog) (lim : zhs_limits).
Hypothesis Hagree : ∀ r, h2_req_good lim r → version r = 2 → h1 r = h2 r.

Let S1 : Server := with_handler S h1.
Let S2 : Server := with_handler S h2.

Lemma dispatch_agree c id : h2_lim c = lim → h2_base c → ready c id → @h2_dispatch _ S1 c id = @h2_dispatch _ S2 c id.
Proof.
  intros HL Hb (_ & st & Hs & He & Hg). unfold h2_dispatch. rewrite Hs. destruct (st_dispatched st) eqn:Ed; [done|].
  set (f := λ s, st_set_req (dispatch_req (h2_secure c) id (st_req s)) (st_set_dispatched true s)).
  destruct (find_stream_ok c id st Hb Hs) as [Hok Hid].
  assert (find_stream (upd_stream id f c) id = Some (f st)) as Hf by (by rewrite (find_upd c id f st), Z.eqb_refl).
  set (c1 := upd_stream id f c) in *. unfold zhs_dispatch_.
  assert (h1 (@get_req _ h2_transport (c1, id)) = h2 (@get_req _ h2_transport (c1, id))) as E.
  { cbn. rewrite Hf. unfold f. cbn [st_req st_set_req].
    assert (version (dispatch_req (h2_secure c) id (st_req st)) = 2) as Hv by done.
    apply Hagree; [|exact Hv]. rewrite <- HL. apply dispatch_req_good; [exact (so_body _ _ _ _ _ Hok)|]. by apply (so_good _ _ _ _ _ Hok). }
  change (@srv_handler S1) with h1. change (@srv_handler S2) with h2. rewrite E. reflexivity.
Qed.

Lemma settles_agree op (P : zh2_conn → Prop) : (∀ c, P c → h2_base c ∧ h2_lim c = lim) → settles op P → op S1 = op S2.
Proof.
  intros Hpb (c' & od & E & Hp & Hr). rewrite !E. destruct od as [id|]; [|done]. cbn. f_equal.
  destruct (Hpb c' Hp). by apply dispatch_agree; auto.
Qed.

Lemma on_frame_agree c n type flags sid payload : h2_lim c = lim → h2_inv c → h2_got_error c = false →
  out_of_order c type sid = false → is_bytes payload → zlen payload ≤ ZH2_OUR_MAX_FRAME → 0 ≤ sid < 2 ^ 31 →
  @on_frame _ S1 c n type flags sid payload = @on_frame _ S2 c n type flags sid payload.
Proof.
  intros HL [Hb Hl] He Hoo Hp Hlen Hsid. unfold on_frame, out_of_order in *.
  assert (∀ c1, keeps c c1 → h2_base c1 ∧ h2_lim c1 = lim) as Hk by (intros c1 K; destruct K as (K1 & K2 & _); split; [done|congruence]).
  assert (∀ c1, handled c c1 → h2_base c1 ∧ h2_lim c1 = lim) as Hh by (intros c1 K; destruct K as (K1 & K2 & _); split; [done|congruence]).
  destruct (hdr_active (h2_hdr c)) eqn:Ea.
  { btest. subst type sid. cbn.
    by rewrite (settles_agree _ _ Hh (on_continuation_spec c flags payload Hb He (Hl eq_refl) Hp)). }
  rewrite (settles_agree _ _ Hk (on_data_spec c flags sid payload Hb Ea Hp Hlen)).
  rewrite (settles_agree _ _ Hh (on_headers_spec c flags sid payload Hb Ea Hp Hsid)).
  rewrite Hoo. reflexivity.
Qed.

Lemma loop_agree fuel c n input : h2_lim c = lim → h2_inv c → buf_wf input → is_bytes (buf_contents input) →
  @frames_loop _ S1 fuel c n input = @frames_loop _ S2 fuel c n input.
Proof.
  revert c n input. induction fuel as [|fuel IH]; intros c n input HL Hi Hw Hp; [done|].
  cbn [frames_loop]. destruct (h2_got_error c || h2_oom c) eqn:Ee; [done|].
  btest. destruct (ZHS_AVAIL input <? ZH2_FRAME_HDR) eqn:Ea; btest; [done|].
  destruct (next_frame_ok input Hw Hp Ea) as (len & ty & fl & v & -> & -> & -> & -> & Hl & Hsid).
  cbn [mbind exec_bind]. destruct (ZH2_OUR_MAX_FRAME <? len) eqn:Eb; btest; [done|].
  destruct (ZHS_AVAIL input <? ZH2_FRAME_HDR + len) eqn:Ec; btest; [done|].
  unfold ZH2_FRAME_HDR in *. pose proof (zlen_contents input Hw) as Hz. rewrite mem_read_ok by lia. cbn [mbind exec_bind].
  destruct (h2_need_settings c && _); [done|].
  set (c1 := h2_set_need_settings false c). assert (h2_inv c1) as Hi1 by by apply need_settings_inv.
  destruct (out_of_order c1 ty _) eqn:Eo; [done|].
  assert (is_bytes (slice 9 len (buf_contents input))) as Hsb by (by apply slice_bytes).
  assert (zlen (slice 9 len (buf_contents input)) ≤ ZH2_OUR_MAX_FRAME) as Hsl by (rewrite zlen_slice; lia).
  rewrite (on_frame_agree c1 n ty fl _ _ HL Hi1) by done.
  destruct (@on_frame_spec _ S2 c1 n ty fl (Z.land v 0x7fffffff) (slice 9 len (buf_contents input)) Hi1)
    as (c2 & n2 & -> & Hi2 & HL2); [done..|].
  cbn [mbind exec_bind]. destruct (input_drop input (9 + len) Hw Hp) as (G1 & G2 & G3); [lia|]. apply IH; try done. rewrite HL2. exact HL.
Qed.
Lemma h2_feed_agree c input : h2_lim c = lim → h2_good c → buf_wf input → is_bytes (buf_contents input) →
  @zh2_feed_ _ S1 c input = @zh2_feed_ _ S2 c input.
Proof.
  intros HL [Hb Hl] Hw Hp. unfold zh2_feed_. destruct (h2_oom c) eqn:Eo; [done|].
  assert (h2_inv c) as Hi by (split; [done|by apply Hl]).
  destruct (preface_ok c input Hi Hw Hp) as (ready & c1 & i1 & -> & R1 & R2 & R3 & R4 & _).
  destruct ready; cbn [negb]; [|done]. rewrite loop_agree; try done. rewrite R2. exact HL.
Qed.
End Clean.

(** C5: In every state the poll loop can bring a connection to, whatever the
    peer sends, feeding and pumping return: they neither fault (no read or
    write out of bounds, no arithmetic overflow, no missing stream) nor run on.
    The feed stops because nothing more can be done with its input, reports OK
    only without a connection error and an allocation failure only after one;
    windows, stream table and header block stay within their bounds. *)
Theorem h2_conn_safe (a : Allocator) (S : Server) lim c input (Hlim : h2_lims_ok lim) (Hc : h2_reach lim c)
  (Hw : buf_wf input) (Hp : is_bytes (buf_contents input)) :
  (∃ r c' input', zh2_feed_ c input = Ok (r, c', input') ∧ h2_good c' ∧ h2_lim c' = lim ∧
     buf_wf input' ∧ ZHS_AVAIL input' ≤ ZHS_AVAIL input ∧ stalled c' input' ∧
     (r = ZCIO_ERR_NOMEM → h2_oom c' = true) ∧ (r = ZH2_OK → h2_got_error c' = false) ∧
     (r = ZCIO_ERR_NOMEM ∨ r = ZH2_CLOSING ∨ r = ZH2_OK)) ∧
  ∃ c', zh2_pump_ c = Ok c' ∧ h2_good c' ∧ h2_lim c' = lim.
Proof.
  destruct (reach_good lim c Hlim Hc) as [Hg <-]. split; [|by apply pump_good].
  destruct (feed_good c input Hg Hw Hp) as (r & c' & i' & E & R1 & R2 & R3 & _ & R). by exists r, c', i'.
Qed.

(** In every state the poll loop can bring a connection to, whatever the
    peer sends, two handlers that agree on the requests that pass the checks - a token
    as method, a decoded target free of controls, lower-case field names that
    are tokens and not connection specific, within the limits - cannot be told
    apart: no other request is ever handed to a handler. *)
Theorem h2_requests_clean (a : Allocator) (S : Server) h1 h2 lim c input
  (Hagree : ∀ lim r, h2_req_good lim r → h1 r = h2 r)
  (Hlim : h2_lims_ok lim) (Hc : @h2_reach a S lim c) (Hw : buf_wf input) (Hp : is_bytes (buf_contents input)) :
  @zh2_feed_ a (with_handler S h1) c input = @zh2_feed_ a (with_handler S h2) c input.
Proof.
  destruct (reach_good lim c Hlim Hc). apply (h2_feed_agree S h1 h2 lim); try done. intros. by eapply Hagree.
Qed.

(** ** Witnesses *)

Definition ex2_frame (type flags id : Z) (payload : bytes) : bytes :=
  frame_hdr (zlen payload) type flags id ++ payload.

(** The preface, empty SETTINGS, and GET / on stream 1. *)
Definition ex2_input : bytes :=
  ZH2_PREFACE ++ ex2_frame ZH2_FT_SETTINGS 0 0 [] ++ ex2_frame ZH2_FT_HEADERS 5 1 [0x82; 0x87; 0x84].

Definition ex2_new : option zh2_conn := @zh2_new_ always_alloc ex_limits true buf_empty.

Lemma ex2_limits : h2_lims_ok ex_limits.
Proof. vm_compute. intuition discriminate. Qed.

Lemma ex2_reach (S : Server) c : ex2_new = Some c → @h2_reach always_alloc S ex_limits c.
Proof. intros E. exact (@reach_new always_alloc S ex_limits true buf_empty c buf_empty_wf E). Qed.

Lemma ex2_input_ok : buf_wf (buf_of ex2_input) ∧ is_bytes (buf_contents (buf_of ex2_input)).
Proof. split; [apply buf_of_wf; vm_compute; discriminate|]. by apply bytes_dec. Qed.

Lemma h2_conn_safe_witness : ∃ c r c' input',
  ex2_new = Some c ∧ @zh2_feed_ always_alloc (ex_server hello) c (buf_of ex2_input) = Ok (r, c', input') ∧
  h2_good c' ∧ stalled c' input'.
Proof.
  destruct ex2_new as [c|] eqn:E; [|vm_compute in E; discriminate].
  destruct (proj1 (h2_conn_safe always_alloc (ex_server hello) ex_limits c (buf_of ex2_input) ex2_limits
    (ex2_reach _ c E) (proj1 ex2_input_ok) (proj2 ex2_input_ok))) as (r & c' & i' & Ef & Hg & _ & _ & _ & Hs & _).
  exists c, r, c', i'. split; [reflexivity|]. split; [exact Ef|]. split; [exact Hg|exact Hs].
Defined.

Lemma h2_requests_clean_witness : ∃ c, ex2_new = Some c ∧
  @zh2_feed_ always_alloc (with_handler (ex_server hello) hello) c (buf_of ex2_input) =
  @zh2_feed_ always_alloc (with_handler (ex_server hello) (λ r, if path r is Some _ then hello r else HRet))
    c (buf_of ex2_input).
Proof.
  destruct ex2_new as [c|] eqn:E; [|vm_compute in E; discriminate]. exists c. split; [reflexivity|].
  apply (h2_requests_clean always_alloc (ex_server hello) hello
    (λ r, if path r is Some _ then hello r else HRet) ex_limits c (buf_of ex2_input));
    [|apply ex2_limits|exact (ex2_reach _ c E)|apply ex2_input_ok|apply ex2_input_ok].
  intros lim r ((_ & (p & Hp & _) & _) & _). rewrite Hp. reflexivity.
Defined.

(** The connection after that input, with the answer waiting. *)
Definition ex2_feed (c : zh2_conn) : option zh2_conn :=
  match @zh2_feed_ always_alloc (ex_server hello) c (buf_of ex2_input) with Ok (_, c', _) => Some c' | _ => None end.

Definition ex2_answered : option zh2_conn := match ex2_new with Some c => ex2_feed c | None => None end.

Lemma ex2_feed_base c c' : ex2_new = Some c → ex2_feed c = Some c' → h2_base c'.
Proof.
  intros E. destruct (reach_good ex_limits c ex2_limits (ex2_reach (ex_server hello) c E)) as [Hg _].
  destruct (@feed_good always_alloc (ex_server hello) c (buf_of ex2_input) Hg (proj1 ex2_input_ok) (proj2 ex2_input_ok))
    as (r & c2 & i2 & Ef & [Hb _] & _).
  unfold ex2_feed. rewrite Ef. by intros [= <-].
Qed.

Lemma ex2_answered_oom : option_map h2_oom ex2_answered = Some false.
Proof. vm_compute. reflexivity. Qed.

Lemma ex2_answered_base c' : ex2_answered = Some c' → h2_base c'.
Proof. unfold ex2_answered. destruct ex2_new as [c|] eqn:E; [|discriminate]. exact (ex2_feed_base c c' E). Qed.

Lemma ex2_answered_ok : ∃ c, ex2_answered = Some c ∧ h2_base c ∧ h2_oom c = false.
Proof.
  pose proof ex2_answered_base as Hb. pose proof ex2_answered_oom as Ho. destruct ex2_answered as [c|]; [|discriminate].
  exists c. split; [reflexivity|]. split; [by apply Hb|]. by injection Ho.
Qed.

Lemma zh2_pump_flow_witness : ∃ c c', ex2_answered = Some c ∧ @zh2_pump_ always_alloc c = Ok c' ∧ keeps c c'.
Proof.
  destruct ex2_answered_ok as (c & E & Hb & Ho).
  destruct (zh2_pump_flow always_alloc c Hb Ho) as (c' & Ep & Hk & _). exists c, c'.
  split; [exact E|]. split; [exact Ep|exact Hk].
Defined.

(** The pumped body: one DATA frame that ends the stream. *)
Example pump_sends :
  option_map (λ c, match @zh2_pump_ always_alloc c with
                   | Ok c' => zdrop (zlen (buf_contents (h2_out c))) (buf_contents (h2_out c'))
                   | _ => []
                   end) ex2_answered
  = Some (ex2_frame ZH2_FT_DATA ZH2_FL_END_STREAM 1 (B "hi")).
Proof. vm_compute. reflexivity. Qed.

(** A field name in upper case fails the stream but not the connection, yet
    ends the decoding of its block: the indexed field after it never enters the
    table, so the next request of a conforming peer that refers to it fails the
    connection with COMPRESSION_ERROR. *)
Definition ex2_desync (name : Z) : bytes :=
  ZH2_PREFACE ++ ex2_frame ZH2_FT_SETTINGS 0 0 [] ++
  ex2_frame ZH2_FT_HEADERS 5 1 ([0x82; 0x87; 0x84] ++ [0; 1; name; 1; 120] ++ [0x40; 1; 98; 1; 99]) ++
  ex2_frame ZH2_FT_HEADERS 5 3 [0x82; 0x87; 0x84; 0xbe].

Definition ex2_run (input : bytes) : option (Z * bool) :=
  match ex2_new with
  | Some c => match @zh2_feed_ always_alloc (ex_server hello) c (buf_of input) with
              | Ok (r, c', _) => Some (r, h2_got_error c')
              | _ => None
              end
  | None => None
  end.

Example table_desync : ex2_run (ex2_desync 97) = Some (ZH2_OK, false) ∧ ex2_run (ex2_desync 65) = Some (ZH2_CLOSING, true).
Proof. split; vm_compute; reflexivity. Qed.

(** Field values are not checked: a handler that answers with the value of a
    field answers with CR LF when that is the value. *)
Definition ex2_echo : zcio_http_req → hprog := λ r,
  let v := default [] (zhs_hdrs_get_ (headers r) (B "x")) in HRespond 200 [] (Some v) (zlen v) (λ _, HRet).

Definition ex2_value (v : bytes) : option (list bytes) :=
  match ex2_new with
  | Some c => match @zh2_feed_ always_alloc (ex_server ex2_echo) c
                (buf_of (ZH2_PREFACE ++ ex2_frame ZH2_FT_SETTINGS 0 0 [] ++
                   ex2_frame ZH2_FT_HEADERS 5 1 ([0x82; 0x87; 0x84] ++ [0; 1; 120; zlen v] ++ v))) with
              | Ok (_, c', _) => Some (map (λ s, buf_contents (st_resp_body s)) (h2_streams c'))
              | _ => None
              end
  | None => None
  end.

Example h2_values_unchecked : ex2_value [97; 13; 10] = Some [[97; 13; 10]].
Proof. vm_compute. reflexivity. Qed.
