(* ===== verification/H3.v ===== *)
(** * H3: the HTTP/3 server module ([src/h3.c])

    Variable-length integers, the HEADERS decoder, the per-stream frame parser,
    responses, the stream and connection tables and [zh3_process_].  OpenSSL's
    QUIC engine is a parameter, the class [Quic]: an engine state and the calls
    the code makes on it, with handles for its [SSL] objects. *)
From stdpp Require Import base tactics list option strings.
From Stdlib Require Import ZArith Lia.
From S2P Require Import Prelude Types Buf HttpUtil Target Qpack Respond.

Definition H3_FRAME_DATA : Z := 0.
Definition H3_FRAME_HEADERS : Z := 1.
Definition H3_FRAME_SETTINGS : Z := 4.
Definition H3_FRAME_GOAWAY : Z := 7.
Definition H3_UNI_CONTROL : Z := 0.

Definition ZH3_ACCEPT_CAP : nat := 1024.
Definition ZH3_READ_CAP : positive := 4096.
Definition ZH3_WRITE_STALL : Z := 1000.

(** ** Variable-length integers *)

(** The length and the value, or [None]: more bytes are needed. *)
Definition h3_varint (p : bytes) : option (Z * Z) :=
  match p with
  | [] => None
  | b :: _ =>
      let len := Z.shiftl 1 (Z.shiftr b 6) in
      if zlen p <? len then None
      else Some (len, fold_left (λ v c, Z.lor (Z.shiftl v 8) c) (slice 1 (len - 1) p) (Z.land b 63))
  end.

Definition h3_put_varint `{Allocator} (v : Z) : emitter :=
  if v <=? 0x3f then put [u8 v]
  else if v <=? 0x3fff then put [u8 (Z.lor 0x40 (Z.shiftr v 8)); u8 v]
  else if v <=? 0x3fffffff then
    put [u8 (Z.lor 0x80 (Z.shiftr v 24)); u8 (Z.shiftr v 16); u8 (Z.shiftr v 8); u8 v]
  else
    put [u8 (Z.lor 0xc0 (Z.shiftr v 56)); u8 (Z.shiftr v 48); u8 (Z.shiftr v 40); u8 (Z.shiftr v 32);
         u8 (Z.shiftr v 24); u8 (Z.shiftr v 16); u8 (Z.shiftr v 8); u8 v].

(** ** Streams *)

Inductive h3_pstate := ZH3_PS_HDR | ZH3_PS_HEADERS | ZH3_PS_DATA | ZH3_PS_SKIP.
#[export] Instance h3_pstate_eq : EqDecision h3_pstate.
Proof. solve_decision. Defined.

(** The connection's [SSL] is the connection's own. *)
Record zh3_stream := mk_stream3 {
  s3_ssl : Z; s3_id : Z; s3_is_uni : bool; s3_fin : bool; s3_headers_seen : bool;
  s3_dispatched : bool; s3_done : bool; s3_pstate : h3_pstate; s3_fremain : Z;
  s3_in : zhs_buf; s3_hdr : zhs_buf; s3_req : zcio_http_req }.

Definition s3_set_fin v (x : zh3_stream) := mk_stream3 (s3_ssl x) (s3_id x) (s3_is_uni x) v (s3_headers_seen x)
  (s3_dispatched x) (s3_done x) (s3_pstate x) (s3_fremain x) (s3_in x) (s3_hdr x) (s3_req x).
Definition s3_set_headers_seen v (x : zh3_stream) := mk_stream3 (s3_ssl x) (s3_id x) (s3_is_uni x) (s3_fin x) v
  (s3_dispatched x) (s3_done x) (s3_pstate x) (s3_fremain x) (s3_in x) (s3_hdr x) (s3_req x).
Definition s3_set_dispatched v (x : zh3_stream) := mk_stream3 (s3_ssl x) (s3_id x) (s3_is_uni x) (s3_fin x)
  (s3_headers_seen x) v (s3_done x) (s3_pstate x) (s3_fremain x) (s3_in x) (s3_hdr x) (s3_req x).
Definition s3_set_done v (x : zh3_stream) := mk_stream3 (s3_ssl x) (s3_id x) (s3_is_uni x) (s3_fin x)
  (s3_headers_seen x) (s3_dispatched x) v (s3_pstate x) (s3_fremain x) (s3_in x) (s3_hdr x) (s3_req x).
Definition s3_set_frame p r (x : zh3_stream) := mk_stream3 (s3_ssl x) (s3_id x) (s3_is_uni x) (s3_fin x)
  (s3_headers_seen x) (s3_dispatched x) (s3_done x) p r (s3_in x) (s3_hdr x) (s3_req x).
Definition s3_set_pstate p (x : zh3_stream) := s3_set_frame p (s3_fremain x) x.
Definition s3_set_fremain r (x : zh3_stream) := s3_set_frame (s3_pstate x) r x.
Definition s3_set_in v (x : zh3_stream) := mk_stream3 (s3_ssl x) (s3_id x) (s3_is_uni x) (s3_fin x)
  (s3_headers_seen x) (s3_dispatched x) (s3_done x) (s3_pstate x) (s3_fremain x) v (s3_hdr x) (s3_req x).
Definition s3_set_hdr v (x : zh3_stream) := mk_stream3 (s3_ssl x) (s3_id x) (s3_is_uni x) (s3_fin x)
  (s3_headers_seen x) (s3_dispatched x) (s3_done x) (s3_pstate x) (s3_fremain x) (s3_in x) v (s3_req x).
Definition s3_set_req v (x : zh3_stream) := mk_stream3 (s3_ssl x) (s3_id x) (s3_is_uni x) (s3_fin x)
  (s3_headers_seen x) (s3_dispatched x) (s3_done x) (s3_pstate x) (s3_fremain x) (s3_in x) (s3_hdr x) v.

(** ** Header decoding *)

(** [c_hdrs] is [req->headers]. *)
Record h3_hdr_ctx := mk_hctx {
  c_method : option bytes; c_path : option bytes; c_scheme : option bytes; c_authority : option bytes;
  c_regular_seen : bool; c_bad : bool; c_err : Z; c_hdrs : zhs_hdrs }.

Definition hctx_bad (c : h3_hdr_ctx) : h3_hdr_ctx :=
  mk_hctx (c_method c) (c_path c) (c_scheme c) (c_authority c) (c_regular_seen c) true (c_err c) (c_hdrs c).
Definition hctx_err (e : Z) (c : h3_hdr_ctx) : h3_hdr_ctx :=
  mk_hctx (c_method c) (c_path c) (c_scheme c) (c_authority c) (c_regular_seen c) (c_bad c) e (c_hdrs c).
Definition hctx_regular (c : h3_hdr_ctx) : h3_hdr_ctx :=
  mk_hctx (c_method c) (c_path c) (c_scheme c) (c_authority c) true (c_bad c) (c_err c) (c_hdrs c).
Definition hctx_hdrs (h : zhs_hdrs) (c : h3_hdr_ctx) : h3_hdr_ctx :=
  mk_hctx (c_method c) (c_path c) (c_scheme c) (c_authority c) (c_regular_seen c) (c_bad c) (c_err c) h.

Definition h3_name_is (n lit : bytes) : bool := bool_decide (n = lit).

Definition h3_conn_specific (n : bytes) : bool :=
  h3_name_is n (B "connection") || h3_name_is n (B "keep-alive") || h3_name_is n (B "proxy-connection") ||
  h3_name_is n (B "transfer-encoding") || h3_name_is n (B "upgrade").

(** The slot of a pseudo-header: its value and its assignment. *)
Definition h3_slot (c : h3_hdr_ctx) (name : bytes) : option (option bytes * (bytes → h3_hdr_ctx)) :=
  if h3_name_is name (B ":method") then Some (c_method c,
    λ v, mk_hctx (Some v) (c_path c) (c_scheme c) (c_authority c) (c_regular_seen c) (c_bad c) (c_err c) (c_hdrs c))
  else if h3_name_is name (B ":path") then Some (c_path c,
    λ v, mk_hctx (c_method c) (Some v) (c_scheme c) (c_authority c) (c_regular_seen c) (c_bad c) (c_err c) (c_hdrs c))
  else if h3_name_is name (B ":scheme") then Some (c_scheme c,
    λ v, mk_hctx (c_method c) (c_path c) (Some v) (c_authority c) (c_regular_seen c) (c_bad c) (c_err c) (c_hdrs c))
  else if h3_name_is name (B ":authority") then Some (c_authority c,
    λ v, mk_hctx (c_method c) (c_path c) (c_scheme c) (Some v) (c_regular_seen c) (c_bad c) (c_err c) (c_hdrs c))
  else None.

Section Streams.
Context `{Allocator}.

Definition h3_strndup (s : bytes) : option bytes := if zcio_xmalloc_ok (zlen s + 1) then Some s else None.

(** The callback's result and the context after it. *)
Definition h3_emit (lim : zhs_limits) (c : h3_hdr_ctx) (name value : bytes) : Z * h3_hdr_ctx :=
  if c_bad c || negb (c_err c =? 0) then (0, c)
  else if (0 <? zlen name) && (nth 0 name 0 =? 58) then
    if c_regular_seen c then (0, hctx_bad c)
    else if negb (zhs_value_ok_ value) then (0, hctx_bad c)
    else match h3_slot c name with
    | None => (0, hctx_bad c)
    | Some (Some _, _) => (0, hctx_bad c)
    | Some (None, set) =>
        if zlen value =? 0 then (0, hctx_bad c)
        else match h3_strndup value with
        | None => (ZCIO_ERR_NOMEM, hctx_err ZCIO_ERR_NOMEM c)
        | Some v => (0, set v)
        end
    end
  else
    let c := hctx_regular c in
    if negb (zhs_lower_token_ok_ name) then (0, hctx_bad c)
    else if negb (zhs_value_ok_ value) then (0, hctx_bad c)
    else if h3_conn_specific name then (0, hctx_bad c)
    else if h3_name_is name (B "te") && negb (bool_decide (value = B "trailers")) then (0, hctx_bad c)
    else
      let '(r, hs) := zhs_hdrs_add_ (c_hdrs c) name value lim false in
      let c := hctx_hdrs hs c in
      if r =? ZCIO_ERR_NOMEM then (r, hctx_err r c)
      else if negb (r =? ZCIO_OK) then (0, hctx_bad c) else (0, c).

(** A complete field section into the request. *)
Definition decode_fields (lim : zhs_limits) (block : bytes) (req : zcio_http_req) : exec (Z * zcio_http_req) :=
  '(r, c) ← zqp_decode_ (h3_emit lim) block (max_header_bytes lim)
              (mk_hctx None None None None false false 0 (headers req));
  let req := req_set_headers (c_hdrs c) req in
  if (r =? ZCIO_ERR_NOMEM) || (c_err c =? ZCIO_ERR_NOMEM) then Ok (ZCIO_ERR_NOMEM, req)
  else if negb (r =? ZCIO_OK) || c_bad c then Ok (ZCIO_ERR_PROTOCOL, req)
  else match c_method c, c_path c, c_scheme c with
  | Some m, Some p, Some _ =>
      let req := req_set_is_head (bool_decide (cstr m = B "HEAD")) (req_set_method (Some m) req) in
      '(dr, path, query) ← zhs_decode_target_ (cstr p) lim;
      let req := req_set_query query (req_set_path path req) in
      if negb (dr =? ZCIO_OK) then Ok (if dr =? ZCIO_ERR_NOMEM then ZCIO_ERR_NOMEM else ZCIO_ERR_PROTOCOL, req)
      else Ok (ZCIO_OK, match c_authority c with Some a => req_set_authority (Some a) req | None => req end)
  | _, _, _ => Ok (ZCIO_ERR_PROTOCOL, req)
  end.

Definition h3_decode_headers (lim : zhs_limits) (st : zh3_stream) : exec (Z * zh3_stream) :=
  '(r, req) ← (if ZHS_AVAIL (s3_hdr st) =? 0 then Ok (ZCIO_ERR_PROTOCOL, s3_req st)
               else decode_fields lim (buf_contents (s3_hdr st)) (s3_req st));
  Ok (r, s3_set_req req (s3_set_hdr (zhs_buf_free_ (s3_hdr st)) st)).

(** ** The frame parser *)

(** One turn of the loop: go round again, or return. *)
Inductive turn3 := Again3 (st : zh3_stream) | Return3 (r : Z) (st : zh3_stream).

(** What a turn takes of the current frame's payload. *)
Definition frame_take (st : zh3_stream) : Z :=
  if ZHS_AVAIL (s3_in st) <? s3_fremain st then ZHS_AVAIL (s3_in st) else s3_fremain st.
Definition frame_bytes (st : zh3_stream) : bytes := ztake (frame_take st) (buf_contents (s3_in st)).
Definition frame_taken (st : zh3_stream) : zh3_stream :=
  s3_set_fremain (s3_fremain st - frame_take st) (s3_set_in (zhs_buf_consume_ (s3_in st) (frame_take st)) st).

Definition frame_head_turn (lim : zhs_limits) (st : zh3_stream) : turn3 :=
  let p := buf_contents (s3_in st) in
  match h3_varint p with
  | None => Return3 ZCIO_OK st
  | Some (n1, ftype) =>
      match h3_varint (zdrop n1 p) with
      | None => Return3 ZCIO_OK st
      | Some (n2, flen) =>
          let st := s3_set_in (zhs_buf_consume_ (s3_in st) (n1 + n2)) st in
          if (ftype =? H3_FRAME_HEADERS) && negb (s3_headers_seen st) then
            if max_header_bytes lim <? flen then Return3 ZCIO_ERR_PROTOCOL st
            else Again3 (s3_set_frame ZH3_PS_HEADERS flen st)
          else if ftype =? H3_FRAME_DATA then Again3 (s3_set_frame ZH3_PS_DATA flen st)
          else Again3 (s3_set_frame ZH3_PS_SKIP flen st)
      end
  end.

Definition headers_turn (lim : zhs_limits) (st : zh3_stream) : exec turn3 :=
  let finish st :=
    if s3_fremain st =? 0 then
      '(r, st) ← h3_decode_headers lim st;
      Ok (if negb (r =? ZCIO_OK) then Return3 r st
          else Again3 (s3_set_pstate ZH3_PS_HDR (s3_set_headers_seen true st)))
    else Ok (Again3 st) in
  if 0 <? s3_fremain st then
    if ZHS_AVAIL (s3_in st) =? 0 then Ok (Return3 ZCIO_OK st)
    else
      let '(r, b) := zhs_buf_append_ (s3_hdr st) (frame_bytes st) in
      if negb (r =? ZCIO_OK) then Ok (Return3 ZCIO_ERR_NOMEM (s3_set_hdr b st))
      else finish (frame_taken (s3_set_hdr b st))
  else finish st.

Definition data_turn (lim : zhs_limits) (st : zh3_stream) : turn3 :=
  let finish st := if s3_fremain st =? 0 then Again3 (s3_set_pstate ZH3_PS_HDR st) else Again3 st in
  if 0 <? s3_fremain st then
    if ZHS_AVAIL (s3_in st) =? 0 then Return3 ZCIO_OK st
    else if u64 (max_body_bytes lim - b_len (body (s3_req st))) <? frame_take st then Return3 ZCIO_ERR_PROTOCOL st
    else
      let '(r, b) := zhs_buf_append_ (body (s3_req st)) (frame_bytes st) in
      let st := s3_set_req (req_set_body b (s3_req st)) st in
      if negb (r =? ZCIO_OK) then Return3 ZCIO_ERR_NOMEM st else finish (frame_taken st)
  else finish st.

Definition skip_turn (st : zh3_stream) : turn3 :=
  let finish st := if s3_fremain st =? 0 then Again3 (s3_set_pstate ZH3_PS_HDR st) else Again3 st in
  if 0 <? s3_fremain st then
    if ZHS_AVAIL (s3_in st) =? 0 then Return3 ZCIO_OK st else finish (frame_taken st)
  else finish st.

Definition parse_turn (lim : zhs_limits) (st : zh3_stream) : exec turn3 :=
  match s3_pstate st with
  | ZH3_PS_HDR => Ok (if ZHS_AVAIL (s3_in st) =? 0 then Return3 ZCIO_OK st else frame_head_turn lim st)
  | ZH3_PS_HEADERS => headers_turn lim st
  | ZH3_PS_DATA => Ok (data_turn lim st)
  | ZH3_PS_SKIP => Ok (skip_turn st)
  end.

Fixpoint parse_loop3 (fuel : nat) (lim : zhs_limits) (st : zh3_stream) : exec (Z * zh3_stream) :=
  match fuel with
  | O => OutOfFuel
  | S fuel =>
      t ← parse_turn lim st;
      match t with Return3 r st => Ok (r, st) | Again3 st => parse_loop3 fuel lim st end
  end.

(** A frame header takes at least two bytes, its payload one more turn. *)
Definition h3_parse (lim : zhs_limits) (st : zh3_stream) : exec (Z * zh3_stream) :=
  parse_loop3 (2 * Z.to_nat (ZHS_AVAIL (s3_in st)) + 2) lim st.
End Streams.

(** ** The QUIC engine *)

Inductive ssl_error := SSL_ERROR_WANT_READ | SSL_ERROR_WANT_WRITE | SSL_ERROR_ZERO_RETURN | SSL_ERROR_OTHER.
#[export] Instance ssl_error_eq : EqDecision ssl_error.
Proof. solve_decision. Defined.

(** The OpenSSL calls, on an engine state [E] and handles of [SSL] objects.
    [ssl_read] is [SSL_read_ex] (whether it returned 1, and the bytes),
    [ssl_write] is [SSL_write_ex] (whether it returned 1, and the count). *)
Class Quic (E : Type) := {
  ssl_read : E → Z → Z → E * bool * bytes;
  ssl_write : E → Z → bytes → E * bool * Z;
  ssl_get_error : E → Z → ssl_error;
  ssl_handle_events : E → Z → E;
  ssl_stream_conclude : E → Z → E;
  ssl_free : E → Z → E;
  ssl_write_buf_used : E → Z → option Z;
  ssl_accept_connection : E → Z → E * option Z;
  ssl_accept_stream : E → Z → E * option Z;
  ssl_is_bidi : E → Z → bool;
  ssl_stream_id : E → Z → Z;
  ssl_new_uni_stream : E → Z → E * option Z;
  ssl_configure : E → Z → E;
  ssl_shutdown : E → Z → E * Z;
  ssl_conn_closed : E → Z → bool;
  ssl_event_timeout : E → Z → option Z;
  ssl_ctx_free : E → Z → E;
  udp_close : E → Z → E;
}.

Record zh3_conn := mk_conn3 {
  c3_ssl : Z; c3_control : option Z; c3_streams : list zh3_stream; c3_cap_streams : Z;
  c3_requests : Z; c3_shutdown_sent : bool; c3_goaway_sent : bool }.

Definition c3_set_control v (x : zh3_conn) := mk_conn3 (c3_ssl x) v (c3_streams x) (c3_cap_streams x)
  (c3_requests x) (c3_shutdown_sent x) (c3_goaway_sent x).
Definition c3_set_streams v cap (x : zh3_conn) := mk_conn3 (c3_ssl x) (c3_control x) v cap
  (c3_requests x) (c3_shutdown_sent x) (c3_goaway_sent x).
Definition c3_set_requests v (x : zh3_conn) := mk_conn3 (c3_ssl x) (c3_control x) (c3_streams x)
  (c3_cap_streams x) v (c3_shutdown_sent x) (c3_goaway_sent x).
Definition c3_set_shutdown_sent v (x : zh3_conn) := mk_conn3 (c3_ssl x) (c3_control x) (c3_streams x)
  (c3_cap_streams x) (c3_requests x) v (c3_goaway_sent x).
Definition c3_set_goaway_sent v (x : zh3_conn) := mk_conn3 (c3_ssl x) (c3_control x) (c3_streams x)
  (c3_cap_streams x) (c3_requests x) (c3_shutdown_sent x) v.

Record zh3_srv := mk_srv3 {
  v3_ctx : Z; v3_fd : Z; v3_listener : Z; v3_lim : zhs_limits; v3_conns : list zh3_conn; v3_cap_conns : Z;
  v3_draining : bool }.
Definition v3_set_conns v cap (x : zh3_srv) :=
  mk_srv3 (v3_ctx x) (v3_fd x) (v3_listener x) (v3_lim x) v cap (v3_draining x).

(** The socket of the server, for the poll set. *)
Definition zh3_fd_ (h : option zh3_srv) : Z := match h with Some h => v3_fd h | None => -1 end.

(** [a[i] = a[--n]] *)
Definition swap_out {A} (i : nat) (l : list A) : list A :=
  match last l with Some z => take (pred (length l)) (<[i := z]> l) | None => l end.

Section Engine.
Context `{Allocator} `{Server} {E : Type} `{Quic E}.

(** ** Responses *)

(** One turn: engine, bytes written, turns without progress. *)
Definition write_turn3 (ssl conn : Z) (p : bytes) (st : E * Z * Z) : exec (E * Z * Z + E * Z) :=
  let '(e, off, stalls) := st in
  if negb (off <? zlen p) then Ok (inr (e, ZCIO_OK))
  else
    let '(e, ok, w) := ssl_write e ssl (zdrop off p) in
    if ok && (0 <? w) then Ok (inl (e, off + w, 0))
    else
      let err := ssl_get_error e ssl in
      if bool_decide (err = SSL_ERROR_WANT_READ) || bool_decide (err = SSL_ERROR_WANT_WRITE) then
        if ZH3_WRITE_STALL <? stalls + 1 then Ok (inr (e, ZCIO_ERR_TIMEOUT))
        else Ok (inl (ssl_handle_events e conn, off, stalls + 1))
      else Ok (inr (e, ZCIO_ERR)).

(** Between two writes there are at most [ZH3_WRITE_STALL] turns, so the loop
    ends within the bound ([write_all_sends]). *)
Definition write_loop3 (e : E) (ssl conn : Z) (p : bytes) : exec (E * Z) :=
  loop (write_turn3 ssl conn p) (Z.to_pos ((zlen p + 1) * (ZH3_WRITE_STALL + 1) + 1)) (e, 0, 0).
Definition h3_stream_write_all (e : E) (ssl conn : Z) (p : bytes) : E * Z :=
  match write_loop3 e ssl conn p with Ok o => o | _ => (e, ZCIO_ERR_TIMEOUT) end.

Definition h3_encode_field (out : zhs_buf) (name value : bytes) : Z * zhs_buf :=
  if zlen name =? 0 then (ZCIO_OK, out)
  else if (128 <=? zlen name) && negb (zcio_xmalloc_ok (zlen name + 1)) then (ZCIO_ERR_NOMEM, out)
  else zqp_encode_ out (Some (map tolower name)) (Some value).

Definition h3_fields (status : Z) (hdrs : list (bytes * bytes)) : emitter :=
  zqp_prefix_encode_ ▷ (λ b, zqp_encode_status_ b status) ▷
  foldr (λ h k, (λ b, h3_encode_field b h.1 h.2) ▷ k) emit_ok hdrs.

(** The frames of a response around its encoded fields. *)
Definition h3_frames (fields : bytes) (bd : option bytes) (body_len : Z) (no_body : bool) : emitter :=
  h3_put_varint H3_FRAME_HEADERS ▷ h3_put_varint (zlen fields) ▷ put fields ▷
  match bd with
  | Some d => if negb no_body && negb (body_len =? 0)
              then h3_put_varint H3_FRAME_DATA ▷ h3_put_varint body_len ▷ put (ztake body_len d) else emit_ok
  | None => emit_ok
  end.

Definition h3_respond (e : E) (conn : Z) (st : zh3_stream) (status : Z) (hdrs : list (bytes * bytes))
    (bd : option bytes) (body_len : Z) : Z * E :=
  let no_body := is_head (s3_req st) || (status <? 200) || (status =? 204) || (status =? 304) in
  let '(r, fields) := h3_fields status hdrs buf_empty in
  let '(r, out) := if r =? ZCIO_OK then h3_frames (buf_contents fields) bd body_len no_body buf_empty
                   else (r, buf_empty) in
  let '(e, r) := if r =? ZCIO_OK then h3_stream_write_all e (s3_ssl st) conn (buf_contents out) else (e, r) in
  (r, ssl_stream_conclude e (s3_ssl st)).

(** The stream whose request is being answered, with the engine and the
    connection's [SSL].  Only HTTP/1 requests can be detached. *)
Definition h3_transport : Transport (zh3_stream * E * Z) := {|
  get_req := λ c, s3_req c.1.1;
  mark_responded := λ c, (s3_set_req (req_set_responded true (s3_req c.1.1)) c.1.1, c.1.2, c.2);
  respond_fn := λ c status hdrs bd n, let '(r, e) := h3_respond c.1.2 c.2 c.1.1 status hdrs bd n in (r, (c.1.1, e, c.2));
  detach := λ _ c _, (false, c) |}.

(** ** Streams *)

Definition h3_stream_free (e : E) (st : zh3_stream) : E := ssl_free e (s3_ssl st).

Definition h3_stream_new (e : E) (ss : Z) (uni : bool) : option zh3_stream :=
  if zcio_xcalloc_ok 1 256 then
    Some (mk_stream3 ss (ssl_stream_id e ss) uni false false false false ZH3_PS_HDR 0 buf_empty buf_empty req_empty)
  else None.

Definition h3_streams_push (c : zh3_conn) (st : zh3_stream) : option zh3_conn :=
  let full := zlen (c3_streams c) =? c3_cap_streams c in
  let ncap := if c3_cap_streams c =? 0 then 8 else c3_cap_streams c * 2 in
  if full && negb (alloc_ok (ncap * 8)) then None
  else Some (c3_set_streams (c3_streams c ++ [st]) (if full then ncap else c3_cap_streams c) c).

Definition h3_stream_drained (e : E) (st : zh3_stream) : bool :=
  if s3_is_uni st || negb (s3_dispatched st) then true
  else match ssl_write_buf_used e (s3_ssl st) with Some used => used =? 0 | None => true end.

(** One read; [inr]: the result. *)
Definition read_turn3 (lim : zhs_limits) (s : E * zh3_stream) : exec (E * zh3_stream + E * zh3_stream * Z) :=
  let '(e, st) := s in
  let '(e, ok, d) := ssl_read e (s3_ssl st) 4096 in
  if ok && (0 <? zlen d) then
    if s3_is_uni st then Ok (inl (e, st))
    else
      let '(r, b) := zhs_buf_append_ (s3_in st) d in
      let st := s3_set_in b st in
      if negb (r =? ZCIO_OK) then Ok (inr (e, st, ZCIO_ERR_NOMEM))
      else
        '(r, st) ← h3_parse lim st;
        Ok (if negb (r =? ZCIO_OK) then inr (e, st, r) else inl (e, st))
  else
    let err := ssl_get_error e (s3_ssl st) in
    Ok (inr (if bool_decide (err = SSL_ERROR_WANT_READ) then (e, st, ZCIO_OK)
             else if bool_decide (err = SSL_ERROR_ZERO_RETURN) then (e, s3_set_fin true st, ZCIO_OK)
             else (e, st, ZCIO_ERR_PROTOCOL))).

Definition h3_stream_read (lim : zhs_limits) (e : E) (st : zh3_stream) : exec (E * zh3_stream * Z) :=
  r ← run_upto (read_turn3 lim) ZH3_READ_CAP (e, st);
  Ok (match r with inl (e, st) => (e, st, ZCIO_OK) | inr r => r end).

(** The request as the handler sees it. *)
Definition h3_dispatch_req (st : zh3_stream) : zcio_http_req :=
  let r := s3_req st in
  req_set_stream_id (i64 (s3_id st)) (req_set_secure true (req_set_version 3
    (req_set_body (snd (zhs_buf_reserve_ (body r) 1)) r))).

Definition h3_maybe_dispatch (e : E) (conn : Z) (st : zh3_stream) : E * zh3_stream :=
  if s3_dispatched st || negb (s3_fin st) || s3_is_uni st then (e, st)
  else if negb (s3_headers_seen st) || negb (bool_decide (s3_pstate st = ZH3_PS_HDR)) then (e, s3_set_done true st)
  else
    let '(_, (st, e, _)) := @zhs_dispatch_ _ _ _ h3_transport (s3_set_req (h3_dispatch_req st) st, e, conn) in
    (e, s3_set_done true (s3_set_dispatched true (s3_set_req (zhs_req_reset_ (s3_req st)) st))).

(** ** Connections *)

Definition h3_open_control (e : E) (c : zh3_conn) : E * zh3_conn :=
  match c3_control c with
  | Some _ => (e, c)
  | None =>
      let '(e, ctl) := ssl_new_uni_stream e (c3_ssl c) in
      match ctl with
      | None => (e, c)
      | Some ctl => let '(e, _, _) := ssl_write e ctl [H3_UNI_CONTROL; H3_FRAME_SETTINGS; 0] in
                    (e, c3_set_control (Some ctl) c)
      end
  end.

Definition h3_send_goaway (e : E) (c : zh3_conn) : E * zh3_conn :=
  match c3_control c with
  | Some ctl =>
      if c3_goaway_sent c then (e, c)
      else let '(e, _, _) := ssl_write e ctl [H3_FRAME_GOAWAY; 1; 0] in (e, c3_set_goaway_sent true c)
  | None => (e, c)
  end.

Definition h3_conn_new (e : E) (ssl : Z) : E * option zh3_conn :=
  if zcio_xcalloc_ok 1 48 then
    let '(e, c) := h3_open_control (ssl_configure e ssl) (mk_conn3 ssl None [] 0 0 false false) in (e, Some c)
  else (e, None).

Definition h3_conn_free (e : E) (c : zh3_conn) : E :=
  let e := fold_left h3_stream_free (c3_streams c) e in
  let e := match c3_control c with Some ctl => ssl_free e ctl | None => e end in
  ssl_free e (c3_ssl c).

Definition h3_conns_push (h : zh3_srv) (c : zh3_conn) : option zh3_srv :=
  let full := zlen (v3_conns h) =? v3_cap_conns h in
  let ncap := if v3_cap_conns h =? 0 then 8 else v3_cap_conns h * 2 in
  if full && negb (alloc_ok (ncap * 8)) then None
  else Some (v3_set_conns (v3_conns h ++ [c]) (if full then ncap else v3_cap_conns h) h).

Fixpoint h3_accept_streams (fuel : nat) (lim : zhs_limits) (e : E) (c : zh3_conn) (work : Z) : E * zh3_conn * Z :=
  match fuel with
  | O => (e, c, work)
  | S fuel =>
      let '(e, ss) := ssl_accept_stream e (c3_ssl c) in
      match ss with
      | None => (e, c, work)
      | Some ss =>
          let uni := negb (ssl_is_bidi e ss) in
          let n := zlen (c3_streams c) in
          if if uni then u32 (max_streams lim + 8) <=? n
             else (max_requests_per_conn lim <=? c3_requests c) || (max_streams lim <=? n)
          then h3_accept_streams fuel lim (ssl_free e ss) c work
          else
            let c := if uni then c else c3_set_requests (u32 (c3_requests c + 1)) c in
            match h3_stream_new e ss uni with
            | None => (ssl_free e ss, c, work)
            | Some st =>
                match h3_streams_push c st with
                | None => (h3_stream_free e st, c, work)
                | Some c => h3_accept_streams fuel lim e c (work + 1)
                end
            end
      end
  end.

(** What a pass does to one stream. *)
Definition pump_stream3 (lim : zhs_limits) (e : E) (conn : Z) (st : zh3_stream) : exec (E * zh3_stream) :=
  if s3_done st then Ok (e, st)
  else
    '(e, st, r) ← h3_stream_read lim e st;
    Ok (if negb (r =? ZCIO_OK) then (e, s3_set_done true st)
        else if negb (s3_is_uni st) then h3_maybe_dispatch e conn st
        else (e, if s3_fin st then s3_set_done true st else st)).

Fixpoint h3_pump_streams (fuel i : nat) (lim : zhs_limits) (e : E) (c : zh3_conn) (work : Z) : exec (E * zh3_conn * Z) :=
  match fuel with
  | O => Ok (e, c, work)
  | S fuel =>
      match c3_streams c !! i with
      | None => Ok (e, c, work)
      | Some st =>
          '(e, st') ← pump_stream3 lim e (c3_ssl c) st;
          let work := if s3_done st then work else work + 1 in
          let ss := <[i := st']> (c3_streams c) in
          if s3_done st' && h3_stream_drained e st' then
            h3_pump_streams fuel i lim (h3_stream_free e st') (c3_set_streams (swap_out i ss) (c3_cap_streams c) c) work
          else h3_pump_streams fuel (S i) lim e (c3_set_streams ss (c3_cap_streams c) c) work
      end
  end.

Definition h3_conn_closed (e : E) (c : zh3_conn) (draining : bool) : E * zh3_conn * bool :=
  if draining then
    let e := if c3_shutdown_sent c then e else fst (ssl_shutdown e (c3_ssl c)) in
    let c := c3_set_shutdown_sent true c in
    let '(e, r) := ssl_shutdown e (c3_ssl c) in (e, c, r =? 1)
  else (e, c, ssl_conn_closed e (c3_ssl c)).

(** ** Entry points *)

Definition zh3_timeout_ms_ (h : option zh3_srv) (e : E) : Z :=
  match h with
  | None => -1
  | Some h =>
      let due ssl := option_map (λ ms, if ms <? 0 then 0 else ms) (ssl_event_timeout e ssl) in
      let best := fold_left (λ best c, match due (c3_ssl c) with
          | Some ms => if (best <? 0) || (ms <? best) then ms else best
          | None => best end) (v3_conns h) (default (-1) (due (v3_listener h))) in
      if best <? 0 then -1 else (best + 2 ^ 31) mod 2 ^ 32 - 2 ^ 31
  end.

Fixpoint accept_conns (fuel : nat) (e : E) (h : zh3_srv) (work : Z) : E * zh3_srv * Z :=
  match fuel with
  | O => (e, h, work)
  | S fuel =>
      if negb (zlen (v3_conns h) <? max_connections (v3_lim h)) then (e, h, work)
      else
        let '(e, cs) := ssl_accept_connection e (v3_listener h) in
        match cs with
        | None => (e, h, work)
        | Some cs =>
            let '(e, c) := h3_conn_new e cs in
            match c with
            | None => (ssl_free e cs, h, work)
            | Some c => match h3_conns_push h c with
                        | None => (h3_conn_free e c, h, work)
                        | Some h => accept_conns fuel e h (work + 1)
                        end
            end
        end
  end.

(** One connection's share of a pass; the flag: it is finished. *)
Definition service_conn (lim : zhs_limits) (draining : bool) (e : E) (c : zh3_conn) (work : Z)
  : exec (E * zh3_conn * Z * bool) :=
  let e := ssl_handle_events e (c3_ssl c) in
  let '(e, c, work) :=
    if draining then (e, c, work)
    else let '(e, c) := h3_open_control e c in h3_accept_streams ZH3_ACCEPT_CAP lim e c work in
  '(e, c, work) ← h3_pump_streams (length (c3_streams c)) 0 lim e c work;
  let '(e, c, closed) := h3_conn_closed e c draining in
  Ok (e, c, work, closed).

Fixpoint service_conns (fuel i : nat) (e : E) (h : zh3_srv) (work : Z) : exec (E * zh3_srv * Z) :=
  match fuel with
  | O => Ok (e, h, work)
  | S fuel =>
      match v3_conns h !! i with
      | None => Ok (e, h, work)
      | Some c =>
          '(e, c, work, closed) ← service_conn (v3_lim h) (v3_draining h) e c work;
          let cs := <[i := c]> (v3_conns h) in
          if closed : bool then
            service_conns fuel i (h3_conn_free e c) (v3_set_conns (swap_out i cs) (v3_cap_conns h) h) (work + 1)
          else service_conns fuel (S i) e (v3_set_conns cs (v3_cap_conns h) h) work
      end
  end.

Definition zh3_process_ (h : zh3_srv) (e : E) : exec (E * zh3_srv * Z) :=
  let e := ssl_handle_events e (v3_listener h) in
  let '(e, h, work) := if v3_draining h then (e, h, 0) else accept_conns ZH3_ACCEPT_CAP e h 0 in
  service_conns (length (v3_conns h)) 0 e h work.

Definition graceful_conn (s : E * list zh3_conn) (c : zh3_conn) : E * list zh3_conn :=
  let '(e, c) := h3_send_goaway s.1 c in
  let e := if c3_shutdown_sent c then e else fst (ssl_shutdown e (c3_ssl c)) in
  (e, s.2 ++ [c3_set_shutdown_sent true c]).

Definition zh3_graceful_ (h : zh3_srv) (e : E) : E * zh3_srv :=
  let '(e, cs) := fold_left graceful_conn (v3_conns h) (e, []) in
  (e, mk_srv3 (v3_ctx h) (v3_fd h) (v3_listener h) (v3_lim h) cs (v3_cap_conns h) true).

Definition zh3_idle_ (h : option zh3_srv) : bool :=
  match h with None => true | Some h => zlen (v3_conns h) =? 0 end.

Definition zh3_free_ (h : zh3_srv) (e : E) : E :=
  let e := ssl_free (fold_left h3_conn_free (v3_conns h) e) (v3_listener h) in
  udp_close (ssl_ctx_free e (v3_ctx h)) (v3_fd h).
End Engine.

(** ** ALPN *)

(** The offset of the selected protocol, of length 2, or [None]: alert. *)
Fixpoint alpn_loop (fuel : nat) (i : Z) (inp : bytes) : option Z :=
  match fuel with
  | O => None
  | S fuel =>
      if negb (i + 1 <=? zlen inp) then None
      else
        let l := nth (Z.to_nat i) inp 0 in
        if zlen inp <? i + 1 + l then None
        else if (l =? 2) && (nth (Z.to_nat (i + 1)) inp 0 =? 104) && (nth (Z.to_nat (i + 2)) inp 0 =? 51)
        then Some (i + 1)
        else alpn_loop fuel (i + 1 + l) inp
  end.

Definition h3_alpn_cb (inp : bytes) : option Z := alpn_loop (S (length inp)) 0 inp.
