(* ===== verification/H3Parse.v ===== *)
(** * H3Parse: what the HTTP/3 stream parser computes

    The variable-length integers and their inverse, an automaton that reads a
    request stream one byte at a time ([abyte]), and the proof that [h3_parse]
    with its buffers refines it: the request depends on the bytes of the
    stream, not on the pieces they arrive in. *)
From stdpp Require Import base tactics list option strings.
From Stdlib Require Import ZArith Lia.
From S2P Require Import Prelude Types Buf HttpUtil Target Hpack Qpack Respond H1Safe H2Safe H3.

(** ** Variable-length integers *)

Definition vcode (v : Z) : bytes :=
  if v <=? 0x3f then [u8 v]
  else if v <=? 0x3fff then [u8 (Z.lor 0x40 (Z.shiftr v 8)); u8 v]
  else if v <=? 0x3fffffff then
    [u8 (Z.lor 0x80 (Z.shiftr v 24)); u8 (Z.shiftr v 16); u8 (Z.shiftr v 8); u8 v]
  else
    [u8 (Z.lor 0xc0 (Z.shiftr v 56)); u8 (Z.shiftr v 48); u8 (Z.shiftr v 40); u8 (Z.shiftr v 32);
     u8 (Z.shiftr v 24); u8 (Z.shiftr v 16); u8 (Z.shiftr v 8); u8 v].

#[export] Instance emits_varint `{Allocator} v : Emits (h3_put_varint v) (vcode v).
Proof. unfold h3_put_varint, vcode. repeat bcase; apply emits_put. Qed.

Lemma vcode_bytes v : is_bytes (vcode v).
Proof. unfold vcode. repeat bcase; repeat (constructor; [apply u8_byte|]); constructor. Qed.

Abbreviation vfold := (fold_left (λ v c, Z.lor (Z.shiftl v 8) c)).

(** The first byte: two bits of length, six of value. *)
Lemma varint_head tag top : 0 ≤ tag < 4 → 0 ≤ top < 64 →
  let b := u8 (Z.lor (Z.shiftl tag 6) top) in Z.shiftr b 6 = tag ∧ Z.land b 63 = top.
Proof.
  intros Ht Hv b. unfold b. rewrite lor_shiftl_add by (change (2 ^ 6) with 64; lia).
  rewrite wrap_small by lia. rewrite Z.shiftr_div_pow2 by lia. change 63 with (Z.ones 6).
  rewrite Z.land_ones by lia. change (2 ^ 6) with 64. split; dlia.
Qed.

Lemma varint_read tag top bs rest : 0 ≤ tag < 4 → 0 ≤ top < 64 → zlen bs = 2 ^ tag - 1 →
  h3_varint (u8 (Z.lor (Z.shiftl tag 6) top) :: bs ++ rest) = Some (2 ^ tag, vfold bs top).
Proof.
  intros Ht Hv Hb. destruct (varint_head tag top Ht Hv) as [H1 H2]. unfold h3_varint. rewrite H1, H2.
  rewrite Z.shiftl_1_l. bcase; [zlen_simpl_in Heqb; lia|].
  do 2 f_equal. unfold slice. change (Z.to_nat 1) with 1%nat. cbn [drop]. rewrite drop_0. f_equal. by apply ztake_app_zlen.
Qed.

(** One more octet of a number's big-endian form. *)
Lemma be_octet v k j : j = k + 8 → 0 ≤ k →
  Z.lor (Z.shiftl (Z.shiftr v j) 8) (u8 (Z.shiftr v k)) = Z.shiftr v k.
Proof.
  intros -> Hk. rewrite lor_shiftl_add by (lia || (apply wrap_bound; lia)).
  rewrite <- Z.shiftr_shiftr by lia. rewrite (Z.shiftr_div_pow2 _ 8) by lia. unfold wrap.
  rewrite Z.mul_comm. symmetry. apply Z.div_mod. lia.
Qed.

Lemma last_octet v : Z.lor (Z.shiftl (Z.shiftr v 8) 8) (u8 v) = v.
Proof. pose proof (be_octet v 0 8 eq_refl ltac:(lia)) as E. by rewrite Z.shiftr_0_r in E. Qed.

Lemma shiftr_top v k w : 0 ≤ k → 0 ≤ v < 2 ^ (k + w) → 0 ≤ w → 0 ≤ Z.shiftr v k < 2 ^ w.
Proof.
  intros Hk Hv Hw. rewrite Z.shiftr_div_pow2 by lia. rewrite Z.pow_add_r in Hv by lia.
  split; [apply Z.div_pos; lia|]. apply Z.div_lt_upper_bound; lia.
Qed.

Lemma varint_vcode v rest : 0 ≤ v < 2 ^ 62 → h3_varint (vcode v ++ rest) = Some (zlen (vcode v), v).
Proof.
  intros Hv. unfold vcode. bcase; [|bcase; [|bcase]].
  - pose proof (varint_read 0 v [] rest ltac:(lia) ltac:(lia) eq_refl) as E. exact E.
  - pose proof (shiftr_top v 8 6 ltac:(lia) ltac:(lia) ltac:(lia)).
    pose proof (varint_read 1 (Z.shiftr v 8) [u8 v] rest ltac:(lia) ltac:(lia) eq_refl) as E.
    cbn [fold_left] in E. rewrite last_octet in E. exact E.
  - pose proof (shiftr_top v 24 6 ltac:(lia) ltac:(lia) ltac:(lia)).
    pose proof (varint_read 2 (Z.shiftr v 24) [u8 (Z.shiftr v 16); u8 (Z.shiftr v 8); u8 v] rest
      ltac:(lia) ltac:(lia) eq_refl) as E.
    cbn [fold_left] in E.
    rewrite (be_octet v 16 24), (be_octet v 8 16), last_octet in E by lia. exact E.
  - pose proof (shiftr_top v 56 6 ltac:(lia) ltac:(lia) ltac:(lia)).
    pose proof (varint_read 3 (Z.shiftr v 56) [u8 (Z.shiftr v 48); u8 (Z.shiftr v 40); u8 (Z.shiftr v 32);
      u8 (Z.shiftr v 24); u8 (Z.shiftr v 16); u8 (Z.shiftr v 8); u8 v] rest ltac:(lia) ltac:(lia) eq_refl) as E.
    cbn [fold_left] in E.
    rewrite (be_octet v 48 56), (be_octet v 40 48), (be_octet v 32 40), (be_octet v 24 32), (be_octet v 16 24),
      (be_octet v 8 16), last_octet in E by lia. exact E.
Qed.

(** What a decoded integer used, and how far it reaches. *)
Lemma varint_spec p n v : is_bytes p → h3_varint p = Some (n, v) →
  1 ≤ n ≤ 8 ∧ n ≤ zlen p ∧ 0 ≤ v ∧
  (∀ q, h3_varint (p ++ q) = Some (n, v)) ∧
  (∀ k, k < n → h3_varint (ztake k p) = None) ∧ (∀ k, n ≤ k → h3_varint (ztake k p) = Some (n, v)).
Proof.
  destruct p as [|b p]; [done|]. intros [Hb Hp]%List.Forall_cons_iff. unfold h3_varint.
  set (len := Z.shiftl 1 (Z.shiftr b 6)).
  assert (1 ≤ len ≤ 8) as Hlen.
  { unfold len. rewrite (Z.shiftr_div_pow2 b) by lia. change (2 ^ 6) with 64. unfold is_byte in Hb.
    assert (0 ≤ b / 64 ≤ 3) as Ht by dlia. generalize (b / 64), Ht. intros t Ht'.
    rewrite Z.shiftl_mul_pow2 by lia. assert (t = 0 ∨ t = 1 ∨ t = 2 ∨ t = 3) as [->|[->|[->| ->]]] by lia; lia. }
  assert (Z.shiftl 1 (Z.shiftr b 6) = len) as Hl by done. clearbody len. bcase; [done|]. cbn [length] in *. intros [= <- <-]. split; [done|]. split; [done|].
  assert (∀ q, slice 1 (len - 1) (b :: p ++ q) = slice 1 (len - 1) (b :: p)) as Hsl.
  { intros q. unfold slice. change (Z.to_nat 1) with 1%nat. cbn [drop]. rewrite !drop_0. apply take_app_le. lia. }
  assert (∀ k, len ≤ k → slice 1 (len - 1) (ztake k (b :: p)) = slice 1 (len - 1) (b :: p)) as Htk.
  { intros k Hk. unfold slice. change (Z.to_nat 1) with 1%nat.
    destruct (Z.to_nat k) as [|j] eqn:Ek; [lia|]. cbn [take drop]. rewrite !drop_0, take_take. f_equal. lia. }
  split.
  { assert (∀ l a, is_bytes l → 0 ≤ a → 0 ≤ vfold l a) as Hf.
    { induction l as [|c l IH]; intros a Hlb Ha; [done|]. apply List.Forall_cons_iff in Hlb as [Hc Hlb].
      cbn [fold_left]. apply IH; [done|]. apply Z.lor_nonneg. split; [by apply Z.shiftl_nonneg|]. unfold is_byte in Hc; lia. }
    apply Hf; [apply Forall_take, Forall_drop; by constructor|]. apply Z.land_nonneg. right. lia. }
  split_and!.
  - intros q. cbn [app]. rewrite Hl, Hsl. rewrite (proj2 (Z.ltb_ge _ _)); [done|]. zlen_simpl. cbn [length] in *. lia.
  - intros k Hk. destruct (Z.to_nat k) as [|j] eqn:Ek; [done|]. cbn [take]. rewrite Hl.
    rewrite (proj2 (Z.ltb_lt _ _)); [done|]. zl.
  - intros k Hk. pose proof (Htk k Hk) as Ht. destruct (Z.to_nat k) as [|j] eqn:Ek; [lia|].
    cbn [take] in *. rewrite Hl, Ht. rewrite (proj2 (Z.ltb_ge _ _)); [done|]. zl.
Qed.

Lemma varint_long p : is_bytes p → 8 ≤ zlen p → h3_varint p ≠ None.
Proof.
  destruct p as [|b p]; [done|]. intros [Hb Hp]%List.Forall_cons_iff Hl. unfold h3_varint.
  rewrite (Z.shiftr_div_pow2 b) by lia. change (2 ^ 6) with 64. unfold is_byte in Hb.
  assert (0 ≤ b / 64 ≤ 3) as Ht by dlia. revert Ht. generalize (b / 64). intros t Ht'.
  assert (Z.shiftl 1 t ≤ 8).
  { rewrite Z.shiftl_mul_pow2 by lia. assert (t = 0 ∨ t = 1 ∨ t = 2 ∨ t = 3) as [->|[->|[->| ->]]] by lia; lia. }
  by rewrite (proj2 (Z.ltb_ge _ _)) by lia.
Qed.

(** ** Frame headers *)

(** Length, type and payload length. *)
Definition head3 (p : bytes) : option (Z * Z * Z) :=
  '(n1, t) ← h3_varint p; '(n2, l) ← h3_varint (zdrop n1 p); Some (n1 + n2, t, l).

Lemma head3_spec p n t l : is_bytes p → head3 p = Some (n, t, l) →
  2 ≤ n ≤ 16 ∧ n ≤ zlen p ∧ 0 ≤ l ∧ (∀ q, head3 (p ++ q) = Some (n, t, l)) ∧
  (∀ k, k < n → head3 (ztake k p) = None) ∧ head3 (ztake n p) = Some (n, t, l).
Proof.
  intros Hp. unfold head3. destruct (h3_varint p) as [[n1 t1]|] eqn:E1; [|done]. cbn [mbind option_bind].
  destruct (h3_varint (zdrop n1 p)) as [[n2 l2]|] eqn:E2; [|done]. intros [= <- <- <-].
  destruct (varint_spec p n1 t1 Hp E1) as (A1 & A2 & A3 & A4 & A5 & A6).
  destruct (varint_spec _ n2 l2 (is_bytes_zdrop n1 p Hp) E2) as (B1 & B2 & B3 & B4 & B5 & B6).
  assert (n1 + n2 ≤ zlen p) as Hn by (zlen_simpl_in B2; lia).
  assert (∀ k, n1 ≤ k → zdrop n1 (ztake k p) = ztake (k - n1) (zdrop n1 p)) as Hdt.
  { intros k Hk. rewrite skipn_firstn_comm. f_equal. lia. }
  split; [lia|]. split; [done|]. split; [done|]. split; [|split].
  - intros q. rewrite A4. cbn [mbind option_bind]. by rewrite drop_app_le, B4 by lia.
  - intros k Hk. destruct (decide (k < n1)); [by rewrite A5 by lia|]. rewrite A6 by lia. cbn [mbind option_bind].
    by rewrite Hdt, B5 by lia.
  - rewrite A6 by lia. cbn [mbind option_bind]. by rewrite Hdt, B6 by lia.
Qed.

Lemma head3_take p k : is_bytes p → head3 p = None → head3 (ztake k p) = None.
Proof.
  intros Hp Hn. destruct (head3 (ztake k p)) as [[[n t] l]|] eqn:E; [|done].
  destruct (head3_spec _ _ _ _ (Forall_take _ _ _ Hp) E) as (_ & _ & _ & Ha & _).
  specialize (Ha (zdrop k p)). rewrite take_drop in Ha. congruence.
Qed.

Lemma head3_short p : is_bytes p → head3 p = None → zlen p < 16.
Proof.
  intros Hp. unfold head3. destruct (decide (zlen p < 16)); [done|].
  destruct (h3_varint p) as [[n1 t1]|] eqn:E1; [|by apply varint_long in E1; [|done|lia]].
  destruct (varint_spec p n1 t1 Hp E1) as (A1 & A2 & _). cbn [mbind option_bind].
  destruct (h3_varint (zdrop n1 p)) as [[n2 l2]|] eqn:E2; [done|].
  apply varint_long in E2; [done|by apply is_bytes_zdrop|zl].
Qed.

(** ** Decoding the field section *)

Definition h3_field_ok (h : zhs_hdr) : Prop :=
  zhs_lower_token_ok_ (hdr_name h) = true ∧ zhs_value_ok_ (hdr_value h) = true ∧
  h3_conn_specific (hdr_name h) = false ∧ (hdr_name h = B "te" → hdr_value h = B "trailers").

(** What is never assigned but well formed: pseudo-headers are not empty and
    hold no control character. *)
Definition pseudo_ok (o : option bytes) : Prop := ∀ v, o = Some v → v ≠ [] ∧ zhs_value_ok_ v = true.

Definition hctx_ok (lim : zhs_limits) (c : h3_hdr_ctx) : Prop :=
  hdrs_wf lim (c_hdrs c) ∧ Forall h3_field_ok (h_v (c_hdrs c)) ∧ pseudo_ok (c_method c).

(** The headers of a decoded request. *)
Definition h3_headers_good (lim : zhs_limits) (r : zcio_http_req) : Prop :=
  hdrs_wf lim (headers r) ∧ Forall h3_field_ok (h_v (headers r)).

Definition h3_line_good (r : zcio_http_req) : Prop :=
  (∃ m, method r = Some m ∧ m ≠ [] ∧ zhs_value_ok_ m = true) ∧ (∃ p, path r = Some p ∧ path_clean p) ∧
  (∀ q, query r = Some q → zhs_value_ok_ q = true).

Section Decode.
Context `{Allocator}.

Lemma value_no_nul s : zhs_value_ok_ s = true → cstr s = s.
Proof.
  unfold zhs_value_ok_. rewrite forallb_forall. intros Hf. apply cstr_id. apply Forall_forall.
  intros c Hin%list_elem_of_In%Hf ->. done.
Qed.

Lemma slot_ok lim c name cur set v : h3_slot c name = Some (cur, set) → hctx_ok lim c →
  v ≠ [] → zhs_value_ok_ v = true → hctx_ok lim (set v).
Proof.
  intros Hs (H1 & H2 & H3) Hv Hok. unfold h3_slot in Hs.
  repeat case_match; try discriminate; injection Hs as <- <-; split_and!; try done. by intros ? [= <-].
Qed.

Lemma h3_emit_ok lim c name value r c' : lims_ok lim → hctx_ok lim c →
  zlen name + zlen value < 2 ^ 63 → h3_emit lim c name value = (r, c') →
  hctx_ok lim c' ∧ (r = 0 ∨ r = ZCIO_ERR_NOMEM).
Proof.
  intros (Hlm & _) Hc Hsz. unfold h3_emit. bcase; [intros [= <- <-]; auto|]. bcase.
  { bcase; [intros [= <- <-]; auto|]. destruct (negb (zhs_value_ok_ value)) eqn:Ev; [intros [= <- <-]; auto|]. btest.
    destruct (h3_slot c name) as [[[|] set]|] eqn:Es; [intros [= <- <-]; auto| |intros [= <- <-]; auto].
    bcase; [intros [= <- <-]; auto|]. unfold h3_strndup. destruct (zcio_xmalloc_ok _); intros [= <- <-]; auto.
    split; [|auto]. eapply slot_ok; [done..| |done]. by intros ->. }
  set (c1 := hctx_regular c). assert (hctx_ok lim c1) as Hc1 by done. clearbody c1.
  destruct (negb (zhs_lower_token_ok_ name)) eqn:Et; [intros [= <- <-]; auto|]. btest.
  destruct (negb (zhs_value_ok_ value)) eqn:Ev; [intros [= <- <-]; auto|]. btest.
  destruct (h3_conn_specific name) eqn:Ec; [intros [= <- <-]; auto|].
  destruct (h3_name_is name (B "te") && _) eqn:Ete; [intros [= <- <-]; auto|].
  destruct (zhs_hdrs_add_ (c_hdrs c1) name value lim false) as [a hs] eqn:Ea.
  destruct Hc1 as (Hw & Hn & Hm). unfold SIZE_MAX in *.
  destruct (hdrs_add_wf lim _ name value false a hs Hw ltac:(unfold SIZE_MAX; lia) Hsz Ea) as (Hw' & Hv & Hu).
  assert (hctx_ok lim (hctx_hdrs hs c1)) as Hok.
  { split_and!; [done| |done]. cbn. destruct (decide (a = ZCIO_OK)) as [->|Hne]; [|by rewrite Hu]. rewrite Hv by done.
    apply Forall_app. split; [done|]. constructor; [|constructor]. unfold h3_field_ok. cbn.
    rewrite (lower_token_no_nul name Et), (value_no_nul value Ev). split_and!; try done. intros ->.
    unfold h3_name_is in Ete. rewrite bool_decide_true in Ete by done. cbn [andb] in Ete.
    apply negb_false_iff, bool_decide_eq_true in Ete. done. }
  bcase; [intros [= <- <-]; subst a; auto|]. bcase; intros [= <- <-]; auto.
Qed.

Lemma h3_emits_ok lim fs c r c' : lims_ok lim → hctx_ok lim c → fields_size fs < 2 ^ 63 →
  run_emits (h3_emit lim) c fs = (r, c') → hctx_ok lim c' ∧ (r = 0 ∨ r = ZCIO_ERR_NOMEM).
Proof.
  intros Hl. revert c. induction fs as [|[n v] fs IH]; intros c Hc Hs; cbn [run_emits fields_size] in *.
  { intros [= <- <-]; auto. }
  pose proof (fields_size_nonneg fs). destruct (h3_emit lim c n v) as [e c1] eqn:Ee.
  destruct (h3_emit_ok lim c n v e c1) as [Hc1 He]; [done|done|lia|done|].
  destruct (negb _); [intros [= <- <-]; auto|]. apply IH; [done|lia].
Qed.

Definition h3_code (r : Z) : Prop := r = ZCIO_OK ∨ r = ZCIO_ERR_PROTOCOL ∨ r = ZCIO_ERR_NOMEM.

#[local] Ltac dret := do 2 eexists; split; [reflexivity|]; split_and!; auto; discriminate.

(** Decoding returns, and what it accepts is well formed. *)
Lemma decode_fields_spec lim block req : lims_ok lim → is_bytes block → zlen block < 2 ^ 62 →
  h3_headers_good lim req →
  ∃ r req', decode_fields lim block req = Ok (r, req') ∧ h3_code r ∧ h3_headers_good lim req' ∧
    body req' = body req ∧ (r = ZCIO_OK → h3_line_good req').
Proof.
  intros Hl Hb Hn [Hw Hf]. unfold decode_fields, h3_code. set (c0 := mk_hctx _ _ _ _ _ _ _ _).
  assert (hctx_ok lim c0) as Hc0 by done.
  destruct (section_total _ _ (h3_emit lim) block (max_header_bytes lim) c0 Hb ltac:(lia) ltac:(apply Hl))
    as (rc & c & -> & (fs & r & Hrun & Hfs & _) & _).
  cbn [mbind exec_bind]. assert (max_header_bytes lim < 2 ^ 62) by apply Hl.
  destruct (h3_emits_ok lim fs c0 r c Hl Hc0 ltac:(lia) Hrun) as [(Hcw & Hcf & Hcm) _].
  assert (h3_headers_good lim (req_set_headers (c_hdrs c) req)) as Hg by done.
  destruct (_ || (c_err c =? _)); [dret|]. destruct (negb (rc =? ZCIO_OK) || c_bad c); [dret|].
  destruct (c_method c) as [m|] eqn:Em; [|dret]. destruct (c_path c) as [p|]; [|dret].
  destruct (c_scheme c); [|dret].
  destruct (decode_target_result (cstr p) lim) as (dr & po & qo & -> & Hdr & _ & Hok). cbn [mbind exec_bind].
  bcase.
  { do 2 eexists. split; [done|]. split_and!; try done; [|by bcase]. bcase; auto. }
  do 2 eexists. split; [done|]. assert (dr = ZCIO_OK) as Hd0 by done. destruct (Hok Hd0) as [_ Hpath].
  split; [auto|]. split; [by destruct (c_authority c)|]. split; [by destruct (c_authority c)|]. intros _.
  destruct (Hcm m eq_refl) as [Hm1 Hm2]. unfold h3_line_good.
  assert (∀ q, (∃ m0, method q = Some m0 ∧ m0 ≠ [] ∧ zhs_value_ok_ m0 = true) →
    path q = po → query q = qo → h3_line_good q) as Hfin.
  { intros q ? <- <-. split; [done|]. destruct Hpath as [(_ & -> & ->)|(segs & -> & ? & ? & _ & ?)].
    - split; [|done]. eexists. split; [done|]. by left.
    - split; [|done]. eexists. split; [done|]. right. by exists segs. }
  destruct (c_authority c); apply Hfin; cbn; eauto.
Qed.

(** The body under assembly is carried along. *)
Lemma decode_fields_body lim block req b :
  decode_fields lim block (req_set_body b req) =
  (λ '(r, q), (r, req_set_body b q)) <$> decode_fields lim block req.
Proof.
  unfold decode_fields. cbn [headers req_set_body]. destruct (zqp_decode_ _ _ _ _) as [[r c]| |]; [|done|done].
  cbn [mbind exec_bind]. bcase; [done|]. destruct (negb (r =? ZCIO_OK) || c_bad c); [done|].
  destruct (c_method c); [|done]. destruct (c_path c) as [p|]; [|done]. destruct (c_scheme c); [|done].
  destruct (zhs_decode_target_ _ _) as [[[dr po] qo]| |]; [|done|done]. cbn [mbind exec_bind].
  bcase; [done|]. by destruct (c_authority c).
Qed.
End Decode.

(** ** The stream as a byte automaton *)

(** What the parser remembers of the bytes read so far: an incomplete frame
    header, the frame it is in, the field section and the body gathered. *)
Record h3_view := mk_view {
  w_pre : bytes; w_state : h3_pstate; w_remain : Z; w_seen : bool;
  w_hdr : bytes; w_req : zcio_http_req; w_body : bytes }.

Definition view_new : h3_view := mk_view [] ZH3_PS_HDR 0 false [] req_empty [].

Definition w_goto p (v : h3_view) := mk_view [] p (w_remain v) (w_seen v) (w_hdr v) (w_req v) (w_body v).

Section Automaton.
Context `{Allocator} (lim : zhs_limits).

(** A frame without payload left is over. *)
Definition settle (v : h3_view) : exec (Z + h3_view) :=
  match w_state v with
  | ZH3_PS_HDR => Ok (inr v)
  | ZH3_PS_HEADERS =>
      if w_remain v =? 0 then
        '(r, q) ← (if zlen (w_hdr v) =? 0 then Ok (ZCIO_ERR_PROTOCOL, w_req v)
                   else decode_fields lim (w_hdr v) (w_req v));
        Ok (if r =? ZCIO_OK then inr (mk_view [] ZH3_PS_HDR 0 true [] q (w_body v)) else inl r)
      else Ok (inr v)
  | _ => Ok (inr (if w_remain v =? 0 then w_goto ZH3_PS_HDR v else v))
  end.

(** Enter the frame whose header is complete. *)
Definition open_frame (v : h3_view) (t l : Z) : exec (Z + h3_view) :=
  let enter p := settle (mk_view [] p l (w_seen v) (w_hdr v) (w_req v) (w_body v)) in
  if (t =? H3_FRAME_HEADERS) && negb (w_seen v) then
    if max_header_bytes lim <? l then Ok (inl ZCIO_ERR_PROTOCOL) else enter ZH3_PS_HEADERS
  else if t =? H3_FRAME_DATA then enter ZH3_PS_DATA else enter ZH3_PS_SKIP.

(** The payload bytes [d], no more than the frame has left. *)
Definition take_payload (v : h3_view) (d : bytes) : exec (Z + h3_view) :=
  let upd hdr body := settle (mk_view [] (w_state v) (w_remain v - zlen d) (w_seen v) hdr (w_req v) body) in
  match w_state v with
  | ZH3_PS_HEADERS => upd (w_hdr v ++ d) (w_body v)
  | ZH3_PS_DATA => if max_body_bytes lim <? zlen (w_body v) + zlen d then Ok (inl ZCIO_ERR_PROTOCOL)
                   else upd (w_hdr v) (w_body v ++ d)
  | _ => upd (w_hdr v) (w_body v)
  end.

Definition abyte (v : h3_view) (b : Z) : exec (Z + h3_view) :=
  if bool_decide (w_state v = ZH3_PS_HDR) then
    let p := w_pre v ++ [b] in
    match head3 p with
    | Some (_, t, l) => open_frame v t l
    | None => Ok (inr (mk_view p ZH3_PS_HDR (w_remain v) (w_seen v) (w_hdr v) (w_req v) (w_body v)))
    end
  else take_payload v [b].

(** Read [d]; the result: an error, or what is remembered. *)
Fixpoint arun (v : h3_view) (d : bytes) : exec (Z + h3_view) :=
  match d with
  | [] => Ok (inr v)
  | b :: d => s ← abyte v b; match s with inl r => Ok (inl r) | inr v => arun v d end
  end.

Definition acont (d : bytes) (s : Z + h3_view) : exec (Z + h3_view) :=
  match s with inl r => Ok (inl r) | inr v => arun v d end.

Lemma arun_app v x y : arun v (x ++ y) = arun v x ≫= acont y.
Proof.
  revert v. induction x as [|b x IH]; intros v; [done|]. cbn [arun app].
  destruct (abyte v b) as [[r|v']| |]; [done| |done|done]. cbn [mbind exec_bind]. apply IH.
Qed.

(** Byte by byte up to a complete frame header. *)
Lemma arun_head v x n t l rest : is_bytes x → w_state v = ZH3_PS_HDR → w_pre v = [] →
  head3 x = Some (n, t, l) → zlen x = n → arun v (x ++ rest) = open_frame v t l ≫= acont rest.
Proof.
  intros Hx Hs Hp Hh Hn. destruct (head3_spec x n t l Hx Hh) as (Hn2 & _ & _ & _ & Hshort & _).
  set (w := λ p, mk_view p ZH3_PS_HDR (w_remain v) (w_seen v) (w_hdr v) (w_req v) (w_body v)).
  assert (v = w []) as Hv by (unfold w; destruct v; cbn in *; by subst).
  assert (∀ p y, x = p ++ y → y ≠ [] → arun (w p) (y ++ rest) = open_frame v t l ≫= acont rest) as Hgo.
  { intros p y. revert p. induction y as [|b y IH]; intros p E Hy; [done|]. cbn [app arun]. unfold abyte.
    rewrite bool_decide_true by done. cbn [w_pre w]. destruct y as [|b' y].
    - rewrite <- E, Hh. cbn [app]. unfold open_frame. cbn [w_seen w_hdr w_req w_body w]. done.
    - assert (head3 (p ++ [b]) = None) as ->.
      { specialize (Hshort (zlen (p ++ [b]))). rewrite E in Hshort, Hn.
        change (b :: b' :: y) with ([b] ++ b' :: y) in Hshort. rewrite (app_assoc p) in Hshort.
        rewrite ztake_app_zlen in Hshort by done. apply Hshort. zlen_simpl_in Hn. zl. }
      cbn [mbind exec_bind]. apply (IH (p ++ [b])); [|done]. by rewrite <- app_assoc. }
  rewrite Hv at 1. apply (Hgo []); [done|]. intros ->. cbn in Hn. lia.
Qed.

(** An incomplete one is remembered. *)
Lemma arun_prefix v x : is_bytes (w_pre v ++ x) → w_state v = ZH3_PS_HDR → head3 (w_pre v ++ x) = None →
  arun v x = Ok (inr (mk_view (w_pre v ++ x) ZH3_PS_HDR (w_remain v) (w_seen v) (w_hdr v) (w_req v) (w_body v))).
Proof.
  revert v. induction x as [|b x IH]; intros v Hx Hs Hh.
  { rewrite app_nil_r. cbn [arun]. destruct v; cbn in *; by subst. }
  cbn [arun]. unfold abyte. rewrite bool_decide_true by done.
  change (b :: x) with ([b] ++ x) in Hx, Hh. rewrite (app_assoc (w_pre v)) in Hx, Hh.
  pose proof (head3_take _ (zlen (w_pre v ++ [b])) Hx Hh) as E. rewrite ztake_app_zlen in E by done. rewrite E.
  cbn [mbind exec_bind]. rewrite IH; [|done..]. cbn [w_pre w_remain w_seen w_hdr w_req w_body].
  by rewrite <- app_assoc.
Qed.

Lemma arun_cons v b x : arun v (b :: x) = abyte v b ≫= acont x.
Proof. done. Qed.

Lemma abyte_payload v b : w_state v ≠ ZH3_PS_HDR → abyte v b = take_payload v [b].
Proof. intros. unfold abyte. by rewrite bool_decide_false. Qed.

(** In a payload the bytes may be taken together. *)
Lemma arun_payload v d rest : w_state v ≠ ZH3_PS_HDR → w_pre v = [] → d ≠ [] → zlen d ≤ w_remain v →
  arun v (d ++ rest) = take_payload v d ≫= acont rest.
Proof.
  revert v. induction d as [|b d IH]; intros v Hs Hp Hd Hr; [done|]. destruct d as [|b' d].
  { cbn [app]. by rewrite arun_cons, abyte_payload. }
  change ((b :: b' :: d) ++ rest) with (b :: (b' :: d) ++ rest).
  rewrite arun_cons, abyte_payload by done. cbn [length] in Hr.
  assert (∀ hdr bd, ∃ v1, v1 = mk_view [] (w_state v) (w_remain v - zlen [b]) (w_seen v) hdr (w_req v) bd ∧
    settle v1 = Ok (inr v1)) as Hset.
  { intros hdr bd. eexists. split; [done|]. unfold settle. cbn [w_state w_remain length].
    rewrite (proj2 (Z.eqb_neq _ _)) by lia. by destruct (w_state v). }
  unfold take_payload. destruct (w_state v) eqn:Es; [done|..].
  - destruct (Hset (w_hdr v ++ [b]) (w_body v)) as (v1 & Ev1 & E). rewrite <- Ev1, E. cbn [mbind exec_bind acont].
    rewrite IH by (subst v1; cbn [w_state w_pre w_remain length]; first [done|lia]).
    subst v1. unfold take_payload. cbn [w_state w_remain w_seen w_hdr w_req w_body]. rewrite <- app_assoc. cbn [app].
    do 3 f_equal. cbn [length]. lia.
  - bcase.
    { rewrite (proj2 (Z.ltb_lt _ _)) by (cbn [length] in *; lia). done. }
    destruct (Hset (w_hdr v) (w_body v ++ [b])) as (v1 & Ev1 & E). rewrite <- Ev1, E. cbn [mbind exec_bind acont].
    rewrite IH by (subst v1; cbn [w_state w_pre w_remain length]; first [done|lia]).
    subst v1. unfold take_payload. cbn [w_state w_remain w_seen w_hdr w_req w_body].
    replace (zlen (w_body v ++ [b]) + zlen (b' :: d)) with (zlen (w_body v) + zlen (b :: b' :: d)) by zl.
    bcase; [done|]. rewrite <- app_assoc. cbn [app]. do 3 f_equal. cbn [length]. lia.
  - destruct (Hset (w_hdr v) (w_body v)) as (v1 & Ev1 & E). rewrite <- Ev1, E. cbn [mbind exec_bind acont].
    rewrite IH by (subst v1; cbn [w_state w_pre w_remain length]; first [done|lia]).
    subst v1. unfold take_payload. cbn [w_state w_remain w_seen w_hdr w_req w_body].
    do 3 f_equal. cbn [length]. lia.
Qed.
End Automaton.

(** ** The buffers refine the automaton *)

Record s3_wf (lim : zhs_limits) (st : zh3_stream) : Prop := {
  sw_in : buf_wf (s3_in st) ∧ is_bytes (buf_contents (s3_in st)) ∧
          b_len (s3_in st) ≤ 4096 + 2 * ZHS_AVAIL (s3_in st);
  sw_hdr : buf_wf (s3_hdr st) ∧ b_off (s3_hdr st) = 0 ∧ is_bytes (buf_contents (s3_hdr st));
  sw_body : buf_wf (body (s3_req st)) ∧ b_off (body (s3_req st)) = 0 ∧
            b_len (body (s3_req st)) ≤ max_body_bytes lim;
  sw_remain : 0 ≤ s3_fremain st;
  sw_section : if bool_decide (s3_pstate st = ZH3_PS_HEADERS)
               then b_len (s3_hdr st) + s3_fremain st ≤ max_header_bytes lim else b_len (s3_hdr st) = 0;
  sw_seen : s3_pstate st = ZH3_PS_HEADERS → s3_headers_seen st = false;
  sw_headers : h3_headers_good lim (s3_req st);
  sw_line : s3_headers_seen st = true → h3_line_good (s3_req st);
}.

(** What parsing leaves alone. *)
Definition s3_key (st : zh3_stream) : Z * Z * bool * bool * bool * bool :=
  (s3_ssl st, s3_id st, s3_is_uni st, s3_fin st, s3_dispatched st, s3_done st).

Definition w_of (pre : bytes) (st : zh3_stream) : h3_view :=
  mk_view pre (s3_pstate st) (s3_fremain st) (s3_headers_seen st) (buf_contents (s3_hdr st))
    (req_set_body buf_empty (s3_req st)) (buf_contents (body (s3_req st))).

(** Nothing more can be done with the buffered input. *)
Definition settled (st : zh3_stream) : Prop :=
  if bool_decide (s3_pstate st = ZH3_PS_HDR) then head3 (buf_contents (s3_in st)) = None
  else 0 < s3_fremain st ∧ buf_contents (s3_in st) = [].

Definition view (st : zh3_stream) : h3_view :=
  w_of (if bool_decide (s3_pstate st = ZH3_PS_HDR) then buf_contents (s3_in st) else []) st.

Lemma consume_compact b n : buf_wf b → 0 ≤ n ≤ ZHS_AVAIL b → b_len b ≤ 4096 + 2 * ZHS_AVAIL b →
  b_len (zhs_buf_consume_ b n) ≤ 4096 + 2 * ZHS_AVAIL (zhs_buf_consume_ b n) ∧
  ZHS_AVAIL (zhs_buf_consume_ b n) = ZHS_AVAIL b - n.
Proof.
  intros (Ho & Hl & _) Hn Hc. unfold zhs_buf_consume_, ZHS_AVAIL in *.
  rewrite (proj2 (Z.ltb_ge _ _)) by lia. bcase; [cbn; lia|].
  destruct (_ && _) eqn:E; cbn; [btest; lia|]. apply andb_false_iff in E as [E|E]; btest; lia.
Qed.

Section Refine.
Context `{Allocator} (lim : zhs_limits) (Hlim : lims_ok lim).

Definition spec (st : zh3_stream) : exec (Z + h3_view) :=
  settle lim (w_of [] st) ≫= acont lim (buf_contents (s3_in st)).
Definition meas (st : zh3_stream) : Z :=
  2 * ZHS_AVAIL (s3_in st) + (if bool_decide (s3_pstate st = ZH3_PS_HDR) then 0 else 1).

Definition no_memory : Prop := ¬ ∀ n, alloc_ok n = true.

(** A turn from a state whose meaning is [sp]. *)
Definition turn_ok (st0 : zh3_stream) (sp : exec (Z + h3_view)) (mb : Z) (t : turn3) : Prop :=
  match t with
  | Again3 st => s3_wf lim st ∧ s3_key st = s3_key st0 ∧ spec st = sp ∧ meas st < mb
  | Return3 r st =>
      s3_wf lim st ∧ s3_key st = s3_key st0 ∧ h3_code r ∧
      ((r = ZCIO_ERR_NOMEM ∧ no_memory) ∨ (r ≠ ZCIO_OK ∧ sp = Ok (inl r)) ∨
       (r = ZCIO_OK ∧ settled st ∧ sp = Ok (inr (view st))))
  end.

Lemma contents_nil b : buf_wf b → ZHS_AVAIL b = 0 → buf_contents b = [].
Proof. intros Hw Ha. pose proof (zlen_contents b Hw). destruct (buf_contents b); [done|]. cbn in *. lia. Qed.

Lemma head_turn_ok st : s3_wf lim st → s3_pstate st = ZH3_PS_HDR → 0 < ZHS_AVAIL (s3_in st) →
  turn_ok st (spec st) (meas st) (frame_head_turn lim st).
Proof.
  intros Hw Hs Ha. destruct Hw as [(Hi & Hib & Hic) Hh Hb Hr Hsec Hse Hg Hln].
  assert (s3_wf lim st) as Hw by done.
  assert (spec st = arun lim (w_of [] st) (buf_contents (s3_in st))) as Hsp.
  { unfold spec, settle. cbn [w_state w_of]. by rewrite Hs. }
  assert (turn_ok st (spec st) (meas st) (Return3 ZCIO_OK st) ∨ head3 (buf_contents (s3_in st)) ≠ None) as Hnone.
  { destruct (head3 (buf_contents (s3_in st))) eqn:Eh; [by right|left]. cbn. split; [done|]. split; [done|].
    split; [by left|]. right. right. unfold settled, view. rewrite Hs, bool_decide_true by done.
    split_and!; [done..|]. rewrite Hsp, arun_prefix; [|done|done|done]. unfold w_of. cbn. by rewrite Hs. }
  unfold frame_head_turn. cbv zeta. set (p := buf_contents (s3_in st)) in *.
  destruct (head3 p) as [[[n t] l]|] eqn:Eh.
  2:{ destruct Hnone as [Hn|]; [|done]. unfold head3 in Eh. destruct (h3_varint p) as [[n1 t]|]; [|done].
      cbn in Eh. by destruct (h3_varint (zdrop n1 p)) as [[? ?]|]. }
  assert (∃ n1 n2, h3_varint p = Some (n1, t) ∧ h3_varint (zdrop n1 p) = Some (n2, l) ∧ n = n1 + n2)
    as (n1 & n2 & -> & -> & <-).
  { unfold head3 in Eh. destruct (h3_varint p) as [[n1 t1]|]; [|done]. cbn in Eh.
    destruct (h3_varint (zdrop n1 p)) as [[n2 l2]|] eqn:E2; [|done]. injection Eh as <- <- <-. eauto. }
  destruct (head3_spec p n t l Hib Eh) as (Hn1 & Hn2 & Hl & _ & _ & Ht).
  destruct (consume_spec (s3_in st) n Hi ltac:(lia)) as (C1 & C2 & _).
  pose proof (zlen_contents _ Hi) as Hlen. fold p in C2, Hlen.
  destruct (consume_compact (s3_in st) n Hi ltac:(lia) Hic) as [C3 C4].
  set (i := zhs_buf_consume_ (s3_in st) n) in *.
  assert (spec st = open_frame lim (w_of [] st) t l ≫= acont lim (zdrop n p)) as Hsp2.
  { rewrite Hsp, <- (take_drop (Z.to_nat n) p) at 1. eapply arun_head; [by apply Forall_take|done|done|exact Ht|zl]. }
  rewrite Hs, bool_decide_false in Hsec by done.
  assert (∀ ps, ps ≠ ZH3_PS_HDR → (ps = ZH3_PS_HEADERS → l ≤ max_header_bytes lim ∧ s3_headers_seen st = false) →
    open_frame lim (w_of [] st) t l = settle lim (w_of [] (s3_set_frame ps l (s3_set_in i st))) →
    turn_ok st (spec st) (meas st) (Again3 (s3_set_frame ps l (s3_set_in i st)))) as Hgo.
  { intros ps Hne Hmax Hop. cbn. split_and!.
    - constructor; cbn; try done. { split_and!; [done| |done]. rewrite C2. by apply is_bytes_zdrop. }
      { case_bool_decide; [|done]. rewrite Hsec. by apply Hmax. } intros Hp. by apply Hmax.
    - done.
    - unfold spec at 1. cbn [s3_in s3_set_frame s3_set_in]. by rewrite C2, Hsp2, Hop.
    - unfold meas. cbn [s3_in s3_set_frame s3_set_in s3_pstate]. rewrite C4, Hs.
      rewrite bool_decide_false, bool_decide_true by done. lia. }
  unfold open_frame in Hgo, Hsp2. cbn [w_seen w_of s3_headers_seen s3_set_in] in *.
  destruct ((t =? H3_FRAME_HEADERS) && negb (s3_headers_seen st)) eqn:Et.
  - btest. bcase; [|by apply Hgo].
    cbn. split_and!; [|done|by right; left|right; left; by split].
    constructor; cbn; try done; [|by rewrite Hs, bool_decide_false].
    split_and!; [done| |done]. rewrite C2. by apply is_bytes_zdrop.
  - bcase; by apply Hgo.
Qed.

(** What a turn takes of the input. *)
Lemma frame_take_spec st : s3_wf lim st → 0 < ZHS_AVAIL (s3_in st) → 0 < s3_fremain st →
  let i := s3_in (frame_taken st) in
  1 ≤ zlen (frame_bytes st) ≤ s3_fremain st ∧ zlen (frame_bytes st) = frame_take st ∧
  is_bytes (frame_bytes st) ∧ frame_bytes st ≠ [] ∧
  buf_contents (s3_in st) = frame_bytes st ++ buf_contents i ∧
  (buf_wf i ∧ is_bytes (buf_contents i) ∧ b_len i ≤ 4096 + 2 * ZHS_AVAIL i) ∧
  ZHS_AVAIL i = ZHS_AVAIL (s3_in st) - frame_take st.
Proof.
  intros [(Hi & Hib & Hic) _ _ _ _ _ _ _] Ha Hr i. pose proof (zlen_contents _ Hi) as Hlen.
  assert (1 ≤ frame_take st ≤ s3_fremain st ∧ frame_take st ≤ ZHS_AVAIL (s3_in st)) as [Hk1 Hk2]
    by (unfold frame_take; bcase; lia).
  destruct (consume_spec (s3_in st) (frame_take st) Hi ltac:(lia)) as (C1 & C2 & _).
  destruct (consume_compact (s3_in st) (frame_take st) Hi ltac:(lia) Hic) as [C3 C4].
  assert (zlen (frame_bytes st) = frame_take st) as Hz by (unfold frame_bytes; zl).
  unfold i. cbn [frame_taken s3_in s3_set_fremain s3_set_frame s3_set_in].
  split; [lia|]. split; [done|]. split; [by apply Forall_take|]. split; [intros E; rewrite E in Hz; cbn in Hz; lia|].
  rewrite C2. split; [unfold frame_bytes; by rewrite take_drop|]. split; [|done].
  split_and!; [done|by apply is_bytes_zdrop|done].
Qed.

Lemma meas_taken st : s3_wf lim st → 0 < ZHS_AVAIL (s3_in st) → 0 < s3_fremain st → meas (frame_taken st) < meas st.
Proof.
  intros Hw Ha Hr. destruct (frame_take_spec st Hw Ha Hr) as (H1 & H2 & _ & _ & _ & _ & H7).
  unfold meas. rewrite H7. change (s3_pstate (frame_taken st)) with (s3_pstate st). lia.
Qed.

(** The meaning of a stream inside a payload with input at hand. *)
Lemma spec_payload st : s3_wf lim st → s3_pstate st ≠ ZH3_PS_HDR → 0 < ZHS_AVAIL (s3_in st) → 0 < s3_fremain st →
  spec st = take_payload lim (w_of [] st) (frame_bytes st) ≫= acont lim (buf_contents (s3_in (frame_taken st))).
Proof.
  intros Hw Hs Ha Hr. destruct (frame_take_spec st Hw Ha Hr) as (H1 & H2 & H3 & H4 & H5 & _).
  unfold spec. assert (settle lim (w_of [] st) = Ok (inr (w_of [] st))) as ->.
  { unfold settle. cbn [w_state w_remain w_of]. rewrite (proj2 (Z.eqb_neq _ _)) by lia. by destruct (s3_pstate st). }
  cbn [mbind exec_bind acont]. rewrite H5 at 1. apply arun_payload; [done..|apply H1].
Qed.

(** A payload turn without input returns. *)
Lemma starved_ok st : s3_wf lim st → s3_pstate st ≠ ZH3_PS_HDR → ZHS_AVAIL (s3_in st) = 0 → 0 < s3_fremain st →
  turn_ok st (spec st) (meas st) (Return3 ZCIO_OK st).
Proof.
  intros Hw Hs Ha Hr. cbn. split; [done|]. split; [done|]. split; [by left|]. right. right.
  pose proof (contents_nil (s3_in st) (proj1 (sw_in _ _ Hw)) Ha) as Hc.
  unfold settled, view, spec. rewrite bool_decide_false by done. split_and!; [done..|]. rewrite Hc.
  unfold settle. cbn [w_state w_remain w_of]. rewrite (proj2 (Z.eqb_neq _ _)) by lia. by destruct (s3_pstate st).
Qed.

(** The end of a DATA or skipped frame. *)
Lemma leave_ok st0 st mb : s3_wf lim st → s3_key st = s3_key st0 →
  s3_pstate st = ZH3_PS_DATA ∨ s3_pstate st = ZH3_PS_SKIP →
  (s3_fremain st = 0 ∧ meas st ≤ mb ∨ meas st < mb) →
  turn_ok st0 (spec st) mb
    (if s3_fremain st =? 0 then Again3 (s3_set_pstate ZH3_PS_HDR st) else Again3 st).
Proof.
  intros Hw Hk Hs Hm. assert (s3_pstate st ≠ ZH3_PS_HDR ∧ s3_pstate st ≠ ZH3_PS_HEADERS) as [Hs1 Hs2]
    by (destruct Hs as [-> | ->]; done).
  bcase; [|cbn; split_and!; [done..|lia]].
  assert (meas (s3_set_pstate ZH3_PS_HDR st) = meas st - 1) as Hm2.
  { unfold meas. cbn [s3_in s3_pstate s3_set_pstate s3_set_frame]. rewrite bool_decide_true, bool_decide_false by done. lia. }
  cbn. rewrite Hm2. split_and!; [|done| |lia].
  - destruct Hw as [A1 A2 A3 A4 A5 A6 A7 A8]. constructor; try done. cbn [s3_pstate s3_set_pstate s3_set_frame].
    by rewrite bool_decide_false in A5 |- *.
  - unfold spec, settle. cbn [w_state w_remain w_of s3_pstate s3_fremain s3_set_pstate s3_set_frame s3_in].
    destruct Hs as [-> | ->]; by rewrite Heqb, Z.eqb_refl.
Qed.

Lemma take_payload_skip v d : w_state v = ZH3_PS_SKIP → take_payload lim v d =
  settle lim (mk_view [] ZH3_PS_SKIP (w_remain v - zlen d) (w_seen v) (w_hdr v) (w_req v) (w_body v)).
Proof. unfold take_payload. by intros ->. Qed.

Lemma take_payload_data v d : w_state v = ZH3_PS_DATA → take_payload lim v d =
  if max_body_bytes lim <? zlen (w_body v) + zlen d then Ok (inl ZCIO_ERR_PROTOCOL)
  else settle lim (mk_view [] ZH3_PS_DATA (w_remain v - zlen d) (w_seen v) (w_hdr v) (w_req v) (w_body v ++ d)).
Proof. unfold take_payload. by intros ->. Qed.

Lemma take_payload_headers v d : w_state v = ZH3_PS_HEADERS → take_payload lim v d =
  settle lim (mk_view [] ZH3_PS_HEADERS (w_remain v - zlen d) (w_seen v) (w_hdr v ++ d) (w_req v) (w_body v)).
Proof. unfold take_payload. by intros ->. Qed.

Lemma skip_turn_ok st : s3_wf lim st → s3_pstate st = ZH3_PS_SKIP → turn_ok st (spec st) (meas st) (skip_turn st).
Proof.
  intros Hw Hs. pose proof (sw_remain _ _ Hw) as Hr. unfold skip_turn. cbv zeta. bcase.
  2:{ apply leave_ok; [done|done|by right|left; split; lia]. }
  bcase; [apply starved_ok; by rewrite ?Hs|].
  pose proof Hw as [(Hi & Hib & Hic) Hh Hb _ Hsec Hse Hg Hln].
  assert (0 < ZHS_AVAIL (s3_in st)) as Ha by (destruct Hi; unfold ZHS_AVAIL in *; lia).
  destruct (frame_take_spec st Hw Ha Heqb) as (H1 & H2 & H3 & H4 & H5 & H6 & H7).
  rewrite (spec_payload st Hw) by (rewrite ?Hs; done).
  assert (take_payload lim (w_of [] st) (frame_bytes st) ≫= acont lim (buf_contents (s3_in (frame_taken st))) =
    spec (frame_taken st)) as ->.
  { rewrite take_payload_skip, H2 by done. unfold spec. do 2 f_equal. unfold w_of.
    cbn [s3_pstate frame_taken s3_set_fremain s3_set_frame s3_set_in]. by rewrite Hs. }
  apply leave_ok; [|done|by right|right; by apply meas_taken].
  rewrite Hs in Hsec. constructor; try done. { cbn. lia. } cbn. by rewrite Hs.
Qed.

(** A buffer that has only been appended to. *)
Lemma append_front b d : buf_wf b → b_off b = 0 → b_len b + zlen d ≤ 2 ^ 63 →
  ∃ r b', zhs_buf_append_ b d = (r, b') ∧ buf_wf b' ∧ b_off b' = 0 ∧
    ((r = ZCIO_OK ∧ b_len b' = b_len b + zlen d ∧ buf_contents b' = buf_contents b ++ d) ∨
     (r = ZCIO_ERR_NOMEM ∧ b' = b ∧ no_memory)).
Proof.
  intros Hw Ho Hn. destruct (append_cases b d Hw) as (r & b' & -> & Hw' & Hr & Ha). exists r, b'.
  split; [done|]. split; [done|]. destruct Hr as [(-> & Hl & Hc & Ho')|[-> ->]].
  - split; [congruence|]. by left.
  - split; [done|]. right. split_and!; [done|done|]. intros Hall.
    specialize (Ha Hall ltac:(unfold SIZE_MAX; lia)). discriminate Ha.
Qed.

Lemma contents_front b : buf_wf b → b_off b = 0 → zlen (buf_contents b) = b_len b.
Proof. intros Hw Ho. rewrite zlen_contents by done. unfold ZHS_AVAIL. lia. Qed.

Lemma data_turn_ok st : s3_wf lim st → s3_pstate st = ZH3_PS_DATA →
  turn_ok st (spec st) (meas st) (data_turn lim st).
Proof.
  intros Hw Hs. pose proof (sw_remain _ _ Hw) as Hr. unfold data_turn. cbv zeta. bcase.
  2:{ apply leave_ok; [done|done|by left|left; split; lia]. }
  destruct (ZHS_AVAIL (s3_in st) =? 0) eqn:Ea; btest; [apply starved_ok; by rewrite ?Hs|].
  pose proof Hw as [(Hi & Hib & Hic) Hh (Hb1 & Hb2 & Hb3) _ Hsec Hse Hg Hln].
  assert (0 < ZHS_AVAIL (s3_in st)) as Ha by (destruct Hi; unfold ZHS_AVAIL in *; lia).
  destruct (frame_take_spec st Hw Ha Heqb) as (H1 & H2 & H3 & H4 & H5 & H6 & H7).
  assert (s3_pstate st ≠ ZH3_PS_HDR) as Hne by by rewrite Hs.
  rewrite (spec_payload st Hw Hne Ha Heqb), take_payload_data by done.
  pose proof (contents_front _ Hb1 Hb2) as Hbl. destruct Hlim as (_ & _ & Hmb).
  assert (0 ≤ b_len (body (s3_req st))) by (destruct Hb1; lia).
  rewrite wrap_small by lia. cbn [w_body w_of]. rewrite Hbl, H2.
  replace (max_body_bytes lim - b_len (body (s3_req st)) <? frame_take st)
    with (max_body_bytes lim <? b_len (body (s3_req st)) + frame_take st)
    by (destruct (_ <? _) eqn:E; btest; [symmetry; apply Z.ltb_lt|symmetry; apply Z.ltb_ge]; lia).
  bcase. { cbn. split_and!; [done|done|by right; left|right; left; by split]. }
  destruct (append_front (body (s3_req st)) (frame_bytes st) Hb1 Hb2 ltac:(lia))
    as (r & b & -> & Hbw & Hbo & [(-> & Hl & Hc)|(-> & -> & Hno)]).
  - set (st1 := frame_taken (s3_set_req (req_set_body b (s3_req st)) st)). cbn [negb Z.eqb].
    change (negb (ZCIO_OK =? ZCIO_OK)) with false. cbv iota.
    assert (settle lim (mk_view [] ZH3_PS_DATA (w_remain (w_of [] st) - frame_take st) (w_seen (w_of [] st))
      (w_hdr (w_of [] st)) (w_req (w_of [] st)) (buf_contents (body (s3_req st)) ++ frame_bytes st)) ≫=
      acont lim (buf_contents (s3_in (frame_taken st))) = spec st1) as ->.
    { unfold spec. change (s3_in st1) with (s3_in (frame_taken st)). do 2 f_equal. unfold w_of.
      change (s3_pstate st1) with (s3_pstate st). rewrite Hs, <- Hc. done. }
    apply leave_ok; [|done|by left|right; by apply (meas_taken st)].
    rewrite Hs in Hsec. constructor; try done.
    + split_and!; [done|done|]. cbn. lia.
    + cbn. change (frame_take (s3_set_req (req_set_body b (s3_req st)) st)) with (frame_take st). lia.
    + cbn. by rewrite Hs.
  - cbn [turn_ok]. change (negb (ZCIO_ERR_NOMEM =? ZCIO_OK)) with true. cbv iota.
    assert (s3_set_req (req_set_body (body (s3_req st)) (s3_req st)) st = st) as ->.
    { destruct st as [? ? ? ? ? ? ? ? ? ? ? q]. cbn. by destruct q. }
    cbn. split_and!; [done|done|by right; right|by left].
Qed.

Lemma stream_eta st p f s q h : s3_pstate st = p → s3_fremain st = f → s3_headers_seen st = s →
  s3_set_req q (s3_set_hdr h st) = s3_set_frame p f (s3_set_headers_seen s (s3_set_req q (s3_set_hdr h st))).
Proof. by intros <- <- <-. Qed.

(** The end of the field section. *)
Lemma decode_turn_ok st0 st mb : s3_wf lim st → s3_key st = s3_key st0 → s3_pstate st = ZH3_PS_HEADERS →
  s3_fremain st = 0 → meas st ≤ mb →
  ∃ t, ('(r, st) ← h3_decode_headers lim st;
        Ok (if negb (r =? ZCIO_OK) then Return3 r st
            else Again3 (s3_set_pstate ZH3_PS_HDR (s3_set_headers_seen true st)))) = Ok t ∧
    turn_ok st0 (spec st) mb t.
Proof.
  intros Hw Hk Hs Hr Hm. pose proof Hw as [(Hi & Hib & Hic) (Hh1 & Hh2 & Hh3) (Hb1 & Hb2 & Hb3) _ Hsec Hseen Hg _].
  pose proof (contents_front _ Hh1 Hh2) as Hhl. assert (max_header_bytes lim < 2 ^ 62) by apply Hlim.
  rewrite Hs, bool_decide_true in Hsec by done. specialize (Hseen Hs).
  unfold h3_decode_headers, spec, settle. cbn [w_state w_remain w_of]. rewrite Hs, Hr. cbn [Z.eqb w_of w_hdr w_req w_body].
  unfold ZHS_AVAIL. rewrite Hh2, Z.sub_0_r, <- Hhl.
  assert (∀ q, h3_headers_good lim q → body q = body (s3_req st) →
    ∀ p f s, (p = ZH3_PS_HDR ∨ p = ZH3_PS_HEADERS ∧ s = false) → (s = true → h3_line_good q) → f = 0 →
    s3_wf lim (s3_set_frame p f (s3_set_headers_seen s (s3_set_req q (s3_set_hdr buf_empty st))))) as Hwf.
  { intros q Hq Hbq p f s Hp Hsl ->. constructor; cbn; try done.
    - by rewrite Hbq.
    - case_bool_decide; [|done]. destruct Hlim. lia.
    - by destruct Hp as [->|[-> ->]]. }
  assert (Hself : ∀ q, s3_set_req q (s3_set_hdr (zhs_buf_free_ (s3_hdr st)) st) =
    s3_set_frame ZH3_PS_HEADERS 0 (s3_set_headers_seen false (s3_set_req q (s3_set_hdr buf_empty st)))).
  { intros q. by apply stream_eta. }
  destruct (zlen (buf_contents (s3_hdr st)) =? 0) eqn:Ez.
  { cbn [mbind exec_bind]. eexists. split; [done|]. cbn. split_and!; [|done|by right; left|right; left; by split].
    rewrite Hself. apply Hwf; auto; discriminate. }
  rewrite decode_fields_body.
  destruct (decode_fields_spec lim (buf_contents (s3_hdr st)) (s3_req st) Hlim Hh3 ltac:(lia) Hg)
    as (r & q & -> & Hcode & Hgq & Hbq & Hline).
  cbn [fmap exec_fmap mbind exec_bind]. eexists. split; [done|].
  destruct (r =? ZCIO_OK) eqn:Er; btest; cbn [negb].
  - subst r. cbn [mbind exec_bind acont].
    set (st2 := s3_set_pstate _ _).
    assert (st2 = s3_set_frame ZH3_PS_HDR 0 (s3_set_headers_seen true (s3_set_req q (s3_set_hdr buf_empty st)))) as ->.
    { unfold st2. rewrite <- Hr. done. }
    cbn [turn_ok]. split_and!; [by apply Hwf; auto|done| |].
    + unfold spec, settle. cbn. unfold w_of. cbn. by rewrite Hbq.
    + unfold meas in *. rewrite Hs, bool_decide_false in Hm by done. rewrite bool_decide_true by done. cbn. lia.
  - cbn. split_and!; [rewrite Hself; apply Hwf; auto; discriminate|done|done|]. right. left. by split.
Qed.

Lemma headers_turn_ok st : s3_wf lim st → s3_pstate st = ZH3_PS_HEADERS →
  ∃ t, headers_turn lim st = Ok t ∧ turn_ok st (spec st) (meas st) t.
Proof.
  intros Hw Hs. pose proof (sw_remain _ _ Hw) as Hr. unfold headers_turn. cbv zeta. bcase.
  2:{ rewrite (proj2 (Z.eqb_eq (s3_fremain st) 0)) by lia. apply decode_turn_ok; (done || lia). }
  destruct (ZHS_AVAIL (s3_in st) =? 0) eqn:Ea; btest.
  { eexists. split; [done|]. apply starved_ok; by rewrite ?Hs. }
  pose proof Hw as [(Hi & Hib & Hic) (Hh1 & Hh2 & Hh3) Hb _ Hsec Hse Hg Hln].
  rewrite Hs, bool_decide_true in Hsec by done. assert (max_header_bytes lim < 2 ^ 62) by apply Hlim.
  assert (0 < ZHS_AVAIL (s3_in st)) as Ha by (destruct Hi; unfold ZHS_AVAIL in *; lia).
  destruct (frame_take_spec st Hw Ha Heqb) as (H1 & H2 & H3 & H4 & H5 & H6 & H7).
  assert (s3_pstate st ≠ ZH3_PS_HDR) as Hne by by rewrite Hs.
  rewrite (spec_payload st Hw Hne Ha Heqb), take_payload_headers by done.
  assert (0 ≤ b_len (s3_hdr st)) by (destruct Hh1; lia).
  destruct (append_front (s3_hdr st) (frame_bytes st) Hh1 Hh2 ltac:(lia))
    as (r & b & -> & Hbw & Hbo & [(-> & Hl & Hc)|(-> & -> & Hno)]).
  2:{ eexists. split; [done|]. assert (s3_set_hdr (s3_hdr st) st = st) as -> by by destruct st.
      cbn. split_and!; [done|done|by right; right|by left]. }
  change (negb (ZCIO_OK =? ZCIO_OK)) with false. cbv iota.
  set (st1 := frame_taken (s3_set_hdr b st)).
  assert (s3_fremain st1 = s3_fremain st - frame_take st) as Hf1 by done.
  assert (settle lim (mk_view [] ZH3_PS_HEADERS (w_remain (w_of [] st) - zlen (frame_bytes st)) (w_seen (w_of [] st))
      (w_hdr (w_of [] st) ++ frame_bytes st) (w_req (w_of [] st)) (w_body (w_of [] st))) ≫=
      acont lim (buf_contents (s3_in (frame_taken st))) = spec st1) as ->.
  { unfold spec. change (s3_in st1) with (s3_in (frame_taken st)). do 2 f_equal. unfold w_of.
    change (s3_pstate st1) with (s3_pstate st). rewrite H2, Hs. cbn [w_hdr]. rewrite <- Hc. done. }
  assert (s3_wf lim st1) as Hw1.
  { constructor; try done.
    - split_and!; [done|done|]. cbn. rewrite Hc. by apply Forall_app.
    - rewrite Hf1. lia.
    - change (s3_pstate st1) with (s3_pstate st). rewrite Hs, bool_decide_true by done.
      rewrite Hf1. change (s3_hdr st1) with b. lia. }
  pose proof (meas_taken st Hw Ha Heqb) as Hm. change (meas (frame_taken st)) with (meas st1) in Hm. bcase.
  - apply decode_turn_ok; (done || lia).
  - eexists. split; [done|]. cbn. split_and!; done.
Qed.

Lemma parse_turn_ok st : s3_wf lim st →
  ∃ t, parse_turn lim st = Ok t ∧ turn_ok st (spec st) (meas st) t.
Proof.
  intros Hw. unfold parse_turn. destruct (s3_pstate st) eqn:Es.
  - eexists. split; [done|]. pose proof (sw_in _ _ Hw) as (Hi & Hib & _). bcase.
    + cbn. split; [done|]. split; [done|]. split; [by left|]. right. right.
      pose proof (contents_nil _ Hi Heqb) as Hc. unfold settled, view, spec, settle. cbn [w_state w_of].
      rewrite Es, !bool_decide_true, Hc by done. done.
    + apply head_turn_ok; [done|done|]. destruct Hi. unfold ZHS_AVAIL in *. lia.
  - by apply headers_turn_ok.
  - eexists. split; [done|]. by apply data_turn_ok.
  - eexists. split; [done|]. by apply skip_turn_ok.
Qed.

(** The outcome of parsing. *)
Definition parsed (st0 : zh3_stream) (a : exec (Z + h3_view)) (m : exec (Z * zh3_stream)) : Prop :=
  ∃ r st, m = Ok (r, st) ∧ turn_ok st0 a 0 (Return3 r st).

Lemma parse_loop_ok fuel st : s3_wf lim st → meas st < Z.of_nat fuel →
  parsed st (spec st) (parse_loop3 fuel lim st).
Proof.
  revert st. induction fuel as [|fuel IH]; intros st Hw Hf.
  { pose proof (sw_in _ _ Hw) as ((? & _) & _). unfold meas, ZHS_AVAIL in Hf. destruct (bool_decide _); lia. }
  cbn [parse_loop3]. destruct (parse_turn_ok st Hw) as (t & -> & Ht). cbn [mbind exec_bind].
  destruct t as [st1|r st1].
  - destruct Ht as (Hw1 & Hk & Hsp & Hm). destruct (IH st1 Hw1 ltac:(lia)) as (r & st2 & -> & Hr).
    exists r, st2. split; [done|]. cbn in *. rewrite Hsp, Hk in Hr. done.
  - exists r, st1. by split.
Qed.

(** [h3_parse] returns what the automaton computes from the buffered bytes. *)
Lemma parse_ok st : s3_wf lim st → parsed st (spec st) (h3_parse lim st).
Proof.
  intros Hw. apply parse_loop_ok; [done|]. pose proof (sw_in _ _ Hw) as ((? & _) & _).
  unfold meas, ZHS_AVAIL in *. destruct (bool_decide _); lia.
Qed.

(** ** Pieces *)

(** A settled stream is what it remembers of the bytes read. *)
Lemma spec_settled st d : s3_wf lim st → settled st →
  settle lim (w_of [] st) ≫= acont lim (buf_contents (s3_in st) ++ d) = arun lim (view st) d.
Proof.
  intros Hw Hs. unfold settled, view in *. destruct (decide (s3_pstate st = ZH3_PS_HDR)) as [E|E].
  - rewrite bool_decide_true in Hs |- * by done. unfold settle. cbn [w_state w_of]. rewrite E.
    cbn [mbind exec_bind acont]. rewrite arun_app, arun_prefix; [|apply Hw|done|done].
    cbn [mbind exec_bind acont]. unfold w_of. cbn. by rewrite E.
  - rewrite bool_decide_false in Hs |- * by done. destruct Hs as [Hr ->].
    unfold settle. cbn [w_state w_remain w_of]. rewrite (proj2 (Z.eqb_neq _ _)) by lia.
    by destruct (s3_pstate st).
Qed.

(** What a read does with the bytes it got: append them, parse. *)
Definition h3_feed (st : zh3_stream) (d : bytes) : exec (Z * zh3_stream) :=
  let '(r, b) := zhs_buf_append_ (s3_in st) d in
  let st := s3_set_in b st in
  if negb (r =? ZCIO_OK) then Ok (ZCIO_ERR_NOMEM, st) else h3_parse lim st.

Lemma set_in_wf st b : s3_wf lim st → buf_wf b → is_bytes (buf_contents b) →
  b_len b ≤ 4096 + 2 * ZHS_AVAIL b → s3_wf lim (s3_set_in b st).
Proof. intros [] ? ? ?. constructor; done. Qed.

(** The length the input buffer can have when the next bytes arrive. *)
Lemma settled_len st : s3_wf lim st → settled st → b_len (s3_in st) ≤ 4128.
Proof.
  intros [(Hi & Hb & Hc) _ _ _ _ _ _ _] Hs. pose proof (zlen_contents _ Hi) as Hl. unfold settled in Hs.
  case_bool_decide.
  - pose proof (head3_short _ Hb Hs). lia.
  - destruct Hs as [_ Hs]. rewrite Hs in Hl. cbn in Hl. lia.
Qed.

Lemma feed_ok st d : s3_wf lim st → settled st → is_bytes d → zlen d < 2 ^ 62 →
  parsed st (arun lim (view st) d) (h3_feed st d).
Proof.
  intros Hw Hs Hd Hn. pose proof (settled_len st Hw Hs) as Hlen. unfold h3_feed.
  pose proof (sw_in _ _ Hw) as (Hi & Hib & Hic).
  destruct (append_cases (s3_in st) d Hi) as (r & b & -> & Hbw & Hr & Ha).
  destruct Hr as [(-> & Hl & Hc & Ho)|[-> ->]].
  - change (negb (ZCIO_OK =? ZCIO_OK)) with false. cbv iota.
    assert (s3_wf lim (s3_set_in b st)) as Hw1.
    { apply set_in_wf; [done|done|rewrite Hc; by apply Forall_app|]. unfold ZHS_AVAIL in *. lia. }
    destruct (parse_ok _ Hw1) as (r & st1 & E & Hr). exists r, st1. split; [done|].
    rewrite <- (spec_settled st d Hw Hs). unfold spec in Hr.
    change (s3_in (s3_set_in b st)) with b in Hr. rewrite Hc in Hr. exact Hr.
  - exists ZCIO_ERR_NOMEM, st. assert (s3_set_in (s3_in st) st = st) as -> by by destruct st. split; [done|].
    cbn. split_and!; [done|done|by right; right|]. left. split; [done|]. intros Hall.
    specialize (Ha Hall ltac:(unfold SIZE_MAX; lia)). discriminate Ha.
Qed.
End Refine.
