(* ===== verification/H3Request.v ===== *)
(** * H3Request: the request an HTTP/3 stream carries

    A client's message - a field section written with the stateless QPACK
    encoder, body in DATA frames, frames of unknown types anywhere - and the
    proof that the server assembles exactly that request from it, in whatever
    pieces the engine delivers the stream. *)
From stdpp Require Import base tactics list option strings.
From Stdlib Require Import ZArith Lia.
From S2P Require Import Prelude Types Buf HttpUtil Target HpackInt Hpack Qpack Respond H1Safe H2Safe H3 H3Parse.

(** ** The message *)

Record h3_msg := mk_msg3 {
  g_method : bytes; g_scheme : bytes; g_path : bytes; g_authority : option bytes;
  g_fields : list (bytes * bytes);
  g_before : list (Z * bytes);       (* frames before the field section *)
  g_after : list (Z * bytes) }.      (* frames after it, DATA among them *)

Definition g_section (g : h3_msg) : list (bytes * bytes) :=
  [(B ":method", g_method g); (B ":scheme", g_scheme g); (B ":path", g_path g)] ++
  match g_authority g with Some a => [(B ":authority", a)] | None => [] end ++ g_fields g.

Definition frame3 (f : Z * bytes) : bytes := vcode f.1 ++ vcode (zlen f.2) ++ f.2.
Definition frames3 (fs : list (Z * bytes)) : bytes := concat (map frame3 fs).

Definition data_of (fs : list (Z * bytes)) : bytes :=
  concat (map (λ f, if f.1 =? H3_FRAME_DATA then f.2 else []) fs).

Definition g_block (g : h3_msg) : bytes := [0; 0] ++ lines_code (g_section g).
Definition g_wire (g : h3_msg) : bytes :=
  frames3 (g_before g) ++ frame3 (H3_FRAME_HEADERS, g_block g) ++ frames3 (g_after g).

Definition frame_ok (f : Z * bytes) : Prop := 0 ≤ f.1 < 2 ^ 62 ∧ zlen f.2 < 2 ^ 62 ∧ is_bytes f.2.

Definition text (s : bytes) : Prop := s ≠ [] ∧ zhs_value_ok_ s = true.

(** The budget of the header list. *)
Fixpoint cost3 (hs : list (bytes * bytes)) : Z :=
  match hs with [] => 0 | (n, v) :: hs => zlen n + zlen v + 32 + cost3 hs end.

Record msg3_ok (lim : zhs_limits) (g : h3_msg) : Prop := {
  mo_method : text (g_method g); mo_scheme : text (g_scheme g); mo_path : text (g_path g);
  mo_authority : ∀ a, g_authority g = Some a → text a;
  mo_fields : Forall (λ h, h3_field_ok (mk_hdr h.1 h.2)) (g_fields g);
  mo_count : zlen (g_fields g) ≤ max_headers lim;
  mo_cost : cost3 (g_fields g) ≤ hdr_budget lim;
  mo_size : fields_size (g_section g) ≤ max_header_bytes lim;
  mo_int : Forall (λ h, zlen h.1 ≤ ZHP_INT_MAX ∧ zlen h.2 ≤ ZHP_INT_MAX) (g_section g);
  mo_bytes : is_bytes (g_block g);
  mo_block : zlen (g_block g) ≤ max_header_bytes lim;
  mo_before : Forall (λ f, frame_ok f ∧ f.1 ≠ H3_FRAME_HEADERS ∧ f.1 ≠ H3_FRAME_DATA) (g_before g);
  mo_after : Forall frame_ok (g_after g);
  mo_body : zlen (data_of (g_after g)) ≤ max_body_bytes lim;
}.

(** ** Decoding the field section *)

Section Fields.
Context `{Allocator} (Hall : ∀ n, alloc_ok n = true).

Lemma xmalloc_all n : zcio_xmalloc_ok n = true.
Proof. unfold zcio_xmalloc_ok. by rewrite Hall. Qed.

Lemma emit_pseudo lim c name v set : c_bad c = false → c_err c = 0 → c_regular_seen c = false →
  h3_slot c name = Some (None, set) → (0 <? zlen name) && (nth 0 name 0 =? 58) = true → text v →
  h3_emit lim c name v = (0, set v).
Proof.
  intros Hb He Hr Hs Hn [Hv1 Hv2]. unfold h3_emit. rewrite Hb, He, Hn, Hr, Hv2, Hs. cbn [negb orb Z.eqb].
  rewrite (proj2 (Z.eqb_neq _ _)) by (destruct v; cbn [length]; [done|lia]).
  unfold h3_strndup. by rewrite xmalloc_all.
Qed.

Lemma lower_token_head n : zhs_lower_token_ok_ n = true → (nth 0 n 0 =? 58) = false.
Proof.
  unfold zhs_lower_token_ok_. bcase; [done|]. destruct n as [|c n]; [done|]. cbn [forallb nth].
  intros [Hc _]%andb_prop. destruct (c =? 58) eqn:E; [btest; by subst c|done].
Qed.

Lemma tolower_id c : (if (65 <=? c) && (c <=? 90) then false else is_tchar c) = true → tolower c = c.
Proof. unfold tolower. by destruct (_ && _). Qed.

Lemma qwire_lower n : zhs_lower_token_ok_ n = true → qwire_name n = n.
Proof.
  intros Hn. unfold qwire_name. destruct (0 <=? _); [|done]. unfold zhs_lower_token_ok_ in Hn. destruct (zlen n =? 0); [done|].
  rewrite forallb_forall in Hn. induction n as [|c n IH]; [done|]. cbn [map]. f_equal.
  - apply tolower_id, Hn. by left.
  - apply IH. intros x Hx. apply Hn. by right.
Qed.

Lemma hdrs_add_fits lim h n v : 0 ≤ max_header_bytes lim < 2 ^ 62 → h_n h < max_headers lim → 0 ≤ h_bytes h →
  zlen n ≤ max_header_bytes lim → zlen v ≤ max_header_bytes lim →
  h_bytes h + (zlen n + zlen v + 32) ≤ hdr_budget lim → cstr n = n → cstr v = v →
  ∃ cap, zhs_hdrs_add_ h n v lim false =
    (ZCIO_OK, mk_hdrs (h_v h ++ [mk_hdr n v]) cap (h_bytes h + (zlen n + zlen v + 32))).
Proof.
  intros Hm Hn Hb Hn1 Hv1 Hbud Hcn Hcv. unfold zhs_hdrs_add_.
  pose proof (hdr_budget_range lim ltac:(lia)) as HQ. unfold SIZE_MAX in HQ.
  rewrite !wrap_small by lia.
  destruct (max_headers lim <=? h_n h) eqn:E1; btest; [lia|].
  destruct ((max_header_bytes lim <? zlen n) || _ || _) eqn:E2.
  { exfalso. apply orb_true_iff in E2 as [[E2|E2]%orb_true_iff|E2]; btest; lia. }
  rewrite !Hall. cbn [negb orb]. rewrite andb_false_r, Hcn, Hcv.
  destruct (h_n h =? h_cap h); eexists; reflexivity.
Qed.

Lemma emit_field lim c n v : 0 ≤ max_header_bytes lim < 2 ^ 62 → c_bad c = false → c_err c = 0 →
  h3_field_ok (mk_hdr n v) → h_n (c_hdrs c) < max_headers lim → 0 ≤ h_bytes (c_hdrs c) →
  zlen n ≤ max_header_bytes lim → zlen v ≤ max_header_bytes lim →
  h_bytes (c_hdrs c) + (zlen n + zlen v + 32) ≤ hdr_budget lim →
  ∃ cap, h3_emit lim c n v = (0, mk_hctx (c_method c) (c_path c) (c_scheme c) (c_authority c) true false 0
    (mk_hdrs (h_v (c_hdrs c) ++ [mk_hdr n v]) cap (h_bytes (c_hdrs c) + (zlen n + zlen v + 32)))).
Proof.
  intros Hm Hb He (Ht & Hv & Hc & Hte) Hn Hby Hn1 Hv1 Hbud. cbn [hdr_name hdr_value] in *.
  destruct (hdrs_add_fits lim (c_hdrs c) n v Hm Hn Hby Hn1 Hv1 Hbud (lower_token_no_nul n Ht) (value_no_nul v Hv))
    as [cap E]. exists cap.
  unfold h3_emit. rewrite Hb, He, (lower_token_head n Ht), andb_false_r, Ht, Hv, Hc. cbn [negb orb Z.eqb].
  assert (h3_name_is n (B "te") && negb (bool_decide (v = B "trailers")) = false) as ->.
  { unfold h3_name_is. case_bool_decide; [|done]. rewrite bool_decide_true by auto. done. }
  cbn [c_hdrs hctx_regular]. rewrite E. cbn. 
  unfold hctx_hdrs, hctx_regular. cbn. by rewrite Hb, He.
Qed.

Lemma emit_fields lim hs c : 0 ≤ max_header_bytes lim < 2 ^ 62 → c_bad c = false → c_err c = 0 →
  Forall (λ h, h3_field_ok (mk_hdr h.1 h.2)) hs → h_n (c_hdrs c) + zlen hs ≤ max_headers lim →
  0 ≤ h_bytes (c_hdrs c) → fields_size hs ≤ max_header_bytes lim →
  h_bytes (c_hdrs c) + cost3 hs ≤ hdr_budget lim →
  ∃ c', run_emits (h3_emit lim) c hs = (0, c') ∧ c_bad c' = false ∧ c_err c' = 0 ∧
    c_method c' = c_method c ∧ c_path c' = c_path c ∧ c_scheme c' = c_scheme c ∧ c_authority c' = c_authority c ∧
    h_v (c_hdrs c') = h_v (c_hdrs c) ++ map (λ h, mk_hdr h.1 h.2) hs.
Proof.
  intros Hm. revert c. induction hs as [|[n v] hs IH]; intros c Hb He Hf Hn Hby Hsz Hbud.
  { exists c. cbn. rewrite app_nil_r. done. }
  apply List.Forall_cons_iff in Hf as [Hf1 Hf]. cbn [fields_size cost3 run_emits length] in *.
  pose proof (fields_size_nonneg hs). assert (0 ≤ cost3 hs) by (clear; induction hs as [|[n v] hs IH]; cbn; lia).
  destruct (emit_field lim c n v) as [cap ->]; [try done; lia..|]. cbn [negb Z.eqb].
  match goal with |- ∃ _, run_emits _ ?x _ = _ ∧ _ => set (c1 := x) end.
  destruct (IH c1) as (c' & E & G1 & G2 & G3 & G4 & G5 & G6 & G7); [done|done|done|..].
  all: cbn [c1 c_hdrs h_v h_bytes]; try zl.
  exists c'. split_and!; try done. rewrite G7. cbn. by rewrite <- app_assoc.
Qed.

(** The request a message stands for. *)
Definition is_request (g : h3_msg) (path' query' : option bytes) (q : zcio_http_req) : Prop :=
  method q = Some (g_method g) ∧ is_head q = bool_decide (g_method g = B "HEAD") ∧ path q = path' ∧
  query q = query' ∧ authority q = g_authority g ∧ h_v (headers q) = map (λ h, mk_hdr h.1 h.2) (g_fields g).

Lemma target_all raw lim : zhs_decode_target_ raw lim = Ok (target_spec raw lim).
Proof. destruct (decode_target_cases raw lim) as [E|[_ [n Hno]]]; [done|]. by rewrite Hall in Hno. Qed.

Lemma qwire_fields_lower hs : Forall (λ h, h3_field_ok (mk_hdr h.1 h.2)) hs → qwire_fields hs = hs.
Proof.
  induction 1 as [|[n v] hs (Hn & _) Hhs IH]; [done|]. cbn in *. f_equal; [|exact IH]. by rewrite qwire_lower.
Qed.

Lemma qwire_section g lim : msg3_ok lim g → qwire_fields (g_section g) = g_section g.
Proof.
  intros Hg. unfold g_section, qwire_fields. rewrite !map_app.
  assert (map (λ h, (qwire_name h.1, h.2)) (g_fields g) = g_fields g) as -> by apply qwire_fields_lower, Hg.
  f_equal. by destruct (g_authority g).
Qed.

(** The pseudo-headers, one after the other. *)
Lemma emit_pseudos lim g hs : msg3_ok lim g →
  ∃ c, c_bad c = false ∧ c_err c = 0 ∧ c_method c = Some (g_method g) ∧ c_path c = Some (g_path g) ∧
    c_scheme c = Some (g_scheme g) ∧ c_authority c = g_authority g ∧ c_hdrs c = hs ∧
    ∀ rest, run_emits (h3_emit lim) (mk_hctx None None None None false false 0 hs)
      ([(B ":method", g_method g); (B ":scheme", g_scheme g); (B ":path", g_path g)] ++
       match g_authority g with Some a => [(B ":authority", a)] | None => [] end ++ rest) =
      run_emits (h3_emit lim) c rest.
Proof.
  intros Hg. exists (mk_hctx (Some (g_method g)) (Some (g_path g)) (Some (g_scheme g)) (g_authority g) false false 0 hs).
  split_and!; [done..|]. intros rest. cbn [app run_emits].
  erewrite emit_pseudo; [|done|done|done|reflexivity|reflexivity|apply Hg]. cbn [negb Z.eqb].
  erewrite emit_pseudo; [|done|done|done|reflexivity|reflexivity|apply Hg]. cbn [negb Z.eqb].
  erewrite emit_pseudo; [|done|done|done|reflexivity|reflexivity|apply Hg]. cbn [negb Z.eqb].
  pose proof (mo_authority _ _ Hg) as Ha. destruct (g_authority g) as [a|]; [|done]. cbn [app run_emits].
  erewrite emit_pseudo; [|done|done|done|reflexivity|reflexivity|by apply Ha]. done.
Qed.

Lemma decode_message lim g q path' query' : lims_ok lim → msg3_ok lim g → headers q = hdrs_empty →
  authority q = None → target_spec (g_path g) lim = (ZCIO_OK, path', query') →
  ∃ q', decode_fields lim (g_block g) q = Ok (ZCIO_OK, q') ∧ is_request g path' query' q' ∧ body q' = body q.
Proof.
  intros Hlim Hg Hh Ha Ht. unfold decode_fields, g_block. rewrite Hh. destruct Hlim as (Hl1 & Hl2 & _).
  pose proof (mo_block _ _ Hg) as Hbl. unfold g_block in Hbl. zlen_simpl_in Hbl.
  rewrite section_read by (first [apply Hg|split; [apply Hg|lia]|lia]). rewrite (qwire_section g lim Hg).
  destruct (emit_pseudos lim g hdrs_empty Hg) as (c & C1 & C2 & C3 & C4 & C5 & C6 & C7 & Hrun).
  unfold g_section. rewrite Hrun.
  assert (fields_size (g_fields g) ≤ max_header_bytes lim) as Hfs.
  { pose proof (mo_size _ _ Hg) as Hs. unfold g_section in Hs. revert Hs. clear. cbn [app fields_size].
    destruct (g_authority g); cbn [app fields_size]; lia. }
  destruct (emit_fields lim (g_fields g) c) as (c' & -> & D1 & D2 & D3 & D4 & D5 & D6 & D7);
    [done|done|done|apply Hg|rewrite C7; pose proof (mo_count _ _ Hg); cbn; lia|by rewrite C7|done|
     rewrite C7; pose proof (mo_cost _ _ Hg); cbn; lia|].
  cbn [mbind exec_bind]. rewrite D2, D1, D3, C3, D4, C4, D5, C5, D6, C6.
  change (0 =? ZCIO_ERR_NOMEM) with false. change (0 =? ZCIO_OK) with true. cbn [orb negb].
  destruct (mo_method _ _ Hg) as [_ Hm]. destruct (mo_path _ _ Hg) as [_ Hp].
  rewrite (value_no_nul _ Hm), (value_no_nul _ Hp), target_all, Ht. cbn [mbind exec_bind].
  change (negb (ZCIO_OK =? ZCIO_OK)) with false. cbv iota. eexists. split; [done|].
  unfold is_request. rewrite C7 in D7. destruct (g_authority g); cbn; by rewrite ?D7.
Qed.
End Fields.

(** ** Reading the frames *)

Section Frames.
Context `{Allocator} (Hall : ∀ n, alloc_ok n = true) (lim : zhs_limits) (Hlim : lims_ok lim).

(** Between two frames. *)
Definition between (seen : bool) (hdr : bytes) (q : zcio_http_req) (bd : bytes) : h3_view :=
  mk_view [] ZH3_PS_HDR 0 seen hdr q bd.

Lemma head3_code t l : 0 ≤ t < 2 ^ 62 → 0 ≤ l < 2 ^ 62 →
  head3 (vcode t ++ vcode l) = Some (zlen (vcode t ++ vcode l), t, l).
Proof.
  intros Ht Hl. unfold head3. rewrite varint_vcode by done. cbn [mbind option_bind].
  rewrite zdrop_app_zlen by done. rewrite <- (app_nil_r (vcode l)), varint_vcode by done.
  cbn [mbind option_bind]. rewrite !app_nil_r. do 3 f_equal. zl.
Qed.

(** The automaton goes through a frame payload whole. *)
Lemma arun_frame f seen hdr q bd rest : frame_ok f →
  (∀ v, w_pre v = [] → w_remain v = zlen f.2 → w_seen v = seen → w_hdr v = hdr → w_req v = q → w_body v = bd →
     w_state v ≠ ZH3_PS_HDR → settle lim v ≫= acont lim (f.2 ++ rest) =
       if zlen f.2 =? 0 then settle lim v ≫= acont lim rest else take_payload lim v f.2 ≫= acont lim rest) ∧
  arun lim (between seen hdr q bd) (frame3 f ++ rest) =
    open_frame lim (between seen hdr q bd) f.1 (zlen f.2) ≫= acont lim (f.2 ++ rest).
Proof.
  intros (Ht & Hl & Hb). split.
  - intros v Hp Hr _ _ _ _ Hs. bcase.
    + assert (f.2 = []) as -> by (destruct f.2; cbn in *; [done|lia]). done.
    + unfold settle. rewrite Hr, (proj2 (Z.eqb_neq _ _)) by lia.
      rewrite <- (arun_payload lim v f.2 rest) by (done || lia || (intros E; rewrite E in *; cbn in *; lia)).
      by destruct (w_state v).
  - unfold frame3. rewrite <- !app_assoc, (app_assoc (vcode f.1)).
    eapply arun_head; [apply Forall_app; split; apply vcode_bytes|done|done|by apply head3_code; [|lia]|done].
Qed.

Lemma arun_skip f seen hdr q bd rest : frame_ok f → f.1 ≠ H3_FRAME_DATA → (f.1 = H3_FRAME_HEADERS → seen = true) →
  arun lim (between seen hdr q bd) (frame3 f ++ rest) = arun lim (between seen hdr q bd) rest.
Proof.
  intros Hf Hd Hh. destruct (arun_frame f seen hdr q bd rest Hf) as [Hp ->].
  unfold open_frame. cbn [w_seen between w_hdr w_req w_body].
  assert ((f.1 =? H3_FRAME_HEADERS) && negb seen = false) as ->.
  { destruct (f.1 =? H3_FRAME_HEADERS) eqn:E; [|done]. btest. by rewrite Hh. }
  rewrite (proj2 (Z.eqb_neq _ _)) by done. rewrite Hp by done. bcase.
  - unfold settle. cbn. by rewrite Heqb.
  - rewrite take_payload_skip by done. unfold settle. cbn [w_state w_remain w_seen w_hdr w_req w_body].
    by rewrite Z.sub_diag.
Qed.

Lemma arun_data p seen hdr q bd rest : frame_ok (H3_FRAME_DATA, p) → zlen bd + zlen p ≤ max_body_bytes lim →
  arun lim (between seen hdr q bd) (frame3 (H3_FRAME_DATA, p) ++ rest) =
  arun lim (between seen hdr q (bd ++ p)) rest.
Proof.
  intros Hf Hn. destruct (arun_frame (H3_FRAME_DATA, p) seen hdr q bd rest Hf) as [Hp ->].
  unfold open_frame. cbn [w_seen between w_hdr w_req w_body fst snd] in *.
  change (H3_FRAME_DATA =? H3_FRAME_HEADERS) with false. change (H3_FRAME_DATA =? H3_FRAME_DATA) with true.
  cbn [andb]. rewrite Hp by done. bcase.
  - assert (p = []) as -> by (destruct p; cbn in *; [done|lia]). unfold settle. cbn. by rewrite app_nil_r.
  - rewrite take_payload_data by done. cbn [w_body]. rewrite (proj2 (Z.ltb_ge _ _)) by lia. unfold settle.
    cbn [w_state w_remain w_seen w_hdr w_req w_body]. by rewrite Z.sub_diag.
Qed.

Lemma arun_headers p q bd q' rest : frame_ok (H3_FRAME_HEADERS, p) → p ≠ [] → zlen p ≤ max_header_bytes lim →
  decode_fields lim p q = Ok (ZCIO_OK, q') →
  arun lim (between false [] q bd) (frame3 (H3_FRAME_HEADERS, p) ++ rest) =
  arun lim (between true [] q' bd) rest.
Proof.
  intros Hf Hne Hn Hd. destruct (arun_frame (H3_FRAME_HEADERS, p) false [] q bd rest Hf) as [Hp ->].
  unfold open_frame. cbn [w_seen between w_hdr w_req w_body fst snd] in *.
  change (H3_FRAME_HEADERS =? H3_FRAME_HEADERS) with true. cbn [andb negb].
  rewrite (proj2 (Z.ltb_ge _ _)) by lia. rewrite Hp by done.
  assert (zlen p ≠ 0) as Hz by (destruct p; cbn in *; [done|lia]).
  rewrite (proj2 (Z.eqb_neq _ _)) by done.
  rewrite take_payload_headers by done. unfold settle. cbn [w_state w_remain w_seen w_hdr w_req w_body app].
  by rewrite Z.sub_diag, Z.eqb_refl, (proj2 (Z.eqb_neq _ _) Hz), Hd.
Qed.

Lemma arun_before fs q rest : Forall (λ f, frame_ok f ∧ f.1 ≠ H3_FRAME_HEADERS ∧ f.1 ≠ H3_FRAME_DATA) fs →
  arun lim (between false [] q []) (frames3 fs ++ rest) = arun lim (between false [] q []) rest.
Proof.
  induction 1 as [|f fs (Hf & Hh & Hd) Hfs IH]; [done|]. unfold frames3. cbn [map concat].
  rewrite <- app_assoc, arun_skip by done. exact IH.
Qed.

Lemma arun_after fs q bd : Forall frame_ok fs → zlen bd + zlen (data_of fs) ≤ max_body_bytes lim →
  arun lim (between true [] q bd) (frames3 fs) = Ok (inr (between true [] q (bd ++ data_of fs))).
Proof.
  intros Hf. revert bd. induction Hf as [|[t p] fs Hf Hfs IH]; intros bd Hn.
  { unfold data_of. cbn. by rewrite app_nil_r. }
  unfold frames3, data_of in *. cbn [map concat fst snd] in *. zlen_simpl_in Hn.
  destruct (t =? H3_FRAME_DATA) eqn:Et; btest.
  - subst t. rewrite arun_data by (done || lia). rewrite IH by zl. by rewrite <- app_assoc.
  - rewrite arun_skip by done. by apply IH.
Qed.

Lemma arun_message g q path' query' : msg3_ok lim g → headers q = hdrs_empty → authority q = None →
  target_spec (g_path g) lim = (ZCIO_OK, path', query') →
  ∃ q', is_request g path' query' q' ∧ body q' = body q ∧
    arun lim (between false [] q []) (g_wire g) = Ok (inr (between true [] q' (data_of (g_after g)))).
Proof.
  intros Hg Hh Ha Ht. destruct (decode_message Hall lim g q path' query' Hlim Hg Hh Ha Ht) as (q' & Hd & Hq & Hb).
  exists q'. split; [done|]. split; [done|]. unfold g_wire. rewrite arun_before by apply Hg.
  pose proof (mo_block _ _ Hg). assert (max_header_bytes lim < 2 ^ 62) by apply Hlim.
  rewrite (arun_headers (g_block g) q [] q'); [|split_and!; [done|done|cbn [snd]; lia|apply Hg]|done|apply Hg|done].
  rewrite arun_after by (apply Hg || (pose proof (mo_body _ _ Hg); cbn [length]; lia)). done.
Qed.
End Frames.

(** ** Pieces *)

(** Reads that deliver the pieces [ps], one after the other. *)
Fixpoint feeds `{Allocator} (lim : zhs_limits) (st : zh3_stream) (ps : list bytes) : exec (Z * zh3_stream) :=
  match ps with
  | [] => Ok (ZCIO_OK, st)
  | d :: ps => '(r, st) ← h3_feed lim st d; if r =? ZCIO_OK then feeds lim st ps else Ok (r, st)
  end.

(** The engine hands out [ps] on the stream [ss], then its end. *)
Fixpoint delivers {E} `{Quic E} (e : E) (ss : Z) (ps : list bytes) (e1 : E) : Prop :=
  match ps with
  | [] => ssl_read e ss 4096 = (e1, false, []) ∧ ssl_get_error e1 ss = SSL_ERROR_ZERO_RETURN
  | d :: ps => d ≠ [] ∧ ∃ e', ssl_read e ss 4096 = (e', true, d) ∧ delivers e' ss ps e1
  end.

Section Pieces.
Context `{Allocator} (Hall : ∀ n, alloc_ok n = true) (lim : zhs_limits) (Hlim : lims_ok lim).

Lemma feed_all st d : s3_wf lim st → settled st → is_bytes d → zlen d < 2 ^ 62 →
  ∃ r st', h3_feed lim st d = Ok (r, st') ∧ s3_wf lim st' ∧ s3_key st' = s3_key st ∧
    ((r ≠ ZCIO_OK ∧ arun lim (view st) d = Ok (inl r)) ∨
     (r = ZCIO_OK ∧ settled st' ∧ arun lim (view st) d = Ok (inr (view st')))).
Proof.
  intros Hw Hs Hd Hn. destruct (feed_ok lim Hlim st d Hw Hs Hd Hn) as (r & st' & E & G1 & G2 & _ & G3).
  exists r, st'. split_and!; try done. destruct G3 as [[_ Hno]|?]; [by destruct Hno|done].
Qed.

Lemma fresh_wf ss id uni : s3_wf lim (mk_stream3 ss id uni false false false false ZH3_PS_HDR 0 buf_empty buf_empty req_empty).
Proof.
  destruct Hlim as (? & ? & ?). constructor; cbn.
  - split; [apply buf_empty_wf|]. split; [constructor|]. unfold ZHS_AVAIL. cbn. lia.
  - split; [apply buf_empty_wf|]. split; [done|constructor].
  - split; [apply buf_empty_wf|]. split; [done|lia].
  - done.
  - done.
  - done.
  - split; [apply hdrs_empty_wf; lia|constructor].
  - done.
Qed.

Section Engine.
Context {E : Type} `{Quic E}.

(** What the reads of a delivery leave in the stream. *)
Lemma read_pieces ps e ss e1 st v : s3_wf lim st → settled st → s3_is_uni st = false → s3_ssl st = ss →
  is_bytes (concat ps) → Forall (λ d, zlen d < 2 ^ 62) ps → delivers e ss ps e1 →
  arun lim (view st) (concat ps) = Ok (inr v) →
  ∃ e' st1, run_turns (read_turn3 lim) (length ps) (e, st) = Ok (inl (e', st1)) ∧
    read_turn3 lim (e', st1) = Ok (inr (e1, s3_set_fin true st1, ZCIO_OK)) ∧
    s3_wf lim st1 ∧ settled st1 ∧ s3_key st1 = s3_key st ∧ view st1 = v.
Proof.
  revert e st. induction ps as [|d ps IH]; intros e st Hw Hs Hu Hss Hb Hn Hdel Hv.
  - destruct Hdel as [Hr He]. exists e, st. split; [done|]. cbn in Hv. injection Hv as <-.
    split_and!; try done. unfold read_turn3. rewrite Hss, Hr. cbn [andb length]. rewrite He. done.
  - destruct Hdel as (Hne & e' & Hr & Hdel). cbn [concat] in Hb, Hv. apply Forall_app in Hb as [Hb1 Hb2].
    apply List.Forall_cons_iff in Hn as [Hn1 Hn]. rewrite arun_app in Hv.
    destruct (feed_all st d Hw Hs Hb1 Hn1) as (r & st' & Ef & Hw' & Hk & [[_ Ea]|(-> & Hs' & Ea)]).
    { rewrite Ea in Hv. discriminate. }
    rewrite Ea in Hv. cbn [mbind exec_bind acont] in Hv.
    assert (s3_ssl st' = ss ∧ s3_is_uni st' = false) as [Hss' Hu'] by (unfold s3_key in Hk; split; congruence).
    destruct (IH e' st' Hw' Hs' Hu' Hss' Hb2 Hn Hdel Hv) as (e2 & st1 & E1 & E2 & G1 & G2 & G3 & G4).
    exists e2, st1. split_and!; try done; [|by rewrite G3].
    assert (read_turn3 lim (e, st) = Ok (inl (e', st'))) as E0; [|cbn [length run_turns]; by rewrite E0].
    unfold read_turn3. rewrite Hss, Hr.
    assert ((0 <? zlen d) = true) as -> by (destruct d; cbn [length]; [done|apply Z.ltb_lt; lia]). cbn [andb].
    rewrite Hu. unfold h3_feed in Ef. destruct (zhs_buf_append_ (s3_in st) d) as [ra b].
    destruct (negb (ra =? ZCIO_OK)) eqn:Er; [discriminate Ef|]. by rewrite Ef.
Qed.
End Engine.

Lemma wire_bytes g : msg3_ok lim g → is_bytes (g_wire g).
Proof.
  intros Hg. assert (∀ fs, Forall frame_ok fs → is_bytes (frames3 fs)) as Hfs.
  { induction 1 as [|f fs (_ & _ & Hb) Hfs IH]; [constructor|]. unfold frames3. cbn [map concat].
    apply Forall_app. split; [|done]. unfold frame3. rewrite !Forall_app. split_and!; [apply vcode_bytes..|done]. }
  unfold g_wire. rewrite !Forall_app. split_and!.
  - apply Hfs. eapply Forall_impl; [apply Hg|]. by intros f [? _].
  - unfold frame3. rewrite !Forall_app. split_and!; [apply vcode_bytes..|apply Hg].
  - apply Hfs, Hg.
Qed.
End Pieces.

(** ** Properties *)

(** C11: The parser of a request stream computes what the byte automaton
    does, and the pieces the bytes arrive in do not matter: from every settled
    stream, reads that deliver [ps] end in the automaton's error, or in a stream
    that remembers what the automaton does. *)
Theorem h3_parse_refines (a : Allocator) lim st ps (Hall : ∀ n, alloc_ok n = true) (Hlim : lims_ok lim)
  (Hw : s3_wf lim st) (Hs : settled st) (Hb : is_bytes (concat ps)) (Hn : Forall (λ d, zlen d < 2 ^ 62) ps) :
  (λ '(r, st'), if r =? ZCIO_OK then inr (view st') else inl r) <$> feeds lim st ps =
  arun lim (view st) (concat ps).
Proof.
  revert st Hw Hs. induction ps as [|d ps IH]; intros st Hw Hs; [done|]. cbn [feeds concat] in *.
  apply Forall_app in Hb as [Hb1 Hb2]. apply List.Forall_cons_iff in Hn as [Hn1 Hn]. rewrite arun_app.
  destruct (feed_all Hall lim Hlim st d Hw Hs Hb1 Hn1) as (r & st' & -> & Hw' & _ & [[Hr ->]|(-> & Hs' & ->)]);
    cbn [mbind exec_bind acont].
  - rewrite (proj2 (Z.eqb_neq _ _)) by done. cbn. by rewrite (proj2 (Z.eqb_neq _ _)).
  - by apply IH.
Qed.

(** C10: A message a conforming client sends - a field section, encoded with
    the library's own stateless encoder, with the pseudo-headers first, lower-case token names and no connection-specific
    field, frames of other types anywhere, the body in any number of DATA
    frames within the limits - arrives complete however the engine cuts the
    stream: the request that is dispatched has the client's method, the decoded
    target, its authority, its fields in order and exactly its body. *)
Theorem h3_request_assembled (a : Allocator) (S : Server) (E : Type) (Q : Quic E) lim g path' query' ps e ss e1 conn
  (Hall : ∀ n, alloc_ok n = true) (Hlim : lims_ok lim) (Hg : msg3_ok lim g)
  (Ht : target_spec (g_path g) lim = (ZCIO_OK, path', query'))
  (Hps : concat ps = g_wire g) (Hlen : Forall (λ d, zlen d ≤ 4096) ps) (Hn : zlen ps < 4096)
  (Hd : delivers e ss ps e1) :
  ∃ st st1 q, h3_stream_new e ss false = Some st ∧ h3_stream_read lim e st = Ok (e1, st1, ZCIO_OK) ∧
    h3_dispatch_req st1 = q ∧ is_request g path' query' q ∧ version q = 3 ∧ secure q = true ∧
    zcio_http_req_body (Some q) = data_of (g_after g) ∧
    h3_maybe_dispatch e1 conn st1 =
      (let '(_, (st2, e2, _)) := @zhs_dispatch_ _ _ _ h3_transport (s3_set_req q st1, e1, conn) in
       (e2, s3_set_done true (s3_set_dispatched true (s3_set_req (zhs_req_reset_ (s3_req st2)) st2)))).
Proof.
  set (st := mk_stream3 ss (ssl_stream_id e ss) false false false false false ZH3_PS_HDR 0 buf_empty buf_empty req_empty).
  destruct (arun_message Hall lim Hlim g req_empty path' query' Hg eq_refl eq_refl Ht) as (q' & Hq & _ & Hrun).
  rewrite <- Hps in Hrun. pose proof (wire_bytes lim g Hg) as Hwb. rewrite <- Hps in Hwb.
  destruct (read_pieces Hall lim Hlim ps e ss e1 st (between true [] q' (data_of (g_after g))))
    as (e' & st1 & E1 & E2 & Hw1 & Hs1 & Hk & Hv); try done.
  { by apply fresh_wf. }
  { eapply Forall_impl; [exact Hlen|]. cbn. lia. }
  exists st, (s3_set_fin true st1), (h3_dispatch_req (s3_set_fin true st1)).
  assert (s3_headers_seen st1 = true ∧ s3_pstate st1 = ZH3_PS_HDR ∧ w_req (view st1) = q' ∧
    w_body (view st1) = data_of (g_after g)) as (V1 & V2 & V3 & V4).
  { rewrite Hv. injection Hv as _ V2 _ V1. by split_and!. }
  assert (s3_dispatched st1 = false ∧ s3_is_uni st1 = false) as [K1 K2] by (unfold s3_key, st in Hk; cbn in Hk; split; congruence).
  split_and!.
  - unfold h3_stream_new, zcio_xcalloc_ok. by rewrite Hall.
  - unfold h3_stream_read. rewrite (run_upto_last _ _ (length ps) _ (e', st1) (e1, s3_set_fin true st1, ZCIO_OK));
      [done|unfold ZH3_READ_CAP; lia|done|done].
  - done.
  - cbn in V3. subst q'. exact Hq.
  - done.
  - done.
  - rewrite <- V4. cbn [zcio_http_req_body h3_dispatch_req body req_set_stream_id req_set_secure req_set_version
      req_set_body s3_req s3_set_fin view w_of w_body].
    destruct (buf_reserve_spec (body (s3_req st1)) 1) as (r & b & -> & _ & _ & _ & Hc & _); [apply Hw1|lia|]. done.
  - unfold h3_maybe_dispatch. cbn [s3_dispatched s3_fin s3_is_uni s3_headers_seen s3_pstate s3_set_fin].
    rewrite K1, K2, V1, V2. cbn [negb orb]. rewrite bool_decide_true by done. done.
Qed.

(** ** Witnesses *)

(** An engine that replays pieces, then the end of the stream. *)
Definition replay : Quic (list bytes) := {|
  ssl_read e _ _ := match e with [] => ([], false, []) | d :: e => (e, true, d) end;
  ssl_write e _ p := (e, true, zlen p); ssl_get_error _ _ := SSL_ERROR_ZERO_RETURN;
  ssl_handle_events e _ := e; ssl_stream_conclude e _ := e; ssl_free e _ := e; ssl_write_buf_used _ _ := Some 0;
  ssl_accept_connection e _ := (e, None); ssl_accept_stream e _ := (e, None); ssl_is_bidi _ _ := true;
  ssl_stream_id _ _ := 0; ssl_new_uni_stream e _ := (e, None); ssl_configure e _ := e; ssl_shutdown e _ := (e, 1);
  ssl_conn_closed _ _ := false; ssl_event_timeout _ _ := None;
  ssl_ctx_free e _ := e; udp_close e _ := e |}.

Lemma delivers_replay ss ps : Forall (λ d, d ≠ []) ps → @delivers _ replay ps ss ps [].
Proof. induction 1 as [|d ps Hd Hps IH]; cbn; [done|]. split; [done|]. by exists ps. Qed.

(** A POST whose body comes in two frames, with frames of reserved types. *)
Definition ex3_msg : h3_msg := {|
  g_method := B "POST"; g_scheme := B "https"; g_path := B "/a/../b%20c?x=1"; g_authority := Some (B "h.example");
  g_fields := [(B "accept", B "text/html"); (B "te", B "trailers")];
  g_before := [(33, B "grease")];
  g_after := [(0, B "hello, "); (64, []); (0, B "world"); (1, B "trailer")] |}.

Definition ex3_pieces : list bytes := map (λ b, [b]) (g_wire ex3_msg).

Lemma text_dec s : negb (zlen s =? 0) && zhs_value_ok_ s = true → text s.
Proof. intros [H1 H2]%andb_prop. split; [|done]. by intros ->. Qed.

Lemma frame_dec f : (0 <=? f.1) && (f.1 <? 2 ^ 62) && (zlen f.2 <? 2 ^ 62) &&
  forallb (λ b, (0 <=? b) && (b <? 256)) f.2 = true → frame_ok f.
Proof. intros H1. btest. split; [lia|]. split; [lia|]. by apply bytes_dec. Qed.

Lemma ex3_msg_ok : msg3_ok ex_limits ex3_msg.
Proof.
  constructor.
  - apply text_dec. vm_compute. reflexivity.
  - apply text_dec. vm_compute. reflexivity.
  - apply text_dec. vm_compute. reflexivity.
  - intros v [= <-]. apply text_dec. vm_compute. reflexivity.
  - repeat constructor; done.
  - vm_compute. discriminate.
  - vm_compute. discriminate.
  - vm_compute. discriminate.
  - repeat constructor; vm_compute; discriminate.
  - apply bytes_dec. vm_compute. reflexivity.
  - vm_compute. discriminate.
  - constructor; [|constructor]. split; [apply frame_dec; vm_compute; reflexivity|]. done.
  - repeat (constructor; [apply frame_dec; vm_compute; reflexivity|]). constructor.
  - vm_compute. discriminate.
Qed.

Lemma ex3_lims : lims_ok ex_limits.
Proof. vm_compute. intuition discriminate. Qed.

Lemma ex3_pieces_ok : concat ex3_pieces = g_wire ex3_msg ∧ Forall (λ d, zlen d ≤ 4096) ex3_pieces ∧
  Forall (λ d, d ≠ []) ex3_pieces ∧ zlen ex3_pieces < 4096.
Proof.
  split; [vm_compute; reflexivity|]. split; [|split; [|vm_compute; reflexivity]];
    apply Forall_map, Forall_forall; intros b _; cbn; done.
Qed.

Definition ex3_stream : zh3_stream :=
  mk_stream3 5 0 false false false false false ZH3_PS_HDR 0 buf_empty buf_empty req_empty.

Lemma h3_parse_refines_witness : settled ex3_stream ∧
  (λ '(r, st'), if r =? ZCIO_OK then inr (view st') else inl r) <$> @feeds always_alloc ex_limits ex3_stream ex3_pieces =
  @arun always_alloc ex_limits (view ex3_stream) (concat ex3_pieces).
Proof.
  split; [reflexivity|]. apply (h3_parse_refines always_alloc ex_limits ex3_stream ex3_pieces (λ n, eq_refl) ex3_lims).
  - exact (@fresh_wf ex_limits ex3_lims 5 0 false).
  - reflexivity.
  - rewrite (proj1 ex3_pieces_ok). exact (wire_bytes ex_limits ex3_msg ex3_msg_ok).
  - eapply Forall_impl; [exact (proj1 (proj2 ex3_pieces_ok))|]. cbn. lia.
Defined.

Lemma h3_request_assembled_witness : ∃ st st1 q,
  @h3_stream_new always_alloc _ replay ex3_pieces 5 false = Some st ∧
  @h3_stream_read always_alloc _ replay ex_limits ex3_pieces st = Ok ([], st1, ZCIO_OK) ∧
  path q = Some (B "/b c") ∧ query q = Some (B "x=1") ∧ zcio_http_req_body (Some q) = B "hello, world".
Proof.
  destruct (h3_request_assembled always_alloc (ex_server hello) (list bytes) replay ex_limits ex3_msg
    (Some (B "/b c")) (Some (B "x=1")) ex3_pieces ex3_pieces 5 [] 1 (λ n, eq_refl) ex3_lims ex3_msg_ok)
    as (st & st1 & q & E1 & E2 & _ & (_ & _ & Hp & Hq & _) & _ & _ & Hb & _).
  - vm_compute. reflexivity.
  - exact (proj1 ex3_pieces_ok).
  - exact (proj1 (proj2 ex3_pieces_ok)).
  - exact (proj2 (proj2 (proj2 ex3_pieces_ok))).
  - apply delivers_replay. exact (proj1 (proj2 (proj2 ex3_pieces_ok))).
  - exists st, st1, q. split; [exact E1|]. split; [exact E2|]. split; [exact Hp|]. split; [exact Hq|]. exact Hb.
Defined.

(** The end of the stream inside a frame header: the request is dispatched all
    the same ([h3_maybe_dispatch] looks at the parser's state only). *)
Definition ex3_cut : list bytes := [g_wire ex3_msg; [0]].

Definition ex3_read : option (bytes * bool) :=
  match @h3_stream_read always_alloc _ replay ex_limits ex3_cut ex3_stream with
  | Ok (e, st, _) => Some (buf_contents (s3_in st),
      s3_dispatched (snd (@h3_maybe_dispatch always_alloc (ex_server hello) _ replay e 1 st)))
  | _ => None
  end.

Lemma partial_frame_dispatched : ex3_read = Some ([0], true).
Proof. vm_compute. reflexivity. Qed.
