(* ===== verification/H3Safe.v ===== *)
(** * H3Safe: the HTTP/3 server on any engine

    Whatever the QUIC engine reports and whatever the peers send, a pass of the
    server returns, keeps its tables within the limits, and hands only well
    formed requests to the handler. *)
From stdpp Require Import base tactics list option strings.
From Stdlib Require Import ZArith Lia.
From S2P Require Import Prelude Types Buf HttpUtil Target Hpack Qpack Respond H1Safe H2Safe H2Run H3 H3Parse H3Request.

(** ** Loops and tables *)

Lemma run_upto_inv {S R} (F : Prop) (step : S → exec (S + R)) (I : S → Prop) (Q : R → Prop) n s :
  (∀ s, I s → ends F (step s) (λ o, match o with inl s' => I s' | inr r => Q r end)) → I s →
  ends F (run_upto step n s) (λ o, match o with inl s' => I s' | inr r => Q r end).
Proof.
  intros Hstep Hs. rewrite run_upto_turns. revert s Hs. generalize (Pos.to_nat n). clear n.
  intros n. induction n as [|n IH]; intros s Hs; cbn [run_turns]; [done|].
  apply ends_bind. eapply ends_mono; [by apply Hstep|]. intros [s'|r]; [apply IH|done].
Qed.

Lemma swap_out_Forall {A} (P : A → Prop) i l : Forall P l → Forall P (swap_out i l).
Proof.
  intros Hl. unfold swap_out. destruct (last l) as [z|] eqn:Ez; [|done]. apply Forall_take, Forall_insert; [done|].
  rewrite last_lookup in Ez. by eapply Forall_lookup_1.
Qed.

Lemma swap_out_length {A} i (l : list A) : (length (swap_out i l) ≤ length l)%nat.
Proof. unfold swap_out. destruct (last l); zlen_simpl; lia. Qed.

(** ** Invariants *)

(** What the code relies on: [SSL_read_ex] fills at most the buffer it was
    given, [SSL_write_ex] reports no more than it was given. *)
Class QuicOk (E : Type) `{Quic E} := {
  read_fits : ∀ e s n e' ok d, 0 ≤ n → ssl_read e s n = (e', ok, d) → is_bytes d ∧ zlen d ≤ n;
  write_fits : ∀ e s p e' ok w, ssl_write e s p = (e', ok, w) → 0 ≤ w ≤ zlen p }.

(** A stream that can still be read. *)
Definition stream3_live (lim : zhs_limits) (st : zh3_stream) : Prop :=
  s3_wf lim st ∧ settled st ∧ s3_dispatched st = false.

Definition stream3_ok (lim : zhs_limits) (st : zh3_stream) : Prop :=
  s3_done st = false → stream3_live lim st.

Lemma ok_done lim st : s3_done st = true → stream3_ok lim st.
Proof. unfold stream3_ok. congruence. Qed.

Lemma ok_live lim st : stream3_live lim st → stream3_ok lim st.
Proof. by intros ? _. Qed.

Record conn3_ok (lim : zhs_limits) (c : zh3_conn) : Prop := {
  k3_streams : Forall (stream3_ok lim) (c3_streams c);
  k3_count : zlen (c3_streams c) ≤ max_streams lim + 8;
  k3_cap : zlen (c3_streams c) ≤ c3_cap_streams c;
  k3_requests : 0 ≤ c3_requests c ≤ max_requests_per_conn lim;
}.

Definition h3_lims_ok (l : zhs_limits) : Prop :=
  lims_ok l ∧ 0 ≤ max_streams l < 2 ^ 32 ∧ 0 ≤ max_requests_per_conn l < 2 ^ 32 ∧ 0 ≤ max_connections l.

Record srv3_ok (h : zh3_srv) : Prop := {
  v3_lims : h3_lims_ok (v3_lim h);
  v3_all : Forall (conn3_ok (v3_lim h)) (v3_conns h);
  v3_count : zlen (v3_conns h) ≤ max_connections (v3_lim h);
  v3_cap : zlen (v3_conns h) ≤ v3_cap_conns h;
}.

(** What a handler is shown. *)
Definition h3_req_good (lim : zhs_limits) (r : zcio_http_req) : Prop :=
  h3_line_good r ∧ h3_headers_good lim r ∧ b_len (body r) ≤ max_body_bytes lim ∧ version r = 3 ∧ secure r = true.

(** ** One stream *)

Section Streams.
Context `{Allocator} {E : Type} `{QuicOk E} (lim : zhs_limits) (Hlim : lims_ok lim).

Lemma read_turn_ok e st : stream3_live lim st → ends False (read_turn3 lim (e, st)) (λ o,
  match o with inl (_, st') => stream3_live lim st' ∧ s3_done st' = s3_done st
  | inr (_, st', r) => s3_done st' = s3_done st ∧ (r = ZCIO_OK → stream3_live lim st') end).
Proof.
  intros (Hw & Hs & Hd). unfold read_turn3. destruct (ssl_read e (s3_ssl st) 4096) as [[e1 ok] d] eqn:Er.
  apply read_fits in Er as [Hb Hn]; [|lia].
  assert (stream3_live lim (s3_set_fin true st)) as Hfin.
  { split; [destruct Hw; by constructor|]. split; done. }
  destruct (ok && _).
  - destruct (s3_is_uni st); [by split|].
    destruct (feed_ok lim Hlim st d Hw Hs Hb ltac:(lia)) as (r & st' & Ef & Hw' & Hk & Hc & Hr).
    unfold h3_feed in Ef. destruct (zhs_buf_append_ (s3_in st) d) as [ra b].
    assert (s3_done st' = s3_done st ∧ s3_dispatched st' = false) as [Hk1 Hk2] by (unfold s3_key in Hk; split; congruence).
    destruct (negb (ra =? ZCIO_OK)); [by injection Ef as <- <-|]. rewrite Ef. cbn [mbind exec_bind].
    destruct (r =? ZCIO_OK) eqn:Er; btest; cbn [negb]; cbn.
    + subst r. split; [|done]. destruct Hr as [[? _]|[[? _]|(_ & ? & _)]]; done.
    + by split.
  - bcase; [by split|]. bcase; by split.
Qed.

Lemma stream_read_ok e st : stream3_live lim st → ∃ e' st' r, h3_stream_read lim e st = Ok (e', st', r) ∧
  s3_done st' = s3_done st ∧ (r = ZCIO_OK → stream3_live lim st').
Proof.
  intros Hst. unfold h3_stream_read.
  pose proof (run_upto_inv False (read_turn3 lim) (λ s, stream3_live lim s.2 ∧ s3_done s.2 = s3_done st)
    (λ o, s3_done o.1.2 = s3_done st ∧ (o.2 = ZCIO_OK → stream3_live lim o.1.2)) ZH3_READ_CAP (e, st)) as Hr.
  apply ends_Ok in Hr as ([[e1 st1]|[[e1 st1] r]] & -> & R1 & R2); [..|by split].
  - by exists e1, st1, ZCIO_OK.
  - by exists e1, st1, r.
  - intros [e0 st0] [Hl Hd]. eapply ends_mono; [by apply read_turn_ok|].
    intros [[? ?]|[[? ?] ?]]; cbn; rewrite <- Hd; done.
Qed.

(** The request of a complete stream. *)
Lemma dispatch3_req_good st : stream3_live lim st → s3_headers_seen st = true → h3_req_good lim (h3_dispatch_req st).
Proof.
  intros (Hw & _ & _) Hh. unfold h3_req_good. split; [by apply (sw_line _ _ Hw)|]. split; [apply Hw|].
  split; [|done]. cbn. destruct (sw_body _ _ Hw) as (Hb & _ & Hn).
  destruct (buf_reserve_spec (body (s3_req st)) 1) as (r & b & -> & _ & _ & Hl & _); [done|lia|]. cbn. by rewrite Hl.
Qed.
End Streams.

(** ** A pass, seen by two handlers *)

Section Pass.
Context `{Allocator} (S : Server) (h1 h2 : zcio_http_req → hprog) {E : Type} `{QuicOk E}.
Context (L : zhs_limits) (Hagree : ∀ r, h3_req_good L r → h1 r = h2 r).

Abbreviation S1 := (with_handler S h1).
Abbreviation S2 := (with_handler S h2).

(** Both return, with the same value, which satisfies [P]. *)
Definition both {R} (op : Server → exec R) (P : R → Prop) : Prop := ∃ r, op S1 = Ok r ∧ op S2 = Ok r ∧ P r.

Lemma both_bind {R T} (op : Server → exec R) (k : Server → R → exec T) P Q :
  both op P → (∀ r, P r → both (λ S, k S r) Q) → both (λ S, op S ≫= k S) Q.
Proof.
  intros (r & E1 & E2 & Hr) Hk. destruct (Hk r Hr) as (t & F1 & F2 & Ht). exists t.
  split; [|split; [|done]]; [by rewrite E1|by rewrite E2].
Qed.

Lemma both_ret {R} (r : R) (P : R → Prop) : P r → both (λ _, Ok r) P.
Proof. by exists r. Qed.

Lemma dispatch3_agree st e conn : h3_req_good L (s3_req st) →
  @zhs_dispatch_ _ S1 _ h3_transport (st, e, conn) = @zhs_dispatch_ _ S2 _ h3_transport (st, e, conn).
Proof.
  intros Hr. unfold zhs_dispatch_. cbn [get_req h3_transport srv_handler with_handler fst].
  rewrite (Hagree _ Hr). reflexivity.
Qed.

Lemma maybe_dispatch_ok st e conn : stream3_live L st →
  ∃ e' st', @h3_maybe_dispatch _ S1 _ _ e conn st = (e', st') ∧ @h3_maybe_dispatch _ S2 _ _ e conn st = (e', st') ∧
    stream3_ok L st'.
Proof.
  intros Hst. unfold h3_maybe_dispatch. destruct (_ || _); [exists e, st; by auto using ok_live|].
  destruct (negb (s3_headers_seen st) || _) eqn:Eh; [exists e, (s3_set_done true st); by auto using ok_done|].
  apply orb_false_iff in Eh as [Eh _]. btest.
  rewrite dispatch3_agree by (by apply dispatch3_req_good).
  destruct (@zhs_dispatch_ _ S2 _ _ _) as [rc [[st' e'] cn]]. do 2 eexists. by auto using ok_done.
Qed.

Lemma pump_stream_ok e conn st : lims_ok L → stream3_ok L st →
  both (λ S, @pump_stream3 _ S _ _ L e conn st) (λ r, stream3_ok L r.2).
Proof.
  intros Hl Hst. unfold pump_stream3. destruct (s3_done st) eqn:Ed; [by apply both_ret|].
  destruct (stream_read_ok L Hl e st (Hst Ed)) as (e1 & st1 & r & -> & Hd & Hr). cbn [mbind exec_bind].
  destruct (r =? ZCIO_OK) eqn:Er; btest; cbn [negb]; [|by apply both_ret, ok_done].
  specialize (Hr Er). destruct (s3_is_uni st1); cbn [negb].
  - apply both_ret. cbn. destruct (s3_fin st1); auto using ok_done, ok_live.
  - destruct (maybe_dispatch_ok st1 e1 conn Hr) as (e2 & st2 & E1 & E2 & Hok). exists (e2, st2).
    by rewrite E1, E2.
Qed.

Lemma set_streams_ok lim c ss : conn3_ok lim c → Forall (stream3_ok lim) ss →
  (length ss ≤ length (c3_streams c))%nat → conn3_ok lim (c3_set_streams ss (c3_cap_streams c) c).
Proof. intros [] ? ?. constructor; cbn; [done|lia..|done]. Qed.

Lemma pump_streams_ok fuel i e c work : lims_ok L → conn3_ok L c →
  both (λ S, @h3_pump_streams _ S _ _ fuel i L e c work) (λ r, conn3_ok L r.1.2).
Proof.
  intros Hl. revert i e c work. induction fuel as [|fuel IH]; intros i e c work Hc; cbn [h3_pump_streams].
  { by apply both_ret. }
  destruct (c3_streams c !! i) as [st|] eqn:Ei; [|by apply both_ret].
  eapply both_bind.
  { apply pump_stream_ok; [done|]. eapply Forall_lookup_1; [apply Hc|done]. }
  intros [e1 st1] Hst1. cbn in Hst1. cbv beta iota zeta.
  assert (Forall (stream3_ok L) (<[i:=st1]> (c3_streams c))) as Hins by (apply Forall_insert; [apply Hc|done]).
  destruct (_ && _); apply IH, set_streams_ok; try done.
  - by apply swap_out_Forall.
  - pose proof (swap_out_length i (<[i:=st1]> (c3_streams c))) as Hlen. by rewrite length_insert in Hlen.
  - by rewrite length_insert.
Qed.

Lemma accept_streams_ok fuel lim e c work : lims_ok lim → 0 ≤ max_streams lim < 2 ^ 32 →
  0 ≤ max_requests_per_conn lim < 2 ^ 32 → conn3_ok lim c →
  conn3_ok lim (h3_accept_streams fuel lim e c work).1.2.
Proof.
  intros Hl Hms Hmr. revert e c work. induction fuel as [|fuel IH]; intros e c work Hc; cbn [h3_accept_streams]; [done|].
  destruct (ssl_accept_stream e (c3_ssl c)) as [e1 [ss|]]; [|done].
  set (uni := negb (ssl_is_bidi e1 ss)).
  destruct (if uni then _ else _) eqn:Ecap; [by apply IH|].
  assert (zlen (c3_streams c) < max_streams lim + 8 ∧ (uni = false → c3_requests c < max_requests_per_conn lim)) as [Hn Hr].
  { destruct uni; btest.
    - split; [|done]. unfold wrap in Ecap. pose proof (Z.mod_le (max_streams lim + 8) (2 ^ 32) ltac:(lia) ltac:(lia)). lia.
    - split; [lia|]. intros _. lia. }
  set (c1 := if uni then c else _).
  assert (conn3_ok lim c1 ∧ c3_streams c1 = c3_streams c ∧ c3_cap_streams c1 = c3_cap_streams c) as (Hc1 & Hs1 & Hk1).
  { unfold c1. destruct uni; [done|]. split; [|done]. specialize (Hr eq_refl). destruct Hc. constructor; try done.
    cbn. rewrite wrap_small by lia. lia. }
  clearbody c1. unfold h3_stream_new. destruct (zcio_xcalloc_ok 1 256); [|done].
  set (st := mk_stream3 _ _ _ _ _ _ _ _ _ _ _ _). unfold h3_streams_push. rewrite Hs1, Hk1.
  set (full := zlen (c3_streams c) =? c3_cap_streams c). destruct (full && _); [done|]. apply IH.
  constructor; cbn.
  - apply Forall_app. split; [apply Hc|]. constructor; [|constructor]. intros _.
    split; [by apply fresh_wf|]. done.
  - zlen_simpl. lia.
  - unfold full in *. destruct Hc. zlen_simpl. repeat bcase; lia.
  - apply Hc1.
Qed.

Lemma open_control_ok lim e c : conn3_ok lim c → conn3_ok lim (h3_open_control e c).2.
Proof.
  intros Hc. unfold h3_open_control. destruct (c3_control c); [done|]. destruct (ssl_new_uni_stream _ _) as [e1 [ctl|]]; [|done].
  destruct (ssl_write _ _ _) as [[e2 ok] w]. destruct Hc. by constructor.
Qed.

Lemma conn_closed_ok lim e c d : conn3_ok lim c → conn3_ok lim (h3_conn_closed e c d).1.2.
Proof.
  intros Hc. unfold h3_conn_closed. destruct d; [|done]. cbv zeta.
  destruct (ssl_shutdown _ _) as [e1 r]. destruct Hc. by constructor.
Qed.

Lemma service_conn_ok d e c work : h3_lims_ok L → conn3_ok L c →
  both (λ S, @service_conn _ S _ _ L d e c work) (λ r, conn3_ok L r.1.1.2).
Proof.
  intros (Hl & Hms & Hmr & _) Hc. unfold service_conn. cbv zeta.
  set (t := if d then _ else _). assert (conn3_ok L t.1.2) as Ht.
  { unfold t. destruct d; [done|]. pose proof (open_control_ok L (ssl_handle_events e (c3_ssl c)) c Hc) as Ho.
    destruct (h3_open_control _ _) as [e1 c1]. by apply accept_streams_ok. }
  clearbody t. destruct t as [[e1 c1] w1]. cbn [fst snd] in Ht. cbv beta iota.
  eapply both_bind; [by apply pump_streams_ok|]. intros [[e2 c2] w2] Hc2. cbn [fst snd] in Hc2. cbv beta iota.
  pose proof (conn_closed_ok L e2 c2 d Hc2) as Hcc. destruct (h3_conn_closed e2 c2 d) as [[e3 c3] closed].
  by apply both_ret.
Qed.

Lemma service_conns_ok fuel i e h work : srv3_ok h → v3_lim h = L →
  both (λ S, @service_conns _ S _ _ fuel i e h work) (λ r, srv3_ok r.1.2 ∧ v3_lim r.1.2 = L).
Proof.
  revert i e h work. induction fuel as [|fuel IH]; intros i e h work Hh Hv; cbn [service_conns].
  { by apply both_ret. }
  destruct (v3_conns h !! i) as [c|] eqn:Ei; [|by apply both_ret].
  rewrite Hv. eapply both_bind.
  { apply service_conn_ok; rewrite <- Hv; [apply Hh|]. eapply Forall_lookup_1; [apply Hh|done]. }
  intros [[[e1 c1] w1] closed] Hc1. cbn [fst snd] in Hc1. cbv beta iota zeta. rewrite <- Hv in Hc1.
  assert (Forall (conn3_ok (v3_lim h)) (<[i:=c1]> (v3_conns h))) as Hins by (apply Forall_insert; [apply Hh|done]).
  destruct Hh as [L1 L2 L3 L4]. destruct closed; (apply IH; [constructor; cbn; try done|done]).
  - by apply swap_out_Forall.
  - pose proof (swap_out_length i (<[i:=c1]> (v3_conns h))) as Hlen. rewrite length_insert in Hlen. lia.
  - pose proof (swap_out_length i (<[i:=c1]> (v3_conns h))) as Hlen. rewrite length_insert in Hlen. lia.
  - by rewrite length_insert.
  - by rewrite length_insert.
Qed.

Lemma conn_new_ok lim e ssl : h3_lims_ok lim →
  match (h3_conn_new e ssl).2 with Some c => conn3_ok lim c | None => True end.
Proof.
  intros (Hl & Hms & Hmr & _). unfold h3_conn_new. destruct (zcio_xcalloc_ok 1 48); [|done].
  pose proof (open_control_ok lim (ssl_configure e ssl) (mk_conn3 ssl None [] 0 0 false false)) as Ho.
  destruct (h3_open_control _ _) as [e1 c]. apply Ho. constructor; cbn; [constructor|lia..].
Qed.

Lemma accept_conns_ok fuel e h work : srv3_ok h →
  srv3_ok (accept_conns fuel e h work).1.2 ∧ v3_lim (accept_conns fuel e h work).1.2 = v3_lim h.
Proof.
  revert e h work. induction fuel as [|fuel IH]; intros e h work Hh; cbn [accept_conns]; [done|].
  destruct (zlen (v3_conns h) <? max_connections (v3_lim h)) eqn:En; cbn [negb]; [|done]. btest.
  destruct (ssl_accept_connection _ _) as [e1 [cs|]]; [|done].
  pose proof (conn_new_ok (v3_lim h) e1 cs (v3_lims h Hh)) as Hc. destruct (h3_conn_new e1 cs) as [e2 [c|]]; [|done].
  cbn [snd] in Hc. unfold h3_conns_push. set (full := zlen (v3_conns h) =? v3_cap_conns h).
  destruct (full && _); [done|]. match goal with |- context [accept_conns fuel e2 ?x _] => set (h' := x) end.
  destruct Hh as [L1 L2 L3 L4]. destruct (IH e2 h' (work + 1)) as [G1 G2]; [|by split].
  constructor; cbn.
  - done.
  - apply Forall_app. split; [done|]. by constructor.
  - zlen_simpl. lia.
  - unfold full in *. zlen_simpl. repeat bcase; lia.
Qed.

Lemma process_ok h e : srv3_ok h → v3_lim h = L →
  both (λ S, @zh3_process_ _ S _ _ h e) (λ r, srv3_ok r.1.2 ∧ v3_lim r.1.2 = v3_lim h).
Proof.
  intros Hh HL. unfold zh3_process_. cbv zeta.
  set (t := if v3_draining h then _ else _). assert (srv3_ok t.1.2 ∧ v3_lim t.1.2 = v3_lim h) as [Ht Hv].
  { unfold t. destruct (v3_draining h); [done|]. by apply accept_conns_ok. }
  clearbody t. destruct t as [[e1 h'] w]. cbn [fst snd] in Ht, Hv. cbv beta iota. rewrite HL in *.
  by apply service_conns_ok.
Qed.
End Pass.

Section Graceful.
Context `{Allocator} {E : Type} `{Quic E}.

Lemma graceful_ok lim (cs : list zh3_conn) (s : E * list zh3_conn) : Forall (conn3_ok lim) cs → Forall (conn3_ok lim) s.2 →
  Forall (conn3_ok lim) (fold_left graceful_conn cs s).2 ∧
  length (fold_left graceful_conn cs s).2 = (length s.2 + length cs)%nat.
Proof.
  revert s. induction cs as [|c cs IH]; intros s Hcs Hs; cbn [fold_left length]; [split; [done|lia]|].
  apply List.Forall_cons_iff in Hcs as [Hc Hcs].
  destruct (IH (graceful_conn s c) Hcs) as [G1 G2].
  - unfold graceful_conn. assert (conn3_ok lim (h3_send_goaway s.1 c).2) as Hg.
    { unfold h3_send_goaway. destruct (c3_control c); [|done]. destruct (c3_goaway_sent c); [done|].
      destruct (ssl_write _ _ _) as [[? ?] ?]. destruct Hc. by constructor. }
    destruct (h3_send_goaway s.1 c) as [e1 c1]. cbn [snd] in *. apply Forall_app. split; [done|].
    constructor; [|constructor]. destruct Hg. by constructor.
  - split; [done|]. rewrite G2. unfold graceful_conn. destruct (h3_send_goaway s.1 c) as [e1 c1]. cbn [snd]. zlen_simpl. lia.
Qed.

Lemma graceful_srv_ok h (e : E) : srv3_ok h →
  srv3_ok (zh3_graceful_ h e).2 ∧ v3_lim (zh3_graceful_ h e).2 = v3_lim h.
Proof.
  intros [L1 L2 L3 L4]. unfold zh3_graceful_.
  destruct (graceful_ok (v3_lim h) (v3_conns h) (e, []) L2 ltac:(constructor)) as [G1 G2].
  destruct (fold_left _ _ _) as [e1 cs]. cbn [snd length] in *. split; [|done]. constructor; cbn; [done|done|lia..].
Qed.
End Graceful.

(** ** The life of a server *)

(** The states [zh3_process_] and [zh3_graceful_] lead to from a new server, on
    any engine that keeps its promises. *)
Inductive h3_reach `{Allocator, Server} {E} `{QuicOk E} (lim : zhs_limits) : zh3_srv → Prop :=
  | reach3_new ctx fd l : h3_reach lim (mk_srv3 ctx fd l lim [] 0 false)
  | reach3_process h e e' h' w : h3_reach lim h → zh3_process_ h e = Ok (e', h', w) → h3_reach lim h'
  | reach3_graceful h e e' h' : h3_reach lim h → zh3_graceful_ h e = (e', h') → h3_reach lim h'.

Lemma with_own_handler S : with_handler S (@srv_handler S) = S.
Proof. by destruct S. Qed.

Lemma process_step `{Allocator, Server} {E} `{QuicOk E} h e : srv3_ok h →
  ∃ e' h' w, zh3_process_ h e = Ok (e', h', w) ∧ srv3_ok h' ∧ v3_lim h' = v3_lim h.
Proof.
  intros Hh. destruct (process_ok _ srv_handler srv_handler (v3_lim h) (λ _ _, eq_refl) h e Hh eq_refl) as ([[e' h'] w] & E1 & _ & G).
  rewrite with_own_handler in E1. exists e', h', w. split; [exact E1|]. exact G.
Qed.

Lemma reach3_ok `{Allocator, Server} {E} `{QuicOk E} lim h : h3_lims_ok lim → h3_reach lim h →
  srv3_ok h ∧ v3_lim h = lim.
Proof.
  intros Hl. induction 1 as [l|h e e' h' w Hr [IH1 IH2] Ep|h e e' h' Hr [IH1 IH2] Eg].
  - destruct Hl as (? & ? & ? & ?). split; [|done]. constructor; cbn; [done|constructor|lia..].
  - destruct (process_step h e IH1) as (e1 & h1 & w1 & E1 & G1 & G2). rewrite E1 in Ep. injection Ep as <- <- <-.
    split; [done|]. congruence.
  - destruct (graceful_srv_ok h e IH1) as [G1 G2]. rewrite Eg in G1, G2. cbn in G1, G2. split; [done|congruence].
Qed.

(** ** Properties *)

(** C12: A pass of the HTTP/3 server returns on every engine, whatever the
    peers send: no read out of bounds, no parser that spins, every table within
    its configured limit - connections, streams, requests of a connection - and
    every stream that is still read from holds a section and a body within the
    header and body limits. *)
Theorem h3_process_safe (a : Allocator) (S : Server) (E : Type) (Q : Quic E) (K : QuicOk E) lim h e
  (Hlim : h3_lims_ok lim) (Hh : h3_reach lim h) :
  ∃ e' h' w, zh3_process_ h e = Ok (e', h', w) ∧ v3_lim h' = lim ∧ zlen (v3_conns h') ≤ max_connections lim ∧
    Forall (conn3_ok lim) (v3_conns h').
Proof.
  destruct (reach3_ok lim h Hlim Hh) as [Hok <-]. destruct (process_step h e Hok) as (e' & h' & w & E1 & [L1 L2 L3 L4] & G).
  exists e', h', w. rewrite <- G. by split_and!.
Qed.

(** The requests a handler sees over HTTP/3 are checked: in every state a server can be in and whatever the engine reports, two handlers
    that agree on the requests with a method, a decoded target free of controls,
    lower-case field names that are tokens and not connection specific, and a
    body within the limit, cannot be told apart by a pass. *)
Theorem h3_requests_clean (a : Allocator) (S : Server) (E : Type) (Q : Quic E) (K : QuicOk E) h1 h2 lim h e
  (Hagree : ∀ lim r, h3_req_good lim r → h1 r = h2 r) (Hlim : h3_lims_ok lim) (Hh : @h3_reach a S E Q K lim h) :
  @zh3_process_ a (with_handler S h1) E Q h e = @zh3_process_ a (with_handler S h2) E Q h e.
Proof.
  destruct (reach3_ok lim h Hlim Hh) as [Hok HL]. destruct (process_ok S h1 h2 lim (λ r, Hagree lim r) h e Hok HL) as (r & E1 & E2 & _).
  by rewrite E1, E2.
Qed.

(** ** Witnesses *)

(** One connection with one stream, whose pieces the engine replays. *)
Definition ex3_quic : Quic (bool * bool * list bytes) := {|
  ssl_read e _ n := match e with
    | (a, b, d :: ps) => if bool_decide (is_bytes d ∧ zlen d ≤ n) then ((a, b, ps), true, d) else ((a, b, ps), false, [])
    | _ => (e, false, []) end;
  ssl_write e _ p := (e, true, zlen p); ssl_get_error _ _ := SSL_ERROR_ZERO_RETURN;
  ssl_handle_events e _ := e; ssl_stream_conclude e _ := e; ssl_free e _ := e; ssl_write_buf_used _ _ := Some 0;
  ssl_accept_connection e _ := match e with (true, b, ps) => ((false, b, ps), Some 10) | _ => (e, None) end;
  ssl_accept_stream e _ := match e with (a, true, ps) => ((a, false, ps), Some 20) | _ => (e, None) end;
  ssl_is_bidi _ _ := true; ssl_stream_id _ _ := 0; ssl_new_uni_stream e _ := (e, Some 30);
  ssl_configure e _ := e; ssl_shutdown e _ := (e, 1); ssl_conn_closed _ _ := false; ssl_event_timeout _ _ := None;
  ssl_ctx_free e _ := e; udp_close e _ := e |}.

Lemma ex3_quic_ok : @QuicOk _ ex3_quic.
Proof.
  constructor.
  - intros [[a b] [|d ps]] s n e' ok r Hn; cbn.
    + intros [= <- <- <-]. split; [constructor|done].
    + case_bool_decide; intros [= <- <- <-]; [done|split; [constructor|done]].
  - cbn. intros e s p e' ok w [= <- <- <-]. lia.
Qed.

Definition ex3_srv : zh3_srv := mk_srv3 1 2 3 ex_limits [] 0 false.
Definition ex3_engine : bool * bool * list bytes := (true, true, ex3_pieces).

Lemma ex3_srv_lims : h3_lims_ok ex_limits.
Proof. vm_compute. intuition discriminate. Qed.

Lemma ex3_reach (S : Server) : @h3_reach always_alloc S _ ex3_quic ex3_quic_ok ex_limits ex3_srv.
Proof. apply reach3_new. Qed.

Lemma h3_process_safe_witness : ∃ e' h' w,
  @zh3_process_ always_alloc (ex_server hello) _ ex3_quic ex3_srv ex3_engine = Ok (e', h', w) ∧
  zlen (v3_conns h') ≤ max_connections ex_limits.
Proof.
  destruct (h3_process_safe always_alloc (ex_server hello) _ ex3_quic ex3_quic_ok ex_limits ex3_srv ex3_engine
    ex3_srv_lims (ex3_reach _)) as (e' & h' & w & E1 & _ & G & _).
  exists e', h', w. split; [exact E1|exact G].
Defined.

Lemma h3_requests_clean_witness :
  @zh3_process_ always_alloc (with_handler (ex_server hello) hello) _ ex3_quic ex3_srv ex3_engine =
  @zh3_process_ always_alloc (with_handler (ex_server hello) (λ r, if path r is Some _ then hello r else HRet))
    _ ex3_quic ex3_srv ex3_engine.
Proof.
  apply (h3_requests_clean always_alloc (ex_server hello) _ ex3_quic ex3_quic_ok hello
    (λ r, if path r is Some _ then hello r else HRet) ex_limits ex3_srv ex3_engine); [|apply ex3_srv_lims|apply ex3_reach].
  intros lim r ((_ & (p & Hp & _) & _) & _). rewrite Hp. reflexivity.
Defined.
