(* ===== verification/H3Response.v ===== *)
(** * H3Response: what an HTTP/3 response puts on its stream

    The bytes [h3_respond] writes are a HEADERS frame whose field section reads
    back as the status and the fields in lower case, then the body in one DATA
    frame; the loop that writes them ends on every engine, and reports success
    only when the engine took all of them, in order. *)
From stdpp Require Import base tactics list option strings.
From Stdlib Require Import ZArith Lia.
From S2P Require Import Prelude Types Buf HttpUtil HpackInt Hpack Qpack Respond H1Safe H3 H3Parse H3Request H3Safe.

(** ** Reading a section that starts with a status *)

Definition index_ok : bool :=
  forallb (λ e, bool_decide (static_entry (snd e) = (B ":status", dec (fst e))) &&
                (0 <=? snd e) && (snd e <? QPACK_STATIC_N)) STATUS_INDEX.

Lemma index_is_ok : index_ok = true.
Proof. vm_compute. reflexivity. Qed.

Lemma dec_status_len s : 100 ≤ s ≤ 999 → zlen (dec s) = 3.
Proof.
  intros Hs. pose proof (range_forall (λ b, implb (100 <=? b) (zlen (dec b) =? 3)) 1000) as Hr.
  specialize (Hr ltac:(vm_compute; reflexivity) s ltac:(lia)). cbv beta in Hr.
  rewrite (proj2 (Z.leb_le 100 s)) in Hr by lia. cbn [implb] in Hr. btest. done.
Qed.

Lemma indexed_flags b : 192 ≤ b < 256 → Z.land b 128 ≠ 0 ∧ Z.land b 64 ≠ 0.
Proof.
  intros Hb. pose proof (range_forall (λ b, implb (192 <=? b) (negb (Z.land b 128 =? 0) && negb (Z.land b 64 =? 0))) 256) as Hr.
  specialize (Hr ltac:(vm_compute; reflexivity) b ltac:(lia)). cbv beta in Hr.
  rewrite (proj2 (Z.leb_le 192 b)) in Hr by lia. cbn [implb] in Hr. btest. done.
Qed.

Section Read.
Context `{Allocator}.

Lemma status_line_read pre s rest max_out nbuf vbuf : 100 ≤ s ≤ 999 → 10 ≤ max_out →
  zlen (pre ++ status_code s ++ rest) < 2 ^ 63 →
  qpack_line (pre ++ status_code s ++ rest) (zlen pre) max_out nbuf vbuf =
    Ok (inr (zlen pre + zlen (status_code s), B ":status", dec s), nbuf, vbuf).
Proof.
  intros Hs Hm Hlen. unfold status_code in *. cbv zeta in *.
  destruct (find (λ e, fst e =? s) STATUS_INDEX) as [[s' idx]|] eqn:Ef.
  2:{ change (0 <=? -1) with false in *. cbv iota in *. pose proof (dec_status_len s Hs).
      change (int_code 4 80 QPACK_STATUS_NAME_IDX ++ str_code (dec s)) with (line_code (B ":status") (dec s)) in *.
      change ZHP_INT_MAX with 16777216 in *.
      apply line_read; try change ZHP_INT_MAX with 16777216; first [done|lia|cbn; lia]. }
  apply find_some in Ef as [Hin Hf]. cbn [fst snd] in *. btest. subst s'.
  pose proof index_is_ok as Hi. unfold index_ok in Hi. rewrite forallb_forall in Hi. specialize (Hi _ Hin).
  cbn [fst snd] in Hi. btest. apply bool_decide_eq_true in H0. change QPACK_STATIC_N with 99 in *.
  rewrite (proj2 (Z.leb_le 0 idx)) in * by lia. unfold qpack_line.
  destruct (int_code_flag_head 6 192 idx) as (b & c & Hbc & Hb); [lia|unfold is_byte; lia|done|lia|].
  change (Z.ones 6) with 63 in Hb.
  assert (nth (Z.to_nat (zlen pre)) (pre ++ int_code 6 192 idx ++ rest) 0 = b) as ->.
  { rewrite Nat2Z.id, app_nth2, Nat.sub_diag, Hbc by lia. done. }
  destruct (indexed_flags b ltac:(lia)) as [H128 H64]. apply Z.eqb_neq in H128, H64. rewrite H128, H64. cbn [negb].
  rewrite zdrop_app_zlen by done.
  rewrite int_roundtrip; [|lia|unfold is_byte; lia|done|change ZHP_INT_MAX with 16777216; lia].
  change QPACK_STATIC_N with 99. rewrite (proj2 (Z.leb_gt 99 idx)) by lia. by rewrite H0.
Qed.

Lemma status_section_read {U} (emit : U → bytes → bytes → Z * U) s hs max u : 100 ≤ s ≤ 999 →
  zlen (status_code s ++ lines_code hs) < 2 ^ 62 → Forall (λ h, zlen h.1 ≤ ZHP_INT_MAX ∧ zlen h.2 ≤ ZHP_INT_MAX) hs →
  10 + fields_size hs ≤ max < 2 ^ 62 →
  zqp_decode_ emit ([0; 0] ++ status_code s ++ lines_code hs) max u =
    Ok (run_emits emit u ((B ":status", dec s) :: qwire_fields hs)).
Proof.
  intros Hs Hlen Hall Hm. pose proof (fields_size_nonneg hs) as Hnn. unfold zqp_decode_. cbn [app].
  change (zhp_int_decode_ (0 :: 0 :: status_code s ++ lines_code hs) 8) with (inr (1, 0) : Z + (Z * Z)).
  cbn [negb Z.eqb]. bcase; [zlen_simpl_in Heqb; lia|].
  change (zdrop 1 (0 :: 0 :: status_code s ++ lines_code hs)) with (0 :: status_code s ++ lines_code hs).
  change (zhp_int_decode_ (0 :: status_code s ++ lines_code hs) 7) with (inr (1, 0) : Z + (Z * Z)).
  change (1 + 1) with (zlen [0; 0]).
  change (0 :: 0 :: status_code s ++ lines_code hs) with ([0; 0] ++ status_code s ++ lines_code hs).
  assert (1 ≤ zlen (status_code s)) as Hp.
  { unfold status_code. set (idx := match _ with Some _ => _ | None => _ end). pose proof (int_code_pos 6 192 idx).
    pose proof (int_code_pos 4 80 QPACK_STATUS_NAME_IDX). bcase; zlen_simpl; lia. }
  destruct (length ([0; 0] ++ status_code s ++ lines_code hs)) as [|fuel] eqn:Ef; [done|].
  cbn [lines_loop]. rewrite (proj2 (Z.ltb_lt _ _)) by (zlen_simpl; lia).
  rewrite status_line_read by (try lia; zlen_simpl; zlen_simpl_in Hlen; lia). cbn [mbind exec_bind].
  pose proof (dec_status_len s Hs) as Hd. change (zlen (B ":status")) with 7.
  rewrite !wrap_small, Hd by lia. rewrite !(proj2 (Z.ltb_ge _ _)) by lia. cbn [orb run_emits].
  destruct (emit u (B ":status") (dec s)) as [er u1]. destruct (negb (er =? 0)) eqn:Eer; [done|].
  rewrite app_assoc. replace (zlen [0; 0] + zlen (status_code s)) with (zlen ([0; 0] ++ status_code s)) by zl.
  zlen_simpl_in Hlen. zlen_simpl_in Ef. apply lines_loop_read; [zlen_simpl; lia|lia|done|lia|lia|lia].
Qed.
End Read.

(** ** The bytes *)

Definition lower_field (h : bytes * bytes) : bytes * bytes := (map tolower h.1, h.2).
Definition sent_fields (hdrs : list (bytes * bytes)) : list (bytes * bytes) :=
  map lower_field (List.filter (λ h, negb (zlen h.1 =? 0)) hdrs).
Definition response_block (status : Z) (hdrs : list (bytes * bytes)) : bytes :=
  [0; 0] ++ status_code status ++ lines_code (sent_fields hdrs).

Definition suppressed (st : zh3_stream) (status : Z) : bool :=
  is_head (s3_req st) || (status <? 200) || (status =? 204) || (status =? 304).

Definition response_wire (st : zh3_stream) (status : Z) (hdrs : list (bytes * bytes)) (d : bytes) : bytes :=
  frame3 (H3_FRAME_HEADERS, response_block status hdrs) ++
  (if suppressed st status || (zlen d =? 0) then [] else frame3 (H3_FRAME_DATA, d)).

Section Emit.
Context `{Allocator}.

#[export] Instance emits_h3_field name value :
  Emits (λ b, h3_encode_field b name value)
    (if zlen name =? 0 then [] else line_code (map tolower name) value).
Proof.
  unfold h3_encode_field. destruct (zlen name =? 0) eqn:En; [apply emits_ok|].
  destruct (_ && _) eqn:Ea; [|apply emits_line].
  intros b Hb. exists ZCIO_ERR_NOMEM, b. split; [done|]. split; [done|]. split.
  - right. split; [done|]. exists []. by rewrite app_nil_r; split; [apply prefix_nil|].
  - intros Hall. apply andb_prop in Ea as [_ Ea]. unfold zcio_xmalloc_ok in Ea. by rewrite Hall in Ea.
Qed.

Lemma emits_h3_fields status hdrs : 100 ≤ status ≤ 999 →
  Emits (h3_fields status hdrs) (response_block status hdrs).
Proof.
  intros Hs. unfold h3_fields, response_block.
  assert (Emits (foldr (λ h k, (λ b, h3_encode_field b h.1 h.2) ▷ k) emit_ok hdrs) (lines_code (sent_fields hdrs))) as Hh.
  { induction hdrs as [|[n v] hs IH]; [apply emits_ok|]. cbn [foldr].
    unfold sent_fields. cbn [List.filter fst].
    eapply emits_eq; [exact (emits_seq _ _ _ _)|]. cbn [fst snd]. by destruct (zlen n =? 0). }
  pose proof (emits_qpack_status status ltac:(rewrite dec_status_len; lia)) as Hq.
  exact (emits_seq _ _ _ _).
Qed.

Lemma emits_h3_frames fields d nb :
  Emits (h3_frames fields (Some d) (zlen d) nb)
    (frame3 (H3_FRAME_HEADERS, fields) ++ (if nb || (zlen d =? 0) then [] else frame3 (H3_FRAME_DATA, d))).
Proof.
  unfold h3_frames, frame3. cbn [fst snd]. rewrite <- !app_assoc.
  rewrite <- negb_orb. destruct (nb || (zlen d =? 0)); cbn [negb]; [apply _|].
  rewrite Nat2Z.id, firstn_all. apply _.
Qed.
End Emit.

(** ** The engine takes them *)

Section Sends.
Context {E : Type} `{QuicOk E}.

(** The engine took exactly [p], in order: each successful write a prefix of
    what was left, turns without progress in between. *)
Inductive sends3 (ssl conn : Z) : E → bytes → E → Prop :=
  | sends3_done e : sends3 ssl conn e [] e
  | sends3_took e p e1 w e2 : ssl_write e ssl p = (e1, true, w) → 0 < w →
      sends3 ssl conn e1 (zdrop w p) e2 → sends3 ssl conn e p e2
  | sends3_wait e p e1 ok w e2 : p ≠ [] → ssl_write e ssl p = (e1, ok, w) → ok && (0 <? w) = false →
      sends3 ssl conn (ssl_handle_events e1 conn) p e2 → sends3 ssl conn e p e2.

Lemma write_all_sends e ssl conn p : ∃ e' r, write_loop3 e ssl conn p = Ok (e', r) ∧ (r = ZCIO_OK → sends3 ssl conn e p e').
Proof.
  pose proof (loop_spec False (write_turn3 ssl conn p)
    (λ s, (0 ≤ s.1.2 ≤ zlen p ∧ 0 ≤ s.2 ≤ ZH3_WRITE_STALL) ∧
      ∀ e', sends3 ssl conn s.1.1 (zdrop s.1.2 p) e' → sends3 ssl conn e p e')
    (λ s, (zlen p - s.1.2) * (ZH3_WRITE_STALL + 1) + (ZH3_WRITE_STALL - s.2))
    (λ o : E * Z, o.2 = ZCIO_OK → sends3 ssl conn e p o.1)) as Hl.
  unfold write_loop3. set (n := Z.to_pos _).
  assert (Hl' := λ A B, Hl A B n (e, 0, 0)). clear Hl. rename Hl' into Hl.
  apply ends_Ok in Hl as ([e' r] & -> & Hr); [by exists e', r|..].
  - intros [[e0 off] stalls] [Ho _]. cbn in *. unfold ZH3_WRITE_STALL in *. nia.
  - intros [[e0 off] stalls]. cbn [fst snd]. intros [[Ho Hs] Hsend]. unfold write_turn3. bcase.
    { btest. cbn. intros _. apply Hsend. rewrite drop_ge by lia. constructor. }
    btest. destruct (ssl_write e0 ssl (zdrop off p)) as [[e1 ok] w] eqn:Ew.
    pose proof (write_fits _ _ _ _ _ _ Ew) as Hw. assert (zlen (zdrop off p) = zlen p - off) as Hz by zl. rewrite Hz in Hw.
    destruct (ok && (0 <? w)) eqn:Eo.
    + btest. cbn. unfold ZH3_WRITE_STALL in *. split; [split; [lia|]|nia]. intros e' He'. apply Hsend.
      apply sends3_took with e1 w; [by subst ok|done|]. rewrite drop_drop, <- Z2Nat.inj_add by lia.
      done.
    + destruct (_ || _); [|cbn; discriminate]. destruct (ZH3_WRITE_STALL <? stalls + 1) eqn:Et; [cbn; discriminate|].
      unfold ZH3_WRITE_STALL in *. btest. cbn. split; [split; [lia|]|lia]. intros e' He'. apply Hsend.
      eapply sends3_wait; [|exact Ew|exact Eo|done]. intros E0. rewrite E0 in Hz. cbn in Hz. lia.
  - cbn. split; [unfold ZH3_WRITE_STALL; lia|]. intros e'. by rewrite drop_0.
  - cbn. unfold n, ZH3_WRITE_STALL. lia.
Qed.
End Sends.

Lemma log_emits fs u : run_emits log_emit u fs = (0, u ++ fs).
Proof.
  revert u. induction fs as [|[n v] fs IH]; intros u; cbn [run_emits]; [by rewrite app_nil_r|].
  unfold log_emit at 1. cbn [negb Z.eqb]. by rewrite IH, <- app_assoc.
Qed.

Lemma tolower_idem c : tolower (tolower c) = tolower c.
Proof. unfold tolower. repeat bcase; lia. Qed.

Lemma qwire_sent hdrs : qwire_fields (sent_fields hdrs) = sent_fields hdrs.
Proof.
  unfold qwire_fields, sent_fields. rewrite map_map. apply map_ext. intros [n v]. unfold lower_field, qwire_name. cbn [fst snd].
  destruct (0 <=? _); [|done]. f_equal. rewrite map_map. apply map_ext. intros. apply tolower_idem.
Qed.

Lemma sent_fields_small hdrs : Forall (λ h, zlen h.1 ≤ ZHP_INT_MAX ∧ zlen h.2 ≤ ZHP_INT_MAX) hdrs →
  Forall (λ h, zlen h.1 ≤ ZHP_INT_MAX ∧ zlen h.2 ≤ ZHP_INT_MAX) (sent_fields hdrs).
Proof.
  unfold sent_fields. induction 1 as [|[n v] hs [Hn Hv] Hhs IH]; [constructor|]. cbn [List.filter fst].
  destruct (negb _); [|done]. cbn [map]. constructor; [|done]. unfold lower_field. cbn [fst snd] in *. by rewrite length_map.
Qed.

Lemma sent_fields_size hdrs : fields_size (sent_fields hdrs) ≤ fields_size hdrs.
Proof.
  unfold sent_fields. induction hdrs as [|[n v] hs IH]; [done|]. cbn [List.filter fst fields_size].
  destruct (negb _); cbn [map fields_size lower_field fst snd]; [rewrite length_map|]; lia.
Qed.

(** ** Properties *)

(** C13: A response reads back as what was asked for: with memory at hand
    [h3_respond] writes one HEADERS frame whose section decodes to the status
    and the fields in lower case, then the body in one DATA frame unless the
    request was a HEAD or the status has none; on every engine the writing
    ends, reports success only when the engine took exactly those bytes in
    order, and the stream is concluded. *)
Theorem h3_response_sent (a : Allocator) (E : Type) (Q : Quic E) (K : QuicOk E) e conn st status hdrs d max
  (Hall : ∀ n, alloc_ok n = true) (Hs : 100 ≤ status ≤ 999)
  (Hf : Forall (λ h, zlen h.1 ≤ ZHP_INT_MAX ∧ zlen h.2 ≤ ZHP_INT_MAX) hdrs)
  (Hsize : zlen (response_wire st status hdrs d) < 2 ^ 62) (Hmax : 10 + fields_size hdrs ≤ max < 2 ^ 62) :
  ∃ r e', h3_respond e conn st status hdrs (Some d) (zlen d) = (r, ssl_stream_conclude e' (s3_ssl st)) ∧
    (r = ZCIO_OK → sends3 (s3_ssl st) conn e (response_wire st status hdrs d) e') ∧
    zqp_decode_ log_emit (response_block status hdrs) max [] =
      Ok (0, (B ":status", dec status) :: sent_fields hdrs).
Proof.
  assert (zlen (response_block status hdrs) < 2 ^ 62) as Hbl.
  { unfold response_wire, frame3 in Hsize. cbn [fst snd] in Hsize. zlen_simpl_in Hsize. lia. }
  unfold h3_respond. cbv zeta. fold (suppressed st status).
  destruct (emits_h3_fields status hdrs Hs buf_empty buf_empty_wf) as (r1 & fields & -> & _ & Hr1 & Ha1).
  specialize (Ha1 Hall ltac:(unfold SIZE_MAX; cbn [b_len buf_empty]; lia)). subst r1.
  destruct Hr1 as [(_ & Hc1 & _)|[? _]]; [|done]. change (buf_contents buf_empty) with (@nil Z) in Hc1. cbn [app] in Hc1.
  change (ZCIO_OK =? ZCIO_OK) with true. cbv iota. rewrite Hc1.
  destruct (emits_h3_frames (response_block status hdrs) d (suppressed st status) buf_empty buf_empty_wf)
    as (r2 & out & -> & _ & Hr2 & Ha2).
  fold (response_wire st status hdrs d) in Hr2, Ha2.
  specialize (Ha2 Hall ltac:(unfold SIZE_MAX; cbn [b_len buf_empty]; lia)). subst r2.
  destruct Hr2 as [(_ & Hc2 & _)|[? _]]; [|done]. change (buf_contents buf_empty) with (@nil Z) in Hc2. cbn [app] in Hc2.
  change (ZCIO_OK =? ZCIO_OK) with true. cbv iota. rewrite Hc2. unfold h3_stream_write_all.
  destruct (write_all_sends e (s3_ssl st) conn (response_wire st status hdrs d)) as (e' & r & -> & Hr).
  exists r, e'. split; [done|]. split; [done|].
  unfold response_block. rewrite status_section_read; [|done|unfold response_block in Hbl; zlen_simpl; zlen_simpl_in Hbl; lia|by apply sent_fields_small|].
  - rewrite log_emits. cbn [app]. by rewrite qwire_sent.
  - pose proof (sent_fields_size hdrs). lia.
Qed.

(** ** Witnesses *)

Definition ex3_hdrs : list (bytes * bytes) := [(B "X-Path", B "/b c"); (B "server", B "zcio")].

Lemma h3_response_sent_witness : ∃ r e',
  @h3_respond always_alloc _ ex3_quic ex3_engine 10 ex3_stream 418 ex3_hdrs (Some (B "teapot")) 6 = (r, e') ∧
  @zqp_decode_ always_alloc _ log_emit (response_block 418 ex3_hdrs) 100 [] =
    Ok (0, [(B ":status", B "418"); (B "x-path", B "/b c"); (B "server", B "zcio")]).
Proof.
  destruct (h3_response_sent always_alloc _ ex3_quic ex3_quic_ok ex3_engine 10 ex3_stream 418 ex3_hdrs (B "teapot") 100)
    as (r & e' & E1 & _ & E2).
  - intros n. reflexivity.
  - lia.
  - repeat constructor; vm_compute; discriminate.
  - vm_compute. reflexivity.
  - split; vm_compute; [discriminate|reflexivity].
  - exists r, e'. split; [exact E1|]. rewrite E2. vm_compute. reflexivity.
Defined.
