(* ===== verification/Server.v ===== *)
(** * Server: the event loop of the HTTP server ([src/http_server.c])

    The connection and server objects, protocol selection, the work done for
    one connection, deadlines, the accept loop, graceful stop and
    [zcio_http_server_poll].  Sockets, TLS, the clock and [poll] itself are the
    class [Net] over an abstract world; HTTP/3's engine is the class [Quic] of
    [H3] over the same world.  The output buffer of a connection, which its
    protocol object points to, is kept in that object. *)
From stdpp Require Import base tactics list option strings.
From Stdlib Require Import ZArith Lia.
From S2P Require Import Prelude Types Buf HttpUtil Respond H1 H2 H3.

Definition READ_SCRATCH : Z := 65536.

Definition H2_PREFACE : bytes := B "PRI * HTTP/2.0".
Definition H2_PREFACE_LEN : Z := 14.

(** [cfg.versions] is a mask. *)
Definition ZCIO_HTTP1_1 : Z := 1.
Definition ZCIO_HTTP2 : Z := 2.
Definition ZCIO_HTTP3 : Z := 4.
Definition has_version (versions v : Z) : bool := negb (Z.land versions v =? 0).

Definition POLLIN : Z := 1.
Definition POLLOUT : Z := 4.
Definition POLLERR : Z := 8.
Definition POLLNVAL : Z := 32.
Definition ready (revents mask : Z) : bool := negb (Z.land revents mask =? 0).

Definition INT32_MAX : Z := 2 ^ 31 - 1.

(** ** Connection object *)

Inductive conn_proto :=
  | CONN_UNKNOWN (out : zhs_buf)
  | CONN_H1 (h1 : zh1_conn)
  | CONN_H2 (h2 : zh2_conn).

Record conn := mk_sconn {
  k_fd : Z;
  k_stream : option Z;
  k_in : zhs_buf;
  k_proto : conn_proto;
  k_secure : bool;
  k_tls_pending : bool;
  k_redirect : bool;
  k_peer_eof : bool;
  k_want_close : bool;
  k_dead : bool;
  k_detached : bool;
  k_created_ms : Z;
  k_activity_ms : Z;
  k_timing_head : bool;
  k_head_start_ms : Z;
}.

(** Assignments to one field. *)
Definition k_set_stream v (x : conn) :=
  mk_sconn (k_fd x) v (k_in x) (k_proto x) (k_secure x) (k_tls_pending x) (k_redirect x)
    (k_peer_eof x) (k_want_close x) (k_dead x) (k_detached x) (k_created_ms x) (k_activity_ms x)
    (k_timing_head x) (k_head_start_ms x).
Definition k_set_in v (x : conn) :=
  mk_sconn (k_fd x) (k_stream x) v (k_proto x) (k_secure x) (k_tls_pending x) (k_redirect x)
    (k_peer_eof x) (k_want_close x) (k_dead x) (k_detached x) (k_created_ms x) (k_activity_ms x)
    (k_timing_head x) (k_head_start_ms x).
Definition k_set_proto v (x : conn) :=
  mk_sconn (k_fd x) (k_stream x) (k_in x) v (k_secure x) (k_tls_pending x) (k_redirect x)
    (k_peer_eof x) (k_want_close x) (k_dead x) (k_detached x) (k_created_ms x) (k_activity_ms x)
    (k_timing_head x) (k_head_start_ms x).
Definition k_set_tls_pending v (x : conn) :=
  mk_sconn (k_fd x) (k_stream x) (k_in x) (k_proto x) (k_secure x) v (k_redirect x) (k_peer_eof x)
    (k_want_close x) (k_dead x) (k_detached x) (k_created_ms x) (k_activity_ms x) (k_timing_head x)
    (k_head_start_ms x).
Definition k_set_peer_eof v (x : conn) :=
  mk_sconn (k_fd x) (k_stream x) (k_in x) (k_proto x) (k_secure x) (k_tls_pending x) (k_redirect x) v
    (k_want_close x) (k_dead x) (k_detached x) (k_created_ms x) (k_activity_ms x) (k_timing_head x)
    (k_head_start_ms x).
Definition k_set_want_close v (x : conn) :=
  mk_sconn (k_fd x) (k_stream x) (k_in x) (k_proto x) (k_secure x) (k_tls_pending x) (k_redirect x)
    (k_peer_eof x) v (k_dead x) (k_detached x) (k_created_ms x) (k_activity_ms x) (k_timing_head x)
    (k_head_start_ms x).
Definition k_set_dead v (x : conn) :=
  mk_sconn (k_fd x) (k_stream x) (k_in x) (k_proto x) (k_secure x) (k_tls_pending x) (k_redirect x)
    (k_peer_eof x) (k_want_close x) v (k_detached x) (k_created_ms x) (k_activity_ms x)
    (k_timing_head x) (k_head_start_ms x).
Definition k_set_detached v (x : conn) :=
  mk_sconn (k_fd x) (k_stream x) (k_in x) (k_proto x) (k_secure x) (k_tls_pending x) (k_redirect x)
    (k_peer_eof x) (k_want_close x) (k_dead x) v (k_created_ms x) (k_activity_ms x) (k_timing_head x)
    (k_head_start_ms x).
Definition k_set_activity_ms v (x : conn) :=
  mk_sconn (k_fd x) (k_stream x) (k_in x) (k_proto x) (k_secure x) (k_tls_pending x) (k_redirect x)
    (k_peer_eof x) (k_want_close x) (k_dead x) (k_detached x) (k_created_ms x) v (k_timing_head x)
    (k_head_start_ms x).
Definition k_set_timing t s (x : conn) :=
  mk_sconn (k_fd x) (k_stream x) (k_in x) (k_proto x) (k_secure x) (k_tls_pending x) (k_redirect x)
    (k_peer_eof x) (k_want_close x) (k_dead x) (k_detached x) (k_created_ms x) (k_activity_ms x) t s.

Definition k_out (c : conn) : zhs_buf :=
  match k_proto c with CONN_UNKNOWN out => out | CONN_H1 h => c_out h | CONN_H2 h => h2_out h end.
Definition k_set_out (out : zhs_buf) (c : conn) : conn :=
  k_set_proto match k_proto c with
    | CONN_UNKNOWN _ => CONN_UNKNOWN out
    | CONN_H1 h => CONN_H1 (set_out out h)
    | CONN_H2 h => CONN_H2 (h2_set_out out h)
    end c.

Definition out_pending (c : conn) : bool := 0 <? ZHS_AVAIL (k_out c).

(** ** Server object

    Descriptors are [None] when invalid; [s_tls] is the context of a server
    that speaks TLS. *)
Record zcio_http_server := mk_srv {
  s_versions : Z;
  s_lim : zhs_limits;
  s_listen_fd : option Z;
  s_redirect_fd : option Z;
  s_h3 : option zh3_srv;
  s_bound_port : Z;
  s_wake : option (Z * Z);
  s_tls : option Z;
  s_tls_owned : bool;
  s_conns : list conn;
  s_cap_conns : Z;
  s_pollset_cap : Z;
  s_stop_flag : bool;
  s_stopping : bool;
  s_stopped : bool;
  s_drain_deadline_ms : Z;
}.

(** The read end of the wake pipe; [poll] skips a negative descriptor. *)
Definition s_wake_r (s : zcio_http_server) : Z := match s_wake s with Some (r, _) => r | None => -1 end.

(** Assignments to one field, or to fields that are set together. *)
Definition s_set_listen_fd v (x : zcio_http_server) :=
  mk_srv (s_versions x) (s_lim x) v (s_redirect_fd x) (s_h3 x) (s_bound_port x) (s_wake x) (s_tls x)
    (s_tls_owned x) (s_conns x) (s_cap_conns x) (s_pollset_cap x) (s_stop_flag x) (s_stopping x)
    (s_stopped x) (s_drain_deadline_ms x).
Definition s_set_redirect_fd v (x : zcio_http_server) :=
  mk_srv (s_versions x) (s_lim x) (s_listen_fd x) v (s_h3 x) (s_bound_port x) (s_wake x) (s_tls x)
    (s_tls_owned x) (s_conns x) (s_cap_conns x) (s_pollset_cap x) (s_stop_flag x) (s_stopping x)
    (s_stopped x) (s_drain_deadline_ms x).
Definition s_set_bound_port v (x : zcio_http_server) :=
  mk_srv (s_versions x) (s_lim x) (s_listen_fd x) (s_redirect_fd x) (s_h3 x) v (s_wake x) (s_tls x)
    (s_tls_owned x) (s_conns x) (s_cap_conns x) (s_pollset_cap x) (s_stop_flag x) (s_stopping x)
    (s_stopped x) (s_drain_deadline_ms x).
Definition s_set_h3 v (x : zcio_http_server) :=
  mk_srv (s_versions x) (s_lim x) (s_listen_fd x) (s_redirect_fd x) v (s_bound_port x) (s_wake x)
    (s_tls x) (s_tls_owned x) (s_conns x) (s_cap_conns x) (s_pollset_cap x) (s_stop_flag x) (s_stopping x)
    (s_stopped x) (s_drain_deadline_ms x).
Definition s_set_wake v (x : zcio_http_server) :=
  mk_srv (s_versions x) (s_lim x) (s_listen_fd x) (s_redirect_fd x) (s_h3 x) (s_bound_port x) v (s_tls x)
    (s_tls_owned x) (s_conns x) (s_cap_conns x) (s_pollset_cap x) (s_stop_flag x) (s_stopping x)
    (s_stopped x) (s_drain_deadline_ms x).
Definition s_set_tls v owned (x : zcio_http_server) :=
  mk_srv (s_versions x) (s_lim x) (s_listen_fd x) (s_redirect_fd x) (s_h3 x) (s_bound_port x) (s_wake x) v
    owned (s_conns x) (s_cap_conns x) (s_pollset_cap x) (s_stop_flag x) (s_stopping x) (s_stopped x)
    (s_drain_deadline_ms x).
Definition s_set_conns v cap (x : zcio_http_server) :=
  mk_srv (s_versions x) (s_lim x) (s_listen_fd x) (s_redirect_fd x) (s_h3 x) (s_bound_port x) (s_wake x)
    (s_tls x) (s_tls_owned x) v cap (s_pollset_cap x) (s_stop_flag x) (s_stopping x) (s_stopped x)
    (s_drain_deadline_ms x).
Definition s_set_pollset_cap v (x : zcio_http_server) :=
  mk_srv (s_versions x) (s_lim x) (s_listen_fd x) (s_redirect_fd x) (s_h3 x) (s_bound_port x) (s_wake x)
    (s_tls x) (s_tls_owned x) (s_conns x) (s_cap_conns x) v (s_stop_flag x) (s_stopping x) (s_stopped x)
    (s_drain_deadline_ms x).
Definition s_set_stop_flag v (x : zcio_http_server) :=
  mk_srv (s_versions x) (s_lim x) (s_listen_fd x) (s_redirect_fd x) (s_h3 x) (s_bound_port x) (s_wake x)
    (s_tls x) (s_tls_owned x) (s_conns x) (s_cap_conns x) (s_pollset_cap x) v (s_stopping x) (s_stopped x)
    (s_drain_deadline_ms x).
Definition s_set_stopped v (x : zcio_http_server) :=
  mk_srv (s_versions x) (s_lim x) (s_listen_fd x) (s_redirect_fd x) (s_h3 x) (s_bound_port x) (s_wake x)
    (s_tls x) (s_tls_owned x) (s_conns x) (s_cap_conns x) (s_pollset_cap x) (s_stop_flag x) (s_stopping x) v
    (s_drain_deadline_ms x).
Definition s_set_stopping deadline (x : zcio_http_server) :=
  mk_srv (s_versions x) (s_lim x) (s_listen_fd x) (s_redirect_fd x) (s_h3 x) (s_bound_port x) (s_wake x)
    (s_tls x) (s_tls_owned x) (s_conns x) (s_cap_conns x) (s_pollset_cap x) (s_stop_flag x) true
    (s_stopped x) deadline.

(** The smaller timeout; a negative one is no bound. *)
Definition to_min (cur cand : Z) : Z :=
  if cand <? 0 then cur else if cur <? 0 then cand else if cand <? cur then cand else cur.

(** ** The outside world *)

Inductive accepted := Accepted (fd : Z) | Interrupted | WouldBlock.

(** Sockets, TLS, the clock, and [poll], over an abstract state [W].  Streams
    and descriptors are named by numbers.  [accept_backlog] bounds the accepts
    that can succeed or be interrupted before the queue is drained. *)
Class Net (W : Type) := {
  zcio_now_ms_ : W → W * Z;
  sock_accept : W → Z → W * accepted;
  accept_backlog : W → Z → nat;
  closesocket : W → Z → W;
  tcp_stream_from_fd : W → Z → W * option Z;
  tls_wrap_nb : W → Z → Z → W * option Z;
  tls_handshake : W → Z → W * Z;
  tls_alpn : W → Z → option bytes;
  stream_read : W → Z → Z → W * Z * bytes;
  stream_write : W → Z → bytes → W * Z;
  upgrade_write : W → Z → bytes → bool;
  stream_free : W → Z → W;
  sock_poll : W → list (Z * Z) → Z → W * Z * list Z;
  wake_drain : W → Z → W;
  wake_poke : W → option (Z * Z) → W;
}.

Section Server.
Context `{Allocator} `{Server} {W : Type} `{Net W} `{Quic W}.

(** ** Connection lifecycle *)

Definition conn_free (w : W) (c : conn) : W :=
  match k_stream c with Some s => stream_free w s | None => w end.

Definition server_add_conn (srv : zcio_http_server) (c : conn) : Z * zcio_http_server :=
  if zlen (s_conns srv) =? s_cap_conns srv then
    let ncap := if s_cap_conns srv =? 0 then 16 else s_cap_conns srv * 2 in
    if negb (alloc_ok (ncap * 8)) then (ZCIO_ERR_NOMEM, srv)
    else (ZCIO_OK, s_set_conns (s_conns srv ++ [c]) ncap srv)
  else (ZCIO_OK, s_set_conns (s_conns srv ++ [c]) (s_cap_conns srv) srv).

(** A new connection; the stream a TLS listener wraps it in. *)
Definition conn_create (w : W) (srv : zcio_http_server) (fd : Z) (redirect : bool) : W * zcio_http_server * bool :=
  if negb (zcio_xcalloc_ok 1 152) then (closesocket w fd, srv, false)
  else
    let '(w, now) := zcio_now_ms_ w in
    let '(w, plain) := tcp_stream_from_fd w fd in
    match plain with
    | None => (closesocket w fd, srv, false)
    | Some plain =>
        let c := mk_sconn fd (Some plain) buf_empty (CONN_UNKNOWN buf_empty) false false redirect false false
                   false false now now false now in
        let '(w, c, ok) :=
          if redirect then
            match zh1_new_ (s_lim srv) ZH1_F_REDIRECT buf_empty with
            | None => (w, c, false)
            | Some h => (w, k_set_proto (CONN_H1 h) c, true)
            end
          else match s_tls srv with
          | Some ctx =>
              let '(w, o) := tls_wrap_nb w ctx plain in
              match o with
              | None => (w, c, false)
              | Some s => (w, mk_sconn fd (Some s) buf_empty (CONN_UNKNOWN buf_empty) true true redirect false
                              false false false now now false now, true)
              end
          | None => (w, c, true)
          end in
        if negb ok then (conn_free w c, srv, false)
        else
          let '(r, srv) := server_add_conn srv c in
          if negb (r =? ZCIO_OK) then (conn_free w c, srv, false) else (w, srv, true)
    end.

Definition secure_flag (c : conn) : Z := if k_secure c then ZH1_F_SECURE else 0.

(** The HTTP/1.1 or HTTP/2 object of a connection, or a dead connection. *)
Definition choose_h1 (srv : zcio_http_server) (c : conn) : conn :=
  if negb (has_version (s_versions srv) ZCIO_HTTP1_1) then k_set_dead true c
  else match zh1_new_ (s_lim srv) (secure_flag c) (k_out c) with
       | None => k_set_dead true c
       | Some h => k_set_proto (CONN_H1 h) c
       end.

Definition new_h2 (srv : zcio_http_server) (c : conn) : conn :=
  match zh2_new_ (s_lim srv) (k_secure c) (k_out c) with
  | None => k_set_dead true c
  | Some h => k_set_proto (CONN_H2 h) c
  end.

Definition conn_select_proto_tls (w : W) (srv : zcio_http_server) (c : conn) : conn :=
  let alpn := match k_stream c with Some s => tls_alpn w s | None => None end in
  if bool_decide (alpn = Some (B "h2")) then
    if negb (has_version (s_versions srv) ZCIO_HTTP2) then k_set_dead true c else new_h2 srv c
  else choose_h1 srv c.

(** The flag: a protocol is chosen, or the connection is dead. *)
Definition conn_select_proto_plain (srv : zcio_http_server) (c : conn) : bool * conn :=
  let avail := ZHS_AVAIL (k_in c) in
  if avail =? 0 then (false, c)
  else
    let look := if avail <? H2_PREFACE_LEN then avail else H2_PREFACE_LEN in
    if has_version (s_versions srv) ZCIO_HTTP2 &&
       bool_decide (ztake look (buf_contents (k_in c)) = ztake look H2_PREFACE) then
      if avail <? H2_PREFACE_LEN then (false, c) else (true, new_h2 srv c)
    else (true, choose_h1 srv c).

Definition conn_update_head_timing (c : conn) (now : Z) : conn :=
  match k_proto c with
  | CONN_H1 h =>
      if zh1_receiving_ h then (if negb (k_timing_head c) then k_set_timing true now c else c)
      else k_set_timing false (k_head_start_ms c) c
  | _ => k_set_timing false (k_head_start_ms c) c
  end.

(** ** One connection's slice of an iteration *)

Definition conn_feed (w : W) (srv : zcio_http_server) (c : conn) (work : Z) : exec (conn * Z) :=
  let '(chosen, c) := match k_proto c with
    | CONN_UNKNOWN _ => conn_select_proto_plain srv c
    | _ => (true, c) end in
  if negb chosen then Ok (c, work)
  else if k_dead c then Ok (c, work)
  else match k_proto c with
  | CONN_H1 h =>
      let write_ok p := match k_stream c with Some s => upgrade_write w s p | None => false end in
      '(r, h, input) ← zh1_feed_ write_ok h (k_in c);
      let c := k_set_in input (k_set_proto (CONN_H1 h) c) in
      Ok (if r =? ZH1_NEED_MORE then (c, work)
          else if r =? ZH1_DISPATCHED then (c, work + 1)
          else if r =? ZH1_CLOSE then (k_set_want_close true c, work)
          else if r =? ZH1_DETACHED then (k_set_dead true (k_set_detached true (k_set_stream None c)), work)
          else (k_set_dead true c, work))
  | CONN_H2 h =>
      '(r, h, input) ← zh2_feed_ h (k_in c);
      let c := k_set_in input (k_set_proto (CONN_H2 h) c) in
      if r <? 0 then Ok (k_set_dead true c, work)
      else
        let c := if r =? ZH2_CLOSING then k_set_want_close true c else c in
        h ← zh2_pump_ h;
        Ok (k_set_proto (CONN_H2 h) c, work + 1)
  | CONN_UNKNOWN _ => Ok (c, work)
  end.

(** [zcio_write] and [zcio_read] refuse a NULL stream. *)
Definition k_write (w : W) (c : conn) (p : bytes) : W * Z :=
  match k_stream c with Some s => stream_write w s p | None => (w, ZCIO_ERR_INVALID_ARG) end.
Definition k_read (w : W) (c : conn) (n : Z) : W * Z * bytes :=
  match k_stream c with Some s => stream_read w s n | None => (w, ZCIO_ERR_INVALID_ARG, []) end.

Fixpoint flush_loop (fuel : nat) (w : W) (c : conn) (now work : Z) : exec (W * conn * Z) :=
  match fuel with
  | O => OutOfFuel
  | S fuel =>
      if ZHS_AVAIL (k_out c) =? 0 then Ok (w, c, work)
      else
        let '(w, r) := k_write w c (buf_contents (k_out c)) in
        if 0 <? r then
          flush_loop fuel w (k_set_activity_ms now (k_set_out (zhs_buf_consume_ (k_out c) r) c)) now (work + 1)
        else if r =? ZCIO_ERR_WOULDBLOCK then Ok (w, c, work)
        else Ok (w, k_set_dead true c, work)
  end.

(** Each turn sends a byte or ends. *)
Definition conn_flush (w : W) (c : conn) (now work : Z) : exec (W * conn * Z) :=
  flush_loop (S (Z.to_nat (ZHS_AVAIL (k_out c)))) w c now work.

(** The handshake, or what the socket has to read. *)
Definition conn_input (w : W) (srv : zcio_http_server) (c : conn) (revents now work : Z) : W * conn * Z :=
  if k_tls_pending c then
    if ready revents (Z.lor POLLIN POLLOUT) then
      let '(w, hr) := match k_stream c with Some s => tls_handshake w s | None => (w, ZCIO_ERR_INVALID_ARG) end in
      if hr =? ZCIO_OK then
        (w, conn_select_proto_tls w srv (k_set_activity_ms now (k_set_tls_pending false c)), work)
      else if negb (hr =? ZCIO_ERR_WOULDBLOCK) then (w, k_set_dead true c, work)
      else (w, c, work)
    else (w, c, work)
  else if ready revents POLLIN then
    let '(w, r, d) := k_read w c READ_SCRATCH in
    if 0 <? r then
      let '(e, input) := zhs_buf_append_ (k_in c) (ztake r d) in
      if negb (e =? ZCIO_OK) then (w, k_set_dead true (k_set_in input c), work)
      else (w, k_set_activity_ms now (k_set_in input c), work + 1)
    else if (r =? 0) || negb (r =? ZCIO_ERR_WOULDBLOCK) then (w, k_set_peer_eof true c, work)
    else (w, c, work)
  else (w, c, work).

Definition conn_close_decisions (c : conn) : conn :=
  if k_detached c then c
  else
    let c := if k_want_close c && negb (out_pending c) then k_set_dead true c else c in
    if k_peer_eof c then (if negb (out_pending c) then k_set_dead true c else k_set_want_close true c)
    else c.

Definition conn_process (w : W) (srv : zcio_http_server) (c : conn) (revents work : Z) : exec (W * conn * Z) :=
  let '(w, now) := zcio_now_ms_ w in
  let c := if ready revents (Z.lor POLLERR POLLNVAL) then k_set_peer_eof true c else c in
  let '(w, c, work) := conn_input w srv c revents now work in
  '(c, work) ← (if negb (k_dead c) && negb (k_tls_pending c) then
                  '(c, work) ← conn_feed w srv c work; Ok (conn_update_head_timing c now, work)
                else Ok (c, work));
  c ← (match k_proto c with
       | CONN_H2 h => if negb (k_dead c) && ready revents POLLOUT then
                        h ← zh2_pump_ h; Ok (k_set_proto (CONN_H2 h) c)
                      else Ok c
       | _ => Ok c
       end);
  '(w, c, work) ← (if negb (k_dead c) && out_pending c then conn_flush w c now work else Ok (w, c, work));
  Ok (w, conn_close_decisions c, work).

(** ** Deadlines *)

Definition conn_deadline_ms (L : zhs_limits) (c : conn) : Z :=
  let idle := u64 (k_activity_ms c + u64 (idle_timeout_ms L)) in
  if k_dead c then UINT64_MAX
  else
    let unknown := match k_proto c with CONN_UNKNOWN _ => true | _ => false end in
    if k_tls_pending c || unknown then u64 (k_created_ms c + u64 (header_timeout_ms L))
    else if out_pending c then u64 (k_activity_ms c + u64 (write_timeout_ms L))
    else match k_proto c with
    | CONN_H1 h =>
        if zh1_receiving_ h then
          u64 (k_head_start_ms c +
               (if zh1_mid_headers_ h then u64 (header_timeout_ms L) else u64 (idle_timeout_ms L)))
        else idle
    | _ => idle
    end.

Definition conn_drained (c : conn) : bool :=
  if out_pending c then false
  else match k_proto c with
  | CONN_H1 h => zh1_idle_ h
  | CONN_H2 h => zh2_idle_ (Some h)
  | CONN_UNKNOWN _ => true
  end.

Definition server_remove_dead (w : W) (srv : zcio_http_server) : W * zcio_http_server :=
  (fold_left conn_free (List.filter k_dead (s_conns srv)) w,
   s_set_conns (List.filter (λ c, negb (k_dead c)) (s_conns srv)) (s_cap_conns srv) srv).

(** ** Accepting *)

Fixpoint accept_turns (fuel : nat) (w : W) (srv : zcio_http_server) (lfd : Z) (redirect : bool) (work : Z)
  : exec (W * zcio_http_server * Z) :=
  match fuel with
  | O => OutOfFuel
  | S fuel =>
      let '(w, a) := sock_accept w lfd in
      match a with
      | WouldBlock => Ok (w, srv, work)
      | Interrupted => accept_turns fuel w srv lfd redirect work
      | Accepted cfd =>
          if max_connections (s_lim srv) <=? zlen (s_conns srv) then
            accept_turns fuel (closesocket w cfd) srv lfd redirect work
          else
            let '(w, srv, ok) := conn_create w srv cfd redirect in
            accept_turns fuel w srv lfd redirect (if ok then work + 1 else work)
      end
  end.

Definition accept_loop (w : W) (srv : zcio_http_server) (lfd : Z) (redirect : bool) (work : Z)
  : exec (W * zcio_http_server * Z) :=
  accept_turns (S (accept_backlog w lfd)) w srv lfd redirect work.

(** ** Graceful stop *)

Definition graceful (c : conn) : conn :=
  match k_proto c with
  | CONN_H1 h => k_set_proto (CONN_H1 (zh1_graceful_ h)) c
  | CONN_H2 h => k_set_proto (CONN_H2 (zh2_graceful_ h)) c
  | CONN_UNKNOWN _ => c
  end.

Definition close_opt (w : W) (fd : option Z) : W := match fd with Some fd => closesocket w fd | None => w end.

Definition begin_stop (w : W) (s : zcio_http_server) : W * zcio_http_server :=
  let w := close_opt (close_opt w (s_listen_fd s)) (s_redirect_fd s) in
  let '(w, h3) := match s_h3 s with
    | Some h => let '(w, h) := zh3_graceful_ h w in (w, Some h)
    | None => (w, None) end in
  let '(w, now) := zcio_now_ms_ w in
  (w, s_set_stopping (u64 (now + u64 (drain_timeout_ms (s_lim s))))
        (s_set_conns (map graceful (s_conns s)) (s_cap_conns s)
           (s_set_h3 h3 (s_set_redirect_fd None (s_set_listen_fd None s))))).

(** ** Event loop *)

(** [while (ncap < need) ncap *= 2], on [size_t]. *)
Fixpoint pollset_grow (fuel : nat) (ncap need : Z) : exec Z :=
  match fuel with
  | O => OutOfFuel
  | S fuel => if ncap <? need then pollset_grow fuel (u64 (ncap * 2)) need else Ok ncap
  end.

Definition ensure_pollset (srv : zcio_http_server) (need : Z) : exec (Z * zcio_http_server) :=
  if need <=? s_pollset_cap srv then Ok (ZCIO_OK, srv)
  else
    ncap ← pollset_grow 64 (if s_pollset_cap srv =? 0 then 16 else s_pollset_cap srv) need;
    Ok (if alloc_ok (u64 (ncap * 8)) then (ZCIO_OK, s_set_pollset_cap ncap srv) else (ZCIO_ERR_NOMEM, srv)).

(** The special descriptors, in the order of the poll set. *)
Definition poll_listen (s : zcio_http_server) : option Z := if s_stopping s then None else s_listen_fd s.
Definition poll_redirect (s : zcio_http_server) : option Z := if s_stopping s then None else s_redirect_fd s.

Definition special_fds (s : zcio_http_server) : list Z :=
  option_list (poll_listen s) ++ option_list (poll_redirect s) ++ [s_wake_r s] ++
  option_list (option_map (λ h, zh3_fd_ (Some h)) (s_h3 s)).

Definition conn_entry (c : conn) : Z * Z :=
  (k_fd c, Z.lor POLLIN (if out_pending c || k_tls_pending c then POLLOUT else 0)).

Definition pollset (s : zcio_http_server) : list (Z * Z) :=
  map (λ fd, (fd, POLLIN)) (special_fds s) ++ map conn_entry (s_conns s).

(** The earliest deadline of all, and the timeout of the call. *)
Definition earliest (s : zcio_http_server) : Z :=
  let dl := fold_left (λ dl c, let cd := conn_deadline_ms (s_lim s) c in if cd <? dl then cd else dl)
              (s_conns s) UINT64_MAX in
  if s_stopping s && (s_drain_deadline_ms s <? dl) then s_drain_deadline_ms s else dl.

Definition poll_timeout (w : W) (s : zcio_http_server) (now timeout_ms : Z) : Z :=
  let dl := earliest s in
  let to := if negb (dl =? UINT64_MAX) then
              let d := i64 (dl - now) in
              let d := if d <? 0 then 0 else d in
              to_min timeout_ms (if INT32_MAX <? d then INT32_MAX else d)
            else timeout_ms in
  match s_h3 s with Some h => to_min to (zh3_timeout_ms_ (Some h) w) | None => to end.

Definition revents_at (evs : list Z) (i : nat) : Z := nth i evs 0.

(** Drain the wake pipe and accept. *)
Definition service_special (w : W) (s : zcio_http_server) (rc : Z) (evs : list Z) : exec (W * zcio_http_server * Z) :=
  if 0 <? rc then
    let idx_redirect := length (option_list (poll_listen s)) in
    let idx_wake := (idx_redirect + length (option_list (poll_redirect s)))%nat in
    let w := if ready (revents_at evs idx_wake) POLLIN then wake_drain w (s_wake_r s) else w in
    let accepts i := ready (revents_at evs i) (Z.lor POLLIN POLLERR) in
    let redirect := poll_redirect s in
    '(w, s, work) ← (match poll_listen s with
                     | Some fd => if accepts 0%nat then accept_loop w s fd false 0 else Ok (w, s, 0)
                     | None => Ok (w, s, 0) end);
    match redirect with
    | Some fd => if accepts idx_redirect then accept_loop w s fd true work else Ok (w, s, work)
    | None => Ok (w, s, work)
    end
  else Ok (w, s, 0).

Definition service_h3 (w : W) (s : zcio_http_server) (work : Z) : exec (W * zcio_http_server * Z) :=
  match s_h3 s with
  | None => Ok (w, s, work)
  | Some h =>
      '(w, h, r) ← zh3_process_ h w;
      Ok (if r <? 0 then (zh3_free_ h w, s_set_h3 None s, work) else (w, s_set_h3 (Some h) s, work + 1))
  end.

(** The connections of the poll set, each with its events. *)
Fixpoint process_conns (w : W) (srv : zcio_http_server) (cs : list conn) (evs : list Z) (work : Z)
  : exec (W * list conn * Z) :=
  match cs with
  | [] => Ok (w, [], work)
  | c :: cs =>
      '(w, c, work) ← conn_process w srv c (revents_at evs 0) work;
      '(w, cs, work) ← process_conns w srv cs (tail evs) work;
      Ok (w, c :: cs, work)
  end.

Definition expire (L : zhs_limits) (now : Z) (c : conn) : conn :=
  if negb (k_dead c) && (conn_deadline_ms L c <=? now) then k_set_dead true c else c.

(** Drain bookkeeping, on every connection. *)
Definition drain (s : zcio_http_server) (now : Z) (c : conn) : conn :=
  if s_stopping s then
    let c := if conn_drained c then k_set_dead true c else c in
    if s_drain_deadline_ms s <=? now then k_set_dead true c else c
  else c.

(** The call with a server that is not stopped, once stopping has begun. *)
Definition poll_once (w : W) (s : zcio_http_server) (timeout_ms : Z) : exec (W * zcio_http_server * Z) :=
  let nc := length (s_conns s) in
  '(r, s) ← ensure_pollset s (Z.of_nat nc + 4);
  if negb (r =? ZCIO_OK) then Ok (w, s, ZCIO_ERR_NOMEM)
  else
    let '(w, now) := zcio_now_ms_ w in
    let '(w, rc, evs) := sock_poll w (pollset s) (poll_timeout w s now timeout_ms) in
    if rc <? 0 then Ok (w, s, ZCIO_ERR)
    else
      let nspecial := length (special_fds s) in
      let '(w, now) := zcio_now_ms_ w in
      '(w, s, work) ← service_special w s rc evs;
      '(w, s, work) ← service_h3 w s work;
      '(w, cs, work) ← process_conns w s (take nc (s_conns s)) (if 0 <? rc then drop nspecial evs else []) work;
      let cs := map (expire (s_lim s) now) cs ++ drop nc (s_conns s) in
      let '(w, s) := server_remove_dead w (s_set_conns (map (drain s now) cs) (s_cap_conns s) s) in
      if s_stopping s && (zlen (s_conns s) =? 0) && zh3_idle_ (s_h3 s)
      then Ok (w, s_set_stopped true s, ZCIO_ERR_EOF)
      else Ok (w, s, if 0 <? work then work else 0).

Definition zcio_http_server_poll (w : W) (s : zcio_http_server) (timeout_ms : Z) : exec (W * zcio_http_server * Z) :=
  if s_stopped s then Ok (w, s, ZCIO_ERR_EOF)
  else
    let '(w, s) := if s_stop_flag s && negb (s_stopping s) then begin_stop w s else (w, s) in
    poll_once w s timeout_ms.

Definition zcio_http_server_stop (w : W) (s : zcio_http_server) : W * zcio_http_server :=
  (wake_poke w (s_wake s), s_set_stop_flag true s).

(** [for (;;)]: [fuel] polls. *)
Fixpoint zcio_http_server_run (fuel : nat) (w : W) (s : zcio_http_server) : exec (W * zcio_http_server * Z) :=
  match fuel with
  | O => OutOfFuel
  | S fuel =>
      '(w, s, r) ← zcio_http_server_poll w s (-1);
      if r =? ZCIO_ERR_EOF then Ok (w, s, ZCIO_OK)
      else if r <? 0 then Ok (w, s, r)
      else zcio_http_server_run fuel w s
  end.
End Server.

(** ** Start and free *)

(** The part of the configuration the core reads; [host], [hsts] and the port
    a response advertises are in the class [Server]. *)
Record zcio_http_server_config := mk_config {
  cfg_port : Z;
  cfg_bind_host : option bytes;
  cfg_versions : Z;
  cfg_tls : option Z;
  cfg_cert_file : option bytes;
  cfg_key_file : option bytes;
  cfg_require_tls : bool;
  cfg_redirect_port : Z;
  cfg_host : option bytes;
  cfg_reuse_addr : bool;
  cfg_limits : zhs_limits;
}.

(** Sockets and contexts at start: a listener with its bound port, the wake
    pipe, TLS contexts, and for [zh3_new_] a QUIC context with its key material
    (from the files, or self-signed), [h3_udp_bind] (in [Listen]) and a
    listening QUIC object on that socket. *)
Class Boot (W : Type) := {
  make_listener : W → option bytes → Z → bool → W * option (Z * Z);
  make_wake : W → W * option (Z * Z);
  free_wake : W → option (Z * Z) → W;
  tls_server_ctx_files : W → bytes → bytes → W * option Z;
  tls_server_ctx : W → W * option Z;
  tls_ctx_set_alpn : W → Z → list bytes → W;
  tls_ctx_free : W → Z → W;
  quic_ctx : W → option (bytes * bytes) → W * option Z;
  quic_bind : W → Z → W * option Z;
  quic_listener : W → Z → Z → W * option Z;
}.

Section Start.
Context `{Allocator} {W : Type} `{Net W} `{Quic W} `{Boot W}.

Definition zcio_http_server_free (w : W) (s : zcio_http_server) : W :=
  let w := fold_left conn_free (s_conns s) w in
  let w := match s_h3 s with Some h => zh3_free_ h w | None => w end in
  let w := free_wake (close_opt (close_opt w (s_listen_fd s)) (s_redirect_fd s)) (s_wake s) in
  match s_tls s with Some t => if s_tls_owned s then tls_ctx_free w t else w | None => w end.

(** The protocols offered over TLS, by preference. *)
Definition alpn_offer (versions : Z) : list bytes :=
  (if has_version versions ZCIO_HTTP2 then [B "h2"] else []) ++
  (if has_version versions ZCIO_HTTP1_1 then [B "http/1.1"] else []).

Definition resolve_tls (w : W) (cfg : option zcio_http_server_config) (s : zcio_http_server) : W * Z * zcio_http_server :=
  let cert := cfg ≫= cfg_cert_file in
  let key := cfg ≫= cfg_key_file in
  let '(w, r, s) := match cfg ≫= cfg_tls with
    | Some t => (w, ZCIO_OK, s_set_tls (Some t) false s)
    | None =>
        let owned o := match o with Some t => (ZCIO_OK, s_set_tls (Some t) true s) | None => (ZCIO_ERR_TLS, s) end in
        match cert, key with
        | Some cert, Some key => let '(w, o) := tls_server_ctx_files w cert key in (w, (owned o).1, (owned o).2)
        | _, _ =>
            if match cfg with Some c => cfg_require_tls c | None => false end || has_version (s_versions s) ZCIO_HTTP3 then
              let '(w, o) := tls_server_ctx w in (w, (owned o).1, (owned o).2)
            else (w, ZCIO_OK, s)
        end
    end in
  if negb (r =? ZCIO_OK) then (w, r, s)
  else
    let w := match s_tls s, alpn_offer (s_versions s) with
      | Some t, _ :: _ => tls_ctx_set_alpn w t (alpn_offer (s_versions s))
      | _, _ => w
      end in
    (w, ZCIO_OK, s).

(** [zh3_new_]; [None]: failed, with everything it made released. *)
Definition zh3_new_ (w : W) (cfg : option zcio_http_server_config) (s : zcio_http_server) : W * option zh3_srv :=
  match cfg with
  | None => (w, None)
  | Some c =>
      let files := match cfg_cert_file c, cfg_key_file c with Some cert, Some key => Some (cert, key) | _, _ => None end in
      let '(w, ctx) := quic_ctx w files in
      match ctx with
      | None => (w, None)
      | Some ctx =>
          let '(w, fd) := quic_bind w (s_bound_port s) in
          match fd with
          | None => (ssl_ctx_free w ctx, None)
          | Some fd =>
              let '(w, l) := quic_listener w ctx fd in
              match l with
              | None => (ssl_ctx_free (udp_close w fd) ctx, None)
              | Some l =>
                  if zcio_xcalloc_ok 1 160 then (w, Some (mk_srv3 ctx fd l (s_lim s) [] 0 false))
                  else (ssl_ctx_free (udp_close (ssl_free w l) fd) ctx, None)
              end
          end
      end
  end.

Definition dup_ok (o : option bytes) : bool :=
  match o with Some _ => bool_decide (zcio_strdup_ o ≠ None) | None => true end.

(** The strings the server keeps copies of. *)
Definition strings_ok (cfg : option zcio_http_server_config) : bool :=
  match cfg with
  | None => true
  | Some c => dup_ok (cfg_host c) && dup_ok (cfg_bind_host c) && dup_ok (cfg_cert_file c) && dup_ok (cfg_key_file c)
  end.

Definition start_listeners (w : W) (cfg : option zcio_http_server_config) (s : zcio_http_server)
  : W * bool * zcio_http_server :=
  let bind_host := cfg ≫= cfg_bind_host in
  let reuse := match cfg with Some c => cfg_reuse_addr c | None => false end in
  let port := match cfg with Some c => cfg_port c | None => 0 end in
  let rport := match cfg with Some c => cfg_redirect_port c | None => 0 end in
  let '(w, l) := make_listener w bind_host port reuse in
  match l with
  | None => (w, false, s)
  | Some (fd, bound) =>
      let s := s_set_bound_port bound (s_set_listen_fd (Some fd) s) in
      if 0 <? rport then
        let '(w, l) := make_listener w bind_host rport reuse in
        match l with
        | None => (w, false, s)
        | Some (fd, _) => (w, true, s_set_redirect_fd (Some fd) s)
        end
      else (w, true, s)
  end.

(** The handler is given; the goto's target frees what was acquired. *)
Definition zcio_http_server_start (w : W) (cfg : option zcio_http_server_config) : W * option zcio_http_server :=
  if negb (zcio_xcalloc_ok 1 560) then (w, None)
  else
    let versions := match cfg with Some c => if cfg_versions c =? 0 then ZCIO_HTTP1_1 else cfg_versions c
                              | None => ZCIO_HTTP1_1 end in
    let s := mk_srv versions (zhs_limits_resolve_ (option_map cfg_limits cfg)) None None None 0 None None false
               [] 0 0 false false false 0 in
    let fail w s := (zcio_http_server_free w s, None) in
    if negb (strings_ok cfg) then fail w s
    else
      let '(w, r, s) := resolve_tls w cfg s in
      if negb (r =? ZCIO_OK) then fail w s
      else
        let '(w, p) := make_wake w in
        match p with
        | None => fail w s
        | Some p =>
            let s := s_set_wake (Some p) s in
            let '(w, ok, s) := start_listeners w cfg s in
            if negb ok then fail w s
            else if has_version (s_versions s) ZCIO_HTTP3 then
              let '(w, h) := zh3_new_ w cfg s in
              match h with
              | None => fail w s
              | Some h => (w, Some (s_set_h3 (Some h) s))
              end
            else (w, Some s)
        end.
End Start.
