(* ===== verification/ServerSafe.v ===== *)
(** * ServerSafe: every iteration of the event loop, on any network

    Whatever sockets, TLS and the QUIC engine deliver, a poll returns, keeps
    the connection table within its cap and every connection in a state its
    protocol can go on from, and hands to the handler only requests that passed
    the checks of their protocol ([request_checked]); the connections that are
    left are some of those there were, after their turn, and those accepted. *)
From stdpp Require Import base tactics list option strings.
From Stdlib Require Import ZArith Lia.
From S2P Require Import Prelude Types Buf HttpUtil Respond H1 H1Safe H2 H2Safe H2Run H3 H3Safe Server.

(** ** Invariants *)

(** What the code relies on: a read fills at most the buffer, a write reports
    no more than it was given, the monotonic clock fits [int64_t], and a
    listener's queue is finite: the other calls of the accept loop do not
    refill it. *)
Class NetOk (W : Type) `{Net W} := {
  recv_fits : ∀ w s n w' r d, 0 ≤ n → stream_read w s n = (w', r, d) → 0 < r → zlen d = r ∧ r ≤ n ∧ is_bytes d;
  send_fits : ∀ w s p w' r, stream_write w s p = (w', r) → r ≤ zlen p;
  clock_range : ∀ w, 0 ≤ (zcio_now_ms_ w).2 < 2 ^ 63;
  accept_ends : ∀ w fd w' a, sock_accept w fd = (w', a) → a ≠ WouldBlock →
    (accept_backlog w' fd < accept_backlog w fd)%nat;
  backlog_now : ∀ w fd, (accept_backlog (zcio_now_ms_ w).1 fd ≤ accept_backlog w fd)%nat;
  backlog_close : ∀ w s fd, (accept_backlog (closesocket w s) fd ≤ accept_backlog w fd)%nat;
  backlog_stream : ∀ w s fd, (accept_backlog (tcp_stream_from_fd w s).1 fd ≤ accept_backlog w fd)%nat;
  backlog_wrap : ∀ w t s fd, (accept_backlog (tls_wrap_nb w t s).1 fd ≤ accept_backlog w fd)%nat;
  backlog_free : ∀ w s fd, (accept_backlog (stream_free w s) fd ≤ accept_backlog w fd)%nat;
}.

Definition srv_lims_ok (l : zhs_limits) : Prop := h3_lims_ok l ∧ max_connections l < 2 ^ 32.

Definition proto_ok (lim : zhs_limits) (p : conn_proto) : Prop :=
  match p with
  | CONN_UNKNOWN out => buf_wf out
  | CONN_H1 h => conn_base h ∧ conn_state h ∧ c_lim h = lim
  | CONN_H2 h => h2_good h ∧ h2_lim h = lim
  end.

(** A connection the loop still serves. *)
Definition conn_live (lim : zhs_limits) (c : conn) : Prop :=
  buf_wf (k_in c) ∧ proto_ok lim (k_proto c) ∧
  (k_tls_pending c = true → ∃ out, k_proto c = CONN_UNKNOWN out) ∧
  match k_proto c with CONN_H1 _ => True | _ => is_bytes (buf_contents (k_in c)) end.

Definition conn_ok (lim : zhs_limits) (c : conn) : Prop := k_dead c = false → conn_live lim c.

Record srv_ok (s : zcio_http_server) : Prop := {
  sv_lims : srv_lims_ok (s_lim s);
  sv_conns : Forall (λ c, k_dead c = false ∧ conn_live (s_lim s) c) (s_conns s);
  sv_count : zlen (s_conns s) ≤ max_connections (s_lim s);
  sv_cap : zlen (s_conns s) ≤ s_cap_conns s;
  sv_h3 : ∀ h, s_h3 s = Some h → srv3_ok h ∧ v3_lim h = s_lim s;
  sv_pollset : 0 ≤ s_pollset_cap s;
  sv_drain : 0 ≤ s_drain_deadline_ms s;
  sv_stopped : s_stopped s = true → s_conns s = [];
}.

Lemma lims_h2 l : srv_lims_ok l → h2_lims_ok l.
Proof. intros ((H1 & H2 & _) & _). by split. Qed.

Lemma lims_h1 l : srv_lims_ok l → lims_ok l.
Proof. by intros ((H1 & _) & _). Qed.

Lemma out_wf lim c : conn_live lim c → buf_wf (k_out c).
Proof.
  intros (_ & Hp & _). unfold k_out. destruct (k_proto c) as [out|h|h]; cbn in Hp; [done|apply Hp|].
  apply (hb_out h), Hp.
Qed.

(** Assignments that keep a connection live. *)
Lemma live_ext lim c c' : k_in c' = k_in c → k_proto c' = k_proto c → (k_tls_pending c' = true → k_tls_pending c = true) →
  conn_live lim c → conn_live lim c'.
Proof. unfold conn_live. intros -> -> ?. tauto. Qed.

Lemma ok_dead lim c : k_dead c = true → conn_ok lim c.
Proof. unfold conn_ok. congruence. Qed.

Lemma ok_of_live lim c : conn_live lim c → conn_ok lim c.
Proof. by intros ? _. Qed.

(** ** Choosing a protocol *)

Section Select.
Context `{Allocator}.

Lemma h1_new_ok lim flags out h : lims_ok lim → buf_wf out → zh1_new_ lim flags out = Some h →
  proto_ok lim (CONN_H1 h).
Proof.
  intros Hl Ho. unfold zh1_new_. destruct (zcio_xcalloc_ok 1 512); intros [= <-]. cbn. split; [|done].
  unfold conn_base. cbn. split; [done|]. split; [done|]. split; [apply buf_empty_wf|].
  unfold lims_ok in Hl. split; [lia|]. split; [apply hdrs_empty_wf; lia|]. split; [constructor|lia].
Qed.

Lemma choose_h1_ok srv c : srv_lims_ok (s_lim srv) → conn_live (s_lim srv) c → k_tls_pending c = false →
  conn_ok (s_lim srv) (choose_h1 srv c).
Proof.
  intros Hl Hc Ht. unfold choose_h1. destruct (negb _); [by apply ok_dead|].
  destruct (zh1_new_ _ _ _) as [h|] eqn:E; [|by apply ok_dead].
  apply h1_new_ok in E; [|by apply lims_h1|by eapply out_wf]. apply ok_of_live.
  split; [apply Hc|]. split; [done|]. by split; [cbn; congruence|].
Qed.

Lemma new_h2_ok srv c : srv_lims_ok (s_lim srv) → conn_live (s_lim srv) c → k_tls_pending c = false → is_bytes (buf_contents (k_in c)) →
  conn_ok (s_lim srv) (new_h2 srv c).
Proof.
  intros Hl Hc Ht Hb. unfold new_h2. destruct (zh2_new_ _ _ _) as [h|] eqn:E; [|by apply ok_dead].
  apply new_good in E; [|by apply lims_h2|by eapply out_wf]. apply ok_of_live.
  split; [apply Hc|]. split; [done|]. by split; [cbn; congruence|].
Qed.

Lemma select_plain_ok srv c : srv_lims_ok (s_lim srv) → conn_live (s_lim srv) c → k_tls_pending c = false →
  is_bytes (buf_contents (k_in c)) → conn_ok (s_lim srv) (conn_select_proto_plain srv c).2.
Proof.
  intros Hl Hc Ht Hb. unfold conn_select_proto_plain. bcase; [by apply ok_of_live|].
  destruct (_ && _); [bcase; [by apply ok_of_live|by apply new_h2_ok]|by apply choose_h1_ok].
Qed.

Lemma select_tls_ok `{Net} w srv c : srv_lims_ok (s_lim srv) → conn_live (s_lim srv) c → k_tls_pending c = false →
  is_bytes (buf_contents (k_in c)) → conn_ok (s_lim srv) (conn_select_proto_tls w srv c).
Proof.
  intros Hl Hc Ht Hb. unfold conn_select_proto_tls. bcase; [|by apply choose_h1_ok].
  destruct (negb _); [by apply ok_dead|by apply new_h2_ok].
Qed.
End Select.

(** ** One connection, seen by two handlers *)

(** What the library has checked of a request before its handler runs, by the
    protocol the request came over. *)
Definition request_checked (L : zhs_limits) (r : zcio_http_req) : Prop :=
  (version r = 1 ∧ ∃ http10, req_good L http10 r) ∨ (version r = 2 ∧ h2_req_good L r) ∨
  (version r = 3 ∧ h3_req_good L r).

Section Conn.
Context `{Allocator} (S : Server) (h1 h2 : zcio_http_req → hprog) {W : Type} `{NetOk W}.
Context (L : zhs_limits) (Hagree : ∀ r, request_checked L r → h1 r = h2 r).

Abbreviation both := (both S h1 h2).

Lemma both_intro {R} (op : Server → exec R) (P : R → Prop) :
  op (with_handler S h1) = op (with_handler S h2) → (∃ r, op (with_handler S h2) = Ok r ∧ P r) → both op P.
Proof. intros E (r & E2 & Hr). exists r. by rewrite E. Qed.

Lemma both_and {R} (op : Server → exec R) (P Q : R → Prop) :
  both op P → (∀ r, op (with_handler S h2) = Ok r → Q r) → both op (λ r, P r ∧ Q r).
Proof. intros (r & E1 & E2 & Hr) HQ. exists r. auto. Qed.

Lemma h1_feed_both ok h input : c_lim h = L → conn_base h → conn_state h → buf_wf input →
  both (λ S, @zh1_feed_ _ S ok h input) (λ r, conn_base r.1.2 ∧ c_lim r.1.2 = c_lim h ∧ buf_wf r.2 ∧
    feed_code r.1.1 ∧ (r.1.1 ≠ ZCIO_ERR_NOMEM → conn_state r.1.2)).
Proof.
  intros HL Hb Hs Hi. apply both_intro.
  { apply feed_agree; [|done..]. rewrite HL. intros. apply Hagree. left. eauto. }
  unfold zh1_feed_.
  destruct (@feed_loop_outcome _ (with_handler S h2) ok (3 * Z.to_nat (ZHS_AVAIL input) + 4) false h input Hb Hs Hi)
    as (r & h' & i' & E & R1 & _ & R2 & R3 & R4 & R5).
  { pose proof (zlen_contents input Hi). destruct (c_state h); cbn; lia. }
  by exists (r, h', i').
Qed.

Lemma h2_feed_both h input : h2_lim h = L → h2_good h → buf_wf input → is_bytes (buf_contents input) →
  both (λ S, @zh2_feed_ _ S h input) (λ r, h2_good r.1.2 ∧ h2_lim r.1.2 = h2_lim h ∧ buf_wf r.2 ∧ is_bytes (buf_contents r.2)).
Proof.
  intros HL Hg Hi Hp. apply both_intro.
  { apply (h2_feed_agree S h1 h2 L); [|done..]. intros r Hr Hv. apply Hagree. right. by left. }
  destruct (@feed_good _ (with_handler S h2) h input Hg Hi Hp) as (r & h' & i' & E & R1 & R2 & R3 & R4 & _).
  by exists (r, h', i').
Qed.

Lemma conn_feed_both w srv c work : s_lim srv = L → srv_lims_ok (s_lim srv) → conn_live (s_lim srv) c → k_tls_pending c = false →
  both (λ S, @conn_feed _ S _ _ w srv c work) (λ r, conn_ok (s_lim srv) r.1).
Proof.
  intros HL Hl Hc Ht. unfold conn_feed.
  assert (∀ chosen c1, match k_proto c with CONN_UNKNOWN _ => conn_select_proto_plain srv c | _ => (true, c) end = (chosen, c1) →
    conn_ok (s_lim srv) c1) as Hsel.
  { intros ch c1 E. destruct (k_proto c) as [out|h|h] eqn:Ep; [|injection E as <- <-; by apply ok_of_live..].
    pose proof (select_plain_ok srv c Hl Hc Ht) as Hs. rewrite E in Hs. apply Hs. destruct Hc as (_ & _ & _ & Hb). by rewrite Ep in Hb. }
  destruct (match k_proto c with CONN_UNKNOWN _ => _ | _ => _ end) as [chosen c1]. specialize (Hsel _ _ eq_refl).
  destruct (negb chosen); [by apply both_ret|]. destruct (k_dead c1) eqn:Ed; [by apply both_ret|].
  specialize (Hsel Ed). destruct Hsel as (Hi & Hp & Htl & Hb). destruct (k_proto c1) as [out|h|h] eqn:Ep.
  - apply both_ret, ok_of_live. cbn [fst]. split; [done|]. rewrite Ep. by split.
  - destruct Hp as (Hp1 & Hp2 & Hp3).
    assert (k_tls_pending c1 = false) as Ht1 by (destruct (k_tls_pending c1); [destruct (Htl eq_refl); done|done]).
    eapply both_bind; [by apply h1_feed_both; [congruence|..]|]. intros [[r h'] i'] (R1 & R2 & R3 & R4 & R5). cbn [fst snd] in *.
    cbv beta iota zeta. apply both_ret.
    assert (r ≠ ZCIO_ERR_NOMEM → conn_live (s_lim srv) (k_set_in i' (k_set_proto (CONN_H1 h') c1))) as Hlive.
    { intros Hr. split; [done|]. split; [split; [done|]; split; [by apply R5|congruence]|]. by split; [cbn; congruence|]. }
    destruct R4 as [-> |[-> |[-> |[-> | ->]]]]; cbn.
    1, 2: by apply ok_of_live, Hlive.
    2, 3: by apply ok_dead.
    apply ok_of_live. eapply live_ext; [..|by apply Hlive]; done.
  - destruct Hp as (Hp1 & Hp2).
    assert (k_tls_pending c1 = false) as Ht1 by (destruct (k_tls_pending c1); [destruct (Htl eq_refl); done|done]).
    eapply both_bind; [by apply h2_feed_both; [congruence|..]|]. intros [[r h'] i'] (R1 & R2 & R3 & R4). cbn [fst snd] in *.
    cbv beta iota zeta. destruct (r <? 0); [by apply both_ret, ok_dead|].
    destruct (pump_good h' R1) as (h3 & -> & P1 & P2). cbn [mbind exec_bind]. apply both_ret. apply ok_of_live. cbn.
    assert (conn_live (s_lim srv) (k_set_proto (CONN_H2 h3) (k_set_in i' (k_set_proto (CONN_H2 h') c1)))) as Hlive.
    { split; [done|]. split; [split; [done|congruence]|]. by split; [cbn; congruence|]. }
    bcase; [|done]. eapply live_ext; [..|exact Hlive]; done.
Qed.

(** ** Output *)

Lemma set_out_live lim c n : conn_live lim c → 0 ≤ n ≤ ZHS_AVAIL (k_out c) →
  conn_live lim (k_set_out (zhs_buf_consume_ (k_out c) n) c) ∧
  ZHS_AVAIL (k_out (k_set_out (zhs_buf_consume_ (k_out c) n) c)) = ZHS_AVAIL (k_out c) - n.
Proof.
  intros Hc Hn. pose proof (out_wf lim c Hc) as Ho. destruct (avail_consume _ n Ho Hn) as (Hw & Ha & _).
  destruct Hc as (Hi & Hp & Ht & Hb). unfold conn_live, k_out, k_set_out in *. destruct (k_proto c) as [out|h|h]; cbn in *.
  - split; [|done]. split; [done|]. split; [done|]. split; [|done]. intros E. destruct (Ht E). by eexists.
  - split; [|done]. split; [done|]. split; [|split; [|done]; intros E; by destruct (Ht E)].
    destruct Hp as (P1 & P2 & P3). split; [by apply base_set_out|]. by split.
  - split; [|done]. split; [done|]. split; [|split; [|done]; intros E; by destruct (Ht E)].
    destruct Hp as (P1 & P2). split; [by apply written_good|done].
Qed.

Lemma flush_ok fuel w lim c now work : conn_live lim c → ZHS_AVAIL (k_out c) < Z.of_nat fuel →
  ∃ w' c' work', flush_loop fuel w c now work = Ok (w', c', work') ∧ conn_ok lim c'.
Proof.
  revert w c work. induction fuel as [|fuel IH]; intros w c work Hc Hf.
  { pose proof (zlen_contents _ (out_wf lim c Hc)). lia. }
  cbn [flush_loop]. bcase; [do 3 eexists; split; [done|by apply ok_of_live]|].
  destruct (k_write w c (buf_contents (k_out c))) as [w1 r] eqn:Ew.
  assert (r ≤ ZHS_AVAIL (k_out c)) as Hr.
  { rewrite <- (zlen_contents _ (out_wf lim c Hc)). unfold k_write in Ew. destruct (k_stream c).
    - by eapply send_fits.
    - injection Ew as _ <-. change ZCIO_ERR_INVALID_ARG with (-2). lia. }
  destruct (0 <? r) eqn:E0; btest.
  - destruct (set_out_live lim c r Hc ltac:(lia)) as [Hl Ha].
    destruct (IH w1 (k_set_activity_ms now (k_set_out (zhs_buf_consume_ (k_out c) r) c)) (work + 1))
      as (w' & c' & wk & -> & Hok).
    + eapply live_ext; [..|exact Hl]; done.
    + change (k_out (k_set_activity_ms now ?x)) with (k_out x). rewrite Ha. lia.
    + by do 3 eexists.
  - bcase; do 3 eexists; (split; [done|]); [by apply ok_of_live|by apply ok_dead].
Qed.

(** ** The whole slice *)

Lemma input_ok w srv c revents now work : srv_lims_ok (s_lim srv) → conn_live (s_lim srv) c →
  conn_ok (s_lim srv) (conn_input w srv c revents now work).1.2.
Proof.
  intros Hl Hc. unfold conn_input. destruct (k_tls_pending c) eqn:Et.
  - bcase; [|by apply ok_of_live]. destruct (match k_stream c with Some s => _ | None => _ end) as [w1 hr].
    bcase.
    + apply select_tls_ok; try done; [eapply live_ext; [..|exact Hc]; done|].
      destruct Hc as (_ & _ & Hu & Hb). destruct (Hu Et) as [out Eo]. cbn. by rewrite Eo in Hb.
    + bcase; [by apply ok_dead|by apply ok_of_live].
  - bcase; [|by apply ok_of_live]. destruct (k_read w c READ_SCRATCH) as [[w1 r] d] eqn:Er.
    destruct (0 <? r) eqn:E0; btest.
    + assert (zlen d = r ∧ is_bytes d) as [Hd Hb].
      { unfold k_read in Er. destruct (k_stream c); [|injection Er as <- <- <-; done].
        apply recv_fits in Er; [|done..]. tauto. }
      assert (ztake r d = d) as -> by (apply take_ge; lia).
      destruct (append_cases (k_in c) d) as (e & b & -> & Hw & He & _); [apply Hc|].
      destruct He as [(-> & _ & Hcont & _)|(-> & ->)]; cbn; [|by apply ok_dead].
      apply ok_of_live. destruct Hc as (G1 & G2 & G3 & G4). split; [done|]. split; [done|]. split; [done|].
      cbn. rewrite Hcont. destruct (k_proto c); try done; by apply Forall_app.
    + bcase; apply ok_of_live; [|done]. eapply live_ext; [..|exact Hc]; done.
Qed.

Lemma timing_live lim c now : conn_live lim c → conn_live lim (conn_update_head_timing c now).
Proof.
  intros Hc. unfold conn_update_head_timing. repeat case_match; (done || (eapply live_ext; [..|exact Hc]; done)).
Qed.

Lemma timing_dead c now : k_dead (conn_update_head_timing c now) = k_dead c.
Proof. unfold conn_update_head_timing. by repeat case_match. Qed.

Lemma close_ok lim c : conn_ok lim c → conn_ok lim (conn_close_decisions c).
Proof.
  intros Hc. unfold conn_close_decisions. bcase; [done|].
  set (c1 := if _ && _ then _ else c). assert (conn_ok lim c1) as Hc1 by (unfold c1; bcase; [by apply ok_dead|done]).
  bcase; [|done]. bcase; [by apply ok_dead|]. intros Ed. cbn in Ed. eapply live_ext; [..|by apply Hc1]; done.
Qed.

Lemma conn_process_both w srv c revents work : s_lim srv = L → srv_lims_ok (s_lim srv) → conn_live (s_lim srv) c →
  both (λ S, @conn_process _ S _ _ w srv c revents work) (λ r, conn_ok (s_lim srv) r.1.2).
Proof.
  intros HL Hl Hc. unfold conn_process. destruct (zcio_now_ms_ w) as [w1 now].
  set (c1 := if ready revents _ then _ else c). assert (conn_live (s_lim srv) c1) as Hc1.
  { unfold c1. bcase; [|done]. eapply live_ext; [..|exact Hc]; done. }
  clearbody c1. pose proof (input_ok w1 srv c1 revents now work Hl Hc1) as Hc2.
  destruct (conn_input w1 srv c1 revents now work) as [[w2 c2] wk2]. cbn [fst snd] in Hc2.
  apply (both_bind S h1 h2 (λ S, if negb (k_dead c2) && negb (k_tls_pending c2) then _ else _) _
    (λ r, conn_ok (s_lim srv) r.1)).
  { destruct (k_dead c2) eqn:Ed; [apply both_ret; by apply ok_dead|].
    destruct (k_tls_pending c2) eqn:Et; [by apply both_ret|]. cbn [negb andb].
    eapply both_bind; [by apply conn_feed_both; [| |apply Hc2|]|]. intros [c3 wk3] Hc3. cbn [fst] in Hc3.
    apply both_ret. cbn [fst]. intros Ed3. rewrite timing_dead in Ed3. by apply timing_live, Hc3. }
  intros [c3 wk3] Hc3. cbn [fst] in Hc3. apply (both_bind S h1 h2 (λ S, match k_proto c3 with CONN_H2 h => _ | _ => _ end) _
    (λ c, conn_ok (s_lim srv) c)).
  { destruct (k_proto c3) as [out|h|h] eqn:Ep; try by apply both_ret.
    destruct (k_dead c3) eqn:Ed; [by apply both_ret|]. cbn [negb andb]. bcase; [|by apply both_ret].
    destruct (Hc3 Ed) as (G1 & G2 & G3 & G4). rewrite Ep in G2, G4. destruct G2 as [G2 G5].
    destruct (pump_good h G2) as (h' & -> & P1 & P2). cbn [mbind exec_bind]. apply both_ret, ok_of_live.
    split; [done|]. split; [split; [done|congruence]|]. split; [|done]. cbn. intros E. destruct (G3 E). congruence. }
  intros c4 Hc4. apply (both_bind S h1 h2 (λ S, if negb (k_dead c4) && out_pending c4 then _ else _) _
    (λ r, conn_ok (s_lim srv) r.1.2)).
  { destruct (k_dead c4) eqn:Ed; [apply both_ret; by apply ok_dead|]. cbn [negb andb]. bcase; [|by apply both_ret].
    destruct (flush_ok (Datatypes.S (Z.to_nat (ZHS_AVAIL (k_out c4)))) w2 (s_lim srv) c4 now wk3 (Hc4 Ed))
      as (w' & c' & wk' & E & Hok); [lia|]. exists (w', c', wk'). by split_and!. }
  intros [[w5 c5] wk5] Hc5. cbn [fst snd] in Hc5. apply both_ret. by apply close_ok.
Qed.

(** What names a connection; its turn does not change it. *)
Definition k_id (c : conn) : Z * Z * bool * bool := (k_fd c, k_created_ms c, k_secure c, k_redirect c).
Definition same_conn (c c' : conn) : Prop := k_id c' = k_id c.

Lemma select_plain_id srv c : k_id (conn_select_proto_plain srv c).2 = k_id c.
Proof. unfold conn_select_proto_plain, new_h2, choose_h1. repeat (case_match; try done). Qed.

Lemma select_tls_id w srv c : k_id (conn_select_proto_tls w srv c) = k_id c.
Proof. unfold conn_select_proto_tls, new_h2, choose_h1. repeat (case_match; try done). Qed.

Lemma input_id w srv c revents now work : k_id (conn_input w srv c revents now work).1.2 = k_id c.
Proof.
  unfold conn_input. destruct (k_tls_pending c).
  - bcase; [|done]. destruct (match k_stream c with Some s => _ | None => _ end) as [w1 hr].
    bcase; [cbn; by rewrite select_tls_id|]. by bcase.
  - bcase; [|done]. destruct (k_read w c READ_SCRATCH) as [[w1 r] d]. bcase; [|by bcase].
    destruct (zhs_buf_append_ _ _) as [e b]. by bcase.
Qed.

Lemma feed_id (Sv : Server) w srv c work r : @conn_feed _ Sv _ _ w srv c work = Ok r → k_id r.1 = k_id c.
Proof.
  unfold conn_feed. pose proof (select_plain_id srv c) as Hs.
  assert (∀ ch c1, match k_proto c with CONN_UNKNOWN _ => conn_select_proto_plain srv c | _ => (true, c) end = (ch, c1) →
    k_id c1 = k_id c) as Hsel by (intros ch c1; destruct (k_proto c); intros E; [by rewrite E in Hs|by injection E as <- <-..]).
  destruct (match k_proto c with CONN_UNKNOWN _ => _ | _ => _ end) as [chosen c1]. rewrite <- (Hsel _ _ eq_refl). clear.
  destruct (negb chosen); [by intros [= <-]|]. destruct (k_dead c1); [by intros [= <-]|].
  destruct (k_proto c1) as [out|h|h]; [by intros [= <-]|..].
  - cbv zeta. destruct (zh1_feed_ _ _ _) as [[[r1 h'] i']| |]; [|done..]. cbn [mbind exec_bind].
    intros [= <-]. repeat (case_match; try done).
  - destruct (zh2_feed_ _ _) as [[[r1 h'] i']| |]; [|done..]. cbn [mbind exec_bind]. cbv zeta.
    destruct (r1 <? 0); [by intros [= <-]|]. destruct (zh2_pump_ h') as [h3| |]; [|done..]. cbn [mbind exec_bind].
    intros [= <-]. cbn [fst]. by destruct (r1 =? ZH2_CLOSING).
Qed.

Lemma flush_id fuel w c now work r : flush_loop fuel w c now work = Ok r → k_id r.1.2 = k_id c.
Proof.
  revert w c work. induction fuel as [|fuel IH]; intros w c work; [done|]. cbn [flush_loop].
  bcase; [by intros [= <-]|]. destruct (k_write _ _ _) as [w1 k]. bcase; [|bcase; by intros [= <-]].
  intros E. by rewrite (IH _ _ _ E).
Qed.

Lemma close_id c : k_id (conn_close_decisions c) = k_id c.
Proof. unfold conn_close_decisions. repeat (bcase; try done). Qed.

Lemma process_id (Sv : Server) w srv c revents work r :
  @conn_process _ Sv _ _ w srv c revents work = Ok r → same_conn c r.1.2.
Proof.
  unfold conn_process, same_conn. destruct (zcio_now_ms_ w) as [w1 now].
  set (c1 := if ready revents _ then _ else c). assert (k_id c1 = k_id c) as <- by (unfold c1; by bcase). clearbody c1.
  pose proof (input_id w1 srv c1 revents now work) as Hin. destruct (conn_input _ _ _ _ _ _) as [[w2 c2] wk2].
  cbn [fst snd] in Hin. rewrite <- Hin. clear Hin.
  destruct (if negb (k_dead c2) && _ then _ else _) as [[c3 wk3]| |] eqn:E3; [|done..]. cbn [mbind exec_bind].
  assert (k_id c3 = k_id c2) as <-.
  { clear -E3. revert E3. destruct (_ && _); [|by intros [= -> ->]].
    intros E3. destruct (conn_feed _ _ _ _) as [[c' wk']| |] eqn:Ef; [|done..]. apply feed_id in Ef. cbn [fst] in Ef. rewrite <- Ef.
    cbn [mbind exec_bind] in E3. injection E3 as <- <-. unfold conn_update_head_timing. repeat (case_match; try done). }
  destruct (match k_proto c3 with CONN_H2 h => _ | _ => _ end) as [c4| |] eqn:E4; [|done..]. cbn [mbind exec_bind].
  assert (k_id c4 = k_id c3) as <-.
  { clear -E4. revert E4. destruct (k_proto c3) as [out|h|h]; [by intros [= ->]..|]. destruct (_ && _); [|by intros [= ->]].
    destruct (zh2_pump_ h) as [h'| |]; [|done..]. by intros [= <-]. }
  destruct (if negb (k_dead c4) && _ then _ else _) as [[[w5 c5] wk5]| |] eqn:E5; [|done..]. cbn [mbind exec_bind].
  intros [= <-]. cbn [fst snd]. rewrite close_id. clear -E5. revert E5.
  destruct (negb (k_dead c4) && out_pending c4); [intros E5; by apply flush_id in E5|by intros [= -> -> ->]].
Qed.

Lemma process_conns_both w srv cs evs work : s_lim srv = L → srv_lims_ok (s_lim srv) → Forall (conn_live (s_lim srv)) cs →
  both (λ S, @process_conns _ S _ _ w srv cs evs work)
    (λ r, Forall (conn_ok (s_lim srv)) r.1.2 ∧ Forall2 same_conn cs r.1.2).
Proof.
  intros HL Hl. revert w evs work. induction cs as [|c cs IH]; intros w evs work Hcs; cbn [process_conns].
  { by apply both_ret. }
  apply List.Forall_cons_iff in Hcs as [Hc Hcs].
  eapply both_bind; [apply both_and; [by apply conn_process_both|intros r; by apply process_id]|].
  intros [[w1 c1] wk1] [Hc1 Hid]. cbn [fst snd] in Hc1, Hid. eapply both_bind; [by apply IH|].
  intros [[w2 cs2] wk2] [Hcs2 Hn]. cbn [fst snd] in Hcs2, Hn. apply both_ret. cbn. split; by constructor.
Qed.
End Conn.

(** ** Accepting *)

Definition fresh (lim : zhs_limits) (c : conn) : Prop := k_dead c = false ∧ conn_live lim c.

Lemma set_conns_same srv : s_set_conns (s_conns srv ++ []) (s_cap_conns srv) srv = srv.
Proof. rewrite app_nil_r. by destruct srv. Qed.

(** [srv'] is [srv] with the connections [new] added. *)
Definition grown (srv : zcio_http_server) (new : list conn) (srv' : zcio_http_server) : Prop :=
  (∃ cap, srv' = s_set_conns (s_conns srv ++ new) cap srv) ∧ Forall (fresh (s_lim srv)) new ∧
  zlen (s_conns srv') ≤ s_cap_conns srv'.

Lemma grown_refl srv : zlen (s_conns srv) ≤ s_cap_conns srv → grown srv [] srv.
Proof.
  intros Hc. split; [|by split; [constructor|]]. exists (s_cap_conns srv). by rewrite set_conns_same.
Qed.

Lemma grown_trans s1 s2 s3 n1 n2 : grown s1 n1 s2 → grown s2 n2 s3 → grown s1 (n1 ++ n2) s3.
Proof.
  intros ([cap1 ->] & F1 & C1) ([cap2 ->] & F2 & C2). cbn in *. rewrite <- app_assoc in *. split; [by exists cap2|].
  split; [by apply Forall_app|done].
Qed.

Section Accept.
Context `{Allocator} {W : Type} `{NetOk W}.

Lemma add_conn_ok srv c : zlen (s_conns srv) ≤ s_cap_conns srv → fresh (s_lim srv) c →
  ∃ r srv', server_add_conn srv c = (r, srv') ∧
    ((r = ZCIO_OK ∧ grown srv [c] srv') ∨ (r = ZCIO_ERR_NOMEM ∧ srv' = srv)).
Proof.
  intros Hcap Hf. unfold server_add_conn. destruct (zlen (s_conns srv) =? s_cap_conns srv) eqn:E; btest.
  - set (ncap := if s_cap_conns srv =? 0 then 16 else s_cap_conns srv * 2). destruct (negb (alloc_ok _)); [do 2 eexists; split; [done|by right]|].
    do 2 eexists. split; [done|]. left. split; [done|]. split; [by eexists|]. split; [by constructor|].
    cbn. zlen_simpl. unfold ncap. bcase; lia.
  - do 2 eexists. split; [done|]. left. split; [done|]. split; [by eexists|]. split; [by constructor|].
    cbn. zlen_simpl. lia.
Qed.

Lemma conn_create_ok w srv fd redirect lfd : srv_lims_ok (s_lim srv) → zlen (s_conns srv) ≤ s_cap_conns srv →
  ∃ w' srv' ok new, conn_create w srv fd redirect = (w', srv', ok) ∧ grown srv new srv' ∧ (length new ≤ 1)%nat ∧
    (accept_backlog w' lfd ≤ accept_backlog w lfd)%nat.
Proof.
  intros Hl Hcap. unfold conn_create. pose proof (grown_refl srv Hcap) as Hg.
  destruct (negb _). { exists (closesocket w fd), srv, false, []. split; [done|]. split; [done|]. split; [cbn; lia|]. apply backlog_close. }
  pose proof (backlog_now w lfd) as B1. destruct (zcio_now_ms_ w) as [w1 now]. cbn [fst] in B1.
  pose proof (backlog_stream w1 fd lfd) as B2. destruct (tcp_stream_from_fd w1 fd) as [w2 [plain|]]; cbn [fst] in B2.
  2:{ exists (closesocket w2 fd), srv, false, []. split; [done|]. split; [done|]. split; [cbn; lia|].
      pose proof (backlog_close w2 fd lfd). lia. }
  set (c := mk_sconn _ _ _ _ _ _ _ _ _ _ _ _ _ _ _). assert (fresh (s_lim srv) c) as Hc.
  { split; [done|]. split; [apply buf_empty_wf|]. split; [apply buf_empty_wf|]. split; [by eexists|constructor]. }
  set (t := if redirect then _ else _).
  assert ((accept_backlog t.1.1 lfd ≤ accept_backlog w lfd)%nat ∧ (t.2 = true → fresh (s_lim srv) t.1.2)) as [B3 Ht].
  { unfold t. destruct redirect.
    - destruct (zh1_new_ (s_lim srv) ZH1_F_REDIRECT buf_empty) as [h|] eqn:E; cbn; (split; [lia|]); [|done].
      intros _. apply h1_new_ok in E; [|by apply lims_h1|apply buf_empty_wf]. split; [done|].
      split; [apply buf_empty_wf|]. by split.
    - destruct (s_tls srv) as [ctx|]; [|cbn; split; [lia|done]].
      pose proof (backlog_wrap w2 ctx plain lfd) as B3. destruct (tls_wrap_nb w2 ctx plain) as [w3 [s|]]; cbn in *; (split; [lia|]); [|done].
      intros _. split; [done|]. split; [apply buf_empty_wf|]. split; [apply buf_empty_wf|]. split; [by eexists|constructor]. }
  clearbody t. destruct t as [[w3 c3] ok]. cbn [fst snd] in B3, Ht.
  assert (accept_backlog (conn_free w3 c3) lfd ≤ accept_backlog w lfd)%nat as B4.
  { unfold conn_free. destruct (k_stream c3) as [s|]; [|done]. pose proof (backlog_free w3 s lfd). lia. }
  destruct ok; cbn [negb]; [|exists (conn_free w3 c3), srv, false, []; split; [done|]; split; [done|]; split; [cbn; lia|done]].
  destruct (add_conn_ok srv c3 Hcap (Ht eq_refl)) as (r & srv' & -> & [[-> Hg']|[-> ->]]); cbn.
  - exists w3, srv', true, [c3]. split; [done|]. split; [done|]. by split; [cbn; lia|].
  - exists (conn_free w3 c3), srv, false, []. split; [done|]. split; [done|]. by split; [cbn; lia|].
Qed.

Lemma accept_turns_ok fuel w srv lfd redirect work : srv_lims_ok (s_lim srv) →
  zlen (s_conns srv) ≤ s_cap_conns srv → zlen (s_conns srv) ≤ max_connections (s_lim srv) →
  (accept_backlog w lfd < fuel)%nat →
  ∃ w' srv' work' new, accept_turns fuel w srv lfd redirect work = Ok (w', srv', work') ∧ grown srv new srv' ∧
    zlen (s_conns srv') ≤ max_connections (s_lim srv).
Proof.
  intros Hl. revert w srv work Hl. induction fuel as [|fuel IH]; intros w srv work Hl Hcap Hmax Hf; [lia|].
  cbn [accept_turns]. destruct (sock_accept w lfd) as [w1 a] eqn:Ea. pose proof (accept_ends w lfd w1 a Ea) as Hb.
  destruct a as [cfd| |].
  - specialize (Hb ltac:(done)). destruct (_ <=? _) eqn:Em; btest.
    + pose proof (backlog_close w1 cfd lfd). apply IH; try done. lia.
    + destruct (conn_create_ok w1 srv cfd redirect lfd Hl Hcap) as (w2 & srv2 & ok & new & -> & Hg & Hn & Hbk).
      pose proof Hg as ([cap ->] & Hfr & Hcap2). cbn in Hcap2.
      destruct (IH w2 (s_set_conns (s_conns srv ++ new) cap srv) (if ok then work + 1 else work))
        as (w3 & srv3 & wk & new2 & -> & Hg2 & Hm2); cbn; [done|done|zlen_simpl; lia|lia|].
      exists w3, srv3, wk, (new ++ new2). split; [done|]. split; [by eapply grown_trans|exact Hm2].
  - specialize (Hb ltac:(done)). apply IH; try done. lia.
  - exists w1, srv, work, []. split; [done|]. split; [by apply grown_refl|done].
Qed.

(** Accepting after a poll: the new connections come last. *)
Lemma special_ok w s rc evs : srv_lims_ok (s_lim s) → zlen (s_conns s) ≤ s_cap_conns s →
  zlen (s_conns s) ≤ max_connections (s_lim s) →
  ∃ w' s' work new, service_special w s rc evs = Ok (w', s', work) ∧ grown s new s' ∧
    zlen (s_conns s') ≤ max_connections (s_lim s) ∧ (s_stopping s = true → new = []).
Proof.
  intros Hl Hcap Hmax. unfold service_special. cbv zeta.
  assert (∃ w' s' work new, Ok (w, s, 0) = Ok (w', s', work) ∧ grown s new s' ∧
    zlen (s_conns s') ≤ max_connections (s_lim s) ∧ (s_stopping s = true → new = [])) as Hno.
  { exists w, s, 0, []. split; [done|]. split; [by apply grown_refl|done]. }
  destruct (0 <? rc); [|done]. set (w1 := if ready _ POLLIN then _ else w). clearbody w1.
  unfold poll_listen, poll_redirect. destruct (s_stopping s) eqn:Es; cbn [mbind exec_bind].
  { exists w1, s, 0, []. split; [done|]. split; [by apply grown_refl|done]. }
  set (first := match s_listen_fd s with Some fd => _ | None => _ end).
  assert (∃ w' s' work new, first = Ok (w', s', work) ∧ grown s new s' ∧
    zlen (s_conns s') ≤ max_connections (s_lim s)) as (w2 & s2 & wk2 & n2 & E & Hg2 & Hm2).
  { unfold first. assert (∃ w' s' work new, Ok (w1, s, 0) = Ok (w', s', work) ∧ grown s new s' ∧
      zlen (s_conns s') ≤ max_connections (s_lim s)) as Hz by (exists w1, s, 0, []; split; [done|]; split; [by apply grown_refl|done]).
    destruct (s_listen_fd s) as [fd|]; [|done]. destruct (ready _ _); [|done].
    apply accept_turns_ok; try done. lia. }
  rewrite E. clear E first. cbn [mbind exec_bind]. pose proof Hg2 as ([cap2 ->] & _ & Hcap2). cbn in Hcap2, Hm2.
  assert (∃ w' s' work new, Ok (w2, s_set_conns (s_conns s ++ n2) cap2 s, wk2) = Ok (w', s', work) ∧ grown s new s' ∧
    zlen (s_conns s') ≤ max_connections (s_lim s) ∧ (false = true → new = [])) as Hz.
  { do 4 eexists. split; [done|]. split; [exact Hg2|]. by split. }
  destruct (s_redirect_fd s) as [fd|]; [|done]. destruct (ready _ _); [|done].
  destruct (accept_turns_ok (S (accept_backlog w2 fd)) w2 (s_set_conns (s_conns s ++ n2) cap2 s) fd true wk2)
    as (w3 & s3 & wk3 & n3 & E3 & Hg3 & Hm3); try done; [cbn; lia|].
  exists w3, s3, wk3, (n2 ++ n3). split; [exact E3|]. split; [by eapply grown_trans|]. by split.
Qed.
End Accept.

(** ** The sweep *)

(** What keeps a connection in the table at time [now]. *)
Definition survives (s : zcio_http_server) (now : Z) (c : conn) : bool :=
  negb (k_dead c) && (now <? conn_deadline_ms (s_lim s) c) &&
  (negb (s_stopping s) || (negb (conn_drained c) && (now <? s_drain_deadline_ms s))).

Lemma survives_spec s now c : survives s now c = true ↔ k_dead c = false ∧ now < conn_deadline_ms (s_lim s) c ∧
  (s_stopping s = true → conn_drained c = false ∧ now < s_drain_deadline_ms s).
Proof.
  unfold survives. rewrite !andb_true_iff, orb_true_iff, andb_true_iff, !negb_true_iff, !Z.ltb_lt.
  destruct (s_stopping s); intuition congruence.
Qed.

Lemma sweep_filter s now cs :
  List.filter (λ c, negb (k_dead c)) (map (drain s now) (map (expire (s_lim s) now) cs)) =
  List.filter (survives s now) cs.
Proof.
  induction cs as [|c cs IH]; [done|]. cbn [map List.filter].
  assert (if negb (k_dead (drain s now (expire (s_lim s) now c)))
    then survives s now c = true ∧ drain s now (expire (s_lim s) now c) = c else survives s now c = false) as Hc.
  { unfold survives, drain, expire. destruct (k_dead c) eqn:Ed; cbn [negb andb].
    - destruct (s_stopping s); cbn; [|by rewrite Ed]. destruct (conn_drained c), (_ <=? now); cbn; by rewrite ?Ed.
    - rewrite (Z.ltb_antisym (conn_deadline_ms (s_lim s) c) now).
      destruct (conn_deadline_ms (s_lim s) c <=? now); cbn [negb andb].
      + destruct (s_stopping s); [|done]. destruct (conn_drained _), (_ <=? _); done.
      + destruct (s_stopping s); cbn; [|by rewrite Ed]. rewrite (Z.ltb_antisym (s_drain_deadline_ms s) now).
        destruct (conn_drained c), (_ <=? now); cbn; rewrite ?Ed; done. }
  destruct (negb _); [destruct Hc as [-> ->]|rewrite Hc]; by rewrite IH.
Qed.

Lemma fresh_stay s now cs : s_stopping s = false → Forall (λ c, k_dead c = false) cs →
  List.filter (λ c, negb (k_dead c)) (map (drain s now) cs) = cs.
Proof.
  intros Hs. induction 1 as [|c cs Hc _ IH]; [done|]. cbn [map List.filter].
  assert (drain s now c = c) as -> by (unfold drain; by rewrite Hs). by rewrite Hc, IH.
Qed.

Lemma survive_facts s now cs lim : Forall (conn_ok lim) cs →
  Forall (λ c, fresh lim c ∧ now < conn_deadline_ms (s_lim s) c ∧
    (s_stopping s = true → conn_drained c = false ∧ now < s_drain_deadline_ms s))
    (List.filter (survives s now) cs).
Proof.
  intros Hcs. rewrite List.Forall_forall in *. intros c [Hin Hc]%filter_In. unfold survives in Hc.
  apply andb_prop in Hc as [Hc Hs]. apply andb_prop in Hc as [Hd Ht]. btest. split; [split; [done|by apply Hcs]|].
  split; [done|]. intros Hst. rewrite Hst in Hs. cbn in Hs. by btest.
Qed.

(** ** A poll *)

(** [s'] and [r] come out of a pass over [s] that woke up at [now] and accepted
    the connections [new]: every connection had its turn, those that survive the
    sweep are kept. *)
Record turned (s : zcio_http_server) (now : Z) (new : list conn) (s' : zcio_http_server) (r : Z) : Prop := {
  tn_ok : srv_ok s';
  tn_lim : s_lim s' = s_lim s;
  tn_kept : ∃ worked, Forall2 same_conn (s_conns s) worked ∧
    s_conns s' = List.filter (survives s now) worked ++ new;
  tn_new : s_stopping s = true → new = [];
  tn_stopping : s_stopping s' = s_stopping s ∧ s_drain_deadline_ms s' = s_drain_deadline_ms s;
  tn_code : r = ZCIO_ERR_EOF ∨ 0 ≤ r;
  tn_eof : r = ZCIO_ERR_EOF ↔ s_stopping s = true ∧ s_conns s' = [] ∧ zh3_idle_ (s_h3 s') = true;
  tn_stopped : s_stopped s' = true ↔ r = ZCIO_ERR_EOF;
  tn_h3 : s_h3 s = None → s_h3 s' = None;
}.

(** Memory or [poll] failed, nothing was done. *)
Definition failed (s s' : zcio_http_server) (r : Z) : Prop :=
  (r = ZCIO_ERR_NOMEM ∨ r = ZCIO_ERR) ∧ ∃ cap, s' = s_set_pollset_cap cap s ∧ srv_ok s'.

(** The clock after [poll] returned. *)
Definition woken {W} `{Net W, Quic W} (w : W) (s : zcio_http_server) (timeout_ms : Z) : Z :=
  let '(w, now) := zcio_now_ms_ w in
  let '(w, rc, evs) := sock_poll w (pollset s) (poll_timeout w s now timeout_ms) in
  (zcio_now_ms_ w).2.

(** The connections this pass accepts. *)
Definition accepted_now {W} `{Allocator, Net W, Quic W} (w : W) (s : zcio_http_server) (timeout_ms : Z) : list conn :=
  match ensure_pollset s (Z.of_nat (length (s_conns s)) + 4) with
  | Ok (_, s) =>
      let '(w, now) := zcio_now_ms_ w in
      let '(w, rc, evs) := sock_poll w (pollset s) (poll_timeout w s now timeout_ms) in
      let '(w, _) := zcio_now_ms_ w in
      match service_special w s rc evs with
      | Ok (_, s', _) => drop (length (s_conns s)) (s_conns s')
      | _ => []
      end
  | _ => []
  end.

Lemma pollset_grow_ok fuel ncap need : 0 < ncap → need ≤ 2 ^ 40 → ncap ≤ 2 ^ 41 → need ≤ ncap * 2 ^ (Z.of_nat fuel) →
  ∃ n, pollset_grow (S fuel) ncap need = Ok n ∧ 0 < n.
Proof.
  revert ncap. induction fuel as [|fuel IH]; intros ncap Hp Hn Hm Hf.
  - exists ncap. cbn [pollset_grow]. bcase; [lia|done].
  - change (pollset_grow (S (S fuel)) ncap need) with
      (if ncap <? need then pollset_grow (S fuel) (u64 (ncap * 2)) need else Ok ncap).
    bcase; [|by exists ncap]. rewrite wrap_small by lia. apply IH; try lia.
    replace (Z.of_nat (S fuel)) with (Z.of_nat fuel + 1) in Hf by lia. rewrite Z.pow_add_r in Hf by lia. lia.
Qed.

Lemma set_pollset_ok s cap : srv_ok s → 0 ≤ cap → srv_ok (s_set_pollset_cap cap s).
Proof. intros [] ?. by constructor. Qed.

Lemma ensure_pollset_ok `{Allocator} s need : srv_ok s → need ≤ 2 ^ 40 →
  ∃ r cap, ensure_pollset s need = Ok (r, s_set_pollset_cap cap s) ∧ 0 ≤ cap ∧ (r = ZCIO_OK ∨ r = ZCIO_ERR_NOMEM).
Proof.
  intros Hs Hn. pose proof (sv_pollset s Hs) as Hp. unfold ensure_pollset.
  assert (s_set_pollset_cap (s_pollset_cap s) s = s) as Hid by (by destruct s). bcase.
  { exists ZCIO_OK, (s_pollset_cap s). rewrite Hid. auto. }
  set (cap0 := if s_pollset_cap s =? 0 then 16 else s_pollset_cap s).
  assert (0 < cap0 ≤ 2 ^ 41) as Hc0 by (unfold cap0; bcase; lia).
  destruct (pollset_grow_ok 63 cap0 need) as (n & -> & Hn'); [lia..|change (Z.of_nat 63) with 63; lia|].
  cbn [mbind exec_bind]. destruct (alloc_ok (u64 (n * 8))); [exists ZCIO_OK, n|exists ZCIO_ERR_NOMEM, (s_pollset_cap s); rewrite Hid];
    (split; [done|]); split; try lia; auto.
Qed.

Section Poll.
Context `{Allocator} (S : Server) (h1 h2 : zcio_http_req → hprog) {W : Type} `{NetOk W} `{QuicOk W}.
Context (L : zhs_limits) (Hagree : ∀ r, request_checked L r → h1 r = h2 r).

Abbreviation both := (both S h1 h2).

Lemma h3_both w s work : s_lim s = L → (∀ h, s_h3 s = Some h → srv3_ok h ∧ v3_lim h = s_lim s) →
  both (λ S, @service_h3 _ S _ _ w s work) (λ r, ∃ o, r.1.2 = s_set_h3 o s ∧
    (∀ h, o = Some h → srv3_ok h ∧ v3_lim h = s_lim s) ∧ (s_h3 s = None → o = None)).
Proof.
  intros HL Hh. unfold service_h3. destruct (s_h3 s) as [h|] eqn:E.
  - destruct (Hh h eq_refl) as [Hok Hl]. eapply both_bind.
    { apply (process_ok S h1 h2 L); [|done|congruence]. intros r0 Hr0. apply Hagree. right; right. split; [apply Hr0|done]. }
    intros [[w1 h'] r] [Hok' Hl']. cbn [fst snd] in *. cbv beta iota. apply both_ret.
    destruct (r <? 0); cbn; [exists None|exists (Some h')]; (split; [done|]); split; try done.
    intros ? [= <-]. split; [done|congruence].
  - apply both_ret. exists None. split; [|done]. cbn. rewrite <- E. by destruct s.
Qed.

Lemma poll_once_both w s t : s_lim s = L → srv_ok s → s_stopped s = false →
  both (λ S, @poll_once _ S _ _ _ w s t) (λ r, failed s r.1.2 r.2 ∨ turned s (woken w s t) (accepted_now w s t) r.1.2 r.2).
Proof.
  intros HL Hs Hst. pose proof Hs as [Hl Hc Hn Hcap Hh3 Hpc Hdr _]. unfold poll_once, accepted_now.
  destruct (ensure_pollset_ok s (Z.of_nat (length (s_conns s)) + 4) Hs) as (e & pc & -> & Hpc' & He).
  { destruct Hl as (_ & ?). lia. }
  cbn [mbind exec_bind]. pose proof (set_pollset_ok s pc Hs Hpc') as Hs0.
  destruct He as [-> | ->]; cbn [negb Z.eqb]; [|apply both_ret; left; split; [by left|by exists pc]].
  unfold woken. cbv iota beta. change (pollset (s_set_pollset_cap pc s)) with (pollset s).
  change (poll_timeout ?w (s_set_pollset_cap pc s) ?n ?t) with (poll_timeout w s n t).
  destruct (zcio_now_ms_ w) as [w1 now1]. destruct (sock_poll w1 _ _) as [[w2 rc] evs].
  change (0 =? 0) with true. cbn [negb].
  destruct (rc <? 0); [apply both_ret; left; split; [by right|by exists pc]|].
  destruct (zcio_now_ms_ w2) as [w3 now]. cbn [snd].
  set (s0 := s_set_pollset_cap pc s) in *.
  destruct (special_ok w3 s0 rc evs) as (w4 & s4 & wk4 & new & -> & ([cap4 ->] & Hnew & Hcap4) & Hmax & Hns); [done..|].
  cbn [mbind exec_bind]. set (s4 := s_set_conns (s_conns s0 ++ new) cap4 s0) in *.
  change (drop (length (s_conns s0)) (s_conns s4)) with (drop (length (s_conns s)) (s_conns s ++ new)). rewrite drop_app_length.
  eapply both_bind; [by apply h3_both|]. intros [[w5 s5] wk5] (o & E5 & Ho & Hno). cbn [fst snd] in E5. subst s5.
  cbv beta iota.
  change (s_conns (s_set_h3 o s4)) with (s_conns s ++ new). rewrite take_app_length, drop_app_length.
  change (length (s_conns s0)) with (length (s_conns s)) in *. change (s_conns s0) with (s_conns s) in *.
  eapply both_bind.
  { apply (process_conns_both S h1 h2 L Hagree); [exact HL|exact Hl|]. apply (Forall_impl _ _ _ Hc). by intros c []. }
  intros [[w6 cs] wk6] [Hcs Hids]. cbn [fst snd] in Hcs, Hids.
  pose proof (Forall2_length _ _ _ Hids) as Hlen. cbv beta iota zeta. unfold server_remove_dead.
  change (s_lim (s_set_h3 o s4)) with (s_lim s) in *. cbv beta iota.
  set (sw := s_set_h3 o s4) in *.
  set (kept := List.filter (survives sw now) cs).
  pose proof (survive_facts sw now cs (s_lim s) Hcs : Forall _ kept) as Hkept.
  assert (length kept ≤ length (s_conns s))%nat as Hlen'.
  { unfold kept. clear -Hlen. rewrite Hlen. clear. induction cs as [|c cs IH]; cbn; [lia|]. destruct (survives _ _ _); cbn; lia. }
  assert (List.filter (λ c, negb (k_dead c)) (map (drain sw now) (map (expire (s_lim s) now) cs ++ new)) = kept ++ new) as Efin.
  { rewrite map_app, List.filter_app. change (expire (s_lim s)) with (expire (s_lim sw)). rewrite sweep_filter. f_equal.
    destruct (s_stopping s) eqn:Es; [by rewrite Hns|]. apply fresh_stay; [done|]. apply (Forall_impl _ _ _ Hnew). by intros c []. }
  cbn [s_conns s_set_conns]. rewrite Efin. cbn [s_stopping s_h3 s_conns s_set_conns sw s_set_h3 s4 s0 s_set_pollset_cap s_cap_conns].
  assert (zlen (kept ++ new) ≤ zlen (s_conns s ++ new)) as Hle by (zlen_simpl; lia).
  set (s' := s_set_conns (kept ++ new) _ _).
  assert (s_stopped s' = false) as Hst' by done.
  assert (srv_ok s') as Hok'.
  { constructor; try done.
    - apply Forall_app. split; [|done]. apply (Forall_impl _ _ _ Hkept). by intros c [? _].
    - cbn in *. lia.
    - cbn in *. lia.
    - rewrite Hst'. done. }
  assert (∃ worked, Forall2 same_conn (s_conns s) worked ∧ kept ++ new = List.filter (survives s now) worked ++ new)
    as Hk by (by exists cs).
  destruct (s_stopping s && (zlen (kept ++ new) =? 0) && zh3_idle_ o) eqn:Eeof; apply both_ret; right; cbn [fst snd].
  - apply andb_prop in Eeof as [Eeof Eidle]. apply andb_prop in Eeof as [Estop Ez]. btest.
    assert (kept ++ new = []) as Enil by (destruct (kept ++ new); [done|cbn in Ez; lia]).
    constructor; try done; [|by left]. destruct Hok'. by constructor.
  - set (r := if 0 <? wk6 then wk6 else 0). assert (0 ≤ r) as Hr by (unfold r; bcase; lia).
    assert (r ≠ ZCIO_ERR_EOF) as Hne by (unfold ZCIO_ERR_EOF; lia). constructor; try done; [by right| |by rewrite Hst'].
    split; [done|]. intros (E1 & E2 & E3). cbn in E2, E3. rewrite E1, E2, E3 in Eeof. done.
Qed.

(** The call itself. *)
Lemma graceful_live lim c : fresh lim c → fresh lim (graceful c).
Proof.
  intros (Hd & Hi & Hp & Ht & Hb). unfold graceful. destruct (k_proto c) as [out|h|h] eqn:E.
  - split; [done|]. split; [done|]. rewrite E. by split.
  - split; [done|]. split; [done|]. split; [|split; [|done]]; [|intros Et; by destruct (Ht Et)].
    destruct Hp as (P1 & P2 & P3). by split.
  - split; [done|]. split; [done|]. split; [|split; [|done]]; [|intros Et; by destruct (Ht Et)].
    destruct Hp as (P1 & P2). destruct (graceful_good h P1) as [G1 G2]. split; [done|congruence].
Qed.

Lemma begin_stop_ok w s : srv_ok s → s_stopped s = false →
  ∃ w' s', begin_stop w s = (w', s') ∧ srv_ok s' ∧ s_stopped s' = false ∧ s_lim s' = s_lim s ∧ s_stopping s' = true ∧
    (s_h3 s = None → s_h3 s' = None).
Proof.
  intros [Hl Hc Hn Hcap Hh3 Hpc Hdr _] Hst. unfold begin_stop.
  set (w0 := close_opt _ _). set (t := match s_h3 s with Some h => _ | None => _ end).
  assert ((∀ h, t.2 = Some h → srv3_ok h ∧ v3_lim h = s_lim s) ∧ (s_h3 s = None → t.2 = None)) as [Ht Htn].
  { unfold t. destruct (s_h3 s) as [h|]; [|done]. destruct (Hh3 h eq_refl) as [Hok Hlim].
    destruct (graceful_srv_ok h w0 Hok) as [G1 G2]. destruct (zh3_graceful_ h w0) as [w1 h']. cbn in *.
    split; [|done]. intros ? [= <-]. split; [done|congruence]. }
  clearbody t. destruct t as [w1 h3]. cbn [snd] in *. destruct (zcio_now_ms_ w1) as [w2 now]. do 2 eexists.
  split; [done|]. split; [|done]. constructor; cbn; rewrite ?length_map; try done.
  - apply Forall_map. apply (Forall_impl _ _ _ Hc). apply graceful_live.
  - apply wrap_bound. lia.
  - congruence.
Qed.

(** The state a poll works on. *)
Definition poll_start (w : W) (s : zcio_http_server) : W * zcio_http_server :=
  if s_stop_flag s && negb (s_stopping s) then begin_stop w s else (w, s).

Lemma start_ok w s : srv_ok s → s_stopped s = false →
  srv_ok (poll_start w s).2 ∧ s_stopped (poll_start w s).2 = false ∧ s_lim (poll_start w s).2 = s_lim s ∧
  (s_h3 s = None → s_h3 (poll_start w s).2 = None) ∧
  (s_stop_flag s || s_stopping s = true → s_stopping (poll_start w s).2 = true).
Proof.
  intros Hs Hst. unfold poll_start. destruct (_ && _) eqn:E.
  - destruct (begin_stop_ok w s Hs Hst) as (w' & s' & -> & G). cbn. tauto.
  - do 4 (split; [done|]). cbn. destruct (s_stop_flag s), (s_stopping s); done.
Qed.

Lemma poll_both w s t : s_lim s = L → srv_ok s →
  both (λ S, @zcio_http_server_poll _ S _ _ _ w s t) (λ r,
    let s0 := (poll_start w s).2 in
    if s_stopped s then r = (w, s, ZCIO_ERR_EOF)
    else failed s0 r.1.2 r.2 ∨
      turned s0 (woken (poll_start w s).1 s0 t) (accepted_now (poll_start w s).1 s0 t) r.1.2 r.2).
Proof.
  intros HL Hs. unfold zcio_http_server_poll. destruct (s_stopped s) eqn:Est; [by apply both_ret|].
  destruct (start_ok w s Hs Est) as (G1 & G2 & G3 & _). rewrite HL in G3. unfold poll_start in *. destruct (_ && _); [destruct (begin_stop w s) as [w1 s1]|];
    by apply poll_once_both.
Qed.
End Poll.
