(* ===== verification/ServerRun.v ===== *)
(** * ServerRun: the life of an HTTP server

    The states start, poll and stop lead to; what holds there of every further
    poll: safety, the requests a handler sees, deadlines and the drain.  And
    how a plaintext connection finds its protocol. *)
From stdpp Require Import base tactics list option strings.
From Stdlib Require Import ZArith Lia.
From S2P Require Import Prelude Types Buf HttpUtil Respond H1 H1Safe H2 H2Safe H2Run H3 H3Safe Server ServerSafe.

(** ** Starting *)

(** A server object before it accepts. *)
Record bare (lim : zhs_limits) (s : zcio_http_server) : Prop := {
  br_lim : s_lim s = lim;
  br_conns : s_conns s = [];
  br_cap : s_cap_conns s = 0 ∧ s_pollset_cap s = 0 ∧ s_drain_deadline_ms s = 0;
  br_flags : s_stopped s = false ∧ s_stopping s = false ∧ s_stop_flag s = false;
}.

Section Start.
Context `{Allocator} {W : Type} `{Net W} `{Quic W} `{Boot W}.

Lemma resolve_bare w cfg s lim : bare lim s → s_h3 s = None →
  bare lim (resolve_tls w cfg s).2 ∧ s_h3 (resolve_tls w cfg s).2 = None.
Proof.
  intros [] Hh. unfold resolve_tls. repeat case_match; simplify_eq/=; done.
Qed.

Lemma listeners_bare w cfg s lim : bare lim s → s_h3 s = None →
  bare lim (start_listeners w cfg s).2 ∧ s_h3 (start_listeners w cfg s).2 = None.
Proof.
  intros [] Hh. unfold start_listeners. destruct (make_listener _ _ _ _) as [w1 [[fd bound]|]]; [|done].
  bcase; [|done]. destruct (make_listener _ _ _ _) as [w2 [[fd2 b2]|]]; done.
Qed.

Lemma start_bare w cfg w' s : zcio_http_server_start w cfg = (w', Some s) →
  bare (zhs_limits_resolve_ (option_map cfg_limits cfg)) s ∧
  (∀ h, s_h3 s = Some h → ∃ ctx fd l, h = mk_srv3 ctx fd l (s_lim s) [] 0 false).
Proof.
  unfold zcio_http_server_start. destruct (negb _); [done|]. set (lim := zhs_limits_resolve_ _).
  set (s0 := mk_srv _ lim _ _ _ _ _ _ _ _ _ _ _ _ _ _). destruct (negb (strings_ok cfg)); [done|].
  destruct (resolve_bare w cfg s0 lim) as [B1 N1]; [done..|].
  destruct (resolve_tls w cfg s0) as [[w1 r] s1]. cbn [snd] in B1, N1. destruct (negb _); [done|].
  destruct (make_wake w1) as [w2 [p|]]; [|done].
  destruct (listeners_bare w2 cfg (s_set_wake (Some p) s1) lim) as [B2 N2]; [by destruct B1|done|].
  destruct (start_listeners w2 cfg _) as [[w3 ok] s3]. cbn [snd] in B2, N2. destruct (negb ok); [done|].
  destruct (has_version _ _); [|intros [= <- <-]; split; [done|congruence]].
  unfold zh3_new_. destruct cfg as [c|]; [|done]. destruct (quic_ctx _ _) as [w4 [ctx|]]; [|done].
  destruct (quic_bind _ _) as [w5 [fd|]]; [|done]. destruct (quic_listener _ _ _) as [w6 [l|]]; [|done].
  destruct (zcio_xcalloc_ok 1 160); intros [= <- <-]. split; [by destruct B2|]. cbn. intros h [= <-]. by exists ctx, fd, l.
Qed.

Lemma start_srv_ok w cfg w' s lim : zcio_http_server_start w cfg = (w', Some s) →
  lim = zhs_limits_resolve_ (option_map cfg_limits cfg) → srv_lims_ok lim → srv_ok s ∧ s_lim s = lim.
Proof.
  intros E -> Hl. destruct (start_bare w cfg w' s E) as [[B1 B2 (B3 & B4 & B6) (B5 & _)] Hh]. split; [|done].
  destruct Hl as [Hl Hm]. constructor; rewrite ?B1, ?B2, ?B3, ?B4, ?B6; try done.
  - cbn. apply Hl.
  - intros h Eh. destruct (Hh h Eh) as (ctx & fd & l & ->). rewrite B1. split; [|done].
    constructor; cbn; [done|constructor|apply Hl|lia].
Qed.
End Start.

(** ** Reachable servers *)

(** What the user's thread does with a server that was started; the network
    and the peers act between and during the calls. *)
Inductive srv_reach `{Allocator, Server} {W} `{NetOk W, QuicOk W, Boot W} (lim : zhs_limits) : zcio_http_server → Prop :=
  | reach_start w cfg w' s : lim = zhs_limits_resolve_ (option_map cfg_limits cfg) →
      zcio_http_server_start w cfg = (w', Some s) → srv_reach lim s
  | reach_poll w s t w' s' r : srv_reach lim s → zcio_http_server_poll w s t = Ok (w', s', r) → srv_reach lim s'
  | reach_stop w s : srv_reach lim s → srv_reach lim (zcio_http_server_stop w s).2.

Section Reach.
Context `{Allocator} (S : Server) {W : Type} `{NetOk W} `{QuicOk W} `{Boot W}.

(** One poll under the server's own handler. *)
Lemma poll_ok w s t : srv_ok s → ∃ w' s' r, zcio_http_server_poll w s t = Ok (w', s', r) ∧
  (let s0 := (poll_start w s).2 in
   if s_stopped s then (w', s', r) = (w, s, ZCIO_ERR_EOF)
   else failed s0 s' r ∨ turned s0 (woken (poll_start w s).1 s0 t) (accepted_now (poll_start w s).1 s0 t) s' r).
Proof.
  intros Hs. destruct (poll_both S srv_handler srv_handler (s_lim s) (λ _ _, eq_refl) w s t eq_refl Hs)
    as ([[w' s'] r] & E & _ & P). rewrite with_own_handler in E. by exists w', s', r.
Qed.

Lemma poll_keeps w s t w' s' r : srv_ok s → zcio_http_server_poll w s t = Ok (w', s', r) →
  srv_ok s' ∧ s_lim s' = s_lim s.
Proof.
  intros Hs E. destruct (poll_ok w s t Hs) as (w1 & s1 & r1 & E1 & P). rewrite E in E1. injection E1 as <- <- <-.
  cbv zeta in P. destruct (s_stopped s) eqn:Est; [by injection P as -> -> ->|].
  destruct (start_ok w s Hs Est) as (G1 & _ & G3 & _). destruct P as [(_ & cap & -> & Hok)|[]]; [done|]. split; [done|congruence].
Qed.

Lemma reach_ok lim s : srv_lims_ok lim → srv_reach lim s → srv_ok s ∧ s_lim s = lim.
Proof.
  intros Hl. induction 1 as [w cfg w' s E1 E2|w s t w' s' r _ [IH1 IH2] E|w s _ [IH1 IH2]].
  - by eapply start_srv_ok.
  - destruct (poll_keeps w s t w' s' r IH1 E). split; [done|congruence].
  - split; [|done]. destruct IH1. by constructor.
Qed.
End Reach.

(** ** Deadlines *)





(** ** Stopping *)

Lemma same_ids cs cs' : Forall2 same_conn cs cs' → map k_id cs' = map k_id cs.
Proof. induction 1 as [|c c' cs cs' Hc _ IH]; [done|]. cbn. by rewrite Hc, IH. Qed.

Lemma sublist_map_filter {A T} (f : A → T) (p : A → bool) l : map f (List.filter p l) `sublist_of` map f l.
Proof.
  induction l as [|x l IH]; [constructor|]. cbn. destruct (p x); cbn; [by apply sublist_skip|by apply sublist_cons].
Qed.

Section Stopping.
Context `{Allocator} {W : Type} `{Net W} `{Quic W}.

(** No listener is served. *)
Lemma special_stopping w s rc evs : s_stopping s = true →
  ∃ w', service_special w s rc evs = Ok (w', s, 0) ∧ (w' = w ∨ w' = wake_drain w (s_wake_r s)).
Proof.
  intros Hs. unfold service_special, poll_listen, poll_redirect. rewrite Hs. bcase; [|eauto]. cbn [mbind exec_bind].
  bcase; eauto.
Qed.

Lemma drain_deadline_set w s : s_stop_flag s = true → s_stopping s = false →
  ∃ w1, s_drain_deadline_ms (poll_start w s).2 = u64 ((zcio_now_ms_ w1).2 + u64 (drain_timeout_ms (s_lim s))).
Proof.
  intros Hf Hs. unfold poll_start. rewrite Hf, Hs. cbn [andb negb]. unfold begin_stop.
  destruct (match s_h3 s with Some h => _ | None => _ end) as [w1 h3]. exists w1.
  destruct (zcio_now_ms_ w1) as [w2 now]. done.
Qed.
End Stopping.

(** ** The plaintext preface *)

Lemma preface_look p : p ≠ [] →
  let look := if zlen p <? H2_PREFACE_LEN then zlen p else H2_PREFACE_LEN in
  if bool_decide (ztake look p = ztake look H2_PREFACE) then
    if zlen p <? H2_PREFACE_LEN then ∃ t, t ≠ [] ∧ H2_PREFACE = p ++ t else H2_PREFACE `prefix_of` p
  else ∀ q, ¬ H2_PREFACE `prefix_of` (p ++ q).
Proof.
  intros Hp. cbv zeta. destruct (zlen p <? H2_PREFACE_LEN) eqn:E; btest; unfold H2_PREFACE_LEN in *;
    assert (length H2_PREFACE = 14%nat) as Hn by done.
  - rewrite (take_ge p) by lia. case_bool_decide as Ht.
    + exists (zdrop (zlen p) H2_PREFACE). split; [|by rewrite Ht at 1; rewrite take_drop].
      intros Hd%(f_equal length). rewrite length_drop in Hd. cbn [length] in Hd. lia.
    + intros q [t Hq]. apply Ht. rewrite <- (take_app_length p q) at 1. rewrite Hq, take_app_le by lia. f_equal. lia.
  - case_bool_decide as Ht.
    + exists (zdrop 14 p). rewrite <- (take_drop (Z.to_nat 14) p) at 1. f_equal. rewrite Ht. by rewrite take_ge by lia.
    + intros q [t Hq]. apply Ht. rewrite <- (take_app_le p q) by lia. by rewrite Hq, take_app_le by lia.
Qed.

(** C9: A plaintext connection is taken for HTTP/2 exactly when HTTP/2 is
    enabled and its bytes begin with the preface, for HTTP/1.1 as soon as no
    continuation of its bytes can, and waits only while both are possible; so
    the pieces the bytes arrive in do not matter. *)
Theorem plain_sniff (a : Allocator) srv c (Hw : buf_wf (k_in c)) :
  let p := buf_contents (k_in c) in
  let h2 := has_version (s_versions srv) ZCIO_HTTP2 in
  match conn_select_proto_plain srv c with
  | (false, c') => c' = c ∧ (p = [] ∨ h2 = true ∧ ∃ t, t ≠ [] ∧ H2_PREFACE = p ++ t)
  | (true, c') => (h2 = true ∧ H2_PREFACE `prefix_of` p ∧ c' = new_h2 srv c) ∨
      ((∀ q, ¬ (h2 = true ∧ H2_PREFACE `prefix_of` (p ++ q))) ∧ c' = choose_h1 srv c)
  end.
Proof.
  cbv zeta. unfold conn_select_proto_plain. rewrite <- (zlen_contents _ Hw). set (p := buf_contents (k_in c)).
  bcase. { split; [done|]. left. destruct p; [done|cbn in *; lia]. }
  assert (p ≠ []) as Hp by (intros E; rewrite E in *; done). pose proof (preface_look p Hp) as Hl. cbv zeta in Hl.
  destruct (has_version _ _); cbn [andb]; [|right; split; [by intros q []|done]].
  destruct (bool_decide _); [destruct (zlen p <? H2_PREFACE_LEN); [by auto|by left]|].
  right. split; [|done]. intros q [_ Hq]. by apply (Hl q).
Qed.

(** ** Properties *)

Section Properties.
Context (a : Allocator) (S : Server) (W : Type) (N : Net W) (Q : Quic W) (B : Boot W).
Context (NK : NetOk W) (QK : QuicOk W).

(** C1: In every state the calls can bring a server to, whatever sockets, TLS
    and the QUIC engine deliver, a poll returns with a documented result: no
    protocol machine faults or spins, no buffer is read out of bounds; the
    table never holds more connections than configured, every connection left
    in it is one its protocol can go on from, and EOF means that the server has
    stopped and holds none. *)
Theorem server_poll_safe lim s w t (Hlim : srv_lims_ok lim) (Hs : srv_reach lim s) :
  ∃ w' s' r, zcio_http_server_poll w s t = Ok (w', s', r) ∧ s_lim s' = lim ∧
    zlen (s_conns s') ≤ max_connections lim ∧ Forall (fresh lim) (s_conns s') ∧
    (r = ZCIO_ERR_EOF ∨ r = ZCIO_ERR ∨ r = ZCIO_ERR_NOMEM ∨ 0 ≤ r) ∧
    (r = ZCIO_ERR_EOF → s_stopped s' = true ∧ s_conns s' = []).
Proof.
  destruct (reach_ok S lim s Hlim Hs) as [Hok HL]. destruct (poll_ok S w s t Hok) as (w' & s' & r & E & P).
  destruct (poll_keeps S w s t w' s' r Hok E) as [Hok' HL']. exists w', s', r. split; [done|].
  rewrite <- HL, <- HL'. split; [done|]. split; [apply Hok'|]. split; [apply Hok'|]. cbv zeta in P.
  assert (r = ZCIO_ERR_EOF → s_stopped s' = true → s_stopped s' = true ∧ s_conns s' = []) as Hst.
  { intros _ Est. split; [done|by apply (sv_stopped s')]. }
  destruct (s_stopped s) eqn:Est.
  - injection P as -> -> ->. split; [by left|]. intros Hr. by apply Hst.
  - destruct P as [([-> | ->] & _)|T]; [by split; [right; right; left|]|by split; [right; left|]|].
    split; [destruct (tn_code _ _ _ _ _ T); auto|]. intros Hr. by apply Hst; [|apply (tn_stopped _ _ _ _ _ T)].
Qed.



(** C8: Graceful stop.  Once it is requested, a poll accepts nothing: the
    listeners are served no more, the connections it keeps are some of those the
    server had, and all of them have work in flight.  None is kept when the wait
    ends past the drain deadline, which is [drain_timeout_ms] after the stop
    began.  The poll reports EOF exactly when no connection is left, of TCP and
    of HTTP/3; the drain deadline does not bind those of HTTP/3. *)
Theorem server_drains lim s w t (Hlim : srv_lims_ok lim) (Hs : srv_reach lim s)
  (Hrun : s_stopped s = false) (Hstop : s_stop_flag s || s_stopping s = true) :
  let s0 := (poll_start w s).2 in
  (s_stopping s = false → ∃ w1, s_drain_deadline_ms s0 = u64 ((zcio_now_ms_ w1).2 + u64 (drain_timeout_ms lim))) ∧
  (∀ w1 rc evs, ∃ w2, service_special w1 s0 rc evs = Ok (w2, s0, 0) ∧ (w2 = w1 ∨ w2 = wake_drain w1 (s_wake_r s0))) ∧
  ∃ w' s' r, zcio_http_server_poll w s t = Ok (w', s', r) ∧
    (r = ZCIO_ERR ∨ r = ZCIO_ERR_NOMEM ∨
     (map k_id (s_conns s') `sublist_of` map k_id (s_conns s0) ∧
      Forall (λ c, conn_drained c = false) (s_conns s') ∧
      (s_drain_deadline_ms s0 ≤ woken (poll_start w s).1 s0 t → s_conns s' = []) ∧
      (r = ZCIO_ERR_EOF ↔ s_conns s' = [] ∧ zh3_idle_ (s_h3 s') = true))).
Proof.
  destruct (reach_ok S lim s Hlim Hs) as [Hok HL]. destruct (start_ok w s Hok Hrun) as (_ & _ & _ & _ & G5).
  specialize (G5 Hstop). cbv zeta. split.
  { intros Hn. rewrite Hn, orb_false_r in Hstop. rewrite <- HL. by apply drain_deadline_set. }
  split; [intros w1 rc evs; by apply special_stopping|].
  destruct (poll_ok S w s t Hok) as (w' & s' & r & E & P). exists w', s', r. split; [done|]. cbv zeta in P. rewrite Hrun in P.
  destruct P as [([-> | ->] & _)|T]; [by right; left|by left|]. right. right.
  destruct (tn_kept _ _ _ _ _ T) as (worked & Hid & K). rewrite (tn_new _ _ _ _ _ T G5), app_nil_r in K.
  assert (∀ c, c ∈ s_conns s' → conn_drained c = false ∧ woken (poll_start w s).1 (poll_start w s).2 t < s_drain_deadline_ms (poll_start w s).2) as Hall.
  { rewrite K. intros c [_ Hv]%list_elem_of_In%filter_In. apply survives_spec in Hv as (_ & _ & Hv). by apply Hv. }
  split; [rewrite K, <- (same_ids _ _ Hid); by apply sublist_map_filter|].
  split; [apply Forall_forall; intros c Hc; by apply Hall|]. split.
  - intros Hd. destruct (s_conns s') as [|c cs]; [done|]. destruct (Hall c) as [_ Hlt]; [by left|lia].
  - rewrite (tn_eof _ _ _ _ _ T). by split; [intros (_ & ?)|].
Qed.
End Properties.

(** ** A network to run on

    The clock ticks at each reading; [n_queue] connections wait at the
    listener; one stream gives the pieces [n_in] and takes as many bytes per
    write as [n_room] says, and all of them when that runs out. *)
Record net := mk_net { n_now : Z; n_queue : nat; n_in : list bytes; n_room : list Z }.

Definition piece_ok (n : Z) (p : bytes) : bool := forallb (λ b, (0 <=? b) && (b <? 256)) p && (zlen p <=? n).

#[export] Instance ex_net : Net net := {|
  zcio_now_ms_ w := (mk_net ((n_now w + 1) mod 2 ^ 40) (n_queue w) (n_in w) (n_room w), n_now w mod 2 ^ 40);
  sock_accept w _ := match n_queue w with
    | S n => (mk_net (n_now w) n (n_in w) (n_room w), Accepted 7)
    | O => (w, WouldBlock) end;
  accept_backlog w _ := n_queue w;
  closesocket w _ := w;
  tcp_stream_from_fd w fd := (w, Some fd);
  tls_wrap_nb w _ s := (w, Some s);
  tls_handshake w _ := (w, ZCIO_OK);
  tls_alpn _ _ := None;
  stream_read w _ n := match n_in w with
    | p :: ps => if piece_ok n p then (mk_net (n_now w) (n_queue w) ps (n_room w), zlen p, p) else (w, ZCIO_ERR, [])
    | [] => (w, ZCIO_ERR_WOULDBLOCK, []) end;
  stream_write w _ p := match n_room w with
    | k :: ks => (mk_net (n_now w) (n_queue w) (n_in w) ks,
                  if (0 <? k) && (k <=? zlen p) then k else ZCIO_ERR_WOULDBLOCK)
    | [] => (w, zlen p) end;
  upgrade_write _ _ _ := true;
  stream_free w _ := w;
  sock_poll w fds _ := (w, zlen fds, map (λ _, Z.lor POLLIN POLLOUT) fds);
  wake_drain w _ := w;
  wake_poke w _ := w |}.

#[export] Instance ex_quic : Quic net := {|
  ssl_read e _ _ := (e, false, []); ssl_write e _ p := (e, true, zlen p); ssl_get_error _ _ := SSL_ERROR_ZERO_RETURN;
  ssl_handle_events e _ := e; ssl_stream_conclude e _ := e; ssl_free e _ := e; ssl_write_buf_used _ _ := Some 0;
  ssl_accept_connection e _ := (e, None); ssl_accept_stream e _ := (e, None); ssl_is_bidi _ _ := true;
  ssl_stream_id _ _ := 0; ssl_new_uni_stream e _ := (e, None); ssl_configure e _ := e; ssl_shutdown e _ := (e, 1);
  ssl_conn_closed _ _ := false; ssl_event_timeout _ _ := None;
  ssl_ctx_free e _ := e; udp_close e _ := e |}.

#[export] Instance ex_boot : Boot net := {|
  make_listener w _ p _ := (w, Some (3, if p =? 0 then 8080 else p)); make_wake w := (w, Some (4, 5)); free_wake w _ := w;
  tls_server_ctx_files w _ _ := (w, Some 1); tls_server_ctx w := (w, Some 1); tls_ctx_set_alpn w _ _ := w;
  tls_ctx_free w _ := w; quic_ctx w _ := (w, None); quic_bind w _ := (w, None);
  quic_listener w _ _ := (w, None) |}.

Lemma piece_ok_spec n p : piece_ok n p = true → is_bytes p ∧ zlen p ≤ n.
Proof. intros [H1 H2]%andb_prop. btest. split; [by apply bytes_dec|done]. Qed.

#[export] Instance ex_net_ok : NetOk net.
Proof.
  constructor.
  - intros w s n w' r d Hn. cbn. destruct (n_in w) as [|p ps]; [by intros [= <- <- <-]|].
    destruct (piece_ok n p) eqn:E; [|by intros [= <- <- <-]]. intros [= <- <- <-] _.
    destruct (piece_ok_spec n p E). by split_and!.
  - intros w s p w' r. cbn. destruct (n_room w) as [|k ks]; [by intros [= <- <-]|].
    destruct (_ && _) eqn:E; intros [= <- <-]; btest; [done|]. unfold ZCIO_ERR_WOULDBLOCK. lia.
  - intros w. cbn. pose proof (Z.mod_pos_bound (n_now w) (2 ^ 40) ltac:(lia)). lia.
  - intros w fd w' x. cbn. destruct (n_queue w) as [|n]; intros [= <- <-]; [done|]. intros _. cbn. lia.
  - done.
  - done.
  - done.
  - done.
  - done.
Qed.

#[export] Instance ex_quic_ok : QuicOk net.
Proof.
  constructor; cbn.
  - intros e s n e' ok d Hn [= <- <- <-]. split; [constructor|done].
  - intros e s p e' ok w [= <- <- <-]. lia.
Qed.

(** A server with the default configuration, and polls of it. *)
Definition ex_start (w : net) : option zcio_http_server := (@zcio_http_server_start always_alloc net ex_net ex_quic ex_boot w None).2.

Fixpoint ex_polls (S : Server) (n : nat) (w : net) (s : zcio_http_server) : option (net * zcio_http_server) :=
  match n with
  | O => Some (w, s)
  | Datatypes.S n => match @zcio_http_server_poll always_alloc S net ex_net ex_quic w s 0 with
           | Ok (w, s, _) => ex_polls S n w s
           | _ => None
           end
  end.

Lemma ex_polls_reach S n w s w' s' : @srv_reach always_alloc S net _ _ _ _ _ ex_limits s →
  ex_polls S n w s = Some (w', s') → @srv_reach always_alloc S net _ _ _ _ _ ex_limits s'.
Proof.
  revert w s. induction n as [|n IH]; intros w s Hr; cbn [ex_polls]; [by intros [= <- <-]|].
  destruct (zcio_http_server_poll w s 0) as [[[w1 s1] r]| |] eqn:E; [|done..]. apply IH. by eapply reach_poll.
Qed.

Lemma ex_start_reach S w s : ex_start w = Some s → @srv_reach always_alloc S net _ _ _ _ _ ex_limits s.
Proof.
  intros E. unfold ex_start in E. destruct (zcio_http_server_start w None) as [w1 o] eqn:E1. cbn in E. subst o.
  by eapply (reach_start _ _ None).
Qed.

Lemma ex_srv_lims : srv_lims_ok ex_limits.
Proof. split; [exact ex3_srv_lims|done]. Qed.

Definition ex_world (request : bytes) (room : list Z) : net := mk_net 100 1 [request] room.

Definition ex_state (request : bytes) (room : list Z) (n : nat) : option (net * zcio_http_server) :=
  match ex_start (ex_world request room) with Some s => ex_polls (ex_server hello) n (ex_world request room) s | None => None end.

Lemma ex_state_reach S request room n w s : ex_server hello = S → ex_state request room n = Some (w, s) →
  @srv_reach always_alloc S net _ _ _ _ _ ex_limits s.
Proof.
  intros <-. unfold ex_state. destruct (ex_start _) as [s0|] eqn:E; [|done]. apply ex_polls_reach. by eapply ex_start_reach.
Qed.

(** The requests of the first connection that were answered, and what waits. *)
Definition ex_seen (o : option (net * zcio_http_server)) : option (Z * Z) :=
  match o with
  | Some (_, s) => match s_conns s with
      | c :: _ => match k_proto c with CONN_H1 h => Some (c_req_count h, ZHS_AVAIL (k_out c)) | _ => None end
      | [] => None end
  | None => None
  end.

Definition close_request : bytes :=
  B "GET / HTTP/1.1" ++ CRLF ++ B "Host: h" ++ CRLF ++ B "Connection: close" ++ CRLF ++ CRLF.

(** One request that ends its connection, to a client that takes its answer
    slowly: the handler runs again at every poll until the answer is out. *)
Example closing_reruns_handler :
  map (λ n, option_map fst (ex_seen (ex_state close_request [10; 0; 10; 0; 10; 0] n))) [2%nat; 3%nat; 4%nat]
  = [Some 1; Some 2; Some 3].
Proof. vm_compute. reflexivity. Qed.

(** A client that sends the end of a request together with the start of the
    next: the new request is timed from the first byte of the old one. *)
Definition ex_pipelined (n : nat) : option (net * zcio_http_server) :=
  let w := mk_net 100 1 [B "GET / HT"; B "TP/1.1" ++ CRLF ++ B "Host: h" ++ CRLF ++ CRLF ++ B "GET"] [] in
  match ex_start w with Some s => ex_polls (ex_server hello) n w s | None => None end.

(** Answered requests, the time stamp, and the time of the last read or write. *)
Definition ex_timing (o : option (net * zcio_http_server)) : option (Z * Z * Z) :=
  match o with
  | Some (_, s) => match s_conns s with
      | c :: _ => match k_proto c with CONN_H1 h => Some (c_req_count h, k_head_start_ms c, k_activity_ms c) | _ => None end
      | [] => None end
  | None => None
  end.

Example pipelined_start_stale :
  map (λ n, ex_timing (ex_pipelined n)) [2%nat; 3%nat] = [Some (0, 105, 105); Some (1, 105, 108)].
Proof. vm_compute. reflexivity. Qed.

(** ** Witnesses *)

Definition ex_now : option (net * zcio_http_server) := ex_state close_request [10; 0] 2.

(** Running, with one connection. *)
Definition ex_running : bool :=
  match ex_now with
  | Some (_, s) => negb (s_stopped s) && negb (s_stopping s) && (zlen (s_conns s) =? 1) &&
                   match s_h3 s with None => true | Some _ => false end
  | None => false
  end.

Lemma ex_now_reach w s : ex_now = Some (w, s) → @srv_reach always_alloc (ex_server hello) net _ _ _ _ _ ex_limits s.
Proof. unfold ex_now. intros E. exact (ex_state_reach _ close_request [10; 0] 2 w s eq_refl E). Qed.

Lemma ex_now_ok : ∃ w s, ex_now = Some (w, s) ∧ @srv_reach always_alloc (ex_server hello) net _ _ _ _ _ ex_limits s ∧
  s_stopped s = false ∧ zlen (s_conns s) = 1 ∧ s_h3 s = None.
Proof.
  assert (ex_running = true) as Hr by (vm_compute; reflexivity). unfold ex_running in Hr.
  pose proof ex_now_reach as Hreach.
  revert Hr Hreach. generalize ex_now. intros [[w s]|] Hr Hreach; [|discriminate]. exists w, s.
  split; [reflexivity|]. split; [exact (Hreach w s eq_refl)|].
  apply andb_prop in Hr as [Hr Hh]. apply andb_prop in Hr as [Hr Hn]. apply andb_prop in Hr as [Hr _].
  apply negb_true_iff in Hr. apply Z.eqb_eq in Hn. split; [exact Hr|]. split; [exact Hn|]. by destruct (s_h3 s).
Qed.

Lemma server_poll_safe_witness : ∃ w s w' s' r, ex_now = Some (w, s) ∧ zlen (s_conns s) = 1 ∧
  @zcio_http_server_poll always_alloc (ex_server hello) net _ _ w s 0 = Ok (w', s', r) ∧
  zlen (s_conns s') ≤ max_connections ex_limits.
Proof.
  destruct ex_now_ok as (w & s & E & Hr & _ & Hn & _).
  destruct (server_poll_safe always_alloc (ex_server hello) net _ _ _ _ _ ex_limits s w 0 ex_srv_lims Hr)
    as (w' & s' & r & Ep & _ & Hm & _).
  exists w, s, w', s', r. split; [exact E|]. split; [exact Hn|]. split; [exact Ep|exact Hm].
Defined.



Lemma server_drains_witness : ∃ w s w' s' r, ex_now = Some (w, s) ∧
  let s1 := (zcio_http_server_stop w s).2 in
  @zcio_http_server_poll always_alloc (ex_server hello) net _ _ w s1 0 = Ok (w', s', r) ∧
  (r = ZCIO_ERR ∨ r = ZCIO_ERR_NOMEM ∨ (r = ZCIO_ERR_EOF ↔ s_conns s' = [] ∧ zh3_idle_ (s_h3 s') = true)).
Proof.
  destruct ex_now_ok as (w & s & E & Hr & Hst & Hn & Hh).
  destruct (server_drains always_alloc (ex_server hello) net _ _ _ _ _ ex_limits (zcio_http_server_stop w s).2 w 0
    ex_srv_lims (reach_stop ex_limits w s Hr) Hst eq_refl) as (_ & _ & w' & s' & r & Ep & Hd).
  exists w, s, w', s', r. split; [exact E|]. split; [exact Ep|]. tauto.
Defined.

(** A connection whose bytes look like the preface so far. *)
Definition ex_plain (p : bytes) : conn :=
  mk_sconn 7 (Some 7) (buf_of p) (CONN_UNKNOWN buf_empty) false false false false false false false 0 0 false 0.
Definition ex_srv2 : zcio_http_server :=
  mk_srv 3 ex_limits (Some 3) None None 8080 (Some (4, 5)) None false [] 0 0 false false false 0.

Lemma plain_sniff_witness :
  (@conn_select_proto_plain always_alloc ex_srv2 (ex_plain (B "PRI * HTT"))).1 = false ∧
  (B "PRI * HTT" = [] ∨ has_version 3 ZCIO_HTTP2 = true ∧ ∃ t, t ≠ [] ∧ H2_PREFACE = B "PRI * HTT" ++ t).
Proof.
  split; [vm_compute; reflexivity|].
  assert (buf_wf (k_in (ex_plain (B "PRI * HTT")))) as Hw.
  { apply (buf_of_wf (B "PRI * HTT")). vm_compute. discriminate. }
  pose proof (plain_sniff always_alloc ex_srv2 (ex_plain (B "PRI * HTT")) Hw) as H. cbv zeta in H.
  assert (@conn_select_proto_plain always_alloc ex_srv2 (ex_plain (B "PRI * HTT")) = (false, ex_plain (B "PRI * HTT"))) as E
    by (vm_compute; reflexivity).
  rewrite E in H. destruct H as [_ H]. exact H.
Defined.
