(* ===== verification/Url.v ===== *)
(** * Url: authorities and the C string functions the clients use

    The WebSocket and the HTTP client split an authority and read its port in
    the same way ([ws_url_parse] of [src/ws.c], [url_parse] of [src/http.c]);
    the lemmas give back the endpoint from an authority built for a redirect. *)
From stdpp Require Import base tactics list option strings.
From Stdlib Require Import ZArith Lia.
From S2P Require Import Prelude Buf HttpUtil H1 H1Safe.

(** ** C library *)

Fixpoint starts_with (p s : bytes) : bool :=
  match p, s with
  | [], _ => true
  | a :: p, b :: s => (a =? b) && starts_with p s
  | _, _ => false
  end.

(** [strstr]: the offset of the first occurrence. *)
Fixpoint strstr (s pat : bytes) : option Z :=
  if starts_with pat s then Some 0
  else match s with [] => None | _ :: s => Z.succ <$> strstr s pat end.

Definition is_space (c : Z) : bool := ((9 <=? c) && (c <=? 13)) || (c =? 32).

(** The digits read by [strtol] and what follows them. *)
Fixpoint digits (s : bytes) (v : Z) : Z * bytes :=
  match s with
  | c :: s' => if h1_is_digit c then digits s' (v * 10 + (c - 48)) else (v, s)
  | [] => (v, [])
  end.

(** [strtol(s, &end, 10)] on less than 16 characters: the value and the rest;
    [None] when no digit was found ([end == s]). *)
Definition strtol (s : bytes) : option (Z * bytes) :=
  let s := drop_while is_space s in
  let '(neg, s) := match s with 45 :: s' => (true, s') | 43 :: s' => (false, s') | _ => (false, s) end in
  match s with
  | c :: _ =>
      if h1_is_digit c then
        let '(v, rest) := digits s 0 in Some (if neg : bool then - v else v, rest)
      else None
  | [] => None
  end.

(** ** Authorities *)

(** Dropping everything up to an '@', as long as there is one. *)
Fixpoint strip_userinfo (fuel : nat) (auth : bytes) : bytes :=
  match fuel with
  | O => auth
  | S fuel => match memchr 64 auth with Some i => strip_userinfo fuel (zdrop (i + 1) auth) | None => auth end
  end.

(** The host and the port text of an authority. *)
Definition split_authority (auth : bytes) : option (bytes * option bytes) :=
  match auth with
  | 91 :: a =>
      match memchr 93 a with
      | None => None
      | Some i =>
          match zdrop (i + 1) a with
          | [] => Some (ztake i a, None)
          | 58 :: p => Some (ztake i a, Some p)
          | _ => None
          end
      end
  | _ =>
      match memchr 58 auth with
      | Some i => Some (ztake i auth, Some (zdrop (i + 1) auth))
      | None => Some (auth, None)
      end
  end.

Definition parse_port (sec : bool) (ps : option bytes) : option Z :=
  match ps with
  | Some (c :: p) =>
      let ps := c :: p in
      if 16 <=? zlen ps then None
      else match strtol ps with
      | Some (v, []) => if (v <? 1) || (65535 <? v) then None else Some v
      | _ => None
      end
  | _ => Some (if sec then 443 else 80)
  end.

Definition default_port (secure : bool) : Z := if secure then 443 else 80.

Definition has_colon (host : bytes) : bool := bool_decide (memchr 58 host ≠ None).

(** ** Reading back what was written *)

Lemma digits_all ds v : Forall (λ c, 48 ≤ c ≤ 57) ds →
  digits ds v = (fold_left (λ v c, v * 10 + (c - 48)) ds v, []).
Proof.
  revert v. induction ds as [|c ds IH]; intros v Hd; [done|]. apply Forall_cons in Hd as [Hc Hd].
  cbn [digits fold_left]. unfold h1_is_digit.
  destruct (_ && _) eqn:E; [by apply IH|]. apply andb_false_iff in E as [E|E]; btest; lia.
Qed.

Lemma strtol_dec n : 0 ≤ n < 10 ^ 20 → strtol (dec n) = Some (n, []).
Proof.
  intros Hn. destruct (dec_spec n Hn) as (Hv & Hd & Hne). unfold strtol.
  pose proof (digits_all (dec n) 0 Hd) as Hall. destruct (dec n) as [|c l] eqn:E; [done|].
  apply Forall_cons in Hd as [Hc _].
  assert (drop_while is_space (c :: l) = c :: l) as ->.
  { cbn [drop_while]. unfold is_space. destruct (_ || _) eqn:Es; [|done].
    apply orb_true_iff in Es as [Es|Es]; btest; lia. }
  assert (h1_is_digit c = true) as Hdig by (unfold h1_is_digit; apply andb_true_iff; split; lia).
  assert ((match c :: l with 45 :: s' => (true, s') | 43 :: s' => (false, s') | _ => (false, c :: l) end)
    = (false, c :: l)) as ->.
  { repeat (destruct c as [|c|c]; try done; try lia). }
  rewrite Hdig, Hall. by rewrite <- Hv.
Qed.

Lemma dec_digits_length fuel n acc k : 0 ≤ n < 10 ^ Z.of_nat k →
  (length (dec_digits fuel n acc) ≤ k `max` 1 + length acc)%nat.
Proof.
  revert n acc k. induction fuel as [|fuel IH]; intros n acc k Hn; cbn [dec_digits]; [lia|].
  bcase; [cbn; lia|]. destruct k as [|k]; [change (10 ^ Z.of_nat 0) with 1 in Hn; lia|].
  rewrite Nat2Z.inj_succ, Z.pow_succ_r in Hn by lia.
  etrans; [apply (IH (n / 10) _ k)|].
  - split; [apply Z.div_pos; lia|]. apply Z.div_lt_upper_bound; lia.
  - destruct k; cbn [length]; [|lia]. change (10 ^ Z.of_nat 0) with 1 in Hn. lia.
Qed.

Lemma dec_port_length p : 0 ≤ p ≤ 65535 → (length (dec p) ≤ 5)%nat.
Proof.
  intros Hp. unfold dec. bcase; [lia|]. etrans; [apply (dec_digits_length _ _ _ 5)|cbn; lia].
  change (10 ^ Z.of_nat 5) with 100000. lia.
Qed.

(** What the parser guarantees of a host. *)
Definition host_ok (h : bytes) : Prop :=
  47 ∉ h ∧ 64 ∉ h ∧ h ≠ [] ∧ (58 ∈ h ∨ head h = Some 91 → 93 ∉ h).

Lemma strip_userinfo_suffix fuel a : strip_userinfo fuel a `suffix_of` a.
Proof.
  revert a. induction fuel as [|fuel IH]; intros a; cbn [strip_userinfo]; [done|].
  destruct (memchr 64 a) as [i|]; [|done]. etrans; [apply IH|]. apply suffix_drop.
Qed.

Lemma strip_userinfo_none fuel a : (length a < fuel)%nat → 64 ∉ strip_userinfo fuel a.
Proof.
  revert a. induction fuel as [|fuel IH]; intros a Hl; [lia|]. cbn [strip_userinfo].
  pose proof (memchr_spec 64 a) as Hm. destruct (memchr 64 a) as [i|]; [|done]. destruct Hm as (Hi & _).
  apply IH. rewrite length_drop. lia.
Qed.

Lemma strip_userinfo_id fuel a : 64 ∉ a → strip_userinfo fuel a = a.
Proof.
  intros Ha. destruct fuel; [done|]. cbn [strip_userinfo]. pose proof (memchr_spec 64 a) as Hm.
  destruct (memchr 64 a) as [i|]; [|done]. destruct Hm as (_ & Hs & _). exfalso. apply Ha.
  rewrite Hs, elem_of_app, elem_of_cons. auto.
Qed.

Lemma memchr_none c s : c ∉ s → memchr c s = None.
Proof.
  intros Hn. pose proof (memchr_spec c s) as Hm. destruct (memchr c s) as [i|]; [|done].
  destruct Hm as (_ & Hs & _). exfalso. apply Hn. rewrite Hs, elem_of_app, elem_of_cons. auto.
Qed.

Lemma elem_of_ztake (x : Z) n l : x ∈ ztake n l → x ∈ l.
Proof. intros Hx. rewrite <- (take_drop (Z.to_nat n) l). apply elem_of_app. by left. Qed.

(** The two shapes of an authority. *)
Definition plain_split (auth : bytes) : option (bytes * option bytes) :=
  match memchr 58 auth with
  | Some i => Some (ztake i auth, Some (zdrop (i + 1) auth))
  | None => Some (auth, None)
  end.

Lemma split_plain auth : head auth ≠ Some 91 → split_authority auth = plain_split auth.
Proof.
  intros Hh. unfold split_authority. destruct auth as [|c a]; [done|]. cbn in Hh.
  destruct (decide (c = 91)) as [->|Hc]; [done|]. repeat (destruct c as [|c|c]; try done).
Qed.

Lemma split_bracket h rest : 93 ∉ h →
  split_authority (91 :: h ++ 93 :: rest) =
  match rest with [] => Some (h, None) | c :: p => if c =? 58 then Some (h, Some p) else None end.
Proof.
  intros Hh. unfold split_authority. rewrite memchr_app by done.
  assert (zdrop (zlen h + 1) (h ++ 93 :: rest) = rest) as ->.
  { change (93 :: rest) with ([93] ++ rest). rewrite app_assoc. apply zdrop_app_zlen. zl. }
  rewrite ztake_app_zlen by done. destruct rest as [|c p]; [done|].
  destruct (c =? 58) eqn:E; btest; [by subst|]. repeat (destruct c as [|c|c]; try done; try lia).
Qed.

Lemma split_host_ok auth host ps : 47 ∉ auth → 64 ∉ auth → split_authority auth = Some (host, ps) →
  zlen host ≠ 0 → host_ok host.
Proof.
  intros H1 H2 Hs Hne. destruct (decide (head auth = Some 91)) as [Hh|Hh].
  - destruct auth as [|c a]; [done|]. injection Hh as ->. unfold split_authority in Hs.
    pose proof (memchr_spec 93 a) as Hm. destruct (memchr 93 a) as [i|]; [|done].
    destruct Hm as (_ & _ & Hn). assert (host = ztake i a) as -> by (repeat case_match; congruence).
    unfold host_ok. split_and!; [..|done].
    + intros Hx%elem_of_ztake. apply H1. by right.
    + intros Hx%elem_of_ztake. apply H2. by right.
    + intros E. by rewrite E in Hne.
  - rewrite split_plain in Hs by done. unfold plain_split in Hs.
    pose proof (memchr_spec 58 auth) as Hm.
    assert (∃ i, host = ztake i auth ∧ 58 ∉ host) as (i & -> & Hc).
    { destruct (memchr 58 auth) as [i|].
      - injection Hs as <- _. exists i. by destruct Hm as (_ & _ & ?).
      - injection Hs as <- _. exists (zlen auth). split; [|done]. by rewrite Nat2Z.id, firstn_all. }
    unfold host_ok. split_and!.
    + by intros Hx%elem_of_ztake.
    + by intros Hx%elem_of_ztake.
    + intros E. by rewrite E in Hne.
    + intros [?|Hx]; [done|]. exfalso. apply Hh. destruct auth as [|c a]; [by rewrite take_nil in Hx|].
      destruct (Z.to_nat i); [done|]. done.
Qed.

(** The port as [ws_resolve] writes it. *)
Definition port_text (sec : bool) (port : Z) : bytes :=
  if port =? default_port sec then [] else ztake 15 (B ":" ++ dec port).

Lemma port_text_cases sec port : 1 ≤ port ≤ 65535 →
  (port_text sec port = [] ∧ port = default_port sec) ∨ port_text sec port = 58 :: dec port.
Proof.
  intros Hp. unfold port_text. bcase; [by left|]. right.
  assert (B ":" ++ dec port = 58 :: dec port) as -> by done. apply firstn_all2.
  pose proof (dec_port_length port). cbn [length]. lia.
Qed.

Lemma parse_port_dec sec port : 1 ≤ port ≤ 65535 → parse_port sec (Some (dec port)) = Some port.
Proof.
  intros Hp. unfold parse_port. destruct (dec_spec port) as (_ & _ & Hne); [lia|].
  destruct (dec port) as [|c p] eqn:E; [done|]. rewrite <- E, strtol_dec by lia.
  pose proof (dec_port_length port). bcase; [lia|]. destruct (_ || _) eqn:Eb; [|done].
  apply orb_true_iff in Eb as [Eb|Eb]; btest; lia.
Qed.

Lemma dec_no c port : 1 ≤ port ≤ 65535 → ¬ 48 ≤ c ≤ 57 → c ∉ dec port.
Proof.
  intros Hp Hc Hx. destruct (dec_spec port) as (_ & Hd & _); [lia|].
  rewrite Forall_forall in Hd. by apply Hc, Hd.
Qed.

Definition authority (v6 : bool) (host pt : bytes) : bytes :=
  (if v6 then [91] else []) ++ host ++ (if v6 then [93] else []) ++ pt.

(** Splitting the authority [ws_resolve] builds gives the endpoint back. *)
Lemma split_resolved sec host port h ps : host_ok host → 1 ≤ port ≤ 65535 →
  split_authority (authority (has_colon host) host (port_text sec port)) = Some (h, ps) →
  h = host ∧ parse_port sec ps = Some port.
Proof.
  intros (H47 & H64 & Hne & H93) Hp Hs.
  assert (∀ rest, rest = port_text sec port →
    (match rest with [] => Some (host, None) | c :: p => if c =? 58 then Some (host, Some p) else None end
      = Some (h, ps)) → h = host ∧ parse_port sec ps = Some port) as Hend.
  { intros rest Hrest. destruct (port_text_cases sec port Hp) as [[Ht Hd]|Ht]; rewrite Ht in Hrest; subst rest.
    - intros [= <- <-]. split; [done|]. by rewrite Hd.
    - rewrite Z.eqb_refl. intros [= <- <-]. split; [done|]. by apply parse_port_dec. }
  unfold authority, has_colon in Hs. pose proof (memchr_spec 58 host) as Hm.
  case_bool_decide as Hcol; cbn [app] in Hs.
  - destruct (memchr 58 host) as [i|]; [|done].
    assert (58 ∈ host) as Hin by (destruct Hm as (_ & -> & _); rewrite elem_of_app, elem_of_cons; auto).
    rewrite split_bracket in Hs by auto. by eapply Hend.
  - assert (58 ∉ host) as Hn by (destruct (memchr 58 host); [discriminate Hcol|done]).
    destruct (decide (head host = Some 91)) as [Hh|Hh].
    { exfalso. destruct host as [|c host]; [done|]. injection Hh as ->. cbn [app] in Hs.
      unfold split_authority in Hs. rewrite memchr_none in Hs; [done|].
      rewrite elem_of_app. intros [Hx|Hx]; [apply H93; [by right|by right]|].
      destruct (port_text_cases sec port Hp) as [[Ht _]|Ht]; rewrite Ht in Hx; [by apply elem_of_nil in Hx|].
      apply elem_of_cons in Hx as [?|Hx]; [done|]. revert Hx. apply dec_no; lia. }
    rewrite split_plain in Hs by (by destruct host).
    unfold plain_split in Hs. eapply (Hend (port_text sec port)); [done|].
    destruct (port_text_cases sec port Hp) as [[Ht _]|Ht]; rewrite Ht in *.
    + rewrite app_nil_r in Hs. by rewrite memchr_none in Hs.
    + rewrite memchr_app in Hs by done. rewrite ztake_app_zlen in Hs by done.
      replace (zdrop (zlen host + 1) (host ++ 58 :: dec port)) with (dec port) in Hs; [by rewrite Z.eqb_refl|].
      change (host ++ 58 :: dec port) with (host ++ [58] ++ dec port). rewrite app_assoc. symmetry.
      apply zdrop_app_zlen. zl.
Qed.
