(* ===== verification/HttpClient.v ===== *)
(** * HttpClient: the synchronous HTTP/1.1 client ([src/http.c])

    URL parsing, request construction, response reading and parsing, redirects
    and the keep-alive session.  TCP connections, the TLS context and the clock
    are parameters.  A buffer is its initialised bytes and its capacity: a read
    past the bytes is a [Fault]. *)
From stdpp Require Import base tactics list option strings.
From Stdlib Require Import ZArith Lia.
From S2P Require Import Prelude Types Stream Buf HttpUtil Respond H1 Url.

Definition ZCIO_HTTP_MAX_REDIRECTS : nat := 5.
Definition ZCIO_HTTP_MAX_RESPONSE : Z := 64 * 1024 * 1024.
Definition INT_MAX : Z := 2 ^ 31 - 1.

(** ** Numbers as the C library reads them *)

(** [strtoll(s, NULL, 10)]: saturating; 0 without digits. *)
Definition strtoll (s : bytes) : Z :=
  match strtol s with Some (v, _) => Z.max (- 2 ^ 63) (Z.min v (2 ^ 63 - 1)) | None => 0 end.
Definition atoll (s : bytes) : Z := strtoll s.
Definition atoi (s : bytes) : Z := (strtoll s + 2 ^ 31) mod 2 ^ 32 - 2 ^ 31.

(** The hexadecimal digits from [s] on, their number added to [n]; [Fault] when
    they reach the end of the readable bytes. *)
Fixpoint hex_run (s : bytes) (v n : Z) : exec (Z * Z) :=
  match s with
  | [] => Fault
  | c :: s' => if h1_hex c <? 0 then Ok (v, n) else hex_run s' (v * 16 + h1_hex c) (n + 1)
  end.

(** The white space from [s] on. *)
Fixpoint space_run (s : bytes) (n : Z) : exec (bytes * Z) :=
  match s with
  | [] => Fault
  | c :: s' => if is_space c then space_run s' (n + 1) else Ok (s, n)
  end.

(** [strtoull(p, &stop, 16)] on readable bytes that need not end in a NUL: the
    value and [stop - p]. *)
Definition strtoull16 (p : bytes) : exec (Z * Z) :=
  '(s, n) ← space_run p 0;
  let '(neg, s, n) := match s with
    | 45 :: s' => (true, s', n + 1)
    | 43 :: s' => (false, s', n + 1)
    | _ => (false, s, n)
    end in
  '(v, d, n) ← match s with
    | 48 :: x :: s' =>
        if (x =? 120) || (x =? 88) then
          '(v, d) ← hex_run s' 0 0;
          Ok (if d =? 0 then (0, 1, n) else (v, d, n + 2))
        else '(v, d) ← hex_run s 0 0; Ok (v, d, n)
    | _ => '(v, d) ← hex_run s 0 0; Ok (v, d, n)
    end;
  if d =? 0 then Ok (0, 0)
  else Ok (if UINT64_MAX <? v then UINT64_MAX else if neg : bool then u64 (- v) else v, n + d).

(** ** URL parsing *)

Record zcio_url := mk_hurl {
  url_scheme : bytes; url_secure : bool; url_host : bytes; url_port : Z; url_path : bytes }.

Section Build.
Context `{Allocator}.

Definition url_parse (uri : option bytes) : Z + zcio_url :=
  match uri with
  | None => inl ZCIO_ERR_INVALID_ARG
  | Some uri =>
      match memchr 58 uri with
      | None => inl ZCIO_ERR_PROTOCOL
      | Some colon =>
          if negb (zcio_xmalloc_ok (colon + 1)) then inl ZCIO_ERR_NOMEM
          else
            let scheme := map tolower (ztake colon uri) in
            if negb (bool_decide (scheme = B "http") || bool_decide (scheme = B "https"))
            then inl ZCIO_ERR_PROTOCOL
            else
              let secure := bool_decide (scheme = B "https") in
              let p := zdrop (colon + 1) uri in
              let p := match p with 47 :: 47 :: p' => p' | _ => p end in
              let '(auth, path) := match memchr 47 p with
                | Some i => (ztake i p, zdrop i p)
                | None => (p, B "/") end in
              if negb (zcio_xmalloc_ok (zlen path + 1)) then inl ZCIO_ERR_NOMEM
              else
                let auth := strip_userinfo (S (length auth)) auth in
                match split_authority auth with
                | None => inl ZCIO_ERR_PROTOCOL
                | Some (host, ps) =>
                    if negb (zcio_xmalloc_ok (zlen host + 1)) then inl ZCIO_ERR_NOMEM
                    else match parse_port secure ps with
                    | None => inl ZCIO_ERR_PROTOCOL
                    | Some port => inr (mk_hurl scheme secure host port path)
                    end
                end
      end
  end.

(** ** Dynamic byte buffer *)

Record buf_t := mk_bt { bt_bytes : bytes; bt_cap : Z }.
Definition bt_empty : buf_t := mk_bt [] 0.
Definition bt_len (b : buf_t) : Z := zlen (bt_bytes b).

Definition buf_reserve (b : buf_t) (extra : Z) : Z * buf_t :=
  if SIZE_MAX - bt_len b <? extra then (ZCIO_ERR_NOMEM, b)
  else
    let need := bt_len b + extra in
    if need <=? bt_cap b then (ZCIO_OK, b)
    else
      let cap := buf_grow 65 (if bt_cap b =? 0 then 256 else bt_cap b) need in
      if alloc_ok cap then (ZCIO_OK, mk_bt (bt_bytes b) cap) else (ZCIO_ERR_NOMEM, b).

Definition buf_append (b : buf_t) (src : bytes) : Z * buf_t :=
  if zlen src =? 0 then (ZCIO_OK, b)
  else
    let '(r, b) := buf_reserve b (zlen src) in
    if negb (r =? ZCIO_OK) then (r, b) else (ZCIO_OK, mk_bt (bt_bytes b ++ src) (bt_cap b)).

(** Output routines, run one after the other until one fails. *)
Definition writer : Type := buf_t → Z * buf_t.
Definition bput (s : bytes) : writer := λ b, buf_append b s.
Definition bnop : writer := λ b, (ZCIO_OK, b).
Definition bseq (f g : writer) : writer := λ b,
  let '(r, b) := f b in if negb (r =? ZCIO_OK) then (r, b) else g b.
Infix ">>>" := bseq (at level 60, right associativity).

Definition json_append_escaped (s : bytes) : writer :=
  foldr (λ c k, (if (c =? 34) || (c =? 92) then bput [92] else bnop) >>> bput [c] >>> k) bnop s.

(** ** Request construction *)

Definition header_token_ok (s : option bytes) : bool :=
  match s with None => false | Some s => forallb (λ p, negb ((p <? 0x20) || (p =? 0x7f))) s end.

(** A header that goes into the request: its key and value. *)
Definition kept_header (h : hdr_arg) : option (bytes * bytes) :=
  match h.1 with
  | None => None
  | Some k =>
      if negb (header_token_ok (Some k)) then None
      else match h.2 with
      | Some v => if header_token_ok (Some v) then Some (k, v) else None
      | None => Some (k, [])
      end
  end.

Definition is_connection (k : bytes) : bool := bool_decide (map tolower k = B "connection").

Definition put_headers (hs : list (bytes * bytes)) : writer :=
  foldr (λ h k, bput h.1 >>> bput (B ": ") >>> bput h.2 >>> bput CRLF >>> k) bnop hs.

(** [snprintf] into 32 bytes. *)
Definition content_length_line (n : Z) : bytes := ztake 31 (B "Content-Length: " ++ dec n ++ CRLF ++ CRLF).

Definition build_request (method : option bytes) (u : zcio_url) (hs : list hdr_arg)
    (bd : option bytes) (body_len : Z) : Z * buf_t :=
  match method with
  | Some m =>
      if negb (header_token_ok (Some m)) then (ZCIO_ERR_INVALID_ARG, bt_empty)
      else
        let kept := omap kept_header hs in
        let '(r, out) :=
          (bput m >>> bput [32] >>> bput (url_path u) >>> bput (B " HTTP/1.1" ++ CRLF ++ B "Host: ") >>>
           bput (url_host u) >>> bput CRLF >>> put_headers kept >>>
           (if existsb (λ h, is_connection h.1) kept then bnop else bput (B "Connection: close" ++ CRLF)) >>>
           bput (content_length_line body_len) >>>
           match bd with Some d => bput (ztake body_len d) | None => bnop end) bt_empty in
        if negb (r =? ZCIO_OK) then (ZCIO_ERR_NOMEM, bt_empty) else (ZCIO_OK, out)
  | None => (ZCIO_ERR_INVALID_ARG, bt_empty)
  end.

(** ** Chunked bodies *)

(** The trailers: whether a blank line is there. *)
Fixpoint trailers (fuel : nat) (p : bytes) : bool :=
  match fuel with
  | O => false
  | S fuel =>
      match memchr 10 p with
      | None => false
      | Some te =>
          if (te =? 0) || ((te =? 1) && (nth 0 p 0 =? 13)) then true
          else trailers fuel (zdrop (te + 1) p)
      end
  end.

(** The result and the payload so far. *)
Fixpoint scan_loop (fuel : nat) (p got : bytes) : exec (Z * bytes) :=
  match fuel with
  | O => OutOfFuel
  | S fuel =>
      match memchr 10 p with
      | None => Ok (0, got)
      | Some line_end =>
          '(sz, stop) ← strtoull16 p;
          if (stop =? 0) || (line_end <? stop) then Ok (-1, got)
          else
            let p := zdrop (line_end + 1) p in
            if sz =? 0 then Ok (if trailers (S (length p)) p then 1 else 0, got)
            else if (ZCIO_HTTP_MAX_RESPONSE <? sz) || (ZCIO_HTTP_MAX_RESPONSE <? zlen got + sz) then Ok (-1, got)
            else if zlen p <? sz + 2 then Ok (0, got)
            else
              let got := got ++ ztake sz p in
              let p := zdrop sz p in
              if negb (nth 0 p 0 =? 13) || negb (nth 1 p 0 =? 10) then Ok (-1, got)
              else scan_loop fuel (zdrop 2 p) got
      end
  end.

(** Each turn consumes a line. *)
Definition chunked_scan (p : bytes) : exec (Z * bytes) := scan_loop (S (length p)) p [].

(** ** Response headers *)

Fixpoint header_value_loop (fuel : nat) (h key : bytes) : option bytes :=
  match fuel with
  | O => None
  | S fuel =>
      match h with
      | [] => None
      | _ =>
          let '(line, next) := match memchr 10 h with
            | Some i => (ztake i h, Some (zdrop (i + 1) h))
            | None => (h, None) end in
          let here := match memchr 58 line with
            | Some i => bool_decide (map tolower (ztake i line) = map tolower key)
            | None => false end in
          if here then
            let v := drop_while is_ows (zdrop (zlen key + 1) line) in
            let v := rev (drop_while (λ c, c =? 13) (rev v)) in
            if zcio_xmalloc_ok (zlen v + 1) then Some (cstr v) else None
          else match next with Some h => header_value_loop fuel h key | None => None end
      end
  end.

(** The header block is [h]; the value as the C string the callers see. *)
Definition find_header_value (h key : bytes) : option bytes := header_value_loop (S (length h)) h key.

(** [Transfer-Encoding] names "chunked" anywhere. *)
Definition says (h key word : bytes) : bool :=
  match find_header_value h key with
  | Some v => bool_decide (strstr (map tolower v) word ≠ None)
  | None => false
  end.

Definition dup_range (s : bytes) : option bytes := if zcio_xmalloc_ok (zlen s + 1) then Some (cstr s) else None.
End Build.
Arguments bt_len : simpl never.
Infix ">>>" := bseq (at level 60, right associativity).

(** ** Responses *)

Record zcio_http_response := mk_resp {
  rs_protocol : option bytes; rs_version : option bytes; rs_status_code : option bytes;
  rs_status_text : option bytes; rs_headers_json : option bytes; rs_body : option bytes;
  rs_body_size : Z; rs_status : Z }.

Definition resp_zero : zcio_http_response := mk_resp None None None None None None 0 0.

(** What the header block of a response says of its body. *)
Record framing := mk_framing { fr_body : Z; fr_length : Z; fr_chunked : bool }.

Definition strip_cr (s : bytes) : bytes :=
  match rev s with 13 :: r => rev r | _ => s end.

Section Parse.
Context `{Allocator}.

Definition bfail : writer := λ b, (ZCIO_ERR_NOMEM, b).

(** The header lines as JSON members. *)
Fixpoint json_lines (fuel : nat) (first : bool) (h : bytes) : writer :=
  match fuel with
  | O => bnop
  | S fuel =>
      match h with
      | [] => bnop
      | _ =>
          let '(line, next) := match memchr 10 h with
            | Some i => (ztake i h, Some (zdrop (i + 1) h))
            | None => (h, None) end in
          let line := strip_cr line in
          let rest first := match next with Some h => json_lines fuel first h | None => bnop end in
          match memchr 58 line with
          | None => rest first
          | Some i =>
              match dup_range (ztake i line), dup_range (drop_while is_ows (zdrop (i + 1) line)) with
              | Some k, Some v =>
                  (if first then bnop else bput [44]) >>> bput [34] >>> json_append_escaped k >>>
                  bput [34; 58; 34] >>> json_append_escaped v >>> bput [34] >>> rest false
              | _, _ => bfail
              end
          end
      end
  end.

Definition headers_json (h : bytes) : writer :=
  bput [123] >>> json_lines (S (length h)) true h >>> bput [125] >>> bput [0].

(** The body after the head: the result, and the body when it is [ZCIO_OK]. *)
Definition parse_body (h rest : bytes) : exec (Z * option bytes) :=
  if says h (B "Transfer-Encoding") (B "chunked") then
    '(c, body) ← chunked_scan rest;
    Ok (if negb (c =? 1) then (ZCIO_ERR_PROTOCOL, None)
        else if zcio_xmalloc_ok (zlen body + 1) then (ZCIO_OK, Some body) else (ZCIO_ERR_NOMEM, None))
  else
    let avail := zlen rest in
    let n := match find_header_value h (B "Content-Length") with Some cl => atoll cl | None => -1 end in
    let body_len := if (0 <=? n) && (n <? avail) then n else avail in
    Ok (if zcio_xmalloc_ok (body_len + 1) then (ZCIO_OK, Some (ztake body_len rest)) else (ZCIO_ERR_NOMEM, None)).

(** The fields of the status line; [None]: malformed. *)
Definition status_line (sl : bytes) : option (option bytes * option bytes * option bytes * option bytes) :=
  match memchr 32 sl with
  | None => None
  | Some sp =>
      let pv := ztake sp sl in
      let q := zdrop (sp + 1) sl in
      let '(protocol, version) := match memchr 47 pv with
        | Some v => (dup_range (ztake v pv), dup_range (zdrop (v + 1) pv))
        | None => (dup_range pv, zcio_strdup_ (Some [])) end in
      let '(code, text) := match memchr 32 q with
        | Some s => (dup_range (ztake s q), dup_range (zdrop (s + 1) q))
        | None => (dup_range q, zcio_strdup_ (Some [])) end in
      Some (protocol, version, code, text)
  end.

(** The result, the response and, when [want], the Location. *)
Definition parse_response (raw : buf_t) (want : bool)
  : exec (Z * zcio_http_response * option bytes) :=
  let data := bt_bytes raw in
  let err e := Ok (e, resp_zero, None) in
  match strstr data (CRLF ++ CRLF) with
  | None => err ZCIO_ERR_PROTOCOL
  | Some sep =>
      let head := ztake sep data in
      match memchr 10 head with
      | None => err ZCIO_ERR_PROTOCOL
      | Some sl_end =>
          match status_line (strip_cr (ztake sl_end head)) with
          | None => err ZCIO_ERR_PROTOCOL
          | Some (protocol, version, code, text) =>
              let status := match code with Some c => atoi c | None => 0 end in
              let h := zdrop (sl_end + 1) head in
              let '(jr, json) := headers_json h bt_empty in
              if negb (jr =? ZCIO_OK) then err ZCIO_ERR_NOMEM
              else
                let location := if want then find_header_value h (B "Location") else None in
                '(r, body) ← parse_body h (zdrop (sep + 4) data);
                Ok (match body with
                    | Some bd =>
                        (ZCIO_OK, mk_resp protocol version code text (Some (cstr (bt_bytes json)))
                                    (Some bd) (zlen bd) status, location)
                    | None => (r, resp_zero, None)
                    end)
          end
      end
  end.

Definition framing_of (data : bytes) : option framing :=
  match strstr data (CRLF ++ CRLF) with
  | None => None
  | Some i =>
      let h := ztake i data in
      Some (mk_framing (i + 4)
              (match find_header_value h (B "Content-Length") with Some cl => atoll cl | None => -1 end)
              (says h (B "Transfer-Encoding") (B "chunked")))
  end.

(** Whether the buffered body is complete; [inl]: a malformed one. *)
Definition body_complete (f : framing) (data : bytes) : exec (Z + bool) :=
  let avail := zdrop (fr_body f) data in
  if fr_chunked f then
    '(c, _) ← chunked_scan avail;
    Ok (if c <? 0 then inl ZCIO_ERR_PROTOCOL else inr (c =? 1))
  else Ok (inr ((0 <=? fr_length f) && (fr_length f <=? zlen avail))).
End Parse.

(** ** Exchanges

    [now k] is the [k]-th reading of the clock, [connect k u cto ioto] the
    [k]-th TCP (and TLS) connection and its stream, [tls_ctx host] whether a
    TLS client context can be made. *)
Inductive event := Dial (u : zcio_url) | Sent (req : bytes).

Record world := mk_world { w_tick : nat; w_attempt : nat; w_log : list event }.

Section Client.
Context `{Allocator} {C : Type}.
Abbreviation handle := (option (zcio_stream C)).
Context (set_timeout : handle → Z → handle) (now : nat → Z).
Context (connect : nat → zcio_url → Z → Z → option handle) (tls_ctx : bytes → bool).

Definition deadline_remaining_ms (deadline : Z) (w : world) : Z * world :=
  if deadline =? 0 then (-1, w)
  else
    let t := now (w_tick w) in
    (if deadline <=? t then 0 else Z.min (deadline - t) INT_MAX,
     mk_world (S (w_tick w)) (w_attempt w) (w_log w)).

Definition log (e : event) (w : world) : world := mk_world (w_tick w) (w_attempt w) (w_log w ++ [e]).

(** The state of the read loop: stream, world, bytes read, framing once known. *)
Definition reading : Type := handle * world * buf_t * option framing.

(** One read; [inr]: the result and the bytes. *)
Definition read_step (deadline : Z) (st : reading) : exec (reading + (handle * world * Z * buf_t)) :=
  let '(s, w, out, f) := st in
  let '(rem, w) := deadline_remaining_ms deadline w in
  if rem =? 0 then Ok (inr (s, w, ZCIO_ERR_TIMEOUT, bt_empty))
  else
    let s := if 0 <=? rem then set_timeout s rem else s in
    '(s, r, d) ← zcio_read s false 8192;
    if r <? 0 then Ok (inr (s, w, r, bt_empty))
    else if r =? 0 then Ok (inr (s, w, ZCIO_OK, out))
    else if ZCIO_HTTP_MAX_RESPONSE <? bt_len out + r then Ok (inr (s, w, ZCIO_ERR_PROTOCOL, bt_empty))
    else
      let '(a, out) := buf_append out (ztake r d) in
      if negb (a =? ZCIO_OK) then Ok (inr (s, w, ZCIO_ERR_NOMEM, bt_empty))
      else
        let f := match f with Some f => Some f | None => framing_of (bt_bytes out) end in
        match f with
        | None => Ok (inl (s, w, out, None))
        | Some fr =>
            c ← body_complete fr (bt_bytes out);
            Ok (match c with
                | inl e => inr (s, w, e, bt_empty)
                | inr true => inr (s, w, ZCIO_OK, out)
                | inr false => inl (s, w, out, Some fr)
                end)
        end.

(** Each turn adds at least one byte, and the size is capped. *)
Definition read_response (s : handle) (deadline : Z) (w : world) : exec (handle * world * Z * buf_t) :=
  loop (read_step deadline) (Z.to_pos (ZCIO_HTTP_MAX_RESPONSE + 1)) (s, w, bt_empty, None).

(** The connect wait and the transport timeout under a deadline. *)
Definition timeouts (connect_timeout_ms rem : Z) : Z * Z :=
  (if (0 <? rem) && ((connect_timeout_ms <=? 0) || (rem <? connect_timeout_ms)) then rem else connect_timeout_ms,
   if 0 <? rem then rem else 0).

(** Connect to [u]: the stream, or an error. *)
Definition open_client (u : zcio_url) (cto ioto : Z) (w : world) : (Z + handle) * world :=
  let w := log (Dial u) (mk_world (w_tick w) (S (w_attempt w)) (w_log w)) in
  match connect (pred (w_attempt w)) u cto ioto with
  | None => (inl ZCIO_ERR_CONNECT, w)
  | Some h => (inr h, w)
  end.

(** Send a request and read the response; the third result is whether
    anything was written. *)
Definition transfer (s : handle) (req : buf_t) (deadline : Z) (w : world)
  : exec (handle * world * bool * Z * buf_t) :=
  let '(rem, w) := deadline_remaining_ms deadline w in
  if rem =? 0 then Ok (s, w, false, ZCIO_ERR_TIMEOUT, bt_empty)
  else
    let s := if 0 <? rem then set_timeout s rem else s in
    let w := log (Sent (bt_bytes req)) w in
    '(s, wrote) ← zcio_write_full s (bt_bytes req);
    if (wrote <? 0) || negb (wrote =? bt_len req) then Ok (s, w, true, ZCIO_ERR, bt_empty)
    else '(s, w, rr, raw) ← read_response s deadline w; Ok (s, w, true, rr, raw).

Record outcome := mk_outcome {
  o_result : Z; o_resp : zcio_http_response; o_location : option bytes; o_prev : option zcio_url }.
Definition failed_with (e : Z) : outcome := mk_outcome e resp_zero None None.

Definition url_dup (u : zcio_url) : option zcio_url :=
  match zcio_strdup_ (Some (url_scheme u)), zcio_strdup_ (Some (url_host u)), zcio_strdup_ (Some (url_path u)) with
  | Some _, Some _, Some _ => Some u
  | _, _, _ => None
  end.

(** One exchange over a fresh connection. *)
Definition do_exchange (method url : option bytes) (hs : list hdr_arg) (bd : option bytes) (n : Z)
    (connect_timeout_ms deadline : Z) (w : world) : exec (outcome * world) :=
  match url_parse url with
  | inl e => Ok (failed_with e, w)
  | inr u =>
      match url_dup u with
      | None => Ok (failed_with ZCIO_ERR_NOMEM, w)
      | Some prev =>
          let '(rem, w) := deadline_remaining_ms deadline w in
          if rem =? 0 then Ok (failed_with ZCIO_ERR_TIMEOUT, w)
          else
            let '(cto, ioto) := timeouts connect_timeout_ms rem in
            if url_secure u && negb (tls_ctx (url_host u)) then Ok (failed_with ZCIO_ERR_TLS, w)
            else
              let '(c, w) := open_client u cto ioto w in
              match c with
              | inl e => Ok (failed_with e, w)
              | inr None => Ok (failed_with ZCIO_ERR, w)
              | inr s =>
                  let '(br, req) := build_request method u hs bd n in
                  if negb (br =? ZCIO_OK) then Ok (failed_with br, w)
                  else
                    '(_, w, _, rr, raw) ← transfer s req deadline w;
                    if negb (rr =? ZCIO_OK) then Ok (failed_with rr, w)
                    else
                      '(p, resp, loc) ← parse_response raw true;
                      Ok (mk_outcome p resp loc (Some prev), w)
              end
      end
  end.

(** ** Redirects *)

Definition resolve_redirect (prev : zcio_url) (location : option bytes) : Z + bytes :=
  match location with
  | None | Some [] => inl ZCIO_ERR_PROTOCOL
  | Some l =>
      let absolute := match memchr 58 l, memchr 47 l with
        | Some c, Some s => c <? s
        | Some _, None => true
        | None, _ => false end in
      if absolute then
        if url_secure prev && bool_decide (map tolower (ztake 4 l) = B "http") && (nth 4 l 0 =? 58)
        then inl ZCIO_ERR_PROTOCOL
        else match zcio_strdup_ (Some l) with Some l => inr l | None => inl ZCIO_ERR_NOMEM end
      else if negb (nth 0 l 0 =? 47) then inl ZCIO_ERR_PROTOCOL
      else
        let out := url_scheme prev ++ B "://" ++ authority (has_colon (url_host prev)) (url_host prev)
                     (port_text (url_secure prev) (url_port prev)) ++ l in
        if zcio_xmalloc_ok (zlen out + 1) then inr out else inl ZCIO_ERR_NOMEM
  end.

(** The exchanges from number [redirect] on. *)
Fixpoint request_loop (fuel redirect : nat) (method cur : option bytes) (hs : list hdr_arg) (bd : option bytes)
    (n cto deadline : Z) (w : world) : exec (zcio_http_response * world) :=
  match fuel with
  | O => OutOfFuel
  | S fuel =>
      '(o, w) ← do_exchange method cur hs bd n cto deadline w;
      if negb (o_result o =? ZCIO_OK) then Ok (resp_zero, w)
      else
        match o_location o, o_prev o with
        | Some loc, Some prev =>
            if (300 <=? rs_status (o_resp o)) && (rs_status (o_resp o) <? 400) && negb (zlen loc =? 0) &&
               (redirect <? ZCIO_HTTP_MAX_REDIRECTS)%nat
            then match resolve_redirect prev (Some loc) with
                 | inl _ => Ok (o_resp o, w)
                 | inr next => request_loop fuel (S redirect) method (Some next) hs bd n cto deadline w
                 end
            else Ok (o_resp o, w)
        | _, _ => Ok (o_resp o, w)
        end
  end.

(** Connect timeout and total timeout. *)
Definition zcio_http_opts : Type := Z * Z.

Definition start_deadline (opts : option zcio_http_opts) (w : world) : Z * Z * world :=
  match opts with
  | Some (cto, total) =>
      if 0 <? total
      then (cto, u64 (now (w_tick w) + total), mk_world (S (w_tick w)) (w_attempt w) (w_log w))
      else (cto, 0, w)
  | None => (0, 0, w)
  end.

Definition zcio_http_request_opts (method url : option bytes) (hs : list hdr_arg) (bd : option bytes) (n : Z)
    (opts : option zcio_http_opts) (w : world) : exec (zcio_http_response * world) :=
  let '(cto, deadline, w) := start_deadline opts w in
  match url, zcio_strdup_ url with
  | Some _, None => Ok (resp_zero, w)
  | _, cur => request_loop (S ZCIO_HTTP_MAX_REDIRECTS) 0 method cur hs bd n cto deadline w
  end.

Definition zcio_http_request (method url : option bytes) (hs : list hdr_arg) (bd : option bytes) (n : Z) w :=
  zcio_http_request_opts method url hs bd n None w.
Definition zcio_http_get (url : option bytes) w := zcio_http_request (Some (B "GET")) url [] None 0 w.
Definition zcio_http_delete (url : option bytes) w := zcio_http_request (Some (B "DELETE")) url [] None 0 w.
Definition zcio_http_post (url bd : option bytes) (n : Z) w := zcio_http_request (Some (B "POST")) url [] bd n w.
Definition zcio_http_put (url bd : option bytes) (n : Z) w := zcio_http_request (Some (B "PUT")) url [] bd n w.

(** ** Keep-alive sessions *)

Record zcio_http_session := mk_sess { sess_origin : zcio_url; sess_client : option handle }.

Definition set_client (c : option handle) (s : zcio_http_session) : zcio_http_session :=
  mk_sess (sess_origin s) c.
Definition session_drop : zcio_http_session → zcio_http_session := set_client None.

Definition zcio_http_session_create (base_url : option bytes) : option zcio_http_session :=
  match url_parse base_url with
  | inl _ => None
  | inr u =>
      if negb (zcio_xmalloc_ok 56) then None
      else if url_secure u && negb (tls_ctx (url_host u)) then None
      else Some (mk_sess u None)
  end.

Definition session_connect (sess : zcio_http_session) (cto ioto : Z) (w : world) : Z * zcio_http_session * world :=
  match sess_client sess with
  | Some _ => (ZCIO_OK, sess, w)
  | None =>
      let '(c, w) := open_client (sess_origin sess) cto ioto w in
      match c with inl e => (e, sess, w) | inr h => (ZCIO_OK, set_client (Some h) sess, w) end
  end.

(** Whether the response that was just parsed asks to close. *)
Definition response_says_close (raw : bytes) : bool :=
  match strstr raw (CRLF ++ CRLF) with
  | None => false
  | Some sep =>
      let head := ztake sep raw in
      match memchr 10 head with
      | None => false
      | Some sl_end => says (zdrop (sl_end + 1) head) (B "Connection") (B "close")
      end
  end.

Definition request_url (origin : zcio_url) (path : option bytes) : zcio_url :=
  mk_hurl (url_scheme origin) (url_secure origin) (url_host origin) (url_port origin)
    (match path with Some (c :: p) => c :: p | _ => B "/" end).

Definition session_exchange_once (sess : zcio_http_session) (method path : option bytes) (hs : list hdr_arg)
    (bd : option bytes) (n cto deadline : Z) (w : world)
  : exec (Z * zcio_http_response * zcio_http_session * world) :=
  let '(rem, w) := deadline_remaining_ms deadline w in
  if rem =? 0 then Ok (ZCIO_ERR_TIMEOUT, resp_zero, sess, w)
  else
    let '(cto, ioto) := timeouts cto rem in
    let '(cr, sess, w) := session_connect sess cto ioto w in
    if negb (cr =? ZCIO_OK) then Ok (cr, resp_zero, sess, w)
    else match sess_client sess with
    | None | Some None => Ok (ZCIO_ERR, resp_zero, session_drop sess, w)
    | Some s =>
        if negb (zcio_xmalloc_ok ((zlen hs + 1) * 16)) then Ok (ZCIO_ERR_NOMEM, resp_zero, sess, w)
        else
          let '(br, req) := build_request method (request_url (sess_origin sess) path)
                              (hs ++ [(Some (B "Connection"), Some (B "keep-alive"))]) bd n in
          if negb (br =? ZCIO_OK) then Ok (br, resp_zero, sess, w)
          else
            '(s, w, sent, rr, raw) ← transfer s req deadline w;
            let sess := set_client (Some s) sess in
            if negb (rr =? ZCIO_OK) then
              Ok (rr, resp_zero, if negb sent then sess else session_drop sess, w)
            else if bt_len raw =? 0 then Ok (ZCIO_ERR, resp_zero, session_drop sess, w)
            else
              '(p, resp, _) ← parse_response raw false;
              if negb (p =? ZCIO_OK) then Ok (p, resp_zero, session_drop sess, w)
              else Ok (ZCIO_OK, resp, if response_says_close (bt_bytes raw) then session_drop sess else sess, w)
    end.

Definition zcio_http_session_request (sess : option zcio_http_session) (method path : option bytes)
    (hs : list hdr_arg) (bd : option bytes) (n : Z) (opts : option zcio_http_opts) (w : world)
  : exec (zcio_http_response * option zcio_http_session * world) :=
  match sess with
  | None => Ok (resp_zero, None, w)
  | Some sess =>
      let '(cto, deadline, w) := start_deadline opts w in
      '(r, resp, sess, w) ← session_exchange_once sess method path hs bd n cto deadline w;
      if r =? ZCIO_OK then Ok (resp, Some sess, w)
      else
        '(r, resp, sess, w) ← session_exchange_once sess method path hs bd n cto deadline w;
        Ok (if r =? ZCIO_OK then resp else resp_zero, Some sess, w)
  end.
End Client.
