(* ===== verification/Chunked.v ===== *)
(** * Chunked: chunked bodies as the HTTP client reads them ([src/http.c])

    A specification encoder for chunk extensions and trailers, and what
    [chunked_scan] makes of its output, of every part of it, and of a blank
    size line. *)
From stdpp Require Import base tactics list option strings.
From Stdlib Require Import ZArith Lia.
From S2P Require Import Prelude Types Stream Buf HttpUtil Respond H1 H1Safe Url HttpClient.

(** ** Hexadecimal numbers *)

Definition hex_char (d : Z) : Z := if d <? 10 then 48 + d else 87 + d.

Fixpoint hex_digits (fuel : nat) (n : Z) (acc : bytes) : bytes :=
  match fuel with
  | O => acc
  | S fuel => if n <? 16 then hex_char n :: acc else hex_digits fuel (n / 16) (hex_char (n mod 16) :: acc)
  end.
Definition hex (n : Z) : bytes := hex_digits 16 n [].

Definition hex_val (ds : bytes) (v : Z) : Z := fold_left (λ v c, v * 16 + h1_hex c) ds v.

Lemma hex_char_val d : 0 ≤ d < 16 → h1_hex (hex_char d) = d.
Proof. intros Hd. revert d Hd. cut (∀ d, 0 ≤ d < 16 → (h1_hex (hex_char d) =? d) = true); [intros Hc d Hd; by apply Z.eqb_eq, Hc|]. by apply (range_forall _ 16). Qed.

Definition hex_digit_char (c : Z) : Prop := 0 ≤ h1_hex c < 16 ∧ c ≠ 10.

Lemma hex_char_ok d : 0 ≤ d < 16 → hex_digit_char (hex_char d).
Proof. intros Hd. split; [by rewrite hex_char_val|]. unfold hex_char. bcase; lia. Qed.

Lemma hex_digits_spec fuel n acc : 0 ≤ n < 16 ^ Z.of_nat fuel → (0 < fuel)%nat →
  ∃ ds, hex_digits fuel n acc = ds ++ acc ∧ hex_val ds 0 = n ∧ Forall hex_digit_char ds ∧
    ∃ c ds', ds = c :: ds' ∧ (n ≠ 0 → c ≠ 48).
Proof.
  revert n acc. induction fuel as [|fuel IH]; intros n acc Hn Hf; [lia|]. cbn [hex_digits]. bcase.
  - exists [hex_char n]. split; [done|]. split; [cbn; rewrite hex_char_val; lia|].
    split; [constructor; [apply hex_char_ok; lia|constructor]|]. exists (hex_char n), []. split; [done|].
    intros Hne. unfold hex_char. bcase; lia.
  - rewrite Nat2Z.inj_succ, Z.pow_succ_r in Hn by lia.
    destruct fuel as [|fuel]; [change (16 ^ Z.of_nat 0) with 1 in Hn; lia|].
    destruct (IH (n / 16) (hex_char (n mod 16) :: acc)) as (ds & -> & Hv & Hd & c & ds' & Hc & Hz); [|lia|].
    { split; [apply Z.div_pos; lia|]. apply Z.div_lt_upper_bound; lia. }
    exists (ds ++ [hex_char (n mod 16)]). split; [by rewrite <- app_assoc|].
    pose proof (Z.mod_pos_bound n 16 ltac:(lia)) as Hm. pose proof (Z.div_mod n 16 ltac:(lia)) as Hdm.
    split; [unfold hex_val in *; rewrite fold_left_app, Hv; cbn; rewrite hex_char_val by lia; lia|].
    split; [apply Forall_app; split; [done|]; constructor; [by apply hex_char_ok|constructor]|].
    exists c, (ds' ++ [hex_char (n mod 16)]). split; [by rewrite Hc|]. intros _. apply Hz.
    intros E. rewrite E in *. lia.
Qed.

Lemma hex_spec n : 0 ≤ n < 2 ^ 64 →
  hex_val (hex n) 0 = n ∧ Forall hex_digit_char (hex n) ∧ ∃ c ds, hex n = c :: ds ∧ (n ≠ 0 → c ≠ 48).
Proof.
  intros Hn. destruct (hex_digits_spec 16 n [] ltac:(exact Hn) ltac:(lia)) as (ds & E & Hv & Hd & c & ds' & Hc & Hz).
  unfold hex. rewrite E, app_nil_r. split; [done|]. split; [done|]. exists c, ds'. done.
Qed.

Lemma hex_run_digits ds c rest v n : Forall hex_digit_char ds → h1_hex c < 0 →
  hex_run (ds ++ c :: rest) v n = Ok (hex_val ds v, n + zlen ds).
Proof.
  revert v n. induction ds as [|d ds IH]; intros v n Hd Hc; cbn [app hex_run].
  - bcase; [|lia]. unfold hex_val. cbn. by rewrite Z.add_0_r.
  - apply Forall_cons_1 in Hd as [[Hd _] Hds]. bcase; [lia|]. rewrite IH by done. unfold hex_val. cbn [fold_left length].
    do 2 f_equal. lia.
Qed.

Lemma h1_hex_range c : 0 ≤ h1_hex c → (48 ≤ c ≤ 57) ∨ (97 ≤ c ≤ 102) ∨ (65 ≤ c ≤ 70).
Proof. unfold h1_hex. repeat (bcase; [lia|]). lia. Qed.

(** What may follow the size on its line. *)
Definition ext_ok (e : bytes) : Prop := 10 ∉ e ∧ match e with c :: _ => h1_hex c < 0 ∧ c ≠ 120 ∧ c ≠ 88 | [] => True end.

(** [strtoull] reads the size back from its line. *)
Lemma strtoull_line n e rest : 0 ≤ n < 2 ^ 64 → ext_ok e →
  strtoull16 (hex n ++ e ++ 10 :: rest) = Ok (n, zlen (hex n)).
Proof.
  intros Hn [He1 He2]. destruct (hex_spec n Hn) as (Hv & Hd & c & ds & Hc & Hz).
  assert (∃ x t, e ++ 10 :: rest = x :: t ∧ h1_hex x < 0 ∧ x ≠ 120 ∧ x ≠ 88) as (x & t & -> & Hx & Hx1 & Hx2).
  { destruct e as [|x e]; [exists 10, rest; by split_and!|]. exists x, (e ++ 10 :: rest). split; [done|exact He2]. }
  pose proof (hex_run_digits (hex n) x t 0 0 Hd Hx) as Hrun. rewrite Hv in Hrun. cbn [Z.add] in Hrun.
  assert (n = 0 → ds = []) as Hds0 by (intros ->; by injection Hc as <- <-).
  unfold strtoull16. rewrite Hc in *. apply Forall_cons_1 in Hd as [[Hd0 Hd1] Hds].
  pose proof (h1_hex_range c ltac:(lia)) as Hr. cbn [app space_run].
  assert (is_space c = false) as ->.
  { unfold is_space. apply orb_false_iff. split; [apply andb_false_iff; right; lia|lia]. }
  cbn [mbind exec_bind app] in *.
  assert ((match c :: ds ++ x :: t with 45 :: s' => (true, s', 0 + 1) | 43 :: s' => (false, s', 0 + 1)
           | _ => (false, c :: ds ++ x :: t, 0) end) = (false, c :: ds ++ x :: t, 0)) as ->.
  { repeat (destruct c as [|c|c]; try done; try lia). }
  assert ((match c :: ds ++ x :: t with
      | 48 :: y :: s' => if (y =? 120) || (y =? 88) then '(v, d) ← hex_run s' 0 0; Ok (if d =? 0 then (0, 1, 0) else (v, d, 0 + 2))
                         else '(v, d) ← hex_run (c :: ds ++ x :: t) 0 0; Ok (v, d, 0)
      | _ => '(v, d) ← hex_run (c :: ds ++ x :: t) 0 0; Ok (v, d, 0) end) = Ok (n, zlen (c :: ds), 0)) as ->.
  { destruct (decide (c = 48)) as [->|Hc48].
    - rewrite Hds0 in * by (destruct (decide (n = 0)); [done|]; exfalso; by apply Hz).
      cbn [app]. destruct (x =? 120) eqn:E1; btest; [done|]. destruct (x =? 88) eqn:E2; btest; [done|]. cbn [orb].
      cbn [app] in Hrun. rewrite Hrun. done.
    - rewrite Hrun. cbn [mbind exec_bind]. repeat (destruct c as [|c|c]; try done; try lia). }
  cbn [mbind exec_bind]. replace (zlen (c :: ds) =? 0) with false by (symmetry; apply Z.eqb_neq; cbn; lia).
  unfold UINT64_MAX. bcase; [lia|]. done.
Qed.

(** ** The encoder *)

(** A chunk: what follows the size on its line, and the data. *)
Definition chunk : Type := bytes * bytes.
Definition chunk_ok (c : chunk) : Prop := ext_ok c.1 ∧ c.2 ≠ [].

Definition encode_chunk (c : chunk) : bytes := hex (zlen c.2) ++ c.1 ++ 10 :: c.2 ++ CRLF.
Definition encode_chunks (cs : list chunk) : bytes := concat (map encode_chunk cs).
Definition payload_of (cs : list chunk) : bytes := concat (map snd cs).

(** The trailer lines and the blank line. *)
Definition line_ok (l : bytes) : Prop := 10 ∉ l ∧ l ≠ [] ∧ l ≠ [13].
Definition encode_trailers (ls : list bytes) (blank : bytes) : bytes :=
  concat (map (λ l, l ++ [10]) ls) ++ blank ++ [10].

Definition encode_body (cs : list chunk) (ext : bytes) (ls : list bytes) (blank : bytes) : bytes :=
  encode_chunks cs ++ [48] ++ ext ++ 10 :: encode_trailers ls blank.

Definition body_ok (cs : list chunk) (ext : bytes) (ls : list bytes) (blank : bytes) : Prop :=
  Forall chunk_ok cs ∧ ext_ok ext ∧ Forall line_ok ls ∧ (blank = [] ∨ blank = [13]) ∧
  zlen (payload_of cs) ≤ ZCIO_HTTP_MAX_RESPONSE.

(** ** One chunk *)

Lemma hex_no_nl n : 0 ≤ n < 2 ^ 64 → 10 ∉ hex n.
Proof.
  intros Hn Hin. destruct (hex_spec n Hn) as (_ & Hd & _). rewrite Forall_forall in Hd. by destruct (Hd 10 Hin).
Qed.

Lemma size_line n e : 0 ≤ n < 2 ^ 64 → ext_ok e → 10 ∉ hex n ++ e.
Proof. intros Hn [He _]. rewrite elem_of_app. intros [?|?]; [by eapply hex_no_nl|done]. Qed.

(** The turn at a size line, whatever follows it. *)
Lemma scan_size fuel n e p got : 0 < n < 2 ^ 64 → ext_ok e →
  scan_loop (S fuel) (hex n ++ e ++ 10 :: p) got =
    if (ZCIO_HTTP_MAX_RESPONSE <? n) || (ZCIO_HTTP_MAX_RESPONSE <? zlen got + n) then Ok (-1, got)
    else if zlen p <? n + 2 then Ok (0, got)
    else if negb (nth 0 (zdrop n p) 0 =? 13) || negb (nth 1 (zdrop n p) 0 =? 10) then Ok (-1, got ++ ztake n p)
    else scan_loop fuel (zdrop 2 (zdrop n p)) (got ++ ztake n p).
Proof.
  intros Hn He. cbn [scan_loop]. rewrite app_assoc. rewrite memchr_app by (apply size_line; [lia|done]).
  rewrite <- app_assoc, strtoull_line by (done || lia). cbn [mbind exec_bind].
  destruct (hex_spec n ltac:(lia)) as (_ & _ & c & ds & Hc & _).
  replace (zlen (hex n) =? 0) with false by (symmetry; apply Z.eqb_neq; rewrite Hc; cbn; lia).
  replace (zlen (hex n ++ e) <? zlen (hex n)) with false by (symmetry; apply Z.ltb_ge; zl). cbn [orb].
  assert (zdrop (zlen (hex n ++ e) + 1) (hex n ++ e ++ 10 :: p) = p) as ->.
  { change (10 :: p) with ([10] ++ p). rewrite !app_assoc. apply zdrop_app_zlen. zl. }
  replace (n =? 0) with false by (symmetry; apply Z.eqb_neq; lia). done.
Qed.

Lemma scan_chunk fuel c p got : chunk_ok c → zlen got + zlen c.2 ≤ ZCIO_HTTP_MAX_RESPONSE →
  scan_loop (S fuel) (encode_chunk c ++ p) got = scan_loop fuel p (got ++ c.2).
Proof.
  intros [He Hne] Hm. unfold encode_chunk. rewrite <- !app_assoc. cbn [app]. rewrite <- !app_assoc.
  assert (0 < zlen c.2) by (destruct c.2; [done|cbn; lia]). unfold ZCIO_HTTP_MAX_RESPONSE in *.
  rewrite scan_size by (done || lia). unfold ZCIO_HTTP_MAX_RESPONSE.
  destruct (_ || _) eqn:E1; [apply orb_true_iff in E1 as [?|?]; btest; lia|].
  destruct (zlen (_ ++ _) <? _) eqn:E2; btest; [unfold CRLF in E2; zlen_simpl_in E2; lia|].
  rewrite zdrop_app_zlen, ztake_app_zlen by done. done.
Qed.

Lemma scan_chunks cs fuel p got : Forall chunk_ok cs → zlen got + zlen (payload_of cs) ≤ ZCIO_HTTP_MAX_RESPONSE →
  scan_loop (length cs + fuel) (encode_chunks cs ++ p) got = scan_loop fuel p (got ++ payload_of cs).
Proof.
  revert got. induction cs as [|c cs IH]; intros got Hc Hm.
  - cbn. by rewrite app_nil_r.
  - apply Forall_cons_1 in Hc as [Hc Hcs]. unfold encode_chunks, payload_of in *. cbn [map concat length Nat.add] in *.
    rewrite length_app in Hm. rewrite <- app_assoc, scan_chunk by (done || lia). rewrite IH by (done || zl).
    by rewrite <- app_assoc.
Qed.

(** More fuel changes nothing once the scan ends. *)
Lemma scan_more fuel k p got r : scan_loop fuel p got = Ok r → scan_loop (fuel + k) p got = Ok r.
Proof.
  revert p got. induction fuel as [|fuel IH]; intros p got; [done|]. cbn [scan_loop Nat.add].
  destruct (memchr 10 p); [|done]. destruct (strtoull16 p) as [[sz stop]| |]; [|done..]. cbn [mbind exec_bind].
  repeat (bcase; [done|]). apply IH.
Qed.

(** ** Trailers *)

Lemma trailers_lines ls blank rest fuel : Forall line_ok ls → (blank = [] ∨ blank = [13]) → (length ls < fuel)%nat →
  trailers fuel (encode_trailers ls blank ++ rest) = true.
Proof.
  revert fuel. induction ls as [|l ls IH]; intros fuel Hl Hb Hf; (destruct fuel as [|fuel]; [cbn in Hf; lia|]);
    unfold encode_trailers; cbn [trailers map concat].
  - cbn [app]. by destruct Hb as [->| ->].
  - apply Forall_cons_1 in Hl as [(H1 & H2 & H3) Hls]. rewrite <- !app_assoc. cbn [app].
    rewrite memchr_app by done.
    destruct (_ || _); [done|]. change (10 :: ?x) with ([10] ++ x). rewrite app_assoc, zdrop_app_zlen by zl.
    pose proof (IH fuel Hls Hb ltac:(cbn in Hf; lia)) as Ht. unfold encode_trailers in Ht.
    rewrite <- !app_assoc in Ht. exact Ht.
Qed.

(** ** A body that has not arrived in full *)

Lemma cut_at_nl p s l r : 10 ∉ l → p ++ s = l ++ 10 :: r → 10 ∉ p ∨ ∃ p2, p = l ++ 10 :: p2 ∧ p2 ++ s = r.
Proof.
  intros Hl E. apply app_eq_inv in E as [(k & -> & E)|(k & -> & _)].
  - destruct k as [|x k]; [left; by rewrite app_nil_r|]. injection E as <- ->. right. by exists k.
  - left. intros Hin. apply Hl, elem_of_app. by left.
Qed.

Lemma trailers_cut fuel p s ls blank : Forall line_ok ls → (blank = [] ∨ blank = [13]) →
  p ++ s = encode_trailers ls blank → s ≠ [] → trailers fuel p = false.
Proof.
  revert fuel p. induction ls as [|l ls IH]; intros fuel p Hl Hb E Hs; (destruct fuel as [|fuel]; [done|]);
    unfold encode_trailers in E; cbn [map concat] in E; cbn [trailers].
  - cbn [app] in E. apply cut_at_nl in E as [Hn|(p2 & _ & E)].
    + by rewrite memchr_none.
    + apply app_nil in E as [_ ?]. done.
    + destruct Hb as [->| ->]; [apply not_elem_of_nil|]. rewrite list_elem_of_singleton. lia.
  - apply Forall_cons_1 in Hl as [(H1 & H2 & H3) Hls]. rewrite <- !app_assoc in E. cbn [app] in E.
    apply cut_at_nl in E as [Hn|(p2 & -> & E)]; [by rewrite memchr_none| |done].
    rewrite memchr_app by done.
    replace ((zlen l =? 0) || (zlen l =? 1) && (nth 0 (l ++ 10 :: p2) 0 =? 13)) with false.
    + change (10 :: p2) with ([10] ++ p2). rewrite app_assoc, zdrop_app_zlen by zl. by apply IH.
    + symmetry. destruct l as [|a [|b l]]; [done| |].
      * cbn. apply Z.eqb_neq. intros ->. done.
      * apply orb_false_iff. split; [|apply andb_false_iff; left]; apply Z.eqb_neq; cbn [length]; lia.
Qed.

Lemma chunk_cut fuel c w p s got : chunk_ok c → zlen got + zlen c.2 ≤ ZCIO_HTTP_MAX_RESPONSE →
  p ++ s = encode_chunk c ++ w →
  (∃ got', scan_loop (S fuel) p got = Ok (0, got')) ∨ (∃ p2, p = encode_chunk c ++ p2 ∧ p2 ++ s = w).
Proof.
  intros [He Hne] Hm E. unfold ZCIO_HTTP_MAX_RESPONSE in Hm.
  assert (0 < zlen c.2) by (destruct c.2; [done|cbn; lia]).
  apply app_eq_inv in E as [(k & -> & E)|(k & Hp & E)]; [right; by exists k|].
  destruct k as [|x k]; [right; exists []; rewrite app_nil_r in *; by subst|]. left.
  symmetry in Hp. unfold encode_chunk in Hp. rewrite app_assoc in Hp.
  apply cut_at_nl in Hp as [Hn|(p2 & -> & Hp)]; [by exists got; cbn [scan_loop]; rewrite memchr_none| |by apply size_line; [lia|]].
  rewrite <- app_assoc. rewrite scan_size by (done || lia). unfold ZCIO_HTTP_MAX_RESPONSE.
  destruct (_ || _) eqn:E1; [apply orb_true_iff in E1 as [?|?]; btest; lia|].
  destruct (zlen p2 <? _) eqn:E2; btest; [by eexists|].
  apply (f_equal length) in Hp. unfold CRLF in Hp. zlen_simpl_in Hp. lia.
Qed.

(** The last chunk. *)
Lemma scan_last fuel ext q got : ext_ok ext →
  scan_loop (S fuel) ((48 :: ext) ++ 10 :: q) got = Ok (if trailers (S (length q)) q then 1 else 0, got).
Proof.
  intros He. cbn [scan_loop]. pose proof (size_line 0 ext ltac:(lia) He) as Hn. change (hex 0) with [48] in Hn.
  rewrite memchr_app by exact Hn. pose proof (strtoull_line 0 ext q ltac:(lia) He) as Hs.
  change (hex 0 ++ ext ++ 10 :: q) with ((48 :: ext) ++ 10 :: q) in Hs. rewrite Hs. cbn [mbind exec_bind].
  change (zlen (hex 0)) with 1. replace (zlen (48 :: ext) <? 1) with false by (symmetry; apply Z.ltb_ge; cbn [length]; lia).
  assert (zdrop (zlen (48 :: ext) + 1) ((48 :: ext) ++ 10 :: q) = q) as ->.
  { change (10 :: q) with ([10] ++ q). rewrite app_assoc. apply zdrop_app_zlen. zl. }
  done.
Qed.

Lemma chunks_count cs : (length cs ≤ length (encode_chunks cs))%nat.
Proof.
  unfold encode_chunks. induction cs as [|c cs IH]; [done|]. cbn [map concat length]. rewrite length_app.
  unfold encode_chunk at 1. zlen_simpl. lia.
Qed.

Lemma body_cut cs fuel ext ls blank p s got : Forall chunk_ok cs → ext_ok ext → Forall line_ok ls →
  (blank = [] ∨ blank = [13]) → zlen got + zlen (payload_of cs) ≤ ZCIO_HTTP_MAX_RESPONSE → (length p < fuel)%nat →
  p ++ s = encode_body cs ext ls blank → s ≠ [] → ∃ got', scan_loop fuel p got = Ok (0, got').
Proof.
  revert fuel p got. induction cs as [|c cs IH]; intros fuel p got Hc He Hl Hb Hm Hf E Hs;
    (destruct fuel as [|fuel]; [lia|]); unfold encode_body in E.
  - change (p ++ s = (48 :: ext) ++ 10 :: encode_trailers ls blank) in E.
    assert (10 ∉ 48 :: ext) as Hn by (destruct He; rewrite elem_of_cons; intros [?|?]; done).
    apply cut_at_nl in E as [Hx|(p2 & -> & E)]; [by exists got; cbn [scan_loop]; rewrite memchr_none| |done].
    exists got. rewrite scan_last by done. by erewrite trailers_cut.
  - apply Forall_cons_1 in Hc as [Hc Hcs]. unfold encode_chunks, payload_of in *. cbn [map concat] in *.
    rewrite length_app in Hm. rewrite <- app_assoc in E.
    destruct (chunk_cut fuel c _ p s got Hc ltac:(lia) E) as [?|(p2 & -> & E2)]; [done|].
    rewrite scan_chunk by (done || lia). apply IH; try done; [zl|].
    rewrite length_app in Hf. unfold encode_chunk in Hf. zlen_simpl_in Hf. lia.
Qed.

(** ** Whole and cut bodies *)

Lemma scan_whole cs ext ls blank rest : body_ok cs ext ls blank →
  chunked_scan (encode_body cs ext ls blank ++ rest) = Ok (1, payload_of cs).
Proof.
  intros (Hc & He & Hl & Hb & Hm). unfold encode_body. rewrite <- app_assoc.
  change (([48] ++ ext ++ 10 :: encode_trailers ls blank) ++ rest) with
    (48 :: (ext ++ 10 :: encode_trailers ls blank) ++ rest).
  rewrite <- (app_assoc ext). change (48 :: ext ++ _) with ((48 :: ext) ++ 10 :: (encode_trailers ls blank ++ rest)).
  set (q := _ ++ rest). pose proof (chunks_count cs) as Hn. unfold chunked_scan.
  set (w := encode_chunks cs ++ _).
  assert (S (length w) = length cs + S (length w - length cs))%nat as ->
    by (unfold w; rewrite length_app; lia).
  unfold w. rewrite scan_chunks, scan_last by (done || lia). unfold q. rewrite trailers_lines; try done.
  rewrite length_app. unfold encode_trailers. rewrite length_app. clear.
  enough (length ls ≤ length (concat (map (λ l, l ++ [10%Z]) ls)))%nat by lia.
  induction ls as [|l ls IH]; [done|]. cbn [map concat length]. rewrite !length_app. cbn [length]. lia.
Qed.

Lemma scan_cut cs ext ls blank p s : body_ok cs ext ls blank →
  p ++ s = encode_body cs ext ls blank → s ≠ [] → ∃ got, chunked_scan p = Ok (0, got).
Proof.
  intros (Hc & He & Hl & Hb & Hm) E Hs. apply (body_cut cs _ ext ls blank p s []); try done. cbn. lia.
Qed.

(** ** Properties *)

(** A chunked body, with any extensions and trailers, is recognised as
    complete exactly when its last byte has arrived: the whole encoding,
    whatever follows it, scans to its payload, and every proper part of it asks
    for more, so the reader neither stops early nor rejects it. *)
Theorem chunked_scan_exact cs ext ls blank (Hok : body_ok cs ext ls blank) :
  (∀ rest, chunked_scan (encode_body cs ext ls blank ++ rest) = Ok (1, payload_of cs)) ∧
  (∀ p s, p ++ s = encode_body cs ext ls blank → s ≠ [] → ∃ got, chunked_scan p = Ok (0, got)).
Proof. split; [intros rest; by apply scan_whole|intros p s E Hs; by eapply scan_cut]. Qed.

(** A size line of white space only, with nothing but white space after
    it, makes [strtoull] run past the bytes that were read: the buffer is not
    terminated, so the scan of a hostile body reads outside it. *)
Theorem chunked_scan_overread cs ws (Hc : Forall chunk_ok cs) (Hm : zlen (payload_of cs) ≤ ZCIO_HTTP_MAX_RESPONSE)
  (Hws : Forall (λ c, is_space c = true) ws) (Hnl : 10 ∈ ws) : chunked_scan (encode_chunks cs ++ ws) = Fault.
Proof.
  pose proof (chunks_count cs) as Hn. unfold chunked_scan. set (w := encode_chunks cs ++ _).
  assert (S (length w) = length cs + S (length w - length cs))%nat as ->
    by (unfold w; rewrite length_app; lia).
  unfold w. rewrite scan_chunks by (done || lia). cbn [scan_loop].
  pose proof (memchr_spec 10 ws) as Hmc. destruct (memchr 10 ws) as [i|]; [|done].
  assert (∀ n, space_run ws n = Fault) as Hr.
  { clear - Hws. induction ws as [|c ws IH]; intros n; [done|]. apply Forall_cons_1 in Hws as [Hc Hws]. cbn [space_run].
    rewrite Hc. by apply IH. }
  unfold strtoull16. by rewrite Hr.
Qed.

(** ** Witnesses *)

Lemma chunked_scan_exact_witness :
  chunked_scan (encode_body [([13], B "Wiki"); (B ";x=1" ++ [13], B "pedia")] [13] [B "T: 1" ++ [13]] [13]) =
    Ok (1, B "Wikipedia") ∧
  ∃ got, chunked_scan (hex 4 ++ CRLF ++ B "Wi") = Ok (0, got).
Proof.
  assert (∀ e, forallb (λ c, negb (c =? 10)) e = true → 10 ∉ e) as Hn.
  { intros e He Hin. rewrite List.forallb_forall in He. specialize (He 10 (proj1 (list_elem_of_In _ _) Hin)). discriminate He. }
  assert (body_ok [([13], B "Wiki"); (B ";x=1" ++ [13], B "pedia")] [13] [B "T: 1" ++ [13]] [13]) as Hok.
  { unfold body_ok, chunk_ok, ext_ok, line_ok.
    repeat match goal with |- _ ∧ _ => split | |- Forall _ _ => constructor | |- 10 ∉ _ => apply Hn; reflexivity end;
      try (intros E; discriminate E); try (vm_compute; discriminate); try (vm_compute; reflexivity).
    all: first [right; reflexivity | vm_compute; intuition discriminate]. }
  split.
  - pose proof (proj1 (chunked_scan_exact _ _ _ _ Hok) []) as E. rewrite app_nil_r in E. exact E.
  - apply (proj2 (chunked_scan_exact _ _ _ _ Hok) _
      (B "ki" ++ CRLF ++ drop 9 (encode_body [([13], B "Wiki"); (B ";x=1" ++ [13], B "pedia")] [13] [B "T: 1" ++ [13]] [13])));
      [reflexivity|discriminate].
Defined.

Lemma chunked_scan_overread_witness : chunked_scan [13; 10; 32; 10] = Fault.
Proof.
  apply (chunked_scan_overread [] [13; 10; 32; 10]); [constructor|vm_compute; discriminate| |].
  - repeat constructor.
  - right. left.
Defined.
