(* ===== verification/Head.v ===== *)
(** * Head: the heads of HTTP messages

    A head as its lines, where [strstr] finds its end, and what the client's
    header lookup ([find_header_value] of [src/http.c]) reads in it. *)
From stdpp Require Import base tactics list option strings.
From Stdlib Require Import ZArith Lia.
From S2P Require Import Prelude Types Buf HttpUtil H1 H1Safe Url HttpClient.

(** ** [strstr] *)

Lemma starts_with_spec p s : starts_with p s = true ↔ ∃ t, s = p ++ t.
Proof.
  revert s. induction p as [|a p IH]; intros s; cbn [starts_with].
  - split; [intros _; by exists s|done].
  - destruct s as [|b s]; [split; [done|intros (t & ?); done]|]. rewrite andb_true_iff, IH. split.
    + intros (->%Z.eqb_eq & t & ->). by exists t.
    + intros (t & [= -> ->]). split; [apply Z.eqb_refl|by exists t].
Qed.

Lemma strstr_found s pat i : strstr s pat = Some i → ∃ t, 0 ≤ i ∧ zlen pat + i ≤ zlen s ∧ zdrop i s = pat ++ t.
Proof.
  revert i. induction s as [|c s IH]; intros i; cbn [strstr].
  - destruct (starts_with pat []) eqn:E; [|done]. apply starts_with_spec in E as (t & E). intros [= <-]. exists t.
    apply (f_equal length) in E as El. rewrite length_app in El. cbn in *. split; [lia|]. split; [lia|done].
  - destruct (starts_with pat (c :: s)) eqn:E.
    + apply starts_with_spec in E as (t & E). intros [= <-]. exists t. apply (f_equal length) in E as El.
      rewrite length_app in El. split; [lia|]. split; [lia|done].
    + destruct (strstr s pat) as [j|]; [|done]. intros [= <-]. destruct (IH j eq_refl) as (t & H1 & H2 & H3).
      exists t. cbn [length]. split; [lia|]. split; [lia|]. by rewrite Z2Nat.inj_succ by lia.
Qed.

(** A match in a part is the match in the whole. *)
Lemma strstr_extend p s pat i : strstr p pat = Some i → strstr (p ++ s) pat = Some i.
Proof.
  revert i. induction p as [|c p IH]; intros i; cbn [strstr app].
  - destruct (starts_with pat []) eqn:E; [|done]. apply starts_with_spec in E as (t & E). symmetry in E.
    apply app_nil in E as [-> ->]. intros [= <-]. by destruct s.
  - destruct (starts_with pat (c :: p)) eqn:E.
    + apply starts_with_spec in E as (t & E). intros [= <-].
      replace (starts_with pat (c :: p ++ s)) with true; [done|]. symmetry. apply starts_with_spec.
      exists (t ++ s). change (c :: p ++ s) with ((c :: p) ++ s). by rewrite E, app_assoc.
    + destruct (strstr p pat) as [j|] eqn:Ej; [|done]. intros [= <-]. rewrite (IH j) by done.
      destruct (starts_with pat (c :: p ++ s)) eqn:E2; [|done]. exfalso.
      apply starts_with_spec in E2 as (t & E2). destruct (strstr_found _ _ _ Ej) as (_ & H1 & H2 & _).
      change (c :: p ++ s) with ((c :: p) ++ s) in E2. apply app_eq_inv in E2 as [(k & E2 & _)|(k & E2 & _)].
      * assert (starts_with pat (c :: p) = true) by (apply starts_with_spec; by exists k). congruence.
      * apply (f_equal length) in E2. rewrite length_app in E2. cbn in E2. lia.
Qed.

(** ** Lines *)

(** A line of a head: not empty, no line break in it. *)
Definition clean_line (l : bytes) : Prop := l ≠ [] ∧ 10 ∉ l ∧ 13 ∉ l.

(** Lines with CRLF between them. *)
Definition joined (l : bytes) (ls : list bytes) : bytes := l ++ concat (map (app CRLF) ls).

Lemma joined_cons l l2 ls : joined l (l2 :: ls) = (l ++ [13]) ++ 10 :: joined l2 ls.
Proof. unfold joined, CRLF. cbn [map concat]. by rewrite <- !app_assoc. Qed.

Lemma strstr_skip l s pat : 13 ∉ l → strstr (l ++ s) (13 :: pat) = Z.add (zlen l) <$> strstr s (13 :: pat).
Proof.
  induction l as [|c l IH]; intros Hn; cbn [app].
  - destruct (strstr s _); [|done]. cbn. f_equal.
  - cbn [strstr starts_with]. rewrite elem_of_cons in Hn. replace (13 =? c) with false by (symmetry; apply Z.eqb_neq; auto).
    cbn [andb]. rewrite IH by auto. destruct (strstr s _); [|done]. cbn. f_equal. lia.
Qed.

(** The end of the head. *)
Lemma strstr_joined l ls b : clean_line l → Forall clean_line ls →
  strstr (joined l ls ++ CRLF ++ CRLF ++ b) (CRLF ++ CRLF) = Some (zlen (joined l ls)).
Proof.
  revert l. induction ls as [|l2 ls IH]; intros l (Hne & H10 & H13) Hls.
  - unfold joined. cbn [map concat]. rewrite app_nil_r. change (CRLF ++ CRLF) with (13 :: [10; 13; 10]).
    rewrite strstr_skip by done. cbn. f_equal. lia.
  - apply Forall_cons_1 in Hls as [Hl2 Hls]. rewrite joined_cons, <- !app_assoc.
    change (CRLF ++ CRLF) with [13; 10; 13; 10] in *. rewrite strstr_skip by done. cbn [app]. pose proof (IH l2 Hl2 Hls) as E. destruct Hl2 as (Hne2 & _ & H132).
    set (s := joined l2 ls ++ CRLF ++ CRLF ++ b) in *.
    assert (∃ c t, s = c :: t ∧ c ≠ 13) as (c & t & Hs & Hc).
    { unfold s, joined. destruct l2 as [|c l2]; [done|]. exists c. eexists. split; [done|]. intros ->. apply H132. by left. }
    assert (strstr (13 :: 10 :: s) [13; 10; 13; 10] = Z.succ <$> (Z.succ <$> strstr s [13; 10; 13; 10])) as ->.
    { rewrite Hs. cbn [strstr starts_with]. rewrite !Z.eqb_refl. cbn [andb].
      replace (13 =? c) with false by (symmetry; apply Z.eqb_neq; auto). done. }
    rewrite E. cbn [fmap option_fmap option_map]. f_equal. zl.
Qed.

(** Before its last byte the head has no end. *)
Lemma strstr_cut l ls p s b : clean_line l → Forall clean_line ls →
  p ++ s = joined l ls ++ CRLF ++ CRLF ++ b → zlen p < zlen (joined l ls) + 4 → strstr p (CRLF ++ CRLF) = None.
Proof.
  intros Hl Hls E Hp. destruct (strstr p (CRLF ++ CRLF)) as [i|] eqn:Ei; [|done]. exfalso.
  pose proof (strstr_extend p s _ _ Ei) as E2. rewrite E, strstr_joined in E2 by done. injection E2 as <-.
  destruct (strstr_found _ _ _ Ei) as (_ & _ & H2 & _). change (zlen (CRLF ++ CRLF)) with 4 in H2. lia.
Qed.

(** ** Header lookup *)

Definition line_key (l : bytes) : option bytes := (λ i, map tolower (ztake i l)) <$> memchr 58 l.
Definition line_value (l : bytes) : bytes :=
  match memchr 58 l with Some i => drop_while is_ows (zdrop (i + 1) l) | None => [] end.
Definition find_line (key : bytes) (ls : list bytes) : option bytes :=
  find (λ l, bool_decide (line_key l = Some (map tolower key))) ls.

Lemma memchr_cr l : memchr 58 (l ++ [13]) = memchr 58 l.
Proof.
  induction l as [|c l IH]; [done|]. cbn [app memchr]. destruct (c =? 58); [done|]. by rewrite IH.
Qed.

Lemma drop_ows_cr x : drop_while is_ows (x ++ [13]) = drop_while is_ows x ++ [13].
Proof. induction x as [|c x IH]; [done|]. cbn. by destruct (is_ows c). Qed.

Lemma drop_while_sub (f : Z → bool) (x : bytes) c : c ∈ drop_while f x → c ∈ x.
Proof.
  induction x as [|y x IH]; [done|]. cbn. destruct (f y); [|done]. intros Hc. apply elem_of_cons. auto.
Qed.

Lemma drop_cr x : 13 ∉ x → rev (drop_while (λ c, c =? 13) (rev x)) = x.
Proof.
  intros Hn. destruct x as [|y x _] using rev_ind; [done|]. rewrite rev_app_distr. cbn.
  destruct (y =? 13) eqn:E; btest.
  - exfalso. apply Hn. rewrite elem_of_app, list_elem_of_singleton. auto.
  - cbn. by rewrite rev_involutive.
Qed.

Lemma drop_cr_end x : 13 ∉ x → rev (drop_while (λ c, c =? 13) (rev (x ++ [13]))) = x.
Proof. intros Hn. rewrite rev_app_distr. cbn. by apply drop_cr. Qed.

Lemma in_drop (n : nat) (l : bytes) c : c ∈ drop n l → c ∈ l.
Proof. intros Hc. rewrite <- (take_drop n l). apply elem_of_app. by right. Qed.

(** What the lookup makes of one line, with or without its CR. *)
Lemma header_here `{Allocator} l key (cr : bool) : clean_line l →
  let line := if cr then l ++ [13] else l in
  match memchr 58 line with Some i => bool_decide (map tolower (ztake i line) = map tolower key) | None => false end
    = bool_decide (line_key l = Some (map tolower key)) ∧
  (line_key l = Some (map tolower key) →
   rev (drop_while (λ c, c =? 13) (rev (drop_while is_ows (zdrop (zlen key + 1) line)))) = line_value l).
Proof.
  intros (_ & _ & H13) line. assert (memchr 58 line = memchr 58 l) as -> by (unfold line; destruct cr; [apply memchr_cr|done]).
  unfold line_key, line_value. pose proof (memchr_spec 58 l) as Hm. destruct (memchr 58 l) as [i|]; [|done].
  destruct Hm as (Hi & _ & _). cbn [fmap option_fmap option_map].
  assert (ztake i line = ztake i l) as -> by (unfold line; destruct cr; [rewrite take_app_le by lia|]; done).
  split; [by apply bool_decide_ext; split; [intros ->|intros [= ->]]|].
  intros [= Hk]. assert (zlen key = i) as ->.
  { apply (f_equal length) in Hk. rewrite !length_map in Hk. rewrite <- Hk. zl. }
  assert (13 ∉ drop_while is_ows (zdrop (i + 1) l)) as Hn by (intros Hx%drop_while_sub%in_drop; done).
  unfold line. destruct cr; [|by apply drop_cr].
  rewrite drop_app_le by lia. rewrite drop_ows_cr. by apply drop_cr_end.
Qed.

Lemma joined_lines l ls : (length ls < length (joined l ls) + 1)%nat.
Proof.
  unfold joined. rewrite length_app. induction ls as [|l2 ls IH]; [cbn; lia|]. cbn [map concat length].
  rewrite !length_app. change (length CRLF) with 2%nat. lia.
Qed.

(** The lookup finds the first line with the key. *)
Lemma header_value_joined `{Allocator} key l ls : (∀ n, alloc_ok n = true) → clean_line l → Forall clean_line ls →
  find_header_value (joined l ls) key = (λ x, cstr (line_value x)) <$> find_line key (l :: ls).
Proof.
  intros Hall Hl Hls. unfold find_header_value. pose proof (joined_lines l ls) as Hf.
  assert (length ls < S (length (joined l ls)))%nat as Hf' by lia. clear Hf. revert Hf'.
  generalize (S (length (joined l ls))). intros fuel. revert l ls Hl Hls.
  induction fuel as [|fuel IH]; intros l ls Hl Hls Hf; [lia|].
  assert (joined l ls ≠ []) as Hne by (unfold joined; destruct Hl as (? & _); by destruct l).
  cbn [header_value_loop]. destruct (joined l ls) as [|c0 s0] eqn:E; [done|]. rewrite <- E. clear E Hne c0 s0.
  unfold find_line. cbn [find].
  assert (∀ n, zcio_xmalloc_ok n = true) as Hx by (intros; apply Hall).
  destruct ls as [|l2 ls].
  - unfold joined. cbn [map concat find]. rewrite app_nil_r, memchr_none by apply Hl.
    destruct (header_here l key false Hl) as [-> Hv]. destruct (bool_decide _) eqn:E; [|done].
    apply bool_decide_eq_true in E. by rewrite Hx, Hv.
  - apply Forall_cons_1 in Hls as [Hl2 Hls]. rewrite joined_cons, memchr_app.
    2: { rewrite elem_of_app, list_elem_of_singleton. destruct Hl as (_ & ? & _). intros [?|?]; [done|lia]. }
    rewrite ztake_app_zlen by done. change (10 :: joined l2 ls) with ([10] ++ joined l2 ls).
    rewrite (app_assoc _ [10]), (zdrop_app_zlen ((l ++ [13]) ++ [10])) by zl.
    destruct (header_here l key true Hl) as [-> Hv]. destruct (bool_decide _) eqn:E.
    + apply bool_decide_eq_true in E. by rewrite Hx, Hv.
    + apply IH; try done. cbn in Hf. lia.
Qed.
