(* ===== verification/ClientSafe.v ===== *)
(** * ClientSafe: requests and responses of the HTTP client ([src/http.c])

    The bytes of a request, and what the client makes of a well formed
    response, in whatever pieces it arrives. *)
From stdpp Require Import base tactics list option strings.
From Stdlib Require Import ZArith Lia.
From S2P Require Import Prelude Types Stream Buf HttpUtil Respond H1 H1Safe Url HttpClient Chunked.

(** ** Output routines *)

(** On success exactly [out] was appended; the only failure is a lack of
    memory. *)
Class Writes `{Allocator} (f : writer) (out : bytes) : Prop :=
  writes : ∀ b, ∃ r b', f b = (r, b') ∧ (r = ZCIO_OK ∨ r = ZCIO_ERR_NOMEM) ∧
    (r = ZCIO_OK → bt_bytes b' = bt_bytes b ++ out) ∧
    ((∀ n, alloc_ok n = true) → bt_len b + zlen out ≤ SIZE_MAX → r = ZCIO_OK).

Section Writers.
Context `{Allocator}.

#[export] Instance writes_put s : Writes (bput s) s.
Proof.
  intros b. unfold bput, buf_append, buf_reserve. destruct (zlen s =? 0) eqn:E0; btest.
  { exists ZCIO_OK, b. destruct s; [|cbn in *; lia]. rewrite app_nil_r. ands. }
  destruct (SIZE_MAX - bt_len b <? zlen s) eqn:E1; btest.
  { exists ZCIO_ERR_NOMEM, b. split; [done|]. split; [by right|]. split; [done|]. intros. lia. }
  destruct (_ <=? bt_cap b); cbn.
  { eexists _, _. split; [done|]. split; [by left|]. done. }
  destruct (alloc_ok _) eqn:Ea; cbn.
  - eexists _, _. split; [done|]. split; [by left|]. done.
  - eexists _, _. split; [done|]. split; [by right|]. split; [done|]. intros Hall. congruence.
Qed.

#[export] Instance writes_nop : Writes bnop [].
Proof. intros b. exists ZCIO_OK, b. rewrite app_nil_r. split; [done|]. split; [by left|]. done. Qed.

#[export] Instance writes_seq f g x y `{!Writes f x, !Writes g y} : Writes (f >>> g) (x ++ y).
Proof.
  intros b. unfold bseq. destruct (writes (f := f) b) as (r & b1 & -> & Hr & Hc & Ha).
  destruct Hr as [->| ->]; cbn.
  - specialize (Hc eq_refl). destruct (writes (f := g) b1) as (r2 & b2 & -> & Hr2 & Hc2 & Ha2).
    exists r2, b2. split; [done|]. split; [done|]. split.
    + intros E. by rewrite (Hc2 E), Hc, app_assoc.
    + intros Hall Hs. apply Ha2; [done|]. unfold bt_len in *. rewrite Hc. rewrite !length_app in *. lia.
  - exists ZCIO_ERR_NOMEM, b1. split; [done|]. split; [by right|]. split; [done|]. intros Hall Hs.
    apply Ha; [done|]. rewrite length_app in Hs. lia.
Qed.

Lemma writes_eq f x y : Writes f x → x = y → Writes f y.
Proof. by intros ? <-. Qed.

Definition json_escape (s : bytes) : bytes :=
  concat (map (λ c, if (c =? 34) || (c =? 92) then [92; c] else [c]) s).

#[export] Instance writes_json s : Writes (json_append_escaped s) (json_escape s).
Proof.
  induction s as [|c s IH]; [exact writes_nop|]. unfold json_append_escaped, json_escape in *. cbn [foldr map concat].
  destruct (_ || _); [|exact (writes_seq _ _ _ _ (Writes0 := writes_nop))].
  eapply writes_eq; [apply writes_seq; [apply writes_put|apply writes_seq; [apply writes_put|exact IH]]|done].
Qed.

Definition header_line (h : bytes * bytes) : bytes := h.1 ++ B ": " ++ h.2.
Definition header_lines_of (hs : list (bytes * bytes)) : bytes := concat (map (λ h, header_line h ++ CRLF) hs).

#[export] Instance writes_headers hs : Writes (put_headers hs) (header_lines_of hs).
Proof.
  induction hs as [|h hs IH]; [exact writes_nop|]. unfold put_headers, header_lines_of, header_line in *. cbn [foldr map concat].
  eapply writes_eq; [repeat (apply writes_seq; [apply writes_put|]); exact IH|]. by rewrite <- !app_assoc.
Qed.
End Writers.
