(* ===== verification/ClientRead.v ===== *)
(** * ClientRead: responses read by the HTTP client ([src/http.c])

    A well formed response as a record, its bytes, and what the read loop and
    the parser make of them in whatever pieces they arrive. *)
From stdpp Require Import base tactics list option strings.
From Stdlib Require Import ZArith Lia.
From S2P Require Import Prelude Types Stream Membuf Buf HttpUtil Respond H1 H1Safe Url HttpClient Chunked Head ClientSafe.

(** ** Responses *)

(** Status line, fields, the body as it is sent and the body it stands for. *)
Record message := mk_msg {
  m_version : bytes; m_code : Z; m_text : bytes; m_fields : list (bytes * bytes); m_wire : bytes; m_body : bytes }.

Definition first_line (m : message) : bytes :=
  B "HTTP/" ++ m_version m ++ 32 :: dec (m_code m) ++ 32 :: m_text m.
Definition msg_head (m : message) : bytes := joined (first_line m) (map header_line (m_fields m)).
Definition msg_bytes (m : message) : bytes := msg_head m ++ CRLF ++ CRLF ++ m_wire m.

(** No NUL and no line break. *)
Definition plain : bytes → Prop := Forall (λ c, c ≠ 0 ∧ c ≠ 10 ∧ c ≠ 13).
Definition field_ok (h : bytes * bytes) : Prop := plain h.1 ∧ 58 ∉ h.1 ∧ plain h.2.

(** The value of the first field with a name. *)
Definition field_value (key : bytes) (fs : list (bytes * bytes)) : option bytes :=
  (λ h, drop_while is_ows h.2) <$> find (λ h, bool_decide (map tolower h.1 = map tolower key)) fs.

Definition is_chunked (fs : list (bytes * bytes)) : bool :=
  match field_value (B "Transfer-Encoding") fs with
  | Some v => bool_decide (strstr (map tolower v) (B "chunked") ≠ None)
  | None => false
  end.

Inductive framed (fs : list (bytes * bytes)) : bytes → bytes → Prop :=
  | framed_length b v : is_chunked fs = false → field_value (B "Content-Length") fs = Some v → atoll v = zlen b →
      framed fs b b
  | framed_chunks cs ext ls blank : is_chunked fs = true → body_ok cs ext ls blank →
      framed fs (encode_body cs ext ls blank) (payload_of cs).

Record msg_ok (m : message) : Prop := {
  ok_version : plain (m_version m) ∧ 32 ∉ m_version m;
  ok_code : 0 ≤ m_code m < 2 ^ 31;
  ok_text : plain (m_text m);
  ok_fields : Forall field_ok (m_fields m) ∧ m_fields m ≠ [];
  ok_body : framed (m_fields m) (m_wire m) (m_body m);
  ok_size : zlen (msg_bytes m) + 8192 ≤ ZCIO_HTTP_MAX_RESPONSE }.

(** ** Lines *)

Lemma plain_app s t : plain (s ++ t) ↔ plain s ∧ plain t.
Proof. apply Forall_app. Qed.
Lemma plain_cons c s : plain (c :: s) ↔ (c ≠ 0 ∧ c ≠ 10 ∧ c ≠ 13) ∧ plain s.
Proof. unfold plain. by rewrite List.Forall_cons_iff. Qed.

Lemma plain_check s : forallb (λ c, negb ((c =? 0) || (c =? 10) || (c =? 13))) s = true → plain s.
Proof.
  intros Hs. apply Forall_forall. intros c Hc%list_elem_of_In. rewrite List.forallb_forall in Hs.
  specialize (Hs c Hc). apply negb_true_iff, orb_false_iff in Hs as [Hs ?]. apply orb_false_iff in Hs as [? ?].
  btest. lia.
Qed.

Lemma plain_not c s : plain s → c = 0 ∨ c = 10 ∨ c = 13 → c ∉ s.
Proof. intros Hp Hc Hin. unfold plain in Hp. rewrite Forall_forall in Hp. specialize (Hp c Hin). lia. Qed.

Lemma plain_cstr s : plain s → cstr s = s.
Proof. intros Hp. apply cstr_id. eapply Forall_impl; [exact Hp|]. cbn. tauto. Qed.

Lemma plain_dec n : plain (dec n).
Proof. eapply Forall_impl; [apply dec_chars|]. unfold dec_char. lia. Qed.

Lemma plain_drop f s : plain s → plain (drop_while f s).
Proof. unfold plain. rewrite !Forall_forall. intros Hp c Hc%drop_while_sub. by apply Hp. Qed.

Lemma plain_clean s : plain s → s ≠ [] → clean_line s.
Proof. intros Hp Hn. split; [done|]. split; apply (plain_not _ _ Hp); lia. Qed.

Lemma clean_field h : field_ok h → clean_line (header_line h).
Proof.
  intros (Hk & _ & Hv). unfold header_line. apply plain_clean; [|by destruct h.1].
  rewrite !plain_app. split; [done|]. split; [by apply plain_check|done].
Qed.

Lemma clean_fields fs : Forall field_ok fs → Forall clean_line (map header_line fs).
Proof. induction 1; constructor; [by apply clean_field|done]. Qed.

Lemma plain_first m : msg_ok m → plain (first_line m).
Proof.
  intros Hm. unfold first_line. destruct (ok_version m Hm) as [Hv _]. pose proof (ok_text m Hm). pose proof (plain_dec (m_code m)).
  rewrite !plain_app, plain_cons, plain_app, plain_cons. split; [by apply plain_check|].
  split_and!; done || lia.
Qed.

Lemma clean_first m : msg_ok m → clean_line (first_line m).
Proof. intros Hm. apply plain_clean; [by apply plain_first|done]. Qed.

(** ** Header lookup *)

Lemma field_line h : field_ok h →
  line_key (header_line h) = Some (map tolower h.1) ∧ line_value (header_line h) = drop_while is_ows h.2.
Proof.
  intros (_ & Hc & _). unfold line_key, line_value, header_line. change (B ": " ++ h.2) with (58 :: 32 :: h.2).
  rewrite memchr_app by done. cbn [fmap option_fmap option_map]. rewrite ztake_app_zlen by done. split; [done|].
  change (58 :: 32 :: h.2) with ([58] ++ 32 :: h.2). rewrite app_assoc, zdrop_app_zlen by zl. done.
Qed.

Lemma find_fields key fs : Forall field_ok fs →
  (λ x, cstr (line_value x)) <$> find_line key (map header_line fs) = field_value key fs.
Proof.
  unfold find_line, field_value. induction 1 as [|h fs Hh Hfs IH]; [done|]. cbn [map find].
  destruct (field_line h Hh) as [-> Hv].
  assert (bool_decide (Some (map tolower h.1) = Some (map tolower key)) = bool_decide (map tolower h.1 = map tolower key)) as ->
    by (apply bool_decide_ext; split; congruence).
  destruct (bool_decide _); [|done]. cbn. rewrite Hv. f_equal. apply plain_cstr, plain_drop, Hh.
Qed.

(** No name looked up starts like a status line. *)
Definition no_h (key : bytes) : Prop := match key with c :: _ => tolower c ≠ 104 | [] => False end.

Lemma find_head `{Allocator} key m : (∀ n, alloc_ok n = true) → msg_ok m → no_h key →
  find_header_value (msg_head m) key = field_value key (m_fields m).
Proof.
  intros Hall Hm Hk. destruct (ok_fields m Hm) as [Hf _]. unfold msg_head.
  rewrite header_value_joined by (done || by apply clean_first || by apply clean_fields).
  rewrite <- find_fields by done. unfold find_line. cbn [find].
  destruct (bool_decide (line_key _ = _)) eqn:E; [|done]. apply bool_decide_eq_true in E. exfalso.
  assert (∃ t, first_line m = 72 :: t) as [t Ht] by (by eexists). rewrite Ht in E.
  unfold line_key in E. cbn [memchr] in E. change (72 =? 58) with false in E. cbn match in E.
  pose proof (memchr_spec 58 t) as Hi. destruct (memchr 58 t) as [i|]; [|done]. injection E as E.
  destruct key as [|c key]; [done|]. cbn in Hk. replace (Z.to_nat (i + 1)) with (S (Z.to_nat i)) in E by lia.
  cbn [take map] in E. injection E as E _. by rewrite <- E in Hk.
Qed.

Lemma find_tail `{Allocator} key h fs : (∀ n, alloc_ok n = true) → Forall field_ok (h :: fs) →
  find_header_value (joined (header_line h) (map header_line fs)) key = field_value key (h :: fs).
Proof.
  intros Hall Hf. apply Forall_cons_1 in Hf as [Hh Hf].
  rewrite header_value_joined by (done || by apply clean_field || by apply clean_fields).
  apply (find_fields key (h :: fs)). by constructor.
Qed.

(** ** Framing *)

Definition msg_framing (m : message) : framing :=
  mk_framing (zlen (msg_head m) + 4)
    (match field_value (B "Content-Length") (m_fields m) with Some v => atoll v | None => -1 end)
    (is_chunked (m_fields m)).

Section Framing.
Context `{Allocator} (Hall : ∀ n, alloc_ok n = true) (m : message) (Hm : msg_ok m).

Lemma head_end q : strstr (msg_head m ++ CRLF ++ CRLF ++ q) (CRLF ++ CRLF) = Some (zlen (msg_head m)).
Proof. apply strstr_joined; [by apply clean_first|]. apply clean_fields, Hm. Qed.

Lemma framing_at q : framing_of (msg_head m ++ CRLF ++ CRLF ++ q) = Some (msg_framing m).
Proof.
  unfold framing_of. rewrite head_end, ztake_app_zlen by done. unfold msg_framing, says, is_chunked.
  rewrite !find_head by done. done.
Qed.

Lemma head_split q : msg_head m ++ CRLF ++ CRLF ++ q = (msg_head m ++ CRLF ++ CRLF) ++ q.
Proof. by rewrite <- !app_assoc. Qed.

Lemma after_head q : zdrop (zlen (msg_head m) + 4) (msg_head m ++ CRLF ++ CRLF ++ q) = q.
Proof. rewrite head_split. apply zdrop_app_zlen. rewrite !length_app. change (length CRLF) with 2%nat. lia. Qed.

Lemma framing_part p s : p ++ s = msg_bytes m →
  framing_of p = None ∨ ∃ q, p = msg_head m ++ CRLF ++ CRLF ++ q ∧ q ++ s = m_wire m.
Proof.
  intros E. destruct (Z_lt_ge_dec (zlen p) (zlen (msg_head m) + 4)) as [Hp|Hp].
  - left. unfold framing_of. unfold msg_bytes, msg_head in E.
    by rewrite (strstr_cut _ _ _ _ _ (clean_first m Hm) (clean_fields _ (proj1 (ok_fields m Hm))) E Hp).
  - right. unfold msg_bytes in E. rewrite head_split in E.
    apply app_eq_inv in E as [(k & -> & E)|(k & Hk & E)].
    + exists k. by rewrite head_split.
    + assert (k = []) as ->.
      { apply (f_equal length) in Hk. rewrite !length_app in Hk. change (length CRLF) with 2%nat in Hk. destruct k; [done|cbn [length] in Hk; lia]. }
      exists []. rewrite app_nil_r in *. subst p. done.
Qed.

Lemma complete_part q s : q ++ s = m_wire m → s ≠ [] →
  body_complete (msg_framing m) (msg_head m ++ CRLF ++ CRLF ++ q) = Ok (inr false).
Proof.
  intros E Hs. unfold body_complete. cbn [fr_body fr_chunked fr_length msg_framing]. rewrite after_head.
  destruct (ok_body m Hm) as [b v -> -> Hv|cs ext ls blank -> Hb].
  - do 3 f_equal. apply (f_equal length) in E. rewrite length_app in E. destruct s; [done|]. cbn [length] in E.
    apply andb_false_iff. right. apply Z.leb_gt. lia.
  - destruct (scan_cut _ _ _ _ _ _ Hb E Hs) as [got ->]. done.
Qed.

Lemma complete_whole rest : body_complete (msg_framing m) (msg_bytes m ++ rest) = Ok (inr true).
Proof.
  unfold body_complete, msg_bytes. cbn [fr_body fr_chunked fr_length msg_framing].
  rewrite <- !app_assoc, after_head. destruct (ok_body m Hm) as [b v -> -> Hv|cs ext ls blank -> Hb].
  - do 3 f_equal. rewrite Hv. apply andb_true_iff. split; apply Z.leb_le; zl.
  - rewrite scan_whole by done. done.
Qed.
End Framing.

(** ** The read loop *)

Section Reading.
Context `{Allocator} (Hall : ∀ n, alloc_ok n = true).
Context {C : Type} {vt : zcio_stream_vtable C} {inv : C → Prop} {rem : C → bytes} `{!Source vt inv rem} (fl : Z).
Abbreviation handle := (option (zcio_stream C)).
Context (set_timeout : handle → Z → handle) (now : nat → Z) (deadline : Z).
Abbreviation st c := (Some (mk_stream vt c fl)).
Hypothesis Htimeout : ∀ c t, inv c → ∃ c', set_timeout (st c) t = st c' ∧ inv c' ∧ rem c' = rem c.
Hypothesis Htime : deadline = 0 ∨ ∀ k, now k < deadline.

Lemma remaining w : ∃ r w', deadline_remaining_ms now deadline w = (r, w') ∧ r ≠ 0 ∧ w_log w' = w_log w.
Proof.
  unfold deadline_remaining_ms. destruct (deadline =? 0) eqn:E; btest; [by exists (-1), w|].
  destruct Htime as [?|Ht]; [done|]. specialize (Ht (w_tick w)). do 2 eexists. split; [done|]. split; [|done].
  destruct (_ <=? _) eqn:E2; btest; unfold INT_MAX; lia.
Qed.

Context (m : message) (Hm : msg_ok m) (rest : bytes) (w0 : world).

(** Part of the message was read and is in the buffer, the rest is to come. *)
Definition partial (s : reading) : Prop :=
  ∃ c w out, s = (st c, w, out, framing_of (bt_bytes out)) ∧ inv c ∧ w_log w = w_log w0 ∧
    ∃ q, q ≠ [] ∧ bt_bytes out ++ q = msg_bytes m ∧ rem c = q ++ rest.

Definition received (o : handle * world * Z * buf_t) : Prop :=
  ∃ c w raw k, o = (st c, w, ZCIO_OK, raw) ∧ inv c ∧ w_log w = w_log w0 ∧
    bt_bytes raw = msg_bytes m ++ k ∧ k ++ rem c = rest.

Lemma buf_append_ok b s : bt_len b + zlen s ≤ SIZE_MAX → ∃ b', buf_append b s = (ZCIO_OK, b') ∧ bt_bytes b' = bt_bytes b ++ s.
Proof.
  intros Hs. destruct (writes_put s b) as (r & b' & E & _ & Hc & Ha). rewrite (Ha Hall Hs) in *. exists b'.
  split; [exact E|by apply Hc].
Qed.

Lemma framing_kept out d q : bt_bytes out ++ d ++ q = msg_bytes m →
  match framing_of (bt_bytes out) with Some f => Some f | None => framing_of (bt_bytes out ++ d) end
    = framing_of (bt_bytes out ++ d).
Proof.
  intros E. destruct (framing_part m Hm (bt_bytes out) (d ++ q) E) as [-> |(k & -> & _)]; [done|].
  rewrite <- !app_assoc. by rewrite !(framing_at Hall m Hm).
Qed.

Lemma read_turn s : partial s →
  ends False (read_step set_timeout now deadline s) (λ o, match o with
    | inl s' => partial s' ∧ zlen (msg_bytes m) - zlen (bt_bytes s'.1.2) < zlen (msg_bytes m) - zlen (bt_bytes s.1.2)
    | inr o => received o end).
Proof.
  intros (c & w & out & -> & Hi & Hw & q & Hq & E & Hr). cbn [read_step].
  destruct (remaining w) as (rm & w' & -> & Hrm & Hw'). replace (rm =? 0) with false by (symmetry; by apply Z.eqb_neq).
  assert (∃ c1, (if 0 <=? rm then set_timeout (st c) rm else st c) = st c1 ∧ inv c1 ∧ rem c1 = rem c) as (c1 & -> & Hi1 & Hr1)
    by (destruct (0 <=? rm); [by apply Htimeout|by exists c]).
  destruct (zcio_read_source fl c1 8192 Hi1 ltac:(lia)) as (c2 & r & Hrd & Hi2 & Hr2 & Hr3 & Hr4 & Hr5).
  rewrite Hrd. cbn [mbind exec_bind]. rewrite Hr1, Hr in *.
  assert (r ≠ 0) as Hr0 by (intros ->; by destruct (proj1 (app_nil _ _) (Hr4 eq_refl))).
  replace (r <? 0) with false by (symmetry; apply Z.ltb_ge; lia).
  replace (r =? 0) with false by (symmetry; by apply Z.eqb_neq).
  pose proof (ok_size m Hm) as Hsz. pose proof (f_equal length E) as El. rewrite length_app in El.
  assert (0 < zlen q) by (destruct q; [done|cbn; lia]). unfold bt_len, ZCIO_HTTP_MAX_RESPONSE in *.
  destruct (_ <? _) eqn:Eb in |- *; btest; [lia|]. clear Eb.
  assert (ztake r (ztake r (q ++ rest)) = ztake r (q ++ rest)) as -> by (rewrite take_take; f_equal; lia).
  destruct (buf_append_ok out (ztake r (q ++ rest))) as (out' & -> & Hb); [unfold bt_len, SIZE_MAX; zl|]. cbn [negb].
  change (negb (ZCIO_OK =? ZCIO_OK)) with false. cbv iota.
  destruct (Z_lt_ge_dec r (zlen q)) as [Hlt|Hge].
  - rewrite take_app_le, drop_app_le in * by lia. rewrite Hb, (framing_kept out _ (zdrop r q)) by (by rewrite take_drop).
    assert ((bt_bytes out ++ ztake r q) ++ zdrop r q = msg_bytes m) as E2 by (by rewrite <- app_assoc, take_drop).
    assert (zdrop r q ≠ []) as Hne by (intros E3%(f_equal length); zlen_simpl_in E3; lia).
    assert (partial (st c2, w', out', framing_of (bt_bytes out'))) as HP.
    { exists c2, w', out'. split; [done|]. split; [done|]. split; [congruence|]. exists (zdrop r q). by rewrite Hb. }
    rewrite Hb in HP. destruct (framing_part m Hm _ _ E2) as [En|(k & Ek & Ek2)].
    + rewrite En in HP |- *. cbn [ends]. split; [done|]. cbn [fst snd]. rewrite Hb. zl.
    + rewrite Ek in HP |- *. rewrite (framing_at Hall m Hm) in HP |- *.
      rewrite (complete_part m Hm k _ Ek2 Hne). cbn [mbind exec_bind ends]. split; [done|]. cbn [fst snd].
      rewrite Hb. zl.
  - assert (bt_bytes out' = msg_bytes m ++ ztake (r - zlen q) rest) as Hb2.
    { rewrite Hb, take_app, take_ge by lia. rewrite app_assoc, E. do 2 f_equal. lia. }
    rewrite Hb2.
    assert (match framing_of (bt_bytes out) with Some f => Some f | None => framing_of (msg_bytes m ++ ztake (r - zlen q) rest) end
      = Some (msg_framing m)) as ->.
    { assert (framing_of (msg_bytes m ++ ztake (r - zlen q) rest) = Some (msg_framing m)) as ->
        by (unfold msg_bytes; rewrite <- !app_assoc; by apply framing_at).
      destruct (framing_part m Hm (bt_bytes out) q E) as [-> |(k & -> & _)]; [done|]. by rewrite framing_at. }
    rewrite (complete_whole m Hm). cbn [mbind exec_bind ends].
    exists c2, w', out', (ztake (r - zlen q) rest). split; [done|]. split; [done|]. split; [congruence|]. split; [done|].
    rewrite Hr5, drop_app. rewrite drop_ge by lia. cbn [app].
    replace (Z.to_nat r - length q)%nat with (Z.to_nat (r - zlen q)) by lia. apply take_drop.
Qed.

(** The whole message is read, and no further than one read beyond it. *)
Lemma read_message c : inv c → rem c = msg_bytes m ++ rest →
  ∃ o, read_response set_timeout now (st c) deadline w0 = Ok o ∧ received o.
Proof.
  intros Hi Hr. apply ends_Ok. unfold read_response. pose proof (ok_size m Hm).
  apply (loop_spec False (read_step set_timeout now deadline) partial
    (λ s, zlen (msg_bytes m) - zlen (bt_bytes s.1.2)) received).
  - intros s (c1 & w & out & -> & _ & _ & q & _ & E & _). cbn [fst snd]. apply (f_equal length) in E.
    rewrite length_app in E. lia.
  - apply read_turn.
  - exists c, w0, bt_empty. split; [done|]. split; [done|]. split; [done|]. exists (msg_bytes m). split; [|done].
    intros E%(f_equal length). unfold msg_bytes, CRLF in E. zlen_simpl_in E. cbn in E. lia.
  - cbn [fst snd bt_bytes bt_empty length]. unfold ZCIO_HTTP_MAX_RESPONSE in *. lia.
Qed.
End Reading.

(** ** Headers as JSON *)

Definition json_member (h : bytes * bytes) : bytes :=
  [34] ++ json_escape h.1 ++ [34; 58; 34] ++ json_escape (drop_while is_ows h.2) ++ [34].
Fixpoint json_members (first : bool) (fs : list (bytes * bytes)) : bytes :=
  match fs with
  | [] => []
  | h :: fs => (if first then [] else [44]) ++ json_member h ++ json_members false fs
  end.
Definition json_text (fs : list (bytes * bytes)) : bytes := [123] ++ json_members true fs ++ [125].

Lemma strip_cr_end l : strip_cr (l ++ [13]) = l.
Proof. unfold strip_cr. rewrite rev_app_distr. cbn. apply rev_involutive. Qed.

Lemma strip_cr_none l : 13 ∉ l → strip_cr l = l.
Proof.
  intros Hn. unfold strip_cr. destruct l as [|x l _] using rev_ind; [done|]. rewrite rev_app_distr. cbn [rev app].
  assert (x ≠ 13) as Hx by (intros ->; apply Hn, elem_of_app; right; by left).
  repeat (destruct x as [|x|x]; try done).
Qed.

Lemma escape_plain s : plain s → plain (json_escape s).
Proof.
  unfold json_escape. induction 1 as [|c s Hc Hs IH]; [constructor|]. cbn [map concat]. apply plain_app. split; [|done].
  destruct (_ || _); [apply plain_cons; split; [lia|]|]; apply plain_cons; (split; [done|constructor]).
Qed.

Lemma escape_length s : zlen (json_escape s) ≤ 2 * zlen s.
Proof.
  unfold json_escape. induction s as [|c s IH]; [done|]. cbn [map concat]. rewrite length_app.
  destruct (_ || _); cbn [length]; lia.
Qed.

Lemma member_plain h : field_ok h → plain (json_member h).
Proof.
  intros (Hk & _ & Hv). unfold json_member. rewrite !plain_app. split_and!; try (by apply plain_check).
  - by apply escape_plain.
  - by apply escape_plain, plain_drop.
Qed.

Lemma members_plain first fs : Forall field_ok fs → plain (json_members first fs).
Proof.
  intros Hf. revert first. induction Hf as [|h fs Hh Hf IH]; intros first; [constructor|]. cbn [json_members].
  rewrite !plain_app. split; [by destruct first; apply plain_check|]. split; [by apply member_plain|done].
Qed.

Lemma members_length first fs : zlen (json_members first fs) ≤ 4 * zlen (concat (map (app CRLF) (map header_line fs))).
Proof.
  revert first. induction fs as [|h fs IH]; intros first; [done|]. cbn [json_members map concat].
  specialize (IH false). unfold json_member. rewrite !length_app.
  assert (length (header_line h) = length h.1 + 2 + length h.2)%nat as -> by (unfold header_line; rewrite !length_app; cbn [length]; change (length (B ": ")) with 2%nat; lia).
  pose proof (escape_length h.1). pose proof (escape_length (drop_while is_ows h.2)).
  pose proof (drop_while_length is_ows h.2). change (length CRLF) with 2%nat.
  destruct first; cbn [length]; lia.
Qed.

Section Json.
Context `{Allocator} (Hall : ∀ n, alloc_ok n = true).

Lemma xmalloc_ok n : zcio_xmalloc_ok n = true.
Proof. apply Hall. Qed.

Lemma dup_plain s : plain s → dup_range s = Some s.
Proof. intros Hs. unfold dup_range. by rewrite xmalloc_ok, plain_cstr. Qed.

(** One line, then what the rest of the block gives. *)
Lemma json_line fuel first h l s : field_ok h → memchr 10 s = l →
  strip_cr (match l with Some i => ztake i s | None => s end) = header_line h → s ≠ [] →
  ∀ b, json_lines (S fuel) first s b =
    ((if first then bnop else bput [44]) >>> bput [34] >>> json_append_escaped h.1 >>> bput [34; 58; 34] >>>
     json_append_escaped (drop_while is_ows h.2) >>> bput [34] >>>
     match l with Some i => json_lines fuel false (zdrop (i + 1) s) | None => bnop end) b.
Proof.
  intros Hh El Es Hne b. destruct s as [|c0 s0]; [done|]. cbn [json_lines].
  pose proof Hh as (Hk & Hc & Hv). unfold header_line in Es.
  assert (memchr 58 (h.1 ++ B ": " ++ h.2) = Some (zlen h.1)) as Hm by (by apply memchr_app).
  assert (zdrop (zlen h.1 + 1) (h.1 ++ B ": " ++ h.2) = 32 :: h.2) as Hd.
  { change (B ": " ++ h.2) with ([58] ++ 32 :: h.2). rewrite app_assoc. apply zdrop_app_zlen. zl. }
  rewrite El. destruct l as [i|]; rewrite Es, Hm, Hd, ztake_app_zlen by done; cbn [drop_while is_ows];
    change (is_ows 32) with true; cbv iota; by rewrite !dup_plain by (done || by apply plain_drop).
Qed.

Lemma json_fields fuel first h fs : Forall field_ok (h :: fs) → (length fs < fuel)%nat →
  Writes (json_lines fuel first (joined (header_line h) (map header_line fs))) (json_members first (h :: fs)).
Proof.
  revert first h fs. induction fuel as [|fuel IH]; intros first h fs Hf Hl; [lia|].
  apply Forall_cons_1 in Hf as [Hh Hf]. destruct (clean_field h Hh) as (Hne & H10 & H13).
  assert (joined (header_line h) (map header_line fs) ≠ []) as Hj by (unfold joined; by destruct (header_line h)).
  assert (∀ g x, Writes g x → (∀ b, json_lines (S fuel) first (joined (header_line h) (map header_line fs)) b =
    ((if first then bnop else bput [44]) >>> bput [34] >>> json_append_escaped h.1 >>> bput [34; 58; 34] >>>
     json_append_escaped (drop_while is_ows h.2) >>> bput [34] >>> g) b) →
    Writes (json_lines (S fuel) first (joined (header_line h) (map header_line fs)))
      ((if first then [] else [44]) ++ json_member h ++ x)) as Hw.
  { intros g x Hg He b. rewrite He. revert b. change (Writes ((if first then bnop else bput [44]) >>> bput [34] >>>
      json_append_escaped h.1 >>> bput [34; 58; 34] >>> json_append_escaped (drop_while is_ows h.2) >>> bput [34] >>> g)
      ((if first then [] else [44]) ++ json_member h ++ x)).
    assert (Writes (if first then bnop else bput [44]) (if first then [] else [44])) by (destruct first; apply _).
    eapply writes_eq; [apply _|]. unfold json_member. by rewrite <- !app_assoc. }
  destruct fs as [|h2 fs]; cbn [json_members].
  - apply (Hw bnop); [apply _|]. intros b. unfold joined. cbn [map concat]. rewrite app_nil_r.
    rewrite (json_line fuel first h None) by (done || rewrite ?memchr_none by done; done || by apply strip_cr_none). done.
  - apply (Hw (json_lines fuel false (joined (header_line h2) (map header_line fs)))).
    + apply IH; [done|]. cbn [length] in Hl. lia.
    + intros b. cbn [map]. rewrite joined_cons.
      assert (10 ∉ header_line h ++ [13]) as Hn by (rewrite elem_of_app, list_elem_of_singleton; intros [?|?]; [done|lia]).
      rewrite (json_line fuel first h (Some (zlen (header_line h ++ [13])))).
      * change (10 :: ?x) with ([10] ++ x). rewrite (app_assoc _ [10]), (zdrop_app_zlen ((header_line h ++ [13]) ++ [10])) by zl. done.
      * done.
      * by apply memchr_app.
      * rewrite ztake_app_zlen by done. apply strip_cr_end.
      * by destruct (header_line h).
Qed.

Lemma headers_json_text h fs : Forall field_ok (h :: fs) → zlen (joined (header_line h) (map header_line fs)) < 2 ^ 32 →
  ∃ b, headers_json (joined (header_line h) (map header_line fs)) bt_empty = (ZCIO_OK, b) ∧
    cstr (bt_bytes b) = json_text (h :: fs).
Proof.
  intros Hf Hl. set (s := joined _ _) in *.
  assert (Writes (json_lines (S (length s)) true s) (json_members true (h :: fs))) as Hw.
  { apply json_fields; [done|]. pose proof (joined_lines (header_line h) (map header_line fs)) as Hj.
    rewrite length_map in Hj. fold s in Hj. lia. }
  assert (Writes (headers_json s) ([123] ++ json_members true (h :: fs) ++ [125] ++ [0])) as Hw2 by (unfold headers_json; apply _).
  destruct (Hw2 bt_empty) as (r & b & E & _ & Hc & Ha).
  pose proof (members_length true (h :: fs)) as Hm. unfold s, joined in Hl. cbn [map concat] in Hm.
  rewrite length_app in Hl. rewrite (length_app (CRLF ++ _)), (length_app CRLF) in Hm. change (length CRLF) with 2%nat in Hm.
  assert (r = ZCIO_OK) as ->.
  { apply Ha; [done|]. unfold bt_len. cbn [bt_bytes bt_empty]. rewrite !length_app. cbn [length]. unfold SIZE_MAX. lia. }
  exists b. split; [done|]. rewrite Hc by done. cbn [bt_bytes bt_empty]. unfold json_text.
  change ([] ++ ?x) with x. rewrite !app_assoc.
  assert (plain ((([123] ++ json_members true (h :: fs)) ++ [125]))) as Hp.
  { rewrite !plain_app. split; [split; [by apply plain_check|by apply members_plain]|by apply plain_check]. }
  revert Hp. generalize (([123] ++ json_members true (h :: fs)) ++ [125]). clear. intros t Ht.
  induction t as [|c t IH]; [done|]. apply plain_cons in Ht as [(Hc & _) Ht]. cbn [app cstr].
  destruct (c =? 0) eqn:E; btest; [done|]. by rewrite IH.
Qed.
End Json.

(** ** The parser *)

Lemma atoll_dec n : 0 ≤ n < 2 ^ 63 → atoll (dec n) = n.
Proof. intros Hn. unfold atoll, strtoll. rewrite strtol_dec by lia. lia. Qed.

Lemma atoi_dec n : 0 ≤ n < 2 ^ 31 → atoi (dec n) = n.
Proof.
  intros Hn. unfold atoi. change (strtoll (dec n)) with (atoll (dec n)). rewrite atoll_dec by lia.
  rewrite Z.mod_small by lia. lia.
Qed.

Section Parser.
Context `{Allocator} (Hall : ∀ n, alloc_ok n = true) (m : message) (Hm : msg_ok m).

Lemma status_fields : HttpClient.status_line (first_line m) =
  Some (Some (B "HTTP"), Some (m_version m), Some (dec (m_code m)), Some (m_text m)).
Proof.
  destruct (ok_version m Hm) as [Hv H32]. unfold HttpClient.status_line, first_line. rewrite app_assoc.
  assert (32 ∉ B "HTTP/" ++ m_version m) as Hn.
  { rewrite elem_of_app. intros [Hx|?]; [|done]. revert Hx. by apply (bool_decide_unpack _). }
  rewrite memchr_app, ztake_app_zlen by done.
  assert (∀ t : bytes, zdrop (zlen (B "HTTP/" ++ m_version m) + 1) ((B "HTTP/" ++ m_version m) ++ 32 :: t) = t) as ->.
  { intros t. change (32 :: t) with ([32] ++ t). rewrite app_assoc. apply zdrop_app_zlen. rewrite !length_app. cbn [length]. lia. }
  assert (32 ∉ dec (m_code m)) as Hd.
  { intros Hx. pose proof (dec_chars (m_code m)) as Hc. rewrite Forall_forall in Hc. specialize (Hc _ Hx).
    unfold dec_char in Hc. lia. }
  rewrite memchr_app, ztake_app_zlen by done.
  assert (zdrop (zlen (dec (m_code m)) + 1) (dec (m_code m) ++ 32 :: m_text m) = m_text m) as ->.
  { change (32 :: m_text m) with ([32] ++ m_text m). rewrite app_assoc. apply zdrop_app_zlen. rewrite !length_app. cbn [length]. lia. }
  change (B "HTTP/" ++ m_version m) with (B "HTTP" ++ 47 :: m_version m).
  rewrite memchr_app by (by apply (bool_decide_unpack _)). rewrite ztake_app_zlen by done.
  change (B "HTTP" ++ 47 :: m_version m) with ((B "HTTP" ++ [47]) ++ m_version m). rewrite zdrop_app_zlen by done.
  rewrite !dup_plain by (done || apply plain_dec || apply (ok_text m Hm) || by apply plain_check). done.
Qed.

Lemma body_parsed h fs k : m_fields m = h :: fs →
  parse_body (joined (header_line h) (map header_line fs)) (m_wire m ++ k) = Ok (ZCIO_OK, Some (m_body m)).
Proof.
  intros Hf. destruct (ok_fields m Hm) as [Hfs _]. rewrite Hf in Hfs.
  unfold parse_body, says. rewrite !find_tail by done. rewrite <- Hf.
  change (match field_value (B "Transfer-Encoding") (m_fields m) with
    | Some v => bool_decide (strstr (map tolower v) (B "chunked") ≠ None) | None => false end) with (is_chunked (m_fields m)).
  destruct (ok_body m Hm) as [b v -> -> Hv|cs ext ls blank -> Hb].
  - rewrite (xmalloc_ok Hall), Hv. f_equal. f_equal. f_equal.
    destruct (_ && _) eqn:E; [by apply ztake_app_zlen|]. apply andb_false_iff in E as [E|E]; btest; [lia|].
    rewrite length_app in E |- *. assert (k = []) as -> by (destruct k; [done|cbn [length] in E; lia]).
    rewrite app_nil_r. apply take_ge. cbn [length]. lia.
  - rewrite scan_whole by done. cbn [mbind exec_bind]. by rewrite (xmalloc_ok Hall).
Qed.

Definition msg_response : zcio_http_response :=
  mk_resp (Some (B "HTTP")) (Some (m_version m)) (Some (dec (m_code m))) (Some (m_text m))
    (Some (json_text (m_fields m))) (Some (m_body m)) (zlen (m_body m)) (m_code m).

Lemma parse_message raw k want : bt_bytes raw = msg_bytes m ++ k →
  parse_response raw want = Ok (ZCIO_OK, msg_response, if want then field_value (B "Location") (m_fields m) else None).
Proof.
  intros E. unfold parse_response, msg_response. rewrite E. unfold msg_bytes. rewrite <- !app_assoc.
  rewrite (head_end m Hm), after_head, ztake_app_zlen by done.
  pose proof (ok_fields m Hm) as [Hfs Hne]. pose proof (ok_size m Hm) as Hsz. unfold msg_bytes in Hsz. rewrite length_app in Hsz.
  pose proof (λ h fs, body_parsed h fs k) as Hb. pose proof (clean_first m Hm) as (Hl1 & Hl2 & Hl3).
  unfold msg_head in *. destruct (m_fields m) as [|h fs] eqn:Ef; [done|]. specialize (Hb h fs eq_refl).
  cbn [map] in *. rewrite joined_cons.
  assert (10 ∉ first_line m ++ [13]) as Hn by (rewrite elem_of_app, list_elem_of_singleton; intros [?|?]; [done|lia]).
  rewrite memchr_app, ztake_app_zlen, strip_cr_end, status_fields by done.
  change (10 :: ?x) with ([10] ++ x). rewrite (app_assoc _ [10]), (zdrop_app_zlen ((first_line m ++ [13]) ++ [10])) by zl.
  destruct (headers_json_text Hall h fs Hfs) as (b & -> & Hj).
  { rewrite joined_cons in Hsz. rewrite !length_app in Hsz. cbn [length] in Hsz. unfold ZCIO_HTTP_MAX_RESPONSE in Hsz. lia. }
  change (negb (ZCIO_OK =? ZCIO_OK)) with false. cbv iota. rewrite Hb. cbn [mbind exec_bind].
  rewrite find_tail, Hj by done. rewrite atoi_dec by apply (ok_code m Hm). done.
Qed.
End Parser.

(** ** Properties *)

(** C15: Any well formed response, framed by its length or in chunks with any
    extensions and trailers, is read and parsed in full from any stream,
    however the stream cuts it into pieces and whatever follows it: the client
    reads up to the end of the message (and at most what the last read brings
    along), reports version, status, reason, headers and body as they were sent
    and finds the Location; it neither waits for more nor stops early, with no
    deadline or one that has not passed. *)
Theorem client_reads_response `{Allocator} (Hall : ∀ n, alloc_ok n = true) {C} (vt : zcio_stream_vtable C) inv rem
    (Hsrc : Source vt inv rem) fl set_timeout now deadline
    (Htimeout : ∀ c t, inv c → ∃ c', set_timeout (Some (mk_stream vt c fl)) t = Some (mk_stream vt c' fl) ∧
                  inv c' ∧ rem c' = rem c)
    (Htime : deadline = 0 ∨ ∀ k, now k < deadline) m (Hm : msg_ok m) rest w c want
    (Hc : inv c) (Hrem : rem c = msg_bytes m ++ rest) :
  ∃ c' w' raw k, read_response set_timeout now (Some (mk_stream vt c fl)) deadline w
      = Ok (Some (mk_stream vt c' fl), w', ZCIO_OK, raw) ∧
    parse_response raw want = Ok (ZCIO_OK, msg_response m, if want then field_value (B "Location") (m_fields m) else None) ∧
    bt_bytes raw = msg_bytes m ++ k ∧ k ++ rem c' = rest.
Proof.
  destruct (read_message Hall fl set_timeout now deadline Htimeout Htime m Hm rest w c Hc Hrem)
    as (o & E & c' & w' & raw & k & -> & _ & _ & Hraw & Hrest).
  exists c', w', raw, k. split; [exact E|]. split; [by eapply parse_message|done].
Qed.

(** ** Witness *)

Definition ex_message : message :=
  mk_msg (B "1.1") 302 (B "Found")
    [(B "Location", B "/next"); (B "transfer-encoding", B "Chunked")]
    (encode_body [([13], B "moved")] [13] [] [13]) (B "moved").

Lemma ex_body_ok : body_ok [([13], B "moved")] [13] [] [13].
Proof.
  unfold body_ok, chunk_ok, ext_ok.
  repeat match goal with |- _ ∧ _ => split | |- Forall _ _ => constructor end;
    try (by apply (bool_decide_unpack _)); try (intros E; discriminate E); try (vm_compute; discriminate);
    try (vm_compute; reflexivity).
  all: first [right; reflexivity | vm_compute; intuition discriminate].
Qed.

Lemma ex_message_ok : msg_ok ex_message.
Proof.
  constructor.
  - split; [by apply plain_check|by apply (bool_decide_unpack _)].
  - by vm_compute.
  - by apply plain_check.
  - split; [|discriminate]. repeat constructor; try (by apply plain_check); by apply (bool_decide_unpack _).
  - apply (framed_chunks _ [([13], B "moved")] [13] [] [13]); [reflexivity|exact ex_body_ok].
  - by vm_compute.
Qed.

Lemma client_reads_response_witness :
  ∃ c' w' raw k, @read_response always_alloc membuf (λ h _, h) (λ _, 7)
      (Some (mk_stream MEM_VT (ex_mem (msg_bytes ex_message ++ B "HTTP/1.1 200")) 7)) 100 (mk_world 0 0 [])
      = Ok (Some (mk_stream MEM_VT c' 7), w', ZCIO_OK, raw) ∧
    @parse_response always_alloc raw true = Ok (ZCIO_OK, msg_response ex_message, Some (B "/next")) ∧
    bt_bytes raw = msg_bytes ex_message ++ k ∧ k ++ mb_rem c' = B "HTTP/1.1 200".
Proof.
  apply (@client_reads_response always_alloc (λ _, eq_refl) membuf MEM_VT mb_mem mb_rem memory_source 7
    (λ h _, h) (λ _, 7) 100 (λ c t Hc, ex_intro _ c (conj eq_refl (conj Hc eq_refl))) (or_intror (λ _, eq_refl))
    ex_message ex_message_ok (B "HTTP/1.1 200") (mk_world 0 0 [])
    (ex_mem (msg_bytes ex_message ++ B "HTTP/1.1 200")) true);
    [apply ex_mem_ok; by vm_compute|reflexivity].
Defined.
