(* ===== verification/ClientServer.v ===== *)
(** * ClientServer: the HTTP/1.1 client and server of the library together

    What the server's response writer ([src/h1.c], [src/http_server.c]) puts on
    the wire is what the client ([src/http.c]) reads and parses. *)
From stdpp Require Import base tactics list option strings.
From Stdlib Require Import ZArith Lia.
From S2P Require Import Prelude Types Stream Membuf Buf HttpUtil Respond H1 H1Safe Url HttpClient Chunked Head ClientSafe ClientRead.

(** ** What the server writes *)

Definition payload (bd : option bytes) : bytes := default [] bd.

(** The fields the writer adds to those it is given. *)
Definition own_fields (n : Z) (close : bool) : list (bytes * bytes) :=
  [(B "content-length", dec n); (B "connection", if close then B "close" else B "keep-alive")].

Definition server_message (status : Z) (hdrs : list (bytes * bytes)) (bd : option bytes) (close : bool) : message :=
  mk_msg (B "1.1") status (zhs_status_text_ status) (hdrs ++ own_fields (zlen (payload bd)) close) (payload bd) (payload bd).

Lemma status_text_ok s : plain (zhs_status_text_ s) ∧ zlen (zhs_status_text_ s) ≤ 31.
Proof.
  unfold zhs_status_text_. destruct (find _ _) as [e|] eqn:E; [|split; [by apply plain_check|done]].
  apply find_some in E as [E _]. revert e E.
  assert (forallb (λ e, forallb (λ c, negb ((c =? 0) || (c =? 10) || (c =? 13))) e.2 && (zlen e.2 <=? 31)) STATUS_TEXT = true) as Hf
    by reflexivity.
  intros e He. rewrite List.forallb_forall in Hf. specialize (Hf e He). apply andb_prop in Hf as [H1 H2].
  split; [by apply plain_check|]. btest. lia.
Qed.

Lemma dec_length n k : 0 ≤ n < 10 ^ Z.of_nat k → (0 < k)%nat → zlen (dec n) ≤ Z.of_nat k.
Proof.
  intros Hn Hk. unfold dec. destruct (n <? 0) eqn:E; btest; [lia|].
  pose proof (dec_digits_length 20 n [] k Hn) as Hd. cbn [length] in Hd. lia.
Qed.

Lemma token_plain s : zhs_token_ok_ s = true → plain s ∧ 58 ∉ s.
Proof.
  unfold zhs_token_ok_. destruct (_ =? 0); [done|]. rewrite List.forallb_forall. intros Hs.
  assert (∀ c, c ∈ s → c ≠ 0 ∧ c ≠ 10 ∧ c ≠ 13 ∧ c ≠ 58) as Hc.
  { intros c Hc%list_elem_of_In%Hs. split_and!; by intros ->. }
  split; [|intros Hx; by destruct (Hc _ Hx) as (_ & _ & _ & ?)]. apply Forall_forall. intros c Hx. destruct (Hc c Hx). tauto.
Qed.

Lemma value_plain s : zhs_value_ok_ s = true → plain s.
Proof.
  unfold zhs_value_ok_. rewrite List.forallb_forall. intros Hs. apply Forall_forall. intros c Hc%list_elem_of_In%Hs.
  split_and!; by intros ->.
Qed.

Lemma ci_eq_spec a b : ci_eq_str a b = bool_decide (map tolower a = map tolower b).
Proof.
  revert b. induction a as [|x a IH]; intros [|y b]; cbn [ci_eq_str map]; try done.
  destruct (tolower x =? tolower y) eqn:E; btest; cbn [negb].
  - rewrite IH. apply bool_decide_ext. rewrite E. split; [by intros ->|by intros [= ->]].
  - symmetry. apply bool_decide_eq_false. intros [= ?]. done.
Qed.

(** No field the writer is given has the name of one of its own. *)
Lemma not_dropped (h : bytes * bytes) d : (respond_filtered h.1 = true → h.1 = B "date" ∨ h.1 = B "server") → d ∈ DROP →
  d ≠ B "date" → d ≠ B "server" → map tolower d = d → map tolower h.1 ≠ map tolower d.
Proof.
  intros Hf Hd Hd1 Hd2 Hl E. destruct Hf as [Hx|Hx].
  - unfold respond_filtered. apply existsb_exists. exists d. split; [by apply list_elem_of_In|].
    rewrite ci_eq_spec. by apply bool_decide_eq_true.
  - apply Hd1. rewrite <- Hl, <- E, Hx. reflexivity.
  - apply Hd2. rewrite <- Hl, <- E, Hx. reflexivity.
Qed.

Lemma value_skip key hs fs : Forall (λ h, map tolower h.1 ≠ map tolower key) hs →
  field_value key (hs ++ fs) = field_value key fs.
Proof.
  unfold field_value. induction 1 as [|h hs Hh Hhs IH]; [done|]. cbn [app find].
  destruct (bool_decide _) eqn:E; [by apply bool_decide_eq_true in E|]. done.
Qed.

Section Message.
Context (status : Z) (hdrs : list (bytes * bytes)) (bd : option bytes) (close : bool).
Context (Hr : response_ok (status, hdrs)) (Hn : zlen (payload bd) < 2 ^ 32).

Lemma no_field key : key ∈ [B "transfer-encoding"; B "content-length"] →
  Forall (λ h, map tolower h.1 ≠ map tolower key) hdrs.
Proof.
  intros Hk. destruct Hr as [_ Hh]. cbn [snd] in Hh. eapply Forall_impl; [exact Hh|]. intros h (_ & _ & Hf).
  rewrite !elem_of_cons in Hk. destruct Hk as [->|[->|Hk]]; [| |by apply elem_of_nil in Hk];
    apply not_dropped; try done; by apply (bool_decide_unpack _).
Qed.

Lemma own_ok n : Forall field_ok (own_fields n close).
Proof.
  unfold own_fields. repeat constructor; cbn [fst snd]; try (by apply plain_check); try (by apply (bool_decide_unpack _));
    try apply plain_dec. destruct close; by apply plain_check.
Qed.

Lemma drop_ows_dec n : 0 ≤ n < 10 ^ 20 → drop_while is_ows (dec n) = dec n.
Proof.
  intros H0. destruct (dec_spec n H0) as (_ & Hd & Hne). destruct (dec n) as [|c l]; [done|].
  apply Forall_cons_1 in Hd as [Hc _]. cbn. unfold is_ows. destruct (_ || _) eqn:E; [|done].
  apply orb_true_iff in E as [E|E]; btest; lia.
Qed.

Lemma server_message_ok : zlen (msg_bytes (server_message status hdrs bd close)) + 8192 ≤ ZCIO_HTTP_MAX_RESPONSE →
  msg_ok (server_message status hdrs bd close).
Proof.
  intros Hs. pose proof Hr as [Hst Hh]. cbn [fst snd] in *. constructor; cbn [server_message m_version m_code m_text m_fields m_wire m_body].
  - split; [by apply plain_check|by apply (bool_decide_unpack _)].
  - lia.
  - apply status_text_ok.
  - split; [|by destruct hdrs]. apply Forall_app. split; [|apply own_ok]. eapply Forall_impl; [exact Hh|].
    intros h (Ht & Hv & _). destruct (token_plain _ Ht) as [? ?]. split; [done|]. split; [done|]. by apply value_plain.
  - apply (framed_length _ _ (dec (zlen (payload bd)))).
    + unfold is_chunked.
      assert (field_value (B "Transfer-Encoding") (hdrs ++ own_fields (zlen (payload bd)) close) = None) as ->; [|done].
      rewrite value_skip; [done|]. apply (no_field (B "transfer-encoding")). by left.
    + rewrite value_skip by (apply (no_field (B "content-length")); right; by left).
      change (Some (drop_while is_ows (dec (zlen (payload bd)))) = Some (dec (zlen (payload bd)))).
      by rewrite drop_ows_dec by lia.
    + apply atoll_dec. lia.
  - exact Hs.
Qed.
End Message.

(** ** The bytes on the wire *)

Definition lines_out (hs : list (bytes * bytes)) : bytes := concat (map (λ h, h.1 ++ B ": " ++ h.2 ++ CRLF) hs).

Lemma lines_app hs ks : lines_out (hs ++ ks) = lines_out hs ++ lines_out ks.
Proof. unfold lines_out. by rewrite map_app, concat_app. Qed.

(** A head as the writers put it: every line with its CRLF. *)
Lemma joined_out l hs : joined l (map header_line hs) ++ CRLF = l ++ CRLF ++ lines_out hs.
Proof.
  unfold joined, lines_out. rewrite <- app_assoc. f_equal. induction hs as [|h hs IH]; cbn [map concat].
  - by rewrite app_nil_r.
  - rewrite <- (app_assoc (CRLF ++ _)), IH. unfold header_line. by rewrite <- !app_assoc.
Qed.

Lemma is_head_marked c b : is_head (req_set_responded b (c_req c)) = is_head (c_req c).
Proof. by destruct (c_req c). Qed.

#[local] Existing Instance emits_fields.

Section Wire.
Context `{Allocator} `{Server}.

Lemma respond_bytes c c' status hdrs bd (Hr : response_ok (status, hdrs)) (Hn : zlen (payload bd) < 2 ^ 32)
  (Hwf : buf_wf (c_out c)) (Hb : bodiless status = false) (Hh : is_head (c_req c) = false) :
  h1_respond c status hdrs bd (zlen (payload bd)) = (ZCIO_OK, c') →
  ∃ close, buf_contents (c_out c') = buf_contents (c_out c) ++ msg_bytes (server_message status hdrs bd close).
Proof.
  unfold h1_respond. rewrite Hb, Hh. cbn [orb negb andb]. set (close := _ || _ || _ || _). clearbody close.
  assert (Emits (match bd with Some b => if negb (zlen (payload bd) =? 0) then put (ztake (zlen (payload bd)) b) else emit_ok
     | None => emit_ok end) (payload bd)) as Hbd.
  { destruct bd as [b|]; [|apply emits_ok]. change (payload (Some b)) with b.
    destruct (zlen b =? 0) eqn:E; btest; cbn [negb].
    - destruct b; [apply emits_ok|cbn in E; lia].
    - apply (emits_eq _ _ _ (emits_put _)). apply take_ge. lia. }
  assert (Emits (put (if close then B "connection: close" ++ CRLF ++ CRLF else B "connection: keep-alive" ++ CRLF ++ CRLF))
    ((B "connection: " ++ (if close then B "close" else B "keep-alive")) ++ CRLF ++ CRLF)) as Hc
    by (destruct close; apply (emits_put _)).
  edestruct emit_out_spec as (r & out' & -> & Hwf' & Hcase & _); [apply _|exact Hwf|].
  destruct Hcase as [(-> & Hout & _)| ->]; [|done]. change (negb (ZCIO_OK =? ZCIO_OK)) with false. cbv iota.
  intros [= <-]. exists close.
  assert (∀ (b : bool) d, c_out (if b then set_close_after true d else d) = c_out d) as Hco by (by intros []).
  rewrite !Hco. cbn [set_out c_out]. rewrite Hout. f_equal. clear Hco Hout Hwf' Hc Hbd.
  unfold msg_bytes, msg_head. rewrite (app_assoc (joined _ _) CRLF), joined_out. cbn [m_fields m_wire server_message].
  rewrite lines_app. unfold H1.status_line, first_line. cbn [server_message m_version m_code m_text].
  destruct Hr as [Hst _]. cbn [fst] in Hst. pose proof (dec_length status 3 ltac:(lia) ltac:(lia)) as Hd.
  pose proof (status_text_ok status) as [_ Ht].
  rewrite take_ge.
  2: { rewrite !length_app. change (length (B "HTTP/1.1 ")) with 9%nat. change (length (B " ")) with 1%nat. cbn [length]. lia. }
  pose proof (dec_length (zlen (payload bd)) 10 ltac:(lia) ltac:(lia)) as Hd2.
  rewrite take_ge by (rewrite !length_app; change (length (B "content-length: ")) with 16%nat; change (length CRLF) with 2%nat; lia).
  unfold own_fields, lines_out. cbn [map concat fst snd].
  change (B "HTTP/1.1 ") with (B "HTTP/" ++ B "1.1" ++ [32]). change (B " ") with [32].
  change (B "content-length: ") with (B "content-length" ++ B ": "). change (B "connection: ") with (B "connection" ++ B ": ").
  change [13; 10] with CRLF. change (32 :: ?x) with ([32] ++ x). rewrite <- !app_assoc. done.
Qed.
End Wire.

(** ** Properties *)

(** C14: A response whose status carries a body (not 1xx, 204 or 304), given
    through [zcio_http_respond] to a request other than HEAD on an HTTP/1.1
    connection whose output is empty, comes out of the client as it was given:
    the bytes the server appends to its output, sent over any stream that does
    not fail in any pieces, are read to their end and parse to the same status
    and body, with the headers of the handler that the policy lets through,
    followed by the server's own.  Memory is available and body and message
    stay below the client's cap.  The answers left out carry a length and no
    body, which this client waits for in vain. *)
Theorem client_reads_server `{Allocator} `{Server} (Hall : ∀ n, alloc_ok n = true) write_ok c c' status hdrs bd
    (Hwf : buf_wf (c_out c)) (Hout : buf_contents (c_out c) = [])
    (Hbody : bodiless status = false) (Hhead : is_head (c_req c) = false)
    (Hresp : @zcio_http_respond _ _ _ (h1_transport write_ok) (Some c) status hdrs bd (zlen (payload bd)) = (ZCIO_OK, Some c'))
    (Hn : zlen (payload bd) ≤ ZCIO_HTTP_MAX_RESPONSE) (Hsize : zlen (buf_contents (c_out c')) + 8192 ≤ ZCIO_HTTP_MAX_RESPONSE)
    {C} (vt : zcio_stream_vtable C) inv rem (Hsrc : Source vt inv rem) fl set_timeout now deadline
    (Htimeout : ∀ c t, inv c → ∃ c', set_timeout (Some (mk_stream vt c fl)) t = Some (mk_stream vt c' fl) ∧
                  inv c' ∧ rem c' = rem c)
    (Htime : deadline = 0 ∨ ∀ k, now k < deadline) s w rest (Hs : inv s) (Hrem : rem s = buf_contents (c_out c') ++ rest) :
  ∃ s' w' raw resp loc close, read_response set_timeout now (Some (mk_stream vt s fl)) deadline w
      = Ok (Some (mk_stream vt s' fl), w', ZCIO_OK, raw) ∧
    parse_response raw true = Ok (ZCIO_OK, resp, loc) ∧
    rs_status resp = status ∧ rs_body resp = Some (payload bd) ∧ rs_body_size resp = zlen (payload bd) ∧
    rs_status_text resp = Some (zhs_status_text_ status) ∧
    rs_headers_json resp = Some (json_text (final_headers (secure (c_req c)) hdrs ++ own_fields (zlen (payload bd)) close)).
Proof.
  unfold zcio_http_respond in Hresp. cbn [get_req mark_responded respond_fn h1_transport] in Hresp.
  destruct (responded _); [done|]. destruct (_ || _) eqn:Es in Hresp; [done|]. apply orb_false_iff in Es as [Es1 Es2]. btest.
  destruct (forallb hdr_arg_ok hdrs) eqn:Eh; [|done]. cbn [negb] in Hresp.
  destruct (_ <? zlen hdrs); [done|]. destruct (negb _) in Hresp; [done|].
  destruct (h1_respond _ _ _ _ _) as [rc c1] eqn:E. injection Hresp as -> ->.
  pose proof (final_headers_ok (secure (c_req c)) hdrs status ltac:(lia) Eh) as Hr.
  destruct (respond_bytes (set_req (req_set_responded true (c_req c)) c) c' status _ bd Hr) as [close Hb]; try done.
  { unfold ZCIO_HTTP_MAX_RESPONSE in Hn. lia. }
  cbn [set_req c_out] in Hb. rewrite Hout in Hb. change ([] ++ ?x) with x in Hb. rewrite Hb in Hsize, Hrem.
  set (m := server_message _ _ _ _) in *.
  assert (msg_ok m) as Hm by (apply server_message_ok; [done|unfold ZCIO_HTTP_MAX_RESPONSE in Hn; lia|done]).
  destruct (read_message Hall fl set_timeout now deadline Htimeout Htime m Hm rest w s Hs Hrem)
    as (o & Er & s' & w' & raw & k & -> & _ & _ & Hraw & _).
  eexists s', w', raw, (msg_response m), _, close. split; [exact Er|]. split; [by eapply parse_message|]. done.
Qed.

(** ** Witness *)

Definition ex_answer : Z * option zh1_conn :=
  @zcio_http_respond always_alloc (ex_server hello) _ (@h1_transport always_alloc (λ _, true)) (Some ex_conn) 404
    [(Some (B "x-a"), Some (B "b")); (Some (B "Content-Length"), Some (B "9"))] (Some (B "none"))
    (zlen (payload (Some (B "none")))).
Definition ex_sent : zh1_conn := default ex_conn ex_answer.2.

Lemma ex_answer_ok : @zcio_http_respond always_alloc (ex_server hello) zh1_conn (@h1_transport always_alloc (λ _, true))
    (Some ex_conn) 404 [(Some (B "x-a"), Some (B "b")); (Some (B "Content-Length"), Some (B "9"))] (Some (B "none"))
    (zlen (payload (Some (B "none")))) = (ZCIO_OK, Some ex_sent).
Proof. vm_compute. reflexivity. Qed.

Lemma ex_sent_length : zlen (buf_contents (c_out ex_sent)) = 127.
Proof. vm_compute. reflexivity. Qed.

Lemma client_reads_server_witness :
  ∃ s' w' raw resp loc close, @read_response always_alloc membuf (λ h _, h) (λ _, 0)
      (Some (mk_stream MEM_VT (ex_mem (buf_contents (c_out ex_sent))) 7)) 0 (mk_world 0 0 [])
      = Ok (Some (mk_stream MEM_VT s' 7), w', ZCIO_OK, raw) ∧
    @parse_response always_alloc raw true = Ok (ZCIO_OK, resp, loc) ∧
    rs_status resp = 404 ∧ rs_body resp = Some (B "none") ∧ rs_body_size resp = 4 ∧
    rs_status_text resp = Some (B "Not Found") ∧
    rs_headers_json resp = Some (json_text (@final_headers (ex_server hello) false
      [(Some (B "x-a"), Some (B "b")); (Some (B "Content-Length"), Some (B "9"))] ++ own_fields 4 close)).
Proof.
  apply (@client_reads_server always_alloc (ex_server hello) (λ _, eq_refl) (λ _, true) ex_conn ex_sent 404
    [(Some (B "x-a"), Some (B "b")); (Some (B "Content-Length"), Some (B "9"))] (Some (B "none")))
    with (inv := mb_mem) (rem := mb_rem) (rest := []).
  - apply buf_empty_wf.
  - reflexivity.
  - reflexivity.
  - reflexivity.
  - exact ex_answer_ok.
  - vm_compute. discriminate.
  - rewrite ex_sent_length. vm_compute. discriminate.
  - apply memory_source.
  - intros c t Hc. by exists c.
  - by left.
  - apply ex_mem_ok. rewrite ex_sent_length. reflexivity.
  - rewrite app_nil_r. reflexivity.
Defined.
