(* ===== verification/ClientRun.v ===== *)
(** * ClientRun: what the HTTP client does on the network ([src/http.c])

    Termination of the read loop on any stream, the dials and requests of a
    redirected request and of a keep-alive session. *)
From stdpp Require Import base tactics list option strings.
From Stdlib Require Import ZArith Lia.
From S2P Require Import Prelude Types Stream Membuf Buf HttpUtil Respond H1 H1Safe Url HttpClient Chunked Head ClientSafe ClientRead.

(** ** Redirects never leave TLS *)

Section Secure.
Context `{Allocator}.

Lemma url_parse_scheme url u : url_parse (Some url) = inr u →
  ∃ i, memchr 58 url = Some i ∧ url_scheme u = map tolower (ztake i url) ∧
    (url_scheme u = B "http" ∨ url_scheme u = B "https") ∧ url_secure u = bool_decide (url_scheme u = B "https").
Proof.
  unfold url_parse. destruct (memchr 58 url) as [i|]; [|done]. destruct (negb _); [done|].
  destruct (bool_decide (map tolower (ztake i url) = B "http") || bool_decide (map tolower (ztake i url) = B "https")) eqn:E; [|done].
  cbn [negb]. intros Hu. exists i. split; [done|].
  enough (url_scheme u = map tolower (ztake i url) ∧ url_secure u = bool_decide (map tolower (ztake i url) = B "https")) as [-> ->].
  { split; [done|]. split; [|done]. apply orb_true_iff in E as [E|E]; apply bool_decide_eq_true in E; auto. }
  revert Hu. set (p := match zdrop (i + 1) url with 47 :: 47 :: p' => p' | _ => _ end). clearbody p.
  destruct (match memchr 47 p with Some i => (ztake i p, zdrop i p) | None => (p, B "/") end) as [au path].
  destruct (negb _); [done|]. destruct (split_authority _) as [[host ps]|]; [|done]. destruct (negb _); [done|].
  destruct (parse_port _ _); [|done]. by intros [= <-].
Qed.

(** The URL of a redirect from a secure URL is secure. *)
Lemma redirect_secure url u loc next u' : url_parse url = inr u → url_secure u = true →
  resolve_redirect u loc = inr next → url_parse (Some next) = inr u' → url_secure u' = true.
Proof.
  intros Hu Hs Hr Hn. destruct url as [url|]; [|done].
  destruct (url_parse_scheme _ _ Hu) as (_ & _ & _ & _ & Hb). rewrite Hs in Hb. symmetry in Hb.
  apply bool_decide_eq_true in Hb. destruct (url_parse_scheme _ _ Hn) as (i & Hi & Hsc & Hk & ->).
  apply bool_decide_eq_true. pose proof (memchr_spec 58 next) as Hm. rewrite Hi in Hm. destruct Hm as (Hi1 & Hi2 & Hi3).
  unfold resolve_redirect in Hr. destruct loc as [[|c l]|]; try done. set (s := c :: l) in *.
  match type of Hr with (if ?b then _ else _) = _ => destruct b end.
  - rewrite Hs in Hr. destruct (true && _ && _) eqn:E in Hr; [done|]. cbn [andb] in E.
    assert (next = s) as -> by (cbn in Hr; destruct (alloc_ok _) in Hr; [by injection Hr|done]).
    destruct Hk as [Hk|Hk]; [|done]. exfalso. rewrite Hk in Hsc.
    assert (i = 4) as ->.
    { apply (f_equal length) in Hsc. rewrite length_map, length_take in Hsc. change (length (B "http")) with 4%nat in Hsc. lia. }
    rewrite <- Hsc in E. rewrite bool_decide_true in E by done. cbn [andb] in E. rewrite Hi2 in E.
    rewrite app_nth2 in E by (rewrite length_take; lia).
    replace (4 - length (ztake 4 s))%nat with 0%nat in E by (rewrite length_take; lia). done.
  - destruct (negb _); [done|]. destruct (zcio_xmalloc_ok _) in Hr; [|done]. injection Hr as <-.
    rewrite Hb in Hi, Hsc. change (B "https" ++ B "://" ++ ?x) with (B "https" ++ 58 :: 47 :: 47 :: x) in Hi, Hsc.
    rewrite memchr_app in Hi by (by apply (bool_decide_unpack _)). injection Hi as <-.
    rewrite ztake_app_zlen in Hsc by done. exact Hsc.
Qed.

End Secure.

(** ** The parser ends *)

Section Ends.
Context `{Allocator}.

Lemma hex_run_ends s v n : ends True (hex_run s v n) (λ _, True).
Proof. revert v n. induction s as [|c s IH]; intros v n; [done|]. cbn [hex_run]. by destruct (_ <? _). Qed.

Lemma space_run_ends s n : ends True (space_run s n) (λ _, True).
Proof. revert n. induction s as [|c s IH]; intros n; [done|]. cbn [space_run]. by destruct (is_space c). Qed.

Lemma ends_any {A B} (m : exec A) (f : A → exec B) :
  ends True m (λ _, True) → (∀ a, ends True (f a) (λ _, True)) → ends True (m ≫= f) (λ _, True).
Proof. intros Hm Hf. apply ends_bind. eapply ends_mono; [exact Hm|]. auto. Qed.

Lemma strtoull_ends p : ends True (strtoull16 p) (λ _, True).
Proof.
  unfold strtoull16. apply ends_any; [apply space_run_ends|]. intros [s n].
  destruct (match s with 45 :: s' => (true, s', n + 1) | 43 :: s' => (false, s', n + 1) | _ => (false, s, n) end) as [[neg s1] n1].
  apply ends_any; [|intros [[v d] n2]; by destruct (_ =? 0)].
  assert (∀ s, ends True ('(v, d) ← hex_run s 0 0; Ok (v, d, n1)) (λ _, True)) as Hd.
  { intros s0. apply ends_any; [apply hex_run_ends|]. by intros []. }
  repeat (match goal with |- context [match ?x with _ => _ end] => is_var x; destruct x end; try apply Hd).
  all: destruct (_ || _); [|apply Hd]; apply ends_any; [apply hex_run_ends|]; by intros [].
Qed.

Lemma scan_ends fuel p got : (length p < fuel)%nat → ends True (scan_loop fuel p got) (λ _, True).
Proof.
  revert p got. induction fuel as [|fuel IH]; intros p got Hl; [lia|]. cbn [scan_loop].
  pose proof (memchr_spec 10 p) as Hm. destruct (memchr 10 p) as [i|]; [|done]. destruct Hm as (Hi & _ & _).
  apply ends_any; [apply strtoull_ends|]. intros [sz stop].
  repeat (match goal with |- context [if ?b then _ else _] => destruct b; [done|] end).
  apply IH. rewrite !length_drop. lia.
Qed.

Lemma chunked_scan_ends p : ends True (chunked_scan p) (λ _, True).
Proof. apply scan_ends. lia. Qed.

Lemma body_complete_ends f data : ends True (body_complete f data) (λ _, True).
Proof. unfold body_complete. destruct (fr_chunked f); [|done]. apply ends_any; [apply chunked_scan_ends|by intros []]. Qed.

(** A response that was not parsed is the zero response. *)
Lemma parse_response_ends raw want :
  ends True (parse_response raw want) (λ o, o.1.1 ≠ ZCIO_OK → o.1.2 = resp_zero ∧ o.2 = None).
Proof.
  unfold parse_response. destruct (strstr _ _) as [sep|]; [|done]. destruct (memchr 10 _) as [e|]; [|done].
  destruct (HttpClient.status_line _) as [[[[pr ve] co] te]|]; [|done]. destruct (headers_json _ _) as [jr json].
  destruct (negb _); [done|]. apply ends_bind.
  assert (∀ h rest, ends True (parse_body h rest) (λ _, True)) as Hb.
  { intros h rest. unfold parse_body. destruct (says _ _ _); [|done]. apply ends_any; [apply chunked_scan_ends|by intros []]. }
  eapply ends_mono; [apply Hb|]. intros [r [bd|]] _; cbn; [|done]. by intros [].
Qed.
End Ends.

(** ** One exchange *)

Section Run.
Context `{Allocator} {C : Type}.
Abbreviation handle := (option (zcio_stream C)).
Context (set_timeout : handle → Z → handle) (now : nat → Z).
Context (connect : nat → zcio_url → Z → Z → option handle) (tls_ctx : bytes → bool).
(** The streams the client is given keep the contract of [stream.h]: a read that
    reports [r] bytes delivers them. *)
Context (P : handle → Prop).
Hypothesis Hread : ∀ s, P s → ends True (zcio_read s false 8192) (λ o, P o.1.1 ∧ (0 < o.1.2 → o.1.2 ≤ zlen o.2)).
Hypothesis Hwrite : ∀ s src, P s → ends True (zcio_write s (Some src)) (λ o, P o.1).
Hypothesis Htimeout : ∀ s t, P s → P (set_timeout s t).
Hypothesis Hconnect : ∀ k u cto ioto s, connect k u cto ioto = Some s → P s.

Lemma write_loop_ends fuel s src put : P s → Z.max 0 (zlen src - put) < Z.of_nat fuel →
  ends True (write_full_loop fuel s src put) (λ o, P o.1).
Proof.
  revert s put. induction fuel as [|fuel IH]; intros s put Hs Hf; [lia|].
  cbn [write_full_loop]. destruct (put <? zlen src) eqn:E; btest; [|done].
  apply ends_bind. eapply ends_mono; [by apply Hwrite|]. intros [s' r] Hs'. cbn [fst] in Hs'.
  destruct (r <? 0) eqn:E1; [done|]. destruct (r =? 0) eqn:E2; [done|]. btest. apply IH; [done|lia].
Qed.

Lemma write_full_ends s src : P s → ends True (zcio_write_full s src) (λ o, P o.1).
Proof. intros Hs. apply write_loop_ends; [done|lia]. Qed.

Lemma remaining_log deadline w : w_log (deadline_remaining_ms now deadline w).2 = w_log w.
Proof. unfold deadline_remaining_ms. by destruct (deadline =? 0). Qed.

Lemma append_size b s r b' : buf_append b s = (r, b') → r = ZCIO_OK → bt_len b' = bt_len b + zlen s.
Proof.
  intros E ->. destruct (writes_put s b) as (r' & b2 & E2 & _ & Hc & _). unfold bput in E2. rewrite E in E2.
  injection E2 as <- <-. unfold bt_len. rewrite Hc by done. rewrite length_app. lia.
Qed.

(** The read loop ends on every stream and sends nothing. *)
Lemma read_response_ends s deadline w : P s →
  ends True (read_response set_timeout now s deadline w) (λ o, w_log o.1.1.2 = w_log w ∧ P o.1.1.1).
Proof.
  intros Hs.
  apply (loop_spec True (read_step set_timeout now deadline)
    (λ st, P st.1.1.1 ∧ w_log st.1.1.2 = w_log w ∧ bt_len st.1.2 ≤ ZCIO_HTTP_MAX_RESPONSE)
    (λ st, ZCIO_HTTP_MAX_RESPONSE - bt_len st.1.2) (λ o, w_log o.1.1.2 = w_log w ∧ P o.1.1.1)).
  - intros [[[? ?] ?] ?] (_ & _ & ?). cbn in *. lia.
  - clear s Hs. intros [[[s w1] out] f] (Hs & Hw & Hl). cbn [fst snd] in Hs, Hw, Hl. cbn [read_step].
    pose proof (remaining_log deadline w1) as Hw1. destruct (deadline_remaining_ms now deadline w1) as [rm w2].
    cbn [snd] in Hw1. rewrite Hw in Hw1. destruct (rm =? 0); [done|].
    assert (P (if 0 <=? rm then set_timeout s rm else s)) as Hs1 by (destruct (0 <=? rm); auto).
    apply ends_bind. eapply ends_mono; [by apply Hread|]. intros [[s' r] d] [Hs' Hd]. cbn [fst snd] in Hs', Hd.
    destruct (r <? 0) eqn:E1; [done|]. destruct (r =? 0) eqn:E2; [done|]. btest. specialize (Hd ltac:(lia)).
    destruct (_ <? bt_len out + r) eqn:E3; [done|]. btest.
    destruct (buf_append out (ztake r d)) as [a out'] eqn:Ea. destruct (negb (a =? ZCIO_OK)) eqn:E4; [done|]. btest.
    apply append_size in Ea; [|done]. rewrite length_take in Ea.
    assert (∀ f', P (s', w2, out', f' : option framing).1.1.1 ∧ w_log (s', w2, out', f').1.1.2 = w_log w ∧
      bt_len (s', w2, out', f').1.2 ≤ ZCIO_HTTP_MAX_RESPONSE ∧
      ZCIO_HTTP_MAX_RESPONSE - bt_len (s', w2, out', f').1.2 < ZCIO_HTTP_MAX_RESPONSE - bt_len out) as Hgo
      by (intros f'; cbn [fst snd]; split; [done|]; split; [done|lia]).
    destruct (match f with Some f => Some f | None => framing_of (bt_bytes out') end) as [fr|].
    + apply ends_bind. eapply ends_mono; [apply body_complete_ends|]. intros [e|[|]] _; [done..|].
      destruct (Hgo (Some fr)) as (? & ? & ? & ?). done.
    + destruct (Hgo None) as (? & ? & ? & ?). done.
  - split; [done|]. split; [done|]. vm_compute. discriminate.
  - unfold bt_len. cbn [fst snd bt_bytes bt_empty length]. vm_compute. done.
Qed.

Lemma transfer_ends s req deadline w : P s →
  ends True (transfer set_timeout now s req deadline w) (λ o,
    w_log o.1.1.1.2 = w_log w ++ (if o.1.1.2 then [Sent (bt_bytes req)] else []) ∧ (o.1.2 = ZCIO_OK → o.1.1.2 = true) ∧ P o.1.1.1.1).
Proof.
  intros Hs. unfold transfer. pose proof (remaining_log deadline w) as Hw. destruct (deadline_remaining_ms now deadline w) as [rm w1].
  cbn [snd] in Hw. destruct (rm =? 0); [cbn; by rewrite app_nil_r|].
  assert (P (if 0 <? rm then set_timeout s rm else s)) as Hs1 by (destruct (0 <? rm); auto).
  apply ends_bind. eapply ends_mono; [by apply write_full_ends|].
  intros [s' wr] Hs'. destruct (_ || _); [cbn; by rewrite Hw|]. apply ends_bind.
  eapply ends_mono; [by apply read_response_ends|]. intros [[[s2 w2] rr] raw] [Hw2 Hs2]. cbn in *. split; [by rewrite Hw2, Hw|done].
Qed.

Lemma open_log u cto ioto w : w_log (open_client connect u cto ioto w).2 = w_log w ++ [Dial u] ∧
  ∀ s, (open_client connect u cto ioto w).1 = inr s → P s.
Proof.
  unfold open_client. destruct (connect _ _ _ _) as [h|] eqn:E; [|done]. split; [done|]. intros s [= <-]. by eapply Hconnect.
Qed.

(** The events of one exchange with a given URL. *)
Inductive exchange (method : option bytes) (hs : list hdr_arg) (bd : option bytes) (n : Z) (u : zcio_url)
  : list event → Prop :=
  | exchange_dial : exchange method hs bd n u [Dial u]
  | exchange_sent req : build_request method u hs bd n = (ZCIO_OK, req) →
      exchange method hs bd n u [Dial u; Sent (bt_bytes req)].

(** What an exchange did: nothing and no response, or the events of one. *)
Definition exchanged method url hs bd n w (o : outcome * world) : Prop :=
  (o_result o.1 ≠ ZCIO_OK → o_resp o.1 = resp_zero) ∧
  ((w_log o.2 = w_log w ∧ o_resp o.1 = resp_zero ∧ o_prev o.1 = None) ∨
   ∃ u evs, url_parse url = inr u ∧ exchange method hs bd n u evs ∧ w_log o.2 = w_log w ++ evs ∧
     ∀ p, o_prev o.1 = Some p → p = u).

Lemma do_exchange_ends method url hs bd n cto deadline w :
  ends True (do_exchange set_timeout now connect tls_ctx method url hs bd n cto deadline w)
    (exchanged method url hs bd n w).
Proof.
  unfold do_exchange.
  assert (∀ e w', w_log w' = w_log w → ends True (Ok (failed_with e, w')) (exchanged method url hs bd n w)) as Hfail
    by (intros; split; cbn; auto).
  destruct (url_parse url) as [e|u] eqn:Eu; [by apply Hfail|]. destruct (url_dup u) as [p|] eqn:Ep; [|by apply Hfail].
  assert (p = u) as -> by (unfold url_dup in Ep; repeat case_match; by try injection Ep).
  pose proof (remaining_log deadline w) as Hw. destruct (deadline_remaining_ms now deadline w) as [rm w1]. cbn [snd] in Hw.
  destruct (rm =? 0); [by apply Hfail|]. destruct (timeouts cto rm) as [ct iot].
  destruct (_ && _); [by apply Hfail|]. pose proof (open_log u ct iot w1) as [Ho Hs]. rewrite Hw in Ho.
  destruct (open_client connect u ct iot w1) as [c w2]. cbn [fst snd] in Ho, Hs.
  assert (∀ e, ends True (Ok (failed_with e, w2)) (exchanged method url hs bd n w)) as Hdial.
  { intros e. split; [done|]. right. exists u, [Dial u]. split; [done|]. split; [constructor|]. done. }
  destruct c as [e|[s|]]; [apply Hdial| |apply Hdial].
  destruct (build_request method u hs bd n) as [br req] eqn:Eb. destruct (negb (br =? ZCIO_OK)) eqn:E; [apply Hdial|].
  btest. subst br. apply ends_bind. eapply ends_mono; [by apply transfer_ends, Hs|]. intros [[[[s' w3] sent] rr] raw] [Hw3 _].
  cbn [fst snd] in Hw3. rewrite Ho, <- app_assoc in Hw3.
  assert (exchange method hs bd n u ([Dial u] ++ (if sent then [Sent (bt_bytes req)] else []))) as Hx
    by (destruct sent; by constructor).
  destruct (negb (rr =? ZCIO_OK)).
  { split; [done|]. right. exists u. eexists. split; [done|]. split; [exact Hx|]. done. }
  apply ends_bind. eapply ends_mono; [apply parse_response_ends|]. intros [[pr resp] loc] Hp.
  split; cbn [fst snd o_result o_resp o_prev] in *; [intros Hr; apply (Hp Hr)|].
  right. exists u. eexists. split; [done|]. split; [exact Hx|]. split; [done|]. by intros ? [= ->].
Qed.

(** ** Redirected requests *)

(** At most [k] exchanges; after a secure URL only secure ones. *)
Inductive trail (method : option bytes) (hs : list hdr_arg) (bd : option bytes) (n : Z)
  : nat → bool → list event → Prop :=
  | trail_end k sec : trail method hs bd n k sec []
  | trail_more k sec u evs rest : exchange method hs bd n u evs → (sec = true → url_secure u = true) →
      trail method hs bd n k (url_secure u) rest → trail method hs bd n (S k) sec (evs ++ rest).

Lemma request_loop_ends fuel redirect method cur hs bd n cto deadline w sec :
  (redirect + fuel = S ZCIO_HTTP_MAX_REDIRECTS)%nat → (0 < fuel)%nat →
  (∀ u, url_parse cur = inr u → sec = true → url_secure u = true) →
  ends True (request_loop set_timeout now connect tls_ctx fuel redirect method cur hs bd n cto deadline w)
    (λ o, ∃ evs, w_log o.2 = w_log w ++ evs ∧ trail method hs bd n fuel sec evs ∧ (evs = [] → o.1 = resp_zero)).
Proof.
  revert redirect cur w sec. induction fuel as [|fuel IH]; intros redirect cur w sec Hf Hp Hsec; [lia|]. cbn [request_loop].
  apply ends_bind. eapply ends_mono; [apply do_exchange_ends|]. intros [o w1] [Hz Hx]. cbn [fst snd] in *.
  destruct Hx as [(Hw & Ho & Hpv)|(u & evs & Hu & Hx & Hw & Hpv)].
  { rewrite Ho, Hpv. assert (∃ evs, w_log w1 = w_log w ++ evs ∧ trail method hs bd n (S fuel) sec evs ∧
      (evs = [] → resp_zero = resp_zero)) as He by (exists []; rewrite app_nil_r; ands; constructor).
    destruct (negb _); [exact He|]. destruct (o_location o); exact He. }
  assert (evs ≠ []) as Hne by (by destruct Hx).
  assert (∀ r : zcio_http_response, ends True (Ok (r, w1)) (λ o, ∃ evs, w_log o.2 = w_log w ++ evs ∧
    trail method hs bd n (S fuel) sec evs ∧ (evs = [] → o.1 = resp_zero))) as Hstop.
  { intros r. exists evs. split; [done|]. split; [|done]. rewrite <- (app_nil_r evs).
    apply (trail_more _ _ _ _ _ _ u); [done|by apply Hsec|constructor]. }
  destruct (negb _); [apply Hstop|]. destruct (o_location o) as [loc|]; [|apply Hstop].
  destruct (o_prev o) as [prev|]; [|apply Hstop]. rewrite (Hpv prev eq_refl).
  destruct (_ && _ && _ && _)%bool eqn:Ec; [|apply Hstop]. apply andb_prop in Ec as [_ Ec]. apply Nat.ltb_lt in Ec.
  destruct (resolve_redirect u (Some loc)) as [e|next] eqn:Er; [apply Hstop|].
  eapply ends_mono; [apply (IH (S redirect) (Some next) w1 (url_secure u))|].
  - lia.
  - unfold ZCIO_HTTP_MAX_REDIRECTS in *. lia.
  - intros u' Hu' Hs. apply (redirect_secure cur u (Some loc) next u' Hu Hs Er Hu').
  - intros [r w2] (evs2 & Hw2 & Ht & Hz2). cbn [fst snd] in *. exists (evs ++ evs2). rewrite Hw2, Hw, app_assoc.
    split; [done|]. split; [by apply (trail_more _ _ _ _ _ _ u); [|apply Hsec|]|].
    intros E. apply app_nil in E as [-> _]. done.
Qed.

Lemma start_log opts w : w_log (start_deadline now opts w).2 = w_log w.
Proof. unfold start_deadline. destruct opts as [[cto total]|]; [|done]. by destruct (0 <? total). Qed.

(** ** Keep-alive sessions *)






End Run.

(** ** Properties *)

(** C16: A request call always comes to an end, whatever the peers send (it
    can only leave the model in the known over-read of the chunk scanner or in
    the transport itself), after at most six exchanges: each dials some parsed
    URL once and sends at most the request built for that URL, after a secure
    URL every further one is secure, and without an exchange there is no
    response. *)
Theorem http_request_bounded `{Allocator} {C} (set_timeout : option (zcio_stream C) → Z → option (zcio_stream C))
    now connect tls_ctx
    (P : option (zcio_stream C) → Prop)
    (Hread : ∀ s, P s → ends True (zcio_read s false 8192) (λ o, P o.1.1 ∧ (0 < o.1.2 → o.1.2 ≤ zlen o.2)))
    (Hwrite : ∀ s src, P s → ends True (zcio_write s (Some src)) (λ o, P o.1))
    (Htimeout : ∀ s t, P s → P (set_timeout s t))
    (Hconnect : ∀ k u cto ioto s, connect k u cto ioto = Some s → P s)
    method url hs bd n opts w :
  ends True (zcio_http_request_opts set_timeout now connect tls_ctx method url hs bd n opts w) (λ o,
    ∃ evs, w_log o.2 = w_log w ++ evs ∧ trail method hs bd n 6 false evs ∧ (evs = [] → o.1 = resp_zero)).
Proof.
  unfold zcio_http_request_opts. pose proof (start_log now opts w) as Hw.
  destruct (start_deadline now opts w) as [[cto deadline] w1]. cbn [snd] in Hw.
  assert (∀ cur, ends True (request_loop set_timeout now connect tls_ctx (S ZCIO_HTTP_MAX_REDIRECTS) 0 method cur hs bd n cto deadline w1)
    (λ o, ∃ evs, w_log o.2 = w_log w ++ evs ∧ trail method hs bd n 6 false evs ∧ (evs = [] → o.1 = resp_zero))) as Hl.
  { intros cur. rewrite <- Hw. apply (request_loop_ends set_timeout now connect tls_ctx P); [done|done|done|done|done|unfold ZCIO_HTTP_MAX_REDIRECTS; lia|done]. }
  destruct url as [url|]; [|apply Hl]. destruct (zcio_strdup_ (Some url)); [apply Hl|].
  exists []. rewrite app_nil_r. split; [done|]. split; [constructor|done].
Qed.


(** ** What the client does not do *)

(** Without Content-Length and chunks nothing that arrives is enough. *)
Theorem bodiless_never_complete `{Allocator} f data : fr_chunked f = false → fr_length f < 0 →
  body_complete f data = Ok (inr false).
Proof. unfold body_complete. intros -> Hl. do 3 f_equal. apply andb_false_iff. left. apply Z.leb_gt. lia. Qed.

(** What the server sends for 204 on a kept connection is such a response. *)
Example bodiless_framing :
  @framing_of always_alloc (B "HTTP/1.1 204 No Content" ++ CRLF ++ B "connection: keep-alive" ++ CRLF ++ CRLF) =
    Some (mk_framing 51 (-1) false).
Proof. vm_compute. reflexivity. Qed.

(** A path with a line break adds a header line to the request. *)
Example path_injects :
  match @build_request always_alloc (Some (B "GET")) (request_url (mk_hurl (B "http") false (B "h") 80 (B "/"))
    (Some (B "/ HTTP/1.1" ++ CRLF ++ B "X-Evil: 1" ++ CRLF ++ B "Y:"))) [] None 0 with
  | (0, b) => ztake 29 (bt_bytes b) = B "GET / HTTP/1.1" ++ CRLF ++ B "X-Evil: 1" ++ CRLF ++ B "Y:"
  | _ => False end.
Proof. vm_compute. reflexivity. Qed.

(** A response without header fields is refused. *)
Example no_fields_refused :
  @parse_response always_alloc (mk_bt (B "HTTP/1.1 200 OK" ++ CRLF ++ CRLF ++ B "hi") 64) false =
    Ok (ZCIO_ERR_PROTOCOL, resp_zero, None).
Proof. vm_compute. reflexivity. Qed.

(** ** Witnesses *)

(** A peer that answers a fixed text and swallows what it is sent. *)
Definition FIXED_VT : zcio_stream_vtable bytes :=
  {| vt_name := B "fixed";
     vt_read := Some (λ c n, Ok (zdrop n c, zlen (ztake n c), ztake n c));
     vt_write := Some (λ c src, Ok (c, zlen src));
     vt_seek := None; vt_flush := None; vt_close := None; vt_destroy := false;
     vt_available := None; vt_eof := None |}.
Definition fixed (s : option (zcio_stream bytes)) : Prop := ∃ c, s = Some (mk_stream FIXED_VT c 0).

Lemma fixed_read s : fixed s → ends True (zcio_read s false 8192) (λ o, fixed o.1.1 ∧ (0 < o.1.2 → o.1.2 ≤ zlen o.2)).
Proof. intros [c ->]. cbn. split; [by eexists|lia]. Qed.

Lemma fixed_write s src : fixed s → ends True (zcio_write s (Some src)) (λ o, fixed o.1).
Proof. intros [c ->]. unfold zcio_write. cbn [s_vt vt_write FIXED_VT]. destruct (_ =? 0); by eexists. Qed.

(** The first peer redirects to the second. *)
Definition ex_connect (k : nat) (u : zcio_url) (cto ioto : Z) : option (option (zcio_stream bytes)) :=
  Some (Some (mk_stream FIXED_VT (match k with
    | O => B "HTTP/1.1 301 Moved" ++ CRLF ++ B "Location: https://b/c" ++ CRLF ++ B "Content-Length: 0" ++ CRLF ++ CRLF
    | _ => B "HTTP/1.1 200 OK" ++ CRLF ++ B "Content-Length: 2" ++ CRLF ++ CRLF ++ B "hi" end) 0)).

Lemma ex_connect_fixed k u cto ioto s : ex_connect k u cto ioto = Some s → fixed s.
Proof. intros [= <-]. by eexists. Qed.

Definition ex_run : exec (zcio_http_response * world) :=
  @zcio_http_get always_alloc bytes (λ s _, s) (λ _, 0) ex_connect (λ _, true) (Some (B "http://a/")) (mk_world 0 0 []).

Lemma ex_run_ok : match ex_run with Ok (r, w) => Some (rs_status r, rs_body r, length (w_log w)) | _ => None end =
  Some (200, Some (B "hi"), 4%nat).
Proof. vm_compute. reflexivity. Qed.

Lemma http_request_bounded_witness :
  ∃ r w, ex_run = Ok (r, w) ∧ length (w_log w) = 4%nat ∧ @trail always_alloc (Some (B "GET")) [] None 0 6 false (w_log w).
Proof.
  pose proof ex_run_ok as H. destruct ex_run as [[r w]| |] eqn:E; try discriminate H.
  exists r, w. split; [reflexivity|]. split; [by injection H|].
  pose proof (@http_request_bounded always_alloc bytes (λ s _, s) (λ _, 0) ex_connect (λ _, true) fixed
    fixed_read fixed_write (λ s _ Hs, Hs) ex_connect_fixed (Some (B "GET")) (Some (B "http://a/")) [] None 0 None
    (mk_world 0 0 [])) as Hb.
  change (zcio_http_request_opts _ _ _ _ _ _ _ _ _ _ _) with ex_run in Hb. rewrite E in Hb.
  destruct Hb as (evs & Hw & Ht & _). cbn in Hw. rewrite Hw. exact Ht.
Defined.




