(* ===== verification/Serial.v ===== *)
(** * Serial: the bit and byte serializer of [src/serial.c]

    One serializer type over three backings (a stream, a byte counter, a
    caller-owned block).  Bits fill a byte from the least significant end; a
    byte written in the middle of a byte is split into its bits.  The classes
    [BackSink] and [BackSource] say what a backing promises; the theorems are
    proved against them and hold for blocks and for every stream that keeps
    the promises of [Stream.Sink] and [Stream.Source]. *)
From stdpp Require Import base tactics list option strings.
From Stdlib Require Import ZArith Lia.
From S2P Require Import Prelude Types Stream.

(** ** Data

    The fields that only one mode uses are the arguments of its constructor. *)
Inductive backing (C : Type) :=
  | MODE_STREAM (stream : option (zcio_stream C)) (owns_stream : bool)
  | MODE_COUNT (count_total count_wpos count_rpos : Z)
  | MODE_BUFFER (buf : bytes) (buf_size buf_rpos buf_wpos : Z).
Arguments MODE_STREAM {C}. Arguments MODE_COUNT {C}. Arguments MODE_BUFFER {C}.

Record zcio_serial (C : Type) := mk_serial {
  back : backing C;
  bit_stream : bool;
  cur_read_byte : Z;
  bits_read : Z;
  cur_write_byte : Z;
  bits_written : Z;
  read_eof : bool;
  read_empty : bool;
  short_read : bool;
  last_read : Z;
}.
Arguments mk_serial {C}. Arguments back {C}. Arguments bit_stream {C}.
Arguments cur_read_byte {C}. Arguments bits_read {C}. Arguments cur_write_byte {C}.
Arguments bits_written {C}. Arguments read_eof {C}. Arguments read_empty {C}.
Arguments short_read {C}. Arguments last_read {C}.

Section Serial.
Context {C : Type}.
Abbreviation serial := (zcio_serial C).

Definition with_back (b : backing C) (z : serial) : serial :=
  mk_serial b (bit_stream z) (cur_read_byte z) (bits_read z) (cur_write_byte z) (bits_written z)
    (read_eof z) (read_empty z) (short_read z) (last_read z).
Definition with_rbits (cur n : Z) (z : serial) : serial :=
  mk_serial (back z) (bit_stream z) cur n (cur_write_byte z) (bits_written z)
    (read_eof z) (read_empty z) (short_read z) (last_read z).
Definition with_wbits (cur n : Z) (z : serial) : serial :=
  mk_serial (back z) (bit_stream z) (cur_read_byte z) (bits_read z) cur n
    (read_eof z) (read_empty z) (short_read z) (last_read z).
Definition with_status (eof empty short : bool) (last : Z) (z : serial) : serial :=
  mk_serial (back z) (bit_stream z) (cur_read_byte z) (bits_read z) (cur_write_byte z)
    (bits_written z) eof empty short last.

(** ** Construction *)

Definition zcio_serial_new `{Allocator} (s : option (zcio_stream C)) (bits take_ownership : bool)
  : option serial :=
  match s with
  | None => None
  | Some _ =>
      if zcio_xcalloc_ok 1 120
      then Some (mk_serial (MODE_STREAM s take_ownership) bits 0 8 0 0 false false false 0) else None
  end.

Definition zcio_serial_new_count `{Allocator} : option serial :=
  if zcio_xcalloc_ok 1 120
  then Some (mk_serial (MODE_COUNT 0 0 0) false 0 8 0 0 false false false 0) else None.

Definition zcio_serial_new_buffer `{Allocator} (buffer : option bytes) (size : Z) (bits : bool)
  : option serial :=
  match buffer with
  | None => None
  | Some m =>
      if size <? 0 then None
      else if zcio_xcalloc_ok 1 120
      then Some (mk_serial (MODE_BUFFER m size 0 0) bits 0 8 0 0 false false false 0) else None
  end.

(** The stream context destroyed by [zcio_serial_free], if any. *)
Definition zcio_serial_free (z : option serial) : option C :=
  match z with
  | Some z => match back z with MODE_STREAM s true => zcio_stream_free s | _ => None end
  | None => None
  end.

(** ** The raw byte path *)

Definition raw_write (z : serial) (src : bytes) : exec (Z * serial) :=
  let n := zlen src in
  match back z with
  | MODE_COUNT total wp rp => Ok (i64 n, with_back (MODE_COUNT (u64 (total + n)) (u64 (wp + n)) rp) z)
  | MODE_BUFFER buf size rp wp =>
      let cap := u64 (size - wp) in
      if cap <? n then Ok (0, z)
      else
        buf ← mem_write wp src buf;
        wp ← sadd64 wp (i64 n);
        Ok (i64 n, with_back (MODE_BUFFER buf size rp wp) z)
  | MODE_STREAM s o =>
      '(s, r) ← zcio_write_full s src; Ok (r, with_back (MODE_STREAM s o) z)
  end.

(** The result, the bytes stored at [dst], and the new state. *)
Definition raw_read (z : serial) (n : Z) : exec (Z * bytes * serial) :=
  match back z with
  | MODE_COUNT total wp rp =>
      Ok (i64 n, [], with_status (read_eof z) (read_empty z) (short_read z) n
                 (with_back (MODE_COUNT total wp (u64 (rp + n))) z))
  | MODE_BUFFER buf size rp wp =>
      let cap := u64 (size - rp) in
      if n <=? cap then
        d ← mem_read rp n buf;
        rp ← sadd64 rp (i64 n);
        Ok (i64 n, d, with_status (read_eof z) (read_empty z) (short_read z) n
                  (with_back (MODE_BUFFER buf size rp wp) z))
      else Ok (0, [], with_status true (read_empty z) (short_read z) 0 z)
  | MODE_STREAM s o =>
      '(s, r, d) ← zcio_read_full s n;
      let z := with_back (MODE_STREAM s o) z in
      if r <? 0 then Ok (0, d, with_status true (read_empty z) true 0 z)
      else if negb (r =? n) then
        if zcio_stream_eof s then Ok (r, d, with_status true (read_empty z) true r z)
        else Ok (r, d, with_status (read_eof z) true true r z)
      else Ok (r, d, with_status false false (short_read z) r z)
  end.

(** [char b = 0; raw_read(z, &b, 1)] *)
Definition fetch (z : serial) : exec (Z * serial) :=
  '(_, d, z) ← raw_read z 1; Ok (match d with b :: _ => b | [] => 0 end, z).

(** ** Single bits and bytes

    [put_byte] is the tail of [zcio_serial_write_byte], the path it takes when
    it is not in the middle of a byte; [write_bit] only reaches it there
    ([write_bit_flushes]). *)
Definition put_byte (z : serial) (b : Z) : exec serial :=
  '(_, z) ← raw_write z [b]; Ok (with_wbits 0 0 z).

Definition zcio_serial_write_bit (z : serial) (bit : bool) : exec serial :=
  let cur := u8 (Z.lor (cur_write_byte z) (u8 (Z.shiftl (Z.b2z bit) (bits_written z)))) in
  let n := u8 (bits_written z + 1) in
  let z := with_wbits cur n z in
  if n =? 8 then put_byte z cur else Ok z.

(** [for (e = 0; e < 8; e++) zcio_serial_write_bit(z, (byte >> e) & 1)] *)
Fixpoint write_bit_loop (n : nat) (e : Z) (z : serial) (b : Z) : exec serial :=
  match n with
  | O => Ok z
  | S n => z ← zcio_serial_write_bit z (Z.testbit b e); write_bit_loop n (e + 1) z b
  end.

Definition mid (n : Z) : bool := (0 <? n) && (n <? 8).

Definition zcio_serial_write_byte (z : serial) (b : Z) : exec serial :=
  if bit_stream z && mid (bits_written z) then write_bit_loop 8 0 z b else put_byte z b.

Definition zcio_serial_read_bit (z : serial) : exec (bool * serial) :=
  z ← (if (bits_read z =? 0) || (bits_read z =? 8)
       then '(b, z) ← fetch z; Ok (with_rbits b 0 z) else Ok z);
  Ok (Z.testbit (cur_read_byte z) (bits_read z), with_rbits (cur_read_byte z) (bits_read z + 1) z).

Fixpoint read_bit_loop (n : nat) (e : Z) (z : serial) (b : Z) : exec (Z * serial) :=
  match n with
  | O => Ok (b, z)
  | S n =>
      '(bit, z) ← zcio_serial_read_bit z;
      read_bit_loop n (e + 1) z (Z.lor b (u8 (Z.shiftl (Z.b2z bit) e)))
  end.

Definition zcio_serial_read_byte (z : serial) : exec (Z * serial) :=
  if bit_stream z && mid (bits_read z) then read_bit_loop 8 0 z 0
  else '(b, z) ← fetch z; Ok (b, with_rbits b 0 z).

(** ** Bulk bytes, bit arrays, scalars, strings *)

Fixpoint write_byte_loop (z : serial) (src : bytes) : exec serial :=
  match src with
  | [] => Ok z
  | b :: src => z ← zcio_serial_write_byte z b; write_byte_loop z src
  end.

Fixpoint read_byte_loop (n : nat) (z : serial) : exec (bytes * serial) :=
  match n with
  | O => Ok ([], z)
  | S n =>
      '(b, z) ← zcio_serial_read_byte z;
      '(d, z) ← read_byte_loop n z;
      Ok (b :: d, z)
  end.

Definition is_stream (z : serial) : bool := match back z with MODE_STREAM _ _ => true | _ => false end.

Definition zcio_serial_write_bytes (z : serial) (src : bytes) : exec (Z * serial) :=
  if bit_stream z && is_stream z then z ← write_byte_loop z src; Ok (i64 (zlen src), z)
  else raw_write z src.

Definition zcio_serial_read_bytes (z : serial) (n : Z) : exec (Z * bytes * serial) :=
  if bit_stream z && is_stream z then
    '(d, z) ← read_byte_loop (Z.to_nat n) z;
    Ok (i64 n, d, with_status (read_eof z) (read_empty z) (short_read z) n z)
  else raw_read z n.

Fixpoint write_bits_loop (z : serial) (bits : bytes) : exec serial :=
  match bits with
  | [] => Ok z
  | b :: bits => z ← zcio_serial_write_bit z (Z.odd b); write_bits_loop z bits
  end.

Definition zcio_serial_write_bits (z : serial) (bits : bytes) (index count : Z) : exec serial :=
  if negb (bit_stream z) then Ok z
  else bs ← mem_read index count bits; write_bits_loop z bs.

Fixpoint read_bits_loop (n : nat) (z : serial) : exec (bytes * serial) :=
  match n with
  | O => Ok ([], z)
  | S n =>
      '(b, z) ← zcio_serial_read_bit z;
      '(d, z) ← read_bits_loop n z;
      Ok (Z.b2z b :: d, z)
  end.

Definition zcio_serial_read_bits (z : serial) (bits : bytes) (index count : Z) : exec (bytes * serial) :=
  if negb (bit_stream z) then Ok (bits, z)
  else
    '(d, z) ← read_bits_loop (Z.to_nat count) z;
    bits ← mem_write index d bits; Ok (bits, z).

(** Scalars are stored in the host's order, little-endian here; a [float] or
    [double] is its bit pattern. *)
Fixpoint le_bytes (n : nat) (v : Z) : bytes :=
  match n with O => [] | S n => v mod 256 :: le_bytes n (v / 256) end.
Fixpoint le_val (s : bytes) : Z := match s with [] => 0 | b :: s => b + 256 * le_val s end.

Inductive scalar := I8 | U8 | I16 | U16 | I32 | U32 | I64 | U64 | F32 | F64.

Definition scalar_size (t : scalar) : nat :=
  match t with I8 | U8 => 1 | I16 | U16 => 2 | I32 | U32 | F32 => 4 | I64 | U64 | F64 => 8 end.
Definition scalar_signed (t : scalar) : bool :=
  match t with I8 | I16 | I32 | I64 => true | _ => false end.

Definition scalar_of_bits (t : scalar) (p : Z) : Z :=
  let w := 8 * Z.of_nat (scalar_size t) in
  if scalar_signed t && (2 ^ (w - 1) <=? p) then p - 2 ^ w else p.

Definition zcio_serial_write_scalar (t : scalar) (z : serial) (v : Z) : exec serial :=
  '(_, z) ← zcio_serial_write_bytes z (le_bytes (scalar_size t) v); Ok z.

(** [T v = 0; read_bytes(&v, sizeof v)]: bytes that are not stored stay zero. *)
Definition zcio_serial_read_scalar (t : scalar) (z : serial) : exec (Z * serial) :=
  '(_, d, z) ← zcio_serial_read_bytes z (Z.of_nat (scalar_size t));
  Ok (scalar_of_bits t (le_val (d ++ replicate (scalar_size t - length d) 0)), z).

Definition zcio_serial_write_str (z : serial) (s : bytes) : exec serial :=
  '(_, z) ← zcio_serial_write_bytes z (le_bytes 8 (zlen s));
  if zlen s =? 0 then Ok z else '(_, z) ← zcio_serial_write_bytes z s; Ok z.

(** ** Positions and status *)

Definition stream_seek (z : serial) (off : Z) (origin : zcio_seek_origin) (which : Z)
  : exec (Z * serial) :=
  match back z with
  | MODE_STREAM s o => '(s, r) ← zcio_seek s off origin which; Ok (r, with_back (MODE_STREAM s o) z)
  | _ => Ok (0, z)
  end.

Definition zcio_serial_write_pos (z : serial) : exec (Z * serial) :=
  match back z with
  | MODE_COUNT _ wp _ => Ok (i64 wp, z)
  | MODE_BUFFER _ _ _ wp => Ok (wp, z)
  | MODE_STREAM _ _ => stream_seek z 0 ZCIO_SEEK_CUR ZCIO_SEEK_WRITE
  end.
Definition zcio_serial_read_pos (z : serial) : exec (Z * serial) :=
  match back z with
  | MODE_COUNT _ _ rp => Ok (i64 rp, z)
  | MODE_BUFFER _ _ rp _ => Ok (rp, z)
  | MODE_STREAM _ _ => stream_seek z 0 ZCIO_SEEK_CUR ZCIO_SEEK_READ
  end.
Definition zcio_serial_set_write_pos (z : serial) (i : Z) : exec serial :=
  match back z with
  | MODE_COUNT t _ rp => Ok (with_back (MODE_COUNT t i rp) z)
  | MODE_BUFFER m sz rp _ => Ok (with_back (MODE_BUFFER m sz rp (i64 i)) z)
  | MODE_STREAM _ _ => '(_, z) ← stream_seek z (i64 i) ZCIO_SEEK_SET ZCIO_SEEK_WRITE; Ok z
  end.
Definition zcio_serial_set_read_pos (z : serial) (i : Z) : exec serial :=
  match back z with
  | MODE_COUNT t wp _ => Ok (with_back (MODE_COUNT t wp i) z)
  | MODE_BUFFER m sz _ wp => Ok (with_back (MODE_BUFFER m sz (i64 i) wp) z)
  | MODE_STREAM _ _ => '(_, z) ← stream_seek z (i64 i) ZCIO_SEEK_SET ZCIO_SEEK_READ; Ok z
  end.
Definition zcio_serial_write_len (z : serial) : exec (Z * serial) :=
  match back z with
  | MODE_COUNT t _ _ => Ok (i64 t, z)
  | MODE_BUFFER _ sz _ _ => Ok (sz, z)
  | MODE_STREAM _ _ => stream_seek z 0 ZCIO_SEEK_END ZCIO_SEEK_WRITE
  end.
Definition zcio_serial_read_len (z : serial) : Z :=
  match back z with
  | MODE_COUNT t _ _ => i64 t
  | MODE_BUFFER _ sz _ _ => sz
  | MODE_STREAM s _ => zcio_available s
  end.

(** [if (z->mode == MODE_STREAM) zcio_flush(z->stream)] *)
Definition flush_back (b : backing C) : backing C :=
  match b with MODE_STREAM s o => MODE_STREAM (zcio_flush s).1 o | b => b end.

Definition zcio_serial_synchronize (z : serial) : exec serial :=
  z ← (if mid (bits_written z)
       then zcio_serial_write_byte (with_wbits (cur_write_byte z) 8 z) (cur_write_byte z) else Ok z);
  Ok (with_back (flush_back (back z)) z).

Definition zcio_serial_short_read (z : serial) : bool * serial :=
  (short_read z, with_status (read_eof z) (read_empty z) false (last_read z) z).
Definition zcio_serial_clear_read (z : serial) : serial := with_status false false false (last_read z) z.

(** ** Reading strings *)

Definition STREAM_READ_CAP : Z := 256 * 1024 * 1024.

(** Whether a declared length of [n] can be available. *)
Definition str_available (z : serial) (n : Z) : exec (bool * serial) :=
  match back z with
  | MODE_STREAM _ _ => Ok (negb (STREAM_READ_CAP <? n), z)
  | _ =>
      let total := zcio_serial_read_len z in
      '(pos, z) ← zcio_serial_read_pos z;
      let avail := if pos <? total then total - pos else 0 in
      Ok (negb (u64 avail <? n), z)
  end.

(** The string and its length: the [out_len] bytes before the NUL. *)
Definition zcio_serial_read_str `{Allocator} (z : serial) : exec (option bytes * serial) :=
  '(r, d, z) ← zcio_serial_read_bytes z 8;
  if negb (r =? 8) then Ok (None, z)
  else
    let n := le_val (d ++ replicate (8 - length d) 0) in
    if n =? UINT64_MAX then Ok (None, z)
    else
      '(ok, z) ← str_available z n;
      if negb ok then Ok (None, z)
      else match malloc (n + 1) with
      | None => Ok (None, z)
      | Some out =>
          if negb (n =? 0) then
            '(r, d, z) ← zcio_serial_read_bytes z n;
            if r <? 0 then Ok (None, z)
            else
              let out := d ++ drop (length d) out in
              if r <? n then Ok (Some (ztake r out), z) else Ok (Some (ztake n out), z)
          else Ok (Some [], z)
      end.
End Serial.
Arguments scalar_of_bits t p : simpl never.

(** ** Bits and bytes, least significant bit first *)

Fixpoint bits_val (l : list bool) : Z :=
  match l with [] => 0 | b :: l => Z.b2z b + 2 * bits_val l end.

Definition lsb_bits (b : Z) : list bool := map (λ k, Z.testbit b (Z.of_nat k)) (seq 0 8).

Definition unpack (s : bytes) : list bool := concat (map lsb_bits s).

Lemma bits_val_bound l : 0 ≤ bits_val l < 2 ^ zlen l.
Proof.
  induction l as [|b l IH]; [done|]. cbn [bits_val length].
  rewrite Nat2Z.inj_succ, Z.pow_succ_r by lia. destruct b; cbn; lia.
Qed.

Lemma bits_val_app l k : bits_val (l ++ k) = bits_val l + 2 ^ zlen l * bits_val k.
Proof.
  induction l as [|b l IH]; [cbn [bits_val length app]; lia|]. cbn [bits_val length app].
  rewrite IH, Nat2Z.inj_succ, Z.pow_succ_r by lia. ring.
Qed.

Lemma bits_val_zeros l n : bits_val (l ++ replicate n false) = bits_val l.
Proof.
  rewrite bits_val_app. enough (bits_val (replicate n false) = 0) as -> by ring.
  induction n as [|n IH]; [done|]. cbn. by rewrite IH.
Qed.

Lemma testbit_bits_val l i : Z.testbit (bits_val l) (Z.of_nat i) = default false (l !! i).
Proof.
  revert i. induction l as [|b l IH]; intros i; [by rewrite Z.bits_0|]. cbn [bits_val].
  rewrite Z.add_comm. destruct i as [|i].
  - change (Z.of_nat 0) with 0. by rewrite Z.testbit_0_r.
  - rewrite Nat2Z.inj_succ, Z.testbit_succ_r by lia. by rewrite IH.
Qed.

Lemma length_lsb_bits b : length (lsb_bits b) = 8%nat.
Proof. done. Qed.

Lemma lsb_bits_lookup b i : (i < 8)%nat → lsb_bits b !! i = Some (Z.testbit b (Z.of_nat i)).
Proof.
  intros. unfold lsb_bits. rewrite list_lookup_fmap, lookup_seq_lt by lia. done.
Qed.

Lemma lsb_bits_val l : length l = 8%nat → lsb_bits (bits_val l) = l.
Proof.
  intros Hl. apply list_eq. intros i. destruct (decide (i < 8)%nat).
  - rewrite lsb_bits_lookup, testbit_bits_val by lia.
    destruct (lookup_lt_is_Some_2 l i) as [b ->]; [lia|done].
  - rewrite !lookup_ge_None_2; [done|lia|rewrite length_lsb_bits; lia].
Qed.

Lemma bits_val_lsb b : is_byte b → bits_val (lsb_bits b) = b.
Proof.
  intros Hb. apply Z.bits_inj'. intros n Hn. rewrite <- (Z2Nat.id n) by lia.
  rewrite testbit_bits_val. destruct (decide (n < 8)).
  - by rewrite lsb_bits_lookup by lia.
  - rewrite lookup_ge_None_2 by (rewrite length_lsb_bits; lia). cbn.
    rewrite testbit_byte_high; [done|done|lia].
Qed.

Lemma lsb_bits_split b k : (k < 8)%nat →
  drop k (lsb_bits b) = Z.testbit b (Z.of_nat k) :: drop (S k) (lsb_bits b).
Proof. intros. by rewrite (drop_S _ _ _ (lsb_bits_lookup b k H)). Qed.

(** Or-ing in the next bit of a number that has none yet at that place. *)
Lemma lor_next l (b : bool) : Z.lor (bits_val l) (Z.shiftl (Z.b2z b) (zlen l)) = bits_val (l ++ [b]).
Proof.
  apply Z.bits_inj'. intros n Hn. rewrite <- (Z2Nat.id n) by lia.
  rewrite Z.lor_spec, Z.shiftl_spec, !testbit_bits_val by lia.
  destruct (lt_eq_lt_dec (Z.to_nat n) (length l)) as [[Hl | Hl] | Hl].
  - rewrite lookup_app_l, Z.testbit_neg_r by lia. apply orb_false_r.
  - rewrite lookup_ge_None_2, lookup_app_r by lia. rewrite Hl, Nat.sub_diag, Z.sub_diag. by destruct b.
  - rewrite !lookup_ge_None_2 by (zlen_simpl; lia). cbn. destruct b; [|apply Z.bits_0].
    apply (Z.pow2_bits_false 0). lia.
Qed.

Lemma u8_bits_val l : (length l ≤ 8)%nat → u8 (bits_val l) = bits_val l.
Proof.
  intros. apply wrap_small. pose proof (bits_val_bound l).
  assert (2 ^ zlen l ≤ 2 ^ 8) by (apply Z.pow_le_mono_r; lia). lia.
Qed.

Lemma u8_next (b : bool) n : 0 ≤ n < 8 → u8 (Z.shiftl (Z.b2z b) n) = Z.shiftl (Z.b2z b) n.
Proof.
  intros. apply wrap_small. rewrite Z.shiftl_mul_pow2 by lia.
  assert (0 < 2 ^ n ≤ 2 ^ 7) by (split; [lia | apply Z.pow_le_mono_r; lia]). destruct b; cbn [Z.b2z]; lia.
Qed.

Lemma le_val_bytes n v : 0 ≤ v < 256 ^ Z.of_nat n → le_val (le_bytes n v) = v.
Proof.
  revert v. induction n as [|n IH]; intros v Hv; [cbn in *; lia|]. cbn [le_bytes le_val].
  rewrite Nat2Z.inj_succ, Z.pow_succ_r in Hv by lia.
  rewrite IH; [|split; [apply Z.div_pos; lia | apply Z.div_lt_upper_bound; lia]].
  pose proof (Z.div_mod v 256). lia.
Qed.

Lemma le_bytes_mod n v : le_bytes n (v mod 256 ^ Z.of_nat n) = le_bytes n v.
Proof.
  revert v. induction n as [|n IH]; intros v; [done|]. cbn [le_bytes].
  rewrite Nat2Z.inj_succ, Z.pow_succ_r, Z.rem_mul_r, (Z.mul_comm 256 (_ mod _)) by lia. f_equal.
  - rewrite Z.mod_add by lia. apply Z.mod_mod. lia.
  - rewrite <- (IH (v / 256)). f_equal.
    rewrite Z.div_add, Z.div_small by (try apply Z.mod_pos_bound; lia). done.
Qed.

Lemma length_le_bytes n v : length (le_bytes n v) = n.
Proof. revert v. induction n as [|n IH]; intros v; [done|]. cbn. by rewrite IH. Qed.

(** ** What a backing promises *)

Class BackSink {C} (inv : backing C → Prop) (out : backing C → bytes) (room : backing C → Z) := {
  back_write : ∀ z src, inv (back z) → zlen src ≤ room (back z) →
    ∃ b, raw_write z src = Ok (zlen src, with_back b z) ∧ inv b ∧
      out b = out (back z) ++ src ∧ room b = room (back z) - zlen src;
  back_flush : ∀ b, inv b →
    inv (flush_back b) ∧ out (flush_back b) = out b ∧ room (flush_back b) = room b;
}.

Class BackSource {C} (inv : backing C → Prop) (rem : backing C → bytes) := {
  back_read : ∀ z n, inv (back z) → 0 ≤ n ≤ zlen (rem (back z)) →
    ∃ b eof empty short, raw_read z n =
        Ok (n, ztake n (rem (back z)), with_status eof empty short n (with_back b z)) ∧
      inv b ∧ rem b = zdrop n (rem (back z));
  back_str : ∀ z n, inv (back z) → 0 ≤ n ≤ zlen (rem (back z)) → n ≤ STREAM_READ_CAP →
    str_available z n = Ok (true, z);
}.

(** *** A caller-owned block *)

Definition block_out {C} (b : backing C) : bytes :=
  match b with MODE_BUFFER buf _ _ wp => ztake wp buf | _ => [] end.
Definition block_room {C} (b : backing C) : Z :=
  match b with MODE_BUFFER _ size _ wp => size - wp | _ => 0 end.
Definition block_rem {C} (b : backing C) : bytes :=
  match b with MODE_BUFFER buf size rp _ => slice rp (size - rp) buf | _ => [] end.
Definition block_wf {C} (b : backing C) : Prop :=
  match b with
  | MODE_BUFFER buf size rp wp => zlen buf = size ∧ size < 2 ^ 63 ∧ 0 ≤ rp ≤ size ∧ 0 ≤ wp ≤ size
  | _ => False
  end.
(** The read cursor has not moved. *)
Definition block_at {C} (r : Z) (b : backing C) : Prop :=
  block_wf b ∧ match b with MODE_BUFFER _ _ rp _ => rp = r | _ => False end.

#[export] Instance block_sink {C} r : @BackSink C (block_at r) block_out block_room.
Proof.
  constructor.
  - intros z src [Hw Hr] Hs. unfold raw_write. destruct (back z) as [| |buf size rp wp] eqn:Eb; try done.
    cbn in *. destruct Hw as (Hl & Hz & Hrp & Hwp). subst rp.
    rewrite (wrap_small 64 (size - wp)) by lia. bcase; [lia|].
    rewrite mem_write_ok by lia. cbn [mbind exec_bind]. unfold sadd64.
    rewrite i64_small by lia. rewrite bool_decide_true by lia. cbn [mbind exec_bind].
    eexists. split; [done|]. split; [|split].
    + split; [|done]. cbn. pose proof (length_mem_write wp src buf). ands.
    + cbn. rewrite app_assoc. apply ztake_app_zlen. zl.
    + cbn. lia.
  - intros [] Hi; [destruct Hi as [[]]|destruct Hi as [[]]|done].
Qed.

#[export] Instance block_source {C} : @BackSource C block_wf block_rem.
Proof.
  constructor.
  - intros z n Hw Hn. unfold raw_read. destruct (back z) as [| |buf size rp wp] eqn:Eb; try done.
    cbn in *. destruct Hw as (Hl & Hz & Hrp & Hwp).
    replace (zlen (slice rp (size - rp) buf)) with (size - rp) in Hn by zl.
    rewrite (wrap_small 64 (size - rp)) by lia. bcase; [|lia].
    rewrite mem_read_ok by lia. cbn [mbind exec_bind]. unfold sadd64.
    rewrite i64_small by lia. rewrite bool_decide_true by lia. cbn [mbind exec_bind].
    eexists _, _, _, _. split; [|split].
    + unfold slice. rewrite take_take. replace (_ `min` _)%nat with (Z.to_nat n) by lia. reflexivity.
    + cbn. ands.
    + cbn. unfold slice. rewrite skipn_firstn_comm, drop_drop. f_equal; [lia|]. f_equal. lia.
  - intros z n Hw Hn _. unfold str_available, zcio_serial_read_pos, zcio_serial_read_len.
    destruct (back z) as [| |buf size rp wp] eqn:Eb; try done. cbn in *.
    destruct Hw as (Hl & Hz & Hrp & Hwp).
    replace (zlen (slice rp (size - rp) buf)) with (size - rp) in Hn by zl.
    do 2 f_equal. apply negb_true_iff, Z.ltb_ge. bcase; rewrite wrap_small; lia.
Qed.

(** *** A stream *)

Section StreamBacking.
Context {C : Type} {vt : zcio_stream_vtable C} {inv : C → Prop}.
Context {acc rem : C → bytes} {room : C → Z}.

Definition on_stream (P : C → Prop) (b : backing C) : Prop :=
  match b with
  | MODE_STREAM (Some s) _ => s_vt s = vt ∧ P (s_ctx s)
  | _ => False
  end.
Definition of_stream {A} (d : A) (f : C → A) (b : backing C) : A :=
  match b with MODE_STREAM (Some s) _ => f (s_ctx s) | _ => d end.

#[export] Instance stream_sink `{!Sink vt inv acc room} (Hroom : ∀ c, inv c → 0 ≤ room c)
  (Hflush : ∀ f c, vt_flush vt = Some f → inv c →
     inv (f c).1 ∧ acc (f c).1 = acc c ∧ room (f c).1 = room c) :
  BackSink (on_stream inv) (of_stream [] acc) (of_stream 0 room).
Proof.
  constructor.
  - intros z src Hi Hs. unfold raw_write. destruct (back z) as [[[v c fl]|] o| |] eqn:Eb; try done.
    cbn [on_stream of_stream s_vt s_ctx] in *. destruct Hi as [-> Hi].
    destruct (write_full_sink (vt := vt) fl c src Hi (Hroom c Hi)) as (c' & -> & Hi' & Ha & Hr).
    rewrite Z.min_l in * by lia. cbn. eexists. split; [done|]. cbn.
    rewrite Ha, Hr, take_ge by lia. done.
  - intros [[[v c fl]|] o| |] Hi; try done. cbn in Hi. destruct Hi as [-> Hi]. cbn.
    destruct (vt_flush vt) as [f|] eqn:Ef; [|done]. destruct (Hflush f c eq_refl Hi) as (H1 & H2 & H3).
    destruct (f c) as [c' r]. done.
Qed.

#[export] Instance stream_source `{!Source vt inv rem} : BackSource (on_stream inv) (of_stream [] rem).
Proof.
  constructor.
  - intros z n Hi Hn. unfold raw_read. destruct (back z) as [[[v c fl]|] o| |] eqn:Eb; try done.
    cbn [on_stream of_stream s_vt s_ctx] in *. destruct Hi as [-> Hi]. unfold zcio_read_full.
    destruct (read_full_loop_source (vt := vt) fl (S (Z.to_nat n)) c n [] 0)
      as (c' & -> & Hi' & Hr); [done|lia|lia|].
    rewrite Z.sub_0_r in *. cbn [mbind exec_bind app].
    replace (0 + zlen (ztake n (rem c))) with n by zl. bcase; [lia|]. rewrite Z.eqb_refl. cbn [negb].
    eexists _, _, _, _. split; [done|]. done.
  - intros z n Hi Hn Hc. unfold str_available. destruct (back z) as [[s|] o| |]; try done.
    do 2 f_equal. apply negb_true_iff, Z.ltb_ge. done.
Qed.
End StreamBacking.

(** ** The bit writer *)

(** A write, with the value it carries. *)
Inductive bop := WBit (b : bool) | WByte (v : Z) | WBits (bits : bytes).

Definition bop_ok (o : bop) : Prop :=
  match o with WBit _ => True | WByte v => is_byte v | WBits bs => Forall (λ b, b = 0 ∨ b = 1) bs end.
Definition op_bits (o : bop) : list bool :=
  match o with WBit b => [b] | WByte v => lsb_bits v | WBits bs => map Z.odd bs end.
Definition ops_bits (ops : list bop) : list bool := concat (map op_bits ops).

Definition write_op {C} (z : zcio_serial C) (o : bop) : exec (zcio_serial C) :=
  match o with
  | WBit b => zcio_serial_write_bit z b
  | WByte v => zcio_serial_write_byte z v
  | WBits bs => zcio_serial_write_bits z bs 0 (zlen bs)
  end.
Fixpoint write_ops {C} (z : zcio_serial C) (ops : list bop) : exec (zcio_serial C) :=
  match ops with [] => Ok z | o :: ops => z ← write_op z o; write_ops z ops end.

(** [s] is [bits], padded with zeros to a whole number of bytes. *)
Definition packs (s : bytes) (bits : list bool) : Prop :=
  is_bytes s ∧ ∃ k, (k < 8)%nat ∧ unpack s = bits ++ replicate k false.

Section Writer.
Context {C : Type} {inv : backing C → Prop} {out : backing C → bytes} {room : backing C → Z}.
Context `{!BackSink inv out room}.
Abbreviation serial := (zcio_serial C).

(** [bits] have been written since the backing held [base], [cap] bytes fit. *)
Definition writing (base : bytes) (cap : Z) (z : serial) (bits : list bool) : Prop :=
  inv (back z) ∧ bit_stream z = true ∧
  ∃ full pend, out (back z) = base ++ full ∧ is_bytes full ∧ bits = unpack full ++ pend ∧
    zlen full + room (back z) = cap ∧ (length pend < 8)%nat ∧
    cur_write_byte z = bits_val pend ∧ bits_written z = zlen pend.

Definition rbits (z : serial) : Z * Z := (cur_read_byte z, bits_read z).

Lemma length_unpack s : length (unpack s) = (8 * length s)%nat.
Proof. induction s as [|b s IH]; [done|]. cbn [unpack map concat]. rewrite length_app, length_lsb_bits. unfold unpack in IH. cbn [length]. lia. Qed.

Lemma unpack_app s t : unpack (s ++ t) = unpack s ++ unpack t.
Proof. unfold unpack. by rewrite map_app, concat_app. Qed.

Lemma unpack_one b : unpack [b] = lsb_bits b.
Proof. unfold unpack. cbn [map concat]. apply app_nil_r. Qed.

Lemma mid_false {A} (l : list A) : mid (zlen l) = false → (length l < 8)%nat → l = [].
Proof.
  intros H Hl. destruct l as [|x l]; [done|]. unfold mid in H. apply andb_false_iff in H.
  cbn [length] in *. destruct H; btest; lia.
Qed.

Lemma put_byte_spec z b : inv (back z) → 1 ≤ room (back z) →
  ∃ z', put_byte z b = Ok z' ∧ inv (back z') ∧ bit_stream z' = bit_stream z ∧ rbits z' = rbits z ∧
    out (back z') = out (back z) ++ [b] ∧ room (back z') = room (back z) - 1 ∧
    cur_write_byte z' = 0 ∧ bits_written z' = 0.
Proof.
  intros Hi Hr. unfold put_byte. destruct (back_write z [b] Hi) as (k & -> & H1 & H2 & H3); [done|].
  cbn [mbind exec_bind]. eexists. split; [done|]. done.
Qed.

(** The recursive call of the C function: in [write_bit] the byte is complete,
    and [zcio_serial_write_byte] takes its raw path. *)
Lemma write_bit_flushes (z : serial) cur :
  zcio_serial_write_byte (with_wbits cur 8 z) cur = put_byte (with_wbits cur 8 z) cur.
Proof. unfold zcio_serial_write_byte. cbn. by rewrite andb_false_r. Qed.

Lemma write_bit_spec base cap z bits b :
  writing base cap z bits → zlen bits < 8 * cap →
  ∃ z', zcio_serial_write_bit z b = Ok z' ∧ writing base cap z' (bits ++ [b]) ∧ rbits z' = rbits z.
Proof.
  intros (Hi & Hb & full & pend & Ho & Hf & -> & Hc & Hp & Hcur & Hn) Hcap.
  rewrite length_app, length_unpack in Hcap. unfold zcio_serial_write_bit.
  rewrite Hcur, Hn, u8_next, lor_next by lia.
  rewrite u8_bits_val by (rewrite length_app; cbn [length]; lia).
  rewrite (wrap_small 8 (zlen pend + 1)) by lia. bcase.
  - destruct (put_byte_spec (with_wbits (bits_val (pend ++ [b])) (zlen pend + 1) z) (bits_val (pend ++ [b])))
      as (z' & -> & H1 & H2 & H3 & H4 & H5 & H6 & H7); [done|cbn; lia|].
    exists z'. split; [done|]. split; [|exact H3]. split; [done|]. split; [by rewrite H2|].
    exists (full ++ [bits_val (pend ++ [b])]), []. cbn [back with_wbits] in *.
    assert (length (pend ++ [b]) = 8)%nat as Hl by (rewrite length_app; cbn [length]; lia).
    split; [by rewrite H4, Ho, app_assoc|]. split.
    { apply Forall_app. split; [done|]. apply Forall_singleton. pose proof (bits_val_bound (pend ++ [b])) as Hbd.
      rewrite Hl in Hbd. exact Hbd. }
    split; [by rewrite unpack_app, unpack_one, lsb_bits_val, app_nil_r, app_assoc|].
    split; [rewrite H5; zl|]. by split_and!; [cbn; lia|..].
  - eexists. split; [done|]. split; [|done]. split; [done|]. split; [done|].
    exists full, (pend ++ [b]). cbn. split; [done|]. split; [done|].
    split; [by rewrite app_assoc|]. split; [done|]. split; [rewrite length_app; cbn; lia|].
    split; [done|]. rewrite length_app. cbn. lia.
Qed.

Lemma write_bit_loop_spec base cap n e z bits v :
  writing base cap z bits → 0 ≤ e → zlen bits + Z.of_nat n ≤ 8 * cap →
  ∃ z', write_bit_loop n e z v = Ok z' ∧
    writing base cap z' (bits ++ map (λ k, Z.testbit v (Z.of_nat k)) (seq (Z.to_nat e) n)) ∧
    rbits z' = rbits z.
Proof.
  revert e z bits. induction n as [|n IH]; intros e z bits Hw He Hc.
  - exists z. cbn. by rewrite app_nil_r.
  - cbn [write_bit_loop]. destruct (write_bit_spec base cap z bits (Z.testbit v e) Hw)
      as (z1 & -> & H1 & H2); [lia|]. cbn [mbind exec_bind].
    destruct (IH (e + 1) z1 (bits ++ [Z.testbit v e]) H1) as (z2 & -> & H3 & H4); [lia|zl|].
    exists z2. split; [done|]. split; [|congruence]. cbn [seq map].
    rewrite <- app_assoc, Z2Nat.id in * by lia. replace (S (Z.to_nat e)) with (Z.to_nat (e + 1)) by lia. done.
Qed.

Lemma write_byte_spec base cap z bits v :
  writing base cap z bits → is_byte v → zlen bits + 8 ≤ 8 * cap →
  ∃ z', zcio_serial_write_byte z v = Ok z' ∧ writing base cap z' (bits ++ lsb_bits v) ∧ rbits z' = rbits z.
Proof.
  intros Hw Hv Hc. unfold zcio_serial_write_byte. pose proof Hw as (Hi & Hb & full & pend & Ho & Hf & -> & Hr & Hp & Hcur & Hn).
  rewrite Hb. cbn [andb]. bcase.
  - apply (write_bit_loop_spec base cap 8 0 z _ v Hw); lia.
  - assert (pend = []) as -> by (by rewrite Hn in *; apply mid_false).
    rewrite app_nil_r, length_unpack in Hc.
    destruct (put_byte_spec z v) as (z' & -> & H1 & H2 & H3 & H4 & H5 & H6 & H7); [done|lia|].
    exists z'. split; [done|]. split; [|done]. split; [done|]. split; [congruence|].
    exists (full ++ [v]), []. split; [by rewrite H4, Ho, app_assoc|].
    split; [apply Forall_app; auto with zcio|]. rewrite unpack_app, unpack_one, !app_nil_r.
    split; [done|]. split; [rewrite H5; zl|]. by split_and!; [cbn; lia|..].
Qed.

Lemma write_bits_loop_spec base cap bs z bits :
  writing base cap z bits → zlen bits + zlen bs ≤ 8 * cap →
  ∃ z', write_bits_loop z bs = Ok z' ∧ writing base cap z' (bits ++ map Z.odd bs) ∧ rbits z' = rbits z.
Proof.
  revert z bits. induction bs as [|b bs IH]; intros z bits Hw Hc.
  - exists z. cbn. by rewrite app_nil_r.
  - cbn [write_bits_loop]. destruct (write_bit_spec base cap z bits (Z.odd b) Hw)
      as (z1 & -> & H1 & H2); [cbn [length] in *; lia|]. cbn [mbind exec_bind].
    destruct (IH z1 (bits ++ [Z.odd b]) H1) as (z2 & -> & H3 & H4); [zlen_simpl; cbn [length] in *; lia|].
    exists z2. rewrite <- app_assoc in H3. split; [done|]. split; [done|congruence].
Qed.

Lemma write_ops_spec base cap ops z bits :
  writing base cap z bits → Forall bop_ok ops → zlen bits + zlen (ops_bits ops) ≤ 8 * cap →
  ∃ z', write_ops z ops = Ok z' ∧ writing base cap z' (bits ++ ops_bits ops) ∧ rbits z' = rbits z.
Proof.
  revert z bits. induction ops as [|o ops IH]; intros z bits Hw Ho Hc.
  - exists z. cbn. by rewrite app_nil_r.
  - apply Forall_cons_1 in Ho as [Ho Hos]. unfold ops_bits in *. cbn [map concat write_ops] in *.
    rewrite length_app in Hc.
    assert (∃ z', write_op z o = Ok z' ∧ writing base cap z' (bits ++ op_bits o) ∧ rbits z' = rbits z)
      as (z1 & -> & H1 & H2).
    { destruct o as [b|v|bs]; cbn [write_op op_bits] in *.
      - apply write_bit_spec; [done|cbn in Hc; lia].
      - apply write_byte_spec; [done|done|rewrite length_lsb_bits in Hc; lia].
      - unfold zcio_serial_write_bits. rewrite (proj1 (proj2 Hw)). cbn [negb].
        rewrite mem_read_ok, slice_all by lia. cbn [mbind exec_bind].
        apply write_bits_loop_spec; [done|]. rewrite length_map in Hc. lia. }
    cbn [mbind exec_bind]. destruct (IH z1 _ H1 Hos) as (z2 & -> & H3 & H4); [zl|].
    exists z2. rewrite <- app_assoc in H3. split; [done|]. split; [done|congruence].
Qed.

Lemma synchronize_spec base cap z bits :
  writing base cap z bits → zlen bits ≤ 8 * cap →
  ∃ z' s, zcio_serial_synchronize z = Ok z' ∧ out (back z') = base ++ s ∧ packs s bits ∧
    inv (back z') ∧ bit_stream z' = true ∧ rbits z' = rbits z.
Proof.
  intros (Hi & Hb & full & pend & Ho & Hf & -> & Hc & Hp & Hcur & Hn) Hl.
  rewrite length_app, length_unpack in Hl. unfold zcio_serial_synchronize. rewrite Hcur, Hn. bcase.
  - unfold mid in *. btest. rewrite write_bit_flushes.
    destruct (put_byte_spec (with_wbits (bits_val pend) 8 z) (bits_val pend))
      as (z' & -> & H1 & H2 & H3 & H4 & H5 & H6 & H7); [done|cbn; lia|]. cbn [mbind exec_bind].
    destruct (back_flush (back z') H1) as (G1 & G2 & G3).
    eexists _, (full ++ [bits_val pend]). split; [done|]. cbn [back with_back]. rewrite G2, H4. cbn [back with_wbits].
    rewrite Ho, app_assoc. split; [done|].
    split; [|split; [exact G1|]; split; [exact (eq_trans H2 Hb)|exact H3]].
    assert (bits_val pend < 256 ∧ lsb_bits (bits_val pend) = pend ++ replicate (8 - length pend) false) as [E1 E2].
    { split.
      - pose proof (bits_val_bound pend). assert (2 ^ zlen pend ≤ 2 ^ 8) by (apply Z.pow_le_mono_r; lia). lia.
      - rewrite <- (bits_val_zeros pend (8 - length pend)). apply lsb_bits_val. zl. }
    split. { apply Forall_app. split; [done|]. apply Forall_singleton. pose proof (bits_val_bound pend). unfold is_byte. lia. }
    exists (8 - length pend)%nat. split; [lia|]. rewrite unpack_app, unpack_one, E2. by rewrite app_assoc.
  - assert (pend = []) as -> by (by apply mid_false). cbn [mbind exec_bind].
    destruct (back_flush (back z) Hi) as (G1 & G2 & G3).
    eexists _, full. split; [done|]. cbn [back with_back]. rewrite G2, Ho. split; [done|]. split; [|by split].
    split; [done|]. exists 0%nat. split; [lia|]. by rewrite !app_nil_r.
Qed.
End Writer.

(** ** The bit reader *)

(** The read that undoes a write of [o]. *)
Definition read_op {C} (z : zcio_serial C) (o : bop) : exec (bop * zcio_serial C) :=
  match o with
  | WBit _ => '(b, z) ← zcio_serial_read_bit z; Ok (WBit b, z)
  | WByte _ => '(v, z) ← zcio_serial_read_byte z; Ok (WByte v, z)
  | WBits bs => '(d, z) ← zcio_serial_read_bits z (replicate (length bs) 0) 0 (zlen bs); Ok (WBits d, z)
  end.
Fixpoint read_ops {C} (z : zcio_serial C) (ops : list bop) : exec (list bop * zcio_serial C) :=
  match ops with
  | [] => Ok ([], z)
  | o :: ops => '(o, z) ← read_op z o; '(os, z) ← read_ops z ops; Ok (o :: os, z)
  end.

Section Reader.
Context {C : Type} {inv : backing C → Prop} {rem : backing C → bytes}.
Context `{!BackSource inv rem}.
Abbreviation serial := (zcio_serial C).

(** [bits] are still to be read. *)
Definition reading (z : serial) (bits : list bool) : Prop :=
  inv (back z) ∧ bit_stream z = true ∧ is_bytes (rem (back z)) ∧
  (((bits_read z = 0 ∨ bits_read z = 8) ∧ bits = unpack (rem (back z))) ∨
   (0 < bits_read z < 8 ∧
    bits = zdrop (bits_read z) (lsb_bits (cur_read_byte z)) ++ unpack (rem (back z)))).

Lemma fetch_spec (z : serial) b rest :
  inv (back z) → rem (back z) = b :: rest →
  ∃ z', fetch z = Ok (b, z') ∧ inv (back z') ∧ rem (back z') = rest ∧ bit_stream z' = bit_stream z.
Proof.
  intros Hi Hr. unfold fetch. destruct (back_read z 1 Hi) as (k & e1 & e2 & e3 & -> & H1 & H2);
    [rewrite Hr; cbn [length]; lia|].
  rewrite Hr in *. cbn [mbind exec_bind]. eexists. split; [done|]. done.
Qed.

Lemma unpack_cons b s : unpack (b :: s) = lsb_bits b ++ unpack s.
Proof. done. Qed.

Lemma lsb_bits_first b : lsb_bits b = Z.testbit b 0 :: drop 1 (lsb_bits b).
Proof. done. Qed.

(** The end of [read_bit], once the current byte has a bit left. *)
Lemma take_bit (z : serial) k :
  0 ≤ k < 8 → zdrop k (lsb_bits (cur_read_byte z)) =
    Z.testbit (cur_read_byte z) k :: zdrop (k + 1) (lsb_bits (cur_read_byte z)).
Proof.
  intros. rewrite lsb_bits_split by lia. rewrite Z2Nat.id by lia. do 2 f_equal. lia.
Qed.

Lemma read_bit_spec z b bits :
  reading z (b :: bits) → ∃ z', zcio_serial_read_bit z = Ok (b, z') ∧ reading z' bits.
Proof.
  intros (Hi & Hb & Hr & [[Hn Hbits]|[Hn Hbits]]); unfold zcio_serial_read_bit.
  - rewrite (proj2 (orb_true_iff _ _)) by (rewrite !Z.eqb_eq; done).
    destruct (rem (back z)) as [|v rest] eqn:E; [done|]. rewrite unpack_cons in Hbits.
    destruct (fetch_spec z v rest Hi E) as (z' & -> & H1 & H2 & H3). cbn [mbind exec_bind].
    rewrite lsb_bits_first in Hbits. cbn [app] in Hbits. injection Hbits as Hb1 Hb2. subst b bits.
    apply Forall_cons_1 in Hr as [_ Hr].
    eexists. split; [done|]. split; [done|]. split; [by cbn; rewrite H3|]. cbn [back with_rbits].
    rewrite H2. split; [done|]. right. cbn. split; [lia|done].
  - rewrite (proj2 (orb_false_iff _ _)) by (rewrite !Z.eqb_neq; lia). cbn [mbind exec_bind].
    rewrite take_bit in Hbits by lia. cbn [app] in Hbits. injection Hbits as Hb1 Hb2. subst b.
    eexists. split; [done|]. split; [done|]. split; [done|]. split; [done|]. cbn.
    destruct (decide (bits_read z = 7)) as [E|E].
    + left. split; [lia|]. rewrite Hb2, E. done.
    + right. split; [lia|done].
Qed.

Lemma read_bits_loop_spec n z bs bits :
  length bs = n → Forall (λ b, b = 0 ∨ b = 1) bs → reading z (map Z.odd bs ++ bits) →
  ∃ z', read_bits_loop n z = Ok (bs, z') ∧ reading z' bits.
Proof.
  revert z bs. induction n as [|n IH]; intros z [|b bs] Hl Hf Hr; try done.
  - by exists z.
  - apply Forall_cons_1 in Hf as [Hb Hf]. cbn [map app] in Hr. cbn [read_bits_loop].
    destruct (read_bit_spec z _ _ Hr) as (z1 & -> & H1). cbn [mbind exec_bind].
    destruct (IH z1 bs) as (z2 & -> & H2); [by injection Hl|done|done|]. exists z2.
    cbn. split; [|done]. do 3 f_equal. by destruct Hb as [-> | ->].
Qed.

Lemma read_bit_loop_spec n l bits z (b : list bool) :
  length l = n → (length b + n = 8)%nat → reading z (l ++ bits) →
  ∃ z', read_bit_loop n (zlen b) z (bits_val b) = Ok (bits_val (b ++ l), z') ∧ reading z' bits.
Proof.
  revert z b l. induction n as [|n IH]; intros z b [|x l] Hl Hb Hr; try done.
  - exists z. by rewrite app_nil_r.
  - cbn [read_bit_loop]. destruct (read_bit_spec z x _ Hr) as (z1 & -> & H1). cbn [mbind exec_bind].
    rewrite u8_next, lor_next by lia.
    destruct (IH z1 (b ++ [x]) l) as (z2 & E & H2); [by injection Hl|zl|done|].
    exists z2. split; [|done]. rewrite <- app_assoc in E. cbn [app] in E. rewrite <- E. f_equal. zl.
Qed.

Lemma read_byte_spec z v bits :
  is_byte v → reading z (lsb_bits v ++ bits) →
  ∃ z', zcio_serial_read_byte z = Ok (v, z') ∧ reading z' bits.
Proof.
  intros Hv Hr. unfold zcio_serial_read_byte. rewrite (proj1 (proj2 Hr)). cbn [andb]. bcase.
  - destruct (read_bit_loop_spec 8 (lsb_bits v) bits z []) as (z' & E & H'); [done|done|done|].
    exists z'. split; [|done]. rewrite (bits_val_lsb v Hv : bits_val ([] ++ lsb_bits v) = v) in E. exact E.
  - pose proof Hr as (Hi & Hb & Hbs & [[Hn Hbits]|[Hn Hbits]]); [|unfold mid in *; lia].
    destruct (rem (back z)) as [|w rest] eqn:E; [done|].
    rewrite unpack_cons in Hbits. apply app_inj_1 in Hbits as [H1 ->]; [|by rewrite !length_lsb_bits].
    apply Forall_cons_1 in Hbs as [Hw Hbs].
    assert (w = v) as -> by (by rewrite <- (bits_val_lsb v Hv), H1, bits_val_lsb).
    destruct (fetch_spec z v rest Hi E) as (z' & -> & G1 & G2 & G3). cbn [mbind exec_bind].
    eexists. split; [done|]. split; [done|]. split; [by cbn; rewrite G3|]. cbn [back with_rbits].
    rewrite G2. split; [done|]. left. split; [by left|done].
Qed.

Lemma read_ops_spec ops z bits :
  Forall bop_ok ops → reading z (ops_bits ops ++ bits) →
  ∃ z', read_ops z ops = Ok (ops, z') ∧ reading z' bits.
Proof.
  revert z. induction ops as [|o ops IH]; intros z Ho Hr; [by exists z|].
  apply Forall_cons_1 in Ho as [Ho Hos]. unfold ops_bits in *. cbn [map concat] in Hr.
  rewrite <- app_assoc in Hr. cbn [read_ops].
  assert (∃ z', read_op z o = Ok (o, z') ∧ reading z' (concat (map op_bits ops) ++ bits)) as (z1 & -> & H1).
  { destruct o as [b|v|bs]; cbn [read_op op_bits] in *.
    - destruct (read_bit_spec z _ _ Hr) as (z' & -> & H'). by exists z'.
    - destruct (read_byte_spec z _ _ Ho Hr) as (z' & -> & H'). by exists z'.
    - unfold zcio_serial_read_bits. rewrite (proj1 (proj2 Hr)), Nat2Z.id. cbn [negb].
      destruct (read_bits_loop_spec _ z bs _ eq_refl Ho Hr) as (z' & -> & H'). cbn [mbind exec_bind].
      exists z'. split; [|done].
      rewrite <- (app_nil_r (replicate _ _)), <- (app_nil_l (replicate _ _ ++ _)).
      rewrite mem_write_at by (done || zl). cbn. by rewrite app_nil_r. }
  cbn [mbind exec_bind]. destruct (IH z1 Hos H1) as (z2 & -> & H2). by exists z2.
Qed.
End Reader.

(** ** Typed values *)

Inductive value := VScalar (t : scalar) (v : Z) | VStr (s : bytes).

Definition scalar_ok (t : scalar) (v : Z) : Prop :=
  let w := 8 * Z.of_nat (scalar_size t) in
  if scalar_signed t then - 2 ^ (w - 1) ≤ v < 2 ^ (w - 1) else 0 ≤ v < 2 ^ w.

Definition value_ok `{Allocator} (v : value) : Prop :=
  match v with
  | VScalar t v => scalar_ok t v
  | VStr s => zlen s ≤ STREAM_READ_CAP ∧ alloc_ok (zlen s + 1) = true
  end.

Definition encode (v : value) : bytes :=
  match v with
  | VScalar t v => le_bytes (scalar_size t) v
  | VStr s => le_bytes 8 (zlen s) ++ s
  end.
Definition encode_all (vs : list value) : bytes := concat (map encode vs).

Definition write_value {C} (z : zcio_serial C) (v : value) : exec (zcio_serial C) :=
  match v with
  | VScalar t v => zcio_serial_write_scalar t z v
  | VStr s => zcio_serial_write_str z s
  end.
Fixpoint write_values {C} (z : zcio_serial C) (vs : list value) : exec (zcio_serial C) :=
  match vs with [] => Ok z | v :: vs => z ← write_value z v; write_values z vs end.

(** Reading back a value of the same type; [None] when a string is refused. *)
Definition read_value `{Allocator} {C} (z : zcio_serial C) (v : value)
  : exec (option value * zcio_serial C) :=
  match v with
  | VScalar t _ => '(v, z) ← zcio_serial_read_scalar t z; Ok (Some (VScalar t v), z)
  | VStr _ => '(s, z) ← zcio_serial_read_str z; Ok (option_map VStr s, z)
  end.
Fixpoint read_values `{Allocator} {C} (z : zcio_serial C) (vs : list value)
  : exec (list (option value) * zcio_serial C) :=
  match vs with
  | [] => Ok ([], z)
  | v :: vs => '(v, z) ← read_value z v; '(vs, z) ← read_values z vs; Ok (v :: vs, z)
  end.

Lemma scalar_size_bound t : (1 ≤ scalar_size t ≤ 8)%nat.
Proof. destruct t; cbn; lia. Qed.

Lemma scalar_bits_roundtrip t v : scalar_ok t v →
  scalar_of_bits t (le_val (le_bytes (scalar_size t) v)) = v.
Proof.
  intros Hv. rewrite <- le_bytes_mod, le_val_bytes by (apply Z.mod_pos_bound; lia).
  unfold scalar_of_bits, scalar_ok in *. change 256 with (2 ^ 8). rewrite <- Z.pow_mul_r by lia.
  pose proof (scalar_size_bound t) as Hs. set (w := 8 * Z.of_nat (scalar_size t)) in *.
  assert (2 ^ w = 2 * 2 ^ (w - 1)) as Hw by (rewrite <- Z.pow_succ_r by lia; f_equal; lia).
  assert (0 < 2 ^ (w - 1)) by (apply Z.pow_pos_nonneg; lia).
  destruct (scalar_signed t); cbn [andb]; [|apply Z.mod_small; done].
  destruct (decide (0 ≤ v)).
  - rewrite Z.mod_small by lia. bcase; lia.
  - replace (v mod 2 ^ w) with (v + 2 ^ w) by (apply Z.mod_unique with (-1); lia). bcase; lia.
Qed.

Section WriteValues.
Context {C : Type} {inv : backing C → Prop} {out : backing C → bytes} {room : backing C → Z}.
Context `{!BackSink inv out room}.

Definition wrote (z z' : zcio_serial C) (s : bytes) : Prop :=
  inv (back z') ∧ bit_stream z' = false ∧ out (back z') = out (back z) ++ s ∧
  room (back z') = room (back z) - zlen s.

Lemma write_bytes_spec z s :
  inv (back z) → bit_stream z = false → zlen s ≤ room (back z) →
  ∃ z', zcio_serial_write_bytes z s = Ok (zlen s, z') ∧ wrote z z' s.
Proof.
  intros Hi Hb Hs. unfold zcio_serial_write_bytes. rewrite Hb. cbn [andb].
  destruct (back_write z s Hi Hs) as (b & -> & H1 & H2 & H3). eexists. split; [done|]. done.
Qed.

Lemma write_value_spec z v :
  inv (back z) → bit_stream z = false → zlen (encode v) ≤ room (back z) →
  ∃ z', write_value z v = Ok z' ∧ wrote z z' (encode v).
Proof.
  intros Hi Hb Hs. destruct v as [t v|s]; cbn [write_value encode] in *.
  - unfold zcio_serial_write_scalar. destruct (write_bytes_spec z _ Hi Hb Hs) as (z' & -> & Hw). by exists z'.
  - unfold zcio_serial_write_str. rewrite length_app in Hs.
    destruct (write_bytes_spec z (le_bytes 8 (zlen s)) Hi Hb) as (z1 & -> & H1 & H2 & H3 & H4); [lia|].
    cbn [mbind exec_bind]. bcase.
    + exists z1. split; [done|]. destruct s; [|done]. by rewrite app_nil_r.
    + destruct (write_bytes_spec z1 s H1 H2) as (z2 & -> & G1 & G2 & G3 & G4); [lia|].
      exists z2. split; [done|]. split; [done|]. split; [done|].
      rewrite G3, G4, H3, H4, app_assoc. split; [done|]. zl.
Qed.

Lemma write_values_spec vs z :
  inv (back z) → bit_stream z = false → zlen (encode_all vs) ≤ room (back z) →
  ∃ z', write_values z vs = Ok z' ∧ wrote z z' (encode_all vs).
Proof.
  unfold encode_all. revert z. induction vs as [|v vs IH]; intros z Hi Hb Hs.
  - exists z. split; [done|]. split; [done|]. split; [done|]. cbn. rewrite app_nil_r. split; [done|lia].
  - cbn [map concat write_values] in *. rewrite length_app in Hs.
    destruct (write_value_spec z v Hi Hb) as (z1 & -> & H1 & H2 & H3 & H4); [lia|].
    cbn [mbind exec_bind]. destruct (IH z1 H1 H2) as (z2 & -> & G1 & G2 & G3 & G4); [lia|].
    exists z2. split; [done|]. split; [done|]. split; [done|].
    rewrite G3, G4, H3, H4, app_assoc. split; [done|]. zl.
Qed.
End WriteValues.

(** In count mode the same writes only move the totals. *)
Definition counted {C} (n : Z) (z : zcio_serial C) : zcio_serial C :=
  match back z with
  | MODE_COUNT t w r => with_back (MODE_COUNT (u64 (t + n)) (u64 (w + n)) r) z
  | _ => z
  end.

Definition counting {C} (z : zcio_serial C) : Prop :=
  match back z with
  | MODE_COUNT t w r => 0 ≤ t < 2 ^ 64 ∧ 0 ≤ w < 2 ^ 64
  | _ => False
  end.

Lemma counted_counted {C} n m (z : zcio_serial C) : counted m (counted n z) = counted (n + m) z.
Proof.
  unfold counted. destruct (back z) as [| t w r|] eqn:E; cbn; rewrite ?E; [done| |done]. cbn.
  unfold with_back. do 2 f_equal; unfold wrap; rewrite Zplus_mod_idemp_l; f_equal; lia.
Qed.

Lemma counted_counting {C} n (z : zcio_serial C) :
  counting z → counting (counted n z).
Proof. unfold counting, counted. destruct (back z); [done| |done]. cbn. intros _. split; by apply wrap_bound. Qed.

Lemma count_bytes {C} (z : zcio_serial C) s : counting z →
  ∃ r, zcio_serial_write_bytes z s = Ok (r, counted (zlen s) z).
Proof.
  intros Hc. unfold zcio_serial_write_bytes, raw_write, counted, is_stream, counting in *.
  destruct (back z) as [| t w r|]; try done. rewrite andb_false_r. by eexists.
Qed.

Lemma count_values {C} vs (z : zcio_serial C) : counting z →
  write_values z vs = Ok (counted (zlen (encode_all vs)) z).
Proof.
  unfold encode_all. revert z. induction vs as [|v vs IH]; intros z Hc.
  - cbn. f_equal. unfold counted, counting in *. destruct (back z) as [| t w r|] eqn:E; try done.
    rewrite !Z.add_0_r, !wrap_small by lia. unfold with_back. rewrite <- E. by destruct z.
  - cbn [map concat write_values]. rewrite length_app, Nat2Z.inj_add.
    assert (write_value z v = Ok (counted (zlen (encode v)) z)) as ->.
    { destruct v as [t v|s]; cbn [write_value encode].
      - unfold zcio_serial_write_scalar. by destruct (count_bytes z (le_bytes (scalar_size t) v) Hc) as [r ->].
      - unfold zcio_serial_write_str. destruct (count_bytes z (le_bytes 8 (zlen s)) Hc) as [r ->].
        cbn [mbind exec_bind]. rewrite length_app, Nat2Z.inj_add. bcase; [by rewrite Heqb, Z.add_0_r|].
        destruct (count_bytes (counted (zlen (le_bytes 8 (zlen s))) z) s) as [r' ->]; [by apply counted_counting|].
        cbn [mbind exec_bind]. by rewrite counted_counted. }
    cbn [mbind exec_bind]. rewrite IH by (by apply counted_counting). by rewrite counted_counted.
Qed.

Section ReadValues.
Context `{Allocator} {C : Type} {inv : backing C → Prop} {rem : backing C → bytes}.
Context `{!BackSource inv rem}.

Lemma read_bytes_spec (z : zcio_serial C) s rest :
  inv (back z) → bit_stream z = false → rem (back z) = s ++ rest →
  ∃ z', zcio_serial_read_bytes z (zlen s) = Ok (zlen s, s, z') ∧
    inv (back z') ∧ bit_stream z' = false ∧ rem (back z') = rest.
Proof.
  intros Hi Hb Hr. unfold zcio_serial_read_bytes. rewrite Hb. cbn [andb].
  destruct (back_read z (zlen s) Hi) as (b & e1 & e2 & e3 & -> & H1 & H2); [rewrite Hr; zl|].
  rewrite Hr, zdrop_app_zlen in H2 by done. rewrite Hr, ztake_app_zlen by done.
  eexists. split; [done|]. done.
Qed.

Lemma read_str_spec (z : zcio_serial C) s rest :
  inv (back z) → bit_stream z = false → rem (back z) = le_bytes 8 (zlen s) ++ s ++ rest →
  zlen s ≤ STREAM_READ_CAP → alloc_ok (zlen s + 1) = true →
  ∃ z', zcio_serial_read_str z = Ok (Some s, z') ∧
    inv (back z') ∧ bit_stream z' = false ∧ rem (back z') = rest.
Proof.
  intros Hi Hb Hr Hcap Ha. unfold zcio_serial_read_str.
  destruct (read_bytes_spec z _ _ Hi Hb Hr) as (z1 & E & H1 & H2 & H3).
  rewrite length_le_bytes in E. change (Z.of_nat 8) with 8 in E. rewrite E. cbn [mbind exec_bind].
  rewrite length_le_bytes. cbn [Nat.sub replicate]. rewrite app_nil_r.
  unfold STREAM_READ_CAP, UINT64_MAX in *.
  rewrite le_val_bytes by (change (256 ^ Z.of_nat 8) with (2 ^ 64); lia).
  cbn [Z.eqb negb Pos.eqb]. bcase; [lia|].
  rewrite (back_str z1 (zlen s) H1) by (unfold STREAM_READ_CAP; rewrite ?H3; zl).
  cbn [mbind exec_bind negb]. unfold malloc. rewrite Ha. bcase.
  - destruct (read_bytes_spec z1 s rest H1 H2 H3) as (z2 & -> & G1 & G2 & G3). cbn [mbind exec_bind].
    bcase; [lia|]. bcase; [lia|]. rewrite ztake_app_zlen by done. by exists z2.
  - assert (s = []) as -> by (destruct s; [done|cbn in *; lia]). by exists z1.
Qed.

Lemma read_values_spec vs (z : zcio_serial C) rest :
  inv (back z) → bit_stream z = false → rem (back z) = encode_all vs ++ rest → Forall value_ok vs →
  ∃ z', read_values z vs = Ok (map Some vs, z') ∧ inv (back z') ∧ rem (back z') = rest.
Proof.
  unfold encode_all. revert z. induction vs as [|v vs IH]; intros z Hi Hb Hr Hv; [by exists z|].
  apply Forall_cons_1 in Hv as [Hv Hvs]. cbn [map concat read_values] in *. rewrite <- app_assoc in Hr.
  assert (∃ z', read_value z v = Ok (Some v, z') ∧ inv (back z') ∧ bit_stream z' = false ∧
    rem (back z') = concat (map encode vs) ++ rest) as (z1 & -> & H1 & H2 & H3).
  { destruct v as [t v|s]; cbn [read_value encode value_ok] in *.
    - unfold zcio_serial_read_scalar. destruct (read_bytes_spec z _ _ Hi Hb Hr) as (z1 & E & H1 & H2 & H3).
      rewrite length_le_bytes in E. rewrite E. cbn [mbind exec_bind].
      rewrite length_le_bytes, Nat.sub_diag. cbn [replicate]. rewrite app_nil_r, scalar_bits_roundtrip by done.
      by exists z1.
    - rewrite <- app_assoc in Hr. destruct Hv as [Hc Ha].
      destruct (read_str_spec z s _ Hi Hb Hr Hc Ha) as (z1 & -> & H1 & H2 & H3). by exists z1. }
  cbn [mbind exec_bind]. destruct (IH z1 H1 H2 H3 Hvs) as (z2 & -> & G1 & G2). by exists z2.
Qed.
End ReadValues.

(** ** Properties *)

(** Whatever mix of bits, bytes and bit arrays is written to a bit
    stream over any backing that has room, after [zcio_serial_synchronize] the
    backing holds exactly their bits, packed least significant first and
    padded with zeros to a byte; and reading the same mix from any backing
    that starts with those bytes gives back the values written. *)
Theorem serial_bits_roundtrip {C D} (inv1 : backing C → Prop) out room (inv2 : backing D → Prop) rem
  (Hsink : BackSink inv1 out room) (Hsrc : BackSource inv2 rem) z ops
  (Hi : inv1 (back z)) (Hb : bit_stream z = true)
  (Hfresh : cur_write_byte z = 0 ∧ bits_written z = 0) (Hok : Forall bop_ok ops)
  (Hroom : zlen (ops_bits ops) ≤ 8 * room (back z)) :
  ∃ z1 z2 s, write_ops z ops = Ok z1 ∧ zcio_serial_synchronize z1 = Ok z2 ∧
    out (back z2) = out (back z) ++ s ∧ packs s (ops_bits ops) ∧
    ∀ (y : zcio_serial D) rest, inv2 (back y) → bit_stream y = true → bits_read y = 8 →
      is_bytes rest → rem (back y) = s ++ rest → ∃ y', read_ops y ops = Ok (ops, y').
Proof.
  destruct Hfresh as [Hc Hn].
  destruct (write_ops_spec (inv := inv1) (out (back z)) (room (back z)) ops z []) as (z1 & E1 & H1 & _); [|done|done|].
  { split; [done|]. split; [done|]. exists [], []. rewrite app_nil_r. cbn. ands. }
  destruct (synchronize_spec _ _ z1 _ H1) as (z2 & s & E2 & Ho & Hs & _); [done|].
  exists z1, z2, s. do 4 (split; [done|]). intros y rest Hy Hyb Hy8 Hrest Hr.
  destruct Hs as [Hsb (k & _ & Hk)].
  destruct (read_ops_spec (inv := inv2) ops y (replicate k false ++ unpack rest) Hok) as (y' & E & _); [|by exists y'].
  split; [done|]. split; [done|]. rewrite Hr. split; [by apply Forall_app|]. left. split; [by right|].
  by rewrite unpack_app, Hk, app_assoc.
Qed.

(** Typed values (8 to 64-bit integers of either sign, floats as bit
    patterns, length-prefixed strings) written to any backing with room are
    laid out as their encodings one after the other, and reading values of the
    same types from any backing that starts with those bytes returns exactly
    the values, and leaves what follows. *)
Theorem serial_values_roundtrip {C D} `{Allocator} (inv1 : backing C → Prop) out room
  (inv2 : backing D → Prop) rem (Hsink : BackSink inv1 out room) (Hsrc : BackSource inv2 rem)
  z vs (Hi : inv1 (back z)) (Hb : bit_stream z = false) (Hv : Forall value_ok vs)
  (Hroom : zlen (encode_all vs) ≤ room (back z)) :
  ∃ z', write_values z vs = Ok z' ∧ out (back z') = out (back z) ++ encode_all vs ∧
    ∀ (y : zcio_serial D) rest, inv2 (back y) → bit_stream y = false →
      rem (back y) = encode_all vs ++ rest →
      ∃ y', read_values y vs = Ok (map Some vs, y') ∧ rem (back y') = rest.
Proof.
  destruct (write_values_spec vs z Hi Hb Hroom) as (z' & E & _ & _ & Ho & _).
  exists z'. split; [done|]. split; [done|]. intros y rest Hy Hyb Hr.
  destruct (read_values_spec vs y rest Hy Hyb Hr Hv) as (y' & Ey & _ & Hrest). by exists y'.
Qed.

(** The sizing pass is exact for byte streams: the writes that fill a
    backing add to a counting serializer precisely the number of bytes the
    backing received (modulo [2 ^ 64]). *)
Theorem serial_count_exact {C D} (inv1 : backing C → Prop) out room (Hsink : BackSink inv1 out room)
  z vs (zc : zcio_serial D) t w r (Hi : inv1 (back z)) (Hb : bit_stream z = false)
  (Hroom : zlen (encode_all vs) ≤ room (back z))
  (Hc : back zc = MODE_COUNT t w r) (Ht : 0 ≤ t < 2 ^ 64 ∧ 0 ≤ w < 2 ^ 64) :
  ∃ z' zc' n, write_values z vs = Ok z' ∧ write_values zc vs = Ok zc' ∧
    zlen (out (back z')) = zlen (out (back z)) + n ∧
    back zc' = MODE_COUNT (u64 (t + n)) (u64 (w + n)) r.
Proof.
  destruct (write_values_spec vs z Hi Hb Hroom) as (z' & E & _ & _ & Ho & _).
  exists z', (counted (zlen (encode_all vs)) zc), (zlen (encode_all vs)). split; [done|].
  split; [apply count_values; unfold counting; by rewrite Hc|]. rewrite Ho.
  split; [zl|]. unfold counted. by rewrite Hc.
Qed.

(** [zcio_serial_set_write_pos] does not check its argument: once the
    cursor of a block is past its end, the remaining capacity wraps around and
    the next write of at least one byte leaves the block. *)
Theorem serial_set_pos_unsafe {C} (z : zcio_serial C) buf size rp wp i s
  (Hb : back z = MODE_BUFFER buf size rp wp) (Hbits : bit_stream z = false)
  (Hsize : zlen buf = size) (Hi : size < i < 2 ^ 63) (Hs : 0 < zlen s < 2 ^ 63) :
  (z ← zcio_serial_set_write_pos z i; zcio_serial_write_bytes z s) = Fault.
Proof.
  unfold zcio_serial_set_write_pos. rewrite Hb, i64_small by lia. cbn [mbind exec_bind].
  unfold zcio_serial_write_bytes, raw_write. cbn [bit_stream with_back back]. rewrite Hbits. cbn [andb].
  replace (u64 (size - i)) with (size - i + 2 ^ 64) by (apply Z.mod_unique with (-1); lia).
  bcase; [lia|]. unfold mem_write. rewrite bool_decide_false by lia. done.
Qed.

(** ** Witnesses *)

Definition ex_serial (bits : bool) (m : bytes) (wp : Z) : zcio_serial unit :=
  mk_serial (MODE_BUFFER m (zlen m) 0 wp) bits 0 8 0 0 false false false 0.

Definition ex_ops : list bop := [WBit true; WByte 200; WBits [0; 1; 1]; WByte 7].

Lemma ex_ops_ok : Forall bop_ok ex_ops.
Proof. repeat apply Forall_cons_2; cbn; unfold is_byte; try lia; repeat apply Forall_cons_2; auto. Qed.

Lemma serial_bits_roundtrip_witness :
  ∃ z1 z2, write_ops (ex_serial true [0; 0; 0; 9] 0) ex_ops = Ok z1 ∧
    zcio_serial_synchronize z1 = Ok z2 ∧ block_out (back z2) = [145; 125; 0] ∧
    ∃ y', read_ops (ex_serial true [145; 125; 0; 9] 0) ex_ops = Ok (ex_ops, y').
Proof.
  destruct (serial_bits_roundtrip (C := unit) (D := unit) (block_at 0) block_out block_room block_wf block_rem
    (block_sink 0) block_source (ex_serial true [0; 0; 0; 9] 0) ex_ops)
    as (z1 & z2 & s & E1 & E2 & Ho & Hs & Hr).
  - split; [|reflexivity]. vm_compute. repeat split; (reflexivity || discriminate).
  - reflexivity.
  - split; reflexivity.
  - apply ex_ops_ok.
  - vm_compute. discriminate.
  - exists z1, z2. split; [exact E1|]. split; [exact E2|].
    vm_compute in E1. injection E1 as <-. vm_compute in E2. injection E2 as <-.
    vm_compute in Ho. subst s. split; [reflexivity|].
    apply (Hr (ex_serial true [145; 125; 0; 9] 0) [9]); try reflexivity.
    + vm_compute. repeat split; (reflexivity || discriminate).
    + repeat constructor; vm_compute; (reflexivity || discriminate).
Defined.

Definition ex_values : list value := [VScalar I16 (-2); VStr [104; 105]; VScalar U8 255].

Lemma ex_values_ok : Forall (@value_ok always_alloc) ex_values.
Proof. repeat constructor; vm_compute; (reflexivity || discriminate). Qed.

Lemma serial_values_roundtrip_witness :
  ∃ z', write_values (ex_serial false (replicate 13 0) 0) ex_values = Ok z' ∧
    block_out (back z') = [254; 255; 2; 0; 0; 0; 0; 0; 0; 0; 104; 105; 255] ∧
    ∃ y', @read_values always_alloc _ (ex_serial false [254; 255; 2; 0; 0; 0; 0; 0; 0; 0; 104; 105; 255] 0)
      ex_values = Ok (map Some ex_values, y').
Proof.
  destruct (@serial_values_roundtrip unit unit always_alloc (block_at 0) block_out block_room block_wf block_rem
    (block_sink 0) block_source (ex_serial false (replicate 13 0) 0) ex_values)
    as (z' & E & Ho & Hr).
  - split; [|reflexivity]. vm_compute. repeat split; (reflexivity || discriminate).
  - reflexivity.
  - apply ex_values_ok.
  - vm_compute. discriminate.
  - exists z'. split; [exact E|]. vm_compute in E. injection E as <-. split; [reflexivity|].
    destruct (Hr (ex_serial false [254; 255; 2; 0; 0; 0; 0; 0; 0; 0; 104; 105; 255] 0) [])
      as (y' & Ey & _); try reflexivity; [|by exists y'].
    vm_compute. repeat split; (reflexivity || discriminate).
Defined.

Lemma serial_count_exact_witness :
  ∃ zc', write_values (mk_serial (C := unit) (MODE_COUNT 0 0 0) false 0 8 0 0 false false false 0) ex_values = Ok zc' ∧
    back zc' = MODE_COUNT 13 13 0.
Proof.
  destruct (serial_count_exact (C := unit) (D := unit) (block_at 0) block_out block_room (block_sink 0)
    (ex_serial false (replicate 13 0) 0) ex_values
    (mk_serial (MODE_COUNT 0 0 0) false 0 8 0 0 false false false 0) 0 0 0)
    as (z' & zc' & n & E & Ec & Hn & Hb).
  - split; [|reflexivity]. vm_compute. repeat split; (reflexivity || discriminate).
  - reflexivity.
  - vm_compute. discriminate.
  - reflexivity.
  - lia.
  - exists zc'. split; [exact Ec|]. vm_compute in E. injection E as <-. vm_compute in Hn.
    assert (n = 13) as -> by lia. exact Hb.
Defined.

Lemma serial_set_pos_unsafe_witness :
  (z ← zcio_serial_set_write_pos (ex_serial false [0; 0] 0) 3; zcio_serial_write_bytes z [1]) = Fault.
Proof.
  apply (serial_set_pos_unsafe (ex_serial false [0; 0] 0) [0; 0] 2 0 0 3 [1]); [reflexivity|reflexivity|reflexivity|lia|].
  vm_compute. split; reflexivity.
Defined.

(** The sizing pass is not exact for bit streams: a counting serializer is
    never a bit stream, so a byte after a bit replaces the pending bit. *)
Example count_mode_misses_bits :
  (∃ z, (z ← write_ops (ex_serial true [0; 0] 0) [WBit true; WByte 255]; zcio_serial_synchronize z) = Ok z ∧
     block_out (back z) = [255; 1]) ∧
  (z ← write_ops (mk_serial (C := unit) (MODE_COUNT 0 0 0) false 0 8 0 0 false false false 0)
         [WBit true; WByte 255]; zcio_serial_synchronize z)
    = Ok (mk_serial (MODE_COUNT 1 1 0) false 0 8 0 0 false false false 0).
Proof. split; [eexists; split|]; vm_compute; reflexivity. Qed.

(** In a block, bulk writes do not go through the bit writer: bytes written
    after a pending bit come out before it. *)
Example block_bulk_write_overtakes_bits :
  ∃ z, (z ← zcio_serial_write_bit (ex_serial true [0; 0] 0) true;
        '(_, z) ← zcio_serial_write_bytes z [7]; zcio_serial_synchronize z) = Ok z ∧
    block_out (back z) = [7; 1].
Proof. eexists. split; vm_compute; reflexivity. Qed.
