(* ===== verification/Crypto.v ===== *)
(** * Crypto: SHA-256, the Ed25519 wrappers and the hex codec of [src/crypto.c]

    The streaming hash keeps a partial block in a 64-byte buffer; the
    specification [sha256_spec] pads the whole message and folds the
    compression function over its blocks.  The Ed25519 primitives are vendored
    code and are parameters. *)
From stdpp Require Import base tactics list option strings.
From Stdlib Require Import ZArith Lia.
From S2P Require Import Prelude Types.

(** ** The compression function *)

(** The round constants, written as the rows of the table: each number holds the
    [n] words of one row. *)
Definition row_words (n : nat) (r : Z) : list Z :=
  map (λ i, u32 (Z.shiftr r (32 * Z.of_nat (n - 1 - i)))) (seq 0 n).
Definition K_rows : list Z := [
  0x428a2f98_71374491_b5c0fbcf_e9b5dba5_3956c25b_59f111f1;
  0x923f82a4_ab1c5ed5_d807aa98_12835b01_243185be_550c7dc3;
  0x72be5d74_80deb1fe_9bdc06a7_c19bf174_e49b69c1_efbe4786;
  0x0fc19dc6_240ca1cc_2de92c6f_4a7484aa_5cb0a9dc_76f988da;
  0x983e5152_a831c66d_b00327c8_bf597fc7_c6e00bf3_d5a79147;
  0x06ca6351_14292967_27b70a85_2e1b2138_4d2c6dfc_53380d13;
  0x650a7354_766a0abb_81c2c92e_92722c85_a2bfe8a1_a81a664b;
  0xc24b8b70_c76c51a3_d192e819_d6990624_f40e3585_106aa070;
  0x19a4c116_1e376c08_2748774c_34b0bcb5_391c0cb3_4ed8aa4a;
  0x5b9cca4f_682e6ff3_748f82ee_78a5636f_84c87814_8cc70208].
Definition K : list Z := Eval vm_compute in
  concat (map (row_words 6) K_rows) ++ row_words 4 0x90befffa_a4506ceb_bef9a3f7_c67178f2.

Definition ROTR (x n : Z) : Z := Z.lor (Z.shiftr x n) (u32 (Z.shiftl x (32 - n))).

(** A big-endian 32-bit word. *)
Definition word (p : bytes) (i : nat) : Z :=
  let b k := nth (i * 4 + k)%nat p 0 in
  Z.lor (Z.lor (Z.lor (Z.shiftl (b 0%nat) 24) (Z.shiftl (b 1%nat) 16)) (Z.shiftl (b 2%nat) 8)) (b 3%nat).

(** [w[i]] for [i] from 16, appended to [w[0..i)]. *)
Fixpoint schedule (n : nat) (w : list Z) : list Z :=
  match n with
  | O => w
  | S n =>
      let i := length w in
      let at_ k := nth (i - k)%nat w 0 in
      let s0 := Z.lxor (Z.lxor (ROTR (at_ 15%nat) 7) (ROTR (at_ 15%nat) 18)) (Z.shiftr (at_ 15%nat) 3) in
      let s1 := Z.lxor (Z.lxor (ROTR (at_ 2%nat) 17) (ROTR (at_ 2%nat) 19)) (Z.shiftr (at_ 2%nat) 10) in
      schedule n (w ++ [u32 (at_ 16%nat + s0 + at_ 7%nat + s1)])
  end.

Record sha_state := mk_state { sa : Z; sb : Z; sc : Z; sd : Z; se : Z; sf : Z; sg : Z; sh : Z }.

Definition round (s : sha_state) (kw : Z * Z) : sha_state :=
  let '(mk_state a b cc d e f g h) := s in
  let S1 := Z.lxor (Z.lxor (ROTR e 6) (ROTR e 11)) (ROTR e 25) in
  let ch := Z.lxor (Z.land e f) (Z.land (u32 (Z.lnot e)) g) in
  let t1 := u32 (h + S1 + ch + kw.1 + kw.2) in
  let S0 := Z.lxor (Z.lxor (ROTR a 2) (ROTR a 13)) (ROTR a 22) in
  let mj := Z.lxor (Z.lxor (Z.land a b) (Z.land a cc)) (Z.land b cc) in
  let t2 := u32 (S0 + mj) in
  mk_state (u32 (t1 + t2)) a b cc (u32 (d + t1)) e f g.

Definition add_state (s t : sha_state) : sha_state :=
  mk_state (u32 (sa s + sa t)) (u32 (sb s + sb t)) (u32 (sc s + sc t)) (u32 (sd s + sd t))
    (u32 (se s + se t)) (u32 (sf s + sf t)) (u32 (sg s + sg t)) (u32 (sh s + sh t)).

Definition sha256_block (s : sha_state) (p : bytes) : sha_state :=
  let w := schedule 48 (map (word p) (seq 0 16)) in
  add_state s (fold_left round (combine K w) s).

(** ** The streaming interface *)

Record zcio_sha256_ctx := mk_ctx { state : sha_state; bitlen : Z; buf : bytes; buflen : Z }.

Definition sha_init : sha_state :=
  mk_state 0x6a09e667 0xbb67ae85 0x3c6ef372 0xa54ff53a 0x510e527f 0x9b05688c 0x1f83d9ab 0x5be0cd19.

(** The block buffer keeps whatever it held; [b] is that content. *)
Definition zcio_sha256_init (b : bytes) : zcio_sha256_ctx := mk_ctx sha_init 0 b 0.

Fixpoint update_loop (fuel : nat) (c : zcio_sha256_ctx) (p : bytes) : exec zcio_sha256_ctx :=
  match fuel with
  | O => OutOfFuel
  | S fuel =>
      if 0 <? zlen p then
        let room := 64 - buflen c in
        let n := if zlen p <? room then zlen p else room in
        b ← mem_write (buflen c) (ztake n p) (buf c);
        let c := mk_ctx (state c) (bitlen c) b (buflen c + n) in
        let c := if buflen c =? 64 then mk_ctx (sha256_block (state c) b) (bitlen c) b 0 else c in
        update_loop fuel c (zdrop n p)
      else Ok c
  end.

Definition zcio_sha256_update (c : zcio_sha256_ctx) (data : bytes) : exec zcio_sha256_ctx :=
  update_loop (S (length data))
    (mk_ctx (state c) (u64 (bitlen c + u64 (zlen data * 8))) (buf c) (buflen c)) data.

(** [while (c->buflen != 56) zcio_sha256_update(c, &zero, 1)] *)
Fixpoint pad_loop (fuel : nat) (c : zcio_sha256_ctx) : exec zcio_sha256_ctx :=
  match fuel with
  | O => OutOfFuel
  | S fuel => if buflen c =? 56 then Ok c else c ← zcio_sha256_update c [0]; pad_loop fuel c
  end.

Definition be64 (v : Z) : bytes := map (λ i, u8 (Z.shiftr v (56 - Z.of_nat i * 8))) (seq 0 8).
Definition be32 (v : Z) : bytes := [u8 (Z.shiftr v 24); u8 (Z.shiftr v 16); u8 (Z.shiftr v 8); u8 v].

Definition digest (s : sha_state) : bytes :=
  be32 (sa s) ++ be32 (sb s) ++ be32 (sc s) ++ be32 (sd s) ++
  be32 (se s) ++ be32 (sf s) ++ be32 (sg s) ++ be32 (sh s).

(** The digest and the zeroed context. *)
Definition zcio_sha256_final (c : zcio_sha256_ctx) : exec (bytes * zcio_sha256_ctx) :=
  let bits := bitlen c in
  c ← zcio_sha256_update c [0x80];
  c ← pad_loop 64 c;
  b ← mem_write 56 (be64 bits) (buf c);
  Ok (digest (sha256_block (state c) b), mk_ctx (mk_state 0 0 0 0 0 0 0 0) 0 (replicate 64 0) 0).

(** [stack] is the content of the uninitialised context's buffer. *)
Definition zcio_sha256 (stack data : bytes) : exec bytes :=
  c ← zcio_sha256_update (zcio_sha256_init stack) data;
  '(out, _) ← zcio_sha256_final c; Ok out.

(** ** Ed25519 *)

(** The vendored primitives: key pair from a seed, signature, verification. *)
Class Ed25519 := {
  ed25519_create_keypair : bytes → bytes * bytes;
  ed25519_sign : bytes → bytes → bytes → bytes;
  ed25519_verify : bytes → bytes → bytes → Z;
}.

Definition zcio_ed25519_keypair `{Ed25519} (getentropy : Z → Z → option bytes)
  : exec (Z * option (bytes * bytes * bytes)) :=
  '(r, seed) ← zcio_rand_bytes_ getentropy false 32;
  if negb (r =? ZCIO_OK) then Ok (ZCIO_ERR, None)
  else let '(pub, priv) := ed25519_create_keypair seed in Ok (ZCIO_OK, Some (pub, priv, seed)).
Definition zcio_ed25519_keypair_from_seed `{Ed25519} (seed : bytes) : bytes * bytes :=
  ed25519_create_keypair seed.
Definition zcio_ed25519_sign `{Ed25519} (msg pub priv : bytes) : bytes := ed25519_sign msg pub priv.
Definition zcio_ed25519_verify `{Ed25519} (sig msg pub : bytes) : Z := ed25519_verify sig msg pub.

(** ** The hex codec *)

Definition hex_digit (v : Z) : Z := nth (Z.to_nat v) (B "0123456789abcdef") 0.

Definition zcio_hex_encode (data : bytes) : bytes :=
  concat (map (λ b, [hex_digit (Z.shiftr b 4); hex_digit (Z.land b 15)]) data).

Definition hex_nibble (c : Z) : Z :=
  if (48 <=? c) && (c <=? 57) then c - 48
  else if (97 <=? c) && (c <=? 102) then c - 97 + 10
  else if (65 <=? c) && (c <=? 70) then c - 65 + 10
  else -1.

(** What was stored before success, or before the first bad digit. *)
Fixpoint hex_loop (s : bytes) : bool * bytes :=
  match s with
  | h :: l :: s =>
      let hi := hex_nibble h in let lo := hex_nibble l in
      if (hi <? 0) || (lo <? 0) then (false, [])
      else let '(ok, d) := hex_loop s in (ok, u8 (Z.lor (Z.shiftl hi 4) lo) :: d)
  | _ => (true, [])
  end.

Definition zcio_hex_decode (hex : option bytes) (cap : Z) : Z * bytes :=
  match hex with
  | None => (-1, [])
  | Some s =>
      let len := zlen s in
      if negb (len mod 2 =? 0) || (cap <? len / 2) then (-1, [])
      else let '(ok, d) := hex_loop s in
           if ok then ((len / 2 + 2 ^ 31) mod 2 ^ 32 - 2 ^ 31, d) else (-1, d)
  end.

Example sha256_abc : zcio_hex_encode <$> zcio_sha256 (replicate 64 7) (B "abc") =
  Ok (B "ba7816bf8f01cfea414140de5dae2223b00361a396177a9cb410ff61f20015ad").
Proof. vm_compute. reflexivity. Qed.

Example sha256_two_blocks :
  zcio_hex_encode <$> zcio_sha256 (replicate 64 0) (B "abcdbcdecdefdefgefghfghighijhijkijkljklmklmnlmnomnopnopq") =
  Ok (B "248d6a61d20638b8e5c026930c3e6039a33ce45964ff2167f6ecedd419db06c1").
Proof. vm_compute. reflexivity. Qed.

(** ** The specification *)

Fixpoint compress_all (n : nat) (s : sha_state) (m : bytes) : sha_state :=
  match n with O => s | S n => compress_all n (sha256_block s (take 64 m)) (drop 64 m) end.

(** FIPS 180-4 padding: a one bit, zeros up to 56 modulo 64, the bit length. *)
Definition sha_pad (m : bytes) : bytes :=
  m ++ [0x80] ++ replicate (Z.to_nat ((55 - zlen m) mod 64)) 0 ++ be64 (u64 (zlen m * 8)).

Definition sha256_spec (m : bytes) : bytes :=
  digest (compress_all (length (sha_pad m) / 64) sha_init (sha_pad m)).

(** ** The loop absorbs *)

(** The bytes [m] have been absorbed since the initial state. *)
Definition absorbed (c : zcio_sha256_ctx) (m : bytes) : Prop :=
  length (buf c) = 64%nat ∧ 0 ≤ buflen c < 64 ∧
  ∃ n full, m = full ++ ztake (buflen c) (buf c) ∧ length full = (64 * n)%nat ∧
    state c = compress_all n sha_init full.

Lemma compress_all_snoc n s full b :
  length full = (64 * n)%nat → length b = 64%nat →
  compress_all (S n) s (full ++ b) = sha256_block (compress_all n s full) b.
Proof.
  revert s full. induction n as [|n IH]; intros s full Hf Hb.
  - destruct full; [|done]. cbn [compress_all app]. by rewrite take_ge by lia.
  - cbn [compress_all]. rewrite take_app_le, drop_app_le by lia.
    rewrite <- IH by (rewrite ?length_drop; lia). done.
Qed.

Lemma absorbed_inv c m : absorbed c m → buflen c = zlen m mod 64.
Proof.
  intros (Hl & Hb & n & full & -> & Hf & _). rewrite length_app, length_take.
  replace (Z.of_nat _) with (buflen c + Z.of_nat n * 64) by lia.
  rewrite Z.mod_add, Z.mod_small by lia. done.
Qed.

Lemma update_loop_spec fuel c m p :
  absorbed c m → (length p < fuel)%nat →
  ∃ c', update_loop fuel c p = Ok c' ∧ absorbed c' (m ++ p) ∧ bitlen c' = bitlen c.
Proof.
  revert c m p. induction fuel as [|fuel IH]; intros c m p Hc Hf; [lia|]. cbn [update_loop]. bcase.
  2:{ exists c. destruct p; [by rewrite app_nil_r|cbn in *; lia]. }
  destruct Hc as (Hl & Hb & n & full & -> & Hfull & Hst).
  set (k := if zlen p <? 64 - buflen c then zlen p else 64 - buflen c).
  assert (0 < k ≤ zlen p ∧ buflen c + k ≤ 64) as (Hk1 & Hk2) by (unfold k; bcase; lia).
  assert (zlen (ztake k p) = k) as Hkl by zl.
  rewrite mem_write_ok by lia. cbn [mbind exec_bind bitlen state buf buflen].
  set (b := ztake (buflen c) (buf c) ++ ztake k p ++ _).
  assert (length b = 64%nat) as Hbl by (subst b; zl).
  assert (ztake (buflen c + k) b = ztake (buflen c) (buf c) ++ ztake k p) as Hbt
    by (subst b; rewrite app_assoc; apply ztake_app_zlen; zl).
  bcase.
  - destruct (IH (mk_ctx (sha256_block (state c) b) (bitlen c) b 0)
      (full ++ ztake (buflen c) (buf c) ++ ztake k p) (zdrop k p)) as (c' & -> & H1 & H2); [|zl|].
    { split; [done|]. split; [cbn; lia|]. exists (S n), (full ++ b). cbn [state buf buflen].
      rewrite Heqb0, take_ge in Hbt by lia. rewrite <- Hbt, app_nil_r. split; [done|].
      split; [rewrite length_app; lia|]. by rewrite compress_all_snoc, Hst by done. }
    exists c'. split; [done|]. split; [|done]. rewrite <- !app_assoc, take_drop in H1. by rewrite <- app_assoc.
  - destruct (IH (mk_ctx (state c) (bitlen c) b (buflen c + k))
      (full ++ ztake (buflen c) (buf c) ++ ztake k p) (zdrop k p)) as (c' & -> & H1 & H2); [|zl|].
    { split; [done|]. split; [cbn; lia|]. exists n, full. cbn [state buf buflen]. by rewrite Hbt. }
    exists c'. split; [done|]. split; [|done]. rewrite <- !app_assoc, take_drop in H1. by rewrite <- app_assoc.
Qed.

Lemma update_spec c m p : absorbed c m →
  ∃ c', zcio_sha256_update c p = Ok c' ∧ absorbed c' (m ++ p) ∧
    bitlen c' = u64 (bitlen c + u64 (zlen p * 8)).
Proof. intros Hc. apply update_loop_spec; [exact Hc|lia]. Qed.

Lemma pad_loop_spec fuel c m :
  absorbed c m → (56 - zlen m) mod 64 < Z.of_nat fuel →
  ∃ c', pad_loop fuel c = Ok c' ∧ buflen c' = 56 ∧
    absorbed c' (m ++ replicate (Z.to_nat ((56 - zlen m) mod 64)) 0).
Proof.
  revert c m. induction fuel as [|fuel IH]; intros c m Hc Hf; [dlia|]. cbn [pad_loop].
  pose proof (absorbed_inv c m Hc) as Hb. bcase.
  - exists c. replace (Z.to_nat _) with 0%nat by dlia. cbn. by rewrite app_nil_r.
  - destruct (update_spec c m [0] Hc) as (c1 & -> & H1 & _). cbn [mbind exec_bind].
    destruct (IH c1 (m ++ [0]) H1) as (c2 & -> & H2 & H3); [zlen_simpl; dlia|].
    exists c2. split; [done|]. split; [done|]. rewrite <- app_assoc in H3.
    replace (Z.to_nat ((56 - zlen m) mod 64)) with (S (Z.to_nat ((56 - zlen (m ++ [0])) mod 64)))
      by (zlen_simpl; dlia). exact H3.
Qed.

Lemma length_be64 v : length (be64 v) = 8%nat.
Proof. done. Qed.

Lemma final_spec c m : absorbed c m → bitlen c = u64 (zlen m * 8) →
  ∃ c', zcio_sha256_final c = Ok (sha256_spec m, c').
Proof.
  intros Hc Hbits. unfold zcio_sha256_final.
  destruct (update_spec c m [0x80] Hc) as (c1 & -> & H1 & _). cbn [mbind exec_bind].
  destruct (pad_loop_spec 64 c1 _ H1) as (c2 & -> & H2 & (Hl & Hb & n & full & Hm & Hf & Hst));
    [dlia|]. cbn [mbind exec_bind]. rewrite mem_write_ok by (rewrite ?length_be64; lia).
  cbn [mbind exec_bind]. eexists. do 3 f_equal. unfold sha256_spec. f_equal.
  rewrite length_be64, drop_ge, app_nil_r by lia. rewrite Hbits, H2 in *.
  assert (sha_pad m = full ++ ztake 56 (buf c2) ++ be64 (u64 (zlen m * 8))) as ->.
  { unfold sha_pad. rewrite (app_assoc full), <- Hm, <- !app_assoc. do 4 f_equal. zlen_simpl.
    dlia. }
  replace (length (full ++ _) / 64)%nat with (S n).
  - rewrite compress_all_snoc by (done || (rewrite length_app, length_be64; zl)). by rewrite Hst.
  - rewrite !length_app, length_be64, length_take, Hl, Hf.
    replace (64 * n + _)%nat with (0 + S n * 64)%nat by lia. by rewrite Nat.div_add by lia.
Qed.

Lemma absorbed_init b : length b = 64%nat → absorbed (zcio_sha256_init b) [].
Proof. intros. split; [done|]. split; [cbn; lia|]. by exists 0%nat, []. Qed.

(** Feeding a message in pieces. *)
Fixpoint update_all (c : zcio_sha256_ctx) (ps : list bytes) : exec zcio_sha256_ctx :=
  match ps with [] => Ok c | p :: ps => c ← zcio_sha256_update c p; update_all c ps end.

Lemma update_all_spec ps c m : absorbed c m → bitlen c = u64 (zlen m * 8) →
  ∃ c', update_all c ps = Ok c' ∧ absorbed c' (m ++ concat ps) ∧
    bitlen c' = u64 (zlen (m ++ concat ps) * 8).
Proof.
  revert c m. induction ps as [|p ps IH]; intros c m Hc Hb.
  - exists c. by rewrite app_nil_r.
  - cbn [update_all concat]. destruct (update_spec c m p Hc) as (c1 & -> & H1 & H2).
    cbn [mbind exec_bind]. destruct (IH c1 (m ++ p) H1) as (c2 & -> & H3 & H4).
    + rewrite H2, Hb. unfold wrap. rewrite <- Zplus_mod. f_equal. zl.
    + exists c2. by rewrite <- app_assoc in H3, H4.
Qed.

(** ** The hex codec *)

Lemma nibble_digit v : 0 ≤ v < 16 → hex_nibble (hex_digit v) = v.
Proof.
  intros Hv. apply Z.eqb_eq. revert v Hv.
  apply (range_forall (λ v, hex_nibble (hex_digit v) =? v) 16). vm_compute. reflexivity.
Qed.

Lemma byte_nibbles b : is_byte b →
  0 ≤ Z.shiftr b 4 < 16 ∧ 0 ≤ Z.land b 15 < 16 ∧ u8 (Z.lor (Z.shiftl (Z.shiftr b 4) 4) (Z.land b 15)) = b.
Proof.
  intros Hb. pose proof (range_forall (λ b, (0 <=? Z.shiftr b 4) && (Z.shiftr b 4 <? 16) &&
    (0 <=? Z.land b 15) && (Z.land b 15 <? 16) &&
    (u8 (Z.lor (Z.shiftl (Z.shiftr b 4) 4) (Z.land b 15)) =? b)) 256 eq_refl b Hb) as H. cbv beta in H.
  btest. lia.
Qed.

Lemma hex_loop_encode d : is_bytes d → hex_loop (zcio_hex_encode d) = (true, d).
Proof.
  unfold zcio_hex_encode. induction 1 as [|b d Hb _ IH]; [done|].
  cbn [map concat app hex_loop]. destruct (byte_nibbles b Hb) as (H1 & H2 & H3).
  rewrite !nibble_digit by done. bcase; [lia|]. by rewrite IH, H3.
Qed.

Lemma length_hex_encode d : zlen (zcio_hex_encode d) = 2 * zlen d.
Proof.
  unfold zcio_hex_encode. induction d as [|b d IH]; [done|]. cbn [map concat app length]. lia.
Qed.

Definition is_hex (c : Z) : Prop := 0 ≤ hex_nibble c.

Lemma hex_loop_ok n s : length s = (2 * n)%nat → Forall is_hex s →
  ∃ d, hex_loop s = (true, d) ∧ length d = n.
Proof.
  revert s. induction n as [|n IH]; intros [|h [|l s]] Hl Hs; try (cbn in Hl; lia).
  - by exists [].
  - apply Forall_cons_1 in Hs as [Hh Hs]. apply Forall_cons_1 in Hs as [Hlo Hs]. unfold is_hex in *.
    cbn [hex_loop]. bcase; [lia|]. destruct (IH s) as (d & -> & Hd); [cbn in Hl; lia|done|].
    eexists. split; [done|]. cbn. lia.
Qed.

Lemma hex_loop_bad n s : length s = (2 * n)%nat → ¬ Forall is_hex s → (hex_loop s).1 = false.
Proof.
  revert s. induction n as [|n IH]; intros [|h [|l s]] Hl Hs; try (cbn in Hl; lia).
  - by destruct Hs.
  - cbn [hex_loop]. bcase; [done|]. destruct (hex_loop s) as [ok d] eqn:E. cbn.
    change ok with (ok, d).1. rewrite <- E. apply IH; [cbn in Hl; lia|]. intros Hf. apply Hs.
    unfold is_hex in *. btest. by repeat constructor.
Qed.

(** ** Properties *)

(** C35: However a message is cut into pieces, feeding the pieces to
    [zcio_sha256_update] and finalising gives the FIPS 180-4 digest of the
    whole message (padding, length block and compression of every 64-byte
    block): the result does not depend on the cuts nor on what the context's
    buffer held before. *)
Theorem sha256_streaming (stack : bytes) ps (Hs : length stack = 64%nat) :
  ∃ c c', update_all (zcio_sha256_init stack) ps = Ok c ∧
    zcio_sha256_final c = Ok (sha256_spec (concat ps), c') ∧
    zcio_sha256 stack (concat ps) = Ok (sha256_spec (concat ps)).
Proof.
  destruct (update_all_spec ps _ [] (absorbed_init stack Hs) eq_refl) as (c & E & H1 & H2).
  destruct (final_spec c _ H1 H2) as (c' & E'). exists c, c'. split; [done|]. split; [done|].
  unfold zcio_sha256. destruct (update_spec _ [] (concat ps) (absorbed_init stack Hs)) as (d & -> & G1 & G2).
  cbn [mbind exec_bind]. destruct (final_spec d _ G1) as (d' & ->); [|done].
  rewrite G2. cbn [bitlen zcio_sha256_init app]. unfold wrap. rewrite Z.add_0_l. apply Z.mod_mod. lia.
Qed.

(** [zcio_hex_decode] inverts [zcio_hex_encode] on any bytes that fit,
    and it accepts exactly the strings of an even number of hex digits whose
    bytes fit in the output. *)
Theorem hex_roundtrip d cap (Hd : is_bytes d) (Hc : zlen d ≤ cap) (Hmax : zlen d < 2 ^ 31) :
  zcio_hex_decode (Some (zcio_hex_encode d)) cap = (zlen d, d) ∧
  ∀ s, zlen s < 2 ^ 32 → (0 ≤ (zcio_hex_decode (Some s) cap).1 ↔
    zlen s mod 2 = 0 ∧ zlen s / 2 ≤ cap ∧ Forall is_hex s).
Proof.
  unfold zcio_hex_decode. split.
  - rewrite length_hex_encode, hex_loop_encode by done.
    replace (2 * zlen d / 2) with (zlen d) by dlia. replace (2 * zlen d mod 2) with 0 by dlia. cbn [negb Z.eqb orb].
    bcase; [lia|]. f_equal. rewrite Z.mod_small; lia.
  - intros s Hs. bcase.
    { cbn. apply orb_true_iff in Heqb. destruct Heqb; btest; lia. }
    assert (length s = (2 * (length s / 2))%nat) as Hl.
    { apply Nat2Z.inj. rewrite Nat2Z.inj_mul, Nat2Z.inj_div. dlia. }
    destruct (decide (Forall (λ c, 0 ≤ hex_nibble c) s)) as [Hf|Hf].
    + destruct (hex_loop_ok _ s Hl Hf) as (r & -> & _). cbn [fst]. rewrite Z.mod_small by dlia.
      split; [intros _|dlia]. split; [lia|]. by split; [lia|].
    + pose proof (hex_loop_bad _ s Hl Hf) as Hb. destruct (hex_loop s) as [ok r]. cbn in Hb. subst ok. cbn.
      split; [lia|]. by intros (_ & _ & ?).
Qed.

(** ** Witnesses *)

Lemma sha256_streaming_witness :
  ∃ c c', update_all (zcio_sha256_init (replicate 64 3)) [B "a"; []; B "bc"] = Ok c ∧
    zcio_sha256_final c = Ok (sha256_spec (B "abc"), c').
Proof.
  destruct (sha256_streaming (replicate 64 3) [B "a"; []; B "bc"] eq_refl) as (c & c' & E & E' & _).
  exists c, c'. split; [exact E|exact E'].
Defined.

Lemma hex_roundtrip_witness :
  zcio_hex_encode [0; 175; 255] = B "00afff" ∧
  zcio_hex_decode (Some (zcio_hex_encode [0; 175; 255])) 3 = (3, [0; 175; 255]).
Proof.
  split; [reflexivity|]. apply (hex_roundtrip [0; 175; 255] 3).
  - repeat constructor; vm_compute; (reflexivity || discriminate).
  - vm_compute. discriminate.
  - vm_compute. reflexivity.
Defined.
