(* ===== verification/WsKey.v ===== *)
(** * WsKey: the handshake key of [src/ws.c]

    SHA-1 over a message in memory, Base64, and the accept value
    [base64(sha1(key ++ GUID))].  The specification pads the message and folds
    the compression function over all its blocks; [base64_decode] inverts the
    encoder. *)
From stdpp Require Import base tactics list option strings.
From Stdlib Require Import ZArith Lia.
From S2P Require Import Prelude Types Buf HttpUtil Respond H1 Crypto.

Definition WS_GUID : bytes := B "258EAFA5-E914-47DA-95CA-C5AB0DC85B11".

(** ** SHA-1 *)

Record sha1_state := mk_sha1 { h0 : Z; h1 : Z; h2 : Z; h3 : Z; h4 : Z }.

Definition rotl (v n : Z) : Z := Z.lor (u32 (Z.shiftl v n)) (Z.shiftr v (32 - n)).

Fixpoint sha1_schedule (n : nat) (w : list Z) : list Z :=
  match n with
  | O => w
  | S n =>
      let at_ k := nth (length w - k)%nat w 0 in
      let v := Z.lxor (Z.lxor (Z.lxor (at_ 3%nat) (at_ 8%nat)) (at_ 14%nat)) (at_ 16%nat) in
      sha1_schedule n (w ++ [rotl v 1])
  end.

Definition sha1_round (s : sha1_state) (iw : nat * Z) : sha1_state :=
  let '(mk_sha1 a b c d e) := s in
  let '(f, k) :=
    if (iw.1 <? 20)%nat then (Z.lor (Z.land b c) (Z.land (u32 (Z.lnot b)) d), 0x5A827999)
    else if (iw.1 <? 40)%nat then (Z.lxor (Z.lxor b c) d, 0x6ED9EBA1)
    else if (iw.1 <? 60)%nat then (Z.lor (Z.lor (Z.land b c) (Z.land b d)) (Z.land c d), 0x8F1BBCDC)
    else (Z.lxor (Z.lxor b c) d, 0xCA62C1D6) in
  let t := u32 (rotl a 5 + f + e + k + iw.2) in
  mk_sha1 t a (rotl b 30) c d.

Definition sha1_block (s : sha1_state) (p : bytes) : sha1_state :=
  let w := sha1_schedule 64 (map (word p) (seq 0 16)) in
  let r := fold_left sha1_round (combine (seq 0 80) w) s in
  mk_sha1 (u32 (h0 s + h0 r)) (u32 (h1 s + h1 r)) (u32 (h2 s + h2 r)) (u32 (h3 s + h3 r))
    (u32 (h4 s + h4 r)).

Definition sha1_init : sha1_state := mk_sha1 0x67452301 0xEFCDAB89 0x98BADCFE 0x10325476 0xC3D2E1F0.

Fixpoint sha1_blocks (n : nat) (s : sha1_state) (m : bytes) : sha1_state :=
  match n with O => s | S n => sha1_blocks n (sha1_block s (take 64 m)) (drop 64 m) end.

Definition sha1_digest (s : sha1_state) : bytes :=
  be32 (h0 s) ++ be32 (h1 s) ++ be32 (h2 s) ++ be32 (h3 s) ++ be32 (h4 s).

Definition sha1 (msg : bytes) : bytes :=
  let bits := u64 (zlen msg * 8) in
  let full := (length msg / 64)%nat in
  let st := sha1_blocks full sha1_init msg in
  let tail := drop (full * 64) msg in
  let rem := zlen tail + 1 in
  let '(st, block) :=
    if 56 <? rem
    then (sha1_block st (tail ++ [0x80] ++ replicate (Z.to_nat (64 - rem)) 0), replicate 56 0)
    else (st, tail ++ [0x80] ++ replicate (Z.to_nat (56 - rem)) 0) in
  sha1_digest (sha1_block st (block ++ be64 bits)).

(** ** Base64 *)

Definition B64 : bytes := B "ABCDEFGHIJKLMNOPQRSTUVWXYZabcdefghijklmnopqrstuvwxyz0123456789+/".
Definition b64_at (v : Z) : Z := nth (Z.to_nat (Z.land v 63)) B64 0.

Fixpoint base64 (s : bytes) : bytes :=
  match s with
  | a :: b :: c :: s =>
      let v := Z.lor (Z.lor (Z.shiftl a 16) (Z.shiftl b 8)) c in
      b64_at (Z.shiftr v 18) :: b64_at (Z.shiftr v 12) :: b64_at (Z.shiftr v 6) :: b64_at v :: base64 s
  | [a; b] =>
      let v := Z.lor (Z.shiftl a 16) (Z.shiftl b 8) in
      [b64_at (Z.shiftr v 18); b64_at (Z.shiftr v 12); b64_at (Z.shiftr v 6); 61]
  | [a] =>
      let v := Z.shiftl a 16 in
      [b64_at (Z.shiftr v 18); b64_at (Z.shiftr v 12); 61; 61]
  | [] => []
  end.

(** [None] when the concatenation cannot be allocated. *)
Definition ws_compute_accept `{Allocator} (key : bytes) : option bytes :=
  if zcio_xmalloc_ok (zlen key + zlen WS_GUID) then Some (base64 (sha1 (key ++ WS_GUID))) else None.

(** The example of RFC 6455, section 1.3. *)
Example ws_accept_rfc : @ws_compute_accept always_alloc (B "dGhlIHNhbXBsZSBub25jZQ==") =
  Some (B "s3pPLMBiTxaQ9kYGzzhZRbK+xOo=").
Proof. vm_compute. reflexivity. Qed.

(** ** The specification *)

Definition sha1_pad (m : bytes) : bytes :=
  m ++ [0x80] ++ replicate (Z.to_nat ((55 - zlen m) mod 64)) 0 ++ be64 (u64 (zlen m * 8)).
Definition sha1_spec (m : bytes) : bytes :=
  sha1_digest (sha1_blocks (length (sha1_pad m) / 64) sha1_init (sha1_pad m)).

Lemma sha1_blocks_app n k s m t : length m = (64 * n)%nat →
  sha1_blocks (n + k) s (m ++ t) = sha1_blocks k (sha1_blocks n s m) t.
Proof.
  revert s m. induction n as [|n IH]; intros s m Hm.
  - by destruct m.
  - cbn [sha1_blocks Nat.add]. rewrite take_app_le, drop_app_le by lia.
    apply IH. rewrite length_drop. lia.
Qed.

Lemma sha1_blocks_one s b : length b = 64%nat → sha1_blocks 1 s b = sha1_block s b.
Proof. intros. cbn [sha1_blocks]. by rewrite take_ge by lia. Qed.

Lemma sha1_is_spec m : sha1 m = sha1_spec m.
Proof.
  unfold sha1, sha1_spec. set (n := (length m / 64)%nat).
  assert (n * 64 ≤ length m < n * 64 + 64)%nat as Hn.
  { subst n. pose proof (Nat.div_mod_eq (length m) 64). pose proof (Nat.mod_upper_bound (length m) 64). lia. }
  set (full := take (n * 64) m). set (tail := drop (n * 64) m).
  assert (m = full ++ tail) as Hm by (symmetry; apply take_drop).
  assert (length full = (64 * n)%nat) as Hf by (subst full; rewrite length_take; lia).
  assert (zlen tail = zlen m - Z.of_nat n * 64) as Ht by (subst tail; rewrite length_drop; lia).
  replace (sha1_blocks n sha1_init m) with (sha1_blocks n sha1_init full)
    by (pose proof (sha1_blocks_app n 0 sha1_init full tail Hf) as E;
        rewrite Nat.add_0_r, <- Hm in E; symmetry; exact E).
  set (bits := be64 _). assert (length bits = 8%nat) as Hb by apply length_be64.
  unfold sha1_pad. fold bits.
  assert (∀ k t, length t = (64 * k)%nat → sha1_blocks (length (full ++ t) / 64) sha1_init (full ++ t) =
    sha1_blocks k (sha1_blocks n sha1_init full) t) as Hsplit.
  { intros k t Hk. replace (length (full ++ t) / 64)%nat with (n + k)%nat; [by apply sha1_blocks_app|].
    rewrite length_app, Hf, Hk. replace (64 * n + 64 * k)%nat with (0 + (n + k) * 64)%nat by lia.
    by rewrite Nat.div_add by lia. }
  set (X := [0x80] ++ replicate (Z.to_nat ((55 - zlen m) mod 64)) 0 ++ bits). assert (m ++ X = full ++ (tail ++ X)) as -> by (rewrite app_assoc, <- Hm; done).
  subst X. f_equal. bcase.
  - replace (Z.to_nat ((55 - zlen m) mod 64)) with (Z.to_nat (64 - (zlen tail + 1)) + 56)%nat by dlia.
    rewrite replicate_add.
    rewrite (Hsplit 2%nat) by zl.
    set (z := replicate (Z.to_nat (64 - (zlen tail + 1))) 0).
    assert (tail ++ [128] ++ (z ++ replicate 56 0) ++ bits = (tail ++ [128] ++ z) ++ replicate 56 0 ++ bits) as ->
      by (by rewrite <- !app_assoc).
    assert (length (tail ++ [128] ++ z) = 64%nat) by (subst z; zl).
    rewrite (sha1_blocks_app 1 1) by lia. rewrite (sha1_blocks_one _ (tail ++ _)) by done.
    rewrite sha1_blocks_one by (rewrite length_app, length_replicate; lia). reflexivity.
  - replace (Z.to_nat ((55 - zlen m) mod 64)) with (Z.to_nat (56 - (zlen tail + 1))) by dlia.
    rewrite (Hsplit 1%nat) by zl. rewrite sha1_blocks_one by zl. by rewrite <- !app_assoc.
Qed.

(** ** Base64 is inverted by a decoder *)

Definition b64_val (c : Z) : Z :=
  if (65 <=? c) && (c <=? 90) then c - 65
  else if (97 <=? c) && (c <=? 122) then c - 97 + 26
  else if (48 <=? c) && (c <=? 57) then c - 48 + 52
  else if c =? 43 then 62 else 63.

(** Four sextets to three bytes; the padding tells how many to keep. *)
Definition quad (a b c d : Z) : bytes :=
  let v := b64_val a * 2 ^ 18 + b64_val b * 2 ^ 12 + b64_val c * 2 ^ 6 + b64_val d in
  [v / 2 ^ 16; v / 2 ^ 8 mod 2 ^ 8; v mod 2 ^ 8].

Fixpoint base64_decode (s : bytes) : bytes :=
  match s with
  | a :: b :: c :: d :: s =>
      if c =? 61 then take 1 (quad a b 65 65)
      else if d =? 61 then take 2 (quad a b c 65)
      else quad a b c d ++ base64_decode s
  | _ => []
  end.

Lemma b64_at_facts v : b64_val (b64_at v) = v mod 64 ∧ b64_char (b64_at v) = true ∧ b64_at v ≠ 61.
Proof.
  unfold b64_at. change 63 with (Z.ones 6). rewrite Z.land_ones by lia. change (2 ^ 6) with 64.
  assert (0 ≤ v mod 64 < Z.of_nat 64) as Hv by (apply (Z.mod_pos_bound v 64); lia).
  pose proof (range_forall (λ i, (b64_val (nth (Z.to_nat i) B64 0) =? i) && b64_char (nth (Z.to_nat i) B64 0) &&
    negb (nth (Z.to_nat i) B64 0 =? 61)) 64 eq_refl _ Hv) as H. cbv beta in H. btest. done.
Qed.

Lemma triple_val a b c : is_byte a → is_byte b → is_byte c →
  Z.lor (Z.lor (Z.shiftl a 16) (Z.shiftl b 8)) c = a * 2 ^ 16 + b * 2 ^ 8 + c.
Proof.
  unfold is_byte. intros Ha Hb Hc.
  replace (Z.lor (Z.shiftl a 16) (Z.shiftl b 8)) with (Z.shiftl (a * 2 ^ 8 + b) 8).
  - rewrite lor_shiftl_add by lia. lia.
  - rewrite <- (lor_shiftl_add 8 a b) by lia. rewrite Z.shiftl_lor, Z.shiftl_shiftl by lia. done.
Qed.

(** The four sextets of a 24-bit value. *)
Lemma quad_sextets v : 0 ≤ v < 2 ^ 24 →
  quad (b64_at (Z.shiftr v 18)) (b64_at (Z.shiftr v 12)) (b64_at (Z.shiftr v 6)) (b64_at v) =
  [v / 2 ^ 16; v / 2 ^ 8 mod 2 ^ 8; v mod 2 ^ 8].
Proof.
  intros Hv. unfold quad. rewrite !(proj1 (b64_at_facts _)), !Z.shiftr_div_pow2 by lia.
  replace (v / 2 ^ 18 mod 64 * 2 ^ 18 + v / 2 ^ 12 mod 64 * 2 ^ 12 + v / 2 ^ 6 mod 64 * 2 ^ 6 + v mod 64) with v;
    [done|]. dlia.
Qed.

Lemma b64_zero_char : b64_at 0 = 65.
Proof. done. Qed.

Lemma base64_step a b c s : is_byte a → is_byte b → is_byte c →
  base64_decode (base64 (a :: b :: c :: s)) = a :: b :: c :: base64_decode (base64 s).
Proof.
  intros Ha Hb Hc. cbn [base64]. rewrite triple_val by done. cbn [base64_decode].
  set (v := a * 2 ^ 16 + b * 2 ^ 8 + c). unfold is_byte in *.
  rewrite !(proj2 (Z.eqb_neq _ 61)) by apply b64_at_facts.
  rewrite quad_sextets by (unfold v; lia). cbn [app]. unfold v. f_equal; [dlia|f_equal; [dlia|f_equal; dlia]].
Qed.

(** Induction three elements at a time. *)
Lemma triple_ind (P : bytes → Prop) :
  P [] → (∀ a, P [a]) → (∀ a b, P [a; b]) → (∀ a b c s, P s → P (a :: b :: c :: s)) → ∀ s, P s.
Proof.
  intros H0 H1 H2 H3 s. remember (length s) as n eqn:E. revert s E.
  induction n as [n IH] using lt_wf_ind. intros [|a [|b [|c s]]] ->; auto.
  apply H3. apply (IH (length s)); [cbn; lia|done].
Qed.

Lemma base64_roundtrip s : is_bytes s → base64_decode (base64 s) = s.
Proof.
  revert s. apply (triple_ind (λ s, is_bytes s → base64_decode (base64 s) = s)).
  - done.
  - intros a Ha. apply Forall_cons_1 in Ha as [Ha _]. unfold is_byte in Ha. cbn [base64 base64_decode]. cbn [Z.eqb Pos.eqb].
    pose proof (quad_sextets (a * 2 ^ 16) ltac:(lia)) as Hq.
    assert (b64_at (Z.shiftr (a * 2 ^ 16) 6) = 65 ∧ b64_at (a * 2 ^ 16) = 65) as [E1 E2].
    { rewrite <- b64_zero_char. unfold b64_at. change 63 with (Z.ones 6). rewrite !Z.land_ones, Z.shiftr_div_pow2 by lia.
      split; do 2 f_equal; dlia. }
    rewrite E1, E2 in Hq. rewrite Z.shiftl_mul_pow2 by lia. rewrite Hq. cbn [take]. f_equal. dlia.
  - intros a b Hab. apply Forall_cons_1 in Hab as [Ha Hb]. apply Forall_cons_1 in Hb as [Hb _].
    pose proof (triple_val a b 0 Ha Hb ltac:(unfold is_byte; lia)) as Hv. rewrite Z.lor_0_r in Hv.
    unfold is_byte in *. cbn [base64 base64_decode]. rewrite Hv.
    rewrite (proj2 (Z.eqb_neq _ 61)) by apply b64_at_facts. cbn [Z.eqb Pos.eqb].
    pose proof (quad_sextets (a * 2 ^ 16 + b * 2 ^ 8 + 0) ltac:(lia)) as Hq.
    assert (b64_at (a * 2 ^ 16 + b * 2 ^ 8 + 0) = 65) as E1.
    { rewrite <- b64_zero_char. unfold b64_at. change 63 with (Z.ones 6). rewrite !Z.land_ones by lia.
      do 2 f_equal; dlia. }
    rewrite E1 in Hq. rewrite Hq. cbn [take]. f_equal; [dlia|f_equal; dlia].
  - intros a b c s IH Hs. apply Forall_cons_1 in Hs as [Ha Hs]. apply Forall_cons_1 in Hs as [Hb Hs].
    apply Forall_cons_1 in Hs as [Hc Hs]. by rewrite base64_step, IH.
Qed.

Definition b64_out (c : Z) : Prop := b64_char c = true ∧ c ≠ 61.

Lemma b64_at_out v : b64_out (b64_at v).
Proof. split; apply b64_at_facts. Qed.

Lemma b64_chars_triples n s : length s = (3 * n)%nat →
  length (base64 s) = (4 * n)%nat ∧ Forall b64_out (base64 s).
Proof.
  revert s. induction n as [|n IH]; intros s Hs; [by destruct s|].
  destruct s as [|a [|b [|c s]]]; try (cbn in Hs; lia). cbn [base64 length].
  destruct (IH s) as [H1 H2]; [cbn in Hs; lia|]. split; [lia|]. repeat (constructor; [apply b64_at_out|]). done.
Qed.

Lemma base64_triples_app n s t : length s = (3 * n)%nat → base64 (s ++ t) = base64 s ++ base64 t.
Proof.
  revert s. induction n as [|n IH]; intros s Hs; [by destruct s|].
  destruct s as [|a [|b [|c s]]]; try (cbn in Hs; lia). cbn [base64 app].
  rewrite IH by (cbn in Hs; lia). done.
Qed.

Lemma forallb_out l : Forall b64_out l → forallb b64_char l = true.
Proof. induction 1 as [|c l [Hc _] _ IH]; [done|]. cbn. by rewrite Hc. Qed.

Lemma declen_two_pads l c d : length l = 20%nat → Forall b64_out l → b64_out c → b64_out d →
  h1_b64_declen (l ++ [c; d; 61; 61]) = 16.
Proof.
  intros Hl Hf Hc Hd. unfold h1_b64_declen.
  replace (zlen (l ++ [c; d; 61; 61])) with 24 by zl.
  rewrite !app_nth2 by (rewrite Hl; cbn; lia). rewrite Hl.
  assert (ztake 22 (l ++ [c; d; 61; 61]) = l ++ [c; d]) as Ht by (rewrite take_app, take_ge, Hl by zl; done).
  change (Z.to_nat (24 - 1) - 20)%nat with 3%nat. change (Z.to_nat (24 - 2) - 20)%nat with 2%nat.
  cbn [nth]. change (61 =? 61) with true. change ((2 <=? 24) && true) with true. cbv iota.
  change ((24 =? 0) || negb (24 mod 4 =? 0)) with false. cbv iota.
  change (24 - (1 + 1)) with 22. rewrite Ht.
  rewrite forallb_out by (apply Forall_app; auto). reflexivity.
Qed.

(** The 24 characters of a 16-byte value pass the server's test. *)
Lemma key_declen r : length r = 16%nat → h1_b64_declen (base64 r) = 16.
Proof.
  intros Hr. rewrite <- (take_drop 15 r).
  assert (length (take 15 r) = (3 * 5)%nat) as Ht by (rewrite length_take; lia).
  rewrite (base64_triples_app 5) by done. destruct (b64_chars_triples 5 (take 15 r) Ht) as [Hl Hf].
  destruct (drop 15 r) as [|x [|? ?]] eqn:E; try (apply (f_equal length) in E; rewrite length_drop in E; cbn in E; lia).
  apply declen_two_pads; try done; apply b64_at_out.
Qed.

Lemma sha1_bytes m : is_bytes (sha1 m).
Proof.
  unfold sha1. destruct (_ <? _); unfold sha1_digest, be32; cbn [app]; repeat constructor; apply u8_byte.
Qed.

(** ** Properties *)

(** The handshake values: the key made from 16 random bytes is Base64 of
    exactly those bytes and passes the server's length test; and the accept
    value for any key is the Base64 of the SHA-1 of the key followed by the
    GUID, where SHA-1 pads the whole message and folds all its blocks. *)
Theorem ws_handshake_values `{Allocator} rnd key
  (Hr : is_bytes rnd) (Hl : length rnd = 16%nat)
  (Ha : alloc_ok (zlen key + 36) = true) :
  base64_decode (base64 rnd) = rnd ∧ h1_b64_declen (base64 rnd) = 16 ∧
  ∃ accept, ws_compute_accept key = Some accept ∧
    base64_decode accept = sha1_spec (key ++ WS_GUID).
Proof.
  split; [by apply base64_roundtrip|]. split; [by apply key_declen|].
  unfold ws_compute_accept, zcio_xmalloc_ok. change (zlen WS_GUID) with 36.
  rewrite (proj2 (Z.eqb_neq _ _)) by lia. rewrite Ha. eexists. split; [done|].
  rewrite base64_roundtrip, sha1_is_spec; [done|apply sha1_bytes].
Qed.

Lemma ws_handshake_values_witness :
  base64 (map Z.of_nat (seq 0 16)) = B "AAECAwQFBgcICQoLDA0ODw==" ∧
  h1_b64_declen (base64 (map Z.of_nat (seq 0 16))) = 16 ∧
  ∃ accept, @ws_compute_accept always_alloc (B "dGhlIHNhbXBsZSBub25jZQ==") = Some accept ∧
    base64_decode accept = sha1_spec (B "dGhlIHNhbXBsZSBub25jZQ==" ++ WS_GUID).
Proof.
  split; [vm_compute; reflexivity|].
  apply (@ws_handshake_values always_alloc (map Z.of_nat (seq 0 16)) (B "dGhlIHNhbXBsZSBub25jZQ==")).
  - repeat constructor; vm_compute; (reflexivity || discriminate).
  - reflexivity.
  - reflexivity.
Defined.
