(* ===== verification/Ws.v ===== *)
(** * Ws: WebSocket framing and sessions ([src/ws.c])

    The frame writer, the frame parser [ws_pump] with its reassembly, and the
    session operations over a blocking transport.  The transport is any stream
    of [Stream]; the entropy source, the clock and the effect of a timeout on
    the transport are parameters.  [sent] is a ghost: the frames the session
    tried to write, oldest first; no operation reads it. *)
From stdpp Require Import base tactics list option strings.
From Stdlib Require Import ZArith Lia.
From S2P Require Import Prelude Types Stream Buf Utf8.

Definition WS_DEFAULT_MAX_MSG : Z := 16 * 1024 * 1024.
Definition WS_DEFAULT_TIMEOUT : Z := 30000.

Definition WS_OP_CONT : Z := 0.
Definition WS_OP_TEXT : Z := 1.
Definition WS_OP_BIN : Z := 2.
Definition WS_OP_CLOSE : Z := 8.
Definition WS_OP_PING : Z := 9.
Definition WS_OP_PONG : Z := 10.

Definition WS_MSG : Z := 0.
Definition WS_MORE : Z := 1.
Definition WS_CLOSED : Z := 2.

Definition ZCIO_WS_TEXT : Z := 1.
Definition ZCIO_WS_BINARY : Z := 2.

Record zcio_ws_msg := mk_msg { m_type : Z; m_data : bytes }.

Record zcio_ws (C : Type) := mk_ws {
  stream : option (zcio_stream C);
  w_in : zhs_buf;
  frag : zhs_buf;
  cur_opcode : Z;
  frag_active : bool;
  max_msg_bytes : Z;
  timeout_ms : Z;
  is_server : bool;
  close_sent : bool;
  close_recv : bool;
  failed : bool;
  close_code : Z;
  rng : nat;      (* entropy calls made *)
  clock : nat;    (* clock readings made *)
  sent : list (Z * bytes);
}.
Arguments mk_ws {C}.
Arguments stream {C}. Arguments w_in {C}. Arguments frag {C}. Arguments cur_opcode {C}.
Arguments frag_active {C}. Arguments max_msg_bytes {C}. Arguments timeout_ms {C}.
Arguments is_server {C}. Arguments close_sent {C}. Arguments close_recv {C}.
Arguments failed {C}. Arguments close_code {C}. Arguments rng {C}. Arguments clock {C}.
Arguments sent {C}.

Section Setters.
Context {C : Type}.
Definition set_stream (v : option (zcio_stream C)) (w : zcio_ws C) : zcio_ws C :=
  mk_ws v (w_in w) (frag w) (cur_opcode w) (frag_active w) (max_msg_bytes w) (timeout_ms w) (is_server w)
    (close_sent w) (close_recv w) (failed w) (close_code w) (rng w) (clock w) (sent w).
Definition set_in (v : zhs_buf) (w : zcio_ws C) : zcio_ws C :=
  mk_ws (stream w) v (frag w) (cur_opcode w) (frag_active w) (max_msg_bytes w) (timeout_ms w) (is_server w)
    (close_sent w) (close_recv w) (failed w) (close_code w) (rng w) (clock w) (sent w).
Definition set_frag (v : zhs_buf) (w : zcio_ws C) : zcio_ws C :=
  mk_ws (stream w) (w_in w) v (cur_opcode w) (frag_active w) (max_msg_bytes w) (timeout_ms w) (is_server w)
    (close_sent w) (close_recv w) (failed w) (close_code w) (rng w) (clock w) (sent w).
Definition set_cur_opcode (v : Z) (w : zcio_ws C) : zcio_ws C :=
  mk_ws (stream w) (w_in w) (frag w) v (frag_active w) (max_msg_bytes w) (timeout_ms w) (is_server w)
    (close_sent w) (close_recv w) (failed w) (close_code w) (rng w) (clock w) (sent w).
Definition set_frag_active (v : bool) (w : zcio_ws C) : zcio_ws C :=
  mk_ws (stream w) (w_in w) (frag w) (cur_opcode w) v (max_msg_bytes w) (timeout_ms w) (is_server w)
    (close_sent w) (close_recv w) (failed w) (close_code w) (rng w) (clock w) (sent w).
Definition set_max_msg_bytes (v : Z) (w : zcio_ws C) : zcio_ws C :=
  mk_ws (stream w) (w_in w) (frag w) (cur_opcode w) (frag_active w) v (timeout_ms w) (is_server w)
    (close_sent w) (close_recv w) (failed w) (close_code w) (rng w) (clock w) (sent w).
Definition set_timeout_ms (v : Z) (w : zcio_ws C) : zcio_ws C :=
  mk_ws (stream w) (w_in w) (frag w) (cur_opcode w) (frag_active w) (max_msg_bytes w) v (is_server w)
    (close_sent w) (close_recv w) (failed w) (close_code w) (rng w) (clock w) (sent w).
Definition set_close_sent (v : bool) (w : zcio_ws C) : zcio_ws C :=
  mk_ws (stream w) (w_in w) (frag w) (cur_opcode w) (frag_active w) (max_msg_bytes w) (timeout_ms w) (is_server w)
    v (close_recv w) (failed w) (close_code w) (rng w) (clock w) (sent w).
Definition set_close_recv (v : bool) (w : zcio_ws C) : zcio_ws C :=
  mk_ws (stream w) (w_in w) (frag w) (cur_opcode w) (frag_active w) (max_msg_bytes w) (timeout_ms w) (is_server w)
    (close_sent w) v (failed w) (close_code w) (rng w) (clock w) (sent w).
Definition set_failed (v : bool) (w : zcio_ws C) : zcio_ws C :=
  mk_ws (stream w) (w_in w) (frag w) (cur_opcode w) (frag_active w) (max_msg_bytes w) (timeout_ms w) (is_server w)
    (close_sent w) (close_recv w) v (close_code w) (rng w) (clock w) (sent w).
Definition set_close_code (v : Z) (w : zcio_ws C) : zcio_ws C :=
  mk_ws (stream w) (w_in w) (frag w) (cur_opcode w) (frag_active w) (max_msg_bytes w) (timeout_ms w) (is_server w)
    (close_sent w) (close_recv w) (failed w) v (rng w) (clock w) (sent w).
Definition set_rng (v : nat) (w : zcio_ws C) : zcio_ws C :=
  mk_ws (stream w) (w_in w) (frag w) (cur_opcode w) (frag_active w) (max_msg_bytes w) (timeout_ms w) (is_server w)
    (close_sent w) (close_recv w) (failed w) (close_code w) v (clock w) (sent w).
Definition set_clock (v : nat) (w : zcio_ws C) : zcio_ws C :=
  mk_ws (stream w) (w_in w) (frag w) (cur_opcode w) (frag_active w) (max_msg_bytes w) (timeout_ms w) (is_server w)
    (close_sent w) (close_recv w) (failed w) (close_code w) (rng w) v (sent w).
Definition set_sent (v : list (Z * bytes)) (w : zcio_ws C) : zcio_ws C :=
  mk_ws (stream w) (w_in w) (frag w) (cur_opcode w) (frag_active w) (max_msg_bytes w) (timeout_ms w) (is_server w)
    (close_sent w) (close_recv w) (failed w) (close_code w) (rng w) (clock w) v.
End Setters.

(** ** Frames on the wire *)

(** [s] masked with [key], whose first octet is at index [i] of the payload. *)
Fixpoint mask_from (i : nat) (key s : bytes) : bytes :=
  match s with [] => [] | b :: s => Z.lxor b (nth (i mod 4) key 0) :: mask_from (S i) key s end.

Definition be64_bytes (v : Z) : bytes := map (λ i, u8 (Z.shiftr v (56 - Z.of_nat i * 8))) (seq 0 8).

(** The first octets of [ws_send_frame]'s [hdr]. *)
Definition frame_head (server fin : bool) (opcode len : Z) : bytes :=
  let mbit := if server then 0 else 0x80 in
  u8 (Z.lor (if fin then 0x80 else 0) (Z.land opcode 0x0f)) ::
  (if len <? 126 then [u8 (Z.lor mbit len)]
   else if len <=? 0xffff then
     [u8 (Z.lor mbit 126); u8 (Z.land (Z.shiftr len 8) 0xff); u8 (Z.land len 0xff)]
   else u8 (Z.lor mbit 127) :: be64_bytes len).

Section Ws.
Context `{Allocator} {C : Type}.
(** The [k]-th call of the OS entropy source, the [k]-th reading of the clock,
    and what setting a timeout does to the transport. *)
Context (entropy : nat → Z → Z → option bytes) (now : nat → Z).
Context (set_timeout : option (zcio_stream C) → Z → option (zcio_stream C)).
Abbreviation ws := (zcio_ws C).

Definition ws_apply_timeout (w : ws) (t : Z) : ws := set_stream (set_timeout (stream w) t) w.

Definition write_all (w : ws) (s : bytes) : exec (bool * ws) :=
  '(st, r) ← zcio_write_full (stream w) s;
  Ok (r =? zlen s, set_stream st w).

Definition CHUNK : Z := 1024.

Fixpoint send_masked (fuel : nat) (w : ws) (key data : bytes) (off : Z) : exec (Z * ws) :=
  match fuel with
  | O => OutOfFuel
  | S fuel =>
      if off <? zlen data then
        let c := if CHUNK <? zlen data - off then CHUNK else zlen data - off in
        '(ok, w) ← write_all w (mask_from (Z.to_nat off) key (slice off c data));
        if negb ok then Ok (ZCIO_ERR, w) else send_masked fuel w key data (off + c)
      else Ok (ZCIO_OK, w)
  end.

(** The masking key: fresh entropy in the client role, unused by a server. *)
Definition frame_key (w : ws) : exec (bool * bytes * ws) :=
  if is_server w then Ok (true, [0; 0; 0; 0], w)
  else
    '(r, k) ← zcio_rand_bytes_ (entropy (rng w)) false 4;
    Ok (r =? ZCIO_OK, k, set_rng (S (rng w)) w).

Definition send_payload (w : ws) (key data : bytes) : exec (Z * ws) :=
  if is_server w then
    '(ok, w) ← write_all w data;
    if negb ok then Ok (ZCIO_ERR, w) else Ok (ZCIO_OK, w)
  else send_masked (S (length data)) w key data 0.

Definition ws_send_frame (w : ws) (opcode : Z) (fin : bool) (data : bytes) : exec (Z * ws) :=
  let w := set_sent (sent w ++ [(opcode, data)]) w in
  let len := zlen data in
  let hdr := frame_head (is_server w) fin opcode len in
  '(ok, key, w) ← frame_key w;
  if negb ok then Ok (ZCIO_ERR, w)
  else
    let hdr := if is_server w then hdr else hdr ++ key in
    let w := ws_apply_timeout w (timeout_ms w) in
    '(ok, w) ← write_all w hdr;
    if negb ok then Ok (ZCIO_ERR, w)
    else if len =? 0 then Ok (ZCIO_OK, w)
    else send_payload w key data.

Definition code_bytes (code : Z) : bytes := [u8 (Z.shiftr code 8); u8 code].

(** [if (!ws->close_sent) { send Close, ignoring the result; close_sent = true }] *)
Definition send_close_once (w : ws) (payload : bytes) : exec ws :=
  if close_sent w then Ok w
  else '(_, w) ← ws_send_frame w WS_OP_CLOSE true payload; Ok (set_close_sent true w).

Definition ws_protocol_fail (w : ws) (code : Z) : exec (Z * ws) :=
  w ← send_close_once w (code_bytes code);
  Ok (ZCIO_ERR_PROTOCOL, set_failed true w).

(** ** Input *)

Definition ws_fill (w : ws) (t : Z) : exec (Z * ws) :=
  let w := ws_apply_timeout w t in
  '(st, n, d) ← zcio_read (stream w) false 4096;
  let w := set_stream st w in
  if 0 <? n then
    let '(r, b) := zhs_buf_append_ (w_in w) (ztake n d) in
    Ok (if r =? ZCIO_OK then ZCIO_OK else ZCIO_ERR_NOMEM, set_in b w)
  else if n =? 0 then Ok (ZCIO_ERR_EOF, w)
  else if (n =? ZCIO_ERR_TIMEOUT) || (n =? ZCIO_ERR_WOULDBLOCK) then Ok (ZCIO_ERR_TIMEOUT, w)
  else Ok (n, w).

Definition ws_emit (opcode : Z) (data : bytes) : Z * option zcio_ws_msg :=
  if zcio_xmalloc_ok (u64 (zlen data + 1))
  then (WS_MSG, Some (mk_msg (if opcode =? WS_OP_TEXT then ZCIO_WS_TEXT else ZCIO_WS_BINARY) data))
  else (ZCIO_ERR_NOMEM, None).

(** One turn of the parser loop: go on, or return. *)
Inductive pturn := PAgain (w : ws) | PDone (r : Z) (m : option zcio_ws_msg) (w : ws).

Definition pfail (w : ws) (code : Z) : exec pturn :=
  '(r, w) ← ws_protocol_fail w code; Ok (PDone r None w).

Definition consume (n : Z) (w : ws) : ws := set_in (zhs_buf_consume_ (w_in w) n) w.

Definition close_code_ok (code : Z) : bool :=
  ((1000 <=? code) && (code <=? 1003)) || ((1007 <=? code) && (code <=? 1014)) ||
  ((3000 <=? code) && (code <=? 4999)).

(** The end of the CLOSE case: note the code, echo once, report the close. *)
Definition pump_close (w : ws) (code total : Z) (echo : bytes) : exec pturn :=
  let w := set_close_recv true (set_close_code code w) in
  w ← send_close_once w echo;
  Ok (PDone WS_CLOSED None (consume total w)).

(** The TEXT and BIN cases: a whole message, or its first fragment. *)
Definition pump_data (w : ws) (opcode : Z) (fin : bool) (payload : bytes) (total : Z) : exec pturn :=
  if frag_active w then pfail w 1002
  else if fin then
    if (opcode =? WS_OP_TEXT) && negb (zhs_utf8_valid_ payload) then pfail (consume total w) 1007
    else let '(r, m) := ws_emit opcode payload in Ok (PDone r m (consume total w))
  else
    let w := set_cur_opcode opcode (set_frag_active true w) in
    let '(a, b) := zhs_buf_append_ (frag w) payload in
    let w := consume total (set_frag b w) in
    if negb (a =? ZCIO_OK) then Ok (PDone ZCIO_ERR_NOMEM None w) else Ok (PAgain w).

(** The CONT case: one more fragment, perhaps the last. *)
Definition pump_cont (w : ws) (fin : bool) (payload : bytes) (total : Z) : exec pturn :=
  if negb (frag_active w) then pfail w 1002
  else
    let '(a, b) := zhs_buf_append_ (frag w) payload in
    let w := consume total (set_frag b w) in
    if negb (a =? ZCIO_OK) then Ok (PDone ZCIO_ERR_NOMEM None w)
    else if fin then
      let m := buf_contents (frag w) in
      let w' := set_frag (zhs_buf_reset_ (frag w)) (set_frag_active false w) in
      if (cur_opcode w =? WS_OP_TEXT) && negb (zhs_utf8_valid_ m) then pfail w' 1007
      else let '(r, msg) := ws_emit (cur_opcode w) m in Ok (PDone r msg w')
    else Ok (PAgain w).

(** The switch on a complete, unmasked frame of [total] octets. *)
Definition pump_frame (w : ws) (opcode : Z) (fin : bool) (payload : bytes) (total : Z) : exec pturn :=
  let len := zlen payload in
  if opcode =? WS_OP_PING then
    '(s, w) ← ws_send_frame w WS_OP_PONG true payload;
    let w := consume total w in
    if negb (s =? ZCIO_OK) then Ok (PDone s None w) else Ok (PAgain w)
  else if opcode =? WS_OP_PONG then Ok (PAgain (consume total w))
  else if opcode =? WS_OP_CLOSE then
    if len =? 1 then pfail (consume total w) 1002
    else if 2 <=? len then
      let code := u16 (Z.lor (u16 (Z.shiftl (nth 0 payload 0) 8)) (nth 1 payload 0)) in
      if negb (close_code_ok code) then pfail (consume total w) 1002
      else if (2 <? len) && negb (zhs_utf8_valid_ (zdrop 2 payload)) then pfail (consume total w) 1007
      else pump_close w code total (code_bytes code)
    else pump_close w 1005 total []
  else if (opcode =? WS_OP_TEXT) || (opcode =? WS_OP_BIN) then
    pump_data w opcode fin payload total
  else if opcode =? WS_OP_CONT then
    pump_cont w fin payload total
  else pfail w 1002.

Definition known_opcode (o : Z) : bool :=
  (o =? WS_OP_CONT) || (o =? WS_OP_TEXT) || (o =? WS_OP_BIN) || (o =? WS_OP_CLOSE) ||
  (o =? WS_OP_PING) || (o =? WS_OP_PONG).

Definition be_val (s : bytes) : Z := fold_left (λ v b, Z.lor (u64 (Z.shiftl v 8)) b) s 0.

Definition pump_turn (w : ws) : exec pturn :=
  let avail := ZHS_AVAIL (w_in w) in
  let more := Ok (PDone WS_MORE None w) in
  if avail <? 2 then more
  else
    let p := buf_contents (w_in w) in
    let p0 := nth 0 p 0 in let p1 := nth 1 p 0 in
    if negb (Z.land p0 0x70 =? 0) then pfail w 1002
    else
      let opcode := Z.land p0 0x0f in
      let fin := negb (Z.land p0 0x80 =? 0) in
      let masked := negb (Z.land p1 0x80 =? 0) in
      let len7 := Z.land p1 0x7f in
      let base := if len7 =? 126 then 4 else if len7 =? 127 then 10 else 2 in
      if avail <? base then more
      else
        let len := if len7 =? 126 then Z.lor (Z.shiftl (nth 2 p 0) 8) (nth 3 p 0)
                   else if len7 =? 127 then be_val (slice 2 8 p) else len7 in
        if (len7 =? 127) && (2 ^ 63 <=? len) then pfail w 1002
        else if is_server w && negb masked then pfail w 1002
        else if negb (is_server w) && masked then pfail w 1002
        else
          let control := negb (Z.land opcode 0x08 =? 0) in
          if negb (known_opcode opcode) then pfail w 1002
          else if control && (negb fin || (125 <? len)) then pfail w 1002
          else if negb control && ((max_msg_bytes w <? ZHS_AVAIL (frag w)) ||
                                   (u64 (max_msg_bytes w - ZHS_AVAIL (frag w)) <? len)) then pfail w 1009
          else
            let data_off := if masked then base + 4 else base in
            if avail <? data_off then more
            else if SIZE_MAX - data_off <? len then pfail w 1009
            else
              let total := data_off + len in
              if avail <? total then more
              else
                let raw := slice data_off len p in
                (* unmasked in place *)
                let payload := if masked then mask_from 0 (slice base 4 p) raw else raw in
                data ← mem_write (b_off (w_in w) + data_off) payload (b_data (w_in w));
                let b := mk_buf data (b_off (w_in w)) (b_len (w_in w)) (b_cap (w_in w)) in
                pump_frame (set_in b w) opcode fin payload total.

Fixpoint pump_loop (fuel : nat) (w : ws) : exec (Z * option zcio_ws_msg * ws) :=
  match fuel with
  | O => OutOfFuel
  | S fuel =>
      t ← pump_turn w;
      match t with PDone r m w => Ok (r, m, w) | PAgain w => pump_loop fuel w end
  end.

(** Every turn that goes on consumes at least two octets. *)
Definition ws_pump (w : ws) : exec (Z * option zcio_ws_msg * ws) :=
  pump_loop (S (Z.to_nat (ZHS_AVAIL (w_in w)))) w.

(** ** Session operations *)

Definition ws_new (st : option (zcio_stream C)) (server : bool) : option ws :=
  if zcio_xcalloc_ok 1 152 then
    Some (ws_apply_timeout
      (mk_ws st buf_empty buf_empty 0 false WS_DEFAULT_MAX_MSG WS_DEFAULT_TIMEOUT server
         false false false 0 0 0 []) WS_DEFAULT_TIMEOUT)
  else None.

Definition zcio_ws_send (w : ws) (type : Z) (data : bytes) : exec (Z * ws) :=
  if failed w || close_sent w then Ok (ZCIO_ERR, w)
  else if type =? ZCIO_WS_TEXT then
    if negb (zlen data =? 0) && negb (zhs_utf8_valid_ data) then Ok (ZCIO_ERR_INVALID_ARG, w)
    else ws_send_frame w WS_OP_TEXT true data
  else if type =? ZCIO_WS_BINARY then ws_send_frame w WS_OP_BIN true data
  else Ok (ZCIO_ERR_INVALID_ARG, w).

Definition zcio_ws_send_text (w : ws) (text : option bytes) : exec (Z * ws) :=
  match text with
  | None => Ok (ZCIO_ERR_INVALID_ARG, w)
  | Some t => zcio_ws_send w ZCIO_WS_TEXT t
  end.

Definition zcio_now_ms (w : ws) : Z * ws := (now (clock w), set_clock (S (clock w)) w).

Definition INT_MAX : Z := 2 ^ 31 - 1.

Fixpoint recv_loop (fuel : nat) (w : ws) (bounded : bool) (deadline : Z)
  : exec (Z * option zcio_ws_msg * ws) :=
  match fuel with
  | O => OutOfFuel
  | S fuel =>
      '(r, m, w) ← ws_pump w;
      if r =? WS_MSG then Ok (ZCIO_OK, m, w)
      else if r =? WS_CLOSED then Ok (ZCIO_ERR_EOF, None, w)
      else if r <? 0 then Ok (r, None, w)
      else
        let '(t, w) := if bounded then zcio_now_ms w else (0, w) in
        if bounded && (deadline <=? t) then Ok (ZCIO_ERR_TIMEOUT, None, w)
        else
          let rem := u64 (deadline - t) in
          let to := if bounded then (if INT_MAX <? rem then INT_MAX else rem) else -1 in
          '(fr, w) ← ws_fill w to;
          if fr =? ZCIO_ERR_TIMEOUT then
            if negb bounded then recv_loop fuel w bounded deadline else Ok (ZCIO_ERR_TIMEOUT, None, w)
          else if fr =? ZCIO_ERR_EOF then Ok (ZCIO_ERR_EOF, None, set_failed true w)
          else if fr <? 0 then Ok (fr, None, w)
          else recv_loop fuel w bounded deadline
  end.

Definition zcio_ws_recv (fuel : nat) (w : ws) (timeout : Z) : exec (Z * option zcio_ws_msg * ws) :=
  if close_recv w || failed w then Ok (ZCIO_ERR_EOF, None, w)
  else
    let bounded := 0 <=? timeout in
    let '(t, w) := if bounded then zcio_now_ms w else (0, w) in
    recv_loop fuel w bounded (if bounded then u64 (t + timeout) else 0).

Definition zcio_ws_ping (w : ws) (data : bytes) : exec (Z * ws) :=
  if failed w || close_sent w then Ok (ZCIO_ERR, w)
  else if 125 <? zlen data then Ok (ZCIO_ERR_INVALID_ARG, w)
  else ws_send_frame w WS_OP_PING true data.

(** Waiting for the peer's Close. *)
Fixpoint close_loop (fuel : nat) (w : ws) (deadline : Z) : exec ws :=
  match fuel with
  | O => OutOfFuel
  | S fuel =>
      if close_recv w then Ok w
      else
        let '(t, w) := zcio_now_ms w in
        if deadline <=? t then Ok w
        else
          '(r, m, w) ← ws_pump w;
          if r =? WS_MSG then close_loop fuel w deadline
          else if r =? WS_CLOSED then Ok w
          else if r <? 0 then Ok (set_failed true w)
          else
            '(fr, w) ← ws_fill w (deadline - t);
            if fr =? ZCIO_ERR_TIMEOUT then
              let '(t, w) := zcio_now_ms w in
              if deadline <=? t then Ok w else close_loop fuel w deadline
            else if negb (fr =? ZCIO_OK) then Ok (set_failed true w)
            else close_loop fuel w deadline
  end.

Definition close_wait (fuel : nat) (w : ws) : exec (Z * ws) :=
  if negb (close_recv w) && negb (failed w) then
    let '(t, w) := zcio_now_ms w in
    let deadline := u64 (t + (if 0 <? timeout_ms w then timeout_ms w else WS_DEFAULT_TIMEOUT)) in
    w ← close_loop fuel w deadline; Ok (ZCIO_OK, w)
  else Ok (ZCIO_OK, w).

Definition zcio_ws_close (fuel : nat) (w : ws) (code : Z) (reason : option bytes) : exec (Z * ws) :=
  if negb (close_sent w) && negb (failed w) then
    let r := default [] reason in
    if 123 <? zlen r then Ok (ZCIO_ERR_INVALID_ARG, w)
    else if negb (zlen r =? 0) && negb (zhs_utf8_valid_ r) then Ok (ZCIO_ERR_INVALID_ARG, w)
    else
      '(s, w) ← ws_send_frame w WS_OP_CLOSE true (code_bytes code ++ r);
      let w := set_close_sent true w in
      if negb (s =? ZCIO_OK) then Ok (ZCIO_OK, set_failed true w) else close_wait fuel w
  else close_wait fuel w.

Definition zcio_ws_close_code (w : option ws) : Z := match w with Some w => close_code w | None => 0 end.
Definition zcio_ws_set_max_msg_bytes (w : ws) (cap : Z) : ws := if cap =? 0 then w else set_max_msg_bytes cap w.
Definition zcio_ws_set_timeout (w : ws) (t : Z) : ws := set_timeout_ms t w.

(** The best-effort close of [zcio_ws_free], and the state it releases. *)
Definition zcio_ws_free (fuel : nat) (w : option ws) : exec (option ws) :=
  match w with
  | None => Ok None
  | Some w =>
      if negb (close_sent w) && negb (failed w)
      then '(_, w) ← zcio_ws_close fuel w 1000 None; Ok (Some w) else Ok (Some w)
  end.
End Ws.
