(* ===== verification/WsSafe.v ===== *)
(** * WsSafe: what WebSocket sessions guarantee

    Frames written are the frames parsed; the parser terminates, never leaves
    its buffers and delivers only messages within the cap; and over any
    history of a session at most one Close frame is sent, with nothing but
    pongs after it. *)
From stdpp Require Import base tactics list option strings relations.
From Stdlib Require Import ZArith Lia.
From S2P Require Import Prelude Types Stream Membuf Buf Utf8 Ws.

(** ** Header octets *)

Lemma head_octet0 fin op : 0 ≤ op < 16 →
  let b := u8 (Z.lor (if fin : bool then 0x80 else 0) (Z.land op 0x0f)) in
  Z.land b 0x70 = 0 ∧ Z.land b 0x0f = op ∧ negb (Z.land b 0x80 =? 0) = fin ∧ is_byte b.
Proof.
  intros Hop b.
  assert (∀ f : bool, let b := u8 (Z.lor (if f then 0x80 else 0) (Z.land op 0x0f)) in
    (Z.land b 0x70 =? 0) && (Z.land b 0x0f =? op) && Bool.eqb (negb (Z.land b 0x80 =? 0)) f = true) as Hf.
  { intros f. apply (range_forall (λ op, let b := u8 (Z.lor (if f then 0x80 else 0) (Z.land op 0x0f)) in
      (Z.land b 0x70 =? 0) && (Z.land b 0x0f =? op) && Bool.eqb (negb (Z.land b 0x80 =? 0)) f) 16);
      [destruct f; vm_compute; reflexivity|done]. }
  specialize (Hf fin). cbv zeta in Hf. fold b in Hf.
  apply andb_prop in Hf as [Hf He]. apply Bool.eqb_prop in He. btest. split_and!; try done; apply u8_byte.
Qed.

Lemma head_octet1 server l : 0 ≤ l < 128 →
  let b := u8 (Z.lor (if server : bool then 0 else 0x80) l) in
  Z.land b 0x7f = l ∧ negb (Z.land b 0x80 =? 0) = negb server ∧ is_byte b.
Proof.
  intros Hl b.
  assert (∀ s : bool, let b := u8 (Z.lor (if s then 0 else 0x80) l) in
    (Z.land b 0x7f =? l) && Bool.eqb (negb (Z.land b 0x80 =? 0)) (negb s) = true) as Hs.
  { intros s. apply (range_forall (λ l, let b := u8 (Z.lor (if s then 0 else 0x80) l) in
      (Z.land b 0x7f =? l) && Bool.eqb (negb (Z.land b 0x80 =? 0)) (negb s)) 128);
      [destruct s; vm_compute; reflexivity|done]. }
  specialize (Hs server). cbv zeta in Hs. fold b in Hs.
  apply andb_prop in Hs as [Hs He]. apply Bool.eqb_prop in He. btest. split_and!; try done; apply u8_byte.
Qed.

(** Big-endian accumulation. *)
Lemma be_step v k k' : 0 ≤ v < 2 ^ 64 → 0 ≤ k → k' = k + 8 →
  Z.lor (u64 (Z.shiftl (v / 2 ^ k') 8)) (u8 (Z.shiftr v k)) = v / 2 ^ k.
Proof.
  intros Hv Hk ->. rewrite Z.shiftr_div_pow2 by lia. rewrite Z.pow_add_r, <- Z.div_div by lia.
  assert (0 ≤ v / 2 ^ k < 2 ^ 64) as Hd.
  { assert (0 < 2 ^ k) by (apply Z.pow_pos_nonneg; lia). split; [apply Z.div_pos; lia|].
    apply Z.le_lt_trans with v; [|lia]. apply Z.div_le_upper_bound; [lia|]. nia. }
  set (x := v / 2 ^ k) in *. rewrite wrap_small.
  - pose proof (wrap_bound 8 x). rewrite lor_shiftl_add by lia. unfold wrap. change (2 ^ 8) with 256. dlia.
  - rewrite Z.shiftl_mul_pow2 by lia. change (2 ^ 8) with 256. dlia.
Qed.

Lemma be_val_bytes v : 0 ≤ v < 2 ^ 64 → be_val (be64_bytes v) = v.
Proof.
  intros Hv. unfold be_val, be64_bytes. cbn [seq map fold_left].
  change (56 - Z.of_nat 0 * 8) with 56. change (56 - Z.of_nat 1 * 8) with 48. change (56 - Z.of_nat 2 * 8) with 40.
  change (56 - Z.of_nat 3 * 8) with 32. change (56 - Z.of_nat 4 * 8) with 24. change (56 - Z.of_nat 5 * 8) with 16.
  change (56 - Z.of_nat 6 * 8) with 8. change (56 - Z.of_nat 7 * 8) with 0.
  replace 0 with (v / 2 ^ 64) at 1 by (apply Z.div_small; exact Hv).
  rewrite (be_step v 56 64), (be_step v 48 56), (be_step v 40 48), (be_step v 32 40), (be_step v 24 32),
    (be_step v 16 24), (be_step v 8 16), (be_step v 0 8) by lia. apply Z.div_1_r.
Qed.

Lemma two_octets l : 126 ≤ l ≤ 0xffff →
  let a := u8 (Z.land (Z.shiftr l 8) 0xff) in let b := u8 (Z.land l 0xff) in
  Z.lor (Z.shiftl a 8) b = l ∧ is_byte a ∧ is_byte b.
Proof.
  intros Hl a b. split; [|split; apply u8_byte]. unfold a, b. change 0xff with (Z.ones 8).
  rewrite !Z.land_ones, Z.shiftr_div_pow2 by lia. change (2 ^ 8) with 256.
  rewrite (wrap_small 8 (l / 256 mod 256)), (wrap_small 8 (l mod 256)) by (change (2 ^ 8) with 256; dlia).
  rewrite lor_shiftl_add by (change (2 ^ 8) with 256; dlia). change (2 ^ 8) with 256. dlia.
Qed.

(** ** Masking *)

Lemma length_mask i key s : length (mask_from i key s) = length s.
Proof. revert i. induction s as [|b s IH]; intros i; [done|]. cbn. by rewrite IH. Qed.

Lemma mask_mask i key s : mask_from i key (mask_from i key s) = s.
Proof.
  revert i. induction s as [|b s IH]; intros i; [done|]. cbn [mask_from].
  by rewrite IH, Z.lxor_assoc, Z.lxor_nilpotent, Z.lxor_0_r.
Qed.

Lemma mask_app i key s t : mask_from i key (s ++ t) = mask_from i key s ++ mask_from (i + length s) key t.
Proof.
  revert i. induction s as [|b s IH]; intros i; cbn [app mask_from length]; [by rewrite Nat.add_0_r|].
  rewrite IH. do 3 f_equal. lia.
Qed.

Lemma lxor_byte a b : is_byte a → is_byte b → is_byte (Z.lxor a b).
Proof.
  unfold is_byte. intros Ha Hb. assert (0 ≤ Z.lxor a b) as Hn by (apply Z.lxor_nonneg; lia).
  split; [done|]. destruct (decide (Z.lxor a b = 0)) as [->|]; [lia|].
  change 256 with (2 ^ 8). apply Z.log2_lt_pow2; [lia|].
  eapply Z.le_lt_trans; [apply Z.log2_lxor; lia|].
  apply Z.max_lub_lt; (destruct (decide (a = 0)); destruct (decide (b = 0)); subst; try (cbn; lia);
    apply Z.log2_lt_pow2; lia).
Qed.

Lemma mask_bytes i key s : is_bytes key → is_bytes s → is_bytes (mask_from i key s).
Proof.
  intros Hk Hs. revert i. induction Hs as [|b s Hb _ IH]; intros i; cbn [mask_from]; constructor; auto.
  apply lxor_byte; [done|]. destruct (nth_in_or_default (i mod 4) key 0) as [Hin| ->]; [|unfold is_byte; lia].
  rewrite Forall_forall in Hk. apply Hk. by apply list_elem_of_In.
Qed.

(** ** The transport *)

(** A blocking transport: a sink, whose deadline can be changed without effect
    on the bytes it accepted. *)
Class BlockingSink {C} (vt : zcio_stream_vtable C) (inv : C → Prop) (acc : C → bytes) (room : C → Z)
    (set_timeout : option (zcio_stream C) → Z → option (zcio_stream C)) : Prop := {
  bs_sink :: Sink vt inv acc room;
  bs_room : ∀ c, inv c → 0 ≤ room c;
  bs_timeout : ∀ c fl t, inv c → ∃ c', set_timeout (Some (mk_stream vt c fl)) t = Some (mk_stream vt c' fl) ∧
    inv c' ∧ acc c' = acc c ∧ room c' = room c;
}.

(** Everything but the transport, the counters and the ghost. *)
Definition core {C} (w : zcio_ws C) : zcio_ws unit :=
  mk_ws None (w_in w) (frag w) (cur_opcode w) (frag_active w) (max_msg_bytes w) (timeout_ms w)
    (is_server w) (close_sent w) (close_recv w) (failed w) (close_code w) 0 0 [].

(** A whole frame as it goes on the wire. *)
Definition encode_frame (mkey : option bytes) (fin : bool) (opcode : Z) (payload : bytes) : bytes :=
  frame_head (negb (if mkey is Some _ then true else false)) fin opcode (zlen payload) ++
  match mkey with Some k => k ++ mask_from 0 k payload | None => payload end.

Section Output.
Context `{Allocator} {C : Type}.
Context (entropy : nat → Z → Z → option bytes) (now : nat → Z).
Context (set_timeout : option (zcio_stream C) → Z → option (zcio_stream C)).
Context {vt : zcio_stream_vtable C} {inv : C → Prop} {acc : C → bytes} {room : C → Z}.
Context `{!BlockingSink vt inv acc room set_timeout}.

Definition on_wire (w : zcio_ws C) : Prop :=
  match stream w with Some s => s_vt s = vt ∧ inv (s_ctx s) | None => False end.
Definition wire (w : zcio_ws C) : bytes := match stream w with Some s => acc (s_ctx s) | None => [] end.
Definition wroom (w : zcio_ws C) : Z := match stream w with Some s => room (s_ctx s) | None => 0 end.

(** [w'] is [w] after [s] went over the transport. *)
Definition moved (w w' : zcio_ws C) (s : bytes) : Prop :=
  on_wire w' ∧ core w' = core w ∧ wire w' = wire w ++ s ∧ wroom w' = wroom w - zlen s.

Lemma wroom_nonneg w : on_wire w → 0 ≤ wroom w.
Proof. unfold on_wire, wroom. destruct (stream w) as [[v c fl]|]; [|done]. intros [_ Hi]. by apply bs_room. Qed.

Lemma write_all_spec w s : on_wire w →
  ∃ ok w' p, write_all w s = Ok (ok, w') ∧ moved w w' p ∧ sent w' = sent w ∧
    p = ztake (wroom w) s ∧ (ok = true ↔ zlen s ≤ wroom w).
Proof.
  intros Hw. pose proof (wroom_nonneg w Hw) as Hr0. unfold write_all, on_wire, moved, wire, wroom in *.
  destruct (stream w) as [[v c fl]|] eqn:E; [|done]. cbn [s_vt s_ctx] in *. destruct Hw as [-> Hi].
  destruct (write_full_sink (vt := vt) fl c s Hi Hr0) as (c' & -> & Hi' & Ha & Hr).
  cbn [mbind exec_bind]. eexists _, _, _. split; [done|].
  assert (ztake (room c) s = ztake (Z.min (zlen s) (room c)) s) as Hp.
  { destruct (decide (zlen s ≤ room c)); [|f_equal; lia]. rewrite !take_ge by lia. done. }
  split; [|split; [done|split; [exact eq_refl|rewrite Z.eqb_eq; lia]]].
  rewrite Hp. cbn. split; [done|]. split; [done|]. split; [done|]. rewrite Hr. zl.
Qed.

Lemma apply_timeout_spec w t : on_wire w →
  moved w (ws_apply_timeout set_timeout w t) [] ∧ sent (ws_apply_timeout set_timeout w t) = sent w.
Proof.
  unfold on_wire, moved, ws_apply_timeout, wire, wroom. cbn [stream set_stream].
  destruct (stream w) as [[v c fl]|] eqn:E; [|done]. cbn. intros [-> Hi].
  destruct (bs_timeout c fl t Hi) as (c' & -> & H1 & H2 & H3). cbn. rewrite app_nil_r.
  split; [|done]. unfold on_wire. cbn. split_and!; try done. lia.
Qed.

Lemma moved_trans w1 w2 w3 s t : moved w1 w2 s → moved w2 w3 t → moved w1 w3 (s ++ t).
Proof.
  intros (A1 & A2 & A3 & A4) (B1 & B2 & B3 & B4). split; [done|]. split; [congruence|].
  split; [by rewrite B3, A3, app_assoc|]. rewrite B4, A4. zl.
Qed.

Lemma send_masked_spec fuel w key data off :
  on_wire w → 0 ≤ off ≤ zlen data → zlen data - off < Z.of_nat fuel →
  ∃ r w' p, send_masked fuel w key data off = Ok (r, w') ∧ moved w w' p ∧ sent w' = sent w ∧
    (r = ZCIO_OK ∨ r = ZCIO_ERR) ∧
    (zlen data - off ≤ wroom w → r = ZCIO_OK ∧ p = mask_from (Z.to_nat off) key (zdrop off data)).
Proof.
  revert w off. induction fuel as [|fuel IH]; intros w off Hw Ho Hf; [lia|]. cbn [send_masked].
  bcase.
  2:{ exists ZCIO_OK, w, []. split; [done|]. split.
      { split; [done|]. split; [done|]. rewrite app_nil_r. split; [done|]. cbn. lia. }
      split; [done|]. split; [by left|]. intros _. rewrite drop_ge by lia. done. }
  set (c := if CHUNK <? zlen data - off then CHUNK else zlen data - off).
  assert (0 < c ≤ zlen data - off) as Hc by (unfold c, CHUNK; bcase; lia).
  set (chunk := mask_from (Z.to_nat off) key (slice off c data)).
  assert (zlen chunk = c) as Hcl by (subst chunk; rewrite length_mask; zl).
  destruct (write_all_spec w chunk Hw) as (ok & w1 & p & -> & Hm & Hs & -> & Hok). cbn [mbind exec_bind].
  destruct ok; cbn [negb].
  - destruct Hok as [Hok _]. specialize (Hok eq_refl).
    destruct (IH w1 (off + c)) as (r & w2 & p2 & -> & Hm2 & Hs2 & Hr & Hfull); [apply Hm|lia|lia|].
    pose proof (moved_trans _ _ _ _ _ Hm Hm2) as Hm12. eexists r, w2, _. split; [done|]. split; [exact Hm12|].
    split; [congruence|]. split; [done|]. intros Hroom. destruct Hfull as [-> ->].
    { destruct Hm as (_ & _ & _ & ->). rewrite take_ge by lia. lia. }
    split; [done|]. rewrite take_ge by lia. unfold chunk, slice.
    rewrite <- (take_drop (Z.to_nat c) (zdrop off data)) at 2. rewrite mask_app, drop_drop, length_take, length_drop.
    rewrite Nat.min_l, <- Z2Nat.inj_add by lia. done.
  - exists ZCIO_ERR, w1, (ztake (wroom w) chunk). split; [done|]. split; [done|]. split; [done|].
    split; [by right|]. intros Hroom. destruct Hok as [_ Hok]. discriminate Hok. lia.
Qed.

(** Four octets are one request to the OS. *)
Lemma rand4 k : zcio_rand_bytes_ (entropy k) false 4 =
  match entropy k 0 4 with Some e => Ok (ZCIO_OK, e) | None => Ok (ZCIO_ERR, []) end.
Proof.
  unfold zcio_rand_bytes_. cbn [andb]. change (S (Z.to_nat 4)) with 5%nat. cbn [rand_bytes_loop].
  change (0 <? 4) with true. change (256 <? 4) with false. change (4 - 4) with 0. change (0 <? 0) with false.
  cbv iota. change (zlen []) with 0. by destruct (entropy k 0 4).
Qed.

Definition mkey_of (w : zcio_ws C) : option bytes :=
  if is_server w then None else entropy (rng w) 0 4.

Lemma core_server (w w' : zcio_ws C) : core w' = core w → is_server w' = is_server w.
Proof. intros E. by injection E. Qed.

Lemma moved_refl w : on_wire w → moved w w [].
Proof. intros Hw. split; [done|]. split; [done|]. rewrite app_nil_r. split; [done|]. cbn. lia. Qed.

Lemma send_payload_spec w key data : on_wire w →
  ∃ r w' p, send_payload w key data = Ok (r, w') ∧ moved w w' p ∧ sent w' = sent w ∧
    (r = ZCIO_OK ∨ r = ZCIO_ERR) ∧
    (zlen data ≤ wroom w → r = ZCIO_OK ∧ p = if is_server w then data else mask_from 0 key data).
Proof.
  intros Hw. unfold send_payload. destruct (is_server w).
  - destruct (write_all_spec w data Hw) as (ok & w' & p & -> & Hm & Hs & -> & Hok). cbn [mbind exec_bind].
    destruct ok; cbn [negb]; eexists _, w', _; (split; [done|]); (split; [exact Hm|]); (split; [done|]).
    + split; [by left|]. intros Hr. by rewrite take_ge by lia.
    + split; [by right|]. intros Hr. destruct Hok as [_ Hok]. discriminate Hok. lia.
  - destruct (send_masked_spec (S (length data)) w key data 0 Hw) as (r & w' & p & -> & Hm & Hs & Hr & Hfull);
      [lia|lia|]. exists r, w', p. split; [done|]. split; [done|]. split; [done|]. split; [done|].
    rewrite drop_0, Z.sub_0_r in Hfull. exact Hfull.
Qed.

Lemma frame_key_spec w : on_wire w →
  ∃ ok key w', frame_key entropy w = Ok (ok, key, w') ∧ moved w w' [] ∧ sent w' = sent w ∧
    (if is_server w then ok = true else entropy (rng w) 0 4 = if ok then Some key else None).
Proof.
  intros Hw. unfold frame_key. pose proof (moved_refl w Hw) as Hm. destruct (is_server w).
  - exists true, [0; 0; 0; 0], w. done.
  - rewrite rand4. destruct (entropy (rng w) 0 4) as [k|]; cbn [mbind exec_bind].
    + exists true, k, (set_rng (S (rng w)) w). done.
    + exists false, [], (set_rng (S (rng w)) w). done.
Qed.

Lemma send_frame_spec w op fin data : on_wire w →
  ∃ r w' p, ws_send_frame entropy set_timeout w op fin data = Ok (r, w') ∧ moved w w' p ∧
    sent w' = sent w ++ [(op, data)] ∧ (r = ZCIO_OK ∨ r = ZCIO_ERR) ∧
    ((is_server w = false → entropy (rng w) 0 4 ≠ None) →
     zlen (encode_frame (mkey_of w) fin op data) ≤ wroom w →
     r = ZCIO_OK ∧ p = encode_frame (mkey_of w) fin op data).
Proof.
  intros Hw. unfold ws_send_frame. set (w0 := set_sent _ w).
  assert (moved w w0 []) as Hm0 by (exact (moved_refl w Hw)).
  destruct (frame_key_spec w0 (proj1 Hm0)) as (ok & key & w1 & -> & Hm1 & Hs1 & Hkey).
  pose proof (moved_trans _ _ _ _ _ Hm0 Hm1) as M1. cbn [app mbind exec_bind] in *.
  change (is_server w0) with (is_server w) in *. change (rng w0) with (rng w) in *.
  assert (is_server w1 = is_server w) as Es1 by (apply core_server, M1).
  destruct ok; cbn [negb].
  2:{ eexists ZCIO_ERR, w1, []. split; [done|]. split; [exact M1|]. split; [by rewrite Hs1|].
      split; [by right|]. intros Hne _. destruct (is_server w) eqn:Es; [done|]. by destruct (Hne eq_refl). }
  rewrite Es1. destruct (apply_timeout_spec w1 (timeout_ms w1)) as [Hm2 Hs2]; [apply M1|].
  set (w2 := ws_apply_timeout _ _ _) in *. pose proof (moved_trans _ _ _ _ _ M1 Hm2) as M2. cbn [app] in M2.
  set (hdr := if is_server w then _ else _).
  assert (wroom w2 = wroom w) as Hw2 by (destruct M2 as (_ & _ & _ & ->); cbn; lia).
  assert (zlen (encode_frame (mkey_of w) fin op data) = zlen hdr + zlen data ∧
    encode_frame (mkey_of w) fin op data = hdr ++ if is_server w then data else mask_from 0 key data) as [Hel Hee].
  { unfold encode_frame, mkey_of, hdr. destruct (is_server w) eqn:Es.
    - cbn [negb]. split; [zl|done].
    - rewrite Hkey. cbn [negb]. zlen_simpl. rewrite length_mask, <- app_assoc. split; [lia|done]. }
  rewrite Hel, Hee.
  destruct (write_all_spec w2 hdr) as (ok & w3 & p3 & -> & Hm3 & Hs3 & -> & Hok); [apply M2|]. cbn [mbind exec_bind].
  pose proof (moved_trans _ _ _ _ _ M2 Hm3) as M3. cbn [app] in M3. rewrite Hw2 in *.
  destruct ok; cbn [negb].
  2:{ eexists ZCIO_ERR, w3, _. split; [done|]. split; [exact M3|]. split; [by rewrite ?Hs4, Hs3, Hs2, Hs1|]. split; [by right|].
      intros _ Hroom. destruct Hok as [_ Hok]. discriminate Hok. lia. }
  destruct Hok as [Hok _]. specialize (Hok eq_refl). rewrite take_ge in M3 by lia.
  bcase.
  - eexists ZCIO_OK, w3, _. split; [done|]. split; [exact M3|]. split; [by rewrite ?Hs4, Hs3, Hs2, Hs1|]. split; [by left|].
    intros _ _. split; [done|]. destruct data; [|done]. by destruct (is_server w); rewrite app_nil_r.
  - destruct (send_payload_spec w3 key data) as (r & w4 & p & -> & Hm4 & Hs4 & Hr & Hfull); [apply M3|].
    pose proof (moved_trans _ _ _ _ _ M3 Hm4) as M4. eexists r, w4, _. split; [done|]. split; [exact M4|].
    split; [by rewrite ?Hs4, Hs3, Hs2, Hs1|]. split; [done|]. intros _ Hroom. destruct Hfull as [-> ->].
    { destruct M3 as (_ & _ & _ & ->). lia. }
    split; [done|]. by rewrite (core_server w w3) by apply M3.
Qed.

(** ** The parser *)

Definition ws_wf (w : zcio_ws C) : Prop :=
  on_wire w ∧ buf_wf (w_in w) ∧ is_bytes (buf_contents (w_in w)) ∧
  buf_wf (frag w) ∧ is_bytes (buf_contents (frag w)) ∧ 0 ≤ max_msg_bytes w < 2 ^ 64.

Lemma core_wf w w' : core w' = core w → on_wire w' → ws_wf w → ws_wf w'.
Proof. intros E Ho (_ & Hwf). split; [done|]. by injection E as -> -> _ _ -> _ _ _ _ _ _. Qed.

Lemma send_close_once_spec w p : on_wire w →
  ∃ w', send_close_once entropy set_timeout w p = Ok w' ∧ on_wire w' ∧ core w' = core (set_close_sent true w).
Proof.
  intros Hw. unfold send_close_once. destruct (close_sent w) eqn:Ec.
  - exists w. split; [done|]. split; [done|]. unfold core. by rewrite Ec.
  - destruct (send_frame_spec w WS_OP_CLOSE true p Hw) as (r & w' & q & -> & (Ho & Hc & _) & _).
    cbn [mbind exec_bind]. eexists. split; [done|]. split; [exact Ho|].
    injection Hc as ? ? ? ? ? ? ? ? ? ? ?. unfold core. cbn. f_equal; assumption.
Qed.

Lemma pfail_spec w code : on_wire w →
  ∃ w', pfail entropy set_timeout w code = Ok (PDone ZCIO_ERR_PROTOCOL None w') ∧ on_wire w' ∧
    core w' = core (set_failed true (set_close_sent true w)).
Proof.
  intros Hw. unfold pfail, ws_protocol_fail.
  destruct (send_close_once_spec w (code_bytes code) Hw) as (w' & -> & Ho & Hc). cbn [mbind exec_bind].
  eexists. split; [done|]. split; [exact Ho|]. injection Hc as ? ? ? ? ? ? ? ? ? ? ?. unfold core. cbn in *. f_equal; assumption.
Qed.

(** What a session may get from the parser. *)
Definition pump_result (max : Z) (r : Z) (m : option zcio_ws_msg) (w' : zcio_ws C) : Prop :=
  (r = WS_MORE ∧ m = None) ∨
  (r = WS_MSG ∧ ∃ msg, m = Some msg ∧ zlen (m_data msg) ≤ max ∧
     ((m_type msg = ZCIO_WS_TEXT ∧ zhs_utf8_valid_ (m_data msg) = true) ∨ m_type msg = ZCIO_WS_BINARY)) ∨
  (r = WS_CLOSED ∧ m = None ∧ close_recv w' = true ∧ close_sent w' = true) ∨
  (r = ZCIO_ERR_PROTOCOL ∧ m = None ∧ failed w' = true ∧ close_sent w' = true) ∨
  ((r = ZCIO_ERR_NOMEM ∨ r = ZCIO_ERR) ∧ m = None).

Definition turn_ok (w : zcio_ws C) (t : pturn) : Prop :=
  match t with
  | PAgain w' => ws_wf w' ∧ ZHS_AVAIL (w_in w') < ZHS_AVAIL (w_in w) ∧ max_msg_bytes w' = max_msg_bytes w
  | PDone r m w' => ws_wf w' ∧ ZHS_AVAIL (w_in w') ≤ ZHS_AVAIL (w_in w) ∧
      max_msg_bytes w' = max_msg_bytes w ∧ pump_result (max_msg_bytes w) r m w'
  end.

(** The octets consumed leave a well-formed session. *)
Lemma consume_wf n w : ws_wf w → 0 < n ≤ ZHS_AVAIL (w_in w) →
  ws_wf (consume n w) ∧ ZHS_AVAIL (w_in (consume n w)) < ZHS_AVAIL (w_in w).
Proof.
  intros (Ho & Hi & Hb & Hf) Hn. destruct (consume_spec (w_in w) n Hi) as (H1 & H2 & _); [lia|].
  assert (ZHS_AVAIL (w_in (consume n w)) = ZHS_AVAIL (w_in w) - n) as Ha.
  { cbn. rewrite <- !zlen_contents, H2 by done. rewrite <- zlen_contents in Hn by done. zl. }
  split; [|lia]. split; [exact Ho|]. split; [done|]. split; [|done]. cbn. rewrite H2. by apply Forall_drop.
Qed.

(** A protocol error on a session that differs from [w] only in its input. *)
Lemma pfail_turn w w1 code : ws_wf w1 → ZHS_AVAIL (w_in w1) ≤ ZHS_AVAIL (w_in w) →
  max_msg_bytes w1 = max_msg_bytes w →
  ∃ t, pfail entropy set_timeout w1 code = Ok t ∧ turn_ok w t.
Proof.
  intros Hwf Ha Hm. destruct (pfail_spec w1 code) as (w' & -> & Ho & Hc); [apply Hwf|].
  eexists. split; [done|]. cbn.
  assert (ws_wf w') as Hwf' by (by eapply core_wf; [exact Hc|exact Ho|exact Hwf]).
  injection Hc as -> _ _ _ -> _ _ Hcs _ Hfl _. split; [done|]. split; [done|]. split; [done|].
  right. right. right. by left.
Qed.

Lemma append_outcome b s : buf_wf b →
  ∃ r b', zhs_buf_append_ b s = (r, b') ∧ buf_wf b' ∧
    ((r = ZCIO_OK ∧ buf_contents b' = buf_contents b ++ s) ∨
     (r = ZCIO_ERR_NOMEM ∧ ∃ p, p `prefix_of` s ∧ buf_contents b' = buf_contents b ++ p)).
Proof.
  intros Hb. destruct (emits_put s b Hb) as (r & b' & E & Hwf & Hr & _). exists r, b'. split; [done|].
  split; [done|]. destruct Hr as [(-> & Hc & _)|[-> Hp]]; [by left|by right].
Qed.

Lemma append_bytes b s b' : is_bytes s → is_bytes (buf_contents b) →
  (buf_contents b' = buf_contents b ++ s ∨ ∃ p, p `prefix_of` s ∧ buf_contents b' = buf_contents b ++ p) →
  is_bytes (buf_contents b').
Proof.
  intros Hs Hb [->|(p & [k ->] & ->)]; apply Forall_app; (split; [done|]); [done|].
  by apply Forall_app in Hs as [? _].
Qed.

Lemma emit_result max op data w' :
  zlen data ≤ max → (op = WS_OP_TEXT → zhs_utf8_valid_ data = true) →
  ∃ r m, ws_emit op data = (r, m) ∧ pump_result max r m w'.
Proof.
  intros Hl Hu. unfold ws_emit, pump_result. destruct (zcio_xmalloc_ok _).
  - eexists _, _. split; [done|]. right. left. split; [done|]. eexists. split; [done|]. split; [done|]. cbn.
    destruct (Z.eqb_spec op WS_OP_TEXT); [left; auto|by right].
  - eexists _, _. split; [done|]. right. right. right. right. auto.
Qed.

(** [n] octets of [w] make a complete frame. *)
Definition framed (w : zcio_ws C) (payload : bytes) (n : Z) : Prop :=
  ws_wf w ∧ is_bytes payload ∧ 2 ≤ n ≤ ZHS_AVAIL (w_in w) ∧ zlen payload ≤ n.

Lemma consume_fail w payload n code : framed w payload n →
  ∃ t, pfail entropy set_timeout (consume n w) code = Ok t ∧ turn_ok w t.
Proof.
  intros (Hwf & _ & Hn & _). destruct (consume_wf n w Hwf) as [H1 H2]; [lia|].
  apply pfail_turn; [done|lia|done].
Qed.

Lemma ping_turn w payload n : framed w payload n →
  ∃ t, pump_frame entropy set_timeout w WS_OP_PING true payload n = Ok t ∧ turn_ok w t.
Proof.
  intros (Hwf & _ & Hn & _). unfold pump_frame. change (WS_OP_PING =? WS_OP_PING) with true. cbv iota.
  destruct (send_frame_spec w WS_OP_PONG true payload (proj1 Hwf)) as (r & w' & p & -> & (Ho & Hc & _) & _ & Hr & _).
  cbn [mbind exec_bind]. pose proof (core_wf w w' Hc Ho Hwf) as Hwf'.
  assert (w_in w' = w_in w ∧ max_msg_bytes w' = max_msg_bytes w) as [Hin Hmax] by (by injection Hc).
  destruct (consume_wf n w' Hwf') as [H1 H2]; [rewrite Hin; lia|]. rewrite Hin in H2.
  bcase; eexists; (split; [done|]); cbn [turn_ok]; (split; [done|]).
  - split; [lia|]. split; [done|]. right. right. right. right. split; [|done].
    destruct Hr as [-> | ->]; [done|by right].
  - done.
Qed.

Lemma close_turn w payload n : framed w payload n →
  ∃ t, pump_frame entropy set_timeout w WS_OP_CLOSE true payload n = Ok t ∧ turn_ok w t.
Proof.
  intros Hf. assert (∀ code echo, ∃ t, pump_close entropy set_timeout w code n echo = Ok t ∧ turn_ok w t) as Hclose.
  { intros code echo. destruct Hf as (Hwf & _ & Hn & _). unfold pump_close. set (w1 := set_close_recv _ _).
    destruct (send_close_once_spec w1 echo) as (w' & -> & Ho & Hc); [apply Hwf|]. cbn [mbind exec_bind].
    assert (ws_wf w') as Hwf' by (by eapply core_wf; [exact Hc|exact Ho|exact Hwf]).
    injection Hc as Hin _ _ _ Hmax _ _ Hcs Hcr _ _.
    destruct (consume_wf n w' Hwf') as [H1 H2]; [rewrite Hin; split; [lia|exact (proj2 Hn)]|]. rewrite Hin in H2.
    eexists. split; [done|]. cbn [turn_ok]. split; [done|]. split; [apply Z.lt_le_incl, H2|]. split; [exact Hmax|].
    right. right. left. split_and!; done. }
  unfold pump_frame. change (WS_OP_CLOSE =? WS_OP_PING) with false. change (WS_OP_CLOSE =? WS_OP_PONG) with false.
  change (WS_OP_CLOSE =? WS_OP_CLOSE) with true. cbv iota zeta.
  bcase; [by eapply consume_fail|]. bcase; [|apply Hclose].
  bcase; [by eapply consume_fail|]. bcase; [by eapply consume_fail|apply Hclose].
Qed.

Lemma pump_frame_data (w : zcio_ws C) op fin payload n : (op = WS_OP_TEXT ∨ op = WS_OP_BIN) →
  pump_frame entropy set_timeout w op fin payload n = pump_data entropy set_timeout w op fin payload n.
Proof. by intros [-> | ->]. Qed.

Lemma pump_frame_cont (w : zcio_ws C) fin payload n :
  pump_frame entropy set_timeout w WS_OP_CONT fin payload n = pump_cont entropy set_timeout w fin payload n.
Proof. done. Qed.

Lemma data_turn w op fin payload n : framed w payload n → (op = WS_OP_TEXT ∨ op = WS_OP_BIN) →
  ZHS_AVAIL (frag w) + zlen payload ≤ max_msg_bytes w →
  ∃ t, pump_frame entropy set_timeout w op fin payload n = Ok t ∧ turn_ok w t.
Proof.
  intros Hf Hop Hcap. pose proof Hf as (Hwf & Hp & Hn & Hl).
  destruct (consume_wf n w Hwf) as [H1 H2]; [lia|].
  assert (0 ≤ ZHS_AVAIL (frag w)) as Hfr by (rewrite <- zlen_contents by apply Hwf; lia).
  rewrite pump_frame_data by done. unfold pump_data. bcase; [apply pfail_turn; [done|lia|done]|]. bcase.
  - bcase; [by eapply consume_fail|].
    destruct (emit_result (max_msg_bytes w) op payload (consume n w)) as (r & m & -> & Hr); [lia| |].
    { intros ->. change (WS_OP_TEXT =? WS_OP_TEXT) with true in *. cbn [andb] in *. by btest. }
    eexists. split; [done|]. split; [done|]. split; [lia|]. by split.
  - cbn [frag set_cur_opcode set_frag_active].
    destruct (append_outcome (frag w) payload) as (a & b & -> & Hbw & Ha); [apply Hwf|].
    set (w1 := set_frag b _). assert (ws_wf w1) as Hwf1.
    { destruct Hwf as (W1 & W2 & W3 & W4 & W5 & W6). split_and!; try done; try apply W6.
      eapply append_bytes; [exact Hp|exact W5|]. destruct Ha as [[_ Ha]|[_ Ha]]; auto. }
    destruct (consume_wf n w1 Hwf1) as [G1 G2]; [split; [lia|exact (proj2 Hn)]|].
    bcase; eexists; (split; [done|]); (split; [done|]); [|by split].
    split; [apply Z.lt_le_incl, G2|]. split; [done|]. right. right. right. right. auto.
Qed.

Lemma cont_turn w fin payload n : framed w payload n →
  ZHS_AVAIL (frag w) + zlen payload ≤ max_msg_bytes w →
  ∃ t, pump_frame entropy set_timeout w WS_OP_CONT fin payload n = Ok t ∧ turn_ok w t.
Proof.
  intros Hf Hcap. pose proof Hf as (Hwf & Hp & Hn & Hl).
  rewrite pump_frame_cont. unfold pump_cont.
  bcase; [apply pfail_turn; [done|lia|done]|].
  destruct (append_outcome (frag w) payload) as (a & b & -> & Hbw & Ha); [apply Hwf|].
  set (w1 := set_frag b w). assert (ws_wf w1) as Hwf1.
  { destruct Hwf as (W1 & W2 & W3 & W4 & W5 & W6). split_and!; try done; try apply W6.
    eapply append_bytes; [exact Hp|exact W5|]. destruct Ha as [[_ Ha]|[_ Ha]]; auto. }
  destruct (consume_wf n w1 Hwf1) as [G1 G2]; [split; [lia|exact (proj2 Hn)]|].
  set (w2 := consume n w1) in *. destruct Ha as [[-> Hc]|[-> _]]; cbn [negb].
  2:{ change (negb (ZCIO_ERR_NOMEM =? ZCIO_OK)) with true. cbv iota. eexists. split; [done|].
      split; [done|]. split; [apply Z.lt_le_incl, G2|]. split; [done|]. right. right. right. right. auto. }
  change (ZCIO_OK =? ZCIO_OK) with true. cbn [negb]. bcase; [|by eexists].
  set (w3 := set_frag (zhs_buf_reset_ (frag w2)) _).
  assert (ws_wf w3) as Hwf3.
  { destruct G1 as (W1 & W2 & W3 & W4 & W5 & W6). destruct (reset_spec (frag w2) W4) as [R1 R2].
    split_and!; try done; apply W6. }
  bcase; [apply pfail_turn; [done|apply Z.lt_le_incl, G2|done]|].
  destruct (emit_result (max_msg_bytes w) (cur_opcode w2) (buf_contents (frag w2)) w3) as (r & m & -> & Hr).
  { cbn [frag w2 consume set_in w1 set_frag]. rewrite Hc, length_app.
    rewrite <- zlen_contents in Hcap by apply Hwf. lia. }
  { intros E. rewrite E in *. change (WS_OP_TEXT =? WS_OP_TEXT) with true in *. cbn [andb] in *. by btest. }
  eexists. split; [done|]. split; [done|]. split; [apply Z.lt_le_incl, G2|]. by split.
Qed.

Lemma unmask_spec b off payload : buf_wf b → 0 ≤ off → off + zlen payload ≤ ZHS_AVAIL b →
  ∃ data, mem_write (b_off b + off) payload (b_data b) = Ok data ∧
    let b' := mk_buf data (b_off b) (b_len b) (b_cap b) in
    buf_wf b' ∧ buf_contents b' =
      ztake off (buf_contents b) ++ payload ++ zdrop (off + zlen payload) (buf_contents b).
Proof.
  intros Hb Ho Hl. pose proof (zlen_contents b Hb) as Hz. pose proof Hb as (H1 & H2 & H3 & H4).
  unfold ZHS_AVAIL in *. rewrite mem_write_ok by lia. eexists. split; [done|]. cbv zeta.
  set (data := ztake (b_off b + off) _ ++ _).
  assert (length data = length (b_data b)) as Hd by (apply length_mem_write; lia).
  split; [unfold buf_wf; cbn; rewrite Hd; lia|].
  assert (zlen (buf_contents (mk_buf data (b_off b) (b_len b) (b_cap b))) = b_len b - b_off b) as Hz'.
  { unfold buf_contents, ZHS_AVAIL. cbn. rewrite zlen_slice; lia. }
  apply list_eq_Z; rewrite Hz'; [rewrite length_mem_write; lia|].
  intros i Hi. rewrite lookup_mem_write by lia. unfold buf_contents at 1 2, ZHS_AVAIL. cbn.
  rewrite lookup_slice_Z by lia. unfold data. rewrite lookup_mem_write by lia.
  case_bool_decide as E1; case_bool_decide as E2; try lia.
  - f_equal. lia.
  - unfold ZHS_AVAIL. by rewrite lookup_slice_Z by lia.
Qed.

Lemma nth_byte k (p : bytes) : is_bytes p → is_byte (nth k p 0).
Proof.
  intros Hp. destruct (nth_in_or_default k p 0) as [Hin| ->]; [|unfold is_byte; lia].
  rewrite Forall_forall in Hp. apply Hp. by apply list_elem_of_In.
Qed.

Lemma lor_nonneg a b : 0 ≤ a → 0 ≤ b → 0 ≤ Z.lor a b.
Proof. intros. by apply Z.lor_nonneg. Qed.

Lemma be_val_nonneg p : is_bytes p → 0 ≤ be_val p.
Proof.
  unfold be_val. intros Hp. assert (∀ v, 0 ≤ v → 0 ≤ fold_left (λ v b, Z.lor (u64 (Z.shiftl v 8)) b) p v) as Hg; [|by apply Hg].
  induction Hp as [|b p Hb _ IH]; intros v Hv; cbn [fold_left]; [done|]. apply IH, lor_nonneg; [|apply Hb].
  apply (wrap_bound 64). lia.
Qed.

Lemma known_cases op : known_opcode op = true →
  op = WS_OP_CONT ∨ op = WS_OP_TEXT ∨ op = WS_OP_BIN ∨ op = WS_OP_CLOSE ∨ op = WS_OP_PING ∨ op = WS_OP_PONG.
Proof. unfold known_opcode. intros. rewrite !orb_true_iff, !Z.eqb_eq in *. tauto. Qed.

(** A complete frame that passed the header checks. *)
Lemma frame_turn w op fin payload n : framed w payload n → known_opcode op = true →
  (negb (Z.land op 8 =? 0) && (negb fin || (125 <? zlen payload))) = false →
  (negb (negb (Z.land op 8 =? 0)) && ((max_msg_bytes w <? ZHS_AVAIL (frag w)) ||
     (u64 (max_msg_bytes w - ZHS_AVAIL (frag w)) <? zlen payload))) = false →
  ∃ t, pump_frame entropy set_timeout w op fin payload n = Ok t ∧ turn_ok w t.
Proof.
  intros Hf Hk Hctl Hcap. assert (op ≠ WS_OP_CLOSE → op ≠ WS_OP_PING → op ≠ WS_OP_PONG →
    ZHS_AVAIL (frag w) + zlen payload ≤ max_msg_bytes w) as Hc.
  { intros H1 H2 H3. assert (0 ≤ ZHS_AVAIL (frag w)) by (rewrite <- zlen_contents by apply Hf; lia).
    assert (0 ≤ max_msg_bytes w < 2 ^ 64) by apply Hf.
    apply known_cases in Hk. destruct_or! Hk; subst; try done; change (Z.land _ 8) with 0 in Hcap;
      cbn [Z.eqb negb andb] in Hcap; btest; rewrite wrap_small in * by lia; lia. }
  apply known_cases in Hk. destruct_or! Hk; subst op.
  - apply cont_turn; [done|by apply Hc].
  - apply data_turn; [done|by left|by apply Hc].
  - apply data_turn; [done|by right|by apply Hc].
  - change (Z.land WS_OP_CLOSE 8) with 8 in Hctl. cbn in Hctl. btest. destruct fin; [|done]. by apply close_turn.
  - change (Z.land WS_OP_PING 8) with 8 in Hctl. cbn in Hctl. btest. destruct fin; [|done]. by apply ping_turn.
  - unfold pump_frame. change (WS_OP_PONG =? WS_OP_PING) with false. change (WS_OP_PONG =? WS_OP_PONG) with true.
    cbv iota. eexists. split; [done|]. destruct Hf as (Hwf & _ & Hn & _).
    destruct (consume_wf n w Hwf) as [H1 H2]; [lia|]. done.
Qed.

Lemma pump_turn_ok w : ws_wf w → ∃ t, pump_turn entropy set_timeout w = Ok t ∧ turn_ok w t.
Proof.
  intros Hwf. pose proof Hwf as (Ho & Hi & Hib & Hf & Hfb & Hm).
  assert (∃ t, Ok (PDone WS_MORE None w) = Ok t ∧ turn_ok w t) as Hmore.
  { eexists. split; [done|]. split; [done|]. split; [lia|]. split; [done|]. by left. }
  assert (∀ code, ∃ t, pfail entropy set_timeout w code = Ok t ∧ turn_ok w t) as Hfail.
  { intros code. apply pfail_turn; [done|lia|done]. }
  unfold pump_turn. cbv zeta. set (p := buf_contents (w_in w)) in *.
  pose proof (zlen_contents (w_in w) Hi : zlen p = _) as Hz.
  destruct (ZHS_AVAIL (w_in w) <? 2) eqn:E1; [done|]. destruct (negb (Z.land (nth 0 p 0) 0x70 =? 0)); [done|].
  set (op := Z.land (nth 0 p 0) 0x0f). set (fin := negb (Z.land (nth 0 p 0) 0x80 =? 0)).
  set (masked := negb (Z.land (nth 1 p 0) 0x80 =? 0)). set (len7 := Z.land (nth 1 p 0) 0x7f).
  set (base := if len7 =? 126 then 4 else if len7 =? 127 then 10 else 2).
  assert (2 ≤ base ≤ 10) as Hbase by (unfold base; repeat bcase; lia).
  destruct (ZHS_AVAIL (w_in w) <? base) eqn:E2; [done|].
  set (len := if len7 =? 126 then _ else _).
  assert (0 ≤ len) as Hlen.
  { unfold len. bcase; [|bcase].
    - apply lor_nonneg; [apply Z.shiftl_nonneg|]; apply nth_byte; done.
    - apply be_val_nonneg. unfold slice. by apply Forall_take, Forall_drop.
    - unfold len7. apply Z.land_nonneg. right. lia. }
  destruct ((len7 =? 127) && (2 ^ 63 <=? len)); [done|]. destruct (is_server w && negb masked); [done|].
  destruct (negb (is_server w) && masked); [done|]. destruct (known_opcode op) eqn:Ek; cbn [negb]; [|done].
  destruct (negb (Z.land op 8 =? 0) && (negb fin || (125 <? len))) eqn:Ectl; [done|].
  match goal with |- context [if ?b then pfail _ _ w 1009 else _] => destruct b eqn:Ecap end; [done|].
  set (off := if masked then base + 4 else base).
  assert (2 ≤ off) as Hoff by (unfold off; destruct masked; lia).
  destruct (ZHS_AVAIL (w_in w) <? off) eqn:E3; [done|]. destruct (SIZE_MAX - off <? len); [done|].
  destruct (ZHS_AVAIL (w_in w) <? off + len) eqn:E4; [done|]. btest.
  set (payload := if masked then _ else _).
  assert (zlen payload = len) as Hpl.
  { unfold payload. destruct masked; rewrite ?length_mask; apply zlen_slice; lia. }
  assert (is_bytes payload) as Hpb.
  { unfold payload, slice. destruct masked; [apply mask_bytes|]; by apply Forall_take, Forall_drop. }
  destruct (unmask_spec (w_in w) off payload Hi) as (data & -> & Hb & Hc); [lia|lia|].
  cbn [mbind exec_bind]. set (b := mk_buf data _ _ _) in *.
  assert (ws_wf (set_in b w)) as Hwf'.
  { split; [exact Ho|]. split; [exact Hb|]. split; [|by split]. cbn [w_in set_in]. rewrite Hc. fold p.
    apply Forall_app. split; [by apply Forall_take|]. apply Forall_app. split; [done|]. by apply Forall_drop. }
  apply (frame_turn (set_in b w)); try done.
  - split; [done|]. split; [done|]. change (ZHS_AVAIL (w_in (set_in b w))) with (ZHS_AVAIL (w_in w)). lia.
  - by rewrite Hpl.
  - by rewrite Hpl.
Qed.

Lemma pump_loop_ok fuel w : ws_wf w → ZHS_AVAIL (w_in w) < Z.of_nat fuel →
  ∃ r m w', pump_loop entropy set_timeout fuel w = Ok (r, m, w') ∧ ws_wf w' ∧
    max_msg_bytes w' = max_msg_bytes w ∧ pump_result (max_msg_bytes w) r m w'.
Proof.
  revert w. induction fuel as [|fuel IH]; intros w Hwf Hf.
  { pose proof (zlen_contents (w_in w) (proj1 (proj2 Hwf))). lia. }
  cbn [pump_loop]. destruct (pump_turn_ok w Hwf) as (t & -> & Ht). cbn [mbind exec_bind].
  destruct t as [w'|r m w']; cbn [turn_ok] in Ht.
  - destruct Ht as (H1 & H2 & H3). destruct (IH w' H1) as (r & m & w2 & E & G1 & G2 & G3); [lia|].
    exists r, m, w2. rewrite H3 in *. done.
  - destruct Ht as (H1 & H2 & H3 & H4). by exists r, m, w'.
Qed.

(** ** Frames written are frames parsed *)

Lemma head_parse server fin op l rest : 0 ≤ op < 16 → 0 ≤ l < 2 ^ 63 →
  let p := frame_head server fin op l ++ rest in
  let len7 := Z.land (nth 1 p 0) 0x7f in
  let base := if len7 =? 126 then 4 else if len7 =? 127 then 10 else 2 in
  Z.land (nth 0 p 0) 0x70 = 0 ∧ Z.land (nth 0 p 0) 0x0f = op ∧ negb (Z.land (nth 0 p 0) 0x80 =? 0) = fin ∧
  negb (Z.land (nth 1 p 0) 0x80 =? 0) = negb server ∧ zlen (frame_head server fin op l) = base ∧
  (if len7 =? 126 then Z.lor (Z.shiftl (nth 2 p 0) 8) (nth 3 p 0)
   else if len7 =? 127 then be_val (slice 2 8 p) else len7) = l ∧ is_bytes (frame_head server fin op l).
Proof.
  intros Hop Hl. unfold frame_head. destruct (head_octet0 fin op Hop) as (A1 & A2 & A3 & A4).
  set (o0 := u8 (Z.lor (if fin then 0x80 else 0) _)) in *. cbv zeta.
  assert (∀ m, 0 ≤ m < 128 → Z.land (u8 (Z.lor (if server then 0 else 0x80) m)) 0x7f = m ∧
    negb (Z.land (u8 (Z.lor (if server then 0 else 0x80) m)) 0x80 =? 0) = negb server ∧
    is_byte (u8 (Z.lor (if server then 0 else 0x80) m))) as Hm by (intros m Hm; by apply head_octet1).
  bcase; [|bcase]; cbn [app nth].
  - destruct (Hm l) as (B1 & B2 & B3); [lia|]. rewrite B1. rewrite (proj2 (Z.eqb_neq l 126)), (proj2 (Z.eqb_neq l 127)) by lia.
    split_and!; try done. repeat (apply Forall_cons_2; [done|]). apply Forall_nil_2.
  - destruct (Hm 126) as (B1 & B2 & B3); [lia|]. rewrite B1. change (126 =? 126) with true. cbv iota.
    destruct (two_octets l) as (C1 & C2 & C3); [lia|]. split_and!; try done. repeat (apply Forall_cons_2; [done|]). apply Forall_nil_2.
  - destruct (Hm 127) as (B1 & B2 & B3); [lia|]. rewrite B1. change (127 =? 126) with false.
    change (127 =? 127) with true. cbv iota. split_and!; try done.
    + change (slice 2 8 (o0 :: _ :: be64_bytes l ++ rest)) with (ztake 8 (be64_bytes l ++ rest)).
      rewrite ztake_app_zlen by done. apply be_val_bytes. lia.
    + constructor; [done|]. constructor; [done|]. unfold be64_bytes. cbn [seq map]. repeat constructor; apply u8_byte.
Qed.

(** The mask a frame to [w] must carry. *)
Definition key_for (w : zcio_ws C) (k : option bytes) : Prop :=
  if is_server w then ∃ b, k = Some b ∧ length b = 4%nat ∧ is_bytes b else k = None.

Definition small_control (op : Z) (fin : bool) (payload : bytes) : Prop :=
  Z.land op 8 ≠ 0 → fin = true ∧ zlen payload ≤ 125.

Lemma turn_on_frame w k fin op payload rest :
  ws_wf w → key_for w k → known_opcode op = true → is_bytes payload → zlen payload < 2 ^ 62 →
  small_control op fin payload →
  (Z.land op 8 = 0 → ZHS_AVAIL (frag w) + zlen payload ≤ max_msg_bytes w) →
  buf_contents (w_in w) = encode_frame k fin op payload ++ rest →
  ∃ b n, pump_turn entropy set_timeout w = pump_frame entropy set_timeout (set_in b w) op fin payload n ∧
    framed (set_in b w) payload n ∧ buf_contents (zhs_buf_consume_ b n) = rest.
Proof.
  intros Hwf Hk Hop Hpb Hpl Hctl Hcap Hp. pose proof Hwf as (Ho & Hi & Hib & Hf & Hfb & Hm).
  assert (0 ≤ op < 16) as Hop16 by (apply known_cases in Hop; unfold WS_OP_CONT, WS_OP_TEXT, WS_OP_BIN, WS_OP_CLOSE, WS_OP_PING, WS_OP_PONG in *; lia).
  set (server := negb (if k is Some _ then true else false)).
  set (body := match k with Some b => b ++ mask_from 0 b payload | None => payload end).
  assert (buf_contents (w_in w) = frame_head server fin op (zlen payload) ++ body ++ rest) as Hp'
    by (rewrite Hp; unfold encode_frame; by rewrite <- app_assoc).
  destruct (head_parse server fin op (zlen payload) (body ++ rest) Hop16) as (A1 & A2 & A3 & A4 & A5 & A6 & A7); [lia|].
  rewrite <- Hp' in *. unfold pump_turn. cbv zeta. set (p := buf_contents (w_in w)) in *.
  pose proof (zlen_contents (w_in w) Hi : zlen p = _) as Hz.
  set (base := if Z.land (nth 1 p 0) 0x7f =? 126 then 4 else _) in *.
  assert (2 ≤ base ≤ 10) as Hbase by (unfold base; repeat bcase; lia).
  set (off := if k is Some _ then base + 4 else base).
  assert (zlen body = off - base + zlen payload) as Hbl.
  { unfold body, off, key_for in *. destruct k as [b|]; [|lia]. destruct (is_server w); [|done].
    destruct Hk as (b' & [= <-] & Hb4 & _). rewrite length_app, length_mask. lia. }
  assert (zlen p = off + zlen payload + zlen rest) as Hzp by (rewrite Hp', !length_app; lia).
  assert (base ≤ off ≤ base + 4) as Hoff by (unfold off; destruct k; lia).
  rewrite (proj2 (Z.ltb_ge _ 2)) by lia. rewrite A1. cbn [Z.eqb negb]. rewrite A2, A3, A4, A6.
  rewrite (proj2 (Z.ltb_ge _ base)) by lia.
  rewrite (proj2 (Z.leb_gt (2 ^ 63) _)), andb_false_r by lia.
  assert (server = negb (is_server w)) as -> by (unfold server, key_for in *; destruct (is_server w);
    [destruct Hk as (b & -> & _)|subst k]; done).
  replace (negb (negb (is_server w))) with (is_server w) by (symmetry; apply negb_involutive).
  rewrite andb_negb_r, andb_negb_l, Hop. cbn [negb].
  assert (off = if is_server w then base + 4 else base) as Hoff' by (unfold off, key_for in *;
    destruct (is_server w); [destruct Hk as (b & -> & _)|subst k]; done).
  rewrite <- Hoff'. rewrite (proj2 (Z.ltb_ge _ off)) by lia. rewrite (proj2 (Z.ltb_ge (SIZE_MAX - off) _)) by (unfold SIZE_MAX; lia).
  rewrite (proj2 (Z.ltb_ge _ (off + _))) by lia.
  assert (negb (Z.land op 8 =? 0) && (negb fin || (125 <? zlen payload)) = false) as ->.
  { destruct (Z.eqb_spec (Z.land op 8) 0); cbn [negb andb]; [done|]. destruct Hctl as [-> Hc]; [done|]. cbn. apply Z.ltb_ge. lia. }
  assert (negb (negb (Z.land op 8 =? 0)) && ((max_msg_bytes w <? ZHS_AVAIL (frag w)) ||
     (u64 (max_msg_bytes w - ZHS_AVAIL (frag w)) <? zlen payload)) = false) as ->.
  { destruct (Z.eqb_spec (Z.land op 8) 0) as [E|]; cbn [negb andb]; [|done]. specialize (Hcap E).
    assert (0 ≤ ZHS_AVAIL (frag w)) by (rewrite <- zlen_contents by done; lia).
    rewrite wrap_small by lia. apply orb_false_iff. rewrite !Z.ltb_ge. lia. }
  assert ((if is_server w then mask_from 0 (slice base 4 p) (slice off (zlen payload) p)
           else slice off (zlen payload) p) = payload) as ->.
  { unfold slice. rewrite Hp', Hoff'. unfold key_for, body in *. destruct (is_server w).
    - destruct Hk as (b & -> & Hb4 & _). rewrite zdrop_app_zlen by done. rewrite <- !app_assoc, (ztake_app_zlen b) by lia.
      rewrite (app_assoc _ b), zdrop_app_zlen by (rewrite length_app; lia).
      rewrite ztake_app_zlen by (by rewrite length_mask). apply mask_mask.
    - subst k. rewrite zdrop_app_zlen by done. by apply ztake_app_zlen. }
  destruct (unmask_spec (w_in w) off payload Hi) as (data & -> & Hb & Hc); [lia|lia|]. cbn [mbind exec_bind].
  set (b := mk_buf data _ _ _) in *. eexists b, (off + zlen payload). split; [done|].
  assert (zdrop (off + zlen payload) (buf_contents b) = rest) as Hrest.
  { rewrite Hc, app_assoc, zdrop_app_zlen by (fold p; zl). fold p. rewrite Hp', app_assoc.
    apply zdrop_app_zlen. rewrite length_app. lia. }
  split; [|destruct (consume_spec b (off + zlen payload) Hb) as (_ & -> & _); [lia|done]].
  split; [|split; [done|split; [change (ZHS_AVAIL (w_in (set_in b w))) with (ZHS_AVAIL (w_in w)); lia|lia]]].
  split; [exact Ho|]. split; [exact Hb|]. split; [|by split]. cbn [w_in set_in]. rewrite Hc. fold p.
  apply Forall_app. split; [by apply Forall_take|]. apply Forall_app. split; [done|]. by apply Forall_drop.
Qed.

(** A message as a peer may send it: fragments, with pongs in between. *)
Inductive part := Fragment (k : option bytes) (d : bytes) | Pong (k : option bytes) (d : bytes).

(** [op] is the opcode of the next fragment; the last one has FIN set. *)
Fixpoint encode_parts (op : Z) (ps : list part) (k : option bytes) (d : bytes) : bytes :=
  match ps with
  | [] => encode_frame k true op d
  | Fragment k' d' :: ps => encode_frame k' false op d' ++ encode_parts WS_OP_CONT ps k d
  | Pong k' d' :: ps => encode_frame k' true WS_OP_PONG d' ++ encode_parts op ps k d
  end.

Definition parts_data (ps : list part) : bytes :=
  concat (map (λ p, match p with Fragment _ d => d | Pong _ _ => [] end) ps).

Definition part_ok (w : zcio_ws C) (p : part) : Prop :=
  match p with
  | Fragment k d => key_for w k ∧ is_bytes d
  | Pong k d => key_for w k ∧ is_bytes d ∧ zlen d ≤ 125
  end.

(** [acc] has been collected of a message that began with opcode [op0]; [op]
    is what its next fragment must carry. *)
Definition collecting (op0 op : Z) (got : bytes) (w : zcio_ws C) : Prop :=
  b_off (frag w) = 0 ∧ buf_contents (frag w) = got ∧
  ((op = op0 ∧ frag_active w = false ∧ got = []) ∨
   (op = WS_OP_CONT ∧ frag_active w = true ∧ cur_opcode w = op0)).

Definition msg_of (op : Z) (d : bytes) : zcio_ws_msg :=
  mk_msg (if op =? WS_OP_TEXT then ZCIO_WS_TEXT else ZCIO_WS_BINARY) d.

Lemma append_ok b s : (∀ n, alloc_ok n = true) → buf_wf b → b_off b = 0 →
  zlen (buf_contents b) + zlen s ≤ SIZE_MAX →
  ∃ b', zhs_buf_append_ b s = (ZCIO_OK, b') ∧ buf_wf b' ∧ buf_contents b' = buf_contents b ++ s ∧ b_off b' = 0.
Proof.
  intros Ha Hb Ho Hl. rewrite zlen_contents in Hl by done. unfold ZHS_AVAIL in Hl.
  destruct (emits_put s b Hb) as (r & b' & E & Hwf & Hr & Hall). rewrite Hall in * by (done || lia).
  exists b'. split; [done|]. split; [done|]. destruct Hr as [(_ & Hc & _ & Hoff)|[? _]]; [|done].
  split; [done|congruence].
Qed.

(** The header conditions of a fragment, and the unmasked session. *)
Lemma fragment_frame w k fin op0 op got d rest :
  ws_wf w → key_for w k → is_bytes d → (op0 = WS_OP_TEXT ∨ op0 = WS_OP_BIN) → collecting op0 op got w →
  zlen got + zlen d ≤ max_msg_bytes w → zlen got + zlen d < 2 ^ 62 →
  buf_contents (w_in w) = encode_frame k fin op d ++ rest →
  ∃ b n, pump_turn entropy set_timeout w = pump_frame entropy set_timeout (set_in b w) op fin d n ∧
    framed (set_in b w) d n ∧ buf_contents (zhs_buf_consume_ b n) = rest.
Proof.
  intros Hwf Hk Hd Hop0 (Hoff & Hfc & Hst) Hmax Hsmall Hin.
  assert (ZHS_AVAIL (frag w) = zlen got) as Hav by (rewrite <- zlen_contents, Hfc by apply Hwf; done).
  apply turn_on_frame with (k := k); try done.
  - unfold known_opcode. rewrite !orb_true_iff, !Z.eqb_eq. destruct Hst as [[-> _]|[-> _]]; tauto.
  - lia.
  - intros Hc. exfalso. apply Hc. destruct Hst as [[-> _]|[-> _]]; [by destruct Hop0; subst|done].
  - intros _. lia.
Qed.

Lemma pong_turn w k d rest : ws_wf w → key_for w k → is_bytes d → zlen d ≤ 125 →
  buf_contents (w_in w) = encode_frame k true WS_OP_PONG d ++ rest →
  ∃ b, pump_turn entropy set_timeout w = Ok (PAgain (set_in b w)) ∧ ws_wf (set_in b w) ∧ buf_contents b = rest.
Proof.
  intros Hwf Hk Hd Hl Hin. destruct (turn_on_frame w k true WS_OP_PONG d rest) as (b & n & -> & Hf & Hrest); try done.
  { lia. }
  exists (zhs_buf_consume_ b n). split; [done|]. split; [|done]. destruct Hf as (Hw & _ & Hn & _).
  apply (consume_wf n _ Hw). lia.
Qed.

Lemma fragment_turn w k op0 op got d rest :
  (∀ n, alloc_ok n = true) → ws_wf w → key_for w k → is_bytes d → (op0 = WS_OP_TEXT ∨ op0 = WS_OP_BIN) →
  collecting op0 op got w → zlen got + zlen d ≤ max_msg_bytes w → zlen got + zlen d < 2 ^ 62 →
  buf_contents (w_in w) = encode_frame k false op d ++ rest →
  ∃ w', pump_turn entropy set_timeout w = Ok (PAgain w') ∧ ws_wf w' ∧ collecting op0 WS_OP_CONT (got ++ d) w' ∧
    max_msg_bytes w' = max_msg_bytes w ∧ is_server w' = is_server w ∧ buf_contents (w_in w') = rest.
Proof.
  intros Hall Hwf Hk Hd Hop0 Hcol Hmax Hsmall Hin.
  destruct (fragment_frame w k false op0 op got d rest) as (b & n & -> & Hf & Hrest); try done.
  destruct Hcol as (Hoff & Hfc & Hst). destruct Hf as (Hw & _ & Hn & _).
  destruct (append_ok (frag w) d Hall) as (f & Ha & Hfw & Hfcont & Hfoff); [apply Hwf|done|rewrite Hfc; unfold SIZE_MAX; lia|].
  assert (is_bytes (buf_contents f)) as Hfb by (rewrite Hfcont; apply Forall_app; split; [apply Hwf|done]).
  assert (∀ w1, ws_wf w1 → w_in w1 = b → ws_wf (consume n w1) ∧ buf_contents (w_in (consume n w1)) = rest) as Hcons.
  { intros w1 H1 H2. split; [apply consume_wf; [done|rewrite H2; cbn in Hn; lia]|]. cbn. by rewrite H2. }
  destruct Hw as (W1 & W2 & W3 & _ & _ & W6).
  destruct Hst as [(-> & Hact & ->)|(-> & Hact & Hcur)].
  - rewrite pump_frame_data by done. unfold pump_data. cbn [frag_active set_in]. rewrite Hact.
    cbn [frag set_cur_opcode set_frag_active set_in]. rewrite Ha. change (negb (ZCIO_OK =? ZCIO_OK)) with false. cbv iota.
    eexists. split; [done|]. split; [apply Hcons; [by split_and!; try done; apply W6|done]|].
    split; [split; [done|split; [cbn; by rewrite Hfcont, Hfc|by right]]|].
    split; [done|]. split; [done|]. apply Hcons; [split_and!; try done; apply W6|done].
  - rewrite pump_frame_cont. unfold pump_cont. cbn [frag_active set_in]. rewrite Hact. cbn [negb frag set_in].
    rewrite Ha. change (negb (ZCIO_OK =? ZCIO_OK)) with false. cbv iota.
    eexists. split; [done|]. split; [apply Hcons; [by split_and!; try done; apply W6|done]|].
    split; [split; [done|split; [cbn; by rewrite Hfcont, Hfc|by right]]|].
    split; [done|]. split; [done|]. apply Hcons; [split_and!; try done; apply W6|done].
Qed.

Lemma final_turn w k op0 op got d rest :
  (∀ n, alloc_ok n = true) → ws_wf w → key_for w k → is_bytes d → (op0 = WS_OP_TEXT ∨ op0 = WS_OP_BIN) →
  collecting op0 op got w → zlen got + zlen d ≤ max_msg_bytes w → zlen got + zlen d < 2 ^ 62 →
  (op0 = WS_OP_TEXT → zhs_utf8_valid_ (got ++ d) = true) →
  buf_contents (w_in w) = encode_frame k true op d ++ rest →
  ∃ w', pump_turn entropy set_timeout w = Ok (PDone WS_MSG (Some (msg_of op0 (got ++ d))) w') ∧ ws_wf w' ∧
    buf_contents (w_in w') = rest ∧ frag_active w' = false ∧ buf_contents (frag w') = [].
Proof.
  intros Hall Hwf Hk Hd Hop0 Hcol Hmax Hsmall Hutf Hin.
  destruct (fragment_frame w k true op0 op got d rest) as (b & n & -> & Hf & Hrest); try done.
  destruct Hcol as (Hoff & Hfc & Hst). destruct Hf as (Hw & _ & Hn & _).
  assert ((op0 =? WS_OP_TEXT) && negb (zhs_utf8_valid_ (got ++ d)) = false) as Hu.
  { destruct (Z.eqb_spec op0 WS_OP_TEXT); [|done]. by rewrite Hutf. }
  assert (∀ s, ws_emit op0 s = (WS_MSG, Some (msg_of op0 s))) as Hemit
    by (intros s; unfold ws_emit, zcio_xmalloc_ok; by rewrite Hall).
  destruct Hst as [(-> & Hact & ->)|(-> & Hact & Hcur)].
  - rewrite pump_frame_data by done. unfold pump_data. cbn [frag_active set_in]. rewrite Hact.
    cbn [app] in *. rewrite Hu, Hemit. eexists. split; [done|]. split; [apply (consume_wf n _ Hw); cbn in *; lia|]. done.
  - destruct (append_ok (frag w) d Hall) as (f & Ha & Hfw & Hfcont & Hfoff); [apply Hwf|done|rewrite Hfc; unfold SIZE_MAX; lia|].
    rewrite pump_frame_cont. unfold pump_cont. cbn [frag_active set_in]. rewrite Hact. cbn [negb frag set_in].
    rewrite Ha. change (negb (ZCIO_OK =? ZCIO_OK)) with false. cbv iota. cbn [frag consume set_in set_frag cur_opcode].
    rewrite Hcur, Hfcont, Hfc, Hu, Hemit. eexists. split; [done|]. destruct (reset_spec f Hfw) as [R1 R2].
    destruct (consume_wf n _ Hw) as [(V1 & V2 & V3 & _ & _ & V6) _]; [cbn in *; lia|].
    split; [|split; [done|split; [done|exact R2]]]. split_and!; try done; try apply V6.
Qed.

Lemma pump_reassembles op0 k d rest ps :
  (∀ n, alloc_ok n = true) → (op0 = WS_OP_TEXT ∨ op0 = WS_OP_BIN) → is_bytes d →
  ∀ fuel w op got, ws_wf w → Forall (part_ok w) ps → key_for w k → collecting op0 op got w →
  zlen got + zlen (parts_data ps) + zlen d ≤ max_msg_bytes w →
  zlen got + zlen (parts_data ps) + zlen d < 2 ^ 62 →
  (op0 = WS_OP_TEXT → zhs_utf8_valid_ (got ++ parts_data ps ++ d) = true) →
  buf_contents (w_in w) = encode_parts op ps k d ++ rest → (length ps < fuel)%nat →
  ∃ w', pump_loop entropy set_timeout fuel w = Ok (WS_MSG, Some (msg_of op0 (got ++ parts_data ps ++ d)), w') ∧
    ws_wf w' ∧ buf_contents (w_in w') = rest ∧ frag_active w' = false ∧ buf_contents (frag w') = [].
Proof.
  intros Hall Hop0 Hd. unfold parts_data.
  induction ps as [|p ps IH]; intros fuel w op got Hwf Hps Hk Hcol Hmax Hsmall Hutf Hin Hfuel;
    (destruct fuel as [|fuel]; [lia|]); cbn [pump_loop encode_parts map concat length] in *.
  - destruct (final_turn w k op0 op got d rest) as (w' & -> & H'); try done; [lia|lia|]. by exists w'.
  - apply Forall_cons_1 in Hps as [Hp Hps]. destruct p as [k' d'|k' d'].
    + destruct Hp as [Hk' Hd']. rewrite <- app_assoc in Hin. rewrite !length_app in *.
      destruct (fragment_turn w k' op0 op got d' (encode_parts WS_OP_CONT ps k d ++ rest))
        as (w' & -> & H1 & H2 & H3 & H4 & H5); try done; [lia|lia|]. cbn [mbind exec_bind].
      destruct (IH fuel w' WS_OP_CONT (got ++ d')) as (w2 & E & Hw2); try done.
      * eapply Forall_impl; [exact Hps|]. intros [? ?|? ?]; unfold part_ok, key_for; by rewrite H4.
      * unfold key_for. by rewrite H4.
      * rewrite H3. zl.
      * zl.
      * intros Ht. specialize (Hutf Ht). by rewrite <- !app_assoc in Hutf |- *.
      * lia.
      * exists w2. rewrite <- !app_assoc in E |- *. done.
    + destruct Hp as (Hk' & Hd' & Hl). rewrite <- app_assoc in Hin. cbn [app] in *.
      destruct (pong_turn w k' d' _ Hwf Hk' Hd' Hl Hin) as (b & -> & H1 & H2). cbn [mbind exec_bind].
      apply (IH fuel (set_in b w) op got); try done. lia.
Qed.
End Output.

(** ** The closing handshake *)

Section Discipline.
Context `{Allocator} {C : Type}.
Context (entropy : nat → Z → Z → option bytes) (now : nat → Z).
Context (set_timeout : option (zcio_stream C) → Z → option (zcio_stream C)).
Abbreviation ws := (zcio_ws C).

Definition is_close (e : Z * bytes) : Prop := e.1 = WS_OP_CLOSE.

(** The frames sent so far: no Close while the session is open, then exactly
    one, and only pongs after it. *)
Definition log_ok (w : ws) : Prop :=
  if close_sent w
  then ∃ pre p post, sent w = pre ++ (WS_OP_CLOSE, p) :: post ∧ Forall (λ e, ¬ is_close e) pre ∧
         Forall (λ e, e.1 = WS_OP_PONG) post
  else Forall (λ e, ¬ is_close e) (sent w).

(** Steps that send nothing. *)
Definition quiet (w w' : ws) : Prop := sent w' = sent w ∧ close_sent w' = close_sent w.

Lemma quiet_log w w' : quiet w w' → log_ok w → log_ok w'.
Proof. unfold log_ok. by intros [-> ->]. Qed.

Lemma quiet_trans w1 w2 w3 : quiet w1 w2 → quiet w2 w3 → quiet w1 w3.
Proof. intros [? ?] [? ?]. split; congruence. Qed.

Lemma write_all_quiet w s : holds (write_all w s) (λ '(_, w'), quiet w w').
Proof. unfold write_all. destruct (zcio_write_full _ _) as [[st r]| |]; done. Qed.

Lemma send_masked_quiet fuel w key data off :
  holds (send_masked fuel w key data off) (λ '(_, w'), quiet w w').
Proof.
  revert w off. induction fuel as [|fuel IH]; intros w off; [done|]. cbn [send_masked].
  destruct (off <? zlen data); [|by split]. apply holds_bind. eapply holds_mono; [apply write_all_quiet|].
  intros [ok w1] Hq. destruct ok; cbn [negb]; [|exact Hq].
  eapply holds_mono; [apply IH|]. intros [r w2] Hq2. by eapply quiet_trans.
Qed.

Lemma send_payload_quiet w key data : holds (send_payload w key data) (λ '(_, w'), quiet w w').
Proof.
  unfold send_payload. bcase; [|apply send_masked_quiet]. apply holds_bind.
  eapply holds_mono; [apply write_all_quiet|]. intros [ok w1] Hq. bcase; exact Hq.
Qed.

Lemma send_frame_log w op fin data : holds (ws_send_frame entropy set_timeout w op fin data)
  (λ '(_, w'), sent w' = sent w ++ [(op, data)] ∧ close_sent w' = close_sent w).
Proof.
  unfold ws_send_frame. set (w0 := set_sent _ w).
  enough (∀ w1, quiet w0 w1 → sent w1 = sent w ++ [(op, data)] ∧ close_sent w1 = close_sent w) as Hq.
  { apply holds_bind. apply (holds_mono _ (λ '(_, _, w'), quiet w0 w')).
    { unfold frame_key. destruct (is_server w0); [done|]. by destruct (zcio_rand_bytes_ _ _ _) as [[r k]| |]. }
    intros [[ok key] w1] H1. bcase; [by apply Hq|]. apply holds_bind. eapply holds_mono; [apply write_all_quiet|].
    intros [ok2 w2] H2. assert (quiet w0 w2) as H3 by (eapply quiet_trans; [exact H1|exact H2]).
    bcase; [by apply Hq|]. bcase; [by apply Hq|]. eapply holds_mono; [apply send_payload_quiet|].
    intros [r w3] H4. apply Hq. by eapply quiet_trans. }
  intros w1 [H1 H2]. done.
Qed.

(** Data, pings and pongs while the session is open; pongs at any time. *)
Lemma send_frame_ok w op fin data : op ≠ WS_OP_CLOSE → (close_sent w = true → op = WS_OP_PONG) → log_ok w →
  holds (ws_send_frame entropy set_timeout w op fin data) (λ '(_, w'), log_ok w').
Proof.
  intros Hop Hc Hl. eapply holds_mono; [apply send_frame_log|]. intros [r w'] [H1 H2].
  unfold log_ok in *. rewrite H1, H2. destruct (close_sent w).
  - destruct Hl as (pre & p & post & -> & G1 & G2). exists pre, p, (post ++ [(op, data)]).
    rewrite <- app_assoc. split; [done|]. split; [done|]. apply Forall_app. split; [done|]. apply Forall_singleton. exact (Hc eq_refl).
  - apply Forall_app. split; [done|]. by apply Forall_singleton.
Qed.

Lemma send_close_ok w p : log_ok w →
  holds (send_close_once entropy set_timeout w p) (λ w', log_ok w' ∧ close_sent w' = true).
Proof.
  intros Hl. unfold send_close_once. destruct (close_sent w) eqn:Ec; [done|].
  apply holds_bind. eapply holds_mono; [apply send_frame_log|]. intros [r w'] [H1 H2]. cbn. split; [|done].
  unfold log_ok in *. rewrite Ec in Hl. cbn. exists (sent w), p, []. by rewrite H1.
Qed.

Definition turn_log (t : pturn) : Prop := match t with PAgain w => log_ok w | PDone _ _ w => log_ok w end.

Lemma pfail_log w code : log_ok w → holds (pfail entropy set_timeout w code) turn_log.
Proof.
  intros Hl. unfold pfail, ws_protocol_fail. apply holds_bind, holds_bind.
  eapply holds_mono; [by apply send_close_ok|]. intros w' [H1 _]. exact H1.
Qed.

Lemma pump_frame_log w op fin payload n : log_ok w →
  holds (pump_frame entropy set_timeout w op fin payload n) turn_log.
Proof.
  intros Hl. unfold pump_frame. assert (∀ k, log_ok (consume k w)) as Hk by (intros k; exact Hl).
  assert (∀ code echo, holds (pump_close entropy set_timeout w code n echo) turn_log) as Hclose.
  { intros code echo. unfold pump_close. apply holds_bind. eapply holds_mono; [by apply send_close_ok|].
    intros w' [H1 _]. exact H1. }
  bcase.
  { apply holds_bind. eapply holds_mono; [by apply send_frame_ok|]. intros [r w'] Hw'. by bcase. }
  bcase; [apply Hk|]. bcase.
  { repeat (bcase; [by apply pfail_log|] || bcase); by apply Hclose || by apply pfail_log. }
  bcase; [|bcase; [|by apply pfail_log]].
  - unfold pump_data. bcase; [by apply pfail_log|]. bcase.
    + bcase; [by apply pfail_log|]. by destruct (ws_emit _ _).
    + destruct (zhs_buf_append_ _ _) as [a b]. by bcase.
  - unfold pump_cont. bcase; [by apply pfail_log|]. destruct (zhs_buf_append_ _ _) as [a b]. bcase; [done|].
    bcase; [|done]. bcase; [by apply pfail_log|]. by destruct (ws_emit _ _).
Qed.

Lemma pump_turn_log w : log_ok w → holds (pump_turn entropy set_timeout w) turn_log.
Proof.
  intros Hl. unfold pump_turn. cbv zeta. repeat (destruct (_ <? _); [exact Hl || by apply pfail_log|]).
  destruct (negb _); [by apply pfail_log|].
  repeat match goal with |- holds (if ?b then ?x else _) _ => destruct b; [exact Hl || by apply pfail_log|] end.
  apply holds_bind. destruct (mem_write _ _ _); [|done|done]. by apply pump_frame_log.
Qed.

Lemma pump_log fuel w : log_ok w → holds (pump_loop entropy set_timeout fuel w) (λ '(_, _, w'), log_ok w').
Proof.
  revert w. induction fuel as [|fuel IH]; intros w Hl; [done|]. cbn [pump_loop]. apply holds_bind.
  eapply holds_mono; [by apply pump_turn_log|]. intros [w'|r m w'] Ht; [by apply IH|done].
Qed.

Lemma fill_quiet w t : holds (ws_fill set_timeout w t) (λ '(_, w'), quiet w w').
Proof.
  unfold ws_fill. apply holds_bind. destruct (zcio_read _ _ _) as [[[st n] d]| |]; [|done|done].
  cbn [holds]. bcase; [by destruct (zhs_buf_append_ _ _)|]. by repeat bcase.
Qed.

Lemma recv_loop_log fuel w bounded deadline : log_ok w →
  holds (recv_loop entropy now set_timeout fuel w bounded deadline) (λ '(_, _, w'), log_ok w').
Proof.
  revert w. induction fuel as [|fuel IH]; intros w Hl; [done|]. cbn [recv_loop]. apply holds_bind.
  eapply holds_mono; [by apply pump_log|]. intros [[r m] w1] H1. do 3 (bcase; [done|]).
  destruct (if bounded then _ else _) as [t w2] eqn:E2.
  assert (quiet w1 w2) as Hq2 by (destruct bounded; injection E2 as _ <-; done).
  bcase; [by eapply quiet_log|]. apply holds_bind. eapply holds_mono; [apply fill_quiet|]. intros [fr w3] Hq3.
  assert (log_ok w3) as H3 by (eapply quiet_log; [exact Hq3|]; by eapply quiet_log).
  bcase; [bcase; [by apply IH|done]|]. bcase; [exact H3|]. bcase; [done|]. by apply IH.
Qed.

Lemma close_loop_log fuel w deadline : log_ok w → holds (close_loop entropy now set_timeout fuel w deadline) log_ok.
Proof.
  revert w. induction fuel as [|fuel IH]; intros w Hl; [done|]. cbn [close_loop]. bcase; [done|].
  cbn [zcio_now_ms]. bcase; [done|]. apply holds_bind. eapply holds_mono; [by apply pump_log|].
  intros [[r m] w1] H1. bcase; [by apply IH|]. bcase; [done|]. bcase; [done|].
  apply holds_bind. eapply holds_mono; [apply fill_quiet|]. intros [fr w3] Hq3.
  assert (log_ok w3) as H3 by (by eapply quiet_log).
  bcase; [bcase; [done|by apply IH]|]. bcase; [done|]. by apply IH.
Qed.

Lemma close_wait_log fuel w : log_ok w → holds (close_wait entropy now set_timeout fuel w) (λ '(_, w'), log_ok w').
Proof.
  intros Hl. unfold close_wait. bcase; [|done]. cbn [zcio_now_ms]. apply holds_bind.
  eapply holds_mono; [by apply close_loop_log|]. done.
Qed.

(** What the application, the peer and the transport may do to a session. *)
Inductive ws_step (w : ws) : ws → Prop :=
  | step_send type data r w' : zcio_ws_send entropy set_timeout w type data = Ok (r, w') → ws_step w w'
  | step_ping data r w' : zcio_ws_ping entropy set_timeout w data = Ok (r, w') → ws_step w w'
  | step_recv fuel timeout r m w' :
      zcio_ws_recv entropy now set_timeout fuel w timeout = Ok (r, m, w') → ws_step w w'
  | step_close fuel code reason r w' :
      zcio_ws_close entropy now set_timeout fuel w code reason = Ok (r, w') → ws_step w w'
  | step_max cap : ws_step w (zcio_ws_set_max_msg_bytes w cap)
  | step_timeout t : ws_step w (zcio_ws_set_timeout w t)
  | step_transport st : ws_step w (set_stream st w).

Lemma step_log w w' : ws_step w w' → log_ok w → log_ok w'.
Proof.
  intros Hs Hl. destruct Hs as [type data r w' E|data r w' E|fuel t r m w' E|fuel code reason r w' E|cap|t|st].
  - revert E. unfold zcio_ws_send. bcase; [by intros [= <- <-]|]. btest.
    assert (∀ op, op ≠ WS_OP_CLOSE → holds (ws_send_frame entropy set_timeout w op true data) (λ '(_, w'), log_ok w')) as Hf
      by (intros op Hop; apply send_frame_ok; [done|congruence|done]).
    bcase; [bcase; [by intros [= <- <-]|]|bcase; [|by intros [= <- <-]]];
      intros E; refine (holds_Ok _ _ _ E (Hf _ _)); done.
  - revert E. unfold zcio_ws_ping. bcase; [by intros [= <- <-]|]. btest. bcase; [by intros [= <- <-]|].
    intros E. refine (holds_Ok _ _ _ E (send_frame_ok _ _ _ _ _ _ Hl)); [done|congruence].
  - revert E. unfold zcio_ws_recv. bcase; [by intros [= <- <- <-]|].
    destruct (if 0 <=? t then _ else _) as [x w1] eqn:E1. intros E.
    refine (holds_Ok _ _ _ E (recv_loop_log _ _ _ _ _)). destruct (0 <=? t); injection E1 as _ <-; done.
  - revert E. unfold zcio_ws_close. bcase.
    2:{ intros E. exact (holds_Ok _ _ _ E (close_wait_log _ _ Hl)). }
    bcase; [by intros [= <- <-]|]. bcase; [by intros [= <- <-]|]. btest. intros E.
    refine (holds_Ok _ _ (λ '(_, w'), log_ok w') E _). apply holds_bind. eapply holds_mono; [apply send_frame_log|].
    intros [s w1] [G1 G2]. assert (log_ok (set_close_sent true w1)) as Hl1.
    { unfold log_ok in *. cbn. rewrite G1. destruct (close_sent w); [done|]. by eexists (sent w), _, []. }
    bcase; [exact Hl1|by apply close_wait_log].
  - unfold zcio_ws_set_max_msg_bytes. by bcase.
  - done.
  - done.
Qed.

Lemma steps_log w w' : rtc ws_step w w' → log_ok w → log_ok w'.
Proof. induction 1 as [|w w1 w2 Hs _ IH]; [done|]. intros Hl. by apply IH, (step_log w). Qed.

(** Send, receive, close: a history for the examples. *)
Definition session_script (fuel : nat) (w : ws) (data : bytes) (timeout code : Z) : exec ws :=
  '(_, w) ← zcio_ws_send entropy set_timeout w ZCIO_WS_TEXT data;
  '(_, _, w) ← zcio_ws_recv entropy now set_timeout fuel w timeout;
  '(_, w) ← zcio_ws_close entropy now set_timeout fuel w code None;
  Ok w.

Lemma script_steps fuel w data timeout code w' :
  session_script fuel w data timeout code = Ok w' → rtc ws_step w w'.
Proof.
  unfold session_script. intros E. apply exec_bind_Ok in E as ([r1 w1] & E1 & E).
  apply exec_bind_Ok in E as ([[r2 m2] w2] & E2 & E). apply exec_bind_Ok in E as ([r3 w3] & E3 & [= <-]).
  eapply rtc_l; [by eapply step_send|]. eapply rtc_l; [by eapply step_recv|].
  eapply rtc_l; [by eapply step_close|]. apply rtc_refl.
Qed.
End Discipline.

Section PartsLength.
Context {C : Type}.

Lemma frame_length k fin op d : 2 ≤ zlen (encode_frame k fin op d).
Proof.
  unfold encode_frame, frame_head. rewrite length_app. cbn [length].
  enough (1 ≤ zlen (if zlen d <? 126 then [u8 (Z.lor (if negb (if k is Some _ then true else false) then 0 else 128) (zlen d))]
    else if zlen d <=? 65535 then
      [u8 (Z.lor (if negb (if k is Some _ then true else false) then 0 else 128) 126);
       u8 (Z.land (Z.shiftr (zlen d) 8) 255); u8 (Z.land (zlen d) 255)]
    else u8 (Z.lor (if negb (if k is Some _ then true else false) then 0 else 128) 127) :: be64_bytes (zlen d))) by lia.
  repeat bcase; cbn [length]; lia.
Qed.

Lemma parts_length op ps k d : Z.of_nat (length ps) ≤ zlen (encode_parts op ps k d).
Proof.
  revert op. induction ps as [|[k' d'|k' d'] ps IH]; intros op; cbn [encode_parts length]; [lia| |].
  - rewrite length_app. pose proof (frame_length k' false op d'). specialize (IH WS_OP_CONT). lia.
  - rewrite length_app. pose proof (frame_length k' true WS_OP_PONG d'). specialize (IH op). lia.
Qed.
End PartsLength.

(** ** Properties *)

(** C30: Whatever bytes a peer sends, [ws_pump] terminates without leaving its
    buffers, and returns one of: more input needed, a message within the cap
    (text being valid UTF-8), a completed peer close, a protocol error after
    which the session is failed with its Close sent, or a memory or transport
    error. *)
Theorem ws_pump_safe `{Allocator} {C} entropy set_timeout (vt : zcio_stream_vtable C) inv acc room
  (Ht : BlockingSink vt inv acc room set_timeout) w
  (Hw : ws_wf (vt := vt) (inv := inv) w) :
  ∃ r m w', ws_pump entropy set_timeout w = Ok (r, m, w') ∧ ws_wf (vt := vt) (inv := inv) w' ∧
    pump_result (max_msg_bytes w) r m w'.
Proof.
  destruct (pump_loop_ok (vt := vt) (inv := inv) entropy set_timeout (S (Z.to_nat (ZHS_AVAIL (w_in w)))) w Hw)
    as (r & m & w' & E & H1 & _ & H2); [lia|]. by exists r, m, w'.
Qed.

(** C31: Reassembly: a message sent as any number of fragments of any sizes,
    masked as the receiver's role requires, with pongs anywhere in between, is
    returned as the concatenation of its fragments with the type of the first
    one, leaves the octets that follow it, and leaves no fragment behind. *)
Theorem ws_pump_reassembles `{Allocator} {C} entropy set_timeout (vt : zcio_stream_vtable C) inv acc room
  (Ht : BlockingSink vt inv acc room set_timeout) w op ps k d rest
  (Hall : ∀ n, alloc_ok n = true) (Hop : op = WS_OP_TEXT ∨ op = WS_OP_BIN)
  (Hw : ws_wf (vt := vt) (inv := inv) w) (Hps : Forall (part_ok w) ps) (Hk : key_for w k) (Hd : is_bytes d)
  (Hfrag : frag_active w = false ∧ b_off (frag w) = 0 ∧ buf_contents (frag w) = [])
  (Hmax : zlen (parts_data ps ++ d) ≤ max_msg_bytes w) (Hsmall : zlen (parts_data ps ++ d) < 2 ^ 62)
  (Hutf : op = WS_OP_TEXT → zhs_utf8_valid_ (parts_data ps ++ d) = true)
  (Hin : buf_contents (w_in w) = encode_parts op ps k d ++ rest) :
  ∃ w', ws_pump entropy set_timeout w = Ok (WS_MSG, Some (msg_of op (parts_data ps ++ d)), w') ∧
    buf_contents (w_in w') = rest ∧ frag_active w' = false ∧ buf_contents (frag w') = [].
Proof.
  destruct Hfrag as (H1 & H2 & H3). rewrite length_app in Hmax, Hsmall.
  destruct (pump_reassembles (vt := vt) (inv := inv) entropy set_timeout op k d rest ps Hall Hop Hd (S (Z.to_nat (ZHS_AVAIL (w_in w)))) w op [])
    as (w' & E & _ & H'); try done.
  - split; [done|]. split; [done|]. by left.
  - cbn [length]. lia.
  - cbn [length]. lia.
  - pose proof (parts_length op ps k d). rewrite <- zlen_contents, Hin, length_app by apply Hw. lia.
  - by exists w'.
Qed.

(** C32: What one endpoint sends the other receives: a message accepted by
    [zcio_ws_send] goes out as one frame, masked exactly when a client sends
    it, and [ws_pump] of the opposite role returns the same type and bytes. *)
Theorem ws_send_roundtrip `{Allocator} {C} entropy set_timeout (vt : zcio_stream_vtable C) inv acc room
  (Ht : BlockingSink vt inv acc room set_timeout) s w type data rest
  (Hall : ∀ n, alloc_ok n = true)
  (Hent : ∀ k e, entropy k 0 4 = Some e → zlen e = 4 ∧ is_bytes e) (Hnent : ∀ k, entropy k 0 4 ≠ None)
  (Hs : on_wire (vt := vt) (inv := inv) s) (Hopen : failed s = false ∧ close_sent s = false)
  (Htype : type = ZCIO_WS_TEXT ∨ type = ZCIO_WS_BINARY) (Hdata : is_bytes data)
  (Hutf : type = ZCIO_WS_TEXT → zhs_utf8_valid_ data = true)
  (Hroom : zlen data + 14 ≤ wroom (room := room) s)
  (Hw : ws_wf (vt := vt) (inv := inv) w) (Hrole : is_server w = negb (is_server s))
  (Hfrag : frag_active w = false ∧ b_off (frag w) = 0 ∧ buf_contents (frag w) = [])
  (Hmax : zlen data ≤ max_msg_bytes w) (Hsmall : zlen data < 2 ^ 62) :
  ∃ s' sent_bytes, zcio_ws_send entropy set_timeout s type data = Ok (ZCIO_OK, s') ∧
    wire (acc := acc) s' = wire (acc := acc) s ++ sent_bytes ∧
    (buf_contents (w_in w) = sent_bytes ++ rest →
     ∃ w', ws_pump entropy set_timeout w = Ok (WS_MSG, Some (mk_msg type data), w') ∧
       buf_contents (w_in w') = rest).
Proof.
  set (op := if type =? ZCIO_WS_TEXT then WS_OP_TEXT else WS_OP_BIN).
  assert (zcio_ws_send entropy set_timeout s type data = ws_send_frame entropy set_timeout s op true data) as ->.
  { unfold zcio_ws_send, op. destruct Hopen as [-> ->]. cbn [orb]. destruct Htype as [-> | ->]; [|done].
    change (ZCIO_WS_TEXT =? ZCIO_WS_TEXT) with true. cbv iota. by rewrite Hutf, andb_false_r. }
  assert (op = WS_OP_TEXT ∨ op = WS_OP_BIN) as Hop by (unfold op; bcase; auto).
  destruct (send_frame_spec (vt := vt) (inv := inv) entropy set_timeout s op true data Hs) as (r & s' & p & -> & Hm & _ & _ & Hfull).
  assert (key_for w (mkey_of entropy s)) as Hk.
  { unfold key_for, mkey_of. rewrite Hrole. destruct (is_server s); [done|]. cbn [negb].
    destruct (entropy (rng s) 0 4) as [e|] eqn:E; [|by destruct (Hnent (rng s))]. destruct (Hent _ _ E).
    exists e. ands. }
  destruct Hfull as [-> ->]; [by intros _; apply Hnent| |].
  { unfold encode_frame. enough (zlen (frame_head (negb (if mkey_of entropy s is Some _ then true else false)) true op (zlen data)) ≤ 10) as Hh.
    { rewrite length_app. unfold key_for in Hk. destruct (is_server w); [destruct Hk as (b & Eb & Hb & _); rewrite Eb in *|rewrite Hk in *];
        rewrite ?length_app, ?length_mask; lia. }
    unfold frame_head. cbn [length]. repeat bcase; cbn; lia. }
  exists s', (encode_frame (mkey_of entropy s) true op data). split; [done|]. split; [apply Hm|]. intros Hin.
  destruct Hfrag as (H1 & H2 & H3).
  destruct (pump_reassembles (vt := vt) (inv := inv) entropy set_timeout op (mkey_of entropy s) data rest [] Hall Hop Hdata
    (S (Z.to_nat (ZHS_AVAIL (w_in w)))) w op []) as (w' & E & _ & H' & _); try done.
  - split; [done|]. split; [done|]. by left.
  - unfold op. intros Ho. apply Hutf. destruct (Z.eqb_spec type ZCIO_WS_TEXT); [done|discriminate Ho].
  - cbn. lia.
  - exists w'. split; [|done]. unfold ws_pump. rewrite E. do 4 f_equal. unfold msg_of, op. cbn.
    by destruct Htype; subst.
Qed.

(** C33: Over any history of a session (application calls, peer and transport
    in any order), at most one Close frame is ever sent; before it only data,
    ping and pong frames, after it only pongs; and the session knows it. *)
Theorem ws_close_once `{Allocator} {C} entropy now set_timeout (st : option (zcio_stream C)) server w0 w
  (Hnew : ws_new set_timeout st server = Some w0) (Hreach : rtc (ws_step entropy now set_timeout) w0 w) :
  if close_sent w
  then ∃ pre p post, sent w = pre ++ (WS_OP_CLOSE, p) :: post ∧ Forall (λ e, ¬ is_close e) pre ∧
         Forall (λ e, e.1 = WS_OP_PONG) post
  else Forall (λ e, ¬ is_close e) (sent w).
Proof.
  apply (steps_log entropy now set_timeout w0 w Hreach). unfold ws_new in Hnew.
  destruct (zcio_xcalloc_ok _ _); [|done]. injection Hnew as <-. apply Forall_nil_2.
Qed.

(** ** Witnesses *)

(** A memory view as transport; its deadline has no effect. *)
Definition no_timeout (h : option (zcio_stream membuf)) (t : Z) : option (zcio_stream membuf) := h.

#[export] Instance memory_blocking : BlockingSink MEM_VT mb_mem mb_acc mb_room no_timeout.
Proof.
  constructor; [apply _| |].
  - intros c [(Hr & Hw & Hs & _) _]. unfold mb_room. lia.
  - intros c fl t Hi. by exists c.
Qed.

Definition ex_entropy (k : nat) (off n : Z) : option bytes := Some (replicate (Z.to_nat n) 7).
Definition ex_clock (k : nat) : Z := 1000 * Z.of_nat k.

Definition ex_ws (server : bool) (input : bytes) : zcio_ws membuf :=
  mk_ws (Some (mk_stream MEM_VT (mk_membuf (Some (replicate 64 0)) 64 0 0 0 0 false) 0))
    (buf_of input) buf_empty 0 false WS_DEFAULT_MAX_MSG WS_DEFAULT_TIMEOUT server false false false 0 0 0 [].

Lemma ex_ws_wire server input : on_wire (vt := MEM_VT) (inv := mb_mem) (ex_ws server input).
Proof.
  split; [done|]. split; [|eexists; cbn; reflexivity]. unfold mb_wf. cbn. ands.
Qed.

Lemma ex_ws_wf server input : zlen input ≤ SIZE_MAX → is_bytes input →
  ws_wf (vt := MEM_VT) (inv := mb_mem) (ex_ws server input).
Proof.
  intros Hl Hb. split; [apply ex_ws_wire|]. split; [by apply buf_of_wf|]. cbn [w_in ex_ws]. rewrite buf_of_contents.
  split; [done|]. split; [apply buf_empty_wf|]. split; [constructor|]. vm_compute. split; [discriminate|reflexivity].
Qed.

(** A frame with a reserved bit. *)
Lemma ws_pump_safe_witness :
  ∃ m w', @ws_pump always_alloc _ ex_entropy no_timeout (ex_ws true [193; 0; 0]) = Ok (ZCIO_ERR_PROTOCOL, m, w') ∧
    pump_result WS_DEFAULT_MAX_MSG ZCIO_ERR_PROTOCOL m w' ∧ wire (acc := mb_acc) w' = [136; 2; 3; 234].
Proof.
  destruct (@ws_pump_safe always_alloc _ ex_entropy no_timeout MEM_VT mb_mem mb_acc mb_room memory_blocking
    (ex_ws true [193; 0; 0])) as (r & m & w' & E & _ & Hr).
  - apply ex_ws_wf; [vm_compute; discriminate|apply bytes_dec; reflexivity].
  - assert (r = ZCIO_ERR_PROTOCOL ∧ wire (acc := mb_acc) w' = [136; 2; 3; 234]) as [-> Hwire].
    { assert (match @ws_pump always_alloc _ ex_entropy no_timeout (ex_ws true [193; 0; 0]) with
        | Ok (r, _, w) => (r, wire (acc := mb_acc) w) | _ => (0, []) end = (ZCIO_ERR_PROTOCOL, [136; 2; 3; 234])) as Ev
        by (vm_compute; reflexivity). rewrite E in Ev. by injection Ev. }
    exists m, w'. split; [exact E|]. split; [exact Hr|exact Hwire].
Defined.

Definition ex_parts : list part :=
  [Fragment (Some [1; 2; 3; 4]) (B "He"); Pong (Some [9; 9; 9; 9]) (B "x"); Fragment (Some [5; 6; 7; 8]) (B "l")].

Lemma ws_pump_reassembles_witness :
  ∃ w', @ws_pump always_alloc _ ex_entropy no_timeout
      (ex_ws true (encode_parts WS_OP_TEXT ex_parts (Some [0; 0; 0; 1]) (B "lo") ++ [136; 128])) =
    Ok (WS_MSG, Some (mk_msg ZCIO_WS_TEXT (B "Hello")), w') ∧ buf_contents (w_in w') = [136; 128].
Proof.
  destruct (@ws_pump_reassembles always_alloc _ ex_entropy no_timeout MEM_VT mb_mem mb_acc mb_room memory_blocking
    (ex_ws true (encode_parts WS_OP_TEXT ex_parts (Some [0; 0; 0; 1]) (B "lo") ++ [136; 128]))
    WS_OP_TEXT ex_parts (Some [0; 0; 0; 1]) (B "lo") [136; 128]) as (w' & E & Hrest & _).
  - reflexivity.
  - left. reflexivity.
  - apply ex_ws_wf; [vm_compute; discriminate|apply bytes_dec; reflexivity].
  - repeat apply Forall_cons_2; try apply Forall_nil_2; cbn;
      repeat match goal with |- _ ∧ _ => split | |- is_bytes _ => apply bytes_dec; reflexivity end; try lia;
      eexists; (split; [reflexivity|]); (split; [reflexivity|]); apply bytes_dec; reflexivity.
  - eexists. split; [reflexivity|]. split; [reflexivity|]. apply bytes_dec. reflexivity.
  - apply bytes_dec. reflexivity.
  - split; [reflexivity|split; reflexivity].
  - vm_compute. discriminate.
  - vm_compute. reflexivity.
  - intros _. vm_compute. reflexivity.
  - apply buf_of_contents.
  - exists w'. split; [exact E|exact Hrest].
Defined.

Lemma ws_send_roundtrip_witness :
  ∃ s' w', zcio_ws_send ex_entropy no_timeout (ex_ws false []) ZCIO_WS_TEXT (B "hi") = Ok (ZCIO_OK, s') ∧
    wire (acc := mb_acc) s' = [129; 130; 7; 7; 7; 7; 111; 110] ∧
    @ws_pump always_alloc _ ex_entropy no_timeout (ex_ws true [129; 130; 7; 7; 7; 7; 111; 110; 5]) =
      Ok (WS_MSG, Some (mk_msg ZCIO_WS_TEXT (B "hi")), w') ∧ buf_contents (w_in w') = [5].
Proof.
  destruct (@ws_send_roundtrip always_alloc _ ex_entropy no_timeout MEM_VT mb_mem mb_acc mb_room memory_blocking
    (ex_ws false []) (ex_ws true [129; 130; 7; 7; 7; 7; 111; 110; 5]) ZCIO_WS_TEXT (B "hi") [5])
    as (s' & p & E & Hwire & Hrecv).
  - reflexivity.
  - intros k e [= <-]. split; [reflexivity|]. apply bytes_dec. reflexivity.
  - intros k. discriminate.
  - apply ex_ws_wire.
  - split; reflexivity.
  - left. reflexivity.
  - apply bytes_dec. reflexivity.
  - intros _. vm_compute. reflexivity.
  - vm_compute. discriminate.
  - apply ex_ws_wf; [vm_compute; discriminate|apply bytes_dec; reflexivity].
  - reflexivity.
  - split; [reflexivity|split; reflexivity].
  - vm_compute. discriminate.
  - vm_compute. reflexivity.
  - assert (wire (acc := mb_acc) s' = [129; 130; 7; 7; 7; 7; 111; 110]) as Hs'.
    { transitivity (match zcio_ws_send ex_entropy no_timeout (ex_ws false []) ZCIO_WS_TEXT (B "hi") with
        Ok (_, s) => wire (acc := mb_acc) s | _ => [] end); [by rewrite E|vm_compute; reflexivity]. }
    rewrite Hs' in Hwire. change (wire (acc := mb_acc) (ex_ws false [])) with (@nil Z) in Hwire. cbn [app] in Hwire.
    subst p. destruct Hrecv as (w' & Ew & Hrest); [apply buf_of_contents|].
    exists s', w'. split; [exact E|]. split; [exact Hs'|]. split; [exact Ew|exact Hrest].
Defined.

(** A new client session; the peer will ping and close, but only after the
    client's receive timed out and it sent its own Close. *)
Definition ex_stream : option (zcio_stream membuf) :=
  Some (mk_stream MEM_VT (mk_membuf (Some ([137; 0; 136; 0] ++ replicate 60 0)) 64 0 32 0 0 false) 0).
Definition ex_new : zcio_ws membuf :=
  ws_apply_timeout no_timeout (mk_ws ex_stream buf_empty buf_empty 0 false WS_DEFAULT_MAX_MSG
    WS_DEFAULT_TIMEOUT false false false false 0 0 0 []) WS_DEFAULT_TIMEOUT.

Definition ex_history : exec (zcio_ws membuf) :=
  @session_script always_alloc _ ex_entropy ex_clock no_timeout 5 ex_new (B "a") 1000 1000.

Lemma ex_history_runs : ∃ w, ex_history = Ok w ∧ close_sent w = true ∧
  sent w = [(WS_OP_TEXT, B "a"); (WS_OP_CLOSE, [3; 232]); (WS_OP_PONG, [])].
Proof.
  assert (match ex_history with Ok w => (close_sent w, sent w) | _ => (false, []) end =
    (true, [(WS_OP_TEXT, B "a"); (WS_OP_CLOSE, [3; 232]); (WS_OP_PONG, [])])) as E by (vm_compute; reflexivity).
  destruct ex_history as [w| |]; try discriminate E. exists w. by injection E.
Qed.

Lemma ex_new_is : ws_new (H := always_alloc) no_timeout ex_stream false = Some ex_new.
Proof. reflexivity. Qed.

Lemma ex_history_steps w : ex_history = Ok w →
  rtc (@ws_step always_alloc _ ex_entropy ex_clock no_timeout) ex_new w.
Proof. unfold ex_history. apply script_steps. Qed.

Lemma ws_close_once_witness : ∃ w pre p post,
  rtc (@ws_step always_alloc _ ex_entropy ex_clock no_timeout) ex_new w ∧
  sent w = pre ++ (WS_OP_CLOSE, p) :: post ∧ Forall (λ e, ¬ is_close e) pre ∧ length (sent w) = 3%nat.
Proof.
  destruct ex_history_runs as (w & E & Hc & Hs). pose proof (ex_history_steps w E) as Hr.
  pose proof (@ws_close_once always_alloc _ ex_entropy ex_clock no_timeout ex_stream false ex_new w ex_new_is Hr) as H.
  rewrite Hc in H. destruct H as (pre & p & post & H1 & H2 & _). exists w, pre, p, post.
  split; [exact Hr|]. split; [exact H1|]. split; [exact H2|]. rewrite Hs. reflexivity.
Defined.
