(* ===== verification/WsConnect.v ===== *)
(** * WsConnect: WebSocket handshakes ([src/ws.c])

    The server's accept, and the client's URL parser, opening request, response
    head parser and redirect loop.  Dialling (TCP, TLS) is a parameter; the
    loop records the endpoints it dialled. *)
From stdpp Require Import base tactics list option strings.
From Stdlib Require Import ZArith Lia.
From S2P Require Import Prelude Types Stream Membuf Buf HttpUtil Respond H1 H1Safe Url Crypto WsKey Ws WsSafe.

Definition WS_HANDSHAKE_HEAD_CAP : Z := 64 * 1024.

(** ** Header arguments *)

Definition ws_hdr_token_ok (s : option bytes) : bool :=
  match s with None => false | Some s => forallb (λ c, negb ((c <? 0x20) || (c =? 0x7f))) s end.

(** ** URLs *)

Record ws_url := mk_url { u_secure : bool; u_host : bytes; u_port : Z; u_path : bytes }.

Definition scheme_of (sc : bytes) : option bool :=
  let sc := map tolower sc in
  if bool_decide (sc = B "ws") || bool_decide (sc = B "http") then Some false
  else if bool_decide (sc = B "wss") || bool_decide (sc = B "https") then Some true
  else None.

Definition ws_url_parse `{Allocator} (url : option bytes) : Z + ws_url :=
  match url with
  | None => inl ZCIO_ERR_INVALID_ARG
  | Some url =>
      match strstr url (B "://") with
      | None => inl ZCIO_ERR_PROTOCOL
      | Some sep =>
          if 8 <=? sep then inl ZCIO_ERR_PROTOCOL
          else match scheme_of (ztake sep url) with
          | None => inl ZCIO_ERR_PROTOCOL
          | Some sec =>
              let auth := zdrop (sep + 3) url in
              let '(auth, path) := match memchr 47 auth with
                | Some i => (ztake i auth, zdrop i auth)
                | None => (auth, B "/") end in
              let auth := strip_userinfo (S (length auth)) auth in
              match split_authority auth with
              | None => inl ZCIO_ERR_PROTOCOL
              | Some (host, ps) =>
                  if zlen host =? 0 then inl ZCIO_ERR_PROTOCOL
                  else match parse_port sec ps with
                  | None => inl ZCIO_ERR_PROTOCOL
                  | Some port =>
                      if zcio_xmalloc_ok (zlen host + 1) && alloc_ok (zlen path + 1)
                      then inr (mk_url sec host port path) else inl ZCIO_ERR_NOMEM
                  end
              end
          end
      end
  end.

(** [ws_resolve]: an absolute URL for a redirect target. *)
Definition ws_resolve `{Allocator} (loc : option bytes) (host : bytes) (port : Z) (secure : bool)
  : option bytes :=
  match loc with
  | None | Some [] => None
  | Some (c :: l) =>
      let loc := c :: l in
      match strstr loc (B "://") with
      | Some _ => zcio_strdup_ (Some loc)
      | None =>
          if negb (c =? 47) then None
          else
            let scheme := if secure then B "wss" else B "ws" in
            let v6 := has_colon host in
            let pb := if port =? default_port secure then [] else ztake 15 (B ":" ++ dec port) in
            let out := scheme ++ B "://" ++ (if v6 then [91] else []) ++ host ++
                       (if v6 then [93] else []) ++ pb ++ loc in
            if zcio_xmalloc_ok (zlen out + 1) then Some out else None
      end
  end.

(** ** The opening request and the response head *)

Definition handshake_request `{Allocator} (host : bytes) (port : Z) (secure : bool) (path key : bytes)
    (headers : list hdr_arg) : emitter :=
  let v6 := has_colon host in
  put (B "GET ") ▷ put path ▷ put (B " HTTP/1.1" ++ CRLF ++ B "Host: ") ▷
  (if v6 then put [91] else emit_ok) ▷ put host ▷ (if v6 then put [93] else emit_ok) ▷
  (if port =? default_port secure then emit_ok else put (ztake 15 (B ":" ++ dec port))) ▷
  put (CRLF ++ B "Upgrade: websocket" ++ CRLF ++ B "Connection: Upgrade" ++ CRLF ++ B "Sec-WebSocket-Key: ") ▷
  put key ▷ put (CRLF ++ B "Sec-WebSocket-Version: 13" ++ CRLF) ▷
  foldr (λ h k, match h.1 with
                | None => k
                | Some n => put n ▷ put (B ": ") ▷ put (default [] h.2) ▷ put CRLF ▷ k
                end) emit_ok headers ▷
  put CRLF.

Section Connect.
Context `{Allocator} {C : Type}.
Abbreviation handle := (option (zcio_stream C)).

Definition ws_send_handshake (s : handle) (host : bytes) (port : Z) (secure : bool) (path key : bytes)
    (headers : list hdr_arg) : exec (handle * Z) :=
  let '(r, req) := handshake_request host port secure path key headers buf_empty in
  if negb (r =? ZCIO_OK) then Ok (s, ZCIO_ERR_NOMEM)
  else
    let data := ztake (b_len req) (b_data req) in
    '(s, w) ← zcio_write_full s data;
    Ok (s, if u64 w =? b_len req then ZCIO_OK else ZCIO_ERR).

(** The index just after the first CRLF CRLF. *)
Definition head_end (d : bytes) : option Z := (λ i, i + 4) <$> strstr d (CRLF ++ CRLF).

(** Each read adds at least one byte, and the loop gives up past the cap. *)
Fixpoint read_head_loop (fuel : nat) (s : handle) (acc : zhs_buf) : exec (handle * zhs_buf * (Z + Z)) :=
  match fuel with
  | O => OutOfFuel
  | S fuel =>
      let n := ZHS_AVAIL acc in
      match (if 4 <=? n then head_end (buf_contents acc) else None) with
      | Some i => Ok (s, acc, inr i)
      | None =>
          if WS_HANDSHAKE_HEAD_CAP <? n then Ok (s, acc, inl ZCIO_ERR_PROTOCOL)
          else
            '(s, r, d) ← zcio_read s false 2048;
            if r <=? 0 then Ok (s, acc, inl (if r =? 0 then ZCIO_ERR_EOF else r))
            else
              let '(a, acc) := zhs_buf_append_ acc (ztake r d) in
              if negb (a =? ZCIO_OK) then Ok (s, acc, inl ZCIO_ERR_NOMEM) else read_head_loop fuel s acc
      end
  end.

Definition ws_read_head (s : handle) (acc : zhs_buf) : exec (handle * zhs_buf * (Z + Z)) :=
  read_head_loop (S (S (Z.to_nat WS_HANDSHAKE_HEAD_CAP))) s acc.

Definition ws_parse_status (h : bytes) : option Z :=
  let line := match memchr 10 h with Some i => ztake i h | None => h end in
  match memchr 32 line with
  | None => None
  | Some i =>
      match zdrop (i + 1) line with
      | a :: b :: c :: _ =>
          if h1_is_digit a && h1_is_digit b && h1_is_digit c
          then Some ((a - 48) * 100 + (b - 48) * 10 + (c - 48)) else None
      | _ => None
      end
  end.

Definition is_sep (c : Z) : bool := (c =? 32) || (c =? 9) || (c =? 44).

Fixpoint has_token_loop (fuel : nat) (p token : bytes) : bool :=
  match fuel with
  | O => false
  | S fuel =>
      match p with
      | [] => false
      | _ =>
          let p := drop_while is_sep p in
          let '(e, rest) := span_comma p in
          if bool_decide (map tolower (trim_end e) = map tolower token) then true
          else has_token_loop fuel rest token
      end
  end.

Definition ws_ci_has_token (l token : bytes) : bool := has_token_loop (S (length l)) l token.

(** The value of a header of a raw head block, as the C string the callers see. *)
Fixpoint find_header_loop (fuel : nat) (h name : bytes) : option bytes :=
  match fuel with
  | O => None
  | S fuel =>
      match h with
      | [] => None
      | _ =>
          let '(line, next) := match memchr 10 h with
            | Some i => (ztake i h, Some (zdrop (i + 1) h))
            | None => (h, None) end in
          let here := match memchr 58 line with
            | Some i => bool_decide (map tolower (ztake i line) = map tolower name)
            | None => false end in
          if here then
            let v := zdrop (zlen name + 1) line in
            let v := rev (drop_while (λ c, (c =? 13) || is_ows c) (rev (drop_while is_ows v))) in
            if zcio_xmalloc_ok (zlen v + 1) then Some (cstr v) else None
          else match next with Some h => find_header_loop fuel h name | None => None end
      end
  end.

Definition ws_find_header (h name : bytes) : option bytes := find_header_loop (S (length h)) h name.

(** ** The server's accept

    [detach] is [zhs_detach_for_upgrade_] on the request's connection: it sends
    the 101 and hands over the stream and the bytes buffered after it. *)
Context (set_timeout : handle → Z → handle).

Definition zcio_ws_accept (detach : bytes → option (handle * bytes)) (r : option zcio_http_req)
  : option (zcio_ws C) :=
  match r with
  | None => None
  | Some r =>
      if negb (ws_upgrade r) then None
      else match zhs_hdrs_get_ (headers r) (B "sec-websocket-key") with
      | None => None
      | Some key =>
          match ws_compute_accept key with
          | None => None
          | Some accept =>
              let '(e, resp) :=
                (put (B "HTTP/1.1 101 Switching Protocols" ++ CRLF ++ B "Upgrade: websocket" ++ CRLF ++
                      B "Connection: Upgrade" ++ CRLF ++ B "Sec-WebSocket-Accept: ") ▷
                 put accept ▷ put (CRLF ++ CRLF)) buf_empty in
              if negb (e =? ZCIO_OK) then None
              else match detach (ztake (b_len resp) (b_data resp)) with
              | None => None
              | Some (st, leftover) =>
                  match ws_new set_timeout st true with
                  | None => None
                  | Some w =>
                      if zlen leftover =? 0 then Some w
                      else
                        let '(a, b) := zhs_buf_append_ (w_in w) leftover in
                        if negb (a =? ZCIO_OK) then None else Some (set_in b w)
                  end
              end
          end
      end
  end.

(** ** The client's connect

    [dial secure host port] is the TCP (and TLS) connection, [entropy redir]
    the sixteen random bytes of that attempt. *)
Context (dial : bool → bytes → Z → option handle) (entropy : nat → option bytes).

(** What a response to the opening request leads to. *)
Inductive ws_reply := Session (w : zcio_ws C) | Redirect (next : option bytes) | Rejected.

(** The result of [ws_compute_accept] is ignored: on failure [strcmp] reads an
    array that was never written. *)
Definition upgrade_ok (head key : bytes) : exec bool :=
  let hdr_ok := match ws_find_header head (B "upgrade"), ws_find_header head (B "connection") with
    | Some up, Some cn => ws_ci_has_token up (B "websocket") && ws_ci_has_token cn (B "upgrade")
    | _, _ => false
    end in
  match ws_find_header head (B "sec-websocket-accept") with
  | Some got =>
      if negb hdr_ok then Ok false
      else match ws_compute_accept key with
      | Some expected => Ok (bool_decide (got = expected))
      | None => Fault
      end
  | None => Ok false
  end.

Definition ws_reply_of (redir : nat) (u : ws_url) (s : handle) (key : bytes) (acc : zhs_buf) (body : Z)
  : exec ws_reply :=
  let head := ztake body (buf_contents acc) in
  match ws_parse_status head with
  | None => Ok Rejected
  | Some status =>
      if status =? 101 then
        ok ← upgrade_ok head key;
        if negb ok then Ok Rejected
        else match ws_new set_timeout s false with
        | None => Ok Rejected
        | Some w =>
            let left := zdrop body (buf_contents acc) in
            if zlen left =? 0 then Ok (Session w)
            else
              let '(a, b) := zhs_buf_append_ (w_in w) left in
              Ok (if negb (a =? ZCIO_OK) then Rejected else Session (set_in b w))
        end
      else if ((status =? 301) || (status =? 302) || (status =? 307) || (status =? 308)) && (redir <? 3)%nat then
        match ws_find_header head (B "location") with
        | None => Ok Rejected
        | Some loc => Ok (Redirect (ws_resolve (Some loc) (u_host u) (u_port u) (u_secure u)))
        end
      else Ok Rejected
  end.

(** One attempt at [u]: dial, send the request, read the reply. *)
Definition ws_attempt (redir : nat) (u : ws_url) (headers : list hdr_arg) : exec ws_reply :=
  match dial (u_secure u) (u_host u) (u_port u), entropy redir with
  | Some s, Some rnd =>
      let key := base64 rnd in
      '(s, r) ← ws_send_handshake s (u_host u) (u_port u) (u_secure u) (u_path u) key headers;
      if negb (r =? ZCIO_OK) then Ok Rejected
      else
        '(s, acc, e) ← ws_read_head s buf_empty;
        match e with
        | inl _ => Ok Rejected
        | inr body => ws_reply_of redir u s key acc body
        end
  | _, _ => Ok Rejected
  end.

(** The attempts from number [redir] on; [prev] is whether the previous one
    was secure.  The second result lists the endpoints dialled. *)
Fixpoint connect_loop (n redir : nat) (prev : option bool) (cur : option bytes) (headers : list hdr_arg)
  : exec (option (zcio_ws C) * list ws_url) :=
  match n with
  | O => Ok (None, [])
  | S n =>
      match ws_url_parse cur with
      | inl _ => Ok (None, [])
      | inr u =>
          if bool_decide (prev = Some true) && negb (u_secure u) then Ok (None, [])
          else
            r ← ws_attempt redir u headers;
            match r with
            | Session w => Ok (Some w, [u])
            | Redirect (Some next) =>
                '(w, us) ← connect_loop n (S redir) (Some (u_secure u)) (Some next) headers;
                Ok (w, u :: us)
            | _ => Ok (None, [u])
            end
      end
  end.

Definition header_safe (h : hdr_arg) : bool :=
  match h.1 with
  | None => true
  | Some k => ws_hdr_token_ok (Some k) && match h.2 with Some v => ws_hdr_token_ok (Some v) | None => true end
  end.

Definition zcio_ws_connect (url : option bytes) (headers : list hdr_arg)
  : exec (option (zcio_ws C) * list ws_url) :=
  if negb (forallb header_safe headers) then Ok (None, [])
  else match url, zcio_strdup_ url with
  | Some _, None => Ok (None, [])
  | _, cur => connect_loop 4 0 None cur headers
  end.
End Connect.

(** ** What a returned session rests on *)

Section Opened.
Context `{Allocator} {C : Type}.
Context (set_timeout : option (zcio_stream C) → Z → option (zcio_stream C)).
Context (dial : bool → bytes → Z → option (option (zcio_stream C))) (entropy : nat → option bytes).

(** [d] is what reading delivers, from stream [s] on, until it is [s']. *)
Inductive pulled : option (zcio_stream C) → bytes → option (zcio_stream C) → Prop :=
  | pulled_none s : pulled s [] s
  | pulled_more s s1 r d rest s' : zcio_read s false 2048 = Ok (s1, r, d) → 0 < r → pulled s1 rest s' →
      pulled s (ztake r d ++ rest) s'.

(** The session of attempt [k], at [u]: the stream is the one dialled, the
    opening request with the key of this attempt's random bytes went out on it,
    and of the bytes [d] then read from it those up to the first empty line are
    a head with status 101, both upgrade tokens and the accept value of that
    key; the bytes after the head are the start of the frame stream. *)
Definition opened (headers : list hdr_arg) (k : nat) (u : ws_url) (w : zcio_ws C) : Prop :=
  ∃ s0 rnd s1 d s2 w0 body up cn,
    let head := ztake body d in
    dial (u_secure u) (u_host u) (u_port u) = Some s0 ∧ entropy k = Some rnd ∧
    ws_send_handshake s0 (u_host u) (u_port u) (u_secure u) (u_path u) (base64 rnd) headers = Ok (s1, ZCIO_OK) ∧
    pulled s1 d s2 ∧ ws_new set_timeout s2 false = Some w0 ∧ stream w = stream w0 ∧
    strstr d (CRLF ++ CRLF) = Some (body - 4) ∧
    ws_parse_status head = Some 101 ∧
    ws_find_header head (B "upgrade") = Some up ∧ ws_ci_has_token up (B "websocket") = true ∧
    ws_find_header head (B "connection") = Some cn ∧ ws_ci_has_token cn (B "upgrade") = true ∧
    ws_find_header head (B "sec-websocket-accept") = Some (base64 (sha1 (base64 rnd ++ WS_GUID))) ∧
    buf_contents (w_in w) = zdrop body d ∧ is_server w = false.

Lemma ws_new_fresh st server w : ws_new set_timeout st server = Some w →
  w_in w = buf_empty ∧ is_server w = server.
Proof.
  unfold ws_new, ws_apply_timeout. destruct (zcio_xcalloc_ok _ _); [|done]. intros [= <-].
  cbn. repeat case_match; done.
Qed.

Lemma upgrade_ok_true head key : holds (upgrade_ok head key) (λ ok, ok = true →
  ∃ up cn, ws_find_header head (B "upgrade") = Some up ∧ ws_ci_has_token up (B "websocket") = true ∧
    ws_find_header head (B "connection") = Some cn ∧ ws_ci_has_token cn (B "upgrade") = true ∧
    ws_find_header head (B "sec-websocket-accept") = Some (base64 (sha1 (key ++ WS_GUID)))).
Proof.
  unfold upgrade_ok, ws_compute_accept.
  generalize (ws_find_header head (B "upgrade")), (ws_find_header head (B "connection")),
    (ws_find_header head (B "sec-websocket-accept")), (ws_ci_has_token : bytes → bytes → bool).
  intros [up|] [cn|] [got|] tok; cbv beta iota; try done.
  destruct (_ && _) eqn:E; cbn [negb]; [|done]. btest. destruct (zcio_xmalloc_ok _); [|done].
  intros Hb%bool_decide_eq_true. subst. exists up, cn. ands.
Qed.

Lemma reply_opened headers redir u s0 s1 s rnd acc body : dial (u_secure u) (u_host u) (u_port u) = Some s0 →
  entropy redir = Some rnd →
  ws_send_handshake s0 (u_host u) (u_port u) (u_secure u) (u_path u) (base64 rnd) headers = Ok (s1, ZCIO_OK) →
  pulled s1 (buf_contents acc) s → strstr (buf_contents acc) (CRLF ++ CRLF) = Some (body - 4) →
  holds (ws_reply_of set_timeout redir u s (base64 rnd) acc body)
    (λ r, match r with Session w => opened headers redir u w | _ => True end).
Proof.
  intros Hdial Hr Hsend Hpull Hs. unfold ws_reply_of. set (d := buf_contents acc) in *.
  destruct (ws_parse_status (ztake body d)) as [st|] eqn:Est; [|done].
  destruct (st =? 101) eqn:E101; btest.
  2:{ destruct (_ && _); [|done]. by destruct (ws_find_header _ _). }
  subst st. apply holds_bind. eapply holds_mono; [apply upgrade_ok_true|].
  intros [] Hok; [|done]. cbn [negb]. destruct (Hok eq_refl) as (up & cn & Hup & Htu & Hcn & Htc & Ha).
  destruct (ws_new _ _ _) as [w|] eqn:Ew; [|done]. destruct (ws_new_fresh _ _ _ Ew) as [Hin Hsv].
  assert (∀ b, buf_contents b = zdrop body d → opened headers redir u (set_in b w)) as Hgo.
  { intros b Hb. exists s0, rnd, s1, d, s, w, body, up, cn. cbn. ands. }
  bcase.
  { replace w with (set_in (w_in w) w) by (by destruct w). apply Hgo. rewrite Hin.
    destruct (zdrop body d); [done|]. cbn in *. lia. }
  destruct (append_outcome (w_in w) (zdrop body d)) as (r & b & E & _ & Hc); [rewrite Hin; apply buf_empty_wf|].
  rewrite E. cbn. destruct Hc as [(-> & Hc)|(-> & _)]; cbn; [|done]. apply Hgo. by rewrite Hc, Hin.
Qed.

Lemma read_head_end fuel (s : option (zcio_stream C)) acc : buf_wf acc → holds (read_head_loop fuel s acc)
  (λ '(s', acc', e), match e with
     | inr body => strstr (buf_contents acc') (CRLF ++ CRLF) = Some (body - 4) ∧
         ∃ d, pulled s d s' ∧ buf_contents acc' = buf_contents acc ++ d
     | inl _ => True end).
Proof.
  revert s acc. induction fuel as [|fuel IH]; intros s acc Hw; cbn [read_head_loop]; [done|].
  destruct (if 4 <=? _ then _ else _) as [i|] eqn:E.
  { destruct (4 <=? _); [|done]. unfold head_end in E. cbv beta iota delta [holds].
    destruct (strstr (buf_contents acc) (CRLF ++ CRLF)) as [j|]; [|done].
    apply (inj Some) in E. split; [f_equal; lia|]. exists []. rewrite app_nil_r. split; [constructor|done]. }
  destruct (_ <? _); [done|]. destruct (zcio_read s false 2048) as [[[s1 r] d]| |] eqn:Er; [|done..].
  cbn [mbind exec_bind]. destruct (r <=? 0) eqn:E0; [done|]. btest.
  destruct (append_outcome acc (ztake r d) Hw) as (a & b & -> & Hwb & Hc).
  destruct Hc as [(-> & Hc)|(-> & _)]; cbn [negb Z.eqb]; [|done].
  eapply holds_mono; [by apply IH|]. intros [[s' acc'] [e|body]]; [done|]. intros (Hs & d' & Hp & Hc').
  split; [done|]. exists (ztake r d ++ d'). split; [by eapply pulled_more|]. by rewrite Hc', Hc, <- app_assoc.
Qed.

Lemma attempt_opened redir u headers : holds (ws_attempt set_timeout dial entropy redir u headers)
  (λ r, match r with Session w => opened headers redir u w | _ => True end).
Proof.
  unfold ws_attempt. destruct (dial _ _ _) as [s|] eqn:Ed; [|done].
  destruct (entropy redir) as [rnd|] eqn:Er; [|done]. cbv zeta.
  destruct (ws_send_handshake _ _ _ _ _ _ _) as [[s' r]| |] eqn:Es; [|done..]. cbn [mbind exec_bind].
  destruct (negb (r =? ZCIO_OK)) eqn:E0; btest; [done|]. subst r. apply holds_bind. unfold ws_read_head.
  eapply holds_mono; [apply read_head_end, buf_empty_wf|]. intros [[s'' acc] [|body]] Hb; [done|].
  destruct Hb as (Hb & d & Hp & Hc). change (buf_contents buf_empty ++ d) with d in Hc. subst d. by eapply reply_opened.
Qed.

(** No step from a secure endpoint to an insecure one. *)
Fixpoint kept_secure (prev : option bool) (us : list ws_url) : Prop :=
  match us with
  | [] => True
  | u :: us => (prev = Some true → u_secure u = true) ∧ kept_secure (Some (u_secure u)) us
  end.

Lemma connect_loop_facts n redir prev cur headers :
  holds (connect_loop set_timeout dial entropy n redir prev cur headers) (λ '(w, us),
    (length us ≤ n)%nat ∧ kept_secure prev us ∧
    ∀ s, w = Some s → ∃ us0 u, us = us0 ++ [u] ∧ opened headers (redir + length us0) u s).
Proof.
  revert redir prev cur. induction n as [|n IH]; intros redir prev cur; cbn [connect_loop].
  { cbn. ands. }
  destruct (ws_url_parse cur) as [e|u]; [cbn; ands|].
  destruct (_ && _) eqn:E; [cbn; ands|]. apply holds_bind. eapply holds_mono; [apply attempt_opened|].
  assert (prev = Some true → u_secure u = true) as Hsec.
  { intros ->. cbn in E. by destruct (u_secure u). }
  intros [w|[next|]|] Hw; cbn [holds].
  - cbn. ands. intros s [= <-]. exists [], u. by rewrite Nat.add_0_r.
  - apply holds_bind. eapply holds_mono; [apply IH|]. intros [w us] (Hl & Hk & Hs). cbn. ands.
    intros s Hs0. destruct (Hs s Hs0) as (us0 & v & -> & Ho). exists (u :: us0), v. split; [done|].
    cbn [length]. by rewrite Nat.add_succ_r.
  - cbn. ands.
  - cbn. ands.
Qed.

Lemma kept_secure_lookup prev us i u u' : kept_secure prev us →
  us !! i = Some u → us !! S i = Some u' → u_secure u = true → u_secure u' = true.
Proof.
  revert prev i. induction us as [|x us IH]; intros prev i Hk Hi Hj Hu; [done|]. destruct Hk as [_ Hk].
  destruct i as [|i]; cbn in *; [|by eapply IH]. injection Hi as ->. destruct us as [|y us]; [done|].
  injection Hj as ->. destruct Hk as [Hk _]. apply Hk. by f_equal.
Qed.
End Opened.

(** C34: a client connection dials at most four endpoints, never an insecure
    one right after a secure one.  A session is returned only by the last of
    these attempts, on the stream it dialled, after the opening request with this
    attempt's key was sent on it in full, and only when the bytes then read from
    that stream begin with a head whose status is 101, with both upgrade tokens
    and the accept value of that key; the bytes read after the head, and nothing
    else, are in the session's input buffer. *)
Theorem ws_connect_sound `{Allocator} {C} (set_timeout : option (zcio_stream C) → Z → option (zcio_stream C))
    dial entropy url headers w us
    (Hrun : zcio_ws_connect set_timeout dial entropy url headers = Ok (w, us)) :
  (length us ≤ 4)%nat ∧
  (∀ i u u', us !! i = Some u → us !! S i = Some u' → u_secure u = true → u_secure u' = true) ∧
  (∀ s, w = Some s → ∃ us0 u, us = us0 ++ [u] ∧ opened set_timeout dial entropy headers (length us0) u s).
Proof.
  unfold zcio_ws_connect in Hrun. destruct (negb _); [injection Hrun as <- <-; cbn; ands|].
  assert (connect_loop set_timeout dial entropy 4 0 None (zcio_strdup_ url) headers = Ok (w, us) ∨
          w = None ∧ us = []) as [E|[-> ->]].
  { destruct url as [u|]; [|by left]. destruct (zcio_strdup_ (Some u)); [by left|].
    right. by injection Hrun as <- <-. }
  - destruct (holds_Ok _ _ _ E (connect_loop_facts _ _ _ 4 0 None _ headers)) as (Hl & Hk & Hs).
    split; [done|]. split; [|done]. intros i u u'. by apply (kept_secure_lookup None us).
  - cbn. ands.
Qed.

(** ** Redirects to a path stay on the same endpoint *)

Section Redirect.
Context `{Allocator}.

Lemma url_parse_facts url u : ws_url_parse (Some url) = inr u → host_ok (u_host u) ∧ 1 ≤ u_port u ≤ 65535.
Proof.
  unfold ws_url_parse. destruct (strstr url _) as [sep|]; [|done]. destruct (8 <=? sep); [done|].
  destruct (scheme_of _) as [sec|]; [|done]. set (a0 := zdrop (sep + 3) url).
  assert (∃ a path, (match memchr 47 a0 with Some i => (ztake i a0, zdrop i a0) | None => (a0, B "/") end)
     = (a, path) ∧ 47 ∉ a) as (a & path & -> & Ha).
  { pose proof (memchr_spec 47 a0) as Hm. destruct (memchr 47 a0); [|by eauto]. destruct Hm as (_ & _ & ?). eauto. }
  set (au := strip_userinfo (S (length a)) a).
  assert (64 ∉ au) as Hat by (apply strip_userinfo_none; lia).
  assert (47 ∉ au) as Hsl.
  { intros Hx. apply Ha. destruct (strip_userinfo_suffix (S (length a)) a) as [k ->]. apply elem_of_app. by right. }
  destruct (split_authority au) as [[host ps]|] eqn:Es; [|done].
  destruct (zlen host =? 0) eqn:Eh; btest; [done|].
  destruct (parse_port sec ps) as [port|] eqn:Ep; [|done].
  destruct (_ && _); [|done]. intros [= <-]. cbn. split; [by eapply split_host_ok|].
  unfold parse_port in Ep. destruct ps as [[|c p]|].
  - injection Ep as <-. destruct sec; lia.
  - destruct (16 <=? _); [done|]. destruct (strtol _) as [[v [|]]|]; [|done..].
    destruct (_ || _) eqn:E; [done|]. btest. injection Ep as <-. lia.
  - injection Ep as <-. destruct sec; lia.
Qed.

Lemma authority_no c sec host port : c ∉ host → 1 ≤ port ≤ 65535 → ¬ 48 ≤ c ≤ 57 → c ∉ [58; 91; 93] →
  c ∉ authority (has_colon host) host (port_text sec port).
Proof.
  intros Hh Hp Hc Hs. rewrite !elem_of_cons, elem_of_nil in Hs.
  unfold authority. rewrite !elem_of_app. intros [Hx|[Hx|[Hx|Hx]]]; [|done|..].
  - destruct (has_colon host); [|by apply elem_of_nil in Hx]. apply list_elem_of_singleton in Hx. tauto.
  - destruct (has_colon host); [|by apply elem_of_nil in Hx]. apply list_elem_of_singleton in Hx. tauto.
  - destruct (port_text_cases sec port Hp) as [[Ht _]|Ht]; rewrite Ht in Hx; [by apply elem_of_nil in Hx|].
    apply elem_of_cons in Hx as [?|Hx]; [tauto|]. revert Hx. by apply dec_no.
Qed.

(** An absolute URL of one of the two schemes [ws_resolve] writes. *)
Lemma parse_scheme (sec : bool) auth l : 47 ∉ auth → 64 ∉ auth →
  ws_url_parse (Some ((if sec then B "wss" else B "ws") ++ B "://" ++ auth ++ 47 :: l)) =
  match split_authority auth with
  | None => inl ZCIO_ERR_PROTOCOL
  | Some (host, ps) =>
      if zlen host =? 0 then inl ZCIO_ERR_PROTOCOL
      else match parse_port sec ps with
      | None => inl ZCIO_ERR_PROTOCOL
      | Some port =>
          if zcio_xmalloc_ok (zlen host + 1) && alloc_ok (zlen (47 :: l) + 1)
          then inr (mk_url sec host port (47 :: l)) else inl ZCIO_ERR_NOMEM
      end
  end.
Proof.
  intros H47 H64. unfold ws_url_parse. set (rest := auth ++ 47 :: l).
  assert (strstr ((if sec then B "wss" else B "ws") ++ B "://" ++ rest) (B "://") =
          Some (if sec then 3 else 2)) as -> by (by destruct sec).
  assert ((8 <=? (if sec then 3 else 2)) = false) as -> by (by destruct sec).
  assert (scheme_of (ztake (if sec then 3 else 2) ((if sec then B "wss" else B "ws") ++ B "://" ++ rest)) = Some sec)
    as -> by (by destruct sec).
  assert (zdrop ((if sec then 3 else 2) + 3) ((if sec then B "wss" else B "ws") ++ B "://" ++ rest) = rest)
    as -> by (by destruct sec).
  unfold rest. rewrite memchr_app, ztake_app_zlen, zdrop_app_zlen, strip_userinfo_id by done. done.
Qed.
End Redirect.

(** A redirect to an absolute path keeps the endpoint: whatever URL the
    current endpoint was parsed from, the URL that [ws_resolve] builds for a
    path parses back to the same scheme, host (bracketed again when it is an
    IPv6 literal) and port, with the redirect's path. *)
Theorem ws_redirect_same_origin `{Allocator} url u loc next u'
    (Hurl : ws_url_parse (Some url) = inr u)
    (Hpath : strstr loc (B "://") = None)
    (Hnext : ws_resolve (Some loc) (u_host u) (u_port u) (u_secure u) = Some next)
    (Hparse : ws_url_parse (Some next) = inr u') :
  u' = mk_url (u_secure u) (u_host u) (u_port u) loc.
Proof.
  destruct (url_parse_facts _ _ Hurl) as [Hh Hp]. unfold ws_resolve in Hnext.
  destruct loc as [|c l]; [done|]. rewrite Hpath in Hnext. destruct (c =? 47) eqn:Ec; btest; [|done].
  subst c. cbv beta iota delta [negb] in Hnext. destruct (zcio_xmalloc_ok _); [|done].
  fold (port_text (u_secure u) (u_port u)) in Hnext. apply (inj Some) in Hnext.
  set (au := authority (has_colon (u_host u)) (u_host u) (port_text (u_secure u) (u_port u))).
  assert (next = (if u_secure u then B "wss" else B "ws") ++ B "://" ++ au ++ 47 :: l) as ->.
  { rewrite <- Hnext. unfold au, authority. by rewrite <- !app_assoc. }
  destruct Hh as (H47 & H64 & Hne & H93).
  rewrite parse_scheme in Hparse by (apply authority_no; [done|done|lia|rewrite !elem_of_cons, elem_of_nil; lia]).
  destruct (split_authority au) as [[h ps]|] eqn:Es; [|done].
  destruct (split_resolved (u_secure u) (u_host u) (u_port u) h ps) as [-> Hps]; [done..|].
  rewrite Hps in Hparse. destruct (_ =? 0); [done|]. destruct (_ && _); [|done]. congruence.
Qed.

(** ** Witnesses *)

(** A path whose query holds "://" is taken for an absolute URL and refused. *)
Example redirect_query_refused :
  let loc := B "/login?next=http://h/" in
  @ws_resolve always_alloc (Some loc) (B "h") 80 false = Some loc ∧
  @ws_url_parse always_alloc (Some loc) = inl ZCIO_ERR_PROTOCOL.
Proof. split; vm_compute; reflexivity. Qed.

(** A peer that answers a fixed text and swallows what it is sent. *)
Definition PEER_VT : zcio_stream_vtable bytes :=
  {| vt_name := B "peer";
     vt_read := Some (λ c n, Ok (zdrop n c, zlen (ztake n c), ztake n c));
     vt_write := Some (λ c src, Ok (c, zlen src));
     vt_seek := None; vt_flush := None; vt_close := None; vt_destroy := false;
     vt_available := None; vt_eof := None |}.

Definition ex_rnd : bytes := map Z.of_nat (seq 1 16).

(** Host [a] redirects to host [b], which upgrades and sends one text frame. *)
Definition ex_dial (secure : bool) (host : bytes) (port : Z) : option (option (zcio_stream bytes)) :=
  if bool_decide (host = B "a")
  then Some (Some (mk_stream PEER_VT (B "HTTP/1.1 302 Found" ++ CRLF ++ B "Location: wss://b/c" ++ CRLF ++ CRLF) 0))
  else Some (Some (mk_stream PEER_VT
    (B "HTTP/1.1 101 OK" ++ CRLF ++ B "Upgrade: WebSocket" ++ CRLF ++ B "Connection: keep-alive, Upgrade" ++ CRLF ++
     B "Sec-WebSocket-Accept: " ++ base64 (sha1 (base64 ex_rnd ++ WS_GUID)) ++ CRLF ++ CRLF ++ [0x81; 1; 65]) 0)).

Definition ex_connect : exec (option (zcio_ws bytes) * list ws_url) :=
  zcio_ws_connect (H := always_alloc) (λ s _, s) ex_dial (λ _, Some ex_rnd) (Some (B "ws://a/"))
    [(Some (B "X-Extra"), Some (B "1"))].

Lemma ex_connect_runs :
  match ex_connect with Ok (Some w, us) => Some (buf_contents (w_in w), length us) | _ => None end =
  Some ([0x81; 1; 65], 2%nat).
Proof. vm_compute. reflexivity. Qed.

Lemma ws_connect_sound_witness : ∃ w us,
  ex_connect = Ok (Some w, us) ∧ length us = 2%nat ∧ ∃ us0 u, us = us0 ++ [u] ∧
  opened (H := always_alloc) (λ s _, s) ex_dial (λ _, Some ex_rnd) [(Some (B "X-Extra"), Some (B "1"))] (length us0) u w.
Proof.
  pose proof ex_connect_runs as H. destruct ex_connect as [[[w|] us]| |] eqn:E; try discriminate H.
  exists w, us. split; [reflexivity|]. split; [by injection H|].
  destruct (@ws_connect_sound always_alloc bytes _ _ _ _ _ _ _ E) as (_ & _ & Hs). by apply Hs.
Defined.

Lemma ws_redirect_same_origin_witness :
  @ws_url_parse always_alloc (Some (B "WSS://user@[::1]:8443/a")) = inr (mk_url true (B "::1") 8443 (B "/a")) ∧
  @ws_url_parse always_alloc (Some (B "wss://[::1]:8443/b?c")) = inr (mk_url true (B "::1") 8443 (B "/b?c")).
Proof.
  split; [vm_compute; reflexivity|].
  destruct (@ws_url_parse always_alloc (Some (B "wss://[::1]:8443/b?c"))) as [e|u'] eqn:E;
    [vm_compute in E; discriminate E|]. f_equal.
  apply (@ws_redirect_same_origin always_alloc (B "wss://[::1]:8443/a") (mk_url true (B "::1") 8443 (B "/a"))
    (B "/b?c") (B "wss://[::1]:8443/b?c")); [vm_compute; reflexivity..|exact E].
Defined.
