(* ===== verification/Init.v ===== *)
(** * Init: one-time initialisation ([zcio_init] of [src/util.c])

    Threads call [zcio_init] at any time and any number of times; one step is
    one atomic access to [g_init_state] or one call of the initialisation
    body.  [g_init_state] is the only location the threads share, so the
    acquire and release orders are those of the steps. *)
From stdpp Require Import base tactics list option.
From Stdlib Require Import ZArith Lia.
From S2P Require Import Prelude.

Definition ZCIO_INIT_NONE : Z := 0.
Definition ZCIO_INIT_BUSY : Z := 1.
Definition ZCIO_INIT_DONE : Z := 2.

(** Where a thread is: before the call, at the compare-and-swap, in the body of
    the winner, in the loop of the others, or back in its caller. *)
Inductive init_pc := Idle | AtCas | AtStartup | AtInstall | AtStore | Spinning | Returned.

#[global] Instance init_pc_eq_dec : EqDecision init_pc.
Proof. solve_decision. Defined.

Record init_state := mk_init {
  g_init_state : Z;
  i_startups : Z;      (* calls of zcio_socket_startup *)
  i_installs : Z;      (* calls of zcio_tls_install_default_backend *)
  i_threads : list init_pc;
}.

(** A step of one thread, by its position. *)
Definition zcio_init (s : init_state) (t : nat) : option init_state :=
  let go g su ins pc := Some (mk_init g su ins (<[t := pc]> (i_threads s))) in
  let '(g, su, ins) := (g_init_state s, i_startups s, i_installs s) in
  match i_threads s !! t with
  | None => None
  | Some Idle | Some Returned => go g su ins AtCas
  | Some AtCas =>
      if g =? ZCIO_INIT_NONE then go ZCIO_INIT_BUSY su ins AtStartup else go g su ins Spinning
  | Some AtStartup => go g (su + 1) ins AtInstall
  | Some AtInstall => go g su (ins + 1) AtStore
  | Some AtStore => go ZCIO_INIT_DONE su ins Returned
  | Some Spinning => if g =? ZCIO_INIT_DONE then go g su ins Returned else Some s
  end.

Fixpoint init_run (s : init_state) (sched : list nat) : option init_state :=
  match sched with
  | [] => Some s
  | t :: sched => s' ← zcio_init s t; init_run s' sched
  end.

Definition init_start (n : nat) : init_state := mk_init ZCIO_INIT_NONE 0 0 (replicate n Idle).

(** ** Invariant *)

Definition in_body (pc : init_pc) : Prop := pc = AtStartup ∨ pc = AtInstall ∨ pc = AtStore.

#[global] Instance in_body_dec pc : Decision (in_body pc).
Proof. unfold in_body. apply _. Defined.

(** How often the two initialisers have run when the winner is at [pc]. *)
Definition body_counts (pc : init_pc) : Z * Z :=
  match pc with AtInstall => (1, 0) | AtStore => (1, 1) | _ => (0, 0) end.

Inductive init_inv (s : init_state) : Prop :=
  | inv_none :
      g_init_state s = ZCIO_INIT_NONE → i_startups s = 0 → i_installs s = 0 →
      Forall (λ pc, pc = Idle ∨ pc = AtCas) (i_threads s) → init_inv s
  | inv_busy t pc :
      g_init_state s = ZCIO_INIT_BUSY → i_threads s !! t = Some pc → in_body pc →
      (i_startups s, i_installs s) = body_counts pc →
      (∀ u q, i_threads s !! u = Some q → u ≠ t → q = Idle ∨ q = AtCas ∨ q = Spinning) → init_inv s
  | inv_done :
      g_init_state s = ZCIO_INIT_DONE → i_startups s = 1 → i_installs s = 1 →
      Forall (λ pc, ¬ in_body pc) (i_threads s) → init_inv s.

Lemma init_start_inv n : init_inv (init_start n).
Proof. apply inv_none; [done..|]. apply Forall_replicate. by left. Qed.

(** Moving thread [t] keeps what holds of the other threads. *)
Lemma others_insert (l : list init_pc) t pc (P : nat → init_pc → Prop) :
  (∀ u q, l !! u = Some q → u ≠ t → P u q) → (∀ u q, <[t:=pc]> l !! u = Some q → u ≠ t → P u q).
Proof. intros Hl u q Hu Hne. rewrite list_lookup_insert_ne in Hu by done. by apply Hl. Qed.

Lemma init_step_inv s t s' : init_inv s → zcio_init s t = Some s' → init_inv s'.
Proof.
  intros Hi. unfold zcio_init. destruct (i_threads s !! t) as [pc|] eqn:Et; [|done].
  pose proof (lookup_lt_Some _ _ _ Et) as Hlt. destruct Hi as [Hg Hs Hn Hf | t0 pc0 Hg H0 Hb Hc Ho | Hg Hs Hn Hf].
  - rewrite Hg, Hs, Hn. destruct (proj1 (Forall_lookup _ _) Hf t pc Et) as [-> | ->]; cbn.
    + intros [= <-]. apply inv_none; cbn; [done..|]. apply Forall_insert; [done|by right].
    + intros [= <-]. apply (inv_busy _ t AtStartup); cbn; [done|by apply list_lookup_insert_eq|by left|done|].
      apply others_insert. intros u q Hu _. destruct (proj1 (Forall_lookup _ _) Hf u q Hu); tauto.
  - rewrite Hg. destruct (decide (t = t0)) as [->|Hne].
    + rewrite H0 in Et. injection Et as <-. revert Hc.
      destruct Hb as [-> | [-> | ->]]; cbn; intros [= Hs Hn] [= <-].
      * apply (inv_busy _ t0 AtInstall); cbn; [done|by apply list_lookup_insert_eq|by right; left|f_equal; lia|].
        by apply others_insert.
      * apply (inv_busy _ t0 AtStore); cbn; [done|by apply list_lookup_insert_eq|by right; right|f_equal; lia|].
        by apply others_insert.
      * apply inv_done; cbn; [done..|]. apply Forall_lookup. intros u q Hu.
        destruct (decide (u = t0)) as [->|Hu0].
        -- rewrite list_lookup_insert_eq in Hu by done. injection Hu as <-. unfold in_body. naive_solver.
        -- rewrite list_lookup_insert_ne in Hu by done. unfold in_body. destruct (Ho u q Hu Hu0) as [->|[->| ->]]; naive_solver.
    + assert (∀ pc', pc' = Idle ∨ pc' = AtCas ∨ pc' = Spinning →
        init_inv (mk_init ZCIO_INIT_BUSY (i_startups s) (i_installs s) (<[t:=pc']> (i_threads s)))) as Hmv.
      { intros pc' Hpc. apply (inv_busy _ t0 pc0); cbn; [done|by rewrite list_lookup_insert_ne|done|done|].
        intros u q Hu Hu0. destruct (decide (u = t)) as [->|Hut].
        - rewrite list_lookup_insert_eq in Hu by done. injection Hu as <-. done.
        - rewrite list_lookup_insert_ne in Hu by done. by apply (Ho u). }
      destruct (Ho t pc Et Hne) as [->|[->| ->]]; cbn; intros [= <-]; [apply Hmv; tauto..|].
      by apply (inv_busy _ t0 pc0).
  - rewrite Hg, Hs, Hn. pose proof (proj1 (Forall_lookup _ _) Hf t pc Et) as Hpc. unfold in_body in Hpc.
    destruct pc; cbn; try (exfalso; tauto); intros [= <-];
      (apply inv_done; cbn; [done..|]; apply Forall_insert; [done|unfold in_body; naive_solver]).
Qed.

Lemma init_run_inv s sched s' : init_inv s → init_run s sched = Some s' → init_inv s'.
Proof.
  revert s. induction sched as [|t sched IH]; intros s Hi; cbn [init_run]; [by intros [= <-]|].
  destruct (zcio_init s t) as [s1|] eqn:E; cbn [mbind option_bind]; [|done]. apply IH. by eapply init_step_inv.
Qed.

(** ** Progress: how many steps a thread and the winner still need *)

Definition pc_rank (pc : init_pc) : nat :=
  match pc with AtStartup => 3 | AtInstall => 2 | AtStore => 1 | _ => 0 end.

(** The winner's remaining steps take the state to [ZCIO_INIT_DONE]. *)
Lemma winner_finishes n s t pc : pc_rank pc = n → in_body pc → i_threads s !! t = Some pc →
  ∃ s', init_run s (replicate n t) = Some s' ∧ g_init_state s' = ZCIO_INIT_DONE ∧
    ∀ u, u ≠ t → i_threads s' !! u = i_threads s !! u.
Proof.
  revert s pc. induction n as [|n IH]; intros s pc Hr Hb Et.
  { destruct Hb as [->|[->| ->]]; discriminate. }
  pose proof (lookup_lt_Some _ _ _ Et) as Hlt. cbn [replicate init_run].
  unfold zcio_init. rewrite Et. destruct Hb as [->|[->| ->]]; cbn in Hr; injection Hr as <-; cbn [mbind option_bind].
  - edestruct (IH (mk_init (g_init_state s) (i_startups s + 1) (i_installs s) (<[t:=AtInstall]> (i_threads s))) AtInstall)
      as (s' & -> & Hd & Ho); [done|by right; left|by apply list_lookup_insert_eq|].
    exists s'. split; [done|]. split; [done|]. intros u Hu. rewrite Ho by done. cbn. by apply list_lookup_insert_ne.
  - edestruct (IH (mk_init (g_init_state s) (i_startups s) (i_installs s + 1) (<[t:=AtStore]> (i_threads s))) AtStore)
      as (s' & -> & Hd & Ho); [done|by right; right|by apply list_lookup_insert_eq|].
    exists s'. split; [done|]. split; [done|]. intros u Hu. rewrite Ho by done. cbn. by apply list_lookup_insert_ne.
  - eexists. cbn. split; [done|]. split; [done|]. intros u Hu. by apply list_lookup_insert_ne.
Qed.

(** ** Properties *)

(** C27: However the calls of any number of threads interleave, each initialiser
    runs at most once, a call that has returned left both of them run, and a
    thread that waits is waiting for a winner whose remaining steps, three at
    most, release it. *)
Theorem zcio_init_once n sched s (Hrun : init_run (init_start n) sched = Some s) :
  0 ≤ i_startups s ≤ 1 ∧ 0 ≤ i_installs s ≤ 1 ∧
  (∀ t, i_threads s !! t = Some Returned →
    g_init_state s = ZCIO_INIT_DONE ∧ i_startups s = 1 ∧ i_installs s = 1) ∧
  (∀ t, i_threads s !! t = Some Spinning →
    ∃ k w s' s'', (k ≤ 3)%nat ∧ init_run s (replicate k w) = Some s' ∧
      zcio_init s' t = Some s'' ∧ i_threads s'' !! t = Some Returned).
Proof.
  apply init_run_inv in Hrun; [|apply init_start_inv].
  assert (∀ s t, i_threads s !! t = Some Spinning → g_init_state s = ZCIO_INIT_DONE →
    ∃ s'', zcio_init s t = Some s'' ∧ i_threads s'' !! t = Some Returned) as Hrel.
  { intros s1 t Ht Hg. unfold zcio_init. rewrite Ht, Hg. cbn. eexists. split; [done|].
    apply list_lookup_insert_eq. by eapply lookup_lt_Some. }
  destruct Hrun as [Hg Hs Hn Hf | t0 pc0 Hg H0 Hb Hc Ho | Hg Hs Hn Hf].
  - split; [lia|]. split; [lia|]. split; intros t Ht;
      destruct (proj1 (Forall_lookup _ _) Hf t _ Ht); discriminate.
  - split; [|split]; [destruct Hb as [->|[->| ->]]; cbn in Hc; injection Hc; lia..|]. split; intros t Ht.
    { destruct (decide (t = t0)) as [->|Hne]; [rewrite H0 in Ht; injection Ht as ->; unfold in_body in Hb; naive_solver|].
      destruct (Ho t _ Ht Hne) as [?|[?|?]]; discriminate. }
    destruct (decide (t = t0)) as [->|Hne]; [rewrite H0 in Ht; injection Ht as ->; unfold in_body in Hb; naive_solver|].
    destruct (winner_finishes (pc_rank pc0) s t0 pc0) as (s' & Hr & Hd & Hoth); [done..|].
    destruct (Hrel s' t) as (s'' & Hs'' & Hret); [by rewrite Hoth|done|].
    exists (pc_rank pc0), t0, s', s''. split; [destruct pc0; cbn; lia|done].
  - split; [lia|]. split; [lia|]. split; [done|]. intros t Ht. destruct (Hrel s t Ht Hg) as (s'' & Hs'' & Hret).
    exists 0%nat, 0%nat, s, s''. split; [lia|done].
Qed.

(** Three threads race; one of them is still waiting. *)
Lemma zcio_init_once_witness : ∃ s,
  init_run (init_start 3) [0; 1; 0; 1; 2; 0; 1; 0; 0; 2]%nat = Some s ∧
  i_threads s = [Returned; Spinning; Spinning] ∧
  0 ≤ i_startups s ≤ 1 ∧ 0 ≤ i_installs s ≤ 1 ∧
  (∀ t, i_threads s !! t = Some Returned →
    g_init_state s = ZCIO_INIT_DONE ∧ i_startups s = 1 ∧ i_installs s = 1) ∧
  (∀ t, i_threads s !! t = Some Spinning →
    ∃ k w s' s'', (k ≤ 3)%nat ∧ init_run s (replicate k w) = Some s' ∧
      zcio_init s' t = Some s'' ∧ i_threads s'' !! t = Some Returned).
Proof.
  eexists. split; [reflexivity|]. split; [reflexivity|].
  apply (zcio_init_once 3 [0; 1; 0; 1; 2; 0; 1; 0; 0; 2]%nat). reflexivity.
Defined.
