(* ===== verification/Sock.v ===== *)
(** * Sock: system calls, readiness waits and socket options

    The class [Sys] is the operating system the network files call; a call may
    fail with an [errno].  On top of it [src/socket_init.c]: the clock,
    [zcio_set_nonblocking], [zcio_poll_] and [zcio_select_eintr], and the
    [do ... while (errno == EINTR)] loops of the other files. *)
From stdpp Require Import base tactics list option strings.
From Stdlib Require Import ZArith Lia.
From S2P Require Import Prelude Types.

(** ** Data of the system interface *)

Inductive errno := EINTR | EAGAIN | EPIPE | ECONNRESET | EINPROGRESS | EOTHER.

#[global] Instance errno_eq_dec : EqDecision errno.
Proof. solve_decision. Defined.

(** A call that returned -1 with [errno], or succeeded. *)
Inductive sysret (A : Type) := Failed (e : errno) | Done (a : A).
Arguments Failed {A} e.
Arguments Done {A} a.

Definition interrupted {A} (r : sysret A) : bool :=
  match r with Failed EINTR => true | _ => false end.

(** [struct sockaddr_in], and an address of any other family. *)
Record sockaddr_in := mk_sin { sin_addr : Z; sin_port : Z }.
Inductive sockaddr := SIN (a : sockaddr_in) | SOTHER (b : bytes).

#[global] Instance sockaddr_in_eq_dec : EqDecision sockaddr_in.
Proof. solve_decision. Defined.

Record addrinfo := mk_ai { ai_family : Z; ai_socktype : Z; ai_protocol : Z; ai_addr : sockaddr }.

Definition AF_UNSPEC : Z := 0.
Definition AF_INET : Z := 2.
Definition AF_INET6 : Z := 10.
Definition SOCK_STREAM : Z := 1.
Definition SOCK_DGRAM : Z := 2.
Definition IPPROTO_UDP : Z := 17.
Definition O_NONBLOCK : Z := 2048.
Definition FD_SETSIZE : Z := 1024.
Definition ZCIO_INVALID_SOCKET : Z := -1.

Inductive sockopt :=
  | SO_REUSEADDR
  | SO_RCVTIMEO (sec usec : Z)
  | IP_MULTICAST_IF (addr : Z)
  | IP_MULTICAST_LOOP
  | IP_ADD_MEMBERSHIP (group iface : Z).

(** A 32-bit [int] made of a wider integer, and a [size_t] made of an [int]. *)
Definition i32 (z : Z) : Z := (z + 2 ^ 31) mod 2 ^ 32 - 2 ^ 31.

(** ** System calls

    [signals w]: how many calls signals will interrupt; it bounds the loops
    that retry on [EINTR].  [getaddrinfo] answers an error code or the list of
    candidates; [inet_ntop6] formats the address of an IPv6 candidate. *)
Class Sys (W : Type) := {
  clock_gettime : W → W * (Z * Z);
  sys_select : W → Z → bool → bool → option (Z * Z) → W * sysret (Z * bool * bool);
  sys_poll : W → list (Z * Z) → Z → W * sysret (Z * list Z);
  fcntl_getfl : W → Z → W * sysret Z;
  fcntl_setfl : W → Z → Z → W * sysret unit;
  sys_socket : W → Z → Z → Z → W * sysret Z;
  sys_connect : W → Z → sockaddr → W * sysret unit;
  sys_bind : W → Z → sockaddr_in → W * sysret unit;
  sys_listen : W → Z → Z → W * sysret unit;
  sys_accept : W → Z → W * sysret Z;
  sys_setsockopt : W → Z → sockopt → W * sysret unit;
  so_error : W → Z → W * Z;
  sys_getsockname : W → Z → W * sysret sockaddr_in;
  sys_recv : W → Z → Z → W * sysret bytes;
  sys_send : W → Z → bytes → W * sysret Z;
  sys_recvfrom : W → Z → Z → W * sysret (bytes * sockaddr_in);
  sys_sendto : W → Z → bytes → sockaddr_in → W * sysret Z;
  fionread : W → Z → sysret Z;
  sys_shutdown : W → Z → W;
  closesocket : W → Z → W;
  getaddrinfo : W → bytes → option Z → Z → Z → W * (Z + list addrinfo);
  inet_ntop6 : sockaddr → option bytes;
  signals : W → nat;
}.

Section Sock.
Context {W : Type} `{!Sys W}.

(** ** The clock *)

Definition zcio_now_ms_ (w : W) : W * Z :=
  let '(w, (sec, nsec)) := clock_gettime w in (w, u64 (sec * 1000 + nsec / 1000000)).

Definition zcio_now_ms (w : W) : W * Z := let '(w, t) := zcio_now_ms_ w in (w, i64 t).

(** [deadline = (timeout_ms >= 0) ? zcio_now_ms() + timeout_ms : 0] *)
Definition deadline_of (w : W) (timeout_ms : Z) : W * Z :=
  if 0 <=? timeout_ms then let '(w, now) := zcio_now_ms w in (w, now + timeout_ms) else (w, 0).

(** [remaining = deadline - now; if (remaining < 0) remaining = 0] *)
Definition remaining (w : W) (deadline : Z) : W * Z :=
  let '(w, now) := zcio_now_ms w in (w, if deadline - now <? 0 then 0 else deadline - now).

(** ** Retrying interrupted calls *)

Fixpoint eintr_loop {A} (fuel : nat) (call : W → W * sysret A) (w : W) : exec (W * sysret A) :=
  match fuel with
  | O => OutOfFuel
  | S fuel =>
      let '(w, r) := call w in
      if interrupted r then eintr_loop fuel call w else Ok (w, r)
  end.

(** [do { r = call(); } while (r < 0 && errno == EINTR)] *)
Definition retry {A} (call : W → W * sysret A) (w : W) : exec (W * sysret A) :=
  eintr_loop (S (signals w)) call w.

(** ** Waiting *)

Fixpoint poll_loop (fuel : nat) (w : W) (fds : list (Z * Z)) (timeout_ms deadline : Z)
  : exec (W * Z * list Z) :=
  match fuel with
  | O => OutOfFuel
  | S fuel =>
      let '(w, t) := if 0 <=? timeout_ms then remaining w deadline else (w, timeout_ms) in
      match sys_poll w fds (i32 t) with
      | (w, Failed EINTR) =>
          if timeout_ms <? 0 then poll_loop fuel w fds timeout_ms deadline
          else
            let '(w, now) := zcio_now_ms w in
            if 0 <? deadline - now then poll_loop fuel w fds timeout_ms deadline
            else Ok (w, 0, map (λ _, 0) fds)
      | (w, Failed _) => Ok (w, -1, map (λ _, 0) fds)
      | (w, Done (rc, revents)) => Ok (w, rc, revents)
      end
  end.

Definition zcio_poll_ (w : W) (fds : list (Z * Z)) (timeout_ms : Z) : exec (W * Z * list Z) :=
  let '(w, deadline) := deadline_of w timeout_ms in
  poll_loop (S (signals w)) w fds timeout_ms deadline.

(** [FD_SET] writes outside the set for a descriptor out of its range.  When
    [select] fails the sets are as they were. *)
Definition fd_set_ok (fd : Z) (want_read want_write : bool) : bool :=
  negb (want_read || want_write) || ((0 <=? fd) && (fd <? FD_SETSIZE)).

Fixpoint select_loop (fuel : nat) (w : W) (fd : Z) (want_read want_write : bool)
    (timeout_ms deadline : Z) : exec (W * Z * bool * bool) :=
  match fuel with
  | O => OutOfFuel
  | S fuel =>
      if negb (fd_set_ok fd want_read want_write) then Fault
      else
        let '(w, tv) :=
          if 0 <=? timeout_ms then
            let '(w, rem) := remaining w deadline in
            (w, Some (rem / 1000, (rem mod 1000) * 1000))
          else (w, None) in
        match sys_select w fd want_read want_write tv with
        | (w, Failed EINTR) =>
            if timeout_ms <? 0 then select_loop fuel w fd want_read want_write timeout_ms deadline
            else
              let '(w, now) := zcio_now_ms w in
              if 0 <? deadline - now
              then select_loop fuel w fd want_read want_write timeout_ms deadline
              else Ok (w, 0, want_read, want_write)
        | (w, Failed _) => Ok (w, -1, want_read, want_write)
        | (w, Done (rc, rd, wr)) => Ok (w, rc, want_read && rd, want_write && wr)
        end
  end.

Definition zcio_select_eintr (w : W) (fd : Z) (want_read want_write : bool) (timeout_ms : Z)
  : exec (W * Z * bool * bool) :=
  let '(w, deadline) := deadline_of w timeout_ms in
  select_loop (S (signals w)) w fd want_read want_write timeout_ms deadline.

(** ** Options *)

Definition zcio_set_nonblocking (w : W) (fd : Z) (on : bool) : W * Z :=
  match fcntl_getfl w fd with
  | (w, Failed _) => (w, ZCIO_ERR)
  | (w, Done flags) =>
      if flags <? 0 then (w, ZCIO_ERR)
      else
        let flags := if on then Z.lor flags O_NONBLOCK else Z.land flags (Z.lnot O_NONBLOCK) in
        match fcntl_setfl w fd flags with
        | (w, Done _) => (w, ZCIO_OK)
        | (w, Failed _) => (w, ZCIO_ERR)
        end
  end.

(** Nothing to do on POSIX, nor on Linux, where [MSG_NOSIGNAL] is used. *)
Definition zcio_socket_startup (w : W) : W := w.
Definition zcio_socket_nosigpipe (w : W) (fd : Z) : W := w.

End Sock.

(** ** What the waits rely on

    [clk w] is the time of world [w].  Reading the clock takes no time; a
    blocking call returns at most [late] after its timeout, and every call a
    signal interrupts uses up one of the signals still to come. *)
Class SysTime (W : Type) `{!Sys W} (clk : W → Z) (late : Z) := {
  late_nonneg : 0 ≤ late;
  clock_now : ∀ w, clk (clock_gettime w).1 = clk w ∧ (signals (clock_gettime w).1 ≤ signals w)%nat;
  clock_reads : ∀ w, let '(_, (s, ns)) := clock_gettime w in s * 1000 + ns / 1000000 = clk w;
  clk_range : ∀ w, 0 ≤ clk w < 2 ^ 62;
  select_time : ∀ w fd rd wr s us w' r, 0 ≤ s → 0 ≤ us → sys_select w fd rd wr (Some (s, us)) = (w', r) →
    clk w ≤ clk w' ≤ clk w + (s * 1000 + us / 1000) + late;
  select_signals : ∀ w fd rd wr tv w' r, sys_select w fd rd wr tv = (w', r) →
    (signals w' ≤ signals w)%nat ∧ (interrupted r = true → signals w' < signals w)%nat;
  select_flags : ∀ w fd rd wr tv w' rc r1 r2, sys_select w fd rd wr tv = (w', Done (rc, r1, r2)) → 0 ≤ rc;
  poll_time : ∀ w fds t w' r, 0 ≤ t → sys_poll w fds t = (w', r) → clk w ≤ clk w' ≤ clk w + t + late;
  poll_signals : ∀ w fds t w' r, sys_poll w fds t = (w', r) →
    (signals w' ≤ signals w)%nat ∧ (interrupted r = true → signals w' < signals w)%nat;
}.

(** ** Facts about the waits *)

Lemma i32_small z : - 2 ^ 31 ≤ z < 2 ^ 31 → i32 z = z.
Proof. intros. unfold i32. rewrite Z.mod_small; lia. Qed.

Section Retry.
Context {W : Type} `{!Sys W} {A : Type} (call : W → W * sysret A).
Hypothesis Hsig : ∀ w w' r, call w = (w', r) → interrupted r = true → (signals w' < signals w)%nat.

(** The loop ends with the first answer that is not an interruption. *)
Lemma eintr_loop_spec fuel w : (signals w < fuel)%nat →
  ∃ w1 w' r, eintr_loop fuel call w = Ok (w', r) ∧ call w1 = (w', r) ∧ interrupted r = false ∧
    (signals w1 ≤ signals w)%nat ∧
    (∀ P : W → Prop, (∀ v v' s, call v = (v', s) → interrupted s = true → P v → P v') → P w → P w1).
Proof.
  revert w. induction fuel as [|fuel IH]; intros w Hw; [lia|]. cbn [eintr_loop].
  destruct (call w) as [w' r] eqn:E. destruct (interrupted r) eqn:Er.
  - pose proof (Hsig _ _ _ E Er). destruct (IH w') as (w1 & w2 & r2 & H1 & H2 & H3 & H4 & H5); [lia|].
    exists w1, w2, r2. split; [done|]. split; [done|]. split; [done|]. split; [lia|].
    intros P HP Hw0. apply H5; [done|]. by eapply HP.
  - exists w, w', r. split; [done|]. split; [done|]. split; [done|]. split; [lia|]. by intros P _ Hw0.
Qed.

Lemma retry_spec w :
  ∃ w1 w' r, retry call w = Ok (w', r) ∧ call w1 = (w', r) ∧ interrupted r = false ∧
    (signals w1 ≤ signals w)%nat ∧
    (∀ P : W → Prop, (∀ v v' s, call v = (v', s) → interrupted s = true → P v → P v') → P w → P w1).
Proof. apply eintr_loop_spec. lia. Qed.
End Retry.

(** The first answer that is not an interruption. *)
Inductive final_answer {W A} (call : W → W * sysret A) : W → W → sysret A → Prop :=
  | final_now w w' r : call w = (w', r) → interrupted r = false → final_answer call w w' r
  | final_again w w1 e w' r : call w = (w1, e) → interrupted e = true → final_answer call w1 w' r → final_answer call w w' r.

Lemma retry_final `{!Sys W} {A} (call : W → W * sysret A) w w' r : retry call w = Ok (w', r) → final_answer call w w' r.
Proof.
  unfold retry. generalize (S (signals w)). intros fuel. revert w. induction fuel as [|fuel IH]; intros w; [done|].
  cbn [eintr_loop]. destruct (call w) as [w1 r1] eqn:E. destruct (interrupted r1) eqn:Ei; [|intros [= <- <-]; by constructor].
  intros Hr. eapply final_again; [done|done|]. by apply IH.
Qed.

(** What [select] answers by the deadline [d]: its first answer that is not an
    interruption, each time given the time that is left; or that the time is
    over, when a signal comes after the deadline. *)
Inductive select_answer `{!Sys W} (fd : Z) (rd wr : bool) (d : Z) : W → W → sysret (Z * bool * bool) → Prop :=
  | sel_now w w1 rem w' r : remaining w d = (w1, rem) →
      sys_select w1 fd rd wr (Some (rem / 1000, (rem mod 1000) * 1000)) = (w', r) → interrupted r = false →
      select_answer fd rd wr d w w' r
  | sel_late w w1 rem w2 e w' now : remaining w d = (w1, rem) →
      sys_select w1 fd rd wr (Some (rem / 1000, (rem mod 1000) * 1000)) = (w2, e) → interrupted e = true →
      zcio_now_ms w2 = (w', now) → d ≤ now → select_answer fd rd wr d w w' (Done (0, true, true))
  | sel_again w w1 rem w2 e w3 now w' r : remaining w d = (w1, rem) →
      sys_select w1 fd rd wr (Some (rem / 1000, (rem mod 1000) * 1000)) = (w2, e) → interrupted e = true →
      zcio_now_ms w2 = (w3, now) → now < d → select_answer fd rd wr d w3 w' r → select_answer fd rd wr d w w' r.

Lemma select_loop_answer `{!Sys W} fuel w fd rd wr t d w' rc r1 r2 : 0 ≤ t →
  select_loop fuel w fd rd wr t d = Ok (w', rc, r1, r2) →
  ∃ r, select_answer fd rd wr d w w' r ∧
    match r with Failed _ => rc = -1 | Done (k, a, b) => rc = k ∧ r1 = rd && a ∧ r2 = wr && b end.
Proof.
  intros Ht. revert w. induction fuel as [|fuel IH]; intros w; [done|]. cbn [select_loop].
  destruct (negb _); [done|]. rewrite (proj2 (Z.leb_le _ _)) by done. rewrite (proj2 (Z.ltb_ge t 0)) by done.
  destruct (remaining w d) as [w1 rem] eqn:Er. destruct (sys_select _ _ _ _ _) as [w2 r] eqn:Es.
  destruct r as [e|[[k a] b]].
  2:{ intros [= <- <- <- <-]. exists (Done (k, a, b)). split; [by eapply sel_now|done]. }
  destruct (decide (e = EINTR)) as [->|He].
  - destruct (zcio_now_ms w2) as [w3 now] eqn:En. destruct (Z.ltb_spec 0 (d - now)).
    + intros Hl. destruct (IH _ Hl) as (r & Hr & ?). exists r. split; [|done]. eapply sel_again; [done..|lia|done].
    + intros [= <- <- <- <-]. exists (Done (0, true, true)). split; [eapply sel_late; [done..|lia]|].
      by rewrite !andb_true_r.
  - assert (interrupted (Failed (A := Z * bool * bool) e) = false) as Hi by (by destruct e).
    intros Hl. exists (Failed e). assert (w2 = w' ∧ rc = -1) as [-> ->] by (destruct e; [done|by injection Hl..]).
    split; [by eapply sel_now|done].
Qed.

Lemma select_settled `{!Sys W} w fd rd wr t w' rc r1 r2 : 0 ≤ t →
  zcio_select_eintr w fd rd wr t = Ok (w', rc, r1, r2) →
  ∃ w1 d r, deadline_of w t = (w1, d) ∧ select_answer fd rd wr d w1 w' r ∧
    match r with Failed _ => rc = -1 | Done (k, a, b) => rc = k ∧ r1 = rd && a ∧ r2 = wr && b end.
Proof.
  intros Ht. unfold zcio_select_eintr. destruct (deadline_of w t) as [w1 d]. intros E.
  destruct (select_loop_answer _ _ _ _ _ _ _ _ _ _ _ Ht E) as (r & ? & ?). by exists w1, d, r.
Qed.

Section Waits.
Context {W : Type} `{!Sys W} {clk : W → Z} {late : Z} `{!SysTime W clk late}.

Lemma now_spec w : ∃ w', zcio_now_ms w = (w', clk w) ∧ clk w' = clk w ∧ (signals w' ≤ signals w)%nat.
Proof.
  pose proof (clock_now (clk := clk) (late := late) w) as [Hc Hs].
  pose proof (clock_reads (clk := clk) (late := late) w) as Hr.
  pose proof (clk_range (clk := clk) (late := late) w).
  unfold zcio_now_ms, zcio_now_ms_. destruct (clock_gettime w) as [w' [s ns]]. cbn in *. exists w'.
  rewrite Hr, wrap_small, i64_small by lia. done.
Qed.

Lemma remaining_spec w d : ∃ w', remaining w d = (w', Z.max 0 (d - clk w)) ∧ clk w' = clk w ∧ (signals w' ≤ signals w)%nat.
Proof.
  unfold remaining. destruct (now_spec w) as (w' & -> & Hc & Hs). exists w'. split; [|done].
  f_equal. destruct (Z.ltb_spec (d - clk w) 0); lia.
Qed.

Lemma deadline_spec w t : 0 ≤ t →
  ∃ w', deadline_of w t = (w', clk w + t) ∧ clk w' = clk w ∧ (signals w' ≤ signals w)%nat.
Proof.
  intros Ht. unfold deadline_of. rewrite (proj2 (Z.leb_le _ _)) by done.
  destruct (now_spec w) as (w' & -> & Hc & Hs). by exists w'.
Qed.

(** A wait that began before its deadline ends in time. *)
Lemma select_loop_spec fuel w fd rd wr t d : (signals w < fuel)%nat → fd_set_ok fd rd wr = true →
  0 ≤ t → clk w ≤ d →
  ∃ w' rc r1 r2, select_loop fuel w fd rd wr t d = Ok (w', rc, r1, r2) ∧
    clk w' ≤ d + late ∧ (signals w' ≤ signals w)%nat ∧ -1 ≤ rc ∧ (r1 = true → rd = true) ∧ (r2 = true → wr = true).
Proof.
  intros Hf Hfd Ht. revert w Hf. induction fuel as [|fuel IH]; intros w Hf Hd; [lia|].
  cbn [select_loop]. rewrite Hfd. cbn [negb]. rewrite (proj2 (Z.leb_le _ _)) by done.
  rewrite (proj2 (Z.ltb_ge t 0)) by done.
  destruct (remaining_spec w d) as (w1 & -> & Hc1 & Hs1).
  pose proof (late_nonneg (W := W) (clk := clk)) as Hlate.
  destruct (sys_select w1 fd rd wr _) as [w2 r] eqn:E.
  pose proof (λ Hs Hus, select_time _ _ _ _ _ _ _ _ Hs Hus E) as Ht2. pose proof (select_signals _ _ _ _ _ _ _ E) as [Hs2 Hi2].
  assert (clk w2 ≤ d + late) as Hc2.
  { pose proof (Z.mod_pos_bound (Z.max 0 (d - clk w)) 1000). pose proof (Z.div_pos (Z.max 0 (d - clk w)) 1000).
    rewrite Z.div_mul in Ht2 by lia. pose proof (Z.div_mod (Z.max 0 (d - clk w)) 1000). lia. }
  destruct r as [e|[[rc r1] r2]].
  - destruct e; try (eexists _, _, _, _; split; [done|]; split; [done|]; split; [lia|]; split; [lia|done]).
    specialize (Hi2 eq_refl). destruct (now_spec w2) as (w3 & -> & Hc3 & Hs3).
    destruct (Z.ltb_spec 0 (d - clk w2)).
    + destruct (IH w3) as (w' & rc & r1 & r2 & -> & H1 & H2 & H3); [lia|lia|].
      exists w', rc, r1, r2. split; [done|]. split; [done|]. split; [lia|done].
    + eexists _, _, _, _. split; [done|]. split; [lia|]. split; [lia|]. split; [lia|done].
  - pose proof (select_flags _ _ _ _ _ _ _ _ _ E). exists w2, rc, (rd && r1), (wr && r2).
    split; [done|]. split; [done|]. split; [lia|]. split; [lia|]. by destruct rd, wr.
Qed.

(** Without a bound on its timeout a wait still ends. *)
Lemma select_loop_total fuel w fd rd wr t d : (signals w < fuel)%nat → fd_set_ok fd rd wr = true →
  ∃ w' rc r1 r2, select_loop fuel w fd rd wr t d = Ok (w', rc, r1, r2) ∧ (r1 = true → rd = true) ∧ (r2 = true → wr = true).
Proof.
  intros Hf Hfd. revert w Hf. induction fuel as [|fuel IH]; intros w Hf; [lia|].
  cbn [select_loop]. rewrite Hfd. cbn [negb].
  assert (∃ w1 tv, (if 0 <=? t then let '(w, rem) := remaining w d in (w, Some (rem / 1000, (rem mod 1000) * 1000))
    else (w, None)) = (w1, tv) ∧ (signals w1 ≤ signals w)%nat) as (w1 & tv & -> & Hs1).
  { destruct (0 <=? t); [|by exists w, None]. destruct (remaining_spec w d) as (w1 & -> & _ & ?). by eexists _, _. }
  destruct (sys_select w1 fd rd wr tv) as [w2 r] eqn:E. pose proof (select_signals _ _ _ _ _ _ _ E) as [Hs2 Hi2].
  destruct r as [e|[[rc r1] r2]]; [|exists w2, rc, (rd && r1), (wr && r2); by destruct rd, wr].
  destruct e; try (by eexists _, _, _, _). specialize (Hi2 eq_refl).
  destruct (t <? 0); [apply IH; lia|]. destruct (now_spec w2) as (w3 & -> & Hc3 & Hs3).
  destruct (0 <? d - clk w2); [apply IH; lia|by eexists _, _, _, _].
Qed.

Lemma select_total w fd rd wr t : fd_set_ok fd rd wr = true →
  ∃ w' rc r1 r2, zcio_select_eintr w fd rd wr t = Ok (w', rc, r1, r2) ∧ (r1 = true → rd = true) ∧ (r2 = true → wr = true).
Proof.
  intros Hfd. unfold zcio_select_eintr, deadline_of. destruct (0 <=? t).
  - destruct (now_spec w) as (w1 & -> & _). apply select_loop_total; [lia|done].
  - apply select_loop_total; [lia|done].
Qed.

Lemma fd_in_set fd rd wr : 0 ≤ fd < FD_SETSIZE → fd_set_ok fd rd wr = true.
Proof. intros. unfold fd_set_ok. rewrite (proj2 (Z.leb_le _ _)), (proj2 (Z.ltb_lt _ _)) by lia. apply orb_true_r. Qed.

Lemma select_spec w fd rd wr t : 0 ≤ fd < FD_SETSIZE → 0 ≤ t →
  ∃ w' rc r1 r2, zcio_select_eintr w fd rd wr t = Ok (w', rc, r1, r2) ∧
    clk w' ≤ clk w + t + late ∧ (r1 = true → rd = true) ∧ (r2 = true → wr = true) ∧ -1 ≤ rc.
Proof.
  intros Hfd Ht. destruct (deadline_spec w t Ht) as (w1 & Hd & Hc & Hs).
  unfold zcio_select_eintr. rewrite Hd.
  destruct (select_loop_spec (S (signals w1)) w1 fd rd wr t (clk w + t))
    as (w' & rc & r1 & r2 & -> & H1 & _ & H2 & H3 & H4); [lia|by apply fd_in_set|lia|lia|].
  by exists w', rc, r1, r2.
Qed.

Lemma poll_loop_spec fuel w fds t d : (signals w < fuel)%nat → 0 ≤ t < 2 ^ 31 → clk w ≤ d ≤ clk w + t →
  ∃ w' rc rev, poll_loop fuel w fds t d = Ok (w', rc, rev) ∧ clk w' ≤ d + late.
Proof.
  intros Hf Ht Hd. assert (∃ w0, clk w0 ≤ clk w ∧ d ≤ clk w0 + t) as (w0 & H0 & Hd0) by (exists w; lia).
  destruct Hd as [Hd _]. revert w Hf Hd H0. induction fuel as [|fuel IH]; intros w Hf Hd H0; [lia|].
  cbn [poll_loop]. rewrite (proj2 (Z.leb_le _ _)) by lia. rewrite (proj2 (Z.ltb_ge t 0)) by lia.
  destruct (remaining_spec w d) as (w1 & -> & Hc1 & Hs1).
  pose proof (late_nonneg (W := W) (clk := clk)) as Hlate.
  rewrite i32_small by lia. destruct (sys_poll w1 fds _) as [w2 r] eqn:E.
  pose proof (poll_time _ _ _ _ _ (Z.le_max_l 0 _) E) as Ht2. pose proof (poll_signals _ _ _ _ _ E) as [Hs2 Hi2].
  destruct r as [e|[rc rev]]; [|eexists _, _, _; split; [done|]; lia].
  destruct e; try (eexists _, _, _; split; [done|]; lia).
  specialize (Hi2 eq_refl). destruct (now_spec w2) as (w3 & -> & Hc3 & Hs3).
  destruct (Z.ltb_spec 0 (d - clk w2)); [|eexists _, _, _; split; [done|]; lia].
  apply IH; [lia|lia|]. lia.
Qed.
End Waits.

(** What the transfers rely on: a call moves at most what it was asked to, and
    never more than the kernel's cap for one call. *)
Definition MAX_RW_COUNT : Z := 2147479552.

Class SysIo (W : Type) `{!Sys W} := {
  recv_fits : ∀ w fd n w' d, 0 ≤ n → sys_recv w fd n = (w', Done d) → zlen d ≤ Z.min n MAX_RW_COUNT ∧ is_bytes d;
  recv_signals : ∀ w fd n w' r, sys_recv w fd n = (w', r) → interrupted r = true → (signals w' < signals w)%nat;
  send_fits : ∀ w fd p w' n, sys_send w fd p = (w', Done n) → 0 ≤ n ≤ Z.min (zlen p) MAX_RW_COUNT;
  send_signals : ∀ w fd p w' r, sys_send w fd p = (w', r) → interrupted r = true → (signals w' < signals w)%nat;
  accept_signals : ∀ w fd w' r, sys_accept w fd = (w', r) → interrupted r = true → (signals w' < signals w)%nat;
  accept_fd : ∀ w fd w' c, sys_accept w fd = (w', Done c) → 0 ≤ c;
  recvfrom_fits : ∀ w fd n w' d a, 0 ≤ n → sys_recvfrom w fd n = (w', Done (d, a)) → zlen d ≤ Z.min n MAX_RW_COUNT ∧ is_bytes d;
  recvfrom_signals : ∀ w fd n w' r, sys_recvfrom w fd n = (w', r) → interrupted r = true → (signals w' < signals w)%nat;
}.

(** The length [recv] is given for a request of [n] bytes: [(int)n], which the
    call takes as a [size_t] again. *)
Definition int_len (n : Z) : Z := u64 (i32 n).

Lemma int_len_fits n : 0 ≤ n → Z.min (int_len n) MAX_RW_COUNT ≤ n.
Proof.
  intros Hn. unfold int_len, i32, wrap, MAX_RW_COUNT.
  destruct (Z.ltb_spec n (2 ^ 31)); [|lia].
  rewrite (Z.mod_small (n + 2 ^ 31)), (Z.mod_small (n + 2 ^ 31 - 2 ^ 31)) by lia. lia.
Qed.

Lemma int_len_small n : 0 ≤ n < 2 ^ 31 → int_len n = n.
Proof. intros. unfold int_len. rewrite i32_small, wrap_small; lia. Qed.

(** ** An operating system for the examples

    Signals come first, one per call, and a wait takes a millisecond to be
    interrupted; then every call succeeds with the next of the scripted answers.
    A new descriptor is larger than every open one. *)
Record ex_os := mk_os {
  os_now : Z;
  os_signals : nat;
  os_ready : bool;
  os_rx : list (bytes * sockaddr_in);
  os_tx : list bytes;
  os_accepts : nat;
  os_open : list Z;
  os_hosts : list addrinfo;
}.

(** A call in the script's world: interrupted while signals remain. *)
Definition os_call {A} (ms : Z) (w : ex_os) (f : ex_os → ex_os * sysret A) : ex_os * sysret A :=
  match os_signals w with
  | O => f w
  | S k => (mk_os (os_now w + ms) k (os_ready w) (os_rx w) (os_tx w) (os_accepts w) (os_open w) (os_hosts w), Failed EINTR)
  end.

Definition os_wait (w : ex_os) (ms : Z) : ex_os :=
  mk_os (os_now w + ms) (os_signals w) (os_ready w) (os_rx w) (os_tx w) (os_accepts w) (os_open w) (os_hosts w).

Definition os_next (w : ex_os) (n : Z) : ex_os * sysret (bytes * sockaddr_in) :=
  os_call 0 w (λ w, match os_rx w with
    | [] => (w, Failed EAGAIN)
    | (d, a) :: rest =>
        (mk_os (os_now w) (os_signals w) (os_ready w) rest (os_tx w) (os_accepts w) (os_open w) (os_hosts w),
         Done (ztake (Z.min n MAX_RW_COUNT) (map u8 d), a))
    end).

Definition os_put (w : ex_os) (p : bytes) : ex_os * sysret Z :=
  os_call 0 w (λ w,
    (mk_os (os_now w) (os_signals w) (os_ready w) (os_rx w) (os_tx w ++ [p]) (os_accepts w) (os_open w) (os_hosts w),
     Done (Z.min (zlen p) MAX_RW_COUNT))).

Definition os_block (w : ex_os) (tv : option (Z * Z)) : ex_os * sysret (Z * bool * bool) :=
  os_call 1 w (λ w, if os_ready w then (w, Done (1, true, true))
    else (os_wait w match tv with Some (s, us) => Z.max 0 (s * 1000 + us / 1000) | None => 0 end, Done (0, false, false))).

Definition os_fresh (w : ex_os) : Z := fold_right Z.max 2 (os_open w) + 1.

(** At most [FD_SETSIZE] descriptors, as with the usual limit of a process. *)
Definition os_socket (w : ex_os) : ex_os * sysret Z :=
  if os_fresh w <? FD_SETSIZE then
    (mk_os (os_now w) (os_signals w) (os_ready w) (os_rx w) (os_tx w) (os_accepts w) (os_fresh w :: os_open w) (os_hosts w),
     Done (os_fresh w))
  else (w, Failed EOTHER).

(** An IPv4 answer of the resolver. *)
Definition ai_v4 (p : addrinfo) : bool :=
  match ai_addr p with SIN a => (0 <=? sin_addr a) && (sin_addr a <? 2 ^ 32) | SOTHER _ => false end.

#[export] Instance ex_sys : Sys ex_os := {|
  clock_gettime w := (w, (Z.max 0 (Z.min (os_now w) 4611686018427387903) / 1000, (Z.max 0 (Z.min (os_now w) 4611686018427387903) mod 1000) * 1000000));
  sys_select w _ _ _ tv := os_block w tv;
  sys_poll w fds t := os_call 1 w (λ w, if os_ready w then (w, Done (zlen fds, map snd fds)) else (os_wait w (Z.max 0 t), Done (0, map (λ _, 0) fds)));
  fcntl_getfl w _ := (w, Done 2);
  fcntl_setfl w _ _ := (w, Done tt);
  sys_socket w _ _ _ := os_socket w;
  sys_connect w _ _ := (w, Done tt);
  sys_bind w _ _ := (w, Done tt);
  sys_listen w _ _ := (w, Done tt);
  sys_accept w _ := os_call 0 w (λ w, match os_accepts w with
    | O => (w, Failed EAGAIN)
    | S k => os_socket (mk_os (os_now w) (os_signals w) (os_ready w) (os_rx w) (os_tx w) k (os_open w) (os_hosts w))
    end);
  sys_setsockopt w _ _ := (w, Done tt);
  so_error w _ := (w, 0);
  sys_getsockname w _ := (w, Done (mk_sin 3232235777 0));
  sys_recv w _ n := let '(w, r) := os_next w n in (w, match r with Failed e => Failed e | Done (d, _) => Done d end);
  sys_send w _ p := os_put w p;
  sys_recvfrom w _ n := os_next w n;
  sys_sendto w _ p _ := os_put w p;
  fionread w _ := Done match os_rx w with [] => 0 | (d, _) :: _ => zlen d end;
  sys_shutdown w _ := w;
  closesocket w fd := mk_os (os_now w) (os_signals w) (os_ready w) (os_rx w) (os_tx w) (os_accepts w) (List.filter (λ x, negb (x =? fd)) (os_open w)) (os_hosts w);
  getaddrinfo w _ _ f _ := (w, match List.filter (λ p, negb (f =? AF_INET) || ai_v4 p) (os_hosts w) with [] => inl (-2) | l => inr l end);
  inet_ntop6 a := match a with SOTHER b => Some b | SIN _ => None end;
  signals w := os_signals w;
|}.

(** The clock of the script stays in range. *)
Definition os_clk (w : ex_os) : Z := Z.max 0 (Z.min (os_now w) 4611686018427387903).

Lemma os_call_signals {A} ms w (f : ex_os → ex_os * sysret A) w' r : os_call ms w f = (w', r) →
  (∀ v v' s, f v = (v', s) → os_signals v' = os_signals v ∧ interrupted s = false) →
  (signals w' ≤ signals w)%nat ∧ (interrupted r = true → signals w' < signals w)%nat.
Proof.
  intros H Hf. unfold os_call in H. cbn. destruct (os_signals w) as [|k] eqn:E.
  - apply Hf in H as [-> ->]. rewrite E. done.
  - injection H as <- <-. cbn. lia.
Qed.

(** Time passes only inside the call, and no longer than the timeout. *)
Lemma os_call_time {A} w (f : ex_os → ex_os * sysret A) t w' r : 0 ≤ t → os_call 1 w f = (w', r) →
  (∀ v v' s, f v = (v', s) → os_now v ≤ os_now v' ≤ os_now v + t) →
  os_clk w ≤ os_clk w' ≤ os_clk w + t + 1.
Proof.
  intros Ht H Hf. unfold os_call in H. destruct (os_signals w) as [|k] eqn:E.
  - apply Hf in H. unfold os_clk. lia.
  - injection H as <- <-. unfold os_clk. cbn. lia.
Qed.

#[export] Instance ex_time : SysTime ex_os os_clk 1.
Proof.
  split.
  - lia.
  - intros w. split; [done|]. cbn. lia.
  - intros w. cbn. unfold os_clk. rewrite Z.div_mul by lia. pose proof (Z.div_mod (Z.max 0 (Z.min (os_now w) 4611686018427387903)) 1000). lia.
  - intros w. unfold os_clk. lia.
  - intros w fd rd wr s us w' r Hs Hus H. cbn in H. unfold os_block in H.
    pose proof (Z.div_pos us 1000 Hus). replace (Z.max 0 _) with (s * 1000 + us / 1000) in H by lia.
    apply (os_call_time _ _ (s * 1000 + us / 1000)) in H; [lia|lia|].
    intros v v' x Hv. destruct (os_ready v); injection Hv as <- <-; cbn; lia.
  - intros w fd rd wr tv w' r H. cbn in H. apply os_call_signals in H; [done|].
    intros v v' x Hv. destruct (os_ready v); by injection Hv as <- <-.
  - intros w fd rd wr tv w' rc r1 r2 H. cbn in H. unfold os_block, os_call in H.
    destruct (os_signals w); [|done]. destruct (os_ready w); injection H; lia.
  - intros w fds t w' r Ht H. cbn in H. apply (os_call_time _ _ t) in H; [done..|].
    intros v v' x Hv. destruct (os_ready v); injection Hv as <- <-; cbn; lia.
  - intros w fds t w' r H. cbn in H. apply os_call_signals in H; [done|].
    intros v v' x Hv. destruct (os_ready v); by injection Hv as <- <-.
Qed.

Lemma os_next_fits w n w' d a : os_next w n = (w', Done (d, a)) → zlen d ≤ Z.max 0 (Z.min n MAX_RW_COUNT) ∧ is_bytes d.
Proof.
  unfold os_next, os_call. destruct (os_signals w); [|done]. destruct (os_rx w) as [|[x y] rest]; [done|].
  intros [= _ <- <-]. rewrite length_take, length_map. split; [lia|].
  apply Forall_take, Forall_forall. intros b Hb%list_elem_of_fmap. destruct Hb as (z & -> & _). apply u8_byte.
Qed.

Lemma os_next_signals w n w' r : os_next w n = (w', r) → interrupted r = true → (os_signals w' < os_signals w)%nat.
Proof.
  intros H Hi. apply os_call_signals in H; [by apply H|].
  intros v v' x. destruct (os_rx v) as [|[y z] rest]; by intros [= <- <-].
Qed.

Lemma os_put_signals w p w' r : os_put w p = (w', r) → interrupted r = true → (os_signals w' < os_signals w)%nat.
Proof. intros H Hi. apply os_call_signals in H; [by apply H|]. by intros v v' x [= <- <-]. Qed.

Lemma os_fresh_pos l : 2 ≤ fold_right Z.max 2 l.
Proof. induction l; cbn; lia. Qed.

#[export] Instance ex_io : SysIo ex_os.
Proof.
  split.
  - intros w fd n w' d Hn H. cbn in H. destruct (os_next w n) as [v [e|[x y]]] eqn:E; [done|].
    injection H as <- <-. apply os_next_fits in E as [? ?]. split; [unfold MAX_RW_COUNT in *; lia|done].
  - intros w fd n w' r H Hi. cbn in H. destruct (os_next w n) as [v x] eqn:E. injection H as <- <-.
    apply (os_next_signals w n v x E). destruct x as [e|[? ?]]; [by destruct e|done].
  - intros w fd p w' n H. cbn in H. unfold os_put, os_call in H. destruct (os_signals w); [|done].
    injection H as _ <-. unfold MAX_RW_COUNT. lia.
  - intros w fd p w' r H Hi. by apply (os_put_signals w p w' r).
  - intros w fd w' r H Hi. cbn in H. apply os_call_signals in H; [by apply H|].
    intros v v' x. destruct (os_accepts v); [by intros [= <- <-]|]. unfold os_socket. destruct (_ <? _); by intros [= <- <-].
  - intros w fd w' c H. cbn in H. unfold os_call in H. destruct (os_signals w); [|done].
    destruct (os_accepts w); [done|]. unfold os_socket in H. destruct (_ <? _); [|done]. injection H as _ <-.
    unfold os_fresh. cbn. pose proof (os_fresh_pos (os_open w)). lia.
  - intros w fd n w' d a Hn H. cbn in H. apply os_next_fits in H as [? ?]. split; [unfold MAX_RW_COUNT in *; lia|done].
  - intros w fd n w' r H Hi. by apply (os_next_signals w n w' r).
Qed.

(** ** Properties *)

(** C26: Whatever signals arrive, [zcio_select_eintr] and [zcio_poll_] return
    no later than the deadline their caller set, give or take the delay of one
    system call: the retries do not add up. *)
Theorem waits_meet_deadline `{Hw : !Sys W} clk late (Ht : SysTime W clk late) w fd rd wr fds timeout_ms
  (Hfd : 0 ≤ fd < FD_SETSIZE) (Htm : 0 ≤ timeout_ms < 2 ^ 31) :
  (∃ w' rc r1 r2, zcio_select_eintr w fd rd wr timeout_ms = Ok (w', rc, r1, r2) ∧
     clk w' ≤ clk w + timeout_ms + late ∧ -1 ≤ rc ∧ (r1 = true → rd = true) ∧ (r2 = true → wr = true)) ∧
  (∃ w' rc rev, zcio_poll_ w fds timeout_ms = Ok (w', rc, rev) ∧ clk w' ≤ clk w + timeout_ms + late).
Proof.
  split.
  - destruct (select_spec (clk := clk) (late := late) w fd rd wr timeout_ms)
      as (w' & rc & r1 & r2 & E & H1 & H2 & H3 & H4); [done|lia|]. by exists w', rc, r1, r2.
  - destruct (deadline_spec (clk := clk) (late := late) w timeout_ms) as (w1 & Hd & Hc & Hs); [lia|].
    unfold zcio_poll_. rewrite Hd.
    destruct (poll_loop_spec (clk := clk) (late := late) (S (signals w1)) w1 fds timeout_ms (clk w + timeout_ms))
      as (w' & rc & rev & -> & H1); [lia..|]. by exists w', rc, rev.
Qed.

(** A hundred signals during a wait of 50 ms on a silent socket. *)
Lemma waits_meet_deadline_witness :
  let w := mk_os 1000 100 false [] [] 0 [] [] in
  (∃ w' rc r1 r2, zcio_select_eintr w 5 true false 50 = Ok (w', rc, r1, r2) ∧
     os_clk w' ≤ os_clk w + 50 + 1 ∧ -1 ≤ rc ∧ (r1 = true → true = true) ∧ (r2 = true → false = true)) ∧
  (∃ w' rc rev, zcio_poll_ w [(5, 1)] 50 = Ok (w', rc, rev) ∧ os_clk w' ≤ os_clk w + 50 + 1).
Proof.
  intros w. apply (waits_meet_deadline os_clk 1 ex_time w 5 true false [(5, 1)] 50); unfold FD_SETSIZE; lia.
Defined.

(** A descriptor beyond [FD_SETSIZE] is written outside the [fd_set]. *)
Example select_beyond_fd_setsize :
  zcio_select_eintr (mk_os 0 0 true [] [] 0 [] []) 1024 true false 50 = Fault.
Proof. reflexivity. Qed.
