(* ===== verification/Dns.v ===== *)
(** * Dns: names and IPv4 addresses ([src/dns.c])

    Addresses are numbers below [2 ^ 32], as the four octets read in network
    order.  [inet_pton4] and [inet_ntop4] are the C library's conversions for
    [AF_INET]; the resolver itself is an operation of [Sock.Sys]. *)
From stdpp Require Import base tactics list option strings.
From Stdlib Require Import ZArith Lia.
From S2P Require Import Prelude Types HttpUtil Sock.

Definition DOT : Z := 46.
Definition is_digit (c : Z) : bool := (48 <=? c) && (c <=? 57).

(** ** [zcio_is_ipv4] *)

Fixpoint ipv4_loop (s : bytes) (seg seg_len seg_val : Z) : bool :=
  match s with
  | [] => if negb (seg =? 3) then false else negb ((seg_len =? 0) || (255 <? seg_val))
  | ch :: s =>
      if is_digit ch then
        if 3 <? seg_len + 1 then false else ipv4_loop s seg (seg_len + 1) (seg_val * 10 + (ch - 48))
      else if ch =? DOT then
        if 3 <=? seg then false
        else if seg_len =? 0 then false
        else if 255 <? seg_val then false
        else ipv4_loop s (seg + 1) 0 0
      else false
  end.

Definition zcio_is_ipv4 (s : option bytes) : bool :=
  match s with
  | None | Some [] => false
  | Some s => ipv4_loop s 0 0 0
  end.

(** ** The C library's conversions *)

(** [octets] are those already closed by a dot. *)
Fixpoint pton_loop (s : bytes) (octets : list Z) (cur : option Z) : option (list Z) :=
  match s with
  | [] => match cur with Some v => if zlen octets =? 3 then Some (octets ++ [v]) else None | None => None end
  | ch :: s =>
      if is_digit ch then
        match cur with
        | Some v => if (v =? 0) || (255 <? v * 10 + (ch - 48)) then None
                    else pton_loop s octets (Some (v * 10 + (ch - 48)))
        | None => pton_loop s octets (Some (ch - 48))
        end
      else if ch =? DOT then
        match cur with
        | Some v => if zlen octets =? 3 then None else pton_loop s (octets ++ [v]) None
        | None => None
        end
      else None
  end.

Definition octets_value (o : list Z) : Z := fold_left (λ v x, v * 256 + x) o 0.

Definition inet_pton4 (s : bytes) : option Z :=
  match pton_loop s [] None with Some o => Some (octets_value o) | None => None end.

Definition inet_ntop4 (a : Z) : bytes :=
  dec ((a / 16777216) mod 256) ++ [DOT] ++ dec ((a / 65536) mod 256) ++ [DOT] ++
  dec ((a / 256) mod 256) ++ [DOT] ++ dec (a mod 256).

(** ** Resolving *)

Section Resolve.
Context {W : Type} `{!Sys W} `{Allocator}.

(** The address of a candidate, read as the family that was asked for. *)
Definition candidate_str (family : Z) (p : addrinfo) : exec (option bytes) :=
  match ai_addr p with
  | SIN a => if family =? AF_INET then Ok (Some (inet_ntop4 (sin_addr a))) else Fault
  | SOTHER b => if family =? AF_INET then Fault else Ok (inet_ntop6 (ai_addr p))
  end.

(** The strings stored so far are [vec]; [None]: out of memory. *)
Fixpoint candidates (family : Z) (l : list addrinfo) (vec : list bytes) : exec (option (list bytes)) :=
  match l with
  | [] => Ok (Some vec)
  | p :: l =>
      conv ← candidate_str family p;
      match conv with
      | None => candidates family l vec
      | Some str =>
          match zcio_strdup_ (Some str) with
          | None => Ok None
          | Some dup => candidates family l (vec ++ [dup])
          end
      end
  end.

Definition dns_query_family (w : W) (family : Z) (host : option bytes) : exec (W * option (list bytes)) :=
  match host with
  | None => Ok (w, None)
  | Some host =>
      let w := zcio_socket_startup w in
      match getaddrinfo w host None family SOCK_STREAM with
      | (w, inl _) | (w, inr []) => Ok (w, None)
      | (w, inr result) =>
          if negb (zcio_xcalloc_ok (zlen result + 1) 8) then Ok (w, None)
          else v ← candidates family result []; Ok (w, v)
      end
  end.

Definition zcio_dns_query_a (w : W) (host : option bytes) : exec (W * option (list bytes)) :=
  dns_query_family w AF_INET host.

Definition zcio_dns_query_aaaa (w : W) (host : option bytes) : exec (W * option (list bytes)) :=
  dns_query_family w AF_INET6 host.

Definition zcio_resolve_ipv4 (w : W) (host : option bytes) : exec (W * option bytes) :=
  match host with
  | None => Ok (w, None)
  | Some h =>
      if zcio_is_ipv4 host then Ok (w, zcio_strdup_ host)
      else
        '(w, ips) ← zcio_dns_query_a w host;
        match ips with
        | None | Some [] => Ok (w, None)
        | Some (ip :: _) => Ok (w, zcio_strdup_ (Some ip))
        end
  end.

Definition zcio_local_ipv4 (w : W) : W * option bytes :=
  let w := zcio_socket_startup w in
  match sys_socket w AF_INET SOCK_DGRAM 0 with
  | (w, Failed _) => (w, None)
  | (w, Done fd) =>
      match sys_connect w fd (SIN (mk_sin 134744072 53)) with
      | (w, Failed _) => (closesocket w fd, None)
      | (w, Done _) =>
          match sys_getsockname w fd with
          | (w, Failed _) => (closesocket w fd, None)
          | (w, Done local) => (closesocket w fd, zcio_strdup_ (Some (inet_ntop4 (sin_addr local))))
          end
      end
  end.

End Resolve.

(** ** Dotted quads *)

(** One to three digits of a value that fits a byte. *)
Definition octet_str (p : bytes) : Prop :=
  (1 ≤ length p ≤ 3)%nat ∧ forallb is_digit p = true ∧ dec_val p ≤ 255.

Fixpoint dots (ps : list bytes) : bytes :=
  match ps with [] => [] | [p] => p | p :: ps => p ++ DOT :: dots ps end.

Lemma dots_cons p ps : ps ≠ [] → dots (p :: ps) = p ++ DOT :: dots ps.
Proof. by destruct ps. Qed.

Lemma dec_val_snoc p c : dec_val (p ++ [c]) = dec_val p * 10 + (c - 48).
Proof. unfold dec_val. by rewrite fold_left_app. Qed.

Lemma dot_not_digit : is_digit DOT = false.
Proof. done. Qed.

Lemma digits_snoc p c : forallb is_digit p = true → is_digit c = true → forallb is_digit (p ++ [c]) = true.
Proof. intros Hp Hc. rewrite forallb_app, Hp. cbn. by rewrite Hc. Qed.

(** What the first part of a dotted list can be, read from its front. *)
Lemma dots_front cur s p ps : forallb is_digit cur = true → forallb is_digit p = true →
  cur ++ s = dots (p :: ps) →
  match s with
  | [] => cur = p ∧ ps = []
  | c :: s' => (is_digit c = true ∧ (length cur < length p)%nat) ∨ (c = DOT ∧ cur = p ∧ ps ≠ [] ∧ s' = dots ps)
  end.
Proof.
  revert p. induction cur as [|x cur IH]; intros p Hc Hp E.
  - destruct p as [|y p]; cbn in E.
    + destruct ps as [|q ps]; cbn in E; [by subst|]. subst s. right. done.
    + destruct s as [|c s]; [by destruct ps|]. assert (c = y) as -> by (destruct ps; by injection E).
      left. cbn in Hp. btest. split; [done|cbn; lia].
  - cbn in Hc. apply andb_prop in Hc as [Hx Hc]. destruct p as [|y p].
    + destruct ps as [|q ps]; [done|]. cbn in E. injection E as -> _. rewrite dot_not_digit in Hx. done.
    + assert (x = y ∧ cur ++ s = dots (p :: ps)) as [<- E'] by (destruct ps; injection E as -> E; by split).
      cbn in Hp. apply andb_prop in Hp as [_ Hp]. specialize (IH p Hc Hp E'). destruct s as [|c s].
      * destruct IH as [-> ->]. done.
      * destruct IH as [[? ?]|(-> & -> & ? & ?)]; [left; split; [done|cbn; lia]|by right].
Qed.

Lemma ipv4_loop_iff s seg cur : forallb is_digit cur = true → (length cur ≤ 3)%nat → 0 ≤ seg ≤ 3 →
  ipv4_loop s seg (zlen cur) (dec_val cur) = true ↔
  ∃ ps, zlen ps = 4 - seg ∧ Forall octet_str ps ∧ cur ++ s = dots ps.
Proof.
  revert seg cur. induction s as [|c s IH]; intros seg cur Hc Hl Hs; cbn [ipv4_loop].
  - split.
    + destruct (Z.eqb_spec seg 3) as [->|]; cbn [negb]; [|done]. intros E. btest. exists [cur].
      split; [done|]. split; [|cbn; by rewrite app_nil_r]. constructor; [|done]. split; [lia|]. split; [done|lia].
    + intros (ps & Hn & Hf & E). destruct ps as [|p ps]; [cbn in Hn; lia|].
      apply Forall_cons_1 in Hf as [(Hp1 & Hp2 & Hp3) Hf]. apply (dots_front cur [] p ps Hc Hp2) in E as [-> ->].
      replace seg with 3 by (cbn in Hn; lia). cbn [negb Z.eqb Pos.eqb].
      apply negb_true_iff, orb_false_iff. split; [apply Z.eqb_neq; lia|apply Z.ltb_ge; lia].
  - destruct (is_digit c) eqn:Ec; [|destruct (Z.eqb_spec c DOT) as [->|Hne]].
    + destruct (Z.ltb_spec 3 (zlen cur + 1)).
      * split; [done|]. intros (ps & Hn & Hf & E). destruct ps as [|p ps]; [cbn in Hn; lia|].
        apply Forall_cons_1 in Hf as [(Hp1 & Hp2 & Hp3) Hf]. apply (dots_front cur (c :: s) p ps Hc Hp2) in E as [[_ ?]|[-> _]]; [lia|].
        by rewrite dot_not_digit in Ec.
      * rewrite <- dec_val_snoc. replace (zlen cur + 1) with (zlen (cur ++ [c])) by zl.
        rewrite IH; [|by apply digits_snoc|zl|done]. by rewrite <- app_assoc.
    + split.
      * destruct (Z.leb_spec 3 seg); [done|]. destruct (Z.eqb_spec (zlen cur) 0); [done|].
        destruct (Z.ltb_spec 255 (dec_val cur)); [done|]. intros E. apply (IH (seg + 1) []) in E; [|done|cbn; lia|lia].
        destruct E as (ps & Hn & Hf & E). exists (cur :: ps). split; [cbn [length]; lia|].
        split; [constructor; [split; [lia|split; [done|lia]]|done]|].
        rewrite dots_cons by (intros ->; cbn in Hn; lia). cbn in E. by rewrite E.
      * intros (ps & Hn & Hf & E). destruct ps as [|p ps]; [cbn in Hn; lia|].
        apply Forall_cons_1 in Hf as [(Hp1 & Hp2 & Hp3) Hf].
        apply (dots_front cur (DOT :: s) p ps Hc Hp2) in E as [[? _]|(_ & -> & Hps & ->)]; [by rewrite dot_not_digit in *|].
        cbn [length] in Hn. destruct ps as [|q ps]; [done|]. cbn [length] in Hn.
        rewrite (proj2 (Z.leb_gt _ _)), (proj2 (Z.eqb_neq _ _)), (proj2 (Z.ltb_ge _ _)) by lia.
        apply (IH (seg + 1) []); [done|cbn; lia|lia|]. exists (q :: ps). split; [cbn [length]; lia|done].
    + split; [done|]. intros (ps & Hn & Hf & E). destruct ps as [|p ps]; [cbn in Hn; lia|].
      apply Forall_cons_1 in Hf as [(Hp1 & Hp2 & Hp3) Hf].
      apply (dots_front cur (c :: s) p ps Hc Hp2) in E as [[? _]|[? _]]; congruence.
Qed.

Lemma is_ipv4_iff s : zcio_is_ipv4 (Some s) = true ↔
  ∃ ps, length ps = 4%nat ∧ Forall octet_str ps ∧ s = dots ps.
Proof.
  destruct s as [|c s].
  - split; [done|]. intros (ps & Hn & Hf & E). destruct ps as [|p [|q ps]]; [done|done|].
    cbn in E. by destruct p.
  - unfold zcio_is_ipv4. change 0 with (zlen (@nil Z)) at 2. change 0 with (dec_val []) at 2.
    rewrite ipv4_loop_iff; [|done|cbn; lia|lia]. cbn [app].
    split; intros (ps & Hn & Hf); exists ps; (split; [lia|done]).
Qed.

(** ** The octets of an address *)

(** [dec] of a byte: no leading zero. *)
Definition dec_shape (b : Z) : bool :=
  match dec b with
  | [x] => (x =? 48 + b) && is_digit x
  | [x; y] => is_digit x && is_digit y && (49 <=? x) && ((x - 48) * 10 + (y - 48) =? b)
  | [x; y; z] => is_digit x && is_digit y && is_digit z && (49 <=? x) && (((x - 48) * 10 + (y - 48)) * 10 + (z - 48) =? b)
  | _ => false
  end.

Lemma dec_shape_ok b : 0 ≤ b < 256 → dec_shape b = true.
Proof. intros Hb. apply (range_forall dec_shape 256); [vm_compute; reflexivity|lia]. Qed.

Lemma dec_octet b : 0 ≤ b < 256 → octet_str (dec b).
Proof.
  intros Hb. pose proof (dec_shape_ok b Hb) as Hd. unfold dec_shape in Hd. unfold octet_str.
  destruct (dec b) as [|x [|y [|z [|? ?]]]]; try done; unfold dec_val; cbn; btest.
  - split; [lia|]. split; [by rewrite H0|lia].
  - split; [lia|]. split; [by rewrite H, H2|lia].
  - split; [lia|]. split; [by rewrite H, H3, H2|lia].
Qed.

Lemma pton_octet b s o : 0 ≤ b < 256 →
  pton_loop (dec b ++ s) o None = pton_loop s o (Some b).
Proof.
  intros Hb. pose proof (dec_shape_ok b Hb) as Hd. unfold dec_shape in Hd.
  destruct (dec b) as [|x [|y [|z [|? ?]]]]; try done; cbn [app pton_loop]; btest.
  - rewrite H0. do 2 f_equal. lia.
  - rewrite H, H2. rewrite (proj2 (Z.eqb_neq _ _)), (proj2 (Z.ltb_ge _ _)) by lia. cbn [orb]. do 2 f_equal. lia.
  - rewrite H, H3, H2. unfold is_digit in H2, H3. btest.
    rewrite !(proj2 (Z.eqb_neq _ _)), !(proj2 (Z.ltb_ge _ _)) by lia. cbn [orb]. do 2 f_equal. lia.
Qed.

Lemma pton_dot s o v : zlen o ≠ 3 → pton_loop (DOT :: s) o (Some v) = pton_loop s (o ++ [v]) None.
Proof. intros Ho. cbn [pton_loop]. rewrite dot_not_digit, Z.eqb_refl. by rewrite (proj2 (Z.eqb_neq (zlen o) 3)). Qed.

Lemma octets_of a : 0 ≤ a < 2 ^ 32 →
  octets_value [(a / 16777216) mod 256; (a / 65536) mod 256; (a / 256) mod 256; a mod 256] = a.
Proof. intros Ha. unfold octets_value. cbn [fold_left]. dlia. Qed.

Lemma ntop_dots a : inet_ntop4 a =
  dots [dec ((a / 16777216) mod 256); dec ((a / 65536) mod 256); dec ((a / 256) mod 256); dec (a mod 256)].
Proof. reflexivity. Qed.

Lemma byte_mod a : 0 ≤ a mod 256 < 256.
Proof. apply Z.mod_pos_bound. lia. Qed.

Lemma pton_ntop a : 0 ≤ a < 2 ^ 32 → inet_pton4 (inet_ntop4 a) = Some a.
Proof.
  intros Ha. unfold inet_pton4, inet_ntop4. cbn [app].
  rewrite pton_octet, pton_dot by (apply byte_mod || done).
  rewrite pton_octet, pton_dot by (apply byte_mod || done).
  rewrite pton_octet, pton_dot by (apply byte_mod || done).
  rewrite <- (app_nil_r (dec (a mod 256))), pton_octet by apply byte_mod. cbn [pton_loop].
  transitivity (Some (octets_value [(a / 16777216) mod 256; (a / 65536) mod 256; (a / 256) mod 256; a mod 256]));
    [reflexivity|]. by rewrite octets_of.
Qed.

Lemma ntop_is_ipv4 a : zcio_is_ipv4 (Some (inet_ntop4 a)) = true.
Proof.
  rewrite ntop_dots. apply is_ipv4_iff.
  exists [dec ((a / 16777216) mod 256); dec ((a / 65536) mod 256); dec ((a / 256) mod 256); dec (a mod 256)].
  split; [done|]. split; [|done]. do 4 (apply List.Forall_cons; [apply dec_octet, byte_mod|]). done.
Qed.

(** ** Candidates *)

(** An answer of the resolver for [AF_INET]. *)
Definition ipv4_candidate (p : addrinfo) : Prop :=
  ∃ a, ai_addr p = SIN a ∧ 0 ≤ sin_addr a < 2 ^ 32.

Lemma candidates_ipv4 `{Hs : Sys W} `{Allocator} l vec : Forall ipv4_candidate l →
  candidates AF_INET l vec = Ok None ∨
  ∃ vec', candidates AF_INET l vec = Ok (Some (vec ++ vec')) ∧
    Forall2 (λ p s, ∃ a, ai_addr p = SIN a ∧ s = inet_ntop4 (sin_addr a)) l vec'.
Proof.
  revert vec. induction l as [|p l IH]; intros vec Hf.
  { right. exists []. by rewrite app_nil_r. }
  apply Forall_cons_1 in Hf as [(a & Ha & Hr) Hf]. cbn [candidates]. unfold candidate_str.
  rewrite Ha. cbn [mbind exec_bind Z.eqb AF_INET Pos.eqb]. unfold zcio_strdup_.
  destruct (alloc_ok _); [|by left].
  destruct (IH (vec ++ [inet_ntop4 (sin_addr a)]) Hf) as [->|(v & -> & Hv)]; [by left|].
  right. exists (inet_ntop4 (sin_addr a) :: v). split; [by rewrite <- app_assoc|]. constructor; [by exists a|done].
Qed.

(** The first answer of the resolver, which it gives as IPv4 addresses. *)
Lemma query_a_spec `{Hs : Sys W} `{Allocator} w host :
  Forall ipv4_candidate match (getaddrinfo w host None AF_INET SOCK_STREAM).2 with inr l => l | inl _ => [] end →
  ∃ w' r, zcio_dns_query_a w (Some host) = Ok (w', r) ∧
    ∀ ip ips, r = Some (ip :: ips) → ∃ p l a, (getaddrinfo w host None AF_INET SOCK_STREAM).2 = inr (p :: l) ∧
      ai_addr p = SIN a ∧ 0 ≤ sin_addr a < 2 ^ 32 ∧ ip = inet_ntop4 (sin_addr a).
Proof.
  intros Hg. unfold zcio_dns_query_a, dns_query_family, zcio_socket_startup.
  destruct (getaddrinfo w host None AF_INET SOCK_STREAM) as [w1 [e|l]]; cbn [snd] in *; [by exists w1, None|].
  destruct l as [|p l]; [by exists w1, None|].
  destruct (negb _); [by exists w1, None|].
  destruct (candidates_ipv4 (p :: l) [] Hg) as [->|(v & -> & Hv)]; [by exists w1, None|].
  exists w1, (Some v). split; [done|]. intros ip ips [= ->].
  inversion Hv as [|? ? ? ? (a & Ha & ->)]; subst. apply Forall_cons_1 in Hg as [(a' & Ha' & Hr) _].
  exists p, l, a. split; [done|]. split; [done|]. split; [|done]. congruence.
Qed.

(** ** Properties *)

(** [zcio_is_ipv4] accepts exactly four dot-separated groups of one to
    three digits with values up to 255; whatever [inet_ntop4] writes is one,
    and reads back as the same address. *)
Theorem zcio_is_ipv4_exact :
  (∀ s, zcio_is_ipv4 (Some s) = true ↔ ∃ ps, length ps = 4%nat ∧ Forall octet_str ps ∧ s = dots ps) ∧
  (∀ a, 0 ≤ a < 2 ^ 32 → zcio_is_ipv4 (Some (inet_ntop4 a)) = true ∧ inet_pton4 (inet_ntop4 a) = Some a).
Proof.
  split; [apply is_ipv4_iff|]. intros a Ha. split; [apply ntop_is_ipv4|by apply pton_ntop].
Qed.

(** A literal with a leading zero is passed on as it is, and the connection
    functions' [inet_pton] refuses it. *)
Example leading_zero_literal : zcio_is_ipv4 (Some (B "010.0.0.1")) = true ∧ inet_pton4 (B "010.0.0.1") = None.
Proof. split; reflexivity. Qed.

(** [zcio_resolve_ipv4] answers a literal unchanged, without asking the
    resolver, and a name with the first address the resolver gives; the answer
    is always a dotted quad, and that of a name is the text of that address. *)
Theorem zcio_resolve_ipv4_spec `{Hs : Sys W} `{Ha : Allocator} (w : W) host
  (Hg : Forall ipv4_candidate match (getaddrinfo w host None AF_INET SOCK_STREAM).2 with inr l => l | inl _ => [] end) :
  ∃ w' r, zcio_resolve_ipv4 w (Some host) = Ok (w', r) ∧
    (zcio_is_ipv4 (Some host) = true → w' = w ∧ r = zcio_strdup_ (Some host)) ∧
    (∀ ip, r = Some ip → zcio_is_ipv4 (Some ip) = true ∧
      (zcio_is_ipv4 (Some host) = false →
        ∃ p l a, (getaddrinfo w host None AF_INET SOCK_STREAM).2 = inr (p :: l) ∧ ai_addr p = SIN a ∧
          inet_pton4 ip = Some (sin_addr a))).
Proof.
  unfold zcio_resolve_ipv4. destruct (zcio_is_ipv4 (Some host)) eqn:E.
  - eexists _, _. split; [done|]. split; [done|]. intros ip Hip. split; [|done].
    unfold zcio_strdup_ in Hip. destruct (alloc_ok _); [by injection Hip as <-|done].
  - destruct (query_a_spec w host Hg) as (w1 & r & -> & Hr). cbn [mbind exec_bind].
    destruct r as [[|ip ips]|]; [by eexists _, _|..|by eexists _, _].
    eexists _, _. split; [done|]. split; [done|]. intros ip' Hip. unfold zcio_strdup_ in Hip.
    destruct (alloc_ok _); [injection Hip as <-|done].
    destruct (Hr ip ips eq_refl) as (p & l & a & Hl & Hp & Hrange & ->).
    split; [apply ntop_is_ipv4|]. intros _. exists p, l, a. split; [done|]. split; [done|]. by apply pton_ntop.
Qed.

(** A resolver that knows one host. *)
Lemma zcio_resolve_ipv4_spec_witness :
  let w := mk_os 0 0 true [] [] 0 [] [mk_ai AF_INET SOCK_STREAM 6 (SIN (mk_sin 2130706433 0))] in
  let H := always_alloc in
  ∃ w' r, zcio_resolve_ipv4 w (Some (B "localhost")) = Ok (w', r) ∧
    (zcio_is_ipv4 (Some (B "localhost")) = true → w' = w ∧ r = zcio_strdup_ (Some (B "localhost"))) ∧
    (∀ ip, r = Some ip → zcio_is_ipv4 (Some ip) = true ∧
      (zcio_is_ipv4 (Some (B "localhost")) = false →
        ∃ p l a, (getaddrinfo w (B "localhost") None AF_INET SOCK_STREAM).2 = inr (p :: l) ∧ ai_addr p = SIN a ∧
          inet_pton4 ip = Some (sin_addr a))).
Proof.
  intros w H. apply (zcio_resolve_ipv4_spec w (B "localhost")). constructor; [|constructor].
  eexists. split; [reflexivity|]. cbn. lia.
Defined.
