(* ===== verification/Tls.v ===== *)
(** * Tls: the TLS facade ([src/tls.c]) and the stub backend ([src/tls_none.c])

    A backend is the record of operations of [include/zcio/tls.h], any of which
    may be missing; the registry holds at most one.  A stream is a socket
    stream [P] or a TLS overlay [T] of the backend.  The library's state is
    whether [zcio_init] has run, and the registered backend. *)
From stdpp Require Import base tactics list option strings.
From Stdlib Require Import ZArith Lia.
From S2P Require Import Prelude Types.

Inductive net_stream (P T : Type) := Plain (p : P) | Overlay (t : T).
Arguments Plain {P T} p.
Arguments Overlay {P T} t.

(** [wrap] answers the overlay, or gives the stream back.  A transport is
    returned with the way to put it back into its overlay. *)
Record zcio_tls_backend (W C P T : Type) := mk_backend {
  tb_name : option bytes;
  tb_client_ctx : option (W → option bytes → exec (W * option C));
  tb_server_ctx : option (W → exec (W * option C));
  tb_server_ctx_files : option (W → option bytes → option bytes → exec (W * option C));
  tb_ctx_free : option (W → option C → exec W);
  tb_wrap : option (W → option C → P → bool → bool → exec (W * (P + T)));
  tb_ctx_set_alpn : option (W → option C → option (list (option bytes)) → exec (W * option C * Z));
  tb_wrap_nb : option (W → option C → P → bool → bool → exec (W * (P + T)));
  tb_handshake : option (W → option (net_stream P T) → exec (W * option (net_stream P T) * Z));
  tb_stream_alpn : option (W → option (net_stream P T) → exec (option (net_stream P T) * option bytes));
  tb_stream_transport : option (option (net_stream P T) → option (P * (P → net_stream P T)));
}.
Arguments mk_backend {W C P T}.
Arguments tb_name {W C P T}. Arguments tb_client_ctx {W C P T}. Arguments tb_server_ctx {W C P T}.
Arguments tb_server_ctx_files {W C P T}. Arguments tb_ctx_free {W C P T}. Arguments tb_wrap {W C P T}.
Arguments tb_ctx_set_alpn {W C P T}. Arguments tb_wrap_nb {W C P T}. Arguments tb_handshake {W C P T}.
Arguments tb_stream_alpn {W C P T}. Arguments tb_stream_transport {W C P T}.

Section Facade.
Context {W C P T : Type}.
Abbreviation backend := (zcio_tls_backend W C P T).
Abbreviation stream := (net_stream P T).

(** [g_init_state] is done, and [g_backend]. *)
Record tls_lib := mk_lib { l_init : bool; g_backend : option backend }.

Definition lib_start : tls_lib := mk_lib false None.

(** The build's backend, installed by [zcio_init]. *)
Variable default : backend.

Definition zcio_tls_set_backend (b : option backend) (l : tls_lib) : tls_lib := mk_lib (l_init l) b.
Definition zcio_tls_get_backend (l : tls_lib) : option backend := g_backend l.

(** [zcio_init] of a single thread; [Init] has the protocol between threads. *)
Definition lib_init (l : tls_lib) : tls_lib :=
  if l_init l then l else mk_lib true (Some default).

Definition zcio_tls_backend_name (l : tls_lib) : tls_lib * bytes :=
  let l := lib_init l in
  (l, match g_backend l with
      | Some b => match tb_name b with Some n => n | None => B "none" end
      | None => B "none"
      end).

Definition zcio_tls_available (l : tls_lib) : tls_lib * bool :=
  let l := lib_init l in
  (l, match g_backend l with
      | Some b => match tb_name b with Some n => negb (bool_decide (n = B "none")) | None => false end
      | None => false
      end).

(** The operation of the registered backend, if it has one. *)
Definition backend_op {F} (l : tls_lib) (op : backend → option F) : option F :=
  match g_backend l with Some b => op b | None => None end.

Definition zcio_tls_client_ctx (w : W) (l : tls_lib) (host : option bytes) : exec (W * tls_lib * option C) :=
  let l := lib_init l in
  match backend_op l tb_client_ctx with
  | None => Ok (w, l, None)
  | Some f => '(w, c) ← f w host; Ok (w, l, c)
  end.

Definition zcio_tls_server_ctx (w : W) (l : tls_lib) : exec (W * tls_lib * option C) :=
  let l := lib_init l in
  match backend_op l tb_server_ctx with
  | None => Ok (w, l, None)
  | Some f => '(w, c) ← f w; Ok (w, l, c)
  end.

Definition zcio_tls_server_ctx_files (w : W) (l : tls_lib) (cert key : option bytes)
  : exec (W * tls_lib * option C) :=
  let l := lib_init l in
  match backend_op l tb_server_ctx_files with
  | None => Ok (w, l, None)
  | Some f => '(w, c) ← f w cert key; Ok (w, l, c)
  end.

Definition zcio_tls_ctx_free (w : W) (l : tls_lib) (c : option C) : exec W :=
  match backend_op l tb_ctx_free with Some f => f w c | None => Ok w end.

Definition zcio_tls_wrap (w : W) (l : tls_lib) (c : option C) (plain : P) (is_server verify : bool)
  : exec (W * (P + T)) :=
  match backend_op l tb_wrap with
  | None => Ok (w, inl plain)
  | Some f => f w c plain is_server verify
  end.

Definition zcio_tls_ctx_set_alpn (w : W) (l : tls_lib) (c : option C) (protos : option (list (option bytes)))
  : exec (W * option C * Z) :=
  match backend_op l tb_ctx_set_alpn with
  | None => Ok (w, c, ZCIO_ERR_UNSUPPORTED)
  | Some f => f w c protos
  end.

Definition zcio_tls_wrap_nb (w : W) (l : tls_lib) (c : option C) (plain : P) (is_server verify : bool)
  : exec (W * (P + T)) :=
  match backend_op l tb_wrap_nb with
  | None => Ok (w, inl plain)
  | Some f => f w c plain is_server verify
  end.

Definition zcio_tls_handshake (w : W) (l : tls_lib) (tls : option stream) : exec (W * option stream * Z) :=
  match backend_op l tb_handshake with
  | None => Ok (w, tls, ZCIO_ERR_UNSUPPORTED)
  | Some f => f w tls
  end.

Definition zcio_tls_stream_alpn (w : W) (l : tls_lib) (tls : option stream) : exec (option stream * option bytes) :=
  match backend_op l tb_stream_alpn with
  | None => Ok (tls, None)
  | Some f => f w tls
  end.

(** [zcio_tcp_stream_set_timeout_], of [src/tcp.c], on a socket stream. *)
Variable tcp_set_timeout : P → Z → P * Z.

Definition zcio_tcp_stream_set_timeout_ (s : option stream) (timeout_ms : Z) : option stream * Z :=
  match s with
  | Some (Plain p) => let '(p, r) := tcp_set_timeout p timeout_ms in (Some (Plain p), r)
  | _ => (s, ZCIO_ERR_INVALID_ARG)
  end.

Definition zcio_stream_set_timeout_ (l : tls_lib) (s : option stream) (timeout_ms : Z) : option stream * Z :=
  match backend_op l tb_stream_transport with
  | Some f =>
      match f s with
      | Some (t, put) => let '(t, r) := tcp_set_timeout t timeout_ms in (Some (put t), r)
      | None => zcio_tcp_stream_set_timeout_ s timeout_ms
      end
  | None => zcio_tcp_stream_set_timeout_ s timeout_ms
  end.

(** ** The backend of a build without TLS *)

Definition g_none_backend : backend := {|
  tb_name := Some (B "none");
  tb_client_ctx := Some (λ w _, Ok (w, None));
  tb_server_ctx := Some (λ w, Ok (w, None));
  tb_server_ctx_files := Some (λ w _ _, Ok (w, None));
  tb_ctx_free := Some (λ w _, Ok w);
  tb_wrap := Some (λ w _ plain _ _, Ok (w, inl plain));
  tb_ctx_set_alpn := None; tb_wrap_nb := None; tb_handshake := None;
  tb_stream_alpn := None; tb_stream_transport := None;
|}.

End Facade.
Arguments tls_lib : clear implicits.
Arguments mk_lib {W C P T}.

(** A backend registered before the first call that initialises the library is
    replaced by the default one. *)
Example early_backend_lost {W C P T} (default mine : zcio_tls_backend W C P T) :
  g_backend (zcio_tls_available default (zcio_tls_set_backend (Some mine) lib_start)).1 = Some default.
Proof. reflexivity. Qed.
