(* ===== verification/Tcp.v ===== *)
(** * Tcp: TCP streams, clients and servers ([src/tcp.c])

    The stream of a socket, connecting over the resolver's candidates, and the
    server's table of connections with its free list of ids.  TLS is the
    registered backend of [Tls]; [overlay_free] destroys one of its streams.  A
    connection object is kept in its slot of the table. *)
From stdpp Require Import base tactics list option strings.
From Stdlib Require Import ZArith Lia.
From S2P Require Import Prelude Types Stream Sock Dns Tls.

Definition TCP_DEFAULT_TIMEOUT_MS : Z := 30000.
Definition TCP_DEFAULT_CONNECT_TIMEOUT_MS : Z := 15000.
Definition TCP_BACKLOG : Z := 5.

Record tcp_sockctx := mk_tcp {
  t_fd : Z;
  t_timeout_ms : Z;
  t_closed : bool;
  t_eof : bool;
}.

(** Assignments to one field. *)
Definition t_set_eof (s : tcp_sockctx) : tcp_sockctx := mk_tcp (t_fd s) (t_timeout_ms s) (t_closed s) true.
Definition t_set_timeout (s : tcp_sockctx) (ms : Z) : tcp_sockctx := mk_tcp (t_fd s) ms (t_closed s) (t_eof s).

Definition t_gone (s : tcp_sockctx) : bool := t_closed s || (t_fd s =? ZCIO_INVALID_SOCKET).

Section Stream.
Context {W : Type} `{!Sys W}.

(** [rc], readable, writable. *)
Definition tcp_wait (w : W) (fd timeout_ms : Z) (want_read want_write : bool)
  : exec (W * Z * bool * bool) :=
  '(w, res, rd, wr) ← zcio_select_eintr w fd want_read want_write timeout_ms;
  Ok (w, res, (0 <? res) && rd, (0 <? res) && wr).

(** The wait before a transfer: [Some] code when the transfer is not tried. *)
Definition transfer_wait (w : W) (s : tcp_sockctx) (want_read : bool) : exec (W * option Z) :=
  if negb (t_timeout_ms s =? 0) then
    '(w, rc, rd, wr) ← tcp_wait w (t_fd s) (t_timeout_ms s) want_read (negb want_read);
    Ok (w, if rc <? 0 then Some ZCIO_ERR
           else if rc =? 0 then Some ZCIO_ERR_TIMEOUT
           else if negb (if want_read then rd else wr) then Some ZCIO_ERR_TIMEOUT
           else None)
  else Ok (w, None).

Definition tcp_s_read (c : W * tcp_sockctx) (n : Z) : exec (W * tcp_sockctx * Z * bytes) :=
  let '(w, s) := c in
  if t_gone s then Ok (w, s, ZCIO_ERR_EOF, [])
  else
    '(w, stop) ← transfer_wait w s true;
    match stop with
    | Some code => Ok (w, s, code, [])
    | None =>
        '(w, got) ← retry (λ w, sys_recv w (t_fd s) (int_len n)) w;
        match got with
        | Done [] => Ok (w, t_set_eof s, 0, [])
        | Done d => Ok (w, s, zlen d, d)
        | Failed EAGAIN => Ok (w, s, ZCIO_ERR_WOULDBLOCK, [])
        | Failed _ => Ok (w, t_set_eof s, ZCIO_ERR_EOF, [])
        end
    end.

Definition tcp_s_write (c : W * tcp_sockctx) (src : bytes) : exec (W * tcp_sockctx * Z) :=
  let '(w, s) := c in
  if t_gone s then Ok (w, s, ZCIO_ERR_EOF)
  else
    '(w, stop) ← transfer_wait w s false;
    match stop with
    | Some code => Ok (w, s, code)
    | None =>
        '(w, sent) ← retry (λ w, sys_send w (t_fd s) (ztake (int_len (zlen src)) src)) w;
        match sent with
        | Done n => Ok (w, s, n)
        | Failed EAGAIN => Ok (w, s, ZCIO_ERR_WOULDBLOCK)
        | Failed EPIPE | Failed ECONNRESET => Ok (w, t_set_eof s, ZCIO_ERR_EOF)
        | Failed _ => Ok (w, s, ZCIO_ERR)
        end
    end.

Definition tcp_s_seek (c : W * tcp_sockctx) (off : Z) (origin : zcio_seek_origin) (which : Z)
  : exec (W * tcp_sockctx * Z) := Ok (c, ZCIO_ERR_UNSUPPORTED).

Definition tcp_s_available (c : W * tcp_sockctx) : Z :=
  let '(w, s) := c in
  if t_fd s =? ZCIO_INVALID_SOCKET then 0
  else match fionread w (t_fd s) with Failed _ => ZCIO_ERR | Done count => count end.

Definition tcp_s_eof (c : W * tcp_sockctx) : bool := t_eof c.2.

Definition tcp_s_close (c : W * tcp_sockctx) : W * tcp_sockctx * Z :=
  let '(w, s) := c in
  if t_gone s then (w, s, ZCIO_OK)
  else
    let w := closesocket (sys_shutdown w (t_fd s)) (t_fd s) in
    (w, mk_tcp ZCIO_INVALID_SOCKET (t_timeout_ms s) true (t_eof s), ZCIO_OK).

Definition tcp_s_destroy (w : W) (s : tcp_sockctx) : W :=
  if t_gone s then w else closesocket (sys_shutdown w (t_fd s)) (t_fd s).

Definition TCP_VT : zcio_stream_vtable (W * tcp_sockctx) := {|
  vt_name := B "tcp"; vt_read := Some tcp_s_read; vt_write := Some tcp_s_write;
  vt_seek := Some tcp_s_seek; vt_flush := None; vt_close := Some tcp_s_close; vt_destroy := true;
  vt_available := Some tcp_s_available; vt_eof := Some tcp_s_eof |}.

(** A socket stream in its world. *)
Definition tcp_stream (w : W) (s : tcp_sockctx) : zcio_stream (W * tcp_sockctx) :=
  mk_stream TCP_VT (w, s)
    (Z.lor ZCIO_STREAM_OWNS_CTX (Z.lor ZCIO_STREAM_READABLE ZCIO_STREAM_WRITABLE)).

Context `{Allocator}.

Definition tcp_make_plain_stream (fd : Z) : option tcp_sockctx :=
  if zcio_xcalloc_ok 1 12 then
    if alloc_ok 24 then Some (mk_tcp fd TCP_DEFAULT_TIMEOUT_MS false false) else None
  else None.

Definition zcio_tcp_stream_from_fd_ (fd timeout_ms : Z) : option tcp_sockctx :=
  match tcp_make_plain_stream fd with
  | None => None
  | Some st => Some (t_set_timeout st timeout_ms)
  end.

(** ** Connecting *)

Inductive attempt := NoSocket | NotConnected (timed_out : bool) | Connected (fd : Z).

(** One turn of the loop over the candidates. *)
Definition try_candidate (w : W) (p : addrinfo) (cto : Z) : exec (W * attempt) :=
  match sys_socket w (ai_family p) (ai_socktype p) (ai_protocol p) with
  | (w, Failed _) => Ok (w, NoSocket)
  | (w, Done cand) =>
      let w := zcio_socket_nosigpipe w cand in
      let '(w, _) := zcio_set_nonblocking w cand true in
      match sys_connect w cand (ai_addr p) with
      | (w, Done _) => Ok (w, Connected cand)
      | (w, Failed EINPROGRESS) =>
          '(w, rc, _, wr) ← tcp_wait w cand cto false true;
          if (0 <? rc) && wr then
            let '(w, err) := so_error w cand in
            if err =? 0 then Ok (w, Connected cand) else Ok (closesocket w cand, NotConnected false)
          else Ok (closesocket w cand, NotConnected (rc =? 0))
      | (w, Failed _) => Ok (closesocket w cand, NotConnected false)
      end
  end.

Fixpoint try_candidates (w : W) (l : list addrinfo) (cto : Z) (last_err_timeout : bool)
  : exec (W * (Z + Z)) :=
  match l with
  | [] => Ok (w, inl (if last_err_timeout then ZCIO_ERR_TIMEOUT else ZCIO_ERR_CONNECT))
  | p :: l =>
      '(w, r) ← try_candidate w p cto;
      match r with
      | Connected fd => Ok (w, inr fd)
      | NotConnected timed_out => try_candidates w l cto timed_out
      | NoSocket => try_candidates w l cto last_err_timeout
      end
  end.

(** [inl]: the code of the failure. *)
Definition tcp_do_connect (w : W) (host : bytes) (port connect_timeout_ms : Z) : exec (W * (Z + Z)) :=
  match getaddrinfo w host (Some port) AF_UNSPEC SOCK_STREAM with
  | (w, inl _) | (w, inr []) => Ok (w, inl ZCIO_ERR_DNS)
  | (w, inr result) =>
      let w := zcio_socket_startup w in
      let cto := if 0 <? connect_timeout_ms then connect_timeout_ms else TCP_DEFAULT_CONNECT_TIMEOUT_MS in
      try_candidates w result cto false
  end.

End Stream.

(** ** Streams a client or a connection may hold *)

(** [zcio_stream_free] of an overlay of the backend. *)
Class OverlayFree (W T : Type) := overlay_free : W → T → exec W.

Section Endpoints.
Context {W C T : Type} `{!Sys W} `{!OverlayFree W T} `{Allocator}.
Abbreviation stream := (net_stream tcp_sockctx T).
Abbreviation lib := (tls_lib W C tcp_sockctx T).

Definition stream_free (w : W) (s : stream) : exec W :=
  match s with
  | Plain p => Ok (tcp_s_destroy w p)
  | Overlay t => overlay_free w t
  end.

(** [zcio_tcp_stream_set_timeout_] on a socket stream. *)
Definition tcp_set_timeout (s : tcp_sockctx) (ms : Z) : tcp_sockctx * Z := (t_set_timeout s ms, ZCIO_OK).

(** ** Client *)

Record zcio_tcp_client := mk_client { c_fd : Z; c_stream : stream; c_tls_ctx : option C }.

(** [inl]: the code of the failure. *)
Definition tcp_client_make (w : W) (l : lib) (host : option bytes) (port : Z) (ctx : option C)
    (verify : bool) (connect_timeout_ms io_timeout_ms : Z) : exec (W * (Z + zcio_tcp_client)) :=
  match host with
  | None => Ok (w, inl ZCIO_ERR_INVALID_ARG)
  | Some host =>
      '(w, r) ← tcp_do_connect w host port connect_timeout_ms;
      match r with
      | inl code => Ok (w, inl code)
      | inr fd =>
          match tcp_make_plain_stream fd with
          | None => Ok (closesocket w fd, inl ZCIO_ERR_NOMEM)
          | Some plain =>
              let plain := if 0 <? io_timeout_ms then t_set_timeout plain io_timeout_ms else plain in
              '(w, use) ← match ctx with
                | None => Ok (w, inr (Plain plain))
                | Some _ =>
                    '(w, r) ← zcio_tls_wrap w l ctx plain false verify;
                    Ok (w, match r with inl plain => inl plain | inr t => inr (Overlay t) end)
                end;
              match use with
              | inl plain => Ok (tcp_s_destroy w plain, inl ZCIO_ERR_TLS)
              | inr use =>
                  if zcio_xcalloc_ok 1 24 then Ok (w, inr (mk_client fd use ctx))
                  else w ← stream_free w use; Ok (w, inl ZCIO_ERR_NOMEM)
              end
          end
      end
  end.

Definition zcio_tcp_client_connect (w : W) (l : lib) (host : option bytes) (port : Z) :=
  tcp_client_make w l host port None false 0 0.
Definition zcio_tcp_client_connect_tls (w : W) (l : lib) (host : option bytes) (port : Z)
    (ctx : option C) (verify : bool) := tcp_client_make w l host port ctx verify 0 0.
Definition zcio_tcp_client_connect_opts_ (w : W) (l : lib) (host : option bytes) (port : Z)
    (ctx : option C) (verify : bool) (connect_timeout_ms io_timeout_ms : Z) :=
  tcp_client_make w l host port ctx verify connect_timeout_ms io_timeout_ms.

Definition zcio_tcp_client_free (w : W) (c : option zcio_tcp_client) : exec W :=
  match c with None => Ok w | Some c => stream_free w (c_stream c) end.

Definition zcio_tcp_client_stream (c : option zcio_tcp_client) : option stream :=
  match c with Some c => Some (c_stream c) | None => None end.

(** A client without a context holds a socket stream, so the overlay branch is
    not reached ([NetFds.client_plain]). *)
Definition zcio_tcp_client_tls_upgrade (w : W) (l : lib) (c : option zcio_tcp_client) (ctx : option C)
  : exec (W * option zcio_tcp_client * Z) :=
  match c, ctx with
  | Some cl, Some _ =>
      match c_tls_ctx cl, c_stream cl with
      | Some _, _ => Ok (w, c, ZCIO_ERR)
      | None, Plain plain =>
          '(w, r) ← zcio_tls_wrap w l ctx plain false true;
          match r with
          | inl plain => Ok (w, Some (mk_client (c_fd cl) (Plain plain) None), ZCIO_ERR_TLS)
          | inr t => Ok (w, Some (mk_client (c_fd cl) (Overlay t) ctx), ZCIO_OK)
          end
      | None, Overlay _ => Fault
      end
  | _, _ => Ok (w, c, ZCIO_ERR_INVALID_ARG)
  end.

Definition wait_result (b : bool) : Z := if b then 1 else 0.

Definition wait_readable (w : W) (fd : option Z) (timeout_ms : Z) : exec (W * Z) :=
  match fd with
  | None => Ok (w, ZCIO_ERR_INVALID_ARG)
  | Some fd => '(w, _, rd, _) ← tcp_wait w fd timeout_ms true false; Ok (w, wait_result rd)
  end.

Definition wait_writable (w : W) (fd : option Z) (timeout_ms : Z) : exec (W * Z) :=
  match fd with
  | None => Ok (w, ZCIO_ERR_INVALID_ARG)
  | Some fd => '(w, _, _, wr) ← tcp_wait w fd timeout_ms false true; Ok (w, wait_result wr)
  end.

Definition zcio_tcp_client_wait_readable (w : W) (c : option zcio_tcp_client) (timeout_ms : Z) :=
  wait_readable w (c_fd <$> c) timeout_ms.
Definition zcio_tcp_client_wait_writable (w : W) (c : option zcio_tcp_client) (timeout_ms : Z) :=
  wait_writable w (c_fd <$> c) timeout_ms.

Definition zcio_tcp_client_bytes_available (w : W) (c : option zcio_tcp_client) : Z :=
  match c with
  | None => ZCIO_ERR_INVALID_ARG
  | Some c => match fionread w (c_fd c) with Failed _ => ZCIO_ERR | Done count => count end
  end.

(** ** Server *)

Record zcio_tcp_conn := mk_tconn { n_fd : Z; n_stream : stream }.
Record conn_slot := mk_slot { cs_id : Z; cs_conn : option zcio_tcp_conn }.

(** [ts_slots] has [slots_cap] entries and [ts_free_ids] holds [free_len]. *)
Record zcio_tcp_server := mk_tsrv {
  ts_listen_fd : Z;
  ts_tls_ctx : option C;
  ts_non_blocking : bool;
  ts_next_id : Z;
  ts_slots : list conn_slot;
  ts_slots_len : Z;
  ts_free_ids : list Z;
  ts_free_cap : Z;
}.

(** Assignments to the table and to the id counters. *)
Definition ts_set_slots (sl : list conn_slot) (len : Z) (s : zcio_tcp_server) : zcio_tcp_server :=
  mk_tsrv (ts_listen_fd s) (ts_tls_ctx s) (ts_non_blocking s) (ts_next_id s) sl len (ts_free_ids s) (ts_free_cap s).
Definition ts_set_ids (next : Z) (free : list Z) (cap : Z) (s : zcio_tcp_server) : zcio_tcp_server :=
  mk_tsrv (ts_listen_fd s) (ts_tls_ctx s) (ts_non_blocking s) next (ts_slots s) (ts_slots_len s) free cap.

Definition tcp_server_wrap (w : W) (fd : Z) (ctx : option C) (non_blocking : bool)
  : W * option zcio_tcp_server :=
  if zcio_xcalloc_ok 1 80 then (w, Some (mk_tsrv fd ctx non_blocking 0 [] 0 [] 0))
  else (closesocket w fd, None).

(** The address to bind: [None] when the host cannot be resolved. *)
Definition bind_addr (w : W) (host : option bytes) : exec (W * option Z) :=
  match host with
  | None | Some [] => Ok (w, Some 0)
  | Some h =>
      if bool_decide (h = B "*") then Ok (w, Some 0)
      else match inet_pton4 h with
      | Some a => Ok (w, Some a)
      | None =>
          '(w, ip) ← zcio_resolve_ipv4 w host;
          Ok (w, match ip with Some ip => inet_pton4 ip | None => None end)
      end
  end.

Definition tcp_server_make (w : W) (host : option bytes) (port : Z) (ctx : option C) (non_blocking : bool)
  : exec (W * option zcio_tcp_server) :=
  let w := zcio_socket_startup w in
  '(w, addr) ← bind_addr w host;
  match addr with
  | None => Ok (w, None)
  | Some addr =>
      match sys_socket w AF_INET SOCK_STREAM 0 with
      | (w, Failed _) => Ok (w, None)
      | (w, Done fd) =>
          let w := zcio_socket_nosigpipe w fd in
          let '(w, nb) := zcio_set_nonblocking w fd true in
          if negb (nb =? ZCIO_OK) then Ok (closesocket w fd, None)
          else
            let '(w, _) := sys_setsockopt w fd SO_REUSEADDR in
            match sys_bind w fd (mk_sin addr (u16 port)) with
            | (w, Failed _) => Ok (closesocket w fd, None)
            | (w, Done _) =>
                match sys_listen w fd TCP_BACKLOG with
                | (w, Failed _) => Ok (closesocket w fd, None)
                | (w, Done _) => Ok (tcp_server_wrap w fd ctx non_blocking)
                end
            end
      end
  end.

Definition zcio_tcp_server_listen (w : W) (port : Z) := tcp_server_make w None port None true.
Definition zcio_tcp_server_listen_host (w : W) (host : option bytes) (port : Z) :=
  tcp_server_make w host port None true.
Definition zcio_tcp_server_listen_tls (w : W) (port : Z) (ctx : option C) (non_blocking : bool) :=
  tcp_server_make w None port ctx non_blocking.
Definition zcio_tcp_server_listen_host_tls (w : W) (host : option bytes) (port : Z) (ctx : option C)
    (non_blocking : bool) := tcp_server_make w host port ctx non_blocking.

Definition zcio_tcp_server_adopt (w : W) (fd : Z) (ctx : option C) (non_blocking : bool)
  : W * option zcio_tcp_server :=
  let w := zcio_socket_startup w in
  if fd =? ZCIO_INVALID_SOCKET then (w, None)
  else
    let w := zcio_socket_nosigpipe w fd in
    let '(w, nb) := zcio_set_nonblocking w fd true in
    if negb (nb =? ZCIO_OK) then (w, None) else tcp_server_wrap w fd ctx non_blocking.

(** Every live connection of the first [slots_len] entries. *)
Fixpoint free_slots (w : W) (sl : list conn_slot) : exec W :=
  match sl with
  | [] => Ok w
  | e :: sl =>
      w ← match cs_conn e with Some c => stream_free w (n_stream c) | None => Ok w end;
      free_slots w sl
  end.

Definition zcio_tcp_server_free (w : W) (s : option zcio_tcp_server) : exec W :=
  match s with
  | None => Ok w
  | Some s =>
      w ← free_slots w (ztake (ts_slots_len s) (ts_slots s));
      Ok (if ts_listen_fd s =? ZCIO_INVALID_SOCKET then w
          else closesocket (sys_shutdown w (ts_listen_fd s)) (ts_listen_fd s))
  end.

(** [while (ncap <= id) ncap *= 2] *)
Fixpoint grow_cap (fuel : nat) (ncap id : Z) : exec Z :=
  match fuel with
  | O => OutOfFuel
  | S fuel => if ncap <=? id then grow_cap fuel (u64 (ncap * 2)) id else Ok ncap
  end.

Definition empty_slots (from n : Z) : list conn_slot :=
  map (λ i, mk_slot (from + Z.of_nat i) None) (seq 0 (Z.to_nat n)).

Definition server_store (s : zcio_tcp_server) (id : Z) (conn : zcio_tcp_conn) : exec (zcio_tcp_server * Z) :=
  let cap := zlen (ts_slots s) in
  grown ← (if cap <=? id then
    ncap ← grow_cap 65 (if cap =? 0 then 8 else u64 (cap * 2)) id;
    Ok (if alloc_ok (u64 (ncap * 16)) then Some (ts_slots s ++ empty_slots cap (ncap - cap)) else None)
  else Ok (Some (ts_slots s)));
  match grown with
  | None => Ok (s, ZCIO_ERR_NOMEM)
  | Some sl =>
      let len := if ts_slots_len s <=? id then id + 1 else ts_slots_len s in
      match sl !! Z.to_nat id with
      | None => Fault
      | Some _ => Ok (ts_set_slots (<[Z.to_nat id := mk_slot id (Some conn)]> sl) len s, ZCIO_OK)
      end
  end.

(** The last freed id comes first. *)
Definition server_pop_free_id (s : zcio_tcp_server) : zcio_tcp_server * option Z :=
  match ts_free_ids s with
  | [] => (s, None)
  | id :: ids => (ts_set_ids (ts_next_id s) ids (ts_free_cap s) s, Some id)
  end.

Definition accept_id (s : zcio_tcp_server) : zcio_tcp_server * Z :=
  match server_pop_free_id s with
  | (s, Some id) => (s, id)
  | (s, None) => (ts_set_ids (u64 (ts_next_id s + 1)) (ts_free_ids s) (ts_free_cap s) s, ts_next_id s)
  end.

(** The tail of [zcio_tcp_server_accept]: the new connection gets its id. *)
Definition register_conn (w : W) (s : zcio_tcp_server) (cfd : Z) (use : stream)
  : exec (W * zcio_tcp_server * option Z) :=
  if zcio_xcalloc_ok 1 16 then
    let '(s, id) := accept_id s in
    '(s, rc) ← server_store s id (mk_tconn cfd use);
    if rc =? ZCIO_OK then Ok (w, s, Some id)
    else w ← stream_free w use; Ok (w, s, None)
  else w ← stream_free w use; Ok (w, s, None).

(** The id of the accepted connection. *)
Definition zcio_tcp_server_accept (w : W) (l : lib) (s : option zcio_tcp_server) (timeout_ms : Z)
  : exec (W * option zcio_tcp_server * option Z) :=
  match s with
  | None => Ok (w, None, None)
  | Some s =>
      '(w, rc, rd, _) ← tcp_wait w (ts_listen_fd s) timeout_ms true false;
      if rc <=? 0 then Ok (w, Some s, None)
      else if negb rd then Ok (w, Some s, None)
      else
        '(w, r) ← retry (λ w, sys_accept w (ts_listen_fd s)) w;
        match r with
        | Failed _ => Ok (w, Some s, None)
        | Done cfd =>
            let w := zcio_socket_nosigpipe w cfd in
            let '(w, _) := zcio_set_nonblocking w cfd true in
            match tcp_make_plain_stream cfd with
            | None => Ok (closesocket w cfd, Some s, None)
            | Some plain =>
                match ts_tls_ctx s with
                | None =>
                    '(w, s, id) ← register_conn w s cfd (Plain plain); Ok (w, Some s, id)
                | Some ctx =>
                    '(w, r) ← zcio_tls_wrap w l (Some ctx) plain true false;
                    match r with
                    | inl plain => Ok (tcp_s_destroy w plain, Some s, None)
                    | inr t => '(w, s, id) ← register_conn w s cfd (Overlay t); Ok (w, Some s, id)
                    end
                end
            end
        end
  end.

(** Pushing an id on the free list; it is dropped when the list cannot grow. *)
Definition reclaim_id (s : zcio_tcp_server) (id : Z) : zcio_tcp_server :=
  let len := zlen (ts_free_ids s) in
  let cap :=
    if ts_free_cap s <=? len then
      let ncap := if ts_free_cap s =? 0 then 8 else u64 (ts_free_cap s * 2) in
      if alloc_ok (u64 (ncap * 8)) then ncap else ts_free_cap s
    else ts_free_cap s in
  ts_set_ids (ts_next_id s) (if len <? cap then id :: ts_free_ids s else ts_free_ids s) cap s.

Definition zcio_tcp_server_close_client (w : W) (s : option zcio_tcp_server) (id : Z)
  : exec (W * option zcio_tcp_server * Z) :=
  match s with
  | None => Ok (w, None, ZCIO_ERR_INVALID_ARG)
  | Some s =>
      if ts_slots_len s <=? id then Ok (w, Some s, ZCIO_ERR_INVALID_ARG)
      else match ts_slots s !! Z.to_nat id with
      | None => Fault
      | Some e =>
          match cs_conn e with
          | None => Ok (w, Some s, ZCIO_ERR_INVALID_ARG)
          | Some conn =>
              w ← stream_free w (n_stream conn);
              let s := ts_set_slots (<[Z.to_nat id := mk_slot (cs_id e) None]> (ts_slots s)) (ts_slots_len s) s in
              Ok (w, Some (reclaim_id s id), ZCIO_OK)
          end
      end
  end.

Definition zcio_tcp_conn_stream (c : option zcio_tcp_conn) : option stream :=
  match c with Some c => Some (n_stream c) | None => None end.
Definition zcio_tcp_conn_wait_readable (w : W) (c : option zcio_tcp_conn) (timeout_ms : Z) :=
  wait_readable w (n_fd <$> c) timeout_ms.
Definition zcio_tcp_conn_wait_writable (w : W) (c : option zcio_tcp_conn) (timeout_ms : Z) :=
  wait_writable w (n_fd <$> c) timeout_ms.

End Endpoints.
Arguments zcio_tcp_server : clear implicits.
Arguments zcio_tcp_client : clear implicits.
Arguments zcio_tcp_conn : clear implicits.
Arguments conn_slot : clear implicits.
