(* ===== verification/TcpSafe.v ===== *)
(** * TcpSafe: socket streams and the server's id table

    A transfer on a socket stream ends within its timeout and answers as the
    rules of [reads] and [writes] say, interruptions included; the table of connections refines a finite map from
    ids to connections whose ids are reused. *)
From stdpp Require Import base tactics list option strings gmap.
From Stdlib Require Import ZArith Lia.
From S2P Require Import Prelude Types Stream Sock Dns Tls Tcp.

(** ** Streams *)

(** What a transfer may answer when it moves no bytes. *)
Definition io_code (r : Z) : Prop :=
  r = 0 ∨ r = ZCIO_ERR ∨ r = ZCIO_ERR_TIMEOUT ∨ r = ZCIO_ERR_EOF ∨ r = ZCIO_ERR_WOULDBLOCK.

(** The context differs at most in its end-of-file flag. *)
Definition same_socket (s s' : tcp_sockctx) : Prop :=
  t_fd s' = t_fd s ∧ t_timeout_ms s' = t_timeout_ms s ∧ t_closed s' = t_closed s.

(** ** What a transfer does

    Rule by rule, with [final_answer] in place of the loops: the wait, and the
    transfer with its answer. *)
Inductive waiting := Ready | Expired | Broken.

Inductive waits `{!Sys W} (s : tcp_sockctx) (rd : bool) : W → W → waiting → Prop :=
  | waits_not w : t_timeout_ms s = 0 → waits s rd w w Ready
  | waits_ready w w1 d w' k a b : t_timeout_ms s ≠ 0 → deadline_of w (t_timeout_ms s) = (w1, d) →
      select_answer (t_fd s) rd (negb rd) d w1 w' (Done (k, a, b)) → 0 < k → (if rd then a else b) = true →
      waits s rd w w' Ready
  | waits_expired w w1 d w' k a b : t_timeout_ms s ≠ 0 → deadline_of w (t_timeout_ms s) = (w1, d) →
      select_answer (t_fd s) rd (negb rd) d w1 w' (Done (k, a, b)) →
      0 ≤ k → (0 < k → (if rd then a else b) = false) → waits s rd w w' Expired
  | waits_broken w w1 d w' e : t_timeout_ms s ≠ 0 → deadline_of w (t_timeout_ms s) = (w1, d) →
      select_answer (t_fd s) rd (negb rd) d w1 w' (Failed e) → waits s rd w w' Broken.

(** [reads w s n w' s' r d]: reading at most [n] bytes answers [r] and [d]. *)
Inductive reads `{!Sys W} (w : W) (s : tcp_sockctx) (n : Z) : W → tcp_sockctx → Z → bytes → Prop :=
  | reads_gone : t_gone s = true → reads w s n w s ZCIO_ERR_EOF []
  | reads_broken w' : t_gone s = false → waits s true w w' Broken → reads w s n w' s ZCIO_ERR []
  | reads_expired w' : t_gone s = false → waits s true w w' Expired → reads w s n w' s ZCIO_ERR_TIMEOUT []
  | reads_bytes w1 w' d : t_gone s = false → waits s true w w1 Ready →
      final_answer (λ w, sys_recv w (t_fd s) (int_len n)) w1 w' (Done d) → d ≠ [] → reads w s n w' s (zlen d) d
  | reads_end w1 w' : t_gone s = false → waits s true w w1 Ready →
      final_answer (λ w, sys_recv w (t_fd s) (int_len n)) w1 w' (Done []) → reads w s n w' (t_set_eof s) 0 []
  | reads_none w1 w' : t_gone s = false → waits s true w w1 Ready →
      final_answer (λ w, sys_recv w (t_fd s) (int_len n)) w1 w' (Failed EAGAIN) → reads w s n w' s ZCIO_ERR_WOULDBLOCK []
  | reads_lost w1 w' e : t_gone s = false → waits s true w w1 Ready →
      final_answer (λ w, sys_recv w (t_fd s) (int_len n)) w1 w' (Failed e) → e ≠ EAGAIN →
      reads w s n w' (t_set_eof s) ZCIO_ERR_EOF [].

(** [writes w s p w' s' r]: writing [p] answers [r]. *)
Inductive writes `{!Sys W} (w : W) (s : tcp_sockctx) (p : bytes) : W → tcp_sockctx → Z → Prop :=
  | writes_gone : t_gone s = true → writes w s p w s ZCIO_ERR_EOF
  | writes_broken w' : t_gone s = false → waits s false w w' Broken → writes w s p w' s ZCIO_ERR
  | writes_expired w' : t_gone s = false → waits s false w w' Expired → writes w s p w' s ZCIO_ERR_TIMEOUT
  | writes_bytes w1 w' k : t_gone s = false → waits s false w w1 Ready →
      final_answer (λ w, sys_send w (t_fd s) (ztake (int_len (zlen p)) p)) w1 w' (Done k) → writes w s p w' s k
  | writes_none w1 w' : t_gone s = false → waits s false w w1 Ready →
      final_answer (λ w, sys_send w (t_fd s) (ztake (int_len (zlen p)) p)) w1 w' (Failed EAGAIN) →
      writes w s p w' s ZCIO_ERR_WOULDBLOCK
  | writes_lost w1 w' e : t_gone s = false → waits s false w w1 Ready →
      final_answer (λ w, sys_send w (t_fd s) (ztake (int_len (zlen p)) p)) w1 w' (Failed e) →
      e = EPIPE ∨ e = ECONNRESET → writes w s p w' (t_set_eof s) ZCIO_ERR_EOF
  | writes_failed w1 w' e : t_gone s = false → waits s false w w1 Ready →
      final_answer (λ w, sys_send w (t_fd s) (ztake (int_len (zlen p)) p)) w1 w' (Failed e) →
      e ≠ EAGAIN → e ≠ EPIPE → e ≠ ECONNRESET → writes w s p w' s ZCIO_ERR.

Section Rules.
Context {W : Type} `{!Sys W} (s : tcp_sockctx).
Hypothesis timeout_range : 0 ≤ t_timeout_ms s.
Hypothesis select_counts : ∀ w fd rd wr tv w' rc a b, sys_select w fd rd wr tv = (w', Done (rc, a, b)) → 0 ≤ rc.

Lemma settled_count fd rd wr d (w w' : W) k a b : select_answer fd rd wr d w w' (Done (k, a, b)) → 0 ≤ k.
Proof.
  remember (Done (k, a, b)) as r eqn:E. induction 1 as [? ? ? ? r _ Hs|? ? ? ? ? ? ?| ]; [|by injection E as <-|auto].
  subst. by eapply select_counts.
Qed.

Lemma transfer_wait_waits w rd w' stop : transfer_wait w s rd = Ok (w', stop) →
  match stop with
  | None => waits s rd w w' Ready
  | Some code => (code = ZCIO_ERR ∧ waits s rd w w' Broken) ∨ (code = ZCIO_ERR_TIMEOUT ∧ waits s rd w w' Expired)
  end.
Proof.
  unfold transfer_wait. destruct (Z.eqb_spec (t_timeout_ms s) 0) as [E|E]; cbn [negb].
  { intros [= <- <-]. by constructor. }
  unfold tcp_wait. destruct (zcio_select_eintr _ _ _ _ _) as [[[[w1 rc] r1] r2]| |] eqn:Es; [|done..]. cbn [mbind exec_bind].
  apply select_settled in Es as (w2 & d & r & Hd & Hs & Hr); [|done]. intros [= <- <-].
  destruct r as [e|[[k a] b]].
  - subst rc. left. split; [done|]. by eapply waits_broken.
  - destruct Hr as (-> & -> & ->). pose proof (settled_count _ _ _ _ _ _ _ _ _ Hs) as Hk.
    rewrite (proj2 (Z.ltb_ge k 0)) by done. destruct (Z.eqb_spec k 0) as [->|Hk0].
    { right. split; [done|]. eapply waits_expired; [done..|lia]. }
    rewrite (proj2 (Z.ltb_lt 0 k)) by lia. destruct rd; cbn [andb negb].
    + destruct a; cbn; [eapply waits_ready; [done..|lia|done]|right; split; [done|]; by eapply waits_expired].
    + destruct b; cbn; [eapply waits_ready; [done..|lia|done]|right; split; [done|]; by eapply waits_expired].
Qed.

Lemma tcp_read_reads w n w' s' r d : tcp_s_read (w, s) n = Ok (w', s', r, d) → reads w s n w' s' r d.
Proof.
  unfold tcp_s_read. destruct (t_gone s) eqn:Eg; [intros [= <- <- <- <-]; by constructor|].
  destruct (transfer_wait w s true) as [[w1 stop]| |] eqn:Ew; [|done..]. apply transfer_wait_waits in Ew.
  cbn [mbind exec_bind]. destruct stop as [code|].
  { intros [= <- <- <- <-]. destruct Ew as [[-> ?]|[-> ?]]; [by apply reads_broken|by apply reads_expired]. }
  destruct (retry _ w1) as [[w2 got]| |] eqn:Er; [|done..]. apply retry_final in Er. cbn [mbind exec_bind].
  destruct got as [e|[|b d']].
  - destruct (decide (e = EAGAIN)) as [->|He]; [intros [= <- <- <- <-]; by eapply reads_none|].
    intros E. assert ((w', s', r, d) = (w2, t_set_eof s, ZCIO_ERR_EOF, [])) as [= -> -> -> ->] by (by destruct e; injection E as <- <- <- <-).
    by eapply reads_lost.
  - intros [= <- <- <- <-]. by eapply reads_end.
  - intros [= <- <- <- <-]. by apply (reads_bytes w s n w1 w2 (b :: d')).
Qed.

Lemma tcp_write_writes w p w' s' r : tcp_s_write (w, s) p = Ok (w', s', r) → writes w s p w' s' r.
Proof.
  unfold tcp_s_write. destruct (t_gone s) eqn:Eg; [intros [= <- <- <-]; by constructor|].
  destruct (transfer_wait w s false) as [[w1 stop]| |] eqn:Ew; [|done..]. apply transfer_wait_waits in Ew.
  cbn [mbind exec_bind]. destruct stop as [code|].
  { intros [= <- <- <-]. destruct Ew as [[-> ?]|[-> ?]]; [by apply writes_broken|by apply writes_expired]. }
  destruct (retry _ w1) as [[w2 got]| |] eqn:Er; [|done..]. apply retry_final in Er. cbn [mbind exec_bind].
  destruct got as [e|k]; [|intros [= <- <- <-]; by eapply writes_bytes].
  destruct e; intros [= <- <- <-]; (by eapply writes_none) || (by eapply writes_lost; eauto) || by eapply writes_failed.
Qed.
End Rules.

Section Io.
Context {W : Type} `{!Sys W} {clk : W → Z} {late : Z} `{!SysTime W clk late} `{!SysIo W}.
Variable s : tcp_sockctx.
Hypothesis fd_range : 0 ≤ t_fd s < FD_SETSIZE.
Hypothesis timeout_range : 0 ≤ t_timeout_ms s.
(** The socket is non-blocking. *)
Hypothesis recv_now : ∀ w n w' r, sys_recv w (t_fd s) n = (w', r) → clk w' = clk w.
Hypothesis send_now : ∀ w p w' r, sys_send w (t_fd s) p = (w', r) → clk w' = clk w.

Lemma transfer_wait_spec w rd : ∃ w' stop, transfer_wait w s rd = Ok (w', stop) ∧
  clk w' ≤ clk w + t_timeout_ms s + late ∧
  (∀ code, stop = Some code → code = ZCIO_ERR ∨ code = ZCIO_ERR_TIMEOUT).
Proof.
  pose proof (late_nonneg (W := W) (clk := clk)) as Hl. unfold transfer_wait.
  destruct (Z.eqb_spec (t_timeout_ms s) 0) as [E|E]; cbn [negb].
  { exists w, None. split; [done|]. split; [lia|done]. }
  unfold tcp_wait. destruct (select_spec (clk := clk) (late := late) w (t_fd s) rd (negb rd) (t_timeout_ms s))
    as (w' & rc & r1 & r2 & -> & Hc & _); [done..|]. cbn [mbind exec_bind].
  eexists _, _. split; [done|]. split; [done|]. intros code. repeat bcase; intros [= <-]; tauto.
Qed.

Lemma recv_retry w n : 0 ≤ n →
  ∃ w' r, retry (λ w, sys_recv w (t_fd s) n) w = Ok (w', r) ∧ clk w' = clk w ∧ interrupted r = false ∧
    (∀ d, r = Done d → zlen d ≤ Z.min n MAX_RW_COUNT ∧ is_bytes d).
Proof.
  intros Hn. destruct (retry_spec (λ w, sys_recv w (t_fd s) n)) with (w := w)
    as (w1 & w' & r & -> & E & Hi & _ & HP).
  { intros v v' x. apply recv_signals. }
  exists w', r. split; [done|]. split; [|split; [done|intros d ->; by eapply recv_fits]].
  rewrite (recv_now _ _ _ _ E). apply (HP (λ v, clk v = clk w)); [|done].
  intros v v' x Hv _ <-. by apply recv_now in Hv.
Qed.

Lemma send_retry w p : ∃ w' r, retry (λ w, sys_send w (t_fd s) p) w = Ok (w', r) ∧ clk w' = clk w ∧
    interrupted r = false ∧ (∀ k, r = Done k → 0 ≤ k ≤ zlen p).
Proof.
  destruct (retry_spec (λ w, sys_send w (t_fd s) p)) with (w := w) as (w1 & w' & r & -> & E & Hi & _ & HP).
  { intros v v' x. apply send_signals. }
  exists w', r. split; [done|]. split; [|split; [done|intros k ->; apply send_fits in E; lia]].
  rewrite (send_now _ _ _ _ E). apply (HP (λ v, clk v = clk w)); [|done].
  intros v v' x Hv _ <-. by apply send_now in Hv.
Qed.

Lemma tcp_read_spec w n : 0 ≤ n → ∃ w' s' r d, tcp_s_read (w, s) n = Ok (w', s', r, d) ∧
  clk w' ≤ clk w + t_timeout_ms s + late ∧ same_socket s s' ∧
  ((0 < r ≤ n ∧ zlen d = r ∧ is_bytes d ∧ s' = s) ∨ (io_code r ∧ d = [])) ∧
  (t_eof s' = true ↔ t_eof s = true ∨ (t_gone s = false ∧ (r = 0 ∨ r = ZCIO_ERR_EOF))).
Proof.
  intros Hn. pose proof (late_nonneg (W := W) (clk := clk)) as Hl. unfold tcp_s_read.
  destruct (t_gone s) eqn:Eg.
  { eexists _, _, _, _. split; [done|]. split; [lia|]. split; [done|]. split; [right; split; [unfold io_code; tauto|done]|].
    split; [by left|by intros [|[? ?]]]. }
  destruct (transfer_wait_spec w true) as (w1 & stop & -> & Hc & Hs). cbn [mbind exec_bind].
  destruct stop as [code|].
  { specialize (Hs code eq_refl). eexists _, _, _, _. split; [done|]. split; [done|]. split; [done|].
    split; [right; split; [unfold io_code; tauto|done]|].
    split; [by left|]. intros [|[_ H0]]; [done|]. destruct Hs as [->| ->], H0; discriminate. }
  assert (0 ≤ int_len n) as Hi by (unfold int_len; apply (wrap_bound 64); lia).
  destruct (recv_retry w1 (int_len n) Hi) as (w2 & r & -> & Hc2 & Hint & Hfit). cbn [mbind exec_bind].
  destruct r as [e|d].
  - destruct e; try discriminate Hint;
      (eexists _, _, _, _; split; [done|]; split; [lia|]; split; [done|];
       split; [right; split; [unfold io_code; tauto|done]|]; cbn; unfold ZCIO_ERR_WOULDBLOCK, ZCIO_ERR_EOF; naive_solver lia).
  - destruct (Hfit d eq_refl) as [Hz Hb]. pose proof (int_len_fits n Hn). destruct d as [|b d].
    + eexists _, _, _, _. split; [done|]. split; [lia|]. split; [done|].
      split; [right; split; [unfold io_code; tauto|done]|]. cbn. tauto.
    + eexists _, _, _, _. split; [done|]. split; [lia|]. split; [done|]. cbn [length] in *.
      split; [left; split; [lia|done]|]. split; [by left|]. unfold ZCIO_ERR_EOF. intros [|[_ ?]]; [done|lia].
Qed.

Lemma tcp_write_spec w p : ∃ w' s' r, tcp_s_write (w, s) p = Ok (w', s', r) ∧
  clk w' ≤ clk w + t_timeout_ms s + late ∧ same_socket s s' ∧ (0 < r ≤ zlen p ∨ io_code r) ∧
  (t_eof s' = true ↔ t_eof s = true ∨ (t_gone s = false ∧ r = ZCIO_ERR_EOF)).
Proof.
  pose proof (late_nonneg (W := W) (clk := clk)) as Hl. unfold tcp_s_write.
  destruct (t_gone s) eqn:Eg.
  { eexists _, _, _. split; [done|]. split; [lia|]. split; [done|]. split; [right; unfold io_code; tauto|].
    split; [by left|by intros [|[? ?]]]. }
  destruct (transfer_wait_spec w false) as (w1 & stop & -> & Hc & Hs). cbn [mbind exec_bind].
  destruct stop as [code|].
  { specialize (Hs code eq_refl). eexists _, _, _. split; [done|]. split; [done|]. split; [done|].
    split; [right; unfold io_code; tauto|].
    split; [by left|]. intros [|[_ H0]]; [done|]. destruct Hs as [->| ->]; discriminate. }
  destruct (send_retry w1 (ztake (int_len (zlen p)) p)) as (w2 & r & -> & Hc2 & Hint & Hfit). cbn [mbind exec_bind].
  destruct r as [e|k].
  - destruct e; try discriminate Hint;
      (eexists _, _, _; split; [done|]; split; [lia|]; split; [done|];
       split; [right; unfold io_code; tauto|]; cbn; unfold ZCIO_ERR_WOULDBLOCK, ZCIO_ERR_EOF, ZCIO_ERR; naive_solver lia).
  - specialize (Hfit k eq_refl). rewrite length_take in Hfit.
    eexists _, _, _. split; [done|]. split; [lia|]. split; [done|].
    split; [unfold io_code; destruct (decide (k = 0)); [tauto|left; lia]|].
    split; [by left|]. unfold ZCIO_ERR_EOF. intros [|[_ ?]]; [done|lia].
Qed.
End Io.

(** ** The server's table *)

Section Table.
Context {W C T : Type} `{!Sys W} `{!OverlayFree W T} `{Allocator}.
Abbreviation srv := (zcio_tcp_server C T).
Abbreviation tconn := (zcio_tcp_conn T).

(** The connection an id stands for. *)
Definition conn_of (s : srv) (id : Z) : option tconn :=
  if bool_decide (0 ≤ id < ts_slots_len s) then e ← ts_slots s !! Z.to_nat id; cs_conn e else None.

(** No more than [N] ids have been drawn. *)
Record srv_wf (N : Z) (s : srv) : Prop := {
  wf_len : 0 ≤ ts_slots_len s ≤ zlen (ts_slots s);
  wf_next : ts_slots_len s ≤ ts_next_id s ≤ N;
  wf_cap : zlen (ts_slots s) ≤ Z.max 8 (2 * ts_next_id s);
  wf_dead : ∀ i e, ts_slots s !! i = Some e → ts_slots_len s ≤ Z.of_nat i → cs_conn e = None;
  wf_free : NoDup (ts_free_ids s);
  wf_free_dead : ∀ id, id ∈ ts_free_ids s → 0 ≤ id < ts_slots_len s ∧ conn_of s id = None;
}.

Lemma wf_mono N N' s : N ≤ N' → srv_wf N s → srv_wf N' s.
Proof. intros HN [? ? ? ? ? ?]. split; [done|lia|done..]. Qed.

Lemma conn_of_range s id c : conn_of s id = Some c → 0 ≤ id < ts_slots_len s.
Proof. unfold conn_of. case_bool_decide; done. Qed.

Lemma grow_cap_spec fuel ncap id : 0 < ncap → 0 ≤ id < 2 ^ 61 → ncap < 2 ^ 62 → id < ncap * 2 ^ Z.of_nat fuel →
  ∃ c, grow_cap (S fuel) ncap id = Ok c ∧ id < c ∧ ncap ≤ c ≤ Z.max ncap (2 * id).
Proof.
  revert ncap. induction fuel as [|fuel IH]; intros ncap Hn Hid Hb Hp.
  - cbn [grow_cap]. change (Z.of_nat 0) with 0 in Hp. rewrite (proj2 (Z.leb_gt _ _)) by lia.
    exists ncap. split; [done|lia].
  - cbn [grow_cap]. destruct (Z.leb_spec ncap id); [|exists ncap; split; [done|lia]].
    rewrite wrap_small by lia. rewrite Nat2Z.inj_succ, Z.pow_succ_r in Hp by lia.
    destruct (IH (ncap * 2)) as (c & Hc & H1 & H2); [lia|lia|lia|lia|].
    cbn [grow_cap] in Hc. exists c. split; [exact Hc|lia].
Qed.

Lemma empty_slots_length from n : 0 ≤ n → zlen (empty_slots (T := T) from n) = n.
Proof. intros. unfold empty_slots. rewrite length_map, length_seq. lia. Qed.

Lemma empty_slots_dead from n i e : empty_slots (T := T) from n !! i = Some e → cs_conn e = None.
Proof.
  unfold empty_slots. change (@map) with (@fmap list _). intros Hi.
  apply list_lookup_fmap_Some in Hi as (j & -> & _). done.
Qed.

(** The table after the growth step of [server_store]. *)
Lemma store_grow N s id : srv_wf N s → N < 2 ^ 60 → 0 ≤ id < ts_next_id s →
  let cap := zlen (ts_slots s) in
  ∃ g, (if cap <=? id then
      ncap ← grow_cap 65 (if cap =? 0 then 8 else u64 (cap * 2)) id;
      Ok (if alloc_ok (u64 (ncap * 16)) then Some (ts_slots s ++ empty_slots cap (ncap - cap)) else None)
    else Ok (Some (ts_slots s))) = Ok g ∧
  ((∀ n, alloc_ok n = true) → g ≠ None) ∧
  ∀ sl, g = Some sl → (∃ k, sl = ts_slots s ++ k ∧ Forall (λ e, cs_conn e = None) k) ∧ id < zlen sl ∧
    zlen sl ≤ Z.max 8 (2 * ts_next_id s).
Proof.
  intros [Hl Hn Hc Hd Hf Hfd] HN Hid cap. destruct (Z.leb_spec cap id) as [Hle|Hlt].
  - assert (∃ n0, (if cap =? 0 then 8 else u64 (cap * 2)) = n0 ∧ 8 ≤ n0 * 8 ∧ 2 * cap ≤ n0 ≤ Z.max 8 (2 * id)) as (n0 & -> & H0 & H1).
    { destruct (Z.eqb_spec cap 0); [exists 8; split; [done|lia]|]. rewrite wrap_small by lia. eexists; split; [done|lia]. }
    destruct (grow_cap_spec 64 n0 id) as (c & -> & Hc1 & Hc2); [lia|lia|lia|lia|].
    cbn [mbind exec_bind]. eexists. split; [done|]. split; [by intros ->|]. intros sl. destruct (alloc_ok _); [intros [= <-]|done].
    split; [eexists; split; [done|]; apply Forall_lookup; intros i e; apply empty_slots_dead|].
    rewrite length_app, Nat2Z.inj_add, empty_slots_length by lia. fold cap. lia.
  - eexists. split; [done|]. split; [done|]. intros sl [= <-]. split; [exists []; by rewrite app_nil_r|]. split; [done|]. done.
Qed.

(** Storing under an id that was just drawn. *)
Lemma server_store_spec N s id c : srv_wf N s → N < 2 ^ 60 → 0 ≤ id < ts_next_id s →
  id ∉ ts_free_ids s →
  ∃ s' rc, server_store s id c = Ok (s', rc) ∧ srv_wf N s' ∧
    ts_next_id s' = ts_next_id s ∧ ts_free_ids s' = ts_free_ids s ∧
    (rc ≠ ZCIO_OK → s' = s) ∧ ((∀ n, alloc_ok n = true) → rc = ZCIO_OK) ∧
    (rc = ZCIO_OK → ∀ j, conn_of s' j = if bool_decide (j = id) then Some c else conn_of s j) ∧
    ts_listen_fd s' = ts_listen_fd s ∧ ts_tls_ctx s' = ts_tls_ctx s ∧ ts_free_cap s' = ts_free_cap s.
Proof.
  intros Hwf HN Hid Hfr. unfold server_store.
  destruct (store_grow N s id Hwf HN Hid) as (g & -> & Hg0 & Hg). cbn [mbind exec_bind].
  destruct Hwf as [Hl Hn Hc Hd Hf Hfd].
  destruct g as [sl|].
  2:{ exists s, ZCIO_ERR_NOMEM. split; [done|]. split; [done|]. split; [done|]. split; [done|]. split; [done|].
      split; [|done]. intros Ha. by destruct (Hg0 Ha). }
  destruct (Hg sl eq_refl) as ((k & -> & Hk) & Hlt & Hcap).
  destruct (lookup_lt_is_Some_2 (ts_slots s ++ k) (Z.to_nat id)) as [e He]; [lia|]. rewrite He.
  assert (zlen (ts_slots s) ≤ zlen (ts_slots s ++ k)) as Hgrow by zl.
  eexists _, _. split; [done|].
  assert (∀ i e', (ts_slots s ++ k) !! i = Some e' → ts_slots_len s ≤ Z.of_nat i → cs_conn e' = None) as Hdead.
  { intros i e' Hi Hge. apply lookup_app_Some in Hi as [Hi|[_ Hi]]; [by eapply Hd|].
    by apply (proj1 (Forall_lookup _ _) Hk _ _ Hi). }
  assert (∀ j, conn_of (ts_set_slots (<[Z.to_nat id:=mk_slot id (Some c)]> (ts_slots s ++ k))
      (if ts_slots_len s <=? id then id + 1 else ts_slots_len s) s) j
    = if bool_decide (j = id) then Some c else conn_of s j) as Hconn.
  { intros j. unfold conn_of. cbn [ts_slots_len ts_slots ts_set_slots]. case_bool_decide as Hj.
    - case_bool_decide as Hji.
      + subst j. rewrite list_lookup_insert_eq by lia. done.
      + rewrite list_lookup_insert_ne by lia. case_bool_decide as Hj2.
        * rewrite lookup_app_l by lia. done.
        * destruct ((ts_slots s ++ k) !! Z.to_nat j) as [e'|] eqn:Ej; [|done]. cbn. apply (Hdead _ _ Ej). lia.
    - case_bool_decide as Hji; [subst j; destruct (Z.leb_spec (ts_slots_len s) id); lia|].
      case_bool_decide; [|done]. destruct (Z.leb_spec (ts_slots_len s) id); lia. }
  split.
  - split; cbn [ts_slots_len ts_slots ts_set_slots ts_next_id ts_free_ids].
    + rewrite length_insert. destruct (Z.leb_spec (ts_slots_len s) id); lia.
    + destruct (Z.leb_spec (ts_slots_len s) id); lia.
    + by rewrite length_insert.
    + intros i e' Hi Hge. rewrite list_lookup_insert_ne in Hi by (destruct (Z.leb_spec (ts_slots_len s) id); lia).
      apply (Hdead i e' Hi). destruct (Z.leb_spec (ts_slots_len s) id); lia.
    + done.
    + intros j Hj. destruct (Hfd j Hj) as [Hr Hn0]. split; [destruct (Z.leb_spec (ts_slots_len s) id); lia|].
      rewrite Hconn. rewrite bool_decide_false; [done|]. by intros ->.
  - split; [done|]. split; [done|]. split; [done|]. split; [done|]. split; [by intros _|done].
Qed.

Lemma accept_id_spec N s : srv_wf N s → N < 2 ^ 60 →
  let '(s', id) := accept_id s in
  srv_wf (N + 1) s' ∧ 0 ≤ id < ts_next_id s' ∧ id ∉ ts_free_ids s' ∧ conn_of s id = None ∧
  (∀ j, conn_of s' j = conn_of s j) ∧ ts_listen_fd s' = ts_listen_fd s ∧ ts_tls_ctx s' = ts_tls_ctx s ∧
  ts_free_cap s' = ts_free_cap s ∧
  ((ts_free_ids s = id :: ts_free_ids s' ∧ ts_next_id s' = ts_next_id s) ∨
   (ts_free_ids s = [] ∧ ts_free_ids s' = [] ∧ ts_next_id s' = ts_next_id s + 1)).
Proof.
  intros [Hl Hn Hc Hd Hf Hfd] HN. unfold accept_id, server_pop_free_id.
  destruct (ts_free_ids s) as [|id ids] eqn:E.
  - cbn [ts_next_id ts_free_ids ts_set_ids]. rewrite wrap_small by lia.
    split; [split; cbn; [done|lia|lia|done|rewrite E; constructor|intros ? Hx; rewrite E in Hx; by apply not_elem_of_nil in Hx]|].
    split; [lia|]. split; [rewrite E; apply not_elem_of_nil|].
    split; [unfold conn_of; case_bool_decide; [lia|done]|]. split; [done|]. split; [done|]. split; [done|]. split; [done|]. by right.
  - cbn [ts_next_id ts_free_ids ts_set_ids]. apply NoDup_cons in Hf as [Hnin Hf].
    destruct (Hfd id) as [Hr Hdead]; [by left|].
    split; [split; cbn; [done|lia|done|done|done|intros j Hj; apply Hfd; by right]|].
    split; [lia|]. split; [done|]. split; [done|]. split; [done|]. split; [done|]. split; [done|]. split; [done|]. by left.
Qed.
End Table.

(** ** The specification: a finite map from ids to connections *)

Inductive srv_call := Accept (timeout_ms : Z) | CloseClient (id : Z).
Inductive srv_answer := Accepted (id : option Z) | Closed (code : Z).

Inductive map_step {T} (m : gmap Z (zcio_tcp_conn T)) : srv_call → srv_answer → gmap Z (zcio_tcp_conn T) → Prop :=
  | spec_accept t id c : m !! id = None → map_step m (Accept t) (Accepted (Some id)) (<[id := c]> m)
  | spec_no_client t : map_step m (Accept t) (Accepted None) m
  | spec_close id c : m !! id = Some c → map_step m (CloseClient id) (Closed ZCIO_OK) (delete id m)
  | spec_unknown id : m !! id = None → map_step m (CloseClient id) (Closed ZCIO_ERR_INVALID_ARG) m.

Section Refinement.
Context {W C T : Type} `{!Sys W} {clk : W → Z} {late : Z} `{!SysTime W clk late} `{!SysIo W}.
Context `{!OverlayFree W T} `{Allocator}.
Abbreviation srv := (zcio_tcp_server C T).
Abbreviation conns := (gmap Z (zcio_tcp_conn T)).
Variable l : tls_lib W C tcp_sockctx T.
(** Over a socket that fits an [fd_set] the backend's handshake returns, with a
    stream it can destroy ([ov_ok]); with TLS the accepted sockets fit. *)
Variable ov_ok : T → Prop.
Hypothesis wrap_ends : ∀ w c p is_server verify f, backend_op l tb_wrap = Some f → 0 ≤ t_fd p < FD_SETSIZE →
  ∃ w' r, f w c p is_server verify = Ok (w', r) ∧ (∀ t, r = inr t → ov_ok t).
Hypothesis free_ends : ∀ w t, ov_ok t → ∃ w', overlay_free w t = Ok w'.
Variable the_ctx : option C.
Hypothesis accept_fits : the_ctx ≠ None → ∀ w fd w' c, sys_accept w fd = (w', Done c) → c < FD_SETSIZE.

Definition srv_op (w : W) (s : srv) (o : srv_call) : exec (W * option srv * srv_answer) :=
  match o with
  | Accept t => '(w, s, id) ← zcio_tcp_server_accept w l (Some s) t; Ok (w, s, Accepted id)
  | CloseClient id => '(w, s, code) ← zcio_tcp_server_close_client w (Some s) id; Ok (w, s, Closed code)
  end.

Definition stream_ok (s : net_stream tcp_sockctx T) : Prop :=
  match s with Plain _ => True | Overlay t => ov_ok t end.

(** The map a server holds; how many calls drew an id bounds its table. *)
Record holds_map (N : Z) (m : conns) (s : srv) : Prop := {
  hm_wf : srv_wf N s;
  hm_conns : ∀ id, m !! id = conn_of s id;
  hm_fd : 0 ≤ ts_listen_fd s < FD_SETSIZE;
  hm_ok : map_Forall (λ _ c, stream_ok (n_stream c)) m;
  hm_ctx : ts_tls_ctx s = the_ctx;
}.

(** No id is lost: every id drawn is live or free. *)
Record tight (m : conns) (s : srv) : Prop := {
  ti_next : ts_next_id s = Z.of_nat (size m) + zlen (ts_free_ids s);
  ti_cap : zlen (ts_free_ids s) ≤ ts_free_cap s ≤ Z.max 8 (2 * ts_next_id s);
}.

Lemma stream_free_ends w (s : net_stream tcp_sockctx T) : stream_ok s → ∃ w', stream_free w s = Ok w'.
Proof. destruct s as [p|t]; cbn; [by eexists|apply free_ends]. Qed.

Lemma tls_wrap_ends w c p is_server verify : 0 ≤ t_fd p < FD_SETSIZE →
  ∃ w' r, zcio_tls_wrap w l c p is_server verify = Ok (w', r) ∧ (∀ t, r = inr t → ov_ok t).
Proof.
  intros Hp. unfold zcio_tls_wrap. destruct (backend_op l tb_wrap) as [f|] eqn:E; [|by eexists _, _].
  by apply (wrap_ends _ _ _ _ _ f eq_refl).
Qed.

(** What one call leaves, in terms of the map. *)
Definition call_done (N : Z) (m : conns) (s : srv) (o : srv_call) (s' : srv) (a : srv_answer) : Prop :=
  ∃ m', map_step m o a m' ∧ holds_map (N + 1) m' s' ∧
    ((∀ n, alloc_ok n = true) → tight m s →
      tight m' s' ∧ (ts_next_id s' = ts_next_id s ∨ ts_next_id s' = Z.of_nat (size m'))).

Lemma call_idle N m s t : holds_map N m s → call_done N m s (Accept t) s (Accepted None).
Proof.
  intros [Hwf Hm Hfd Hok Hctx]. exists m. split; [constructor|]. split; [split; [eapply wf_mono; [|done]; lia|done..]|].
  intros _ Ht. split; [done|by left].
Qed.

Lemma register_spec N m s w t cfd use : holds_map N m s → N < 2 ^ 60 - 1 → stream_ok use →
  ∃ w' s' id, register_conn w s cfd use = Ok (w', s', id) ∧ call_done N m s (Accept t) s' (Accepted id).
Proof.
  intros Hh HN Huse. pose proof Hh as [Hwf Hm Hfd Hall Hctx]. unfold register_conn.
  destruct (zcio_xcalloc_ok 1 16); cbn [mbind exec_bind].
  2:{ destruct (stream_free_ends w use Huse) as (w' & ->). eexists _, _, _. split; [done|]. by apply call_idle. }
  pose proof (accept_id_spec N s Hwf ltac:(lia)) as Ha. destruct (accept_id s) as [s1 id].
  destruct Ha as (Hwf1 & Hid & Hfree & Hdead & Hc1 & Hl1 & Ht1 & Hcap1 & Hids).
  destruct (server_store_spec (N + 1) s1 id (mk_tconn cfd use) Hwf1 ltac:(lia) Hid Hfree)
    as (s2 & rc & -> & Hwf2 & Hn2 & Hf2 & Hbad & Hok & Hc2 & Hl2 & Ht2 & Hcap2). cbn [mbind exec_bind].
  destruct (Z.eqb_spec rc ZCIO_OK) as [Erc|Erc].
  - eexists _, _, _. split; [done|]. exists (<[id:=mk_tconn cfd use]> m).
    assert (m !! id = None) as Hmid by (by rewrite Hm). split; [by constructor|].
    split.
    + split; [done| |by rewrite Hl2, Hl1|by apply map_Forall_insert_2|by rewrite Ht2, Ht1]. intros j. rewrite (Hc2 Erc), Hc1, <- Hm. case_bool_decide as Hj.
      * subst j. apply lookup_insert_eq.
      * by rewrite lookup_insert_ne.
    + intros _ [Hti Hca]. pose proof (map_size_insert_None id (mk_tconn cfd use) m Hmid) as Hsz. rewrite Hsz. pose proof (wf_next _ _ Hwf).
      destruct Hids as [(Ef & En)|(Ef & Ef1 & En)].
      * rewrite Ef in Hti, Hca. cbn [length] in Hti, Hca. split; [split; rewrite ?Hsz, Hn2, ?Hf2, ?Hcap2, ?Hcap1, En; lia|]. left. congruence.
      * rewrite Ef in Hti, Hca. cbn [length] in Hti, Hca. split; [split; rewrite ?Hsz, Hn2, ?Hf2, ?Hcap2, ?Hcap1, En, ?Ef1; cbn [length]; lia|]. right. rewrite Hn2, En. lia.
  - destruct (stream_free_ends w use Huse) as (w' & ->). cbn [mbind exec_bind]. eexists _, _, _. split; [done|].
    rewrite (Hbad Erc). exists m. split; [constructor|]. split; [split; [done| |by rewrite Hl1|done|by rewrite Ht1]; intros j; by rewrite Hc1, Hm|].
    intros Ha. by destruct (Erc (Hok Ha)).
Qed.

Lemma accept_spec N m s w t : holds_map N m s → N < 2 ^ 60 - 1 →
  ∃ w' s' a, srv_op w s (Accept t) = Ok (w', Some s', a) ∧ call_done N m s (Accept t) s' a.
Proof.
  intros Hh HN. pose proof (call_idle N m s t Hh) as Hidle. unfold srv_op, zcio_tcp_server_accept, tcp_wait.
  destruct (select_total (clk := clk) (late := late) w (ts_listen_fd s) true false t) as (w1 & rc & r1 & r2 & -> & _).
  { apply fd_in_set, Hh. }
  cbn [mbind exec_bind]. bcase; [by eexists _, _, _|]. destruct (negb _); [by eexists _, _, _|].
  destruct (retry_spec (λ w, sys_accept w (ts_listen_fd s))) with (w := w1) as (w2 & w3 & r & -> & Eacc & _).
  { intros v v' x. apply accept_signals. }
  cbn [mbind exec_bind]. destruct r as [e|cfd]; [by eexists _, _, _|]. unfold zcio_socket_nosigpipe.
  destruct (zcio_set_nonblocking w3 cfd true) as [w4 nb].
  destruct (tcp_make_plain_stream cfd) as [plain|] eqn:Epl; [|by eexists _, _, _].
  destruct (ts_tls_ctx s) as [ctx|] eqn:Ectx.
  - destruct (tls_wrap_ends w4 (Some ctx) plain true false) as (w5 & [p|o] & -> & Hov).
    { unfold tcp_make_plain_stream in Epl. destruct (zcio_xcalloc_ok 1 12), (alloc_ok 24); [injection Epl as <-|done..].
      cbn. split; [by eapply accept_fd|]. eapply accept_fits; [by rewrite <- (hm_ctx _ _ _ Hh), Ectx|done]. }
    { cbn [mbind exec_bind]. by eexists _, _, _. }
    cbn [mbind exec_bind]. destruct (register_spec N m s w5 t cfd (Overlay o) Hh HN (Hov o eq_refl)) as (w6 & s6 & id & -> & Hd). by eexists _, _, _.
  - destruct (register_spec N m s w4 t cfd (Plain plain) Hh HN I) as (w6 & s6 & id & -> & Hd). by eexists _, _, _.
Qed.

(** Taking a connection out of its slot and giving its id back. *)
Lemma reclaim_spec N (s : srv) id e c : srv_wf N s → N < 2 ^ 60 → 0 ≤ id < ts_slots_len s →
  ts_slots s !! Z.to_nat id = Some e → cs_conn e = Some c →
  let s' := reclaim_id (ts_set_slots (<[Z.to_nat id := mk_slot (cs_id e) None]> (ts_slots s)) (ts_slots_len s) s) id in
  srv_wf N s' ∧ (∀ j, conn_of s' j = if bool_decide (j = id) then None else conn_of s j) ∧
  ts_listen_fd s' = ts_listen_fd s ∧ ts_next_id s' = ts_next_id s ∧
  ((∀ n, alloc_ok n = true) → zlen (ts_free_ids s) < ts_next_id s → zlen (ts_free_ids s) ≤ ts_free_cap s ≤ Z.max 8 (2 * ts_next_id s) →
    ts_free_ids s' = id :: ts_free_ids s ∧ zlen (ts_free_ids s) + 1 ≤ ts_free_cap s' ≤ Z.max 8 (2 * ts_next_id s)).
Proof.
  intros [Hl Hn Hc Hd Hf Hfd] HN Hid He Hec s'.
  assert (conn_of s id = Some c) as Hlive by (unfold conn_of; rewrite bool_decide_true by done; rewrite He; done).
  assert (∀ j, conn_of s' j = if bool_decide (j = id) then None else conn_of s j) as Hconn.
  { intros j. unfold s', conn_of, reclaim_id. cbn [ts_slots_len ts_slots ts_set_slots ts_set_ids].
    case_bool_decide as Hj; [|by case_bool_decide]. case_bool_decide as Hji.
    - subst j. rewrite list_lookup_insert_eq by lia. done.
    - rewrite list_lookup_insert_ne by lia. done. }
  assert (ts_free_ids s' = ts_free_ids s ∨ ts_free_ids s' = id :: ts_free_ids s) as Hids.
  { unfold s', reclaim_id. cbn [ts_free_ids ts_set_ids ts_set_slots]. destruct (_ <? _); tauto. }
  split; [|split; [done|]].
  - assert (ts_slots s' = <[Z.to_nat id := mk_slot (cs_id e) None]> (ts_slots s)) as E1 by done.
    assert (ts_slots_len s' = ts_slots_len s ∧ ts_next_id s' = ts_next_id s) as [E2 E3] by done.
    clearbody s'. split; rewrite ?E1, ?E2, ?E3.
    + rewrite length_insert. lia.
    + done.
    + by rewrite length_insert.
    + intros i e' Hi Hge. rewrite list_lookup_insert_ne in Hi by lia. by eapply Hd.
    + destruct Hids as [->| ->]; [done|]. apply NoDup_cons. split; [|done]. intros [_ Hx]%Hfd. congruence.
    + intros j Hj. rewrite Hconn. destruct Hids as [Hi|Hi]; rewrite Hi in Hj.
      * destruct (Hfd j Hj) as [? ?]. split; [done|]. by case_bool_decide.
      * apply elem_of_cons in Hj as [->|Hj]; [split; [done|by rewrite bool_decide_true]|].
        destruct (Hfd j Hj) as [? ?]. split; [done|]. by case_bool_decide.
  - split; [done|]. split; [done|]. intros Ha Hlen Hcap. unfold s', reclaim_id.
    cbn [ts_free_ids ts_set_ids ts_set_slots ts_free_cap]. rewrite Ha.
    destruct (Z.leb_spec (ts_free_cap s) (zlen (ts_free_ids s))).
    + destruct (Z.eqb_spec (ts_free_cap s) 0) as [E0|E0].
      * rewrite (proj2 (Z.ltb_lt _ _)) by lia. split; [done|lia].
      * rewrite wrap_small by lia. rewrite (proj2 (Z.ltb_lt _ _)) by lia. split; [done|lia].
    + rewrite (proj2 (Z.ltb_lt _ _)) by lia. split; [done|lia].
Qed.

Lemma close_spec N m s w id : holds_map N m s → N < 2 ^ 60 → 0 ≤ id →
  ∃ w' s' a, srv_op w s (CloseClient id) = Ok (w', Some s', a) ∧ call_done N m s (CloseClient id) s' a.
Proof.
  intros [Hwf Hm Hfd Hall Hctx] HN Hid. unfold srv_op, zcio_tcp_server_close_client.
  assert (m !! id = None → call_done N m s (CloseClient id) s (Closed ZCIO_ERR_INVALID_ARG)) as Hunk.
  { intros Hn. exists m. split; [by constructor|]. split; [split; [eapply wf_mono; [|done]; lia|done..]|].
    intros _ Ht. split; [done|by left]. }
  pose proof (wf_len _ _ Hwf) as Hlen. destruct (Z.leb_spec (ts_slots_len s) id) as [Hge|Hlt]; cbn [mbind exec_bind].
  { eexists _, _, _. split; [done|]. apply Hunk. rewrite Hm. unfold conn_of. rewrite bool_decide_false by lia. done. }
  destruct (lookup_lt_is_Some_2 (ts_slots s) (Z.to_nat id)) as [e He]; [lia|]. rewrite He.
  destruct (cs_conn e) as [c|] eqn:Ec; cbn [mbind exec_bind].
  2:{ eexists _, _, _. split; [done|]. apply Hunk. rewrite Hm. unfold conn_of. rewrite bool_decide_true by lia. by rewrite He. }
  assert (m !! id = Some c) as Hmid by (rewrite Hm; unfold conn_of; rewrite bool_decide_true by lia; by rewrite He).
  destruct (stream_free_ends w (n_stream c) (Hall id c Hmid)) as (w' & ->). cbn [mbind exec_bind].
  destruct (reclaim_spec N s id e c Hwf HN) as (Hwf' & Hc' & Hl' & Hn' & Hti); [lia|done..|].
  eexists _, _, _. split; [done|]. exists (delete id m).
  split; [by econstructor|]. split.
  - split; [eapply wf_mono; [|done]; lia| |by rewrite Hl'|by apply map_Forall_delete|done]. intros j. rewrite Hc'. case_bool_decide as Hj.
    + subst j. apply lookup_delete_eq.
    + rewrite lookup_delete_ne by done. apply Hm.
  - intros Ha [Ht1 Ht2]. pose proof (map_size_delete_Some id m (mk_is_Some _ _ Hmid)) as Hsz.
    assert (size m ≠ 0%nat) as Hne by (intros Hz; apply map_size_empty_inv in Hz; subst m; done).
    destruct (Hti Ha) as [Hi Hcap]; [lia|done|]. split; [|by left]. split.
    + rewrite Hn', Hi. cbn [length]. lia.
    + rewrite Hn', Hi. cbn [length]. lia.
Qed.
(** A sequence of calls on one server. *)
Fixpoint srv_calls (w : W) (s : srv) (ops : list srv_call) : exec (W * srv * list srv_answer) :=
  match ops with
  | [] => Ok (w, s, [])
  | o :: ops =>
      '(w, s', a) ← srv_op w s o;
      match s' with
      | None => Fault
      | Some s => '(w, s, answers) ← srv_calls w s ops; Ok (w, s, a :: answers)
      end
  end.

Definition call_ok (o : srv_call) : Prop := match o with CloseClient id => 0 ≤ id | Accept _ => True end.

Lemma srv_op_spec N m s w o : holds_map N m s → N < 2 ^ 60 - 1 → call_ok o →
  ∃ w' s' a, srv_op w s o = Ok (w', Some s', a) ∧ call_done N m s o s' a.
Proof.
  intros Hh HN Ho. destruct o as [t|id]; [by apply accept_spec|]. apply close_spec; [done|lia|done].
Qed.
End Refinement.

(** A run of the specification, and the most connections it ever held. *)
Inductive map_run {T} : gmap Z (zcio_tcp_conn T) → list srv_call → list srv_answer → gmap Z (zcio_tcp_conn T) → Z → Prop :=
  | run_nil m : map_run m [] [] m (Z.of_nat (size m))
  | run_cons m o a m1 ops answers m2 peak :
      map_step m o a m1 → map_run m1 ops answers m2 peak →
      map_run m (o :: ops) (a :: answers) m2 (Z.max (Z.of_nat (size m)) peak).

Section Runs.
Context {W C T : Type} `{!Sys W} {clk : W → Z} {late : Z} `{!SysTime W clk late} `{!SysIo W}.
Context `{!OverlayFree W T} `{Allocator}.
Variable l : tls_lib W C tcp_sockctx T.
Variable ov_ok : T → Prop.
Hypothesis wrap_ends : ∀ w c p is_server verify f, backend_op l tb_wrap = Some f → 0 ≤ t_fd p < FD_SETSIZE →
  ∃ w' r, f w c p is_server verify = Ok (w', r) ∧ (∀ t, r = inr t → ov_ok t).
Hypothesis free_ends : ∀ w t, ov_ok t → ∃ w', overlay_free w t = Ok w'.
Variable the_ctx : option C.
Hypothesis accept_fits : the_ctx ≠ None → ∀ w fd w' c, sys_accept w fd = (w', Done c) → c < FD_SETSIZE.

Lemma srv_calls_spec ops N m (s : zcio_tcp_server C T) w : holds_map ov_ok the_ctx N m s → N + zlen ops < 2 ^ 60 → Forall call_ok ops →
  ∃ w' s' answers m' peak, srv_calls l w s ops = Ok (w', s', answers) ∧ map_run m ops answers m' peak ∧
    holds_map ov_ok the_ctx (N + zlen ops) m' s' ∧
    ((∀ n, alloc_ok n = true) → tight m s → ∀ P, ts_next_id s ≤ P → ts_next_id s' ≤ Z.max P peak).
Proof.
  revert N m s w. induction ops as [|o ops IH]; intros N m s w Hh HN Hops.
  - exists w, s, [], m, (Z.of_nat (size m)). split; [done|]. split; [constructor|]. split; [by rewrite Z.add_0_r|]. lia.
  - apply Forall_cons_1 in Hops as [Ho Hops]. cbn [length] in HN. cbn [srv_calls].
    destruct (srv_op_spec (clk := clk) (late := late) l ov_ok wrap_ends free_ends the_ctx accept_fits N m s w o Hh) as (w1 & s1 & a & -> & m1 & Hstep & Hh1 & Ht);
      [lia|done|]. cbn [mbind exec_bind].
    destruct (IH (N + 1) m1 s1 w1 Hh1) as (w2 & s2 & answers & m2 & peak & -> & Hrun & Hh2 & Hp); [lia|done|].
    eexists _, _, _, m2, _. split; [done|]. split; [by econstructor|].
    split; [cbn [length]; by replace (N + Z.of_nat (S (length ops))) with (N + 1 + zlen ops) by lia|].
    intros Ha Hti P HP. destruct (Ht Ha Hti) as [Ht1 Hn1].
    assert (Z.of_nat (size m1) ≤ peak) as Hpk by (inversion Hrun; subst; lia).
    specialize (Hp Ha Ht1 (Z.max P peak)). destruct Hn1 as [Hn1|Hn1]; lia.
Qed.

Lemma fresh_server w fd ctx nb w' (s : zcio_tcp_server C T) : tcp_server_wrap w fd ctx nb = (w', Some s) → 0 ≤ fd < FD_SETSIZE →
  holds_map ov_ok ctx 0 ∅ s ∧ tight ∅ s ∧ ts_next_id s = 0.
Proof.
  unfold tcp_server_wrap. destruct (zcio_xcalloc_ok 1 80); [|done]. intros [= <- <-] Hfd.
  split; [|split; [split; cbn [ts_next_id ts_free_ids ts_free_cap length]; rewrite ?map_size_empty; lia|done]]. split; [split; cbn; [lia|lia|lia|done|constructor|by intros id ?%not_elem_of_nil]| |done|apply map_Forall_empty|done].
  intros id. rewrite lookup_empty. unfold conn_of. cbn. by case_bool_decide.
Qed.
End Runs.

(** ** Properties *)

(** C20: A read or a write on a non-blocking socket stream returns within its
    timeout whatever signals arrive, and what it does is exactly what the rules
    of [reads] and [writes] say: an interrupted wait goes on with the time left,
    an interrupted transfer is tried again, and the first answer that is not an
    interruption decides - a failed wait [ZCIO_ERR], an expired one
    [ZCIO_ERR_TIMEOUT], no data yet [ZCIO_ERR_WOULDBLOCK], the end of the stream
    0 and its loss [ZCIO_ERR_EOF], both with the end-of-file flag.  It moves no
    more than it was asked to.  (The socket is below [FD_SETSIZE] and [recv] and
    [send] on it take no time, as on every socket the library makes
    non-blocking.) *)
Theorem tcp_io_contract `{Hw : !Sys W} clk late (Ht : SysTime W clk late) (Hio : SysIo W) s w n p
  (Hfd : 0 ≤ t_fd s < FD_SETSIZE) (Htm : 0 ≤ t_timeout_ms s) (Hn : 0 ≤ n)
  (Hrecv : ∀ w n w' r, sys_recv w (t_fd s) n = (w', r) → clk w' = clk w)
  (Hsend : ∀ w p w' r, sys_send w (t_fd s) p = (w', r) → clk w' = clk w) :
  (∃ w' s' r d, tcp_s_read (w, s) n = Ok (w', s', r, d) ∧ reads w s n w' s' r d ∧
     clk w' ≤ clk w + t_timeout_ms s + late ∧ same_socket s s' ∧
     ((0 < r ≤ n ∧ zlen d = r ∧ is_bytes d ∧ s' = s) ∨ (io_code r ∧ d = [])) ∧
     (t_eof s' = true ↔ t_eof s = true ∨ (t_gone s = false ∧ (r = 0 ∨ r = ZCIO_ERR_EOF)))) ∧
  (∃ w' s' r, tcp_s_write (w, s) p = Ok (w', s', r) ∧ writes w s p w' s' r ∧
     clk w' ≤ clk w + t_timeout_ms s + late ∧ same_socket s s' ∧ (0 < r ≤ zlen p ∨ io_code r) ∧
     (t_eof s' = true ↔ t_eof s = true ∨ (t_gone s = false ∧ r = ZCIO_ERR_EOF))).
Proof.
  assert (∀ w fd rd wr tv w' rc a b, sys_select w fd rd wr tv = (w', Done (rc, a, b)) → 0 ≤ rc) as Hsel
    by (intros *; by apply (select_flags (clk := clk) (late := late))).
  split.
  - destruct (tcp_read_spec (clk := clk) (late := late) s Hfd Htm Hrecv w n Hn) as (w' & s' & r & d & E & R).
    exists w', s', r, d. split; [done|]. split; [by apply (tcp_read_reads s Htm Hsel)|done].
  - destruct (tcp_write_spec (clk := clk) (late := late) s Hfd Htm Hsend w p) as (w' & s' & r & E & R).
    exists w', s', r. split; [done|]. split; [by apply (tcp_write_writes s Htm Hsel)|done].
Qed.

Lemma ex_recv_now w fd n w' r : sys_recv (W := ex_os) w fd n = (w', r) → os_clk w' = os_clk w.
Proof.
  cbn. unfold os_next, os_call. destruct (os_signals w); [destruct (os_rx w) as [|[? ?] ?]|]; intros [= <- <-]; unfold os_clk; cbn; lia.
Qed.

Lemma ex_send_now w fd p w' r : sys_send (W := ex_os) w fd p = (w', r) → os_clk w' = os_clk w.
Proof. cbn. unfold os_put, os_call. destruct (os_signals w); intros [= <- <-]; unfold os_clk; cbn; lia. Qed.

(** Seven signals, then five bytes of which three are asked for. *)
Lemma tcp_io_contract_witness :
  let w := mk_os 0 7 true [(B "hello", mk_sin 1 1)] [] 0 [5] [] in
  let s := mk_tcp 5 30000 false false in
  (∃ w' s' r d, tcp_s_read (w, s) 3 = Ok (w', s', r, d) ∧ reads w s 3 w' s' r d ∧
     os_clk w' ≤ os_clk w + t_timeout_ms s + 1 ∧ same_socket s s' ∧
     ((0 < r ≤ 3 ∧ zlen d = r ∧ is_bytes d ∧ s' = s) ∨ (io_code r ∧ d = [])) ∧
     (t_eof s' = true ↔ t_eof s = true ∨ (t_gone s = false ∧ (r = 0 ∨ r = ZCIO_ERR_EOF)))) ∧
  (∃ w' s' r, tcp_s_write (w, s) (B "abc") = Ok (w', s', r) ∧ writes w s (B "abc") w' s' r ∧
     os_clk w' ≤ os_clk w + t_timeout_ms s + 1 ∧ same_socket s s' ∧ (0 < r ≤ zlen (B "abc") ∨ io_code r) ∧
     (t_eof s' = true ↔ t_eof s = true ∨ (t_gone s = false ∧ r = ZCIO_ERR_EOF))).
Proof.
  intros w s. apply (tcp_io_contract os_clk 1 ex_time ex_io s w 3 (B "abc")); cbn; unfold FD_SETSIZE; try lia.
  - exact (λ v n v' r, ex_recv_now v 5 n v' r).
  - exact (λ v p v' r, ex_send_now v 5 p v' r).
Defined.

(** A request of [2 ^ 32] bytes is cast to 0, and the empty answer is taken for
    the end of the stream. *)
Example huge_read_is_eof :
  let w := mk_os 0 0 true [(B "hello", mk_sin 1 1)] [] 0 [5] [] in
  tcp_s_read (w, mk_tcp 5 0 false false) (2 ^ 32) =
  Ok (mk_os 0 0 true [] [] 0 [5] [], mk_tcp 5 0 false true, 0, []).
Proof. reflexivity. Qed.

(** C19: For every sequence of accepts and closes, on any network and with any
    TLS backend that returns, a server's table is a finite map from ids to
    connections: an accepted connection gets an id that no live connection has,
    closing removes exactly its id, and an unknown id is refused.  While
    memory lasts ids are reused, so no more are drawn, and no more than twice
    as many slots are kept, as there were connections open at once. *)
Theorem tcp_server_ids {C T} `{Hw : !Sys W} clk late (Ht : SysTime W clk late) (Hio : SysIo W)
  (Ho : OverlayFree W T) (Ha : Allocator) (l : tls_lib W C tcp_sockctx T) w fd ctx nb w0 s ops
  (ov_ok : T → Prop)
  (Hwrap : ∀ w c p is_server verify f, backend_op l tb_wrap = Some f → 0 ≤ t_fd p < FD_SETSIZE →
     ∃ w' r, f w c p is_server verify = Ok (w', r) ∧ (∀ t, r = inr t → ov_ok t))
  (Hfree : ∀ w t, ov_ok t → ∃ w', overlay_free w t = Ok w')
  (Hacc : ctx ≠ None → ∀ w fd w' c, sys_accept w fd = (w', Done c) → c < FD_SETSIZE)
  (Hnew : tcp_server_wrap w fd ctx nb = (w0, Some s)) (Hfd : 0 ≤ fd < FD_SETSIZE)
  (Hops : Forall call_ok ops) (Hcount : zlen ops < 2 ^ 60) :
  ∃ w' s' answers m peak, srv_calls l w0 s ops = Ok (w', s', answers) ∧
    map_run ∅ ops answers m peak ∧ (∀ id, m !! id = conn_of s' id) ∧
    ((∀ n, alloc_ok n = true) → ts_next_id s' ≤ peak ∧ zlen (ts_slots s') ≤ Z.max 8 (2 * peak)).
Proof.
  destruct (fresh_server ov_ok w fd ctx nb w0 s Hnew Hfd) as (Hh & Hti & Hn).
  destruct (srv_calls_spec (clk := clk) (late := late) l ov_ok Hwrap Hfree ctx Hacc ops 0 ∅ s w0 Hh)
    as (w' & s' & answers & m & peak & E & Hrun & [Hwf Hm _ _ _] & Hp); [lia|done|].
  exists w', s', answers, m, peak. split; [done|]. split; [done|]. split; [done|]. intros Hall.
  assert (0 ≤ peak) as Hpk by (inversion Hrun; subst; lia).
  specialize (Hp Hall Hti 0 ltac:(lia)). pose proof (wf_cap _ _ Hwf). lia.
Qed.

(** Three clients come, the middle one is closed twice, and another comes. *)
Lemma tcp_server_ids_witness :
  let w := mk_os 0 0 true [] [] 9 [3] [] in
  let Ho : OverlayFree ex_os unit := λ w _, Ok w in
  let l := mk_lib (C := unit) true (Some (g_none_backend (W := ex_os) (C := unit) (P := tcp_sockctx) (T := unit))) in
  let s := mk_tsrv (C := unit) (T := unit) 3 None true 0 [] 0 [] 0 in
  let ops := [Accept 10; Accept 10; Accept 10; CloseClient 1; CloseClient 1; Accept 10] in
  let Ha := always_alloc in
  (match srv_calls l w s ops with
   | Ok (_, s', answers) => answers = [Accepted (Some 0); Accepted (Some 1); Accepted (Some 2); Closed ZCIO_OK;
                                       Closed ZCIO_ERR_INVALID_ARG; Accepted (Some 1)] ∧ ts_next_id s' = 3
   | _ => False
   end) ∧
  ∃ w' s' answers m peak, srv_calls l w s ops = Ok (w', s', answers) ∧
    map_run ∅ ops answers m peak ∧ (∀ id, m !! id = conn_of s' id) ∧
    ((∀ n, alloc_ok n = true) → ts_next_id s' ≤ peak ∧ zlen (ts_slots s') ≤ Z.max 8 (2 * peak)).
Proof.
  intros w Ho l s ops Ha. split; [vm_compute; done|].
  apply (tcp_server_ids os_clk 1 ex_time ex_io Ho Ha l w 3 None true w s ops (λ _, True)).
  - intros w1 c p sv vf f [= <-] _. eexists _, _. split; [reflexivity|]. discriminate.
  - intros w1 t _. by eexists.
  - by intros [].
  - reflexivity.
  - unfold FD_SETSIZE. lia.
  - unfold ops. repeat first [apply List.Forall_nil | apply List.Forall_cons]; cbn; done || lia.
  - cbn. lia.
Defined.

(** When the table cannot grow, the id that was drawn is neither live nor free. *)
Example failed_store_loses_id :
  let w := mk_os 0 0 true [] [] 9 [3] [] in
  let Ho : OverlayFree ex_os unit := λ w _, Ok w in
  let l := mk_lib (C := unit) true (Some (g_none_backend (W := ex_os) (C := unit) (P := tcp_sockctx) (T := unit))) in
  let s := mk_tsrv (C := unit) (T := unit) 3 None true 0 [] 0 [] 0 in
  let Ha : Allocator := {| alloc_ok n := n <? 100; junk := 0 |} in
  match srv_calls l w s [Accept 10] with
  | Ok (_, s', answers) => answers = [Accepted None] ∧ ts_next_id s' = 1 ∧ ts_free_ids s' = []
  | _ => False
  end.
Proof. vm_compute. done. Qed.
