(* ===== verification/Udp.v ===== *)
(** * Udp: datagram sockets ([src/udp.c]) and multicast ([src/mcast.c])

    A client stream sends to one peer; a server routes each datagram to the
    buffer of the peer it came from, whose packet is its position in the
    server's table (entries are never removed); multicast streams send to, or
    receive from, a group. *)
From stdpp Require Import base tactics list option strings.
From Stdlib Require Import ZArith Lia.
From S2P Require Import Prelude Types Stream Sock Dns.

Definition UDP_RECV_BUF : Z := 65535.

Section Udp.
Context {W : Type} `{!Sys W}.

Definition sock_gone (closed : bool) (fd : Z) : bool := closed || (fd =? ZCIO_INVALID_SOCKET).

(** The reads of a datagram socket: one [recvfrom], whatever the sender. *)
Definition datagram_read (w : W) (fd n : Z) : exec (W * Z * bytes) :=
  '(w, got) ← retry (λ w, sys_recvfrom w fd (int_len n)) w;
  match got with
  | Done (d, _) => Ok (w, zlen d, d)
  | Failed EAGAIN => Ok (w, ZCIO_ERR_WOULDBLOCK, [])
  | Failed _ => Ok (w, ZCIO_ERR, [])
  end.

Definition datagram_write (w : W) (fd : Z) (peer : sockaddr_in) (src : bytes) : W * Z :=
  match sys_sendto w fd (ztake (int_len (zlen src)) src) peer with
  | (w, Failed _) => (w, ZCIO_ERR)
  | (w, Done sent) => (w, sent)
  end.

(** ** Client stream *)

Record udp_clictx := mk_ucli { u_fd : Z; u_peer : sockaddr_in; u_closed : bool }.

Definition udp_cli_read (c : W * udp_clictx) (n : Z) : exec (W * udp_clictx * Z * bytes) :=
  let '(w, s) := c in
  if sock_gone (u_closed s) (u_fd s) then Ok (w, s, ZCIO_ERR_EOF, [])
  else '(w, r, d) ← datagram_read w (u_fd s) n; Ok (w, s, r, d).

Definition udp_cli_write (c : W * udp_clictx) (src : bytes) : exec (W * udp_clictx * Z) :=
  let '(w, s) := c in
  if sock_gone (u_closed s) (u_fd s) then Ok (w, s, ZCIO_ERR_EOF)
  else let '(w, r) := datagram_write w (u_fd s) (u_peer s) src in Ok (w, s, r).

Definition udp_cli_close (c : W * udp_clictx) : W * udp_clictx * Z :=
  let '(w, s) := c in
  if negb (sock_gone (u_closed s) (u_fd s))
  then (closesocket w (u_fd s), mk_ucli ZCIO_INVALID_SOCKET (u_peer s) true, ZCIO_OK)
  else (w, s, ZCIO_OK).

Definition udp_cli_destroy (w : W) (s : udp_clictx) : W :=
  if negb (sock_gone (u_closed s) (u_fd s)) then closesocket w (u_fd s) else w.

Definition UDP_CLI_VT : zcio_stream_vtable (W * udp_clictx) := {|
  vt_name := B "udp"; vt_read := Some udp_cli_read; vt_write := Some udp_cli_write;
  vt_seek := None; vt_flush := None; vt_close := Some udp_cli_close; vt_destroy := true;
  vt_available := None; vt_eof := None |}.

(** ** Packet stream: one peer of a server *)

(** [p_buf] has [buf_cap] bytes. *)
Record udp_pktctx := mk_pkt {
  p_fd : Z;
  p_peer : sockaddr_in;
  p_buf : bytes;
  p_len : Z;
  p_pos : Z;
}.

Definition udp_pkt_read (c : W * udp_pktctx) (n : Z) : exec (W * udp_pktctx * Z * bytes) :=
  let '(w, p) := c in
  let avail := u64 (p_len p - p_pos p) in
  if avail =? 0 then Ok (w, p, ZCIO_ERR_WOULDBLOCK, [])
  else
    let k := if avail <? n then avail else n in
    d ← mem_read (p_pos p) k (p_buf p);
    Ok (w, mk_pkt (p_fd p) (p_peer p) (p_buf p) (p_len p) (p_pos p + k), k, d).

Definition udp_pkt_write (c : W * udp_pktctx) (src : bytes) : exec (W * udp_pktctx * Z) :=
  let '(w, p) := c in
  if p_fd p =? ZCIO_INVALID_SOCKET then Ok (w, p, ZCIO_ERR_EOF)
  else let '(w, r) := datagram_write w (p_fd p) (p_peer p) src in Ok (w, p, r).

Definition udp_pkt_available (c : W * udp_pktctx) : Z := let '(_, p) := c in p_len p - p_pos p.

(** Destroying it frees the buffer; the socket is the server's. *)
Definition UDP_PKT_VT : zcio_stream_vtable (W * udp_pktctx) := {|
  vt_name := B "udp"; vt_read := Some udp_pkt_read; vt_write := Some udp_pkt_write;
  vt_seek := None; vt_flush := None; vt_close := None; vt_destroy := true;
  vt_available := Some udp_pkt_available; vt_eof := None |}.

Context `{Allocator}.

Definition zcio_udp_client_open (w : W) (host : option bytes) (port : Z) : exec (W * option udp_clictx) :=
  match host with
  | None => Ok (w, None)
  | Some _ =>
      '(w, ip) ← zcio_resolve_ipv4 w host;
      match ip with
      | None => Ok (w, None)
      | Some ip =>
          let w := zcio_socket_startup w in
          match sys_socket w AF_INET SOCK_DGRAM 0 with
          | (w, Failed _) => Ok (w, None)
          | (w, Done fd) =>
              let w := zcio_socket_nosigpipe w fd in
              if negb (zcio_xcalloc_ok 1 24) then Ok (closesocket w fd, None)
              else match inet_pton4 ip with
              | None => Ok (closesocket w fd, None)
              | Some a =>
                  let ctx := mk_ucli fd (mk_sin a (u16 port)) false in
                  if negb (alloc_ok 24) then Ok (udp_cli_destroy w ctx, None)
                  else if negb (zcio_xcalloc_ok 1 8) then Ok (udp_cli_destroy w ctx, None)
                  else Ok (w, Some ctx)
              end
          end
      end
  end.

Definition zcio_udp_client_free (w : W) (c : option udp_clictx) : W :=
  match c with None => w | Some c => udp_cli_destroy w c end.

(** ** Server *)

Record zcio_udp_server := mk_usrv {
  us_fd : Z;
  us_peers : list udp_pktctx;
  us_peers_cap : Z;
  us_rcvtimeo_us : Z;
  us_rcvtimeo_set : bool;
}.

Definition us_set_peers (l : list udp_pktctx) (cap : Z) (s : zcio_udp_server) : zcio_udp_server :=
  mk_usrv (us_fd s) l cap (us_rcvtimeo_us s) (us_rcvtimeo_set s).

Definition zcio_udp_server_bind (w : W) (port : Z) : W * option zcio_udp_server :=
  let w := zcio_socket_startup w in
  match sys_socket w AF_INET SOCK_DGRAM 0 with
  | (w, Failed _) => (w, None)
  | (w, Done fd) =>
      let w := zcio_socket_nosigpipe w fd in
      match sys_bind w fd (mk_sin 0 (u16 port)) with
      | (w, Failed _) => (closesocket w fd, None)
      | (w, Done _) =>
          if zcio_xcalloc_ok 1 40 then (w, Some (mk_usrv fd [] 0 0 false)) else (closesocket w fd, None)
      end
  end.

Definition zcio_udp_server_free (w : W) (s : option zcio_udp_server) : W :=
  match s with
  | None => w
  | Some s => if us_fd s =? ZCIO_INVALID_SOCKET then w else closesocket w (us_fd s)
  end.

Fixpoint find_peer (l : list udp_pktctx) (from : sockaddr_in) (i : nat) : option nat :=
  match l with
  | [] => None
  | p :: l =>
      if (sin_addr (p_peer p) =? sin_addr from) && (sin_port (p_peer p) =? sin_port from)
      then Some i else find_peer l from (S i)
  end.

Definition server_peer (s : zcio_udp_server) (from : sockaddr_in) : zcio_udp_server * option nat :=
  match find_peer (us_peers s) from 0 with
  | Some i => (s, Some i)
  | None =>
      if negb (zcio_xcalloc_ok 1 56) then (s, None)
      else if negb (alloc_ok 24) then (s, None)
      else if negb (zcio_xcalloc_ok 1 16) then (s, None)
      else
        let len := zlen (us_peers s) in
        let pk := mk_pkt (us_fd s) from [] 0 0 in
        if us_peers_cap s <=? len then
          let ncap := if us_peers_cap s =? 0 then 8 else u64 (us_peers_cap s * 2) in
          if alloc_ok (u64 (ncap * 8))
          then (us_set_peers (us_peers s ++ [pk]) ncap s, Some (length (us_peers s)))
          else (s, None)
        else (us_set_peers (us_peers s ++ [pk]) (us_peers_cap s) s, Some (length (us_peers s)))
  end.

(** The bytes of a datagram go to the front of the peer's buffer; what was not
    read of the last one is dropped. *)
Definition deliver (p : udp_pktctx) (d : bytes) : exec (option udp_pktctx) :=
  let need := zlen d in
  let buf := if zlen (p_buf p) <? need then
      if alloc_ok need then Some (p_buf p ++ replicate (Z.to_nat (need - zlen (p_buf p))) junk) else None
    else Some (p_buf p) in
  match buf with
  | None => Ok None
  | Some buf => buf ← mem_write 0 d buf; Ok (Some (mk_pkt (p_fd p) (p_peer p) buf need 0))
  end.

Definition set_rcvtimeo (w : W) (s : zcio_udp_server) (non_block : bool) (timeout_us : Z)
  : W * zcio_udp_server :=
  if non_block && (negb (us_rcvtimeo_set s) || negb (us_rcvtimeo_us s =? timeout_us)) then
    let '(w, _) := sys_setsockopt w (us_fd s) (SO_RCVTIMEO (timeout_us / 1000000) (timeout_us mod 1000000)) in
    (w, mk_usrv (us_fd s) (us_peers s) (us_peers_cap s) timeout_us true)
  else (w, s).

Definition zcio_udp_server_receive (w : W) (s : option zcio_udp_server) (non_block : bool) (timeout_us : Z)
  : exec (W * option zcio_udp_server * option nat) :=
  match s with
  | None => Ok (w, None, None)
  | Some s =>
      let '(w, s) := set_rcvtimeo w s non_block timeout_us in
      '(w, got) ← retry (λ w, sys_recvfrom w (us_fd s) UDP_RECV_BUF) w;
      match got with
      | Failed _ | Done ([], _) => Ok (w, Some s, None)
      | Done (d, from) =>
          let '(s, pk) := server_peer s from in
          match pk with
          | None => Ok (w, Some s, None)
          | Some i =>
              match us_peers s !! i with
              | None => Fault
              | Some p =>
                  p' ← deliver p d;
                  match p' with
                  | None => Ok (w, Some s, None)
                  | Some p' => Ok (w, Some (us_set_peers (<[i := p']> (us_peers s)) (us_peers_cap s) s), Some i)
                  end
              end
          end
      end
  end.

(** A read on the stream of packet [i] of the server. *)
Definition packet_read (w : W) (s : zcio_udp_server) (i : nat) (n : Z) : exec (W * zcio_udp_server * Z * bytes) :=
  match us_peers s !! i with
  | None => Fault
  | Some p =>
      '(w, p, r, d) ← udp_pkt_read (w, p) n;
      Ok (w, us_set_peers (<[i := p]> (us_peers s)) (us_peers_cap s) s, r, d)
  end.

(** ** Multicast *)

Record mcast_sctx := mk_ms { ms_fd : Z; ms_group : sockaddr_in; ms_closed : bool }.

Definition mcast_send_write (c : W * mcast_sctx) (src : bytes) : exec (W * mcast_sctx * Z) :=
  let '(w, s) := c in
  if sock_gone (ms_closed s) (ms_fd s) then Ok (w, s, ZCIO_ERR_EOF)
  else let '(w, r) := datagram_write w (ms_fd s) (ms_group s) src in Ok (w, s, r).

Definition mcast_send_close (c : W * mcast_sctx) : W * mcast_sctx * Z :=
  let '(w, s) := c in
  if negb (sock_gone (ms_closed s) (ms_fd s))
  then (closesocket w (ms_fd s), mk_ms ZCIO_INVALID_SOCKET (ms_group s) true, ZCIO_OK)
  else (w, s, ZCIO_OK).

Definition mcast_send_destroy (w : W) (s : mcast_sctx) : W :=
  if negb (sock_gone (ms_closed s) (ms_fd s)) then closesocket w (ms_fd s) else w.

Definition MCAST_SEND_VT : zcio_stream_vtable (W * mcast_sctx) := {|
  vt_name := B "mcast"; vt_read := None; vt_write := Some mcast_send_write;
  vt_seek := None; vt_flush := None; vt_close := Some mcast_send_close; vt_destroy := true;
  vt_available := None; vt_eof := None |}.

Definition zcio_mcast_sender_open (w : W) (group : option bytes) (port : Z) : exec (W * option mcast_sctx) :=
  match group with
  | None => Ok (w, None)
  | Some _ =>
      '(w, ip) ← zcio_resolve_ipv4 w group;
      match ip with
      | None => Ok (w, None)
      | Some ip =>
          let w := zcio_socket_startup w in
          match sys_socket w AF_INET SOCK_DGRAM IPPROTO_UDP with
          | (w, Failed _) => Ok (w, None)
          | (w, Done fd) =>
              let w := zcio_socket_nosigpipe w fd in
              let '(w, _) := sys_setsockopt w fd SO_REUSEADDR in
              match inet_pton4 ip with
              | None => Ok (closesocket w fd, None)
              | Some a =>
                  let '(w, _) := sys_setsockopt w fd (IP_MULTICAST_IF 0) in
                  let ctx := mk_ms fd (mk_sin a (u16 port)) false in
                  if negb (zcio_xcalloc_ok 1 24) then Ok (closesocket w fd, None)
                  else if negb (alloc_ok 24) then Ok (mcast_send_destroy w ctx, None)
                  else if negb (zcio_xcalloc_ok 1 8) then Ok (mcast_send_destroy w ctx, None)
                  else Ok (w, Some ctx)
              end
          end
      end
  end.

Definition zcio_mcast_sender_free (w : W) (s : option mcast_sctx) : W :=
  match s with None => w | Some s => mcast_send_destroy w s end.

Record mcast_rctx := mk_mr { mr_fd : Z; mr_closed : bool }.

Definition mcast_recv_read (c : W * mcast_rctx) (n : Z) : exec (W * mcast_rctx * Z * bytes) :=
  let '(w, s) := c in
  if sock_gone (mr_closed s) (mr_fd s) then Ok (w, s, ZCIO_ERR_EOF, [])
  else '(w, r, d) ← datagram_read w (mr_fd s) n; Ok (w, s, r, d).

Definition mcast_recv_close (c : W * mcast_rctx) : W * mcast_rctx * Z :=
  let '(w, s) := c in
  if negb (sock_gone (mr_closed s) (mr_fd s))
  then (closesocket w (mr_fd s), mk_mr ZCIO_INVALID_SOCKET true, ZCIO_OK)
  else (w, s, ZCIO_OK).

Definition mcast_recv_destroy (w : W) (s : mcast_rctx) : W :=
  if negb (sock_gone (mr_closed s) (mr_fd s)) then closesocket w (mr_fd s) else w.

Definition MCAST_RECV_VT : zcio_stream_vtable (W * mcast_rctx) := {|
  vt_name := B "mcast"; vt_read := Some mcast_recv_read; vt_write := None;
  vt_seek := None; vt_flush := None; vt_close := Some mcast_recv_close; vt_destroy := true;
  vt_available := None; vt_eof := None |}.

Definition zcio_mcast_receiver_open (w : W) (group : option bytes) (port : Z) : exec (W * option mcast_rctx) :=
  match group with
  | None => Ok (w, None)
  | Some _ =>
      '(w, ip) ← zcio_resolve_ipv4 w group;
      match ip with
      | None => Ok (w, None)
      | Some ip =>
          let w := zcio_socket_startup w in
          match sys_socket w AF_INET SOCK_DGRAM IPPROTO_UDP with
          | (w, Failed _) => Ok (w, None)
          | (w, Done fd) =>
              let w := zcio_socket_nosigpipe w fd in
              let '(w, _) := zcio_set_nonblocking w fd true in
              let '(w, _) := sys_setsockopt w fd SO_REUSEADDR in
              match sys_bind w fd (mk_sin 0 (u16 port)) with
              | (w, Failed _) => Ok (closesocket w fd, None)
              | (w, Done _) =>
                  let '(w, _) := sys_setsockopt w fd IP_MULTICAST_LOOP in
                  match inet_pton4 ip with
                  | None => Ok (closesocket w fd, None)
                  | Some a =>
                      match sys_setsockopt w fd (IP_ADD_MEMBERSHIP a 0) with
                      | (w, Failed _) => Ok (closesocket w fd, None)
                      | (w, Done _) =>
                          let ctx := mk_mr fd false in
                          if negb (zcio_xcalloc_ok 1 8) then Ok (closesocket w fd, None)
                          else if negb (alloc_ok 24) then Ok (mcast_recv_destroy w ctx, None)
                          else if negb (zcio_xcalloc_ok 1 8) then Ok (mcast_recv_destroy w ctx, None)
                          else Ok (w, Some ctx)
                      end
                  end
              end
          end
      end
  end.

Definition zcio_mcast_receiver_free (w : W) (s : option mcast_rctx) : W :=
  match s with None => w | Some s => mcast_recv_destroy w s end.

End Udp.
