(* ===== verification/UdpSafe.v ===== *)
(** * UdpSafe: the datagram server routes by sender

    The table of peers refines a list of senders, in the order of their first
    datagram, each with the unread bytes of its last one. *)
From stdpp Require Import base tactics list option strings.
From Stdlib Require Import ZArith Lia.
From S2P Require Import Prelude Types Stream Sock Dns Udp.

(** ** Specification *)

Inductive udp_call := Receive (non_block : bool) (timeout_us : Z) | ReadPacket (i : nat) (n : Z).
Inductive udp_answer := Packet (i : option nat) | Data (r : Z) (d : bytes).

(** [gave d a]: the kernel delivered datagram [d] of sender [a]; [silent]: it
    delivered none, or an empty one; [oom]: an allocation was refused. *)
Inductive udp_step (gave : bytes → sockaddr_in → Prop) (silent oom : Prop) (m : list (sockaddr_in * bytes))
  : udp_call → udp_answer → list (sockaddr_in * bytes) → Prop :=
  | first_datagram nb t d a : gave d a → d ≠ [] → a ∉ m.*1 →
      udp_step gave silent oom m (Receive nb t) (Packet (Some (length m))) (m ++ [(a, d)])
  | next_datagram nb t i old d a : gave d a → d ≠ [] → m !! i = Some (a, old) →
      udp_step gave silent oom m (Receive nb t) (Packet (Some i)) (<[i := (a, d)]> m)
  | no_datagram nb t : silent → udp_step gave silent oom m (Receive nb t) (Packet None) m
  | no_memory nb t : oom → udp_step gave silent oom m (Receive nb t) (Packet None) m
  | no_buffer nb t d a : oom → gave d a → a ∉ m.*1 → udp_step gave silent oom m (Receive nb t) (Packet None) (m ++ [(a, [])])
  | read_bytes i n a p : m !! i = Some (a, p) → p ≠ [] →
      udp_step gave silent oom m (ReadPacket i n) (Data (Z.min n (zlen p)) (ztake n p)) (<[i := (a, zdrop n p)]> m)
  | read_drained i n a : m !! i = Some (a, []) →
      udp_step gave silent oom m (ReadPacket i n) (Data ZCIO_ERR_WOULDBLOCK []) m.

Inductive udp_run (gave : bytes → sockaddr_in → Prop) (silent oom : Prop)
  : list (sockaddr_in * bytes) → list udp_call → list udp_answer → list (sockaddr_in * bytes) → Prop :=
  | udp_nil m : udp_run gave silent oom m [] [] m
  | udp_cons m c a m1 cs answers m2 : udp_step gave silent oom m c a m1 → udp_run gave silent oom m1 cs answers m2 →
      udp_run gave silent oom m (c :: cs) (a :: answers) m2.

(** ** The table *)

Definition pkt_pending (p : udp_pktctx) : bytes := slice (p_pos p) (p_len p - p_pos p) (p_buf p).

Definition pkt_wf (p : udp_pktctx) : Prop :=
  0 ≤ p_pos p ≤ p_len p ∧ p_len p ≤ zlen (p_buf p) ∧ p_len p ≤ UDP_RECV_BUF.

Definition table (s : zcio_udp_server) : list (sockaddr_in * bytes) :=
  (λ p, (p_peer p, pkt_pending p)) <$> us_peers s.

Record udp_wf (s : zcio_udp_server) : Prop := {
  uw_pkts : Forall pkt_wf (us_peers s);
  uw_keys : NoDup (table s).*1;
}.

Lemma find_peer_spec l a k :
  match find_peer l a k with
  | Some i => ∃ j p, i = (k + j)%nat ∧ l !! j = Some p ∧ p_peer p = a
  | None => a ∉ p_peer <$> l
  end.
Proof.
  revert k. induction l as [|p l IH]; intros k; [apply not_elem_of_nil|]. cbn [find_peer].
  destruct (_ && _) eqn:E.
  - btest. exists 0%nat, p. split; [lia|]. split; [done|]. destruct (p_peer p), a. cbn in *. by subst.
  - specialize (IH (S k)). destruct (find_peer l a (S k)) as [i|].
    + destruct IH as (j & q & -> & Hj & Hq). exists (S j), q. split; [lia|done].
    + cbn. intros Hin. apply elem_of_cons in Hin as [Hp|Hin]; [|done]. subst a.
      rewrite !Z.eqb_refl in E. done.
Qed.

Lemma table_keys s : (table s).*1 = p_peer <$> us_peers s.
Proof. unfold table. by rewrite <- list_fmap_compose. Qed.

Lemma table_lookup s i p : us_peers s !! i = Some p → table s !! i = Some (p_peer p, pkt_pending p).
Proof. intros Hp. unfold table. by rewrite list_lookup_fmap, Hp. Qed.

Lemma table_insert s i p cap : table (us_set_peers (<[i:=p]> (us_peers s)) cap s) = <[i:=(p_peer p, pkt_pending p)]> (table s).
Proof. unfold table. cbn. by rewrite list_fmap_insert. Qed.

Lemma keys_insert (m : list (sockaddr_in * bytes)) i a d old : m !! i = Some (a, old) → (<[i:=(a, d)]> m).*1 = m.*1.
Proof. intros Hi. rewrite list_fmap_insert. apply list_insert_id. by rewrite list_lookup_fmap, Hi. Qed.

Lemma pending_bound p : pkt_wf p → zlen (pkt_pending p) = p_len p - p_pos p.
Proof. intros (H1 & H2 & H3). apply zlen_slice; lia. Qed.

(** Reading a packet. *)
Lemma pkt_read_spec {W} (w : W) p n : pkt_wf p → 0 < n →
  if decide (pkt_pending p = []) then udp_pkt_read (w, p) n = Ok (w, p, ZCIO_ERR_WOULDBLOCK, [])
  else ∃ p', udp_pkt_read (w, p) n = Ok (w, p', Z.min n (zlen (pkt_pending p)), ztake n (pkt_pending p)) ∧
    pkt_wf p' ∧ p_peer p' = p_peer p ∧ pkt_pending p' = zdrop n (pkt_pending p).
Proof.
  intros Hwf Hn. pose proof (pending_bound p Hwf) as Hl. pose proof Hwf as (H1 & H2 & H3). unfold UDP_RECV_BUF in H3.
  unfold udp_pkt_read. rewrite wrap_small by lia. rewrite <- Hl. destruct (decide _) as [E|E].
  - by rewrite E.
  - assert (0 < zlen (pkt_pending p)) by (destruct (pkt_pending p); [done|cbn; lia]).
    rewrite (proj2 (Z.eqb_neq _ _)) by lia.
    assert ((if zlen (pkt_pending p) <? n then zlen (pkt_pending p) else n) = Z.min n (zlen (pkt_pending p))) as ->
      by (destruct (Z.ltb_spec (zlen (pkt_pending p)) n); lia).
    rewrite mem_read_ok by lia. cbn [mbind exec_bind]. eexists.
    assert (slice (p_pos p) (Z.min n (zlen (pkt_pending p))) (p_buf p) = ztake n (pkt_pending p)) as ->.
    { rewrite Hl. unfold pkt_pending, slice. rewrite take_take. f_equal. lia. }
    split; [done|]. split; [split; cbn; [lia|split; [lia|unfold UDP_RECV_BUF; lia]]|]. split; [done|].
    unfold pkt_pending at 1, slice. cbn [p_pos p_len p_buf]. rewrite Hl. unfold pkt_pending, slice.
    rewrite skipn_firstn_comm, drop_drop. destruct (Z.le_ge_cases n (p_len p - p_pos p)).
    + rewrite Z.min_l by lia. f_equal; [lia|]. f_equal. lia.
    + rewrite Z.min_r by lia. replace (Z.to_nat (p_len p - (p_pos p + (p_len p - p_pos p)))) with 0%nat by lia.
      by replace (Z.to_nat (p_len p - p_pos p) - Z.to_nat n)%nat with 0%nat by lia.
Qed.

Section Receive.
Context {W : Type} `{!Sys W} `{!SysIo W} `{Allocator}.

(** What the kernel hands a server's [recvfrom]. *)
Definition gave (d : bytes) (a : sockaddr_in) : Prop :=
  ∃ w w' fd, sys_recvfrom (W := W) w fd UDP_RECV_BUF = (w', Done (d, a)).

Definition silent : Prop :=
  ∃ w w' fd r, sys_recvfrom (W := W) w fd UDP_RECV_BUF = (w', r) ∧
    match r with Failed _ => True | Done (d, _) => d = [] end.

Definition oom : Prop := ∃ n, alloc_ok n = false.

Lemma deliver_spec p d : pkt_wf p → zlen d ≤ UDP_RECV_BUF →
  (deliver p d = Ok None ∧ oom) ∨
  ∃ p', deliver p d = Ok (Some p') ∧ pkt_wf p' ∧ p_peer p' = p_peer p ∧ pkt_pending p' = d.
Proof.
  intros Hwf Hd. unfold deliver. 
  assert (∃ buf, (if zlen (p_buf p) <? zlen d then
      if alloc_ok (zlen d) then Some (p_buf p ++ replicate (Z.to_nat (zlen d - zlen (p_buf p))) junk) else None
    else Some (p_buf p)) = buf ∧ (buf = None → oom) ∧ ∀ b, buf = Some b → zlen d ≤ zlen b) as (buf & -> & Hoom & Hbuf).
  { eexists. split; [done|]. destruct (Z.ltb_spec (zlen (p_buf p)) (zlen d)); [|split; [done|by intros b [= <-]]].
    destruct (alloc_ok _) eqn:E; (split; [|intros b]); [done|intros [= <-]; zl|by eexists|done]. }
  destruct buf as [b|]; [|left; split; [done|by apply Hoom]]. specialize (Hbuf b eq_refl). right.
  rewrite mem_write_ok by lia. cbn [mbind exec_bind]. eexists. split; [done|]. cbn [Z.to_nat]. rewrite take_0. cbn [app].
  split; [split; cbn [p_pos p_len p_buf]; [lia|split; [zl|done]]|]. split; [done|].
  unfold pkt_pending, slice. cbn [p_pos p_len p_buf]. rewrite drop_0, Z.sub_0_r. by apply ztake_app_zlen.
Qed.

(** The packet of a sender: an existing one, a new one, or no memory for it. *)
Lemma server_peer_spec s a : udp_wf s →
  match server_peer s a with
  | (s', Some i) => udp_wf s' ∧ (∃ p, us_peers s' !! i = Some p ∧ p_peer p = a) ∧
      ((s' = s ∧ a ∈ (table s).*1) ∨
       (i = length (us_peers s) ∧ table s' = table s ++ [(a, [])] ∧ a ∉ (table s).*1))
  | (s', None) => s' = s ∧ oom
  end.
Proof.
  intros [Hp Hk]. unfold server_peer. pose proof (find_peer_spec (us_peers s) a 0) as Hf.
  destruct (find_peer (us_peers s) a 0) as [i|].
  { destruct Hf as (j & p & -> & Hj & Hpp). split; [done|]. split; [by exists p|]. left. split; [done|].
    rewrite table_keys, <- Hpp. by eapply list_elem_of_lookup_2; rewrite list_lookup_fmap, Hj. }
  assert (∀ cap, let s' := us_set_peers (us_peers s ++ [mk_pkt (us_fd s) a [] 0 0]) cap s in
    udp_wf s' ∧ (∃ p, us_peers s' !! length (us_peers s) = Some p ∧ p_peer p = a) ∧
    ((s' = s ∧ a ∈ (table s).*1) ∨
     (length (us_peers s) = length (us_peers s) ∧ table s' = table s ++ [(a, [])] ∧ a ∉ (table s).*1))) as Hnew.
  { intros cap s'. assert (table s' = table s ++ [(a, [])]) as Ht by (unfold table, s'; cbn; by rewrite fmap_app).
    split; [split|split].
    - apply Forall_app. split; [done|]. constructor; [|done]. unfold pkt_wf, UDP_RECV_BUF. cbn. lia.
    - rewrite Ht, fmap_app. cbn. apply NoDup_app. split; [done|]. split; [|apply NoDup_singleton].
      intros x Hx Hx'. apply list_elem_of_singleton in Hx' as ->. by rewrite table_keys in Hx.
    - eexists. split; [by apply list_lookup_middle|done].
    - right. by rewrite table_keys. }
  destruct (zcio_xcalloc_ok 1 56) eqn:E1; cbn [negb]; [|split; [done|by eexists]].
  destruct (alloc_ok 24) eqn:E2; cbn [negb]; [|split; [done|by eexists]].
  destruct (zcio_xcalloc_ok 1 16) eqn:E3; cbn [negb]; [|split; [done|by eexists]].
  destruct (_ <=? _); [destruct (alloc_ok (u64 _)) eqn:E4; [apply Hnew|split; [done|by eexists]]|apply Hnew].
Qed.

Lemma set_rcvtimeo_same w s nb t : let '(_, s') := set_rcvtimeo w s nb t in
  us_peers s' = us_peers s ∧ us_fd s' = us_fd s.
Proof. unfold set_rcvtimeo. destruct (_ && _); [|done]. by destruct (sys_setsockopt _ _ _). Qed.

Lemma udp_wf_ext s s' : us_peers s' = us_peers s → udp_wf s → udp_wf s' ∧ table s' = table s.
Proof. intros E [Hp Hk]. assert (table s' = table s) as Ht by (unfold table; by rewrite E). split; [split; [by rewrite E|by rewrite Ht]|done]. Qed.

Lemma receive_spec w s nb t : udp_wf s →
  ∃ w' s' i, zcio_udp_server_receive w (Some s) nb t = Ok (w', Some s', i) ∧ udp_wf s' ∧
    udp_step gave silent oom (table s) (Receive nb t) (Packet i) (table s').
Proof.
  intros Hwf0. unfold zcio_udp_server_receive. pose proof (set_rcvtimeo_same w s nb t) as Hr.
  destruct (set_rcvtimeo w s nb t) as [w1 s1]. destruct Hr as [Hr _].
  destruct (udp_wf_ext s s1 Hr Hwf0) as [Hwf <-]. clear s Hwf0 Hr.
  destruct (retry_spec (λ w, sys_recvfrom w (us_fd s1) UDP_RECV_BUF)) with (w := w1) as (w2 & w3 & r & -> & E & _).
  { intros v v' x. apply recvfrom_signals. }
  cbn [mbind exec_bind]. destruct r as [e|[d a]];
    [eexists _, _, _; split; [done|]; split; [done|]; apply no_datagram; by eexists _, _, _, _|].
  assert (zlen d ≤ UDP_RECV_BUF) as Hd by (apply recvfrom_fits in E; unfold UDP_RECV_BUF in *; lia).
  destruct d as [|b d]; [eexists _, _, _; split; [done|]; split; [done|]; apply no_datagram; by eexists _, _, _, _|].
  assert (gave (b :: d) a) as Hgave by (by eexists _, _, _).
  pose proof (server_peer_spec s1 a Hwf) as Hsp. destruct (server_peer s1 a) as [s2 [i|]].
  2:{ destruct Hsp as [-> Hoom]. eexists _, _, _. split; [done|]. split; [done|]. by apply no_memory. }
  destruct Hsp as (Hwf2 & (p & Hi & Hpa) & Hcase). rewrite Hi.
  pose proof (proj1 (Forall_lookup _ _) (uw_pkts _ Hwf2) i p Hi) as Hpw.
  pose proof (table_lookup _ _ _ Hi) as Hti. rewrite Hpa in Hti.
  destruct (deliver_spec p (b :: d) Hpw Hd) as [[-> Hoom]|(p' & -> & Hpw' & Hpa' & Hpd)]; cbn [mbind exec_bind].
  - eexists _, _, _. split; [done|]. split; [done|]. destruct Hcase as [[-> _]|(_ & -> & Hn)]; [by apply no_memory|by eapply no_buffer].
  - eexists _, _, _. split; [done|]. split.
    + split.
      * apply Forall_insert; [apply Hwf2|done].
      * rewrite table_insert, Hpa', Hpa, (keys_insert _ _ _ _ _ Hti). apply Hwf2.
    + rewrite table_insert, Hpa', Hpa, Hpd. destruct Hcase as [[-> Hin]|(-> & Ht & Hn)].
      * by eapply next_datagram.
      * rewrite Ht, insert_app_r_alt by (unfold table; rewrite length_fmap; lia).
        replace (length (us_peers s1)) with (length (table s1)) by (unfold table; by rewrite length_fmap).
        rewrite Nat.sub_diag. cbn. by apply first_datagram.
Qed.

Lemma packet_read_spec (w : W) s i n p : udp_wf s → us_peers s !! i = Some p → 0 < n →
  ∃ s' r d, packet_read w s i n = Ok (w, s', r, d) ∧ udp_wf s' ∧
    udp_step gave silent oom (table s) (ReadPacket i n) (Data r d) (table s') ∧ length (us_peers s') = length (us_peers s).
Proof.
  intros Hwf Hi Hn. unfold packet_read. rewrite Hi.
  pose proof (proj1 (Forall_lookup _ _) (uw_pkts _ Hwf) i p Hi) as Hpw. pose proof (table_lookup _ _ _ Hi) as Hti.
  pose proof (pkt_read_spec w p n Hpw Hn) as Hr. destruct (decide (pkt_pending p = [])) as [E|E].
  - rewrite Hr. cbn [mbind exec_bind]. eexists _, _, _. split; [done|].
    assert (us_peers (us_set_peers (<[i:=p]> (us_peers s)) (us_peers_cap s) s) = us_peers s) as Hs
      by (cbn; by rewrite list_insert_id).
    destruct (udp_wf_ext _ _ Hs Hwf) as [Hw' ->]. split; [done|]. split; [|by rewrite Hs].
    rewrite E in Hti. by eapply read_drained.
  - destruct Hr as (p' & -> & Hpw' & Hpa & Hpp). cbn [mbind exec_bind]. eexists _, _, _. split; [done|]. split; [split|split].
    + apply Forall_insert; [apply Hwf|done].
    + rewrite table_insert, Hpa, (keys_insert _ _ _ _ _ Hti). apply Hwf.
    + rewrite table_insert, Hpa, Hpp. by eapply read_bytes.
    + cbn. by rewrite length_insert.
Qed.
(** A sequence of calls; a packet handle is a position in the table. *)
Definition udp_op (w : W) (s : zcio_udp_server) (c : udp_call) : exec (W * zcio_udp_server * udp_answer) :=
  match c with
  | Receive nb t =>
      '(w, s, i) ← zcio_udp_server_receive w (Some s) nb t;
      match s with None => Fault | Some s => Ok (w, s, Packet i) end
  | ReadPacket i n => '(w, s, r, d) ← packet_read w s i n; Ok (w, s, Data r d)
  end.

Fixpoint udp_calls (w : W) (s : zcio_udp_server) (cs : list udp_call)
  : exec (W * zcio_udp_server * list udp_answer) :=
  match cs with
  | [] => Ok (w, s, [])
  | c :: cs =>
      '(w, s, a) ← udp_op w s c;
      '(w, s, answers) ← udp_calls w s cs;
      Ok (w, s, a :: answers)
  end.
End Receive.

(** ** Properties *)

(** A read asks for something and uses a packet the server has. *)
Definition call_valid (len : nat) (c : udp_call) : Prop :=
  match c with Receive _ _ => True | ReadPacket i n => (i < len)%nat ∧ 0 < n end.

Lemma valid_mono n n' c : (n ≤ n')%nat → call_valid n c → call_valid n' c.
Proof. destruct c; cbn; lia. Qed.

Lemma step_grows gave silent oom m c a m' : udp_step gave silent oom m c a m' → (length m ≤ length m')%nat.
Proof. destruct 1; rewrite ?length_app, ?length_insert; lia. Qed.

(** C24: For every sequence of receives and of reads on the packets the server
    has, whatever datagrams arrive, the server is a list of senders in the
    order of their first datagram, each with the unread bytes of its last one:
    a receive answers the packet of the sender and a read takes the next bytes
    of that sender alone.  A packet drained of its datagram would block, and a
    datagram is lost only when memory is refused. *)
Theorem udp_server_demux `{Hw : !Sys W} (Hio : SysIo W) (Ha : Allocator) w s cs
  (Hwf : udp_wf s) (Hcs : Forall (call_valid (length (table s))) cs) :
  ∃ w' s' answers, udp_calls w s cs = Ok (w', s', answers) ∧ udp_wf s' ∧
    udp_run (gave (W := W)) (silent (W := W)) oom (table s) cs answers (table s').
Proof.
  revert w s Hwf Hcs. induction cs as [|c cs IH]; intros w s Hwf Hcs.
  { exists w, s, []. split; [done|]. split; [done|constructor]. }
  apply Forall_cons_1 in Hcs as [Hc Hcs]. cbn [udp_calls].
  assert (∃ w1 s1 a, udp_op w s c = Ok (w1, s1, a) ∧ udp_wf s1 ∧ udp_step (gave (W := W)) (silent (W := W)) oom (table s) c a (table s1))
    as (w1 & s1 & a & -> & Hwf1 & Hstep).
  { destruct c as [nb t|i n]; cbn [udp_op].
    - destruct (receive_spec w s nb t Hwf) as (w1 & s1 & i & -> & Hw1 & Hst). cbn [mbind exec_bind]. by eexists _, _, _.
    - destruct Hc as [Hi Hn]. unfold table in Hi. rewrite length_fmap in Hi.
      destruct (lookup_lt_is_Some_2 _ _ Hi) as [p Hp].
      destruct (packet_read_spec w s i n p Hwf Hp Hn) as (s1 & r & d & -> & Hw1 & Hst & _). cbn [mbind exec_bind]. by eexists _, _, _. }
  cbn [mbind exec_bind]. destruct (IH w1 s1 Hwf1) as (w2 & s2 & answers & -> & Hwf2 & Hrun).
  { eapply Forall_impl; [exact Hcs|]. intros c'. apply valid_mono. by eapply step_grows. }
  cbn [mbind exec_bind]. eexists _, _, _. split; [done|]. split; [done|]. by econstructor.
Qed.

(** Two senders take turns. *)
Lemma udp_server_demux_witness :
  let a := mk_sin 1 1000 in let b := mk_sin 2 1000 in
  let w := mk_os 0 1 true [(B "one", b); (B "hello", a); (B "bye", a)] [] 0 [3] [] in
  let s := mk_usrv 3 [mk_pkt 3 a [] 0 0] 8 0 false in
  let cs := [Receive true 5; Receive false 0; ReadPacket 0 2; Receive false 0; ReadPacket 0 9; ReadPacket 0 1] in
  let Ha := always_alloc in
  match udp_calls w s cs with
  | Ok (_, _, answers) => answers = [Packet (Some 1%nat); Packet (Some 0%nat); Data 2 (B "he"); Packet (Some 0%nat);
                                     Data 3 (B "bye"); Data ZCIO_ERR_WOULDBLOCK []]
  | _ => False
  end ∧
  ∃ w' s' answers, udp_calls w s cs = Ok (w', s', answers) ∧ udp_wf s' ∧
    udp_run (gave (W := ex_os)) (silent (W := ex_os)) oom (table s) cs answers (table s').
Proof.
  intros a b w s cs Ha. split; [vm_compute; done|]. apply (udp_server_demux ex_io Ha w s cs).
  - split; [constructor; [unfold pkt_wf, UDP_RECV_BUF; cbn; lia|constructor]|apply NoDup_singleton].
  - unfold cs. repeat first [apply List.Forall_nil | apply List.Forall_cons]; cbn; lia.
Defined.

(** A client stream hands on the datagram of any sender, and takes an empty one
    for the end of the stream. *)
Example client_reads_strangers :
  let peer := mk_sin 1 53 in
  let w := mk_os 0 0 true [(B "forged", mk_sin 666 1); ([], peer)] [] 0 [5] [] in
  let s := mk_ucli 5 peer false in
  match udp_cli_read (w, s) 100 with
  | Ok (w, s, r, d) => r = 6 ∧ d = B "forged" ∧
      match udp_cli_read (w, s) 100 with Ok (_, _, r, _) => r = 0 | _ => False end
  | _ => False
  end.
Proof. vm_compute. done. Qed.

(** What is left of a datagram is lost when the next one of its sender comes. *)
Example unread_bytes_dropped :
  let a := mk_sin 1 1000 in
  let w := mk_os 0 0 true [(B "hello", a); (B "bye", a)] [] 0 [3] [] in
  let Ha := always_alloc in
  match udp_calls w (mk_usrv 3 [] 0 0 false) [Receive false 0; ReadPacket 0 2; Receive false 0; ReadPacket 0 9] with
  | Ok (_, _, answers) => answers = [Packet (Some 0%nat); Data 2 (B "he"); Packet (Some 0%nat); Data 3 (B "bye")]
  | _ => False
  end.
Proof. vm_compute. done. Qed.
