(* ===== verification/TlsOpenssl.v ===== *)
(** * TlsOpenssl: TLS over a stream ([src/tls_openssl.c])

    OpenSSL is the class [Openssl]: each of its calls is a program that may use
    the BIO, that is, this file's [zcio_bio_read] and [zcio_bio_write] over the
    transport, any finite number of times before it answers.  The transport is
    the class [Carrier]. *)
From stdpp Require Import base tactics list option strings.
From Stdlib Require Import ZArith Lia.
From S2P Require Import Prelude Types Stream Sock Tls Tcp.

(** ** The transport *)

Class Carrier (W P : Type) := {
  cr_read : W → P → Z → exec (W * P * Z * bytes);
  cr_write : W → P → bytes → exec (W * P * Z);
  cr_flush : W → P → W * P * Z;
  cr_close : W → P → W * P * Z;
  cr_free : W → P → exec W;
}.

(** A socket stream, through the dispatch of [src/stream.c]. *)
#[export] Instance tcp_carrier {W} `{!Sys W} : Carrier W tcp_sockctx := {|
  cr_read w s n :=
    '(h, r, d) ← zcio_read (Some (tcp_stream w s)) false n;
    match h with Some st => Ok ((s_ctx st).1, (s_ctx st).2, r, d) | None => Fault end;
  cr_write w s p :=
    '(h, r) ← zcio_write (Some (tcp_stream w s)) (Some p);
    match h with Some st => Ok ((s_ctx st).1, (s_ctx st).2, r) | None => Fault end;
  cr_flush w s := (w, s, (zcio_flush (Some (tcp_stream w s))).2);
  cr_close w s := match zcio_close (Some (tcp_stream w s)) with
    | (Some st, r) => ((s_ctx st).1, (s_ctx st).2, r) | (None, r) => (w, s, r) end;
  cr_free w s := Ok match zcio_stream_free (Some (tcp_stream w s)) with
    | Some c => tcp_s_destroy c.1 c.2 | None => w end;
|}.

(** ** OpenSSL *)

(** A call that reads or writes through the BIO: what it does next depends on
    the result and on the retry flag. *)
Inductive bio_prog (A : Type) :=
  | BioDone (a : A)
  | BioRead (len : Z) (k : Z → bytes → bool → bio_prog A)
  | BioWrite (data : bytes) (k : Z → bool → bio_prog A).
Arguments BioDone {A} a.
Arguments BioRead {A} len k.
Arguments BioWrite {A} data k.

Inductive ssl_error :=
  | SSL_ERROR_WANT_READ | SSL_ERROR_WANT_WRITE | SSL_ERROR_ZERO_RETURN | SSL_ERROR_SYSCALL | SSL_ERROR_SSL.

Definition wants (e : ssl_error) : bool :=
  match e with SSL_ERROR_WANT_READ | SSL_ERROR_WANT_WRITE => true | _ => false end.

Definition X509_V_OK : Z := 0.
Definition INT_MAX : Z := 2 ^ 31 - 1.
Definition UINT_MAX : Z := 2 ^ 32 - 1.

(** Results come with [SSL_get_error]'s answer for them. *)
Class Openssl := {
  SSL : Type;
  SSL_CTX : Type;
  SSL_CTX_new : bool → option SSL_CTX;
  SSL_CTX_verify_defaults : SSL_CTX → SSL_CTX;
  SSL_CTX_set1_host : SSL_CTX → bytes → SSL_CTX;
  ossl_selfsign : SSL_CTX → option SSL_CTX;
  SSL_CTX_use_certificate_file : SSL_CTX → bytes → option SSL_CTX;
  SSL_CTX_use_PrivateKey_file : SSL_CTX → bytes → option SSL_CTX;
  SSL_CTX_check_private_key : SSL_CTX → bool;
  SSL_CTX_set_alpn_protos : SSL_CTX → bytes → option SSL_CTX;
  SSL_CTX_set_alpn_select : SSL_CTX → option bytes → SSL_CTX;
  SSL_select_next_proto : bytes → bytes → option bytes;
  bio_method_ok : bool;
  SSL_new : SSL_CTX → option SSL;
  BIO_new_ok : bool;
  SSL_set_accept_state : SSL → SSL;
  SSL_set_connect_state : SSL → SSL;
  SSL_set_verify_none : SSL → SSL;
  SSL_set_tlsext_host_name : SSL → bytes → option SSL;
  SSL_is_server : SSL → bool;
  SSL_is_init_finished : SSL → bool;
  SSL_get_verify_result : SSL → Z;
  SSL_get0_alpn_selected : SSL → option bytes;
  SSL_read : SSL → Z → bio_prog (SSL * Z * bytes * ssl_error);
  SSL_write : SSL → bytes → bio_prog (SSL * Z * ssl_error);
  SSL_do_handshake : SSL → bio_prog (SSL * Z * ssl_error);
  SSL_shutdown : SSL → bio_prog (SSL * Z);
}.

Section Backend.
Context {W P : Type} `{!Carrier W P} `{!Openssl} `{Allocator}.

(** ** The BIO

    The transport's state, [g_bio_transient_err] and the retry flag go
    through. *)
Record bio_state := mk_bio { b_w : W; b_plain : P; b_transient : Z; b_retry : bool }.

Definition transient_code (r : Z) : bool := (r =? ZCIO_ERR_WOULDBLOCK) || (r =? ZCIO_ERR_TIMEOUT).

Definition zcio_bio_write (b : bio_state) (data : bytes) : exec (bio_state * Z) :=
  if zlen data =? 0 then Ok (mk_bio (b_w b) (b_plain b) (b_transient b) false, 0)
  else
    '(w, p, r) ← cr_write (b_w b) (b_plain b) data;
    if 0 <? r then Ok (mk_bio w p (b_transient b) false, r)
    else if transient_code r then Ok (mk_bio w p r true, -1)
    else Ok (mk_bio w p (b_transient b) false, -1).

Definition zcio_bio_read (b : bio_state) (len : Z) : exec (bio_state * Z * bytes) :=
  if len <? 0 then Ok (mk_bio (b_w b) (b_plain b) (b_transient b) false, -1, [])
  else if len =? 0 then Ok (mk_bio (b_w b) (b_plain b) (b_transient b) false, 0, [])
  else
    '(w, p, r, d) ← cr_read (b_w b) (b_plain b) len;
    if 0 <? r then Ok (mk_bio w p (b_transient b) false, r, d)
    else if r =? 0 then Ok (mk_bio w p (b_transient b) false, 0, [])
    else if transient_code r then Ok (mk_bio w p r true, -1, [])
    else Ok (mk_bio w p (b_transient b) false, -1, []).

Fixpoint run_bio {A} (b : bio_state) (p : bio_prog A) : exec (bio_state * A) :=
  match p with
  | BioDone a => Ok (b, a)
  | BioRead len k => '(b, r, d) ← zcio_bio_read b len; run_bio b (k r d (b_retry b))
  | BioWrite data k => '(b, r) ← zcio_bio_write b data; run_bio b (k r (b_retry b))
  end.

(** ** The stream *)

(** [t_owned]: [t->plain] is set.  The BIO keeps the transport either way. *)
Record tls_stream := mk_tls {
  tl_ssl : SSL;
  tl_plain : P;
  tl_owned : bool;
  tl_retry : bool;
  tl_shut : bool;
  tl_verify : bool;
  tl_verified : bool;
  tl_alpn : bytes;
}.

(** The state after a call that used the BIO. *)
Definition tl_after (t : tls_stream) (b : bio_state) (ssl : SSL) : tls_stream :=
  mk_tls ssl (b_plain b) (tl_owned t) (b_retry b) (tl_shut t) (tl_verify t) (tl_verified t) (tl_alpn t).

Definition tl_bio (w : W) (t : tls_stream) (transient : Z) : bio_state :=
  mk_bio w (tl_plain t) transient (tl_retry t).

Fixpoint tls_read_loop (fuel : nat) (w : W) (t : tls_stream) (n : Z) : exec (W * tls_stream * Z * bytes) :=
  match fuel with
  | O => OutOfFuel
  | S fuel =>
      '(b, (ssl, r, d, err)) ← run_bio (tl_bio w t 0) (SSL_read (tl_ssl t) n);
      let t := tl_after t b ssl in
      let w := b_w b in
      let tr := b_transient b in
      if 0 <? r then Ok (w, t, r, d)
      else match err with
      | SSL_ERROR_WANT_READ | SSL_ERROR_WANT_WRITE =>
          if negb (tr =? 0) then Ok (w, t, tr, [])
          else if b_retry b then tls_read_loop fuel w t n
          else Ok (w, t, ZCIO_ERR_WOULDBLOCK, [])
      | SSL_ERROR_ZERO_RETURN => Ok (w, t, 0, [])
      | SSL_ERROR_SYSCALL =>
          if negb (tr =? 0) then Ok (w, t, tr, [])
          else if r =? 0 then Ok (w, t, 0, [])
          else Ok (w, t, ZCIO_ERR_TLS, [])
      | SSL_ERROR_SSL => Ok (w, t, ZCIO_ERR_TLS, [])
      end
  end.

Fixpoint tls_write_loop (fuel : nat) (w : W) (t : tls_stream) (src : bytes) : exec (W * tls_stream * Z) :=
  match fuel with
  | O => OutOfFuel
  | S fuel =>
      '(b, (ssl, r, err)) ← run_bio (tl_bio w t 0) (SSL_write (tl_ssl t) src);
      let t := tl_after t b ssl in
      let w := b_w b in
      let tr := b_transient b in
      if 0 <? r then Ok (w, t, r)
      else match err with
      | SSL_ERROR_WANT_READ | SSL_ERROR_WANT_WRITE =>
          if negb (tr =? 0) then Ok (w, t, tr)
          else if b_retry b then tls_write_loop fuel w t src
          else Ok (w, t, ZCIO_ERR_WOULDBLOCK)
      | SSL_ERROR_ZERO_RETURN => Ok (w, t, ZCIO_ERR_EOF)
      | SSL_ERROR_SYSCALL => if negb (tr =? 0) then Ok (w, t, tr) else Ok (w, t, ZCIO_ERR_TLS)
      | SSL_ERROR_SSL => Ok (w, t, ZCIO_ERR_TLS)
      end
  end.

(** How many turns the retry loops may take. *)
Variable turns : nat.

Definition tls_strm_read (w : W) (t : tls_stream) (n : Z) : exec (W * tls_stream * Z * bytes) :=
  if n =? 0 then Ok (w, t, 0, []) else tls_read_loop turns w t (if INT_MAX <? n then INT_MAX else n).

Definition tls_strm_write (w : W) (t : tls_stream) (src : bytes) : exec (W * tls_stream * Z) :=
  if zlen src =? 0 then Ok (w, t, 0)
  else tls_write_loop turns w t (if INT_MAX <? zlen src then ztake INT_MAX src else src).

Definition tls_strm_flush (w : W) (t : tls_stream) : W * tls_stream * Z :=
  let '(w, p, r) := cr_flush w (tl_plain t) in
  (w, mk_tls (tl_ssl t) p (tl_owned t) (tl_retry t) (tl_shut t) (tl_verify t) (tl_verified t) (tl_alpn t), r).

Definition ssl_shutdown (w : W) (t : tls_stream) : exec (W * tls_stream * Z) :=
  '(b, (ssl, r)) ← run_bio (tl_bio w t 0) (SSL_shutdown (tl_ssl t));
  Ok (b_w b, tl_after t b ssl, r).

Definition tls_strm_close (w : W) (t : tls_stream) : exec (W * tls_stream * Z) :=
  '(w, t) ← (if negb (tl_shut t) then
      '(w, t, ret) ← ssl_shutdown w t;
      '(w, t) ← (if ret =? 0 then '(w, t, _) ← ssl_shutdown w t; Ok (w, t) else Ok (w, t));
      Ok (w, mk_tls (tl_ssl t) (tl_plain t) (tl_owned t) (tl_retry t) true (tl_verify t) (tl_verified t) (tl_alpn t))
    else Ok (w, t));
  let '(w, p, r) := cr_close w (tl_plain t) in
  Ok (w, mk_tls (tl_ssl t) p (tl_owned t) (tl_retry t) (tl_shut t) (tl_verify t) (tl_verified t) (tl_alpn t), r).

(** The transport, if the stream no longer owns it, is given back. *)
Definition tls_strm_destroy (w : W) (t : tls_stream) : exec (W * P) :=
  '(w, t) ← (if negb (tl_shut t) then '(w, t, _) ← ssl_shutdown w t; Ok (w, t) else Ok (w, t));
  w ← (if tl_owned t then cr_free w (tl_plain t) else Ok w);
  Ok (w, tl_plain t).

(** ** Contexts *)

Record tls_ctx := mk_tctx { x_ctx : SSL_CTX; x_host : option bytes; x_alpn : option bytes }.

Definition host_given (host : option bytes) : option bytes :=
  match host with Some [] | None => None | Some h => Some h end.

Definition ossl_client_ctx (host : option bytes) : option tls_ctx :=
  match SSL_CTX_new false with
  | None => None
  | Some ctx =>
      let ctx := SSL_CTX_verify_defaults ctx in
      let ctx := match host_given host with Some h => SSL_CTX_set1_host ctx h | None => ctx end in
      if zcio_xcalloc_ok 1 32 then Some (mk_tctx ctx (zcio_strdup_ host) None) else None
  end.

Definition ossl_server_ctx : option tls_ctx :=
  match SSL_CTX_new true with
  | None => None
  | Some ctx =>
      match ossl_selfsign ctx with
      | None => None
      | Some ctx => if zcio_xcalloc_ok 1 32 then Some (mk_tctx ctx None None) else None
      end
  end.

Definition ossl_server_ctx_files (cert key : option bytes) : option tls_ctx :=
  match cert, key with
  | Some cert, Some key =>
      ctx ← SSL_CTX_new true;
      ctx ← SSL_CTX_use_certificate_file ctx cert;
      ctx ← SSL_CTX_use_PrivateKey_file ctx key;
      if negb (SSL_CTX_check_private_key ctx) then None
      else if zcio_xcalloc_ok 1 32 then Some (mk_tctx ctx None None) else None
  | _, _ => None
  end.

(** ** ALPN *)

(** The negotiated protocol: [None] is [SSL_TLSEXT_ERR_NOACK]. *)
Definition ossl_alpn_select_cb (alpn : option bytes) (offered : bytes) : option bytes :=
  match alpn with
  | None | Some [] => None
  | Some ours => SSL_select_next_proto ours offered
  end.

Definition proto_len (p : option bytes) : Z := match p with Some s => zlen s | None => 0 end.

(** The total length of the list; [None]: a length that does not fit a byte. *)
Fixpoint alpn_total (protos : list (option bytes)) (total : Z) : option Z :=
  match protos with
  | [] => Some total
  | p :: protos =>
      let len := proto_len p in
      if (len =? 0) || (255 <? len) then None else alpn_total protos (total + (1 + len))
  end.

Definition alpn_wire (protos : list (option bytes)) : bytes :=
  flat_map (λ p, u8 (proto_len p) :: default [] p) protos.

Definition ossl_ctx_set_alpn (c : option tls_ctx) (protos : option (list (option bytes))) : option tls_ctx * Z :=
  match c, protos with
  | Some x, Some protos =>
      match alpn_total protos 0 with
      | None => (c, ZCIO_ERR_INVALID_ARG)
      | Some total =>
          if UINT_MAX <? total then (c, ZCIO_ERR_INVALID_ARG)
          else if negb (zcio_xmalloc_ok (if total =? 0 then 1 else total)) then (c, ZCIO_ERR_NOMEM)
          else
            let wire := alpn_wire protos in
            match protos with
            | [] => (Some (mk_tctx (SSL_CTX_set_alpn_select (x_ctx x) None) (x_host x) (Some wire)), ZCIO_OK)
            | _ =>
                match SSL_CTX_set_alpn_protos (x_ctx x) wire with
                | None => (Some (mk_tctx (x_ctx x) (x_host x) (Some wire)), ZCIO_ERR_TLS)
                | Some ctx => (Some (mk_tctx (SSL_CTX_set_alpn_select ctx (Some wire)) (x_host x) (Some wire)), ZCIO_OK)
                end
            end
      end
  | _, _ => (c, ZCIO_ERR_INVALID_ARG)
  end.

(** ** Wrapping *)

Definition ossl_make_stream (c : option tls_ctx) (plain : P) (is_server verify : bool) : option tls_stream :=
  match c with
  | None => None
  | Some x =>
      if negb bio_method_ok then None
      else match SSL_new (x_ctx x) with
      | None => None
      | Some ssl =>
          if negb BIO_new_ok then None
          else
            ssl ← (if is_server then Some (SSL_set_accept_state ssl)
                   else
                     let ssl := SSL_set_connect_state ssl in
                     let ssl := if negb verify then SSL_set_verify_none ssl else ssl in
                     match host_given (x_host x) with
                     | Some h => SSL_set_tlsext_host_name ssl h
                     | None => Some ssl
                     end);
            if negb (zcio_xcalloc_ok 1 64) then None
            else if negb (alloc_ok 24) then None
            else Some (mk_tls ssl plain true false false (negb is_server && verify) false [])
      end
  end.

Definition ossl_post_handshake_check (t : tls_stream) : tls_stream * Z :=
  if negb (tl_verify t) || tl_verified t then (t, ZCIO_OK)
  else if negb (SSL_get_verify_result (tl_ssl t) =? X509_V_OK) then (t, ZCIO_ERR_TLS)
  else (mk_tls (tl_ssl t) (tl_plain t) (tl_owned t) (tl_retry t) (tl_shut t) (tl_verify t) true (tl_alpn t), ZCIO_OK).

Definition ossl_handshake_step (w : W) (t : tls_stream) : exec (W * tls_stream * Z) :=
  if SSL_is_init_finished (tl_ssl t) then let '(t, r) := ossl_post_handshake_check t in Ok (w, t, r)
  else
    '(b, (ssl, hs, err)) ← run_bio (tl_bio w t 0) (SSL_do_handshake (tl_ssl t));
    let t := tl_after t b ssl in
    if hs =? 1 then let '(t, r) := ossl_post_handshake_check t in Ok (b_w b, t, r)
    else if wants err then Ok (b_w b, t, ZCIO_ERR_WOULDBLOCK)
    else Ok (b_w b, t, ZCIO_ERR_TLS).

(** The handshake loop of [ossl_wrap]. *)
Fixpoint wrap_loop (fuel : nat) (w : W) (t : tls_stream) : exec (W * (P + tls_stream)) :=
  match fuel with
  | O => OutOfFuel
  | S fuel =>
      '(w, t, r) ← ossl_handshake_step w t;
      if r =? ZCIO_OK then Ok (w, inr t)
      else if (r =? ZCIO_ERR_WOULDBLOCK) && tl_retry t then wrap_loop fuel w t
      else
        let t := mk_tls (tl_ssl t) (tl_plain t) false (tl_retry t) (tl_shut t) (tl_verify t) (tl_verified t) (tl_alpn t) in
        '(w, p) ← tls_strm_destroy w t; Ok (w, inl p)
  end.

Definition ossl_wrap (w : W) (c : option tls_ctx) (plain : P) (is_server verify : bool)
  : exec (W * (P + tls_stream)) :=
  match ossl_make_stream c plain is_server verify with
  | None => Ok (w, inl plain)
  | Some t => wrap_loop turns w t
  end.

Definition ossl_wrap_nb (w : W) (c : option tls_ctx) (plain : P) (is_server verify : bool)
  : exec (W * (P + tls_stream)) :=
  Ok (w, match ossl_make_stream c plain is_server verify with None => inl plain | Some t => inr t end).

Definition ossl_handshake (w : W) (s : option (net_stream P tls_stream))
  : exec (W * option (net_stream P tls_stream) * Z) :=
  match s with
  | Some (Overlay t) => '(w, t, r) ← ossl_handshake_step w t; Ok (w, Some (Overlay t), r)
  | _ => Ok (w, s, ZCIO_ERR_INVALID_ARG)
  end.

Definition ossl_stream_transport (s : option (net_stream P tls_stream))
  : option (P * (P → net_stream P tls_stream)) :=
  match s with
  | Some (Overlay t) =>
      if tl_owned t then
        Some (tl_plain t, λ p, Overlay (mk_tls (tl_ssl t) p (tl_owned t) (tl_retry t) (tl_shut t)
                                          (tl_verify t) (tl_verified t) (tl_alpn t)))
      else None
  | _ => None
  end.

(** The buffer has 32 bytes, one of them for the terminator. *)
Definition ossl_stream_alpn (s : option (net_stream P tls_stream))
  : option (net_stream P tls_stream) * option bytes :=
  match s with
  | Some (Overlay t) =>
      if negb (SSL_is_init_finished (tl_ssl t)) then (s, None)
      else match tl_alpn t with
      | _ :: _ => (s, Some (tl_alpn t))
      | [] =>
          match SSL_get0_alpn_selected (tl_ssl t) with
          | None => (s, None)
          | Some proto =>
              if (zlen proto =? 0) || (32 <=? zlen proto) then (s, None)
              else (Some (Overlay (mk_tls (tl_ssl t) (tl_plain t) (tl_owned t) (tl_retry t) (tl_shut t)
                                     (tl_verify t) (tl_verified t) proto)), Some proto)
          end
      end
  | _ => (s, None)
  end.

Definition g_openssl_backend : zcio_tls_backend W tls_ctx P tls_stream := {|
  tb_name := Some (B "openssl");
  tb_client_ctx := Some (λ w host, Ok (w, ossl_client_ctx host));
  tb_server_ctx := Some (λ w, Ok (w, ossl_server_ctx));
  tb_server_ctx_files := Some (λ w cert key, Ok (w, ossl_server_ctx_files cert key));
  tb_ctx_free := Some (λ w _, Ok w);
  tb_wrap := Some ossl_wrap;
  tb_ctx_set_alpn := Some (λ w c protos, let '(c, r) := ossl_ctx_set_alpn c protos in Ok (w, c, r));
  tb_wrap_nb := Some ossl_wrap_nb;
  tb_handshake := Some ossl_handshake;
  tb_stream_alpn := Some (λ _ s, Ok (ossl_stream_alpn s));
  tb_stream_transport := Some ossl_stream_transport;
|}.

#[export] Instance ossl_free : OverlayFree W tls_stream :=
  λ w t, '(w, _) ← tls_strm_destroy w t; Ok w.

End Backend.
Arguments tls_stream P {_}.
Arguments bio_state W P : clear implicits.
