(* ===== verification/TlsSafe.v ===== *)
(** * TlsSafe: what the OpenSSL backend guarantees, for any OpenSSL

    Reads and writes surface the transport's timeouts without looping, a
    verifying client never holds an unverified connection, and ALPN lists are
    encoded so that they read back. *)
From stdpp Require Import base tactics list option strings.
From Stdlib Require Import ZArith Lia.
From S2P Require Import Prelude Types Stream Sock Dns Tls Tcp TcpSafe TlsOpenssl.

(** ** What is used of OpenSSL

    A call that reports [SSL_ERROR_WANT_READ] or [SSL_ERROR_WANT_WRITE] does so
    because its last use of the BIO asked to retry. *)
Fixpoint asked {A} (want : A → bool) (last : bool) (p : bio_prog A) : Prop :=
  match p with
  | BioDone a => want a = true → last = true
  | BioRead _ k => ∀ r d rt, asked want rt (k r d rt)
  | BioWrite _ k => ∀ r rt, asked want rt (k r rt)
  end.

Definition read_wants `{!Openssl} (x : SSL * Z * bytes * ssl_error) : bool :=
  let '(_, r, _, err) := x in (r <=? 0) && wants err.
Definition write_wants `{!Openssl} (x : SSL * Z * ssl_error) : bool :=
  let '(_, r, err) := x in (r <=? 0) && wants err.

Class OpensslOk `{!Openssl} : Prop := {
  read_asked : ∀ ssl n, asked read_wants false (SSL_read ssl n);
  write_asked : ∀ ssl src, asked write_wants false (SSL_write ssl src);
}.

Section Bio.
Context {W P : Type} `{!Carrier W P}.

(** The retry flag is raised together with a transient code. *)
Definition bio_ok (b : bio_state W P) (last : bool) : Prop :=
  (b_transient b = 0 ∨ transient_code (b_transient b) = true) ∧ (last = true → transient_code (b_transient b) = true).

Lemma bio_read_ok b len last b' r d : bio_ok b last → zcio_bio_read b len = Ok (b', r, d) → bio_ok b' (b_retry b').
Proof.
  intros [H0 _]. unfold zcio_bio_read. bcase; [intros [= <- _ _]; by split|].
  bcase; [intros [= <- _ _]; by split|].
  destruct (cr_read _ _ _) as [[[[w p] x] y]| |]; cbn [mbind exec_bind]; try done.
  bcase; [intros [= <- _ _]; by split|]. bcase; [intros [= <- _ _]; by split|].
  destruct (transient_code x) eqn:E; intros [= <- _ _]; [split; [by right|done]|by split].
Qed.

Lemma bio_write_ok b data last b' r : bio_ok b last → zcio_bio_write b data = Ok (b', r) → bio_ok b' (b_retry b').
Proof.
  intros [H0 _]. unfold zcio_bio_write. bcase; [intros [= <- _]; by split|].
  destruct (cr_write _ _ _) as [[[w p] x]| |]; cbn [mbind exec_bind]; try done.
  bcase; [intros [= <- _]; by split|].
  destruct (transient_code x) eqn:E; intros [= <- _]; [split; [by right|done]|by split].
Qed.

Lemma run_bio_ok {A} (want : A → bool) p b last b' a : asked want last p → bio_ok b last →
  run_bio b p = Ok (b', a) → (b_transient b' = 0 ∨ transient_code (b_transient b') = true) ∧
    (want a = true → transient_code (b_transient b') = true).
Proof.
  revert b last. induction p as [x|len k IH|data k IH]; intros b last Hp Hb; cbn [run_bio asked] in *.
  - intros [= <- <-]. split; [apply Hb|]. intros Hw. by apply Hb, Hp.
  - destruct (zcio_bio_read b len) as [[[b1 r] d]| |] eqn:E; cbn [mbind exec_bind]; try done.
    apply (IH r d (b_retry b1) b1 (b_retry b1)); [apply Hp|by eapply bio_read_ok].
  - destruct (zcio_bio_write b data) as [[b1 r]| |] eqn:E; cbn [mbind exec_bind]; try done.
    apply (IH r (b_retry b1) b1 (b_retry b1)); [apply Hp|by eapply bio_write_ok].
Qed.
End Bio.

Lemma transient_nonzero r : transient_code r = true → (r =? 0) = false.
Proof. unfold transient_code, ZCIO_ERR_WOULDBLOCK, ZCIO_ERR_TIMEOUT. destruct (Z.eqb_spec r 0) as [->|]; done. Qed.

(** What a transfer answers, by OpenSSL's answer and the last transient
    condition of the transport. *)
Definition transfer_result (is_read : bool) (tr r : Z) (err : ssl_error) : Z :=
  if 0 <? r then r
  else match err with
  | SSL_ERROR_WANT_READ | SSL_ERROR_WANT_WRITE => tr
  | SSL_ERROR_ZERO_RETURN => if is_read then 0 else ZCIO_ERR_EOF
  | SSL_ERROR_SYSCALL => if negb (tr =? 0) then tr else if is_read && (r =? 0) then 0 else ZCIO_ERR_TLS
  | SSL_ERROR_SSL => ZCIO_ERR_TLS
  end.

Section Once.
Context {W P : Type} `{!Carrier W P} `{!Openssl} `{!OpensslOk}.

Lemma bio_start (w : W) (t : tls_stream P) : bio_ok (tl_bio w t 0) false.
Proof. split; [by left|done]. Qed.

Lemma read_loop_once k w t n b ssl r d err :
  run_bio (tl_bio w t 0) (SSL_read (tl_ssl t) n) = Ok (b, (ssl, r, d, err)) →
  tls_read_loop (S k) w t n =
    Ok (b_w b, tl_after t b ssl, transfer_result true (b_transient b) r err, if 0 <? r then d else []) ∧
  (r ≤ 0 → wants err = true → transient_code (b_transient b) = true).
Proof.
  intros Hr. pose proof (run_bio_ok read_wants _ _ false _ _ (read_asked _ _) (bio_start w t) Hr) as [_ Hw].
  unfold read_wants in Hw. cbn [tls_read_loop]. rewrite Hr. cbn [mbind exec_bind]. unfold transfer_result.
  destruct (Z.ltb_spec 0 r) as [H1|H1]; [split; [done|lia]|]. rewrite (proj2 (Z.leb_le _ _)) in Hw by done. cbn [andb] in Hw.
  split; [|done]. destruct err; cbn [wants] in Hw; try (rewrite (transient_nonzero _ (Hw eq_refl)); done); try done.
  destruct (b_transient b =? 0); cbn [negb andb]; [by destruct (r =? 0)|done].
Qed.

Lemma write_loop_once k w t src b ssl r err :
  run_bio (tl_bio w t 0) (SSL_write (tl_ssl t) src) = Ok (b, (ssl, r, err)) →
  tls_write_loop (S k) w t src = Ok (b_w b, tl_after t b ssl, transfer_result false (b_transient b) r err) ∧
  (r ≤ 0 → wants err = true → transient_code (b_transient b) = true).
Proof.
  intros Hr. pose proof (run_bio_ok write_wants _ _ false _ _ (write_asked _ _) (bio_start w t) Hr) as [_ Hw].
  unfold write_wants in Hw. cbn [tls_write_loop]. rewrite Hr. cbn [mbind exec_bind]. unfold transfer_result.
  destruct (Z.ltb_spec 0 r) as [H1|H1]; [split; [done|lia]|]. rewrite (proj2 (Z.leb_le _ _)) in Hw by done. cbn [andb] in Hw.
  split; [|done]. destruct err; cbn [wants] in Hw; try (rewrite (transient_nonzero _ (Hw eq_refl)); done); try done.
  by destruct (b_transient b =? 0).
Qed.
End Once.

(** ** Over a socket, every program ends *)

Section OverTcp.
Context {W : Type} `{!Sys W} {clk : W → Z} {late : Z} `{!SysTime W clk late} `{!SysIo W}.

Lemma retry_ends {A} (call : W → W * sysret A) w :
  (∀ w w' r, call w = (w', r) → interrupted r = true → (signals w' < signals w)%nat) →
  ∃ w' r, retry call w = Ok (w', r).
Proof. intros Hs. destruct (retry_spec call Hs w) as (w1 & w' & r & E & _). by exists w', r. Qed.

Lemma wait_ends w s rd : 0 ≤ t_fd s < FD_SETSIZE → ∃ w' stop, transfer_wait w s rd = Ok (w', stop).
Proof.
  intros Hfd. unfold transfer_wait. destruct (negb _); [|by eexists _, _]. unfold tcp_wait.
  destruct (select_total (clk := clk) (late := late) w (t_fd s) rd (negb rd) (t_timeout_ms s)) as (w1 & rc & r1 & r2 & -> & _);
    [by apply fd_in_set|]. by eexists _, _.
Qed.

Lemma tcp_read_ends w s n : 0 ≤ t_fd s < FD_SETSIZE →
  ∃ w' s' r d, tcp_s_read (w, s) n = Ok (w', s', r, d) ∧ t_fd s' = t_fd s.
Proof.
  intros Hfd. unfold tcp_s_read. destruct (t_gone s); [by eexists _, _, _, _|].
  destruct (wait_ends w s true Hfd) as (w1 & stop & ->). cbn [mbind exec_bind]. destruct stop; [by eexists _, _, _, _|].
  destruct (retry_ends (λ w, sys_recv w (t_fd s) (int_len n)) w1) as (w2 & r & ->); [intros v v' x; apply recv_signals|].
  cbn [mbind exec_bind]. destruct r as [[]|[|? ?]]; by eexists _, _, _, _.
Qed.

Lemma tcp_write_ends w s p : 0 ≤ t_fd s < FD_SETSIZE →
  ∃ w' s' r, tcp_s_write (w, s) p = Ok (w', s', r) ∧ t_fd s' = t_fd s.
Proof.
  intros Hfd. unfold tcp_s_write. destruct (t_gone s); [by eexists _, _, _|].
  destruct (wait_ends w s false Hfd) as (w1 & stop & ->). cbn [mbind exec_bind]. destruct stop; [by eexists _, _, _|].
  destruct (retry_ends (λ w, sys_send w (t_fd s) (ztake (int_len (zlen p)) p)) w1) as (w2 & r & ->); [intros v v' x; apply send_signals|].
  cbn [mbind exec_bind]. destruct r as [[]|?]; by eexists _, _, _.
Qed.

Lemma run_bio_ends {A} (p : bio_prog A) (b : bio_state W tcp_sockctx) : 0 ≤ t_fd (b_plain b) < FD_SETSIZE →
  ∃ b' a, run_bio b p = Ok (b', a) ∧ t_fd (b_plain b') = t_fd (b_plain b).
Proof.
  revert b. induction p as [x|len k IH|data k IH]; intros b Hfd; cbn [run_bio]; [by eexists _, _| |].
  - assert (∃ b' r d, zcio_bio_read b len = Ok (b', r, d) ∧ t_fd (b_plain b') = t_fd (b_plain b)) as (b1 & r & d & -> & E).
    { unfold zcio_bio_read. bcase; [by eexists _, _, _|]. bcase; [by eexists _, _, _|]. cbn [cr_read tcp_carrier]. unfold zcio_read.
      cbn [vt_read s_vt tcp_stream TCP_VT s_ctx]. rewrite (proj2 (Z.eqb_neq _ _)) by done.
      destruct (tcp_read_ends (b_w b) (b_plain b) len Hfd) as (w' & s' & r & d & -> & Es). cbn [mbind exec_bind fst snd s_ctx with_ctx].
      bcase; [by eexists _, _, _|]. bcase; [by eexists _, _, _|]. destruct (transient_code r); by eexists _, _, _. }
    cbn [mbind exec_bind]. destruct (IH r d (b_retry b1) b1) as (b2 & a & -> & E2); [by rewrite E|].
    eexists _, _. split; [done|]. congruence.
  - assert (∃ b' r, zcio_bio_write b data = Ok (b', r) ∧ t_fd (b_plain b') = t_fd (b_plain b)) as (b1 & r & -> & E).
    { unfold zcio_bio_write. bcase; [by eexists _, _|]. cbn [cr_write tcp_carrier]. unfold zcio_write.
      cbn [vt_write s_vt tcp_stream TCP_VT s_ctx]. rewrite (proj2 (Z.eqb_neq _ _)) by done.
      destruct (tcp_write_ends (b_w b) (b_plain b) data Hfd) as (w' & s' & r & -> & Es). cbn [mbind exec_bind fst snd s_ctx with_ctx].
      bcase; [by eexists _, _|]. destruct (transient_code r); by eexists _, _. }
    cbn [mbind exec_bind]. destruct (IH r (b_retry b1) b1) as (b2 & a & -> & E2); [by rewrite E|].
    eexists _, _. split; [done|]. congruence.
Qed.
End OverTcp.

(** ** Verification of the peer *)

Section Verify.
Context {W P : Type} `{!Carrier W P} `{!Openssl} `{Allocator}.

(** What a stream promises after a successful step, when verification was asked for. *)
Definition checked (t t' : tls_stream P) : Prop :=
  tl_verify t' = tl_verify t ∧ tl_owned t' = tl_owned t ∧
  (tl_verify t = true → tl_verified t' = true ∧
    (tl_verified t = false → SSL_get_verify_result (tl_ssl t') = X509_V_OK)).

Lemma post_check t : let '(t', r) := ossl_post_handshake_check t in
  tl_verify t' = tl_verify t ∧ tl_owned t' = tl_owned t ∧ (r = ZCIO_OK → checked t t') ∧
  (r ≠ ZCIO_OK → tl_verified t' = tl_verified t) ∧ (r = ZCIO_OK ∨ r = ZCIO_ERR_TLS).
Proof.
  unfold ossl_post_handshake_check, checked. destruct (tl_verify t) eqn:Ev; cbn [negb orb];
    [|split; [done|split; [done|split; [done|split; [done|by left]]]]].
  destruct (tl_verified t) eqn:Ed; [split; [done|split; [done|split; [done|split; [done|by left]]]]|].
  destruct (Z.eqb_spec (SSL_get_verify_result (tl_ssl t)) X509_V_OK) as [E|E]; cbn [negb].
  - cbn. split; [done|]. split; [done|]. split; [done|]. split; [done|by left].
  - split; [done|]. split; [done|]. split; [done|]. split; [done|by right].
Qed.

Lemma step_checked w t w' t' r : ossl_handshake_step w t = Ok (w', t', r) →
  tl_verify t' = tl_verify t ∧ tl_owned t' = tl_owned t ∧ (r = ZCIO_OK → checked t t') ∧
  (r ≠ ZCIO_OK → tl_verified t' = tl_verified t).
Proof.
  unfold ossl_handshake_step. destruct (SSL_is_init_finished (tl_ssl t)).
  - pose proof (post_check t) as Hp. destruct (ossl_post_handshake_check t) as [t1 r1].
    intros [= <- <- <-]. by destruct Hp as (H1 & H2 & H3 & H4 & _).
  - destruct (run_bio _ _) as [[b [[ssl hs] err]]| |]; cbn [mbind exec_bind]; try done. destruct (hs =? 1).
    + pose proof (post_check (tl_after t b ssl)) as Hp. destruct (ossl_post_handshake_check _) as [t1 r1].
      intros [= <- <- <-]. destruct Hp as (H1 & H2 & H3 & H4 & _). done.
    + destruct (wants err); intros [= <- <- <-]; done.
Qed.

Lemma wrap_loop_checked fuel w t w' t' : wrap_loop fuel w t = Ok (w', inr t') →
  tl_verified t = false → tl_verify t = true → tl_owned t = true →
  tl_verified t' = true ∧ SSL_get_verify_result (tl_ssl t') = X509_V_OK ∧ tl_owned t' = true.
Proof.
  revert w t. induction fuel as [|fuel IH]; intros w t E Hd Hv Ho; cbn [wrap_loop] in E; [done|].
  destruct (ossl_handshake_step w t) as [[[w1 t1] r]| |] eqn:Es; cbn [mbind exec_bind] in E; try done.
  apply step_checked in Es as (H1 & H2 & H3 & H4). destruct (Z.eqb_spec r ZCIO_OK) as [Er|Er].
  - injection E as <- <-. destruct (H3 Er) as (_ & _ & Hc). destruct (Hc Hv) as [Hc1 Hc2].
    split; [done|]. split; [by apply Hc2|]. by rewrite H2.
  - destruct (_ && _).
    + apply (IH w1 t1 E); [by rewrite (H4 Er)|by rewrite H1|by rewrite H2].
    + destruct (tls_strm_destroy w1 _) as [[w2 p]| |]; done.
Qed.

Lemma make_stream_state c (plain : P) sv vf t : ossl_make_stream c plain sv vf = Some t →
  tl_verified t = false ∧ tl_verify t = negb sv && vf ∧ tl_owned t = true ∧ tl_plain t = plain.
Proof.
  unfold ossl_make_stream. destruct c as [x|]; [|done]. destruct (negb bio_method_ok); [done|].
  destruct (SSL_new (x_ctx x)) as [ssl|]; [|done]. destruct (negb BIO_new_ok); [done|].
  match goal with |- (?m ≫= _) = _ → _ => destruct m as [ssl'|]; [|done] end. cbn [mbind option_bind].
  destruct (negb _); [done|]. destruct (negb _); [done|]. by intros [= <-].
Qed.

Lemma wrap_checked turns w c plain w' t : ossl_wrap turns w c plain false true = Ok (w', inr t) →
  tl_verified t = true ∧ SSL_get_verify_result (tl_ssl t) = X509_V_OK ∧ tl_owned t = true.
Proof.
  unfold ossl_wrap. destruct (ossl_make_stream c plain false true) as [t0|] eqn:E; [|done].
  apply make_stream_state in E as (H1 & H2 & H3 & _). intros Hw. by eapply wrap_loop_checked.
Qed.
End Verify.

(** ** ALPN *)

(** Reading a list of length-prefixed names. *)
Fixpoint alpn_parse (fuel : nat) (s : bytes) : option (list bytes) :=
  match s, fuel with
  | [], _ => Some []
  | _, O => None
  | len :: s, S fuel =>
      if (0 <? len) && (len <=? zlen s) then
        l ← alpn_parse fuel (zdrop len s); Some (ztake len s :: l)
      else None
  end.

Definition proto_ok (p : option bytes) : Prop := 1 ≤ proto_len p ≤ 255.

Lemma alpn_wire_cons p protos : alpn_wire (p :: protos) = (u8 (proto_len p) :: default [] p) ++ alpn_wire protos.
Proof. reflexivity. Qed.

Lemma alpn_total_spec protos t : match alpn_total protos t with
  | Some total => Forall proto_ok protos ∧ total = t + zlen (alpn_wire protos)
  | None => ¬ Forall proto_ok protos
  end.
Proof.
  revert t. induction protos as [|p protos IH]; intros t; cbn [alpn_total]; [split; [done|cbn; lia]|].
  destruct (_ || _) eqn:E.
  - intros [Hp _]%List.Forall_cons_iff. unfold proto_ok in Hp. apply orb_prop in E as [E|E]; btest; lia.
  - btest. specialize (IH (t + (1 + proto_len p))). destruct (alpn_total protos _) as [total|].
    + destruct IH as [Hf ->]. split; [apply List.Forall_cons; [unfold proto_ok; destruct p; cbn in *; lia|done]|].
      destruct p as [x|]; [|by destruct H]. rewrite alpn_wire_cons. cbn [from_option proto_len id]. rewrite length_app. cbn [length]. lia.
    + intros [_ Hf]%List.Forall_cons_iff. done.
Qed.

Lemma alpn_wire_parse protos fuel : Forall proto_ok protos → (length (alpn_wire protos) ≤ fuel)%nat →
  alpn_parse fuel (alpn_wire protos) = Some (map (default []) protos).
Proof.
  revert fuel. induction protos as [|p protos IH]; intros fuel Hf Hl; [by destruct fuel|].
  apply List.Forall_cons_iff in Hf as [Hp Hf]. unfold proto_ok in Hp.
  assert (proto_len p = zlen (default [] p)) as E by (by destruct p). rewrite alpn_wire_cons in *. cbn [app] in *.
  rewrite wrap_small by lia. destruct fuel as [|fuel]; [cbn in Hl; lia|]. cbn [alpn_parse].
  rewrite (proj2 (Z.ltb_lt _ _)), (proj2 (Z.leb_le _ _)) by (rewrite ?length_app; lia). cbn [andb].
  rewrite E, zdrop_app_zlen, ztake_app_zlen by done. rewrite IH; [done|done|]. cbn in Hl. rewrite length_app in Hl. lia.
Qed.

(** ** Properties *)

(** C23: Over a socket, a TLS read or write takes one turn of its loop, whatever
    OpenSSL does inside it: it ends, and when OpenSSL wants to be called again
    the answer is the transport's last transient code, a timeout or
    [ZCIO_ERR_WOULDBLOCK], never the end of the stream or a TLS error. *)
Theorem tls_io_once `{Hw : !Sys W} clk late (Ht : SysTime W clk late) (Hio : SysIo W)
  (Ho : Openssl) (Hok : OpensslOk) k w (t : tls_stream tcp_sockctx) n src
  (Hfd : 0 ≤ t_fd (tl_plain t) < FD_SETSIZE) (Hn : 0 < n ≤ INT_MAX) (Hsrc : 0 < zlen src ≤ INT_MAX) :
  (∃ b ssl r d err, run_bio (tl_bio w t 0) (SSL_read (tl_ssl t) n) = Ok (b, (ssl, r, d, err)) ∧
     tls_strm_read (S k) w t n =
       Ok (b_w b, tl_after t b ssl, transfer_result true (b_transient b) r err, if 0 <? r then d else []) ∧
     (r ≤ 0 → wants err = true →
       transfer_result true (b_transient b) r err = b_transient b ∧ transient_code (b_transient b) = true)) ∧
  (∃ b ssl r err, run_bio (tl_bio w t 0) (SSL_write (tl_ssl t) src) = Ok (b, (ssl, r, err)) ∧
     tls_strm_write (S k) w t src =
       Ok (b_w b, tl_after t b ssl, transfer_result false (b_transient b) r err) ∧
     (r ≤ 0 → wants err = true →
       transfer_result false (b_transient b) r err = b_transient b ∧ transient_code (b_transient b) = true)).
Proof.
  assert (∀ rd tr r err, r ≤ 0 → wants err = true → transfer_result rd tr r err = tr) as Htr.
  { intros rd tr r err Hr Hwt. unfold transfer_result. rewrite (proj2 (Z.ltb_ge _ _)) by done. by destruct err. }
  split.
  - destruct (run_bio_ends (clk := clk) (late := late) (SSL_read (tl_ssl t) n) (tl_bio w t 0)) as (b & [[[ssl r] d] err] & E & _); [done|].
    exists b, ssl, r, d, err. split; [done|]. unfold tls_strm_read. rewrite (proj2 (Z.eqb_neq _ _)), (proj2 (Z.ltb_ge _ _)) by lia.
    destruct (read_loop_once k w t n b ssl r d err E) as [-> Hwt]. split; [done|]. intros H1 H2. split; [by apply Htr|by apply Hwt].
  - destruct (run_bio_ends (clk := clk) (late := late) (SSL_write (tl_ssl t) src) (tl_bio w t 0)) as (b & [[ssl r] err] & E & _); [done|].
    exists b, ssl, r, err. split; [done|]. unfold tls_strm_write. rewrite (proj2 (Z.eqb_neq _ _)), (proj2 (Z.ltb_ge _ _)) by lia.
    destruct (write_loop_once k w t src b ssl r err E) as [-> Hwt]. split; [done|]. intros H1 H2. split; [by apply Htr|by apply Hwt].
Qed.

(** A protocol of one byte per handshake and no encryption. *)
#[local] Instance toy_ssl : Openssl := {|
  SSL := bool * bool;
  SSL_CTX := unit;
  SSL_CTX_new := λ _, Some tt;
  SSL_CTX_verify_defaults := λ c, c;
  SSL_CTX_set1_host := λ c _, c;
  ossl_selfsign := λ c, Some c;
  SSL_CTX_use_certificate_file := λ c _, Some c;
  SSL_CTX_use_PrivateKey_file := λ c _, Some c;
  SSL_CTX_check_private_key := λ _, true;
  SSL_CTX_set_alpn_protos := λ c _, Some c;
  SSL_CTX_set_alpn_select := λ c _, c;
  SSL_select_next_proto := λ ours _, Some ours;
  bio_method_ok := true;
  SSL_new := λ _, Some (false, false);
  BIO_new_ok := true;
  SSL_set_accept_state := λ s, (true, s.2);
  SSL_set_connect_state := λ s, s;
  SSL_set_verify_none := λ s, s;
  SSL_set_tlsext_host_name := λ s _, Some s;
  SSL_is_server := λ s, s.1;
  SSL_is_init_finished := λ s, s.2;
  SSL_get_verify_result := λ _, X509_V_OK;
  SSL_get0_alpn_selected := λ _, None;
  SSL_read := λ s n, BioRead n (λ r d rt, BioDone (s, r, d, if rt then SSL_ERROR_WANT_READ else SSL_ERROR_ZERO_RETURN));
  SSL_write := λ s src, BioWrite src (λ r rt, BioDone (s, r, if rt then SSL_ERROR_WANT_WRITE else SSL_ERROR_SYSCALL));
  SSL_do_handshake := λ s, BioRead 1 (λ r _ rt,
    if 0 <? r then BioDone ((s.1, true), 1, SSL_ERROR_SSL)
    else BioDone (s, -1, if rt then SSL_ERROR_WANT_READ else SSL_ERROR_SYSCALL));
  SSL_shutdown := λ s, BioDone (s, 1);
|}.

#[local] Instance toy_ok : OpensslOk (H := toy_ssl).
Proof.
  split; cbn.
  - intros ssl n r d rt. by destruct rt; [|rewrite andb_false_r].
  - intros ssl src r rt. by destruct rt; [|rewrite andb_false_r].
Qed.

(** A silent peer: the read times out, and says so. *)
Lemma tls_io_once_witness :
  let w := mk_os 0 3 false [] [] 0 [5] [] in
  let t := mk_tls (H := toy_ssl) (false, true) (mk_tcp 5 100 false false) true false false false false [] in
  match tls_strm_read 1 w t 10 with Ok (_, _, r, _) => r = ZCIO_ERR_TIMEOUT | _ => False end ∧
  (∃ b ssl r d err, run_bio (tl_bio w t 0) (SSL_read (tl_ssl t) 10) = Ok (b, (ssl, r, d, err)) ∧
     tls_strm_read 1 w t 10 =
       Ok (b_w b, tl_after t b ssl, transfer_result true (b_transient b) r err, if 0 <? r then d else []) ∧
     (r ≤ 0 → wants err = true →
       transfer_result true (b_transient b) r err = b_transient b ∧ transient_code (b_transient b) = true)) ∧
  (∃ b ssl r err, run_bio (tl_bio w t 0) (SSL_write (tl_ssl t) (B "hello")) = Ok (b, (ssl, r, err)) ∧
     tls_strm_write 1 w t (B "hello") =
       Ok (b_w b, tl_after t b ssl, transfer_result false (b_transient b) r err) ∧
     (r ≤ 0 → wants err = true →
       transfer_result false (b_transient b) r err = b_transient b ∧ transient_code (b_transient b) = true)).
Proof.
  intros w t. split; [vm_compute; done|].
  apply (tls_io_once os_clk 1 ex_time ex_io toy_ssl toy_ok 0 w t 10 (B "hello")); cbn; unfold FD_SETSIZE, INT_MAX; lia.
Defined.

(** C21: With the OpenSSL backend a client that asked for verification, when it
    connects and when it upgrades, holds a TLS stream whose peer OpenSSL found
    valid and that owns its transport; so does a stream wrapped without a
    handshake once its handshake pump has answered [ZCIO_OK]. *)
Theorem tls_client_verified `{Hw : !Sys W} (Ho : Openssl) (Ha : Allocator) turns w
  (l : tls_lib W tls_ctx tcp_sockctx (tls_stream tcp_sockctx))
  (Hl : g_backend l = Some (g_openssl_backend turns)) :
  let secured s := ∃ t, s = Overlay t ∧ tl_verified t = true ∧
    SSL_get_verify_result (tl_ssl t) = X509_V_OK ∧ tl_owned t = true in
  (∀ host port ctx cto ito w' c,
     tcp_client_make w l host port (Some ctx) true cto ito = Ok (w', inr c) → secured (c_stream c)) ∧
  (∀ c ctx w' c', zcio_tcp_client_tls_upgrade w l (Some c) ctx = Ok (w', Some c', ZCIO_OK) →
     c_tls_ctx c = None ∧ secured (c_stream c')) ∧
  (∀ ctx plain w1 w2 t s, zcio_tls_wrap_nb w l (Some ctx) plain false true = Ok (w1, inr t) →
     zcio_tls_handshake w2 l (Some (Overlay t)) = Ok (w2, s, ZCIO_OK) →
     ∃ t', s = Some (Overlay t') ∧ tl_verified t' = true ∧ SSL_get_verify_result (tl_ssl t') = X509_V_OK).
Proof.
  intros secured.
  assert (∀ w c p sv vf, zcio_tls_wrap w l c p sv vf = ossl_wrap turns w c p sv vf) as Hwr
    by (intros; unfold zcio_tls_wrap, backend_op; by rewrite Hl).
  split; [|split].
  - intros host port ctx cto ito w' c. unfold tcp_client_make. destruct host as [host|]; [|done].
    destruct (tcp_do_connect w host port cto) as [[w1 [code|fd]]| |]; cbn [mbind exec_bind]; try done.
    destruct (tcp_make_plain_stream fd) as [plain|]; [|done]. rewrite Hwr.
    destruct (ossl_wrap _ _ _ _ _ _) as [[w2 [p|t]]| |] eqn:E; cbn [mbind exec_bind]; try done.
    apply wrap_checked in E. destruct (zcio_xcalloc_ok 1 24).
    + intros [= _ <-]. by exists t.
    + destruct (stream_free w2 _) as [w3| |]; done.
  - intros c ctx w' c'. unfold zcio_tcp_client_tls_upgrade. destruct ctx as [ctx|]; [|done].
    destruct (c_tls_ctx c); [done|]. destruct (c_stream c) as [plain|o]; [|done]. rewrite Hwr.
    destruct (ossl_wrap _ _ _ _ _ _) as [[w2 [p|t]]| |] eqn:E; cbn [mbind exec_bind]; try done.
    apply wrap_checked in E. intros [= _ <-]. split; [done|]. by exists t.
  - intros ctx plain w1 w2 t s. unfold zcio_tls_wrap_nb, zcio_tls_handshake, backend_op. rewrite Hl.
    cbn [tb_wrap_nb tb_handshake g_openssl_backend]. unfold ossl_wrap_nb, ossl_handshake.
    destruct (ossl_make_stream (Some ctx) plain false true) as [t0|] eqn:E; intros [= _ <-].
    apply make_stream_state in E as (H1 & H2 & _).
    destruct (ossl_handshake_step w2 t0) as [[[w3 t3] r]| |] eqn:Es; cbn [mbind exec_bind]; try done.
    intros [= -> <- ->]. apply step_checked in Es as (_ & _ & H3 & _). destruct (H3 eq_refl) as (_ & _ & Hc).
    destruct (Hc H2) as [Hc1 Hc2]. exists t3. split; [done|]. split; [done|]. by apply Hc2.
Qed.

(** The handshake of a client over a socket that delivers one byte. *)
Lemma tls_client_verified_witness :
  let l := mk_lib true (Some (g_openssl_backend (W := ex_os) (P := tcp_sockctx) (H := toy_ssl) (H0 := always_alloc) 5)) in
  let w := mk_os 0 2 true [(B "!", mk_sin 1 1)] [] 0 [3] [mk_ai AF_INET SOCK_STREAM 6 (SIN (mk_sin 1 443))] in
  let ctx := mk_tctx (H := toy_ssl) tt (Some (B "host")) None in
  let secured s := ∃ t, s = Overlay t ∧ tl_verified t = true ∧
    SSL_get_verify_result (tl_ssl t) = X509_V_OK ∧ tl_owned t = true in
  let Ha := always_alloc in
  match tcp_client_make w l (Some (B "host")) 443 (Some ctx) true 0 0 with Ok (_, inr _) => True | _ => False end ∧
  (∀ host port ctx cto ito w' c,
     tcp_client_make w l host port (Some ctx) true cto ito = Ok (w', inr c) → secured (c_stream c)) ∧
  (∀ c ctx w' c', zcio_tcp_client_tls_upgrade w l (Some c) ctx = Ok (w', Some c', ZCIO_OK) →
     c_tls_ctx c = None ∧ secured (c_stream c')) ∧
  (∀ ctx plain w1 w2 t s, zcio_tls_wrap_nb w l (Some ctx) plain false true = Ok (w1, inr t) →
     zcio_tls_handshake w2 l (Some (Overlay t)) = Ok (w2, s, ZCIO_OK) →
     ∃ t', s = Some (Overlay t') ∧ tl_verified t' = true ∧ SSL_get_verify_result (tl_ssl t') = X509_V_OK).
Proof.
  intros l w ctx secured Ha. split; [vm_compute; done|]. exact (tls_client_verified toy_ssl always_alloc 5 w l eq_refl).
Defined.

(** An ALPN list is stored in the wire format exactly when every name is
    one to 255 bytes long, and the stored list reads back as the names. *)
Theorem alpn_wire_roundtrip (Ho : Openssl) (Ha : Allocator) x protos :
  (∀ c' r, ossl_ctx_set_alpn (Some x) (Some protos) = (c', r) →
     (r = ZCIO_OK → Forall proto_ok protos ∧ ∃ x' wire, c' = Some x' ∧ x_alpn x' = Some wire ∧
        zlen wire ≤ UINT_MAX ∧ alpn_parse (length wire) wire = Some (map (default []) protos)) ∧
     (r ≠ ZCIO_OK → r = ZCIO_ERR_TLS ∨ c' = Some x)) ∧
  (¬ Forall proto_ok protos → ossl_ctx_set_alpn (Some x) (Some protos) = (Some x, ZCIO_ERR_INVALID_ARG)).
Proof.
  unfold ossl_ctx_set_alpn. pose proof (alpn_total_spec protos 0) as Ht. destruct (alpn_total protos 0) as [total|]; [|split].
  - destruct Ht as [Hf ->]. split; [|done]. intros c' r. rewrite Z.add_0_l. destruct (Z.ltb_spec UINT_MAX (zlen (alpn_wire protos))).
    { intros [= <- <-]. split; [done|by right]. }
    destruct (negb _); [intros [= <- <-]; split; [done|by right]|].
    assert (alpn_parse (length (alpn_wire protos)) (alpn_wire protos) = Some (map (default []) protos)) as Hp by (by apply alpn_wire_parse).
    destruct protos as [|p protos].
    + intros [= <- <-]. split; [|done]. intros _. split; [done|]. eexists _, _. split; [done|]. split; [done|]. done.
    + destruct (SSL_CTX_set_alpn_protos _ _) as [ctx|]; intros [= <- <-]; (split; [|try done; intros _; by left]); [|done].
      intros _. split; [done|]. eexists _, _. split; [done|]. split; [done|]. done.
  - intros c' r [= <- <-]. split; [done|by right].
  - done.
Qed.

(** ** A handshake with a silent peer

    [ossl_wrap] calls the handshake again as long as the BIO asks to retry, and
    the BIO also asks for that after a timeout of the transport. *)
Section Silent.
Context {W P : Type} `{!Carrier W P} `{Allocator}.
Hypothesis silent : ∀ w p n, ∃ w', cr_read w p n = Ok (w', p, ZCIO_ERR_TIMEOUT, []).

Lemma wrap_loop_spins fuel w (t : tls_stream (H := toy_ssl) P) : (tl_ssl t).2 = false → wrap_loop fuel w t = OutOfFuel.
Proof.
  revert w t. induction fuel as [|fuel IH]; intros w t Hf; [done|]. cbn [wrap_loop]. unfold ossl_handshake_step.
  cbn [SSL_is_init_finished toy_ssl]. rewrite Hf. cbn [SSL_do_handshake run_bio toy_ssl]. unfold zcio_bio_read.
  cbn [Z.ltb Z.compare Z.eqb tl_bio b_w b_plain]. destruct (silent w (tl_plain t) 1) as (w' & ->).
  cbn. apply IH. done.
Qed.

(** The synchronous handshake with such a peer does not end, whatever the
    transport's timeout. *)
Theorem wrap_spins turns w plain sv vf :
  ossl_wrap (H := toy_ssl) turns w (Some (mk_tctx (H := toy_ssl) tt None None)) plain sv vf =
  if zcio_xcalloc_ok 1 64 && alloc_ok 24 then OutOfFuel else Ok (w, inl plain).
Proof.
  unfold ossl_wrap, ossl_make_stream. cbn. destruct (zcio_xcalloc_ok 1 64), (alloc_ok 24); destruct sv, vf; cbn; try done.
  all: by apply wrap_loop_spins.
Qed.
End Silent.
