(* ===== verification/Archive.v ===== *)
(** * Archive: archive entries in memory ([src/archive.c])

    libarchive is the class [Libarchive] over a world that holds the files;
    readers and writers are its objects.  An active entry is kept whole in
    memory, in read mode with a cursor and in write mode in a growing buffer. *)
From stdpp Require Import base tactics list option strings.
From Stdlib Require Import ZArith Lia.
From S2P Require Import Prelude Types.

Definition ZCIO_ARCHIVE_MAX_ENTRY : Z := 256 * 1024 * 1024.

Inductive zcio_archive_mode := ZCIO_ARCHIVE_READ | ZCIO_ARCHIVE_WRITE.

(** [None] is a call that failed; a header is the entry's path, which may be
    missing, and its declared size; [headers_left] bounds how many follow. *)
Class Libarchive (W : Type) := {
  reader : Type;
  writer : Type;
  archive_read_new : W → W * option reader;
  archive_read_open_filename : W → reader → bytes → W * option reader;
  archive_read_next_header : reader → reader * option (option bytes * Z);
  archive_read_data : reader → Z → reader * Z * bytes;
  archive_read_data_skip : reader → reader;
  headers_left : reader → nat;
  archive_write_new : W → W * option writer;
  archive_write_open_filename : W → writer → bytes → W * option writer;
  archive_entry_new : W → bool;
  archive_write_header : W → writer → bytes → Z → W * writer * bool;
  archive_write_data : W → writer → bytes → W * writer * Z;
  archive_write_close : W → writer → W;
}.

Section Archive.
Context {W : Type} `{!Libarchive W} `{Allocator}.

(** [a_wbuf] has [wcap] bytes; [a_entry] is the path of the entry being
    written. *)
Record zcio_archive := mk_ar {
  a_mode : zcio_archive_mode;
  a_path : bytes;
  a_write_arc : option writer;
  a_entry : option bytes;
  a_rbuf : option bytes;
  a_rlen : Z;
  a_rpos : Z;
  a_wbuf : bytes;
  a_wlen : Z;
}.

Definition a_set_read (buf : option bytes) (len pos : Z) (a : zcio_archive) : zcio_archive :=
  mk_ar (a_mode a) (a_path a) (a_write_arc a) (a_entry a) buf len pos (a_wbuf a) (a_wlen a).
Definition a_set_write (arc : option writer) (entry : option bytes) (buf : bytes) (len : Z) (a : zcio_archive) : zcio_archive :=
  mk_ar (a_mode a) (a_path a) arc entry (a_rbuf a) (a_rlen a) (a_rpos a) buf len.

(** ** Writing *)

Definition flush_write_entry (w : W) (a : zcio_archive) : exec (W * zcio_archive * Z) :=
  match a_write_arc a, a_entry a with
  | Some arc, Some name =>
      let '(w, arc, ok) := archive_write_header w arc name (a_wlen a) in
      '(w, arc, rc) ← (
        if negb ok then Ok (w, arc, ZCIO_ERR_ARCHIVE)
        else if negb (a_wlen a =? 0) then
          d ← mem_read 0 (a_wlen a) (a_wbuf a);
          let '(w, arc, n) := archive_write_data w arc d in
          Ok (w, arc, if (n <? 0) || negb (n =? a_wlen a) then ZCIO_ERR_ARCHIVE else ZCIO_OK)
        else Ok (w, arc, ZCIO_OK));
      Ok (w, a_set_write (Some arc) None [] 0 a, rc)
  | _, _ => Ok (w, a, ZCIO_OK)
  end.

Definition zcio_archive_open (w : W) (path : option bytes) (mode : zcio_archive_mode)
  : W * option zcio_archive :=
  match path with
  | None => (w, None)
  | Some path =>
      if negb (zcio_xcalloc_ok 1 80) then (w, None)
      else match zcio_strdup_ (Some path) with
      | None => (w, None)
      | Some path =>
          let a arc := mk_ar mode path arc None None 0 0 [] 0 in
          match mode with
          | ZCIO_ARCHIVE_READ => (w, Some (a None))
          | ZCIO_ARCHIVE_WRITE =>
              match archive_write_new w with
              | (w, None) => (w, None)
              | (w, Some arc) =>
                  match archive_write_open_filename w arc path with
                  | (w, None) => (w, None)
                  | (w, Some arc) => (w, Some (a (Some arc)))
                  end
              end
          end
      end
  end.

(** The result of the last flush is discarded. *)
Definition zcio_archive_close (w : W) (a : option zcio_archive) : exec W :=
  match a with
  | None => Ok w
  | Some a =>
      match a_mode a, a_write_arc a with
      | ZCIO_ARCHIVE_WRITE, Some _ =>
          '(w, a) ← (match a_entry a with
                     | Some _ => '(w, a, _) ← flush_write_entry w a; Ok (w, a)
                     | None => Ok (w, a)
                     end);
          Ok match a_write_arc a with Some arc => archive_write_close w arc | None => w end
      | _, _ => Ok w
      end
  end.

(** ** Listing *)

(** [Some]: the list; [None]: out of memory.  [cap] is the capacity of the list. *)
Fixpoint list_loop (fuel : nat) (arc : reader) (names : list bytes) (cap : Z) : exec (option (list bytes)) :=
  match fuel with
  | O => OutOfFuel
  | S fuel =>
      match archive_read_next_header arc with
      | (_, None) => Ok (Some names)
      | (arc, Some (name, _)) =>
          match zcio_strdup_ (Some (default [] name)) with
          | None => Ok None
          | Some dup =>
              let cap' := if zlen names =? cap then
                  let ncap := if cap =? 0 then 8 else u64 (cap * 2) in
                  if alloc_ok (u64 (ncap * 8)) then Some ncap else None
                else Some cap in
              match cap' with
              | None => Ok None
              | Some cap => list_loop fuel (archive_read_data_skip arc) (names ++ [dup]) cap
              end
          end
      end
  end.

(** A reader positioned before the first header. *)
Definition open_reader (w : W) (path : bytes) : W * option reader :=
  match archive_read_new w with
  | (w, None) => (w, None)
  | (w, Some arc) => archive_read_open_filename w arc path
  end.

(** The list is a null pointer when the archive has no entries. *)
Definition zcio_archive_entries (w : W) (a : option zcio_archive) : exec (W * option (list bytes)) :=
  match a with
  | None => Ok (w, None)
  | Some a =>
      match a_mode a with
      | ZCIO_ARCHIVE_WRITE => Ok (w, None)
      | ZCIO_ARCHIVE_READ =>
          match open_reader w (a_path a) with
          | (w, None) => Ok (w, None)
          | (w, Some arc) => l ← list_loop (S (headers_left arc)) arc [] 0;
              Ok (w, match l with Some (_ :: _) => l | _ => None end)
          end
      end
  end.

(** ** Selecting an entry *)

(** The bytes stored so far are [got]; [None]: a read failed. *)
Fixpoint data_loop (fuel : nat) (arc : reader) (want : Z) (got : bytes) : exec (option bytes) :=
  match fuel with
  | O => OutOfFuel
  | S fuel =>
      if zlen got <? want then
        let '(arc, r, d) := archive_read_data arc (want - zlen got) in
        if r <? 0 then Ok None
        else if r =? 0 then Ok (Some got)
        else data_loop fuel arc want (got ++ ztake r d)
      else Ok (Some got)
  end.

(** The entry's contents, or the code of the failure. *)
Definition load_entry (arc : reader) (declared : Z) : exec (Z + bytes) :=
  let size := if declared <? 0 then 0 else declared in
  if ZCIO_ARCHIVE_MAX_ENTRY <? size then Ok (inl ZCIO_ERR_ARCHIVE)
  else if negb (zcio_xmalloc_ok (size + 1)) then Ok (inl ZCIO_ERR_NOMEM)
  else
    got ← data_loop (S (Z.to_nat size)) arc size [];
    Ok match got with
       | Some got => if zlen got =? size then inr got else inl ZCIO_ERR_ARCHIVE
       | None => inl ZCIO_ERR_ARCHIVE
       end.

Fixpoint find_entry (fuel : nat) (arc : reader) (name : bytes) : exec (Z + bytes) :=
  match fuel with
  | O => OutOfFuel
  | S fuel =>
      match archive_read_next_header arc with
      | (_, None) => Ok (inl ZCIO_ERR_ARCHIVE)
      | (arc, Some (pname, size)) =>
          if bool_decide (pname = Some name) then load_entry arc size
          else find_entry fuel (archive_read_data_skip arc) name
      end
  end.

Definition zcio_archive_set_entry (w : W) (a : option zcio_archive) (name : option bytes)
  : exec (W * option zcio_archive * Z) :=
  match a, name with
  | Some ar, Some name =>
      match a_mode ar with
      | ZCIO_ARCHIVE_WRITE =>
          '(w, ar, fr) ← (match a_entry ar with
                          | Some _ => flush_write_entry w ar
                          | None => Ok (w, ar, ZCIO_OK)
                          end);
          if negb (fr =? ZCIO_OK) then Ok (w, Some ar, fr)
          else if negb (archive_entry_new w) then Ok (w, Some (a_set_write (a_write_arc ar) None (a_wbuf ar) (a_wlen ar) ar), ZCIO_ERR_ARCHIVE)
          else Ok (w, Some (a_set_write (a_write_arc ar) (Some name) [] 0 ar), ZCIO_OK)
      | ZCIO_ARCHIVE_READ =>
          let ar := a_set_read None 0 0 ar in
          match open_reader w (a_path ar) with
          | (w, None) => Ok (w, Some ar, ZCIO_ERR_ARCHIVE)
          | (w, Some arc) =>
              r ← find_entry (S (headers_left arc)) arc name;
              Ok match r with
                 | inl code => (w, Some ar, code)
                 | inr buf => (w, Some (a_set_read (Some buf) (zlen buf) 0 ar), ZCIO_OK)
                 end
          end
      end
  | _, _ => Ok (w, a, ZCIO_ERR_INVALID_ARG)
  end.

(** ** Reading and writing the active entry *)

Definition zcio_archive_entry_string (a : option zcio_archive) : exec (option bytes) :=
  match a with
  | None => Ok None
  | Some a =>
      match a_mode a, a_rbuf a with
      | ZCIO_ARCHIVE_READ, Some buf =>
          if zcio_xmalloc_ok (a_rlen a + 1) then d ← mem_read 0 (a_rlen a) buf; Ok (Some d) else Ok None
      | _, _ => Ok None
      end
  end.

Definition zcio_archive_read (a : option zcio_archive) (dst_null : bool) (n : Z)
  : exec (option zcio_archive * Z * bytes) :=
  match a with
  | None => Ok (a, ZCIO_ERR_INVALID_ARG, [])
  | Some ar =>
      if dst_null then Ok (a, ZCIO_ERR_INVALID_ARG, [])
      else match a_mode ar with
      | ZCIO_ARCHIVE_WRITE => Ok (a, ZCIO_ERR_UNSUPPORTED, [])
      | ZCIO_ARCHIVE_READ =>
          match a_rbuf ar with
          | None => Ok (a, ZCIO_ERR_ARCHIVE, [])
          | Some buf =>
              if n =? 0 then Ok (a, 0, [])
              else
                let remaining := u64 (a_rlen ar - a_rpos ar) in
                if remaining =? 0 then Ok (a, 0, [])
                else
                  let k := if n <? remaining then n else remaining in
                  d ← mem_read (a_rpos ar) k buf;
                  Ok (Some (a_set_read (Some buf) (a_rlen ar) (a_rpos ar + k) ar), k, d)
          end
      end
  end.

(** [while (ncap < need) ncap *= 2] *)
Fixpoint wbuf_cap (fuel : nat) (ncap need : Z) : exec Z :=
  match fuel with
  | O => OutOfFuel
  | S fuel => if ncap <? need then wbuf_cap fuel (u64 (ncap * 2)) need else Ok ncap
  end.

Definition zcio_archive_write (a : option zcio_archive) (data : option bytes)
  : exec (option zcio_archive * Z) :=
  match a, data with
  | Some ar, Some data =>
      match a_mode ar with
      | ZCIO_ARCHIVE_READ => Ok (a, ZCIO_ERR_UNSUPPORTED)
      | ZCIO_ARCHIVE_WRITE =>
          match a_entry ar with
          | None => Ok (a, ZCIO_ERR_ARCHIVE)
          | Some _ =>
              let n := zlen data in
              if n =? 0 then Ok (a, 0)
              else
                let wcap := zlen (a_wbuf ar) in
                let need := u64 (a_wlen ar + n) in
                buf ← (if wcap <? need then
                    ncap ← wbuf_cap 65 (if wcap =? 0 then 4096 else wcap) need;
                    Ok (if alloc_ok ncap then Some (a_wbuf ar ++ replicate (Z.to_nat (ncap - wcap)) junk) else None)
                  else Ok (Some (a_wbuf ar)));
                match buf with
                | None => Ok (a, ZCIO_ERR_NOMEM)
                | Some buf =>
                    buf ← mem_write (a_wlen ar) data buf;
                    Ok (Some (a_set_write (a_write_arc ar) (a_entry ar) buf (a_wlen ar + n) ar), n)
                end
          end
      end
  | _, _ => Ok (a, ZCIO_ERR_INVALID_ARG)
  end.

End Archive.
Arguments zcio_archive W {_}.
