(* ===== verification/ArchiveSafe.v ===== *)
(** * ArchiveSafe: entries read back as they were written

    What is documented of libarchive: a reader delivers the entries of the file
    in order, in chunks of any size; a writer adds entries to its file.  Over
    any such library, selecting an entry loads exactly its declared contents or
    reports an error, and a written archive reads back entry by entry. *)
From stdpp Require Import base tactics list option strings.
From Stdlib Require Import ZArith Lia.
From S2P Require Import Prelude Types Archive.

(** ** The library's contract *)

(** An entry of a file: what its header declares, the bytes that can be decoded
    and whether decoding fails after them. *)
Record arc_entry := mk_ent { e_name : option bytes; e_size : Z; e_data : bytes; e_bad : bool }.

Class LibarchiveOk (W : Type) `{!Libarchive W} (fs : W → bytes → option (list arc_entry))
    (ents : reader → list arc_entry) (cur : reader → bytes * bool)
    (wpath : writer → bytes) (went : writer → list arc_entry) : Prop := {
  read_new_fs : ∀ w w' r, archive_read_new w = (w', r) → fs w' = fs w;
  open_view : ∀ w r p w' r', archive_read_open_filename w r p = (w', Some r') → fs w p = Some (ents r');
  header_view : ∀ r r' h, archive_read_next_header r = (r', h) →
    match ents r with
    | [] => h = None
    | e :: es => h = Some (e_name e, e_size e) ∧ ents r' = es ∧ cur r' = (e_data e, e_bad e)
    end;
  headers_bound : ∀ r, (length (ents r) ≤ headers_left r)%nat;
  data_view : ∀ r n r' k d, 0 < n → archive_read_data r n = (r', k, d) →
    match cur r with
    | ([], bad) => if bad then k < 0 else k = 0
    | (c, bad) => 0 < k ≤ n ∧ k ≤ zlen c ∧ ztake k d = ztake k c ∧ cur r' = (zdrop k c, bad)
    end;
  skip_view : ∀ r, ents (archive_read_data_skip r) = ents r;
  write_open_view : ∀ w x p w' x', archive_write_open_filename w x p = (w', Some x') → wpath x' = p ∧ went x' = [];
  write_header_view : ∀ w x name size w' x', archive_write_header w x name size = (w', x', true) →
    wpath x' = wpath x ∧ went x' = went x ++ [mk_ent (Some name) size [] false];
  write_data_view : ∀ w x d w' x' es e, archive_write_data w x d = (w', x', zlen d) → went x = es ++ [e] →
    wpath x' = wpath x ∧ went x' = es ++ [mk_ent (e_name e) (e_size e) (e_data e ++ d) (e_bad e)];
  write_close_view : ∀ w x, fs (archive_write_close w x) (wpath x) = Some (went x);
}.

(** ** Selecting an entry *)

(** What [zcio_archive_set_entry] makes of a list of entries. *)
Fixpoint entry_contents (es : list arc_entry) (name : bytes) : Z + bytes :=
  match es with
  | [] => inl ZCIO_ERR_ARCHIVE
  | e :: es =>
      if bool_decide (e_name e = Some name) then
        let size := Z.max 0 (e_size e) in
        if (size <=? ZCIO_ARCHIVE_MAX_ENTRY) && (size <=? zlen (e_data e))
        then inr (ztake size (e_data e)) else inl ZCIO_ERR_ARCHIVE
      else entry_contents es name
  end.

Lemma entry_contents_cap es name buf : entry_contents es name = inr buf → zlen buf ≤ ZCIO_ARCHIVE_MAX_ENTRY.
Proof.
  induction es as [|e es IH]; cbn [entry_contents]; [done|]. case_bool_decide; [|done].
  destruct (_ && _) eqn:E; [|done]. btest. intros [= <-]. zl.
Qed.

Section Read.
Context {W : Type} `{!Libarchive W} {fs : W → bytes → option (list arc_entry)}.
Context {ents : reader → list arc_entry} {cur : reader → bytes * bool}.
Context {wpath : writer → bytes} {went : writer → list arc_entry}.
Context `{!LibarchiveOk W fs ents cur wpath went} `{Allocator}.

Lemma data_loop_spec fuel r want got c bad : cur r = (c, bad) → zlen got ≤ want →
  want - zlen got < Z.of_nat fuel →
  data_loop fuel r want got = Ok (if want - zlen got <=? zlen c then Some (got ++ ztake (want - zlen got) c)
                                  else if bad then None else Some (got ++ c)).
Proof.
  revert r got c. induction fuel as [|fuel IH]; intros r got c Hc Hg Hf; [lia|]. cbn [data_loop].
  destruct (Z.ltb_spec (zlen got) want) as [Hlt|Hge].
  2:{ replace (want - zlen got) with 0 by lia. rewrite (proj2 (Z.leb_le _ _)) by lia. cbn. rewrite take_0, app_nil_r. done. }
  destruct (archive_read_data r (want - zlen got)) as [[r' k] d] eqn:E.
  apply data_view in E; [|lia]. rewrite Hc in E. destruct c as [|b c].
  - rewrite (proj2 (Z.leb_gt (want - zlen got) _)) by (cbn; lia). destruct bad.
    + by rewrite (proj2 (Z.ltb_lt _ _)).
    + subst k. cbn. by rewrite app_nil_r.
  - destruct E as (Hk & Hkc & Hd & Hc'). rewrite (proj2 (Z.ltb_ge _ _)), (proj2 (Z.eqb_neq _ _)) by lia. rewrite Hd.
    rewrite (IH r' _ (zdrop k (b :: c)) Hc') by zl. clear IH Hc Hc' Hd. set (c0 := b :: c) in *.
    assert (zlen (got ++ ztake k c0) = zlen got + k) as Hl by zl. assert (zlen (zdrop k c0) = zlen c0 - k) as Hl' by zl.
    rewrite Hl, Hl'. f_equal. destruct (Z.leb_spec (want - zlen got) (zlen c0)).
    + rewrite (proj2 (Z.leb_le _ _)) by lia. f_equal. rewrite <- app_assoc. f_equal.
      replace (want - zlen got) with (k + (want - (zlen got + k))) by lia.
      rewrite (Z2Nat.inj_add k) by lia. by rewrite take_take_drop.
    + rewrite (proj2 (Z.leb_gt _ _)) by lia. destruct bad; [done|]. by rewrite <- app_assoc, take_drop.
Qed.

Lemma load_entry_spec r e : cur r = (e_data e, e_bad e) → (∀ n, alloc_ok n = true) →
  load_entry r (e_size e) = Ok (let size := Z.max 0 (e_size e) in
    if (size <=? ZCIO_ARCHIVE_MAX_ENTRY) && (size <=? zlen (e_data e))
    then inr (ztake size (e_data e)) else inl ZCIO_ERR_ARCHIVE).
Proof.
  intros Hc Ha. unfold load_entry.
  assert ((if e_size e <? 0 then 0 else e_size e) = Z.max 0 (e_size e)) as -> by (destruct (Z.ltb_spec (e_size e) 0); lia).
  set (size := Z.max 0 (e_size e)). assert (0 ≤ size) as Hs by lia. clearbody size. cbn zeta.
  destruct (Z.ltb_spec ZCIO_ARCHIVE_MAX_ENTRY size); [by rewrite (proj2 (Z.leb_gt _ _)) by lia|].
  rewrite (proj2 (Z.leb_le size ZCIO_ARCHIVE_MAX_ENTRY)) by lia. unfold zcio_xmalloc_ok. rewrite Ha. cbn [negb].
  rewrite (data_loop_spec _ _ _ [] _ _ Hc) by (cbn [length]; lia). cbn [mbind exec_bind length app andb].
  replace (size - Z.of_nat 0) with size by lia. destruct (Z.leb_spec size (zlen (e_data e))).
  - replace (zlen (ztake size (e_data e)) =? size) with true; [done|]. symmetry. apply Z.eqb_eq. zl.
  - destruct (e_bad e); [done|]. by rewrite (proj2 (Z.eqb_neq _ _)) by lia.
Qed.

Lemma find_entry_spec fuel r name : (length (ents r) < fuel)%nat → (∀ n, alloc_ok n = true) →
  find_entry fuel r name = Ok (entry_contents (ents r) name).
Proof.
  intros Hf Ha. revert r Hf. induction fuel as [|fuel IH]; intros r Hf; [lia|]. cbn [find_entry].
  destruct (archive_read_next_header r) as [r' h] eqn:E. apply header_view in E.
  destruct (ents r) as [|e es]; [by subst h|]. destruct E as (-> & He & Hc). cbn [entry_contents].
  case_bool_decide; [by apply load_entry_spec|]. rewrite IH; [by rewrite skip_view, He|].
  rewrite skip_view, He. cbn in Hf. lia.
Qed.

Lemma open_reader_view w path w' r : open_reader w path = (w', Some r) → fs w path = Some (ents r).
Proof.
  unfold open_reader. destruct (archive_read_new w) as [w1 [x|]] eqn:E; [|done].
  apply read_new_fs in E. intros Ho. apply open_view in Ho. by rewrite <- E.
Qed.

Lemma set_entry_spec w a name w' r : a_mode a = ZCIO_ARCHIVE_READ → open_reader w (a_path a) = (w', Some r) →
  (∀ n, alloc_ok n = true) →
  zcio_archive_set_entry w (Some a) (Some name) = Ok match entry_contents (ents r) name with
    | inl code => (w', Some (a_set_read None 0 0 a), code)
    | inr buf => (w', Some (a_set_read (Some buf) (zlen buf) 0 a), ZCIO_OK)
    end.
Proof.
  intros Hm Ho Ha. unfold zcio_archive_set_entry. rewrite Hm. cbn [a_path a_set_read]. rewrite Ho.
  rewrite find_entry_spec; [|pose proof (headers_bound r); lia|done]. cbn [mbind exec_bind].
  by destruct (entry_contents (ents r) name).
Qed.

(** ** The read cursor *)

(** What is left of the active entry. *)
Definition unread (a : zcio_archive W) : bytes := zdrop (a_rpos a) (default [] (a_rbuf a)).

Definition reading (a : zcio_archive W) : Prop :=
  a_mode a = ZCIO_ARCHIVE_READ ∧ ∃ buf, a_rbuf a = Some buf ∧ a_rlen a = zlen buf ∧ 0 ≤ a_rpos a ≤ zlen buf ∧ zlen buf < 2 ^ 63.

Lemma archive_read_spec a n : reading a → 0 < n →
  ∃ a', zcio_archive_read (Some a) false n = Ok (Some a', Z.min n (zlen (unread a)), ztake n (unread a)) ∧
    reading a' ∧ unread a' = zdrop n (unread a).
Proof.
  intros (Hm & buf & Hb & Hl & Hp & Hs) Hn. unfold zcio_archive_read, unread. rewrite Hm, Hb. cbn [default from_option id].
  rewrite (proj2 (Z.eqb_neq n 0)) by lia. rewrite wrap_small by lia. rewrite Hl.
  assert (zlen (zdrop (a_rpos a) buf) = zlen buf - a_rpos a) as -> by zl.
  destruct (Z.eqb_spec (zlen buf - a_rpos a) 0) as [E|E].
  - exists a. rewrite Hb. cbn [default from_option id]. rewrite drop_ge by lia. rewrite take_nil, drop_nil. split; [by rewrite Z.min_r by lia; rewrite E|].
    split; [|done]. split; [done|]. exists buf. done.
  - assert ((if n <? zlen buf - a_rpos a then n else zlen buf - a_rpos a) = Z.min n (zlen buf - a_rpos a)) as ->
      by (destruct (Z.ltb_spec n (zlen buf - a_rpos a)); lia).
    rewrite mem_read_ok by lia. cbn [mbind exec_bind]. eexists.
    assert (slice (a_rpos a) (Z.min n (zlen buf - a_rpos a)) buf = ztake n (zdrop (a_rpos a) buf)) as ->.
    { unfold slice. destruct (Z.le_ge_cases n (zlen buf - a_rpos a)); [by rewrite Z.min_l by lia|].
      rewrite Z.min_r by lia. rewrite !take_ge; [done|zl|zl]. }
    split; [done|]. split; [split; [done|]; exists buf; cbn; split; [done|]; split; [done|]; split; [lia|done]|].
    cbn [a_rbuf a_rpos a_set_read default from_option id]. rewrite drop_drop.
    destruct (Z.le_ge_cases n (zlen buf - a_rpos a)); [rewrite Z.min_l by lia; f_equal; lia|].
    rewrite !drop_ge by lia. done.
Qed.

(** Reading chunks of [n] bytes until 0 is returned. *)
Fixpoint read_all (fuel : nat) (a : zcio_archive W) (n : Z) (acc : bytes) : exec bytes :=
  match fuel with
  | O => OutOfFuel
  | S fuel =>
      '(a', r, d) ← zcio_archive_read (Some a) false n;
      match a' with
      | None => Fault
      | Some a' => if r <=? 0 then Ok acc else read_all fuel a' n (acc ++ d)
      end
  end.

Lemma read_all_spec fuel a n acc : reading a → 0 < n → (length (unread a) < fuel)%nat →
  read_all fuel a n acc = Ok (acc ++ unread a).
Proof.
  intros Hr Hn. revert a acc Hr. induction fuel as [|fuel IH]; intros a acc Hr Hf; [lia|]. cbn [read_all].
  destruct (archive_read_spec a n Hr Hn) as (a' & -> & Hr' & Hu). cbn [mbind exec_bind].
  destruct (Z.leb_spec (Z.min n (zlen (unread a))) 0) as [H1|H1].
  - assert (unread a = []) as ->; [|by rewrite app_nil_r]. destruct (unread a); [done|cbn in H1; lia].
  - rewrite IH; [|done|rewrite Hu; zl]. by rewrite Hu, <- app_assoc, take_drop.
Qed.
End Read.

(** ** Writing *)

Section Write.
Context {W : Type} `{!Libarchive W} {fs : W → bytes → option (list arc_entry)}.
Context {ents : reader → list arc_entry} {cur : reader → bytes * bool}.
Context {wpath : writer → bytes} {went : writer → list arc_entry}.
Context `{!LibarchiveOk W fs ents cur wpath went} `{Allocator}.
Hypothesis alloc : ∀ n, alloc_ok n = true.
(** Nothing fails on the way to the file. *)
Hypothesis headers_written : ∀ w x name size, (archive_write_header w x name size).2 = true.
Hypothesis data_written : ∀ w x d, (archive_write_data w x d).2 = zlen d.
Hypothesis entries_made : ∀ w, archive_entry_new w = true.

(** The bytes of the entry being written. *)
Definition pending (a : zcio_archive W) : bytes := ztake (a_wlen a) (a_wbuf a).

Definition pending_entry (a : zcio_archive W) : list arc_entry :=
  match a_entry a with Some name => [mk_ent (Some name) (a_wlen a) (pending a) false] | None => [] end.

(** The entries the file has, with the one being written. *)
Definition written (a : zcio_archive W) : list arc_entry :=
  match a_write_arc a with Some arc => went arc ++ pending_entry a | None => [] end.

Record writing (path : bytes) (a : zcio_archive W) : Prop := {
  wr_mode : a_mode a = ZCIO_ARCHIVE_WRITE;
  wr_arc : ∃ arc, a_write_arc a = Some arc ∧ wpath arc = path;
  wr_len : 0 ≤ a_wlen a ≤ zlen (a_wbuf a);
  wr_cap : zlen (a_wbuf a) = 0 ∨ 1 ≤ zlen (a_wbuf a) ≤ Z.max 4096 (2 * a_wlen a);
}.

Lemma pending_length path a : writing path a → zlen (pending a) = a_wlen a.
Proof. intros Hw. pose proof (wr_len _ _ Hw). unfold pending. zl. Qed.

Lemma wbuf_cap_spec fuel ncap need : 1 ≤ ncap < 2 ^ 62 → need < 2 ^ 61 → need ≤ ncap * 2 ^ Z.of_nat fuel →
  ∃ c, wbuf_cap (S fuel) ncap need = Ok c ∧ need ≤ c ∧ ncap ≤ c ≤ Z.max ncap (2 * need).
Proof.
  revert ncap. induction fuel as [|fuel IH]; intros ncap Hn Hd Hp.
  - cbn [wbuf_cap]. change (Z.of_nat 0) with 0 in Hp. rewrite (proj2 (Z.ltb_ge _ _)) by lia. exists ncap. split; [done|lia].
  - cbn [wbuf_cap]. destruct (Z.ltb_spec ncap need); [|exists ncap; split; [done|lia]].
    rewrite wrap_small by lia. rewrite Nat2Z.inj_succ, Z.pow_succ_r in Hp by lia.
    destruct (IH (ncap * 2)) as (c & Hc & H1 & H2); [lia|lia|lia|]. cbn [wbuf_cap] in Hc. exists c. split; [exact Hc|lia].
Qed.

Lemma archive_write_spec path a d name : writing path a → a_entry a = Some name → a_wlen a + zlen d < 2 ^ 60 →
  ∃ a', zcio_archive_write (Some a) (Some d) = Ok (Some a', zlen d) ∧ writing path a' ∧ a_entry a' = Some name ∧
    a_write_arc a' = a_write_arc a ∧ pending a' = pending a ++ d ∧ a_wlen a' = a_wlen a + zlen d.
Proof.
  intros Hw He Hd. pose proof (pending_length _ _ Hw) as Hpl. pose proof Hw as [Hm Ha Hl Hc].
  unfold zcio_archive_write. rewrite Hm, He.
  destruct (Z.eqb_spec (zlen d) 0) as [E|E].
  { exists a. destruct d; [|done]. rewrite app_nil_r. split; [done|]. split; [done|]. split; [done|]. split; [done|]. split; [done|cbn; lia]. }
  rewrite wrap_small by lia.
  assert (∃ buf, (if zlen (a_wbuf a) <? a_wlen a + zlen d then
      ncap ← wbuf_cap 65 (if zlen (a_wbuf a) =? 0 then 4096 else zlen (a_wbuf a)) (a_wlen a + zlen d);
      Ok (if alloc_ok ncap then Some (a_wbuf a ++ replicate (Z.to_nat (ncap - zlen (a_wbuf a))) junk) else None)
    else Ok (Some (a_wbuf a))) = Ok (Some (a_wbuf a ++ buf)) ∧ a_wlen a + zlen d ≤ zlen (a_wbuf a ++ buf) ∧
    zlen (a_wbuf a ++ buf) ≤ Z.max 4096 (2 * (a_wlen a + zlen d))) as (buf & -> & Hb1 & Hb2).
  { destruct (Z.ltb_spec (zlen (a_wbuf a)) (a_wlen a + zlen d)).
    - assert (∃ c0, (if zlen (a_wbuf a) =? 0 then 4096 else zlen (a_wbuf a)) = c0 ∧ 1 ≤ c0 ∧ zlen (a_wbuf a) ≤ c0 ∧ c0 ≤ Z.max 4096 (2 * a_wlen a)) as (c0 & -> & H1 & H2 & H3).
      { eexists. split; [done|]. destruct (Z.eqb_spec (zlen (a_wbuf a)) 0); lia. }
      destruct (wbuf_cap_spec 64 c0 (a_wlen a + zlen d)) as (c & -> & Hc1 & Hc2); [lia|lia|lia|].
      cbn [mbind exec_bind]. rewrite alloc. eexists. split; [done|]. split; zl.
    - exists []. rewrite app_nil_r. split; [done|]. split; [done|lia]. }
  cbn [mbind exec_bind]. rewrite mem_write_ok by lia. cbn [mbind exec_bind]. zlen_simpl_in Hb1. zlen_simpl_in Hb2. eexists. split; [done|].
  split; [split; cbn [a_mode a_write_arc a_wlen a_wbuf a_set_write]; [done|done|zl|right; zl]|].
  split; [done|]. split; [done|]. split; [|done]. unfold pending. cbn [a_wlen a_wbuf a_set_write].
  rewrite (app_assoc _ d). rewrite ztake_app_zlen by zl. f_equal. rewrite take_app_le by lia. done.
Qed.

Lemma flush_spec path w a : writing path a →
  ∃ w' a', flush_write_entry w a = Ok (w', a', ZCIO_OK) ∧ writing path a' ∧ a_entry a' = None ∧ written a' = written a.
Proof.
  intros Hw. pose proof Hw as [Hm (arc & Ha & Hp) Hl Hc]. unfold flush_write_entry. rewrite Ha.
  destruct (a_entry a) as [name|] eqn:He; [|by exists w, a].
  destruct (archive_write_header w arc name (a_wlen a)) as [[w1 arc1] ok] eqn:E1.
  pose proof (headers_written w arc name (a_wlen a)) as Hok. rewrite E1 in Hok. cbn in Hok. subst ok.
  apply write_header_view in E1 as [Hp1 Hw1]. cbn [negb].
  assert (∀ arc', wpath arc' = path → writing path (a_set_write (Some arc') None [] 0 a)) as Hwr.
  { intros arc' Hp'. split; cbn; [done|by exists arc'|lia|by left]. }
  unfold written, pending_entry. rewrite Ha, He. destruct (Z.eqb_spec (a_wlen a) 0) as [E|E]; cbn [negb].
  - cbn [mbind exec_bind]. eexists _, _. split; [done|]. split; [apply Hwr; congruence|]. split; [done|].
    cbn [a_write_arc a_entry a_set_write]. rewrite Hw1, app_nil_r. unfold pending. rewrite E. cbn. by rewrite take_0.
  - rewrite mem_read_ok by lia. cbn [mbind exec_bind]. 
    assert (slice 0 (a_wlen a) (a_wbuf a) = pending a) as -> by (unfold slice, pending; by rewrite drop_0).
    destruct (archive_write_data w1 arc1 (pending a)) as [[w2 arc2] k] eqn:E2.
    pose proof (data_written w1 arc1 (pending a)) as Hk. rewrite E2 in Hk. cbn in Hk. subst k.
    pose proof (pending_length _ _ Hw) as Hpl. rewrite Hpl. rewrite (proj2 (Z.ltb_ge _ _)), Z.eqb_refl by lia. cbn [orb negb mbind exec_bind].
    eapply write_data_view in E2 as [Hp2 Hw2]; [|exact Hw1].
    eexists _, _. split; [done|]. split; [apply Hwr; congruence|]. split; [done|].
    cbn [a_write_arc a_entry a_set_write]. rewrite Hw2, app_nil_r. done.
Qed.

Lemma set_entry_write path w a name : writing path a →
  ∃ w' a', zcio_archive_set_entry w (Some a) (Some name) = Ok (w', Some a', ZCIO_OK) ∧ writing path a' ∧
    a_entry a' = Some name ∧ a_wlen a' = 0 ∧ written a' = written a ++ [mk_ent (Some name) 0 [] false].
Proof.
  intros Hw. unfold zcio_archive_set_entry. rewrite (wr_mode _ _ Hw).
  assert (∃ w1 a1, match a_entry a with Some _ => flush_write_entry w a | None => Ok (w, a, ZCIO_OK) end = Ok (w1, a1, ZCIO_OK) ∧
    writing path a1 ∧ a_entry a1 = None ∧ written a1 = written a) as (w1 & a1 & -> & Hw1 & He1 & Hwr).
  { destruct (a_entry a) eqn:He; [by apply flush_spec|by exists w, a]. }
  cbn [mbind exec_bind]. cbn [Z.eqb ZCIO_OK negb]. rewrite entries_made. cbn [negb].
  destruct Hw1 as [Hm (arc & Ha & Hp) Hl Hc]. eexists _, _. split; [done|].
  split; [split; cbn; [done|by exists arc|lia|by left]|]. split; [done|]. split; [done|].
  rewrite <- Hwr. unfold written, pending_entry. rewrite He1. cbn [a_write_arc a_entry a_set_write]. by rewrite Ha, app_nil_r.
Qed.

Lemma archive_close_spec path w a : writing path a →
  ∃ w', zcio_archive_close w (Some a) = Ok w' ∧ fs w' path = Some (written a).
Proof.
  intros Hw. unfold zcio_archive_close. rewrite (wr_mode _ _ Hw). destruct (wr_arc _ _ Hw) as (arc & Ha & Hp). rewrite Ha.
  assert (∃ w1 a1, match a_entry a with Some _ => '(w, a, _) ← flush_write_entry w a; Ok (w, a) | None => Ok (w, a) end = Ok (w1, a1) ∧
    writing path a1 ∧ a_entry a1 = None ∧ written a1 = written a) as (w1 & a1 & -> & Hw1 & He1 & Hwr).
  { destruct (a_entry a) eqn:He; [|by exists w, a]. destruct (flush_spec path w a Hw) as (w1 & a1 & -> & H1 & H2 & H3).
    cbn [mbind exec_bind]. by exists w1, a1. }
  cbn [mbind exec_bind]. destruct (wr_arc _ _ Hw1) as (arc1 & Ha1 & Hp1). rewrite Ha1. eexists. split; [done|].
  rewrite <- Hp1, write_close_view. f_equal. rewrite <- Hwr. unfold written, pending_entry. by rewrite Ha1, He1, app_nil_r.
Qed.

(** ** Writing a whole archive: each entry in chunks *)

Fixpoint write_chunks (a : zcio_archive W) (chunks : list bytes) : exec (option (zcio_archive W)) :=
  match chunks with
  | [] => Ok (Some a)
  | d :: chunks =>
      '(a', r) ← zcio_archive_write (Some a) (Some d);
      match a' with
      | Some a' => if r =? zlen d then write_chunks a' chunks else Ok None
      | None => Ok None
      end
  end.

Fixpoint write_entries (w : W) (a : zcio_archive W) (script : list (bytes * list bytes))
  : exec (option (W * zcio_archive W)) :=
  match script with
  | [] => Ok (Some (w, a))
  | (name, chunks) :: script =>
      '(w, a, r) ← zcio_archive_set_entry w (Some a) (Some name);
      match a with
      | Some a =>
          if r =? ZCIO_OK then
            a ← write_chunks a chunks;
            match a with Some a => write_entries w a script | None => Ok None end
          else Ok None
      | None => Ok None
      end
  end.

(** [None]: a call failed. *)
Definition write_file (w : W) (path : bytes) (script : list (bytes * list bytes)) : exec (option W) :=
  match zcio_archive_open w (Some path) ZCIO_ARCHIVE_WRITE with
  | (_, None) => Ok None
  | (w, Some a) =>
      r ← write_entries w a script;
      match r with
      | Some (w, a) => w ← zcio_archive_close w (Some a); Ok (Some w)
      | None => Ok None
      end
  end.

Definition script_entry (e : bytes * list bytes) : arc_entry :=
  mk_ent (Some e.1) (zlen (concat e.2)) (concat e.2) false.

Lemma write_chunks_spec path name chunks a : writing path a → a_entry a = Some name →
  a_wlen a + zlen (concat chunks) < 2 ^ 60 →
  ∃ a', write_chunks a chunks = Ok (Some a') ∧ writing path a' ∧ a_entry a' = Some name ∧
    a_write_arc a' = a_write_arc a ∧ pending a' = pending a ++ concat chunks ∧ a_wlen a' = a_wlen a + zlen (concat chunks).
Proof.
  revert a. induction chunks as [|d chunks IH]; intros a Hw He Hs; cbn [write_chunks concat] in *.
  - exists a. rewrite app_nil_r. split; [done|]. split; [done|]. split; [done|]. split; [done|]. split; [done|cbn; lia].
  - rewrite length_app in Hs. destruct (archive_write_spec path a d name Hw He) as (a1 & -> & Hw1 & He1 & Ha1 & Hp1 & Hl1); [lia|].
    cbn [mbind exec_bind]. rewrite Z.eqb_refl. destruct (IH a1 Hw1 He1) as (a2 & -> & Hw2 & He2 & Ha2 & Hp2 & Hl2); [lia|].
    exists a2. split; [done|]. split; [done|]. split; [done|]. split; [congruence|].
    split; [by rewrite Hp2, Hp1, <- app_assoc|]. rewrite length_app. lia.
Qed.

Lemma write_entries_spec path script w a : writing path a → Forall (λ e, zlen (concat e.2) < 2 ^ 60) script →
  ∃ w' a', write_entries w a script = Ok (Some (w', a')) ∧ writing path a' ∧ written a' = written a ++ map script_entry script.
Proof.
  revert w a. induction script as [|[name chunks] script IH]; intros w a Hw Hs; cbn [write_entries].
  { exists w, a. cbn. by rewrite app_nil_r. }
  apply List.Forall_cons_iff in Hs as [Hsz Hs]. cbn [snd] in Hsz.
  destruct (set_entry_write path w a name Hw) as (w1 & a1 & -> & Hw1 & He1 & Hl1 & Hwr1). cbn [mbind exec_bind].
  cbn [Z.eqb ZCIO_OK]. destruct (write_chunks_spec path name chunks a1 Hw1 He1) as (a2 & -> & Hw2 & He2 & Ha2 & Hp2 & Hl2); [lia|].
  cbn [mbind exec_bind]. destruct (IH w1 a2 Hw2 Hs) as (w3 & a3 & -> & Hw3 & Hwr3). exists w3, a3.
  split; [done|]. split; [done|]. rewrite Hwr3. cbn [map]. rewrite cons_middle, app_assoc.
  f_equal. unfold written, pending_entry in Hwr1 |- *. rewrite Ha2, He2. rewrite He1 in Hwr1.
  destruct (wr_arc _ _ Hw1) as (arc & Ha & _). rewrite Ha in Hwr1 |- *. apply app_inj_tail in Hwr1 as [-> Hpe].
  do 2 f_equal. unfold script_entry. cbn [fst snd]. rewrite Hp2, Hl2, Hl1. f_equal; try lia.
  assert (pending a1 = []) as -> by (unfold pending; rewrite Hl1; apply take_0). done.
Qed.

Lemma write_file_spec w path script : Forall (λ e, zlen (concat e.2) < 2 ^ 60) script →
  (∀ w, ∃ w' x, archive_write_new w = (w', Some x)) →
  (∀ w x, ∃ w' x', archive_write_open_filename w x path = (w', Some x')) →
  ∃ w', write_file w path script = Ok (Some w') ∧ fs w' path = Some (map script_entry script).
Proof.
  intros Hs Hnew Hopen. unfold write_file, zcio_archive_open, zcio_strdup_, zcio_xcalloc_ok. rewrite !alloc. cbn [negb].
  destruct (Hnew w) as (w1 & x & ->). destruct (Hopen w1 x) as (w2 & x' & Eo). rewrite Eo.
  apply write_open_view in Eo as [Hp Hw]. set (a := mk_ar _ _ _ _ _ _ _ _ _).
  assert (writing path a) as Hwr by (split; cbn; [done|by exists x'|lia|by left]).
  destruct (write_entries_spec path script w2 a Hwr Hs) as (w3 & a3 & -> & Hw3 & Hwr3). cbn [mbind exec_bind].
  destruct (archive_close_spec path w3 a3 Hw3) as (w4 & -> & Hfs). cbn [mbind exec_bind]. exists w4. split; [done|].
  rewrite Hfs, Hwr3. unfold written, a, pending_entry. cbn. by rewrite Hw.
Qed.
End Write.

(** The entry a name selects is the first the script wrote under it. *)
Lemma script_contents script name data :
  snd <$> List.find (λ e, bool_decide (e.1 = name)) script = Some data →
  zlen (concat data) ≤ ZCIO_ARCHIVE_MAX_ENTRY → entry_contents (map script_entry script) name = inr (concat data).
Proof.
  induction script as [|[n chunks] script IH]; [done|]. cbn [List.find map entry_contents script_entry fst snd e_name e_size e_data].
  case_bool_decide as E; cbn [fmap option_fmap option_map].
  - intros [= <-] Hsz. subst n. rewrite bool_decide_true by done. rewrite Z.max_r by lia.
    rewrite !(proj2 (Z.leb_le _ _)) by lia. cbn [andb]. rewrite take_ge by lia. done.
  - intros Hd Hsz. rewrite bool_decide_false by congruence. by apply IH.
Qed.

(** ** A library for the examples: files are lists of entries, read three bytes
    at a time *)

Record ex_reader := mk_rd { rd_ents : list arc_entry; rd_cur : bytes * bool }.
Record ex_writer := mk_wt { wt_path : bytes; wt_ents : list arc_entry }.
Abbreviation ex_fs := (list (bytes * list arc_entry)).

Definition fs_get (w : ex_fs) (p : bytes) : option (list arc_entry) :=
  snd <$> List.find (λ f, bool_decide (f.1 = p)) w.

Definition add_data (es : list arc_entry) (d : bytes) : list arc_entry :=
  match rev es with
  | [] => []
  | e :: r => rev r ++ [mk_ent (e_name e) (e_size e) (e_data e ++ d) (e_bad e)]
  end.

#[local] Instance ex_archive : Libarchive ex_fs := {|
  reader := ex_reader;
  writer := ex_writer;
  archive_read_new w := (w, Some (mk_rd [] ([], false)));
  archive_read_open_filename w _ p := (w, match fs_get w p with Some es => Some (mk_rd es ([], false)) | None => None end);
  archive_read_next_header r := match rd_ents r with
    | [] => (r, None)
    | e :: es => (mk_rd es (e_data e, e_bad e), Some (e_name e, e_size e))
    end;
  archive_read_data r n := match rd_cur r with
    | ([], bad) => (r, if bad then -1 else 0, [])
    | (c, bad) => let k := Z.min (Z.min n 3) (zlen c) in (mk_rd (rd_ents r) (zdrop k c, bad), k, ztake k c)
    end;
  archive_read_data_skip r := r;
  headers_left r := length (rd_ents r);
  archive_write_new w := (w, Some (mk_wt [] []));
  archive_write_open_filename w _ p := (w, Some (mk_wt p []));
  archive_entry_new _ := true;
  archive_write_header w x name size := (w, mk_wt (wt_path x) (wt_ents x ++ [mk_ent (Some name) size [] false]), true);
  archive_write_data w x d := (w, mk_wt (wt_path x) (add_data (wt_ents x) d), zlen d);
  archive_write_close w x := (wt_path x, wt_ents x) :: w;
|}.

#[local] Instance ex_archive_ok : LibarchiveOk ex_fs fs_get rd_ents rd_cur wt_path wt_ents.
Proof.
  split; cbn.
  - by intros w w' r [= <- _].
  - intros w _ p w' r'. destruct (fs_get w p); by intros [= _ <-].
  - intros r r' h. destruct (rd_ents r); by intros [= <- <-].
  - lia.
  - intros r n r' k d Hn. destruct (rd_cur r) as [[|b c] bad]; [destruct bad; intros [= _ <- _]; lia|].
    intros [= <- <- <-]. cbn [rd_cur]. set (c0 := b :: c). assert (0 < zlen c0) by (unfold c0; cbn; lia).
    change (Z.of_nat (S (length c))) with (zlen c0).
    split; [lia|]. split; [lia|]. split; [|done]. by rewrite take_take, Nat.min_id.
  - done.
  - by intros w _ p w' x' [= _ <-].
  - by intros w x name size w' x' [= _ <-].
  - intros w x d w' x' es e [= _ <-] He. split; [done|]. cbn. rewrite He. unfold add_data. rewrite rev_app_distr. cbn.
    by rewrite rev_involutive.
  - intros w x. unfold fs_get. cbn. by rewrite bool_decide_true.
Qed.

(** ** Properties *)

(** C29: Selecting an entry for reading ends whatever sizes and errors the file
    holds: the first entry of that name is loaded, exactly as many bytes as its
    header declares, at most 256 MiB; a missing entry, an oversized one and one
    that ends or fails to decode early are archive errors that leave no active
    entry. *)
Theorem archive_set_entry_exact {W} (Hl : Libarchive W) fs ents cur wpath went
  (Hok : LibarchiveOk W fs ents cur wpath went) (Ha : Allocator) (w : W) (a : zcio_archive W) name es w' r
  (Hmode : a_mode a = ZCIO_ARCHIVE_READ) (Hopen : open_reader w (a_path a) = (w', Some r))
  (Hfs : fs w (a_path a) = Some es) (Hall : ∀ n, alloc_ok n = true) :
  zcio_archive_set_entry w (Some a) (Some name) = Ok match entry_contents es name with
    | inl code => (w', Some (a_set_read None 0 0 a), code)
    | inr buf => (w', Some (a_set_read (Some buf) (zlen buf) 0 a), ZCIO_OK)
    end ∧
  (∀ buf, entry_contents es name = inr buf → zlen buf ≤ ZCIO_ARCHIVE_MAX_ENTRY).
Proof.
  split.
  - rewrite (set_entry_spec w a name w' r Hmode Hopen Hall).
    apply open_reader_view in Hopen. rewrite Hfs in Hopen. by injection Hopen as <-.
  - intros buf. apply entry_contents_cap.
Qed.

(** An entry of four bytes that declares three, one that is too short, and one
    that fails to decode. *)
Lemma archive_set_entry_exact_witness :
  let es := [mk_ent (Some (B "a")) 3 (B "abcd") false; mk_ent (Some (B "short")) 9 (B "xyz") false;
             mk_ent (Some (B "bad")) 4 (B "xy") true] in
  let w := [(B "f.tar", es)] in
  let a := mk_ar ZCIO_ARCHIVE_READ (B "f.tar") None None None 0 0 [] 0 in
  let Ha := always_alloc in
  entry_contents es (B "a") = inr (B "abc") ∧ entry_contents es (B "short") = inl ZCIO_ERR_ARCHIVE ∧
  entry_contents es (B "bad") = inl ZCIO_ERR_ARCHIVE ∧
  zcio_archive_set_entry w (Some a) (Some (B "a")) = Ok match entry_contents es (B "a") with
    | inl code => (w, Some (a_set_read None 0 0 a), code)
    | inr buf => (w, Some (a_set_read (Some buf) (zlen buf) 0 a), ZCIO_OK)
    end ∧
  (∀ buf, entry_contents es (B "a") = inr buf → zlen buf ≤ ZCIO_ARCHIVE_MAX_ENTRY).
Proof.
  intros es w a Ha. split; [vm_compute; done|]. split; [vm_compute; done|]. split; [vm_compute; done|].
  exact (archive_set_entry_exact ex_archive fs_get rd_ents rd_cur wt_path wt_ents ex_archive_ok Ha w a (B "a") es
    w (mk_rd es ([], false)) eq_refl eq_refl eq_refl (λ _, eq_refl)).
Defined.

(** C28: An archive written entry by entry, each in any chunks, holds exactly
    these entries with their sizes; selecting a name then loads the data of its
    first entry, as the whole string and as reads of any size. *)
Theorem archive_roundtrip {W} (Hl : Libarchive W) fs ents cur wpath went
  (Hok : LibarchiveOk W fs ents cur wpath went) (Ha : Allocator) (w : W) path script
  (Hall : ∀ n, alloc_ok n = true)
  (Hhdr : ∀ w x name size, (archive_write_header w x name size).2 = true)
  (Hdata : ∀ w x d, (archive_write_data w x d).2 = zlen d)
  (Hent : ∀ w, archive_entry_new w = true)
  (Hnew : ∀ w, ∃ w' x, archive_write_new w = (w', Some x))
  (Hopen : ∀ w x, ∃ w' x', archive_write_open_filename w x path = (w', Some x'))
  (Hsize : Forall (λ e, zlen (concat e.2) < 2 ^ 60) script) :
  ∃ w', write_file w path script = Ok (Some w') ∧ fs w' path = Some (map script_entry script) ∧
    ∀ w2 r name data, open_reader w' path = (w2, Some r) →
      snd <$> List.find (λ e, bool_decide (e.1 = name)) script = Some data →
      zlen (concat data) ≤ ZCIO_ARCHIVE_MAX_ENTRY →
      ∃ a, zcio_archive_set_entry w' (Some (mk_ar ZCIO_ARCHIVE_READ path None None None 0 0 [] 0)) (Some name)
             = Ok (w2, Some a, ZCIO_OK) ∧
        zcio_archive_entry_string (Some a) = Ok (Some (concat data)) ∧
        ∀ n, 0 < n → read_all (S (length (concat data))) a n [] = Ok (concat data).
Proof.
  destruct (write_file_spec (fs := fs) (ents := ents) (cur := cur) (wpath := wpath) (went := went)
    Hall Hhdr Hdata Hent w path script Hsize Hnew Hopen) as (w' & Hw & Hfs). exists w'. split; [done|]. split; [done|].
  intros w2 r name data Hr Hfind Hsz. set (a0 := mk_ar _ _ _ _ _ _ _ _ _).
  assert (entry_contents (ents r) name = inr (concat data)) as He.
  { apply open_reader_view in Hr. rewrite Hfs in Hr. injection Hr as <-. by apply script_contents. }
  rewrite (set_entry_spec w' a0 name w2 r eq_refl Hr Hall), He. eexists. split; [done|].
  split.
  - unfold zcio_archive_entry_string, zcio_xmalloc_ok. cbn [a_mode a_rbuf a_rlen a_set_read a0]. rewrite Hall.
    rewrite mem_read_ok by lia. by rewrite slice_all.
  - intros n Hn. rewrite read_all_spec; [done|..|unfold unread; cbn [a_rpos a_rbuf a_set_read default from_option id Z.to_nat]; rewrite drop_0; lia]; [|done].
    split; [done|]. eexists. split; [done|]. split; [done|]. cbn. unfold ZCIO_ARCHIVE_MAX_ENTRY in Hsz. lia.
Qed.

(** Two entries, one of them in three chunks. *)
Lemma archive_roundtrip_witness :
  let script := [(B "a.txt", [B "hello "; B "wor"; B "ld"]); (B "empty", [])] in
  let Ha := always_alloc in
  (match write_file [] (B "f.tar") script with
   | Ok (Some w) => fs_get w (B "f.tar") = Some [mk_ent (Some (B "a.txt")) 11 (B "hello world") false; mk_ent (Some (B "empty")) 0 [] false]
   | _ => False
   end) ∧
  ∃ w', write_file [] (B "f.tar") script = Ok (Some w') ∧ fs_get w' (B "f.tar") = Some (map script_entry script) ∧
    ∀ w2 r name data, open_reader w' (B "f.tar") = (w2, Some r) →
      snd <$> List.find (λ e, bool_decide (e.1 = name)) script = Some data →
      zlen (concat data) ≤ ZCIO_ARCHIVE_MAX_ENTRY →
      ∃ a, zcio_archive_set_entry w' (Some (mk_ar ZCIO_ARCHIVE_READ (B "f.tar") None None None 0 0 [] 0)) (Some name)
             = Ok (w2, Some a, ZCIO_OK) ∧
        zcio_archive_entry_string (Some a) = Ok (Some (concat data)) ∧
        ∀ n, 0 < n → read_all (S (length (concat data))) a n [] = Ok (concat data).
Proof.
  intros script Ha. split; [vm_compute; done|].
  apply (archive_roundtrip ex_archive fs_get rd_ents rd_cur wt_path wt_ents ex_archive_ok Ha [] (B "f.tar") script); try done.
  - intros w. by eexists _, _.
  - intros w x. by eexists _, _.
  - unfold script. apply List.Forall_cons; [cbn; lia|]. apply List.Forall_cons; [cbn; lia|done].
Defined.

(** An archive without entries lists as a null pointer, like a failure. *)
Example empty_archive_lists_null :
  let Ha := always_alloc in
  zcio_archive_entries [(B "f", [])] (Some (mk_ar ZCIO_ARCHIVE_READ (B "f") None None None 0 0 [] 0))
  = Ok ([(B "f", [])], None).
Proof. reflexivity. Qed.
