(* ===== verification/Listen.v ===== *)
(** * Listen: the sockets of the HTTP server

    [make_listener] of [src/http_server.c] and [h3_udp_bind] of [src/h3.c],
    which [Server] takes as operations of its class [Boot], over the system
    calls of [Sock].  [None] is [ZCIO_INVALID_SOCKET]. *)
From stdpp Require Import base tactics list option strings.
From Stdlib Require Import ZArith Lia.
From S2P Require Import Prelude Types Stream Sock Dns Tls Tcp.

Definition LISTEN_BACKLOG : Z := 128.

Section Listen.
Context {W : Type} `{!Sys W} `{Allocator}.

(** The descriptor and, if it was asked for and is known, the bound port.  The
    host is resolved as for [tcp_server_make]. *)
Definition make_listener (w : W) (bind_host : option bytes) (port : Z) (reuse want_port : bool)
  : exec (W * option (Z * option Z)) :=
  let w := zcio_socket_startup w in
  '(w, addr) ← bind_addr w bind_host;
  match addr with
  | None => Ok (w, None)
  | Some addr =>
      match sys_socket w AF_INET SOCK_STREAM 0 with
      | (w, Failed _) => Ok (w, None)
      | (w, Done fd) =>
          let w := zcio_socket_nosigpipe w fd in
          let '(w, _) := if reuse then sys_setsockopt w fd SO_REUSEADDR else (w, Done tt) in
          let '(w, nb) := zcio_set_nonblocking w fd true in
          if negb (nb =? ZCIO_OK) then Ok (closesocket w fd, None)
          else match sys_bind w fd (mk_sin addr (u16 port)) with
          | (w, Failed _) => Ok (closesocket w fd, None)
          | (w, Done _) =>
              match sys_listen w fd LISTEN_BACKLOG with
              | (w, Failed _) => Ok (closesocket w fd, None)
              | (w, Done _) =>
                  if want_port then
                    match sys_getsockname w fd with
                    | (w, Done a) => Ok (w, Some (fd, Some (sin_port a)))
                    | (w, Failed _) => Ok (w, Some (fd, None))
                    end
                  else Ok (w, Some (fd, None))
              end
          end
      end
  end.

Definition h3_udp_bind (w : W) (port : Z) : W * option Z :=
  let w := zcio_socket_startup w in
  match sys_socket w AF_INET SOCK_DGRAM 0 with
  | (w, Failed _) => (w, None)
  | (w, Done fd) =>
      let w := zcio_socket_nosigpipe w fd in
      let '(w, _) := sys_setsockopt w fd SO_REUSEADDR in
      match sys_bind w fd (mk_sin 0 (u16 port)) with
      | (w, Failed _) => (closesocket w fd, None)
      | (w, Done _) =>
          let '(w, nb) := zcio_set_nonblocking w fd true in
          if negb (nb =? ZCIO_OK) then (closesocket w fd, None) else (w, Some fd)
      end
  end.
End Listen.
