(* ===== verification/NetFds.v ===== *)
(** * NetFds: no descriptor leaks

    The functions that open a socket - TCP clients, servers and accepts, UDP
    and multicast endpoints, the search for the local address, the HTTP
    server's listeners - either hand it to the object they return or close it
    again, on every error path: what is open afterwards is what was open
    before, and the new object's descriptor.  (The HTTP server's own accept
    loop is modelled over another interface to the sockets, in Server; its
    descriptors are not counted here.) *)
From stdpp Require Import base tactics list option strings gmap.
From Stdlib Require Import ZArith Lia.
From S2P Require Import Prelude Types Stream Sock Dns Tls Tcp TcpSafe Udp Listen.

(** ** Open descriptors

    Only [socket] and [accept] open one and only [close] closes one; a process
    has no more than [FD_SETSIZE].  For [AF_INET] the resolver gives IPv4 addresses. *)
Class SysFds (W : Type) `{!Sys W} (fds : W → gset Z) : Prop := {
  socket_fds : ∀ w f t p, match sys_socket w f t p with
    | (w', Done fd) => 0 ≤ fd < FD_SETSIZE ∧ fd ∉ fds w ∧ fds w' = {[fd]} ∪ fds w
    | (w', Failed _) => fds w' = fds w end;
  accept_fds : ∀ w lfd, match sys_accept w lfd with
    | (w', Done fd) => 0 ≤ fd < FD_SETSIZE ∧ fd ∉ fds w ∧ fds w' = {[fd]} ∪ fds w
    | (w', Failed _) => fds w' = fds w end;
  close_fds : ∀ w fd, fds (closesocket w fd) = fds w ∖ {[fd]};
  shutdown_fds : ∀ w fd, fds (sys_shutdown w fd) = fds w;
  clock_fds : ∀ w, fds (clock_gettime w).1 = fds w;
  select_fds : ∀ w fd r wr tv, fds (sys_select w fd r wr tv).1 = fds w;
  getfl_fds : ∀ w fd, fds (fcntl_getfl w fd).1 = fds w;
  setfl_fds : ∀ w fd x, fds (fcntl_setfl w fd x).1 = fds w;
  connect_fds : ∀ w fd a, fds (sys_connect w fd a).1 = fds w;
  bind_fds : ∀ w fd a, fds (sys_bind w fd a).1 = fds w;
  listen_fds : ∀ w fd n, fds (sys_listen w fd n).1 = fds w;
  setsockopt_fds : ∀ w fd o, fds (sys_setsockopt w fd o).1 = fds w;
  so_error_fds : ∀ w fd, fds (so_error w fd).1 = fds w;
  getsockname_fds : ∀ w fd, fds (sys_getsockname w fd).1 = fds w;
  getaddrinfo_fds : ∀ w h p f t, fds (getaddrinfo w h p f t).1 = fds w;
  getaddrinfo_ipv4 : ∀ w h p t, Forall ipv4_candidate match (getaddrinfo w h p AF_INET t).2 with inr l => l | inl _ => [] end;
}.

(** What a function that returns an object with descriptor [o] may leave. *)
Definition opened {W} (fds : W → gset Z) (w w' : W) (o : option Z) : Prop :=
  match o with
  | None => fds w' = fds w
  | Some fd => fd ∉ fds w ∧ fds w' = {[fd]} ∪ fds w
  end.

(** The backend: a handshake returns, opens and closes nothing and keeps its
    socket; destroying an overlay closes its socket. *)
Class TlsFds {W C T : Type} `{!OverlayFree W T} (fds : W → gset Z) (l : tls_lib W C tcp_sockctx T) (ov_fd : T → Z) : Prop := {
  wrap_fds : ∀ w c p is_server verify f, backend_op l tb_wrap = Some f → 0 ≤ t_fd p < FD_SETSIZE →
    ∃ w' r, f w c p is_server verify = Ok (w', r) ∧ fds w' = fds w ∧
      match r with inl p' => t_fd p' = t_fd p ∧ t_closed p' = t_closed p | inr t => ov_fd t = t_fd p end;
  free_fds : ∀ w t, 0 ≤ ov_fd t < FD_SETSIZE → ∃ w', overlay_free w t = Ok w' ∧ fds w' = fds w ∖ {[ov_fd t]};
}.

Lemma close_new (s : gset Z) fd : fd ∉ s → ({[fd]} ∪ s) ∖ {[fd]} = s.
Proof. set_solver. Qed.

Section Fds.
Context {W : Type} `{!Sys W} {clk : W → Z} {late : Z} `{!SysTime W clk late} {fds : W → gset Z} `{!SysFds W fds}.

Lemma now_fds w : fds (zcio_now_ms w).1 = fds w.
Proof.
  pose proof (clock_fds w) as H. unfold zcio_now_ms, zcio_now_ms_. by destruct (clock_gettime w) as [w' [s ns]].
Qed.

Lemma select_loop_fds fuel w fd r wr t d w' rc r1 r2 :
  select_loop fuel w fd r wr t d = Ok (w', rc, r1, r2) → fds w' = fds w.
Proof.
  revert w. induction fuel as [|fuel IH]; intros w; cbn [select_loop]; [done|]. destruct (negb _); [done|].
  assert (∃ w1 tv, (if 0 <=? t then let '(w, rem) := remaining w d in (w, Some (rem / 1000, (rem mod 1000) * 1000))
    else (w, None)) = (w1, tv) ∧ fds w1 = fds w) as (w1 & tv & -> & H1).
  { destruct (0 <=? t); [|by eexists _, _]. unfold remaining. pose proof (now_fds w) as H.
    destruct (zcio_now_ms w) as [w1 now]. by eexists _, _. }
  pose proof (select_fds w1 fd r wr tv) as H2. destruct (sys_select w1 fd r wr tv) as [w2 x]. cbn [fst] in H2.
  assert (fds w2 = fds w) as H3 by congruence.
  destruct x as [e|[[rc' b1] b2]]; [|intros [= <- _ _ _]; done].
  destruct e; try (intros [= <- _ _ _]; done). destruct (t <? 0); [intros H4%IH; congruence|].
  pose proof (now_fds w2) as H5. destruct (zcio_now_ms w2) as [w3 now]. cbn [fst] in H5.
  destruct (0 <? _); [intros H4%IH; congruence|intros [= <- _ _ _]; congruence].
Qed.

Lemma select_keeps w fd r wr t : 0 ≤ fd < FD_SETSIZE →
  ∃ w' rc r1 r2, zcio_select_eintr w fd r wr t = Ok (w', rc, r1, r2) ∧ fds w' = fds w.
Proof.
  intros Hfd. destruct (select_total (clk := clk) (late := late) w fd r wr t) as (w' & rc & r1 & r2 & E & _); [by apply fd_in_set|].
  exists w', rc, r1, r2. split; [done|]. revert E. unfold zcio_select_eintr, deadline_of. destruct (0 <=? t).
  - pose proof (now_fds w) as H. destruct (zcio_now_ms w) as [w1 now]. cbn in H. intros E%select_loop_fds. congruence.
  - by intros E%select_loop_fds.
Qed.

Lemma nonblocking_fds w fd on : fds (zcio_set_nonblocking w fd on).1 = fds w.
Proof.
  unfold zcio_set_nonblocking. pose proof (getfl_fds w fd) as H1. destruct (fcntl_getfl w fd) as [w1 [e|fl]]; cbn [fst] in *; [done|].
  destruct (fl <? 0); [done|]. match goal with |- context [fcntl_setfl w1 fd ?x] => pose proof (setfl_fds w1 fd x) as H2 end.
  destruct (fcntl_setfl w1 fd _) as [w2 [e|u]]; cbn [fst] in *; congruence.
Qed.

(** A socket that is opened and then closed again. *)
Lemma opened_closed w w' w2 fd : opened fds w w' (Some fd) → fds w2 = fds w' → opened fds w (closesocket w2 fd) None.
Proof. intros [H1 H2] H3. cbn. rewrite close_fds, H3, H2. by apply close_new. Qed.

Lemma opened_kept w w' w2 fd : opened fds w w' (Some fd) → fds w2 = fds w' → opened fds w w2 (Some fd).
Proof. intros [H1 H2] H3. split; [done|]. congruence. Qed.

Lemma opened_after w w0 w' o : fds w0 = fds w → opened fds w0 w' o → opened fds w w' o.
Proof. intros H. destruct o; cbn; rewrite H; done. Qed.

Lemma socket_opened w f t p : match sys_socket w f t p with
  | (w', Done fd) => 0 ≤ fd < FD_SETSIZE ∧ opened fds w w' (Some fd)
  | (w', Failed _) => fds w' = fds w end.
Proof. pose proof (socket_fds w f t p). destruct (sys_socket w f t p) as [w' [e|fd]]; [done|]. destruct H as (? & ? & ?). by split. Qed.

(** ** Names *)

Context `{Allocator}.

Lemma candidates_total l vec : Forall ipv4_candidate l → ∃ v, candidates AF_INET l vec = Ok v.
Proof. intros Hf. destruct (candidates_ipv4 l vec Hf) as [->|(v & -> & _)]; by eexists. Qed.

Lemma resolve_keeps w h : ∃ w' r, zcio_resolve_ipv4 w h = Ok (w', r) ∧ fds w' = fds w.
Proof.
  unfold zcio_resolve_ipv4. destruct h as [h|]; [|by eexists _, _]. destruct (zcio_is_ipv4 _); [by eexists _, _|].
  unfold zcio_dns_query_a, dns_query_family, zcio_socket_startup.
  pose proof (getaddrinfo_fds w h None AF_INET SOCK_STREAM) as Hf.
  pose proof (getaddrinfo_ipv4 w h None SOCK_STREAM) as Hc.
  destruct (getaddrinfo w h None AF_INET SOCK_STREAM) as [w1 [e|[|p l]]]; cbn [fst snd] in *; [by eexists _, _|by eexists _, _|].
  destruct (negb _); [by eexists _, _|]. destruct (candidates_total (p :: l) [] Hc) as [v ->]. cbn [mbind exec_bind].
  destruct v as [[|ip ips]|]; by eexists _, _.
Qed.

Lemma local_ipv4_opened w : opened fds w (zcio_local_ipv4 w).1 None.
Proof.
  unfold zcio_local_ipv4, zcio_socket_startup. pose proof (socket_opened w AF_INET SOCK_DGRAM 0) as Ho.
  destruct (sys_socket w _ _ _) as [w1 [e|fd]]; [done|]. destruct Ho as [_ Ho].
  match goal with |- context [sys_connect w1 fd ?a] => pose proof (connect_fds w1 fd a) as Hc; destruct (sys_connect w1 fd a) as [w2 [e|u]] end;
    cbn [fst] in *; [by eapply opened_closed|].
  pose proof (getsockname_fds w2 fd) as Hg. destruct (sys_getsockname w2 fd) as [w3 [e|a]]; cbn [fst] in *;
    (eapply opened_closed; [exact Ho|congruence]).
Qed.

(** ** TCP *)

Lemma candidate_opened w p cto : ∃ w' r, try_candidate w p cto = Ok (w', r) ∧
  opened fds w w' match r with Connected fd => Some fd | _ => None end ∧
  match r with Connected fd => 0 ≤ fd < FD_SETSIZE | _ => True end.
Proof.
  unfold try_candidate, zcio_socket_nosigpipe.
  pose proof (socket_opened w (ai_family p) (ai_socktype p) (ai_protocol p)) as Ho.
  destruct (sys_socket w _ _ _) as [w1 [e|fd]]; [by eexists _, NoSocket|]. destruct Ho as [Hr Ho].
  pose proof (nonblocking_fds w1 fd true) as Hn. destruct (zcio_set_nonblocking w1 fd true) as [w2 nb]. cbn [fst] in Hn.
  pose proof (connect_fds w2 fd (ai_addr p)) as Hc. destruct (sys_connect w2 fd (ai_addr p)) as [w3 [e|u]]; cbn [fst] in Hc.
  2:{ eexists _, (Connected fd). split; [done|]. split; [eapply opened_kept; [exact Ho|congruence]|done]. }
  assert (opened fds w (closesocket w3 fd) None) as Hcl by (eapply opened_closed; [exact Ho|congruence]).
  destruct e; try (by eexists _, (NotConnected false)). unfold tcp_wait.
  destruct (select_keeps w3 fd false true cto Hr) as (w4 & rc & r1 & r2 & -> & H4). cbn [mbind exec_bind].
  destruct ((0 <? rc) && _).
  - pose proof (so_error_fds w4 fd) as He. destruct (so_error w4 fd) as [w5 err]. cbn [fst] in He. destruct (err =? 0).
    + eexists _, (Connected fd). split; [done|]. split; [eapply opened_kept; [exact Ho|congruence]|done].
    + eexists _, (NotConnected false). split; [done|]. split; [eapply opened_closed; [exact Ho|congruence]|done].
  - eexists _, (NotConnected (rc =? 0)). split; [done|]. split; [eapply opened_closed; [exact Ho|congruence]|done].
Qed.

(** The descriptor of a result. *)
Definition sum_fd {A} (f : A → Z) (r : Z + A) : option Z := match r with inl _ => None | inr a => Some (f a) end.

Lemma candidates_opened l w cto to : ∃ w' r, try_candidates w l cto to = Ok (w', r) ∧
  opened fds w w' (sum_fd id r) ∧ match r with inr fd => 0 ≤ fd < FD_SETSIZE | _ => True end.
Proof.
  revert w to. induction l as [|p l IH]; intros w to; cbn [try_candidates]; [by eexists _, _|].
  destruct (candidate_opened w p cto) as (w1 & r & -> & Ho & Hr). cbn [mbind exec_bind].
  destruct r as [|b|fd]; [| |by eexists _, _].
  - destruct (IH w1 to) as (w2 & r & -> & Ho2 & Hr2). eexists _, _. split; [done|]. split; [by eapply opened_after|done].
  - destruct (IH w1 b) as (w2 & r & -> & Ho2 & Hr2). eexists _, _. split; [done|]. split; [by eapply opened_after|done].
Qed.

Lemma connect_opened w host port cto : ∃ w' r, tcp_do_connect w host port cto = Ok (w', r) ∧
  opened fds w w' (sum_fd id r) ∧ match r with inr fd => 0 ≤ fd < FD_SETSIZE | _ => True end.
Proof.
  unfold tcp_do_connect, zcio_socket_startup. pose proof (getaddrinfo_fds w host (Some port) AF_UNSPEC SOCK_STREAM) as Hg.
  destruct (getaddrinfo w host _ _ _) as [w1 [e|[|p l]]]; cbn [fst] in Hg; [by eexists _, _|by eexists _, _|].
  destruct (candidates_opened (p :: l) w1 (if 0 <? cto then cto else TCP_DEFAULT_CONNECT_TIMEOUT_MS) false) as (w2 & r & E & Ho & Hr).
  exists w2, r. split; [exact E|]. split; [by eapply opened_after|done].
Qed.

Lemma destroy_fds w s : t_gone s = false → fds (tcp_s_destroy w s) = fds w ∖ {[t_fd s]}.
Proof. intros Hg. unfold tcp_s_destroy. by rewrite Hg, close_fds, shutdown_fds. Qed.

Section Client.
Context {C T : Type} `{!OverlayFree W T} (l : tls_lib W C tcp_sockctx T) (ov_fd : T → Z) `{!TlsFds fds l ov_fd}.
Lemma tls_wrap_fds w c p is_server verify : 0 ≤ t_fd p < FD_SETSIZE →
  ∃ w' r, zcio_tls_wrap w l c p is_server verify = Ok (w', r) ∧ fds w' = fds w ∧
    match r with inl p' => t_fd p' = t_fd p ∧ t_closed p' = t_closed p | inr t => ov_fd t = t_fd p end.
Proof. intros Hp. unfold zcio_tls_wrap. destruct (backend_op l tb_wrap) as [f|] eqn:E; [by apply wrap_fds|by eexists _, _]. Qed.

(** The socket a stream closes when it is freed. *)
Definition stream_fd (s : net_stream tcp_sockctx T) (fd : Z) : Prop :=
  match s with Plain p => t_fd p = fd ∧ t_gone p = false | Overlay t => ov_fd t = fd end.

Lemma stream_free_fds w s fd : stream_fd s fd → 0 ≤ fd < FD_SETSIZE →
  ∃ w', stream_free w s = Ok w' ∧ fds w' = fds w ∖ {[fd]}.
Proof.
  destruct s as [p|t]; cbn; [intros [<- Hg] _|intros <- Hfd; by apply free_fds].
  eexists. split; [done|]. by apply destroy_fds.
Qed.

Lemma plain_stream fd s : tcp_make_plain_stream fd = Some s → 0 ≤ fd → t_fd s = fd ∧ t_closed s = false ∧ t_gone s = false.
Proof.
  unfold tcp_make_plain_stream. destruct (zcio_xcalloc_ok 1 12), (alloc_ok 24); intros [= <-] Hfd.
  split; [done|]. split; [done|]. unfold t_gone, ZCIO_INVALID_SOCKET. cbn. apply Z.eqb_neq. lia.
Qed.

Lemma gone_same p p' : t_fd p' = t_fd p → t_closed p' = t_closed p → t_gone p' = t_gone p.
Proof. unfold t_gone. by intros -> ->. Qed.

(** Clients: the descriptor is the client's, or there is none. *)
Lemma client_opened w host port ctx verify cto ito :
  ∃ w' r, tcp_client_make w l host port ctx verify cto ito = Ok (w', r) ∧ opened fds w w' (sum_fd c_fd r) ∧
    match r with inr c => 0 ≤ c_fd c < FD_SETSIZE ∧ stream_fd (c_stream c) (c_fd c) | inl _ => True end.
Proof.
  unfold tcp_client_make. destruct host as [host|]; [|by eexists _, _].
  destruct (connect_opened w host port cto) as (w1 & r & -> & Ho & Hr). cbn [mbind exec_bind].
  destruct r as [code|fd]; [by eexists _, _|]. cbn [sum_fd id] in Ho.
  destruct (tcp_make_plain_stream fd) as [p|] eqn:Ep.
  2:{ eexists _, _. split; [done|]. split; [by eapply opened_closed|done]. }
  apply plain_stream in Ep as (Hpf & Hpc & Hpg); [|lia].
  set (p' := if 0 <? ito then t_set_timeout p ito else p).
  assert (t_fd p' = fd ∧ t_closed p' = false ∧ t_gone p' = false) as (Hpf' & Hpc' & Hpg') by (unfold p'; by destruct (0 <? ito)).
  clearbody p'.
  assert (∃ w2 use, match ctx with None => Ok (w1, inr (Plain p'))
    | Some _ => '(w, r) ← zcio_tls_wrap w1 l ctx p' false verify; Ok (w, match r with inl plain => inl plain | inr t => inr (Overlay t) end) end
      = Ok (w2, use) ∧ fds w2 = fds w1 ∧
    match use with inl p2 => t_fd p2 = fd ∧ t_gone p2 = false | inr s => stream_fd s fd end) as (w2 & use & -> & Hw2 & Huse).
  { destruct ctx as [ctx|]; [|by eexists _, _]. destruct (tls_wrap_fds w1 (Some ctx) p' false verify) as (w2 & r & -> & Hf & Hc); [by rewrite Hpf'|].
    cbn [mbind exec_bind]. eexists _, _. split; [done|]. split; [done|]. destruct r as [p2|t]; cbn; [|congruence].
    destruct Hc as [Hc1 Hc2]. split; [congruence|]. by rewrite (gone_same _ _ Hc1 Hc2). }
  cbn [mbind exec_bind]. destruct use as [p2|s].
  - eexists _, _. split; [done|]. split; [|done]. destruct Huse as [Hf Hg]. cbn. rewrite (destroy_fds _ _ Hg), Hf, Hw2.
    destruct Ho as [Ho1 ->]. by apply close_new.
  - destruct (zcio_xcalloc_ok 1 24).
    + eexists _, _. split; [done|]. split; [by eapply opened_kept|done].
    + destruct (stream_free_fds w2 s fd Huse Hr) as (w3 & -> & H3). cbn [mbind exec_bind]. eexists _, _. split; [done|].
      split; [|done]. cbn. rewrite H3, Hw2. destruct Ho as [Ho1 ->]. by apply close_new.
Qed.

(** Freeing a client closes what opening it opened. *)
Lemma client_open_free w host port ctx verify cto ito :
  ∃ w' r, tcp_client_make w l host port ctx verify cto ito = Ok (w', r) ∧ opened fds w w' (sum_fd c_fd r) ∧
    ∀ c, r = inr c → ∃ w2, zcio_tcp_client_free w' (Some c) = Ok w2 ∧ fds w2 = fds w.
Proof.
  destruct (client_opened w host port ctx verify cto ito) as (w1 & r & E & Ho & Hr). exists w1, r.
  split; [exact E|]. split; [exact Ho|]. intros c ->. destruct Hr as [Hr Hs].
  destruct (stream_free_fds w1 _ _ Hs Hr) as (w2 & E2 & H2). exists w2. split; [exact E2|].
  rewrite H2. destruct Ho as [Ho ->]. by apply close_new.
Qed.

(** Without a context the client's stream is the socket's. *)
Lemma client_plain w host port verify cto ito w' c :
  tcp_client_make w l host port None verify cto ito = Ok (w', inr c) → ∃ p, c_stream c = Plain p ∧ c_tls_ctx c = None.
Proof.
  unfold tcp_client_make. destruct host as [host|]; [|done].
  destruct (tcp_do_connect w host port cto) as [[w1 [code|fd]]| |]; cbn [mbind exec_bind]; try done.
  destruct (tcp_make_plain_stream fd) as [p|]; cbn [mbind exec_bind]; [|done].
  destruct (zcio_xcalloc_ok 1 24); [|done]. intros [= _ <-]. eexists. split; [done|]. done.
Qed.

Lemma bind_addr_keeps w host : ∃ w' a, bind_addr w host = Ok (w', a) ∧ fds w' = fds w.
Proof.
  unfold bind_addr. destruct host as [[|b h]|]; [by eexists _, _| |by eexists _, _]. case_bool_decide; [by eexists _, _|].
  destruct (inet_pton4 (b :: h)); [by eexists _, _|]. destruct (resolve_keeps w (Some (b :: h))) as (w1 & r & -> & Hf).
  cbn [mbind exec_bind]. by eexists _, _.
Qed.

Lemma server_opened w host port ctx nb : ∃ w' (s : option (zcio_tcp_server C T)),
  tcp_server_make w host port ctx nb = Ok (w', s) ∧ opened fds w w' (ts_listen_fd <$> s).
Proof.
  unfold tcp_server_make, zcio_socket_startup, zcio_socket_nosigpipe.
  destruct (bind_addr_keeps w host) as (w0 & a & -> & H0). cbn [mbind exec_bind].
  destruct a as [a|]; [|by eexists _, None].
  pose proof (socket_opened w0 AF_INET SOCK_STREAM 0) as Ho. destruct (sys_socket w0 _ _ _) as [w1 [e|fd]].
  { eexists _, None. split; [done|]. cbn. congruence. }
  destruct Ho as [Hr Ho]. assert (opened fds w w1 (Some fd)) as Ho' by (by eapply opened_after).
  pose proof (nonblocking_fds w1 fd true) as Hn. destruct (zcio_set_nonblocking w1 fd true) as [w2 rc]. cbn [fst] in Hn.
  destruct (negb _); [eexists _, None; split; [done|]; by eapply opened_closed|].
  pose proof (setsockopt_fds w2 fd SO_REUSEADDR) as Hs. destruct (sys_setsockopt w2 fd _) as [w3 u]. cbn [fst] in Hs.
  pose proof (bind_fds w3 fd (mk_sin a (u16 port))) as Hb. destruct (sys_bind w3 fd _) as [w4 [e|u4]]; cbn [fst] in Hb.
  { eexists _, None. split; [done|]. eapply opened_closed; [exact Ho'|congruence]. }
  pose proof (listen_fds w4 fd TCP_BACKLOG) as Hl. destruct (sys_listen w4 fd _) as [w5 [e|u5]]; cbn [fst] in Hl.
  { eexists _, None. split; [done|]. eapply opened_closed; [exact Ho'|congruence]. }
  unfold tcp_server_wrap. destruct (zcio_xcalloc_ok 1 80).
  - eexists _, (Some _). split; [done|]. cbn [fmap option_fmap option_map ts_listen_fd]. eapply opened_kept; [exact Ho'|congruence].
  - eexists _, None. split; [done|]. eapply opened_closed; [exact Ho'|congruence].
Qed.

(** *** Accepting *)

Lemma accept_opened `{!SysIo W} w lfd : ∃ w' r, retry (λ w, sys_accept w lfd) w = Ok (w', r) ∧
  match r with Done fd => 0 ≤ fd < FD_SETSIZE ∧ opened fds w w' (Some fd) | Failed _ => opened fds w w' None end.
Proof.
  destruct (retry_spec (λ w, sys_accept w lfd)) with (w := w) as (w1 & w2 & r & E & _).
  { intros v v' x. apply accept_signals. }
  exists w2, r. split; [exact E|]. apply retry_final in E. clear w1.
  induction E as [v v' x E _|v v1 e v' x E He _ IH]; pose proof (accept_fds v lfd) as Ha; cbn in E; rewrite E in Ha.
  - destruct x as [e|fd]; [done|]. by destruct Ha as (? & ? & ?).
  - destruct e as [e|fd]; [|done]. destruct x as [e'|fd]; [by eapply opened_after|].
    destruct IH as [Hr IH]. split; [done|]. by eapply opened_after.
Qed.

(** The socket of the connection with an id. *)
Definition conn_fd (s : zcio_tcp_server C T) (id : option Z) : option Z := i ← id; n_fd <$> conn_of s i.

(** An accepted connection's stream closes its socket. *)
Definition conn_held (s : zcio_tcp_server C T) (id : option Z) : Prop :=
  ∀ i, id = Some i → ∃ c, conn_of s i = Some c ∧ stream_fd (n_stream c) (n_fd c) ∧ 0 ≤ n_fd c < FD_SETSIZE.

Lemma freed_again w w1 use fd : opened fds w w1 (Some fd) → stream_fd use fd → 0 ≤ fd < FD_SETSIZE →
  ∃ w', stream_free w1 use = Ok w' ∧ opened fds w w' None.
Proof.
  intros [Ho1 Ho2] Hu Hr. destruct (stream_free_fds w1 use fd Hu Hr) as (w' & -> & Hf). eexists. split; [done|].
  cbn. rewrite Hf, Ho2. by apply close_new.
Qed.

Lemma register_opened N w w1 s cfd use : srv_wf N s → N < 2 ^ 60 - 1 → opened fds w w1 (Some cfd) →
  stream_fd use cfd → 0 ≤ cfd < FD_SETSIZE →
  ∃ w' s' id, register_conn w1 s cfd use = Ok (w', s', id) ∧ srv_wf (N + 1) s' ∧
    opened fds w w' (conn_fd s' id) ∧ conn_held s' id.
Proof.
  intros Hwf HN Ho Hu Hr. destruct (freed_again _ _ _ _ Ho Hu Hr) as (wf & Ef & Hf). unfold register_conn. rewrite Ef.
  destruct (zcio_xcalloc_ok 1 16).
  2:{ cbn [mbind exec_bind]. eexists _, s, None. split; [done|]. split; [by eapply wf_mono, Hwf; lia|]. by split. }
  pose proof (accept_id_spec N s Hwf ltac:(lia)) as Ha. destruct (accept_id s) as [s1 id].
  destruct Ha as (Hwf1 & Hid & Hfree & _).
  destruct (server_store_spec (N + 1) s1 id (mk_tconn cfd use) Hwf1 ltac:(lia) Hid Hfree)
    as (s2 & rc & -> & Hwf2 & _ & _ & _ & _ & Hc2 & _). cbn [mbind exec_bind].
  destruct (Z.eqb_spec rc ZCIO_OK) as [Erc|_].
  - assert (conn_of s2 id = Some (mk_tconn cfd use)) as Hc by (rewrite (Hc2 Erc); by rewrite bool_decide_true).
    eexists _, s2, (Some id). split; [done|]. split; [done|]. split; [cbn; by rewrite Hc|].
    intros i [= <-]. by exists (mk_tconn cfd use).
  - eexists _, s2, None. split; [done|]. split; [done|]. by split.
Qed.

Lemma server_accept_opened `{!SysIo W} N w (s : zcio_tcp_server C T) t : srv_wf N s → N < 2 ^ 60 - 1 → 0 ≤ ts_listen_fd s < FD_SETSIZE →
  ∃ w' s' id, zcio_tcp_server_accept w l (Some s) t = Ok (w', Some s', id) ∧ srv_wf (N + 1) s' ∧
    opened fds w w' (conn_fd s' id) ∧ conn_held s' id.
Proof.
  intros Hwf HN Hl. unfold zcio_tcp_server_accept, tcp_wait, zcio_socket_nosigpipe.
  assert (∀ w', opened fds w w' None → ∃ w1 s' id, Ok (w', Some s, None) = Ok (w1, Some s', id) ∧ srv_wf (N + 1) s' ∧
    opened fds w w1 (conn_fd s' id) ∧ conn_held s' id) as Hnone.
  { intros w' Ho. eexists _, s, None. split; [done|]. split; [by eapply wf_mono, Hwf; lia|]. by split. }
  destruct (select_keeps w (ts_listen_fd s) true false t Hl) as (w1 & rc & r1 & r2 & -> & H1). cbn [mbind exec_bind].
  destruct (rc <=? 0); [by apply Hnone|]. destruct (negb _); [by apply Hnone|].
  destruct (accept_opened w1 (ts_listen_fd s)) as (w2 & r & -> & Ho). cbn [mbind exec_bind].
  destruct r as [e|cfd]; [apply Hnone; by eapply opened_after|]. destruct Ho as [Hr Ho]. apply (opened_after w) in Ho; [|done].
  pose proof (nonblocking_fds w2 cfd true) as Hn. destruct (zcio_set_nonblocking w2 cfd true) as [w3 nb]. cbn [fst] in Hn.
  assert (opened fds w w3 (Some cfd)) as Ho3 by (by eapply opened_kept).
  destruct (tcp_make_plain_stream cfd) as [p|] eqn:Ep; [|apply Hnone; by eapply opened_closed].
  apply plain_stream in Ep as (Hpf & Hpc & Hpg); [|lia].
  destruct (ts_tls_ctx s) as [ctx|].
  - destruct (tls_wrap_fds w3 (Some ctx) p true false) as (w4 & [p'|o] & -> & H4 & Hc); [by rewrite Hpf| |]; cbn [mbind exec_bind].
    + apply Hnone. destruct Hc as [Hc1 Hc2]. destruct Ho3 as [Ho1 Ho2]. cbn.
      rewrite destroy_fds by (by rewrite (gone_same _ _ Hc1 Hc2)). rewrite Hc1, Hpf, H4, Ho2. by apply close_new.
    + destruct (register_opened N w w4 s cfd (Overlay o) Hwf HN) as (w5 & s' & id & -> & Hreg);
        [by eapply opened_kept|cbn; congruence|done|]. cbn [mbind exec_bind]. by eexists _, s', id.
  - destruct (register_opened N w w3 s cfd (Plain p) Hwf HN Ho3) as (w5 & s' & id & -> & Hreg); [done|done|].
    cbn [mbind exec_bind]. by eexists _, s', id.
Qed.

(** Closing the accepted connection closes its socket. *)
Lemma accept_close `{!SysIo W} N w (s : zcio_tcp_server C T) t : srv_wf N s → N < 2 ^ 60 - 1 → 0 ≤ ts_listen_fd s < FD_SETSIZE →
  ∃ w' s' id, zcio_tcp_server_accept w l (Some s) t = Ok (w', Some s', id) ∧
    opened fds w w' (conn_fd s' id) ∧
    ∀ i, id = Some i → conn_fd s' id ≠ None ∧
      ∃ w2 s2, zcio_tcp_server_close_client w' (Some s') i = Ok (w2, Some s2, ZCIO_OK) ∧ fds w2 = fds w.
Proof.
  intros Hwf HN Hl. destruct (server_accept_opened N w s t Hwf HN Hl) as (w1 & s1 & id & E & Hwf1 & Ho & Hh).
  exists w1, s1, id. split; [exact E|]. split; [exact Ho|]. intros i ->. destruct (Hh i eq_refl) as (c & Hc & Hs & Hr).
  unfold conn_fd in *. cbn [mbind option_bind] in *. rewrite Hc in *. cbn in Ho. split; [done|].
  pose proof (conn_of_range _ _ _ Hc) as Hi. unfold conn_of in Hc. rewrite bool_decide_true in Hc by done.
  unfold zcio_tcp_server_close_client. destruct (Z.leb_spec (ts_slots_len s1) i); [lia|].
  destruct (ts_slots s1 !! Z.to_nat i) as [e|]; [|done]. cbn in Hc. rewrite Hc.
  destruct (stream_free_fds w1 _ _ Hs Hr) as (w2 & -> & Hf). cbn [mbind exec_bind]. eexists _, _. split; [done|].
  destruct Ho as [Ho1 Ho2]. rewrite Hf, Ho2. by apply close_new.
Qed.
End Client.

(** ** The HTTP server's sockets *)

Lemma listener_opened w host port reuse want : ∃ w' r, make_listener w host port reuse want = Ok (w', r) ∧ opened fds w w' (fst <$> r).
Proof.
  unfold make_listener, zcio_socket_startup, zcio_socket_nosigpipe.
  destruct (bind_addr_keeps w host) as (w0 & a & -> & H0). cbn [mbind exec_bind].
  destruct a as [a|]; [|by eexists _, None].
  pose proof (socket_opened w0 AF_INET SOCK_STREAM 0) as Ho. destruct (sys_socket w0 _ _ _) as [w1 [e|fd]].
  { eexists _, None. split; [done|]. cbn. congruence. }
  destruct Ho as [Hr Ho]. assert (opened fds w w1 (Some fd)) as Ho' by (by eapply opened_after).
  assert (∃ w2 u, (if reuse then sys_setsockopt w1 fd SO_REUSEADDR else (w1, Done tt)) = (w2, u) ∧ fds w2 = fds w1) as (w2 & u & -> & Hs).
  { destruct reuse; [|by eexists _, _]. pose proof (setsockopt_fds w1 fd SO_REUSEADDR). destruct (sys_setsockopt w1 fd _) as [w2 u]. by exists w2, u. }
  pose proof (nonblocking_fds w2 fd true) as Hn. destruct (zcio_set_nonblocking w2 fd true) as [w3 rc]. cbn [fst] in Hn.
  destruct (negb _); [eexists _, None; split; [done|]; eapply opened_closed; [exact Ho'|congruence]|].
  pose proof (bind_fds w3 fd (mk_sin a (u16 port))) as Hb. destruct (sys_bind w3 fd _) as [w4 [e|u4]]; cbn [fst] in Hb.
  { eexists _, None. split; [done|]. eapply opened_closed; [exact Ho'|congruence]. }
  pose proof (listen_fds w4 fd LISTEN_BACKLOG) as Hl. destruct (sys_listen w4 fd _) as [w5 [e|u5]]; cbn [fst] in Hl.
  { eexists _, None. split; [done|]. eapply opened_closed; [exact Ho'|congruence]. }
  assert (opened fds w w5 (Some fd)) as H5 by (eapply opened_kept; [exact Ho'|congruence]).
  destruct want; [|by eexists _, (Some (fd, None))]. pose proof (getsockname_fds w5 fd) as Hg. destruct (sys_getsockname w5 fd) as [w6 [e|b]]; cbn [fst] in Hg.
  - eexists _, (Some (fd, None)). split; [done|]. by eapply opened_kept.
  - eexists _, (Some (fd, Some (sin_port b))). split; [done|]. by eapply opened_kept.
Qed.

Lemma h3_bind_opened w port : let '(w', r) := h3_udp_bind w port in opened fds w w' r.
Proof.
  unfold h3_udp_bind, zcio_socket_startup, zcio_socket_nosigpipe.
  pose proof (socket_opened w AF_INET SOCK_DGRAM 0) as Ho. destruct (sys_socket w _ _ _) as [w1 [e|fd]]; [done|]. destruct Ho as [_ Ho].
  pose proof (setsockopt_fds w1 fd SO_REUSEADDR) as Hs. destruct (sys_setsockopt w1 fd _) as [w2 u]. cbn [fst] in Hs.
  pose proof (bind_fds w2 fd (mk_sin 0 (u16 port))) as Hb. destruct (sys_bind w2 fd _) as [w3 [e|u3]]; cbn [fst] in Hb.
  { eapply opened_closed; [exact Ho|congruence]. }
  pose proof (nonblocking_fds w3 fd true) as Hn. destruct (zcio_set_nonblocking w3 fd true) as [w4 rc]. cbn [fst] in Hn.
  destruct (negb _); [eapply opened_closed; [exact Ho|congruence]|eapply opened_kept; [exact Ho|congruence]].
Qed.

(** ** Datagrams *)

Lemma udp_client_opened w host port : ∃ w' c, zcio_udp_client_open w host port = Ok (w', c) ∧ opened fds w w' (u_fd <$> c).
Proof.
  unfold zcio_udp_client_open, zcio_socket_startup, zcio_socket_nosigpipe, udp_cli_destroy, sock_gone. destruct host as [h|]; [|by eexists _, None].
  destruct (resolve_keeps w (Some h)) as (w0 & ip & -> & H0). cbn [mbind exec_bind]. destruct ip as [ip|]; [|by eexists _, None].
  pose proof (socket_opened w0 AF_INET SOCK_DGRAM 0) as Ho. destruct (sys_socket w0 _ _ _) as [w1 [e|fd]].
  { eexists _, None. split; [done|]. cbn. congruence. }
  destruct Ho as [Hr Ho]. assert (opened fds w w1 (Some fd)) as Ho' by (by eapply opened_after).
  assert (opened fds w (closesocket w1 fd) None) as Hcl by (by eapply opened_closed).
  assert ((fd =? ZCIO_INVALID_SOCKET) = false) as Hfd by (apply Z.eqb_neq; unfold ZCIO_INVALID_SOCKET; lia).
  destruct (zcio_xcalloc_ok 1 24); cbn [negb]; [|by eexists _, None]. destruct (inet_pton4 ip) as [a|]; [|by eexists _, None].
  cbn [u_closed u_fd orb]. rewrite Hfd.
  destruct (alloc_ok 24); cbn [negb]; [|by eexists _, None]. destruct (zcio_xcalloc_ok 1 8); cbn [negb]; [|by eexists _, None].
  by eexists _, (Some _).
Qed.

Lemma udp_server_opened w port : let '(w', s) := zcio_udp_server_bind w port in opened fds w w' (us_fd <$> s).
Proof.
  unfold zcio_udp_server_bind, zcio_socket_startup, zcio_socket_nosigpipe.
  pose proof (socket_opened w AF_INET SOCK_DGRAM 0) as Ho. destruct (sys_socket w _ _ _) as [w1 [e|fd]]; [done|]. destruct Ho as [_ Ho].
  pose proof (bind_fds w1 fd (mk_sin 0 (u16 port))) as Hb. destruct (sys_bind w1 fd _) as [w2 [e|u]]; cbn [fst] in Hb.
  { by eapply opened_closed. }
  destruct (zcio_xcalloc_ok 1 40); [by eapply opened_kept|by eapply opened_closed].
Qed.

Lemma mcast_sender_opened w group port : ∃ w' c, zcio_mcast_sender_open w group port = Ok (w', c) ∧ opened fds w w' (ms_fd <$> c).
Proof.
  unfold zcio_mcast_sender_open, zcio_socket_startup, zcio_socket_nosigpipe, mcast_send_destroy, sock_gone. destruct group as [h|]; [|by eexists _, None].
  destruct (resolve_keeps w (Some h)) as (w0 & ip & -> & H0). cbn [mbind exec_bind]. destruct ip as [ip|]; [|by eexists _, None].
  pose proof (socket_opened w0 AF_INET SOCK_DGRAM IPPROTO_UDP) as Ho. destruct (sys_socket w0 _ _ _) as [w1 [e|fd]].
  { eexists _, None. split; [done|]. cbn. congruence. }
  destruct Ho as [Hr Ho]. assert (opened fds w w1 (Some fd)) as Ho' by (by eapply opened_after).
  pose proof (setsockopt_fds w1 fd SO_REUSEADDR) as Hs. destruct (sys_setsockopt w1 fd _) as [w2 u2]. cbn [fst] in Hs.
  destruct (inet_pton4 ip) as [a|]; [|eexists _, None; split; [done|]; by eapply opened_closed].
  pose proof (setsockopt_fds w2 fd (IP_MULTICAST_IF 0)) as Hm. destruct (sys_setsockopt w2 fd _) as [w3 u3]. cbn [fst] in Hm.
  assert (opened fds w (closesocket w3 fd) None) as Hcl by (eapply opened_closed; [exact Ho'|congruence]).
  assert ((fd =? ZCIO_INVALID_SOCKET) = false) as Hfd by (apply Z.eqb_neq; unfold ZCIO_INVALID_SOCKET; lia).
  cbn [ms_closed ms_fd orb]. rewrite Hfd.
  destruct (zcio_xcalloc_ok 1 24); cbn [negb]; [|by eexists _, None].
  destruct (alloc_ok 24); cbn [negb]; [|by eexists _, None]. destruct (zcio_xcalloc_ok 1 8); cbn [negb]; [|by eexists _, None].
  eexists _, (Some _). split; [done|]. eapply opened_kept; [exact Ho'|congruence].
Qed.

Lemma mcast_receiver_opened w group port : ∃ w' c, zcio_mcast_receiver_open w group port = Ok (w', c) ∧ opened fds w w' (mr_fd <$> c).
Proof.
  unfold zcio_mcast_receiver_open, zcio_socket_startup, zcio_socket_nosigpipe, mcast_recv_destroy, sock_gone. destruct group as [h|]; [|by eexists _, None].
  destruct (resolve_keeps w (Some h)) as (w0 & ip & -> & H0). cbn [mbind exec_bind]. destruct ip as [ip|]; [|by eexists _, None].
  pose proof (socket_opened w0 AF_INET SOCK_DGRAM IPPROTO_UDP) as Ho. destruct (sys_socket w0 _ _ _) as [w1 [e|fd]].
  { eexists _, None. split; [done|]. cbn. congruence. }
  destruct Ho as [Hr Ho]. assert (opened fds w w1 (Some fd)) as Ho' by (by eapply opened_after).
  pose proof (nonblocking_fds w1 fd true) as Hn. destruct (zcio_set_nonblocking w1 fd true) as [w2 rc]. cbn [fst] in Hn.
  pose proof (setsockopt_fds w2 fd SO_REUSEADDR) as Hs. destruct (sys_setsockopt w2 fd _) as [w3 u3]. cbn [fst] in Hs.
  pose proof (bind_fds w3 fd (mk_sin 0 (u16 port))) as Hb. destruct (sys_bind w3 fd _) as [w4 [e|u4]]; cbn [fst] in Hb.
  { eexists _, None. split; [done|]. eapply opened_closed; [exact Ho'|congruence]. }
  pose proof (setsockopt_fds w4 fd IP_MULTICAST_LOOP) as Hl. destruct (sys_setsockopt w4 fd _) as [w5 u5]. cbn [fst] in Hl.
  destruct (inet_pton4 ip) as [a|]; [|eexists _, None; split; [done|]; eapply opened_closed; [exact Ho'|congruence]].
  pose proof (setsockopt_fds w5 fd (IP_ADD_MEMBERSHIP a 0)) as Hm. destruct (sys_setsockopt w5 fd _) as [w6 [e|u6]]; cbn [fst] in Hm.
  { eexists _, None. split; [done|]. eapply opened_closed; [exact Ho'|congruence]. }
  assert (opened fds w (closesocket w6 fd) None) as Hcl by (eapply opened_closed; [exact Ho'|congruence]).
  assert ((fd =? ZCIO_INVALID_SOCKET) = false) as Hfd by (apply Z.eqb_neq; unfold ZCIO_INVALID_SOCKET; lia).
  cbn [mr_closed mr_fd orb]. rewrite Hfd.
  destruct (alloc_ok 24), (zcio_xcalloc_ok 1 8); cbn [negb]; try by eexists _, None.
  eexists _, (Some _). split; [done|]. eapply opened_kept; [exact Ho'|congruence].
Qed.
End Fds.

(** C25: a TCP client with its connection attempts and TLS handshake, a TCP
    server, its accepts with their handshakes, a UDP client and server, a
    multicast sender and receiver, the search for the local address and the
    HTTP server's two listeners each return, and the descriptors open then are
    those open before and, when a new object is returned, the object's one: no
    error path leaks or closes a descriptor.  Freeing a client, and closing an
    accepted connection, closes exactly what opening it opened.  Assumed: the
    process has at most [FD_SETSIZE] descriptors, and the TLS backend's
    handshake returns and keeps its socket ([TlsFds]).  The HTTP server's own
    accept loop is not among these functions. *)
Theorem no_fd_leak {W C T : Type} `{!Sys W} {clk late} `{!SysTime W clk late} {fds} `{!SysFds W fds} `{!SysIo W} `{Allocator}
    `{!OverlayFree W T} (l : tls_lib W C tcp_sockctx T) ov_fd `{!TlsFds fds l ov_fd} (w : W) host port :
  (∀ ctx verify cto ito, ∃ w' r, tcp_client_make w l host port ctx verify cto ito = Ok (w', r) ∧
    opened fds w w' (sum_fd c_fd r) ∧
    ∀ c, r = inr c → ∃ w2, zcio_tcp_client_free w' (Some c) = Ok w2 ∧ fds w2 = fds w) ∧
  (∀ ctx nb, ∃ w' (s : option (zcio_tcp_server C T)),
    tcp_server_make w host port ctx nb = Ok (w', s) ∧ opened fds w w' (ts_listen_fd <$> s)) ∧
  (∀ N s t, srv_wf N s → N < 2 ^ 60 - 1 → 0 ≤ ts_listen_fd s < FD_SETSIZE →
    ∃ w' s' id, zcio_tcp_server_accept w l (Some s) t = Ok (w', Some s', id) ∧
      opened fds w w' (conn_fd s' id) ∧
      ∀ i, id = Some i → conn_fd s' id ≠ None ∧
        ∃ w2 s2, zcio_tcp_server_close_client w' (Some s') i = Ok (w2, Some s2, ZCIO_OK) ∧ fds w2 = fds w) ∧
  opened fds w (zcio_local_ipv4 w).1 None ∧
  (∃ w' c, zcio_udp_client_open w host port = Ok (w', c) ∧ opened fds w w' (u_fd <$> c)) ∧
  (let '(w', s) := zcio_udp_server_bind w port in opened fds w w' (us_fd <$> s)) ∧
  (∃ w' c, zcio_mcast_sender_open w host port = Ok (w', c) ∧ opened fds w w' (ms_fd <$> c)) ∧
  (∃ w' c, zcio_mcast_receiver_open w host port = Ok (w', c) ∧ opened fds w w' (mr_fd <$> c)) ∧
  (∀ reuse want, ∃ w' r, make_listener w host port reuse want = Ok (w', r) ∧ opened fds w w' (fst <$> r)) ∧
  (let '(w', r) := h3_udp_bind w port in opened fds w w' r).
Proof.
  split; [intros; by eapply client_open_free|]. split; [intros; apply server_opened|].
  split; [intros; by eapply accept_close|]. split; [apply local_ipv4_opened|].
  split; [apply udp_client_opened|]. split; [apply udp_server_opened|].
  split; [apply mcast_sender_opened|]. split; [apply mcast_receiver_opened|]. split; [intros; apply listener_opened|apply h3_bind_opened].
Qed.

(** ** The operating system of the examples *)

Definition os_fds (w : ex_os) : gset Z := list_to_set (os_open w).

Lemma os_fresh_new w : 0 ≤ os_fresh w ∧ os_fresh w ∉ os_fds w.
Proof.
  unfold os_fresh, os_fds. split; [pose proof (os_fresh_pos (os_open w)); lia|].
  rewrite elem_of_list_to_set. assert (∀ l x, x ∈ l → x ≤ fold_right Z.max 2 l) as Hm.
  { induction 1; cbn; lia. }
  intros Hin%Hm. lia.
Qed.

Lemma os_call_fds {A} ms (w : ex_os) (f : ex_os → ex_os * sysret A) :
  os_fds (f w).1 = os_fds w → os_fds (os_call ms w f).1 = os_fds w.
Proof. unfold os_call. by destruct (os_signals w). Qed.

Lemma os_open_filter l fd : list_to_set (List.filter (λ x, negb (x =? fd)) l) = list_to_set l ∖ {[fd]} :> gset Z.
Proof.
  apply set_eq. intros x. rewrite elem_of_difference, !elem_of_list_to_set, elem_of_singleton.
  rewrite !list_elem_of_In, List.filter_In, negb_true_iff, Z.eqb_neq. done.
Qed.

#[export] Instance ex_fds : SysFds ex_os os_fds.
Proof.
  split; try done.
  - intros w f t p. cbn. unfold os_socket. destruct (Z.ltb_spec (os_fresh w) FD_SETSIZE); [|done].
    destruct (os_fresh_new w) as [H1 H2]. split; [done|]. by split.
  - intros w lfd. cbn. unfold os_call. destruct (os_signals w); [|done]. destruct (os_accepts w); [done|].
    unfold os_socket. match goal with |- context [os_fresh ?v] => change (os_fresh v) with (os_fresh w) end.
    destruct (Z.ltb_spec (os_fresh w) FD_SETSIZE); [|done]. destruct (os_fresh_new w) as [H1 H2]. split; [done|]. by split.
  - intros w fd. apply os_open_filter.
  - intros w fd r wr tv. cbn. unfold os_block. apply os_call_fds. by destruct (os_ready w).
  - intros w h p t. cbn. destruct (List.filter _ (os_hosts w)) as [|q l] eqn:E; [constructor|]. rewrite <- E.
    apply List.Forall_forall. intros x Hx%List.filter_In. destruct Hx as [_ Hx]. cbn in Hx. unfold ai_v4, ipv4_candidate in *.
    destruct (ai_addr x) as [a|]; [|done]. exists a. split; [done|]. lia.
Qed.

(** A backend whose handshake always succeeds; its overlay is the descriptor. *)
#[local] Instance toy_free : OverlayFree ex_os Z := λ w fd, Ok (closesocket w fd).
Definition toy_lib : tls_lib ex_os unit tcp_sockctx Z :=
  mk_lib true (Some (mk_backend (Some (B "toy")) None None None None
    (Some (λ w _ p _ _, Ok (w, inr (t_fd p)))) None None None None None)).
#[local] Instance toy_fds : TlsFds os_fds toy_lib id.
Proof.
  split.
  - intros w c p is_server verify f [= <-] Hp. by eexists _, _.
  - intros w t _. eexists. split; [done|]. apply os_open_filter.
Qed.

(** A listening server with nobody on it, and one connection waiting. *)
Definition toy_listener : zcio_tcp_server unit Z := mk_tsrv 3 (Some tt) true 0 [] 0 [] 0.

Lemma toy_listener_wf : srv_wf 0 toy_listener.
Proof.
  split; cbn; [lia|lia|lia|done|apply NoDup_nil_2|]. intros id Hid. by apply not_elem_of_nil in Hid.
Qed.

Lemma no_fd_leak_witness :
  let w := mk_os 0 0 true [] [] 1 [3; 4] [mk_ai AF_INET SOCK_STREAM 6 (SIN (mk_sin 2130706433 0))] in
  let H := always_alloc in
  (∃ w' r, tcp_client_make w toy_lib (Some (B "localhost")) 443 (Some tt) true 0 0 = Ok (w', r) ∧
    opened os_fds w w' (sum_fd c_fd r) ∧
    ∀ c, r = inr c → ∃ w2, zcio_tcp_client_free w' (Some c) = Ok w2 ∧ os_fds w2 = os_fds w) ∧
  match zcio_tcp_server_accept w toy_lib (Some toy_listener) 100 with Ok (_, Some s, id) => conn_fd s id = Some 5 | _ => False end ∧
  ∃ w' s' id, zcio_tcp_server_accept w toy_lib (Some toy_listener) 100 = Ok (w', Some s', id) ∧
    opened os_fds w w' (conn_fd s' id) ∧
    ∀ i, id = Some i → conn_fd s' id ≠ None ∧
      ∃ w2 s2, zcio_tcp_server_close_client w' (Some s') i = Ok (w2, Some s2, ZCIO_OK) ∧ os_fds w2 = os_fds w.
Proof.
  intros w H. destruct (no_fd_leak (clk := os_clk) (late := 1) toy_lib id w (Some (B "localhost")) 443) as (Hc & _ & Ha & _).
  split; [apply Hc|]. split; [vm_compute; done|]. apply (Ha 0 toy_listener 100 toy_listener_wf); [lia|done].
Defined.
