(* ===== verification/TlsMbed.v ===== *)
(** * TlsMbed: TLS over a stream with mbedTLS ([src/tls_mbedtls.c])

    The backend of builds without OpenSSL.  mbedTLS is the class [Mbedtls]; its
    calls use this file's BIO callbacks as OpenSSL's use theirs ([TlsOpenssl]).
    A context is shared between its owner and the streams wrapped with it and
    counts its references, and its configuration keeps a pointer to the list
    of ALPN names: contexts and lists are objects of the world, named by their
    addresses, and a use of one that was freed is a [Fault]. *)
From stdpp Require Import base tactics list option strings gmap.
From Stdlib Require Import ZArith Lia.
From S2P Require Import Prelude Types Stream Sock Tls TlsOpenssl.

(** ** mbedTLS *)

Definition MBEDTLS_ERR_SSL_WANT_READ : Z := - 0x6900.
Definition MBEDTLS_ERR_SSL_WANT_WRITE : Z := - 0x6880.
Definition MBEDTLS_ERR_SSL_PEER_CLOSE_NOTIFY : Z := - 0x7880.
Definition MBEDTLS_ERR_SSL_CONN_EOF : Z := - 0x7280.
Definition MBEDTLS_ERR_SSL_RECEIVED_NEW_SESSION_TICKET : Z := - 0x7B00.
Definition MBEDTLS_ERR_NET_SEND_FAILED : Z := - 0x4E.
Definition MBEDTLS_ERR_NET_RECV_FAILED : Z := - 0x4C.

Inductive authmode := VERIFY_NONE | VERIFY_OPTIONAL.
Inductive san_entry := SanDns (name : bytes) | SanIp (addr : bytes).

(** A call that fails answers a number other than 0.  The calls on a connection
    are given the ALPN names its configuration points to, and the negotiated
    protocol is a pointer to one of them, given by its place in that list;
    [tickets_left] bounds the session tickets a read may still report. *)
Class Mbedtls := {
  mssl : Type; mconf : Type; mcrt : Type; mpk : Type; mwrite : Type;
  sizeof_tls_ctx : Z; sizeof_tls_stream : Z;
  getenv : bytes → option bytes;
  ctr_drbg_seed : nat → Z;
  ssl_config_init : mconf;
  x509_crt_init : mcrt;
  pk_init : mpk;
  x509_crt_parse_file : mcrt → bytes → mcrt * Z;
  x509_crt_parse_path : mcrt → bytes → mcrt * Z;
  x509_crt_parse_der : mcrt → bytes → mcrt * Z;
  crt_version : mcrt → Z;
  pk_setup : mpk → mpk * Z;
  ecp_gen_key : mpk → mpk * Z;
  pk_parse_keyfile : mpk → bytes → mpk * Z;
  x509write_init : mpk → mpk → mwrite;
  x509write_subject_name : mwrite → bytes → mwrite * Z;
  x509write_issuer_name : mwrite → bytes → mwrite * Z;
  x509write_md_sha256 : mwrite → mwrite;
  x509write_serial : mwrite → bytes → mwrite;
  x509write_validity : mwrite → bytes → bytes → mwrite * Z;
  x509write_san : mwrite → list san_entry → mwrite * Z;
  x509write_der : mwrite → Z → Z + bytes;
  ssl_config_defaults : mconf → bool → mconf * Z;
  ssl_conf_authmode : mconf → authmode → mconf;
  ssl_conf_ca_chain : mconf → mcrt → mconf;
  ssl_conf_own_cert : mconf → mcrt → mpk → mconf * Z;
  ssl_conf_alpn_protocols : mconf → list bytes → Z;
  ssl_setup : mconf → mssl * Z;
  ssl_set_hostname : mssl → bytes → mssl * Z;
  ssl_read : mssl → option (list bytes) → Z → bio_prog (mssl * (Z * bytes));
  ssl_write : mssl → option (list bytes) → bytes → bio_prog (mssl * Z);
  ssl_handshake : mssl → option (list bytes) → bio_prog (mssl * Z);
  ssl_close_notify : mssl → option (list bytes) → bio_prog (mssl * Z);
  ssl_get_verify_result : mssl → Z;
  ssl_get_alpn_protocol : mssl → option nat;
  tickets_left : mssl → nat;
}.

(** ** Contexts and the world that holds them *)

Section Contexts.
Context `{!Mbedtls} `{Allocator}.

(** [mc_alpn] is [ctx->alpn], [mc_conf_alpn] the pointer inside [ctx->conf]. *)
Record mtls_ctx := mk_mctx {
  mc_conf : mconf;
  mc_is_server : bool;
  mc_host : option bytes;
  mc_cert : mcrt;
  mc_key : mpk;
  mc_ca : mcrt;
  mc_ca_loaded : bool;
  mc_alpn : option nat;
  mc_conf_alpn : option nat;
  mc_refs : Z;
}.

Definition mc_set_refs (n : Z) (x : mtls_ctx) : mtls_ctx :=
  mk_mctx (mc_conf x) (mc_is_server x) (mc_host x) (mc_cert x) (mc_key x) (mc_ca x) (mc_ca_loaded x)
    (mc_alpn x) (mc_conf_alpn x) n.
Definition mc_set_conf (conf : mconf) (x : mtls_ctx) : mtls_ctx :=
  mk_mctx conf (mc_is_server x) (mc_host x) (mc_cert x) (mc_key x) (mc_ca x) (mc_ca_loaded x)
    (mc_alpn x) (mc_conf_alpn x) (mc_refs x).
Definition mc_set_creds (cert : mcrt) (key : mpk) (x : mtls_ctx) : mtls_ctx :=
  mk_mctx (mc_conf x) (mc_is_server x) (mc_host x) cert key (mc_ca x) (mc_ca_loaded x)
    (mc_alpn x) (mc_conf_alpn x) (mc_refs x).
Definition mc_set_client (conf : mconf) (ca : mcrt) (loaded : bool) (host : option bytes) (x : mtls_ctx) : mtls_ctx :=
  mk_mctx conf (mc_is_server x) host (mc_cert x) (mc_key x) ca loaded (mc_alpn x) (mc_conf_alpn x) (mc_refs x).
Definition mc_set_alpn (alpn conf_alpn : option nat) (x : mtls_ctx) : mtls_ctx :=
  mk_mctx (mc_conf x) (mc_is_server x) (mc_host x) (mc_cert x) (mc_key x) (mc_ca x) (mc_ca_loaded x)
    alpn conf_alpn (mc_refs x).

Context {W : Type}.

Record mworld := mk_mw {
  mw_net : W;
  mw_ctxs : gmap nat mtls_ctx;
  mw_lists : gmap nat (list bytes);
  mw_next : nat;
}.

Definition mw_start (w : W) : mworld := mk_mw w ∅ ∅ 0.

Definition mw_set_net (w : W) (v : mworld) : mworld := mk_mw w (mw_ctxs v) (mw_lists v) (mw_next v).
Definition put_ctx (id : nat) (x : mtls_ctx) (v : mworld) : mworld :=
  mk_mw (mw_net v) (<[id := x]> (mw_ctxs v)) (mw_lists v) (mw_next v).

Definition get_ctx (v : mworld) (id : nat) : exec mtls_ctx :=
  match mw_ctxs v !! id with Some x => Ok x | None => Fault end.

(** The object of a failed seeding stays where it is. *)
Definition ctx_alloc (v : mworld) (is_server : bool) : mworld * option nat :=
  if negb (zcio_xcalloc_ok 1 sizeof_tls_ctx) then (v, None)
  else
    let id := mw_next v in
    let x := mk_mctx ssl_config_init is_server None x509_crt_init pk_init x509_crt_init false None None 1 in
    let v := mk_mw (mw_net v) (<[id := x]> (mw_ctxs v)) (mw_lists v) (S id) in
    if ctr_drbg_seed id =? 0 then (v, Some id) else (v, None).

(** Freeing a list of names walks it. *)
Definition free_list (a : option nat) (v : mworld) : exec mworld :=
  match a with
  | None => Ok v
  | Some a =>
      match mw_lists v !! a with
      | None => Fault
      | Some _ => Ok (mk_mw (mw_net v) (mw_ctxs v) (delete a (mw_lists v)) (mw_next v))
      end
  end.

Definition ctx_teardown (id : nat) (v : mworld) : exec mworld :=
  x ← get_ctx v id;
  v ← free_list (mc_alpn x) v;
  Ok (mk_mw (mw_net v) (delete id (mw_ctxs v)) (mw_lists v) (mw_next v)).

Definition ctx_ref (id : nat) (v : mworld) : exec mworld :=
  x ← get_ctx v id; Ok (put_ctx id (mc_set_refs (i32 (mc_refs x + 1)) x) v).

Definition ctx_unref (c : option nat) (v : mworld) : exec mworld :=
  match c with
  | None => Ok v
  | Some id =>
      x ← get_ctx v id;
      let v := put_ctx id (mc_set_refs (i32 (mc_refs x - 1)) x) v in
      if mc_refs x =? 1 then ctx_teardown id v else Ok v
  end.

(** ** Default roots *)

(** The files or directories in order, until [ok] holds after a parse. *)
Fixpoint parse_first (parse : mcrt → bytes → mcrt * Z) (ok : mcrt → Z → bool) (ca : mcrt) (l : list bytes) : mcrt * bool :=
  match l with
  | [] => (ca, false)
  | p :: l => let '(ca, r) := parse ca p in if ok ca r then (ca, true) else parse_first parse ok ca l
  end.

Definition CA_BUNDLES : list bytes :=
  [B "/etc/ssl/cert.pem"; B "/etc/ssl/certs/ca-certificates.crt"; B "/etc/pki/tls/certs/ca-bundle.crt";
   B "/etc/ssl/ca-bundle.pem"].
Definition CA_DIRS : list bytes := [B "/system/etc/security/cacerts"; B "/etc/ssl/certs"].

Definition env_path (name : bytes) : list bytes :=
  match getenv name with Some (_ :: _ as p) => [p] | _ => [] end.

Definition load_default_cas (ca : mcrt) : mcrt * bool :=
  let parsed (_ : mcrt) (r : Z) := 0 <=? r in
  match parse_first x509_crt_parse_file parsed ca (env_path (B "ZCIO_CA_FILE")) with
  | (ca, true) => (ca, true)
  | (ca, false) =>
      match parse_first x509_crt_parse_path parsed ca (env_path (B "ZCIO_CA_PATH")) with
      | (ca, true) => (ca, true)
      | (ca, false) =>
          match parse_first x509_crt_parse_file parsed ca CA_BUNDLES with
          | (ca, true) => (ca, true)
          | (ca, false) =>
              match parse_first x509_crt_parse_path (λ ca r, (0 <=? r) && negb (crt_version ca =? 0)) ca CA_DIRS with
              | (ca, true) => (ca, true)
              | (ca, false) => (ca, negb (crt_version ca =? 0))
              end
          end
      end
  end.

(** ** Creating contexts *)

Definition mtls_client_ctx (v : mworld) (host : option bytes) : exec (mworld * option nat) :=
  match ctx_alloc v false with
  | (v, None) => Ok (v, None)
  | (v, Some id) =>
      x ← get_ctx v id;
      let '(conf, ret) := ssl_config_defaults (mc_conf x) false in
      if negb (ret =? 0) then v ← ctx_unref (Some id) v; Ok (v, None)
      else
        let conf := ssl_conf_authmode conf VERIFY_OPTIONAL in
        let '(ca, loaded) := load_default_cas (mc_ca x) in
        let conf := if loaded then ssl_conf_ca_chain conf ca else conf in
        Ok (put_ctx id (mc_set_client conf ca loaded (zcio_strdup_ host) x) v, Some id)
  end.

(** Two calls in a row, the second only after a first that answered 0. *)
Definition and_then {A} (r : A * Z) (f : A → A * Z) : A * Z :=
  let '(a, ret) := r in if ret =? 0 then f a else (a, ret).

Definition DER_SIZE : Z := 2048.

(** The certificate and the key, as far as they were made, and [ok]. *)
Definition mtls_selfsign_install (x : mtls_ctx) : exec (mtls_ctx * bool) :=
  let '(key, ret) := pk_setup (mc_key x) in
  let x := mc_set_creds (mc_cert x) key x in
  if negb (ret =? 0) then Ok (x, false)
  else
    let '(key, ret) := ecp_gen_key key in
    let x := mc_set_creds (mc_cert x) key x in
    if negb (ret =? 0) then Ok (x, false)
    else
      let '(w, ret) :=
        and_then (x509write_subject_name (x509write_init key key) (B "CN=localhost"))
          (λ w, x509write_issuer_name w (B "CN=localhost")) in
      if negb (ret =? 0) then Ok (x, false)
      else
        let w := x509write_serial (x509write_md_sha256 w) [1] in
        let '(w, ret) := x509write_validity w (B "20240101000000") (B "20440101000000") in
        if negb (ret =? 0) then Ok (x, false)
        else
          let '(w, ret) := x509write_san w [SanDns (B "localhost"); SanIp [127; 0; 0; 1]] in
          if negb (ret =? 0) then Ok (x, false)
          else match x509write_der w DER_SIZE with
          | inl _ => Ok (x, false)
          | inr der =>
              (* written at the end of the buffer *)
              let buf := replicate (Z.to_nat (DER_SIZE - zlen der)) junk ++ der in
              d ← mem_read (DER_SIZE - zlen der) (zlen der) buf;
              let '(cert, ret) := x509_crt_parse_der (mc_cert x) d in
              Ok (mc_set_creds cert key x, ret =? 0)
          end.

Definition mtls_server_ctx_common (v : mworld) (id : nat) : exec (mworld * option nat) :=
  x ← get_ctx v id;
  let '(conf, ret) := ssl_config_defaults (mc_conf x) true in
  if negb (ret =? 0) then v ← ctx_unref (Some id) v; Ok (v, None)
  else
    let '(conf, ret) := ssl_conf_own_cert (ssl_conf_authmode conf VERIFY_NONE) (mc_cert x) (mc_key x) in
    if negb (ret =? 0) then v ← ctx_unref (Some id) v; Ok (v, None)
    else Ok (put_ctx id (mc_set_conf conf x) v, Some id).

Definition mtls_server_ctx (v : mworld) : exec (mworld * option nat) :=
  match ctx_alloc v true with
  | (v, None) => Ok (v, None)
  | (v, Some id) =>
      x ← get_ctx v id;
      '(x, ok) ← mtls_selfsign_install x;
      let v := put_ctx id x v in
      if negb ok then v ← ctx_unref (Some id) v; Ok (v, None)
      else mtls_server_ctx_common v id
  end.

Definition mtls_server_ctx_files (v : mworld) (cert key : option bytes) : exec (mworld * option nat) :=
  match cert, key with
  | Some cert, Some key =>
      match ctx_alloc v true with
      | (v, None) => Ok (v, None)
      | (v, Some id) =>
          x ← get_ctx v id;
          let '(crt, ret) := x509_crt_parse_file (mc_cert x) cert in
          let x := mc_set_creds crt (mc_key x) x in
          if negb (ret =? 0) then v ← ctx_unref (Some id) (put_ctx id x v); Ok (v, None)
          else
            let '(pk, ret) := pk_parse_keyfile (mc_key x) key in
            let x := mc_set_creds crt pk x in
            if negb (ret =? 0) then v ← ctx_unref (Some id) (put_ctx id x v); Ok (v, None)
            else mtls_server_ctx_common (put_ctx id x v) id
      end
  | _, _ => Ok (v, None)
  end.

Definition mtls_ctx_free (v : mworld) (c : option nat) : exec mworld := ctx_unref c v.

(** ** ALPN *)

(** The copies of the names, or the code of the failure. *)
Fixpoint alpn_copy (protos : list (option bytes)) : Z + list bytes :=
  match protos with
  | [] => inr []
  | p :: protos =>
      let len := proto_len p in
      if (len =? 0) || (255 <? len) then inl ZCIO_ERR_INVALID_ARG
      else match zcio_strdup_ p with
      | None => inl ZCIO_ERR_NOMEM
      | Some s => match alpn_copy protos with inl r => inl r | inr l => inr (s :: l) end
      end
  end.

(** [None] for [protos]: a null pointer with a count that is not 0. *)
Definition mtls_ctx_set_alpn (v : mworld) (c : option nat) (protos : option (list (option bytes)))
  : exec (mworld * option nat * Z) :=
  match c, protos with
  | Some id, Some protos =>
      if negb (zcio_xcalloc_ok (zlen protos + 1) 8) then Ok (v, c, ZCIO_ERR_NOMEM)
      else match alpn_copy protos with
      | inl r => Ok (v, c, r)
      | inr names =>
          x ← get_ctx v id;
          let ret := if zlen protos =? 0 then 0 else ssl_conf_alpn_protocols (mc_conf x) names in
          if negb (ret =? 0) then Ok (v, c, ZCIO_ERR_TLS)
          else
            let a := mw_next v in
            let conf_alpn := if zlen protos =? 0 then mc_conf_alpn x else Some a in
            v ← free_list (mc_alpn x) v;
            Ok (put_ctx id (mc_set_alpn (Some a) conf_alpn x)
                  (mk_mw (mw_net v) (mw_ctxs v) (<[a := names]> (mw_lists v)) (S a)), c, ZCIO_OK)
      end
  | _, _ => Ok (v, c, ZCIO_ERR_INVALID_ARG)
  end.

(** What the configuration's pointer leads to. *)
Definition conf_names (v : mworld) (id : nat) : exec (option (list bytes)) :=
  x ← get_ctx v id;
  match mc_conf_alpn x with
  | None => Ok None
  | Some a => match mw_lists v !! a with Some l => Ok (Some l) | None => Fault end
  end.
End Contexts.
Arguments mworld {_} W.

(** ** Streams *)

Section Streams.
Context {W P : Type} `{!Carrier W P} `{!Mbedtls} `{Allocator}.
Abbreviation world := (mworld W).

Definition mtls_bio_send (b : bio_state W P) (data : bytes) : exec (bio_state W P * Z) :=
  let data := if INT_MAX <? zlen data then ztake INT_MAX data else data in
  '(w, p, r) ← cr_write (b_w b) (b_plain b) data;
  if 0 <? r then Ok (mk_bio w p (b_transient b) false, i32 r)
  else if transient_code r then Ok (mk_bio w p r false, MBEDTLS_ERR_SSL_WANT_WRITE)
  else Ok (mk_bio w p (b_transient b) false, MBEDTLS_ERR_NET_SEND_FAILED).

Definition mtls_bio_recv (b : bio_state W P) (len : Z) : exec (bio_state W P * Z * bytes) :=
  let len := if INT_MAX <? len then INT_MAX else len in
  '(w, p, r, d) ← cr_read (b_w b) (b_plain b) len;
  if 0 <? r then Ok (mk_bio w p (b_transient b) false, i32 r, d)
  else if r =? 0 then Ok (mk_bio w p (b_transient b) false, 0, [])
  else if transient_code r then Ok (mk_bio w p r false, MBEDTLS_ERR_SSL_WANT_READ, [])
  else Ok (mk_bio w p (b_transient b) false, MBEDTLS_ERR_NET_RECV_FAILED, []).

(** mbedTLS sees the callbacks' answers only; there is no retry flag. *)
Fixpoint run_mbio {A} (b : bio_state W P) (p : bio_prog A) : exec (bio_state W P * A) :=
  match p with
  | BioDone a => Ok (b, a)
  | BioRead len k => '(b, r, d) ← mtls_bio_recv b len; run_mbio b (k r d false)
  | BioWrite data k => '(b, r) ← mtls_bio_send b data; run_mbio b (k r false)
  end.

(** [mt_owned]: [t->plain] is set; the BIO keeps the transport either way.
    [mt_alpn_list]: the list that mbedTLS's pointer to the negotiated protocol,
    inside [mt_ssl], leads into. *)
Record mtls_stream := mk_mtls {
  mt_ssl : mssl;
  mt_ctx : nat;
  mt_plain : P;
  mt_owned : bool;
  mt_shut : bool;
  mt_verify : bool;
  mt_hs_done : bool;
  mt_alpn : bytes;
  mt_alpn_list : option nat;
}.

Definition mt_set_ssl (ssl : mssl) (p : P) (t : mtls_stream) : mtls_stream :=
  mk_mtls ssl (mt_ctx t) p (mt_owned t) (mt_shut t) (mt_verify t) (mt_hs_done t) (mt_alpn t) (mt_alpn_list t).
Definition mt_set_flags (owned shut hs_done : bool) (t : mtls_stream) : mtls_stream :=
  mk_mtls (mt_ssl t) (mt_ctx t) (mt_plain t) owned shut (mt_verify t) hs_done (mt_alpn t) (mt_alpn_list t).
Definition mt_set_alpn (alpn : bytes) (t : mtls_stream) : mtls_stream :=
  mk_mtls (mt_ssl t) (mt_ctx t) (mt_plain t) (mt_owned t) (mt_shut t) (mt_verify t) (mt_hs_done t) alpn (mt_alpn_list t).
Definition mt_set_alpn_list (a : option nat) (t : mtls_stream) : mtls_stream :=
  mk_mtls (mt_ssl t) (mt_ctx t) (mt_plain t) (mt_owned t) (mt_shut t) (mt_verify t) (mt_hs_done t) (mt_alpn t) a.

(** A call of mbedTLS on the stream: the world, the stream, the last transient
    condition ([g_bio_transient_err], which starts at 0) and the answer.  A call
    that negotiates a protocol takes its pointer from the list it was given. *)
Definition call_ssl {A} (v : world) (t : mtls_stream) (call : mssl → option (list bytes) → bio_prog (mssl * A))
  : exec (world * mtls_stream * Z * A) :=
  x ← get_ctx v (mt_ctx t);
  names ← conf_names v (mt_ctx t);
  '(b, (ssl, a)) ← run_mbio (mk_bio (mw_net v) (mt_plain t) 0 false) (call (mt_ssl t) names);
  let chosen := if bool_decide (ssl_get_alpn_protocol ssl = ssl_get_alpn_protocol (mt_ssl t)) then mt_alpn_list t
                else mc_conf_alpn x in
  Ok (mw_set_net (b_w b) v, mt_set_alpn_list chosen (mt_set_ssl ssl (b_plain b) t), b_transient b, a).

Definition mwants (r : Z) : bool := (r =? MBEDTLS_ERR_SSL_WANT_READ) || (r =? MBEDTLS_ERR_SSL_WANT_WRITE).

(** [g_bio_transient_err ? g_bio_transient_err : ZCIO_ERR_WOULDBLOCK] *)
Definition transient_or_block (tr : Z) : Z := if negb (tr =? 0) then tr else ZCIO_ERR_WOULDBLOCK.

Fixpoint mtls_read_loop (fuel : nat) (v : world) (t : mtls_stream) (n : Z) : exec (world * mtls_stream * Z * bytes) :=
  match fuel with
  | O => OutOfFuel
  | S fuel =>
      '(v, t, tr, (r, d)) ← call_ssl v t (λ ssl names, ssl_read ssl names n);
      if 0 <? r then Ok (v, t, r, d)
      else if r =? 0 then Ok (v, t, 0, [])
      else if mwants r then Ok (v, t, transient_or_block tr, [])
      else if r =? MBEDTLS_ERR_SSL_RECEIVED_NEW_SESSION_TICKET then mtls_read_loop fuel v t n
      else if (r =? MBEDTLS_ERR_SSL_PEER_CLOSE_NOTIFY) || (r =? MBEDTLS_ERR_SSL_CONN_EOF) then Ok (v, t, 0, [])
      else Ok (v, t, ZCIO_ERR_TLS, [])
  end.

Definition mtls_strm_read (v : world) (t : mtls_stream) (n : Z) : exec (world * mtls_stream * Z * bytes) :=
  if n =? 0 then Ok (v, t, 0, [])
  else mtls_read_loop (S (tickets_left (mt_ssl t))) v t (if INT_MAX <? n then INT_MAX else n).

Definition mtls_strm_write (v : world) (t : mtls_stream) (src : bytes) : exec (world * mtls_stream * Z) :=
  if zlen src =? 0 then Ok (v, t, 0)
  else
    let src := if INT_MAX <? zlen src then ztake INT_MAX src else src in
    '(v, t, tr, r) ← call_ssl v t (λ ssl names, ssl_write ssl names src);
    if 0 <? r then Ok (v, t, r)
    else if mwants r then Ok (v, t, transient_or_block tr)
    else if (r =? MBEDTLS_ERR_SSL_PEER_CLOSE_NOTIFY) || (r =? MBEDTLS_ERR_SSL_CONN_EOF) then Ok (v, t, ZCIO_ERR_EOF)
    else Ok (v, t, ZCIO_ERR_TLS).

Definition mtls_strm_flush (v : world) (t : mtls_stream) : world * mtls_stream * Z :=
  let '(w, p, r) := cr_flush (mw_net v) (mt_plain t) in
  (mw_set_net w v, mt_set_ssl (mt_ssl t) p t, r).

Definition close_notify (v : world) (t : mtls_stream) : exec (world * mtls_stream) :=
  if mt_shut t then Ok (v, t)
  else '(v, t, _, _) ← call_ssl v t ssl_close_notify; Ok (v, t).

Definition mtls_strm_close (v : world) (t : mtls_stream) : exec (world * mtls_stream * Z) :=
  '(v, t) ← close_notify v t;
  let '(w, p, r) := cr_close (mw_net v) (mt_plain t) in
  Ok (mw_set_net w v, mt_set_flags (mt_owned t) true (mt_hs_done t) (mt_set_ssl (mt_ssl t) p t), r).

(** The transport, if the stream no longer owns it, is given back. *)
Definition mtls_strm_destroy (v : world) (t : mtls_stream) : exec (world * P) :=
  '(v, t) ← close_notify v t;
  w ← (if mt_owned t then cr_free (mw_net v) (mt_plain t) else Ok (mw_net v));
  v ← ctx_unref (Some (mt_ctx t)) (mw_set_net w v);
  Ok (v, mt_plain t).

(** ** Wrapping *)

Definition mtls_make_stream (v : world) (c : option nat) (plain : P) (is_server verify : bool)
  : exec (world * option mtls_stream) :=
  match c with
  | None => Ok (v, None)
  | Some id =>
      x ← get_ctx v id;
      if negb (Bool.eqb is_server (mc_is_server x)) then Ok (v, None)
      else if negb (zcio_xcalloc_ok 1 sizeof_tls_stream) then Ok (v, None)
      else
        let '(ssl, ret) := ssl_setup (mc_conf x) in
        if negb (ret =? 0) then Ok (v, None)
        else
          let '(ssl, ret) :=
            match host_given (mc_host x) with
            | Some h => if is_server then (ssl, 0) else ssl_set_hostname ssl h
            | None => (ssl, 0)
            end in
          if negb (ret =? 0) then Ok (v, None)
          else
            v ← ctx_ref id v;
            if alloc_ok 24 then Ok (v, Some (mk_mtls ssl id plain true false (negb is_server && verify) false [] None))
            else v ← ctx_unref (Some id) v; Ok (v, None)
  end.

Definition mtls_post_handshake_check (t : mtls_stream) : Z :=
  if negb (mt_verify t) then ZCIO_OK
  else if negb (ssl_get_verify_result (mt_ssl t) =? 0) then ZCIO_ERR_TLS
  else ZCIO_OK.

Definition mtls_handshake_step (v : world) (t : mtls_stream) : exec (world * mtls_stream * Z) :=
  if mt_hs_done t then Ok (v, t, ZCIO_OK)
  else
    '(v, t, tr, r) ← call_ssl v t ssl_handshake;
    if r =? 0 then
      let c := mtls_post_handshake_check t in
      if negb (c =? ZCIO_OK) then Ok (v, t, c)
      else Ok (v, mt_set_flags (mt_owned t) (mt_shut t) true t, ZCIO_OK)
    else if mwants r then Ok (v, t, transient_or_block tr)
    else Ok (v, t, ZCIO_ERR_TLS).

(** The handshake loop of [mtls_wrap]. *)
Fixpoint mtls_wrap_loop (fuel : nat) (v : world) (t : mtls_stream) : exec (world * (P + mtls_stream)) :=
  match fuel with
  | O => OutOfFuel
  | S fuel =>
      '(v, t, r) ← mtls_handshake_step v t;
      if r =? ZCIO_OK then Ok (v, inr t)
      else if r =? ZCIO_ERR_TIMEOUT then mtls_wrap_loop fuel v t
      else '(v, p) ← mtls_strm_destroy v (mt_set_flags false (mt_shut t) (mt_hs_done t) t); Ok (v, inl p)
  end.

(** How many turns the handshake loop may take. *)
Variable turns : nat.

Definition mtls_wrap (v : world) (c : option nat) (plain : P) (is_server verify : bool)
  : exec (world * (P + mtls_stream)) :=
  '(v, s) ← mtls_make_stream v c plain is_server verify;
  match s with None => Ok (v, inl plain) | Some t => mtls_wrap_loop turns v t end.

Definition mtls_wrap_nb (v : world) (c : option nat) (plain : P) (is_server verify : bool)
  : exec (world * (P + mtls_stream)) :=
  '(v, s) ← mtls_make_stream v c plain is_server verify;
  Ok (v, match s with None => inl plain | Some t => inr t end).

Definition mtls_handshake (v : world) (s : option (net_stream P mtls_stream))
  : exec (world * option (net_stream P mtls_stream) * Z) :=
  match s with
  | Some (Overlay t) => '(v, t, r) ← mtls_handshake_step v t; Ok (v, Some (Overlay t), r)
  | _ => Ok (v, s, ZCIO_ERR_INVALID_ARG)
  end.

Definition mtls_stream_transport (s : option (net_stream P mtls_stream))
  : option (P * (P → net_stream P mtls_stream)) :=
  match s with
  | Some (Overlay t) =>
      if mt_owned t then Some (mt_plain t, λ p, Overlay (mt_set_ssl (mt_ssl t) p t)) else None
  | _ => None
  end.

(** The name mbedTLS's pointer leads to. *)
Definition chosen_name (v : world) (t : mtls_stream) : exec (option bytes) :=
  match ssl_get_alpn_protocol (mt_ssl t), mt_alpn_list t with
  | Some i, Some a => match mw_lists v !! a with Some l => Ok (l !! i) | None => Fault end
  | _, _ => Ok None
  end.

(** The buffer has 32 bytes, one of them for the terminator. *)
Definition mtls_stream_alpn (v : world) (s : option (net_stream P mtls_stream))
  : exec (option (net_stream P mtls_stream) * option bytes) :=
  match s with
  | Some (Overlay t) =>
      if negb (mt_hs_done t) then Ok (s, None)
      else match mt_alpn t with
      | _ :: _ => Ok (s, Some (mt_alpn t))
      | [] =>
          proto ← chosen_name v t;
          Ok (match proto with
              | None | Some [] => (s, None)
              | Some proto =>
                  if 32 <=? zlen proto then (s, None)
                  else (Some (Overlay (mt_set_alpn proto t)), Some proto)
              end)
      end
  | _ => Ok (s, None)
  end.

Definition g_mbedtls_backend : zcio_tls_backend world nat P mtls_stream := {|
  tb_name := Some (B "mbedtls");
  tb_client_ctx := Some mtls_client_ctx;
  tb_server_ctx := Some mtls_server_ctx;
  tb_server_ctx_files := Some mtls_server_ctx_files;
  tb_ctx_free := Some mtls_ctx_free;
  tb_wrap := Some mtls_wrap;
  tb_ctx_set_alpn := Some mtls_ctx_set_alpn;
  tb_wrap_nb := Some mtls_wrap_nb;
  tb_handshake := Some mtls_handshake;
  tb_stream_alpn := Some mtls_stream_alpn;
  tb_stream_transport := Some mtls_stream_transport;
|}.
End Streams.
Arguments mtls_stream P {_}.
