(* ===== verification/TlsMbedSafe.v ===== *)
(** * TlsMbedSafe: what the mbedTLS backend guarantees, for any mbedTLS

    Contexts and their lists of names live exactly as long as somebody holds
    them, whatever the owner and the streams do; a verifying client's wrapped
    stream was verified. *)
From stdpp Require Import base tactics list option strings gmap.
From Stdlib Require Import ZArith Lia.
From S2P Require Import Prelude Types Stream Sock Dns Tls Tcp TcpSafe TlsOpenssl TlsSafe TlsMbed.

(** ** Transports that never fail *)

Class CarrierOk (W P : Type) `{!Carrier W P} (ok : P → Prop) : Prop := {
  ok_read : ∀ w p n, ok p → ∃ w' p' r d, cr_read w p n = Ok (w', p', r, d) ∧ ok p';
  ok_write : ∀ w p d, ok p → ∃ w' p' r, cr_write w p d = Ok (w', p', r) ∧ ok p';
  ok_flush : ∀ w p, ok p → ok (cr_flush w p).1.2;
  ok_close : ∀ w p, ok p → ok (cr_close w p).1.2;
  ok_free : ∀ w p, ok p → ∃ w', cr_free w p = Ok w';
}.

(** A socket stream: closed, or over a descriptor [select] can watch. *)
Definition tcp_usable (p : tcp_sockctx) : Prop := t_gone p = true ∨ 0 ≤ t_fd p < FD_SETSIZE.

#[export] Instance tcp_carrier_ok {W} `{!Sys W} {clk late} `{!SysTime W clk late} `{!SysIo W} : CarrierOk W tcp_sockctx tcp_usable.
Proof.
  split.
  - intros w p n Hp. cbn [cr_read tcp_carrier]. unfold zcio_read. cbn [vt_read s_vt tcp_stream TCP_VT s_ctx].
    destruct (n =? 0); [cbn; by eexists _, _, _, _|].
    assert (∃ w' p' r d, tcp_s_read (w, p) n = Ok (w', p', r, d) ∧ tcp_usable p') as (w' & p' & r & d & -> & Hp').
    { destruct Hp as [Hg|Hf].
      - unfold tcp_s_read. rewrite Hg. eexists _, _, _, _. split; [done|by left].
      - destruct (tcp_read_ends (clk := clk) (late := late) w p n Hf) as (w' & p' & r & d & E & Ef). eexists _, _, _, _.
        split; [exact E|]. right. by rewrite Ef. }
    cbn. by eexists _, _, _, _.
  - intros w p d Hp. cbn [cr_write tcp_carrier]. unfold zcio_write. cbn [vt_write s_vt tcp_stream TCP_VT s_ctx].
    destruct (zlen d =? 0); [cbn; by eexists _, _, _|].
    assert (∃ w' p' r, tcp_s_write (w, p) d = Ok (w', p', r) ∧ tcp_usable p') as (w' & p' & r & -> & Hp').
    { destruct Hp as [Hg|Hf].
      - unfold tcp_s_write. rewrite Hg. eexists _, _, _. split; [done|by left].
      - destruct (tcp_write_ends (clk := clk) (late := late) w p d Hf) as (w' & p' & r & E & Ef). eexists _, _, _.
        split; [exact E|]. right. by rewrite Ef. }
    cbn. by eexists _, _, _.
  - intros w p Hp. exact Hp.
  - intros w p Hp. cbn. destruct (t_gone p) eqn:E; [exact Hp|by left].
  - intros w p _. cbn. by eexists.
Qed.

(** ** What is used of mbedTLS *)

Fixpoint prog_all {A} (Q : A → Prop) (p : bio_prog A) : Prop :=
  match p with
  | BioDone a => Q a
  | BioRead _ k => ∀ r d rt, prog_all Q (k r d rt)
  | BioWrite _ k => ∀ r rt, prog_all Q (k r rt)
  end.

(** A certificate fits the buffer it was written to; every ticket a read
    reports is one less to come. *)
Class MbedtlsOk `{!Mbedtls} : Prop := {
  der_fits : ∀ w n der, x509write_der w n = inr der → zlen der ≤ n;
  read_tickets : ∀ ssl names n, prog_all (λ x : mssl * (Z * bytes),
    x.2.1 = MBEDTLS_ERR_SSL_RECEIVED_NEW_SESSION_TICKET → (tickets_left x.1 < tickets_left ssl)%nat) (ssl_read ssl names n);
}.

(** ** Reference counts *)

(** [cnt] says how many hold each context: owner and streams; [al], which list
    of names it has. *)
Definition bump (id : nat) (d : Z) (cnt : nat → Z) : nat → Z := λ j, cnt j + (if decide (j = id) then d else 0).

Section Refs.
Context {W : Type} {MB : Mbedtls} {MBO : MbedtlsOk} {AL : Allocator} {al : nat → option nat}.

Record world_ok (N : Z) (v : mworld W) (cnt : nat → Z) : Prop := {
  wo_cnt : ∀ id, 0 ≤ cnt id ≤ N;
  wo_refs : ∀ id x, mw_ctxs v !! id = Some x → mc_refs x = cnt id ∧ 0 < cnt id;
  wo_live : ∀ id, 0 < cnt id → is_Some (mw_ctxs v !! id);
  wo_conf : ∀ id x, mw_ctxs v !! id = Some x → mc_conf_alpn x = mc_alpn x;
  wo_list : ∀ id x a, mw_ctxs v !! id = Some x → mc_alpn x = Some a → is_Some (mw_lists v !! a) ∧ (a < mw_next v)%nat;
  wo_inj : ∀ i j x y a, mw_ctxs v !! i = Some x → mw_ctxs v !! j = Some y → mc_alpn x = Some a → mc_alpn y = Some a → i = j;
  wo_fresh : ∀ id x, mw_ctxs v !! id = Some x → (id < mw_next v)%nat;
  wo_al : ∀ id x, mw_ctxs v !! id = Some x → mc_alpn x = al id;
  wo_none : ∀ id, (mw_next v ≤ id)%nat → al id = None;
}.

Lemma world_ok_mono N N' v cnt : world_ok N v cnt → N ≤ N' → world_ok N' v cnt.
Proof. intros [] HN. split; try done. intros id. specialize (wo_cnt0 id). lia. Qed.

Lemma world_ok_ext N v cnt cnt' : world_ok N v cnt → (∀ id, cnt' id = cnt id) → world_ok N v cnt'.
Proof. intros [] E. split; try done; intros id *; rewrite ?E; eauto. Qed.

Lemma world_ok_net N v cnt w : world_ok N v cnt → world_ok N (mw_set_net w v) cnt.
Proof. by intros []. Qed.

Lemma get_live N v cnt id : world_ok N v cnt → 0 < cnt id → ∃ x, get_ctx v id = Ok x ∧ mw_ctxs v !! id = Some x ∧ mc_refs x = cnt id.
Proof.
  intros Hv Hc. destruct (wo_live _ _ _ Hv id Hc) as [x Hx]. exists x. unfold get_ctx. rewrite Hx. split; [done|]. split; [done|].
  by apply (wo_refs _ _ _ Hv).
Qed.

(** Changing what is neither the count nor the lists. *)
Lemma put_same N v cnt id x x' : world_ok N v cnt → mw_ctxs v !! id = Some x →
  mc_refs x' = mc_refs x → mc_alpn x' = mc_alpn x → mc_conf_alpn x' = mc_conf_alpn x → world_ok N (put_ctx id x' v) cnt.
Proof.
  intros Hv Hx Hr Ha Hc.
  assert (∀ j y, mw_ctxs (put_ctx id x' v) !! j = Some y → ∃ y0, mw_ctxs v !! j = Some y0 ∧ mc_refs y = mc_refs y0 ∧
    mc_alpn y = mc_alpn y0 ∧ mc_conf_alpn y = mc_conf_alpn y0) as Hback.
  { intros j y. cbn. destruct (decide (j = id)) as [->|Hne]; [rewrite lookup_insert_eq; intros [= <-]; by exists x|].
    rewrite lookup_insert_ne by done. by exists y. }
  destruct Hv. split; try done.
  - intros j y (y0 & Hy & -> & _)%Hback. eauto.
  - intros j Hj. cbn. destruct (decide (j = id)) as [->|Hne]; [by rewrite lookup_insert_eq|]. rewrite lookup_insert_ne by done. eauto.
  - intros j y (y0 & Hy & _ & -> & ->)%Hback. eauto.
  - intros j y a (y0 & Hy & _ & -> & _)%Hback. eauto.
  - intros i j y z a (y0 & Hy & _ & -> & _)%Hback (z0 & Hz & _ & -> & _)%Hback. eauto.
  - intros j y (y0 & Hy & _)%Hback. eauto.
  - intros j y (y0 & Hy & _ & -> & _)%Hback. eauto.
Qed.

Lemma alloc_ok_world N v cnt sv : world_ok N v cnt → 1 ≤ N →
  let '(v', r) := ctx_alloc v sv in
  match r with
  | Some id => world_ok N v' (bump id 1 cnt) ∧ cnt id = 0
  | None => world_ok N v' cnt ∨ ∃ id, world_ok N v' (bump id 1 cnt) ∧ cnt id = 0 ∧ ctr_drbg_seed id ≠ 0
  end.
Proof.
  intros Hv HN. unfold ctx_alloc. destruct (negb _); [by left|]. set (id := mw_next v).
  assert (mw_ctxs v !! id = None) as Hnone.
  { destruct (mw_ctxs v !! id) as [x|] eqn:E; [|done]. apply (wo_fresh _ _ _ Hv) in E. unfold id in E. lia. }
  assert (cnt id = 0) as Hz.
  { pose proof (wo_cnt _ _ _ Hv id). destruct (decide (cnt id = 0)); [done|]. destruct (wo_live _ _ _ Hv id); [lia|congruence]. }
  set (x0 := mk_mctx _ _ _ _ _ _ _ _ _ _).
  assert (world_ok N (mk_mw (mw_net v) (<[id:=x0]> (mw_ctxs v)) (mw_lists v) (S id)) (bump id 1 cnt)) as Hv'.
  { destruct Hv. unfold bump. split; cbn.
    - intros j. specialize (wo_cnt0 j). destruct (decide (j = id)) as [->|]; lia.
    - intros j x. destruct (decide (j = id)) as [->|Hne]; [rewrite lookup_insert_eq; intros [= <-]; cbn; lia|].
      rewrite lookup_insert_ne, Z.add_0_r by done. eauto.
    - intros j. destruct (decide (j = id)) as [->|Hne]; [by rewrite lookup_insert_eq|]. rewrite lookup_insert_ne, Z.add_0_r by done. eauto.
    - intros j x. destruct (decide (j = id)) as [->|Hne]; [rewrite lookup_insert_eq; by intros [= <-]|].
      rewrite lookup_insert_ne by done. eauto.
    - intros j x a. destruct (decide (j = id)) as [->|Hne]; [rewrite lookup_insert_eq; by intros [= <-]|].
      rewrite lookup_insert_ne by done. intros Hx Ha. destruct (wo_list0 j x a Hx Ha). split; [done|]. unfold id. lia.
    - intros i j x y a. destruct (decide (i = id)) as [->|Hi]; [rewrite lookup_insert_eq; by intros [= <-]|].
      destruct (decide (j = id)) as [->|Hj]; [rewrite lookup_insert_eq; by intros _ [= <-]|]. rewrite !lookup_insert_ne by done. eauto.
    - intros j x. destruct (decide (j = id)) as [->|Hne]; [lia|]. rewrite lookup_insert_ne by done. intros Hx%wo_fresh0. unfold id. lia.
    - intros j x. destruct (decide (j = id)) as [->|Hne]; [rewrite lookup_insert_eq; intros [= <-]; cbn; symmetry; by apply wo_none0|].
      rewrite lookup_insert_ne by done. eauto.
    - intros j Hj. apply wo_none0. unfold id in Hj. lia. }
  destruct (Z.eqb_spec (ctr_drbg_seed id) 0); [done|]. right. by exists id.
Qed.

Lemma i32_count n : 0 ≤ n < 2 ^ 31 → i32 n = n.
Proof. intros. apply i32_small. lia. Qed.

(** Another count in the object. *)
Lemma put_refs N N' v cnt id x d : world_ok N v cnt → mw_ctxs v !! id = Some x → N ≤ N' → 0 < cnt id + d ≤ N' →
  world_ok N' (put_ctx id (mc_set_refs (cnt id + d) x) v) (bump id d cnt).
Proof.
  intros Hv Hx HN Hd. unfold bump. destruct Hv. split; cbn.
  - intros j. specialize (wo_cnt0 j). destruct (decide (j = id)) as [->|]; lia.
  - intros j y. destruct (decide (j = id)) as [->|Hne]; [rewrite lookup_insert_eq; intros [= <-]; cbn; lia|].
    rewrite lookup_insert_ne, Z.add_0_r by done. eauto.
  - intros j. destruct (decide (j = id)) as [->|Hne]; [by rewrite lookup_insert_eq|]. rewrite lookup_insert_ne, Z.add_0_r by done. eauto.
  - intros j y. destruct (decide (j = id)) as [->|Hne]; [rewrite lookup_insert_eq; intros [= <-]; cbn; eauto|].
    rewrite lookup_insert_ne by done. eauto.
  - intros j y a. destruct (decide (j = id)) as [->|Hne]; [rewrite lookup_insert_eq; intros [= <-]; cbn; eauto|].
    rewrite lookup_insert_ne by done. eauto.
  - intros i j y z a.
    destruct (decide (i = id)) as [->|Hi]; [rewrite lookup_insert_eq; intros [= <-]|rewrite lookup_insert_ne by done; intros Hy];
    (destruct (decide (j = id)) as [->|Hj]; [rewrite lookup_insert_eq; intros [= <-]|rewrite lookup_insert_ne by done; intros Hz]); cbn; eauto.
  - intros j y. destruct (decide (j = id)) as [->|Hne]; [eauto|]. rewrite lookup_insert_ne by done. eauto.
  - intros j y. destruct (decide (j = id)) as [->|Hne]; [rewrite lookup_insert_eq; intros [= <-]; cbn; eauto|].
    rewrite lookup_insert_ne by done. eauto.
  - done.
Qed.

Lemma ref_ok N v cnt id : world_ok N v cnt → 0 < cnt id → N + 1 < 2 ^ 31 →
  ∃ v', ctx_ref id v = Ok v' ∧ world_ok (N + 1) v' (bump id 1 cnt).
Proof.
  intros Hv Hc HN. destruct (get_live _ _ _ _ Hv Hc) as (x & E & Hx & Hr). unfold ctx_ref. rewrite E. cbn [mbind exec_bind].
  eexists. split; [done|]. pose proof (wo_cnt _ _ _ Hv id). rewrite Hr, i32_count by lia.
  apply (put_refs N); [done|done|lia|lia].
Qed.

(** Freeing a context nobody holds any more, with its list. *)
Lemma teardown_ok N v cnt id x : world_ok N v cnt → mw_ctxs v !! id = Some x → cnt id = 1 →
  ∃ v', ctx_teardown id (put_ctx id (mc_set_refs 0 x) v) = Ok v' ∧ world_ok N v' (bump id (-1) cnt).
Proof.
  intros Hv Hx Hc. unfold ctx_teardown, get_ctx. cbn [mw_ctxs put_ctx]. rewrite lookup_insert_eq. cbn [mbind exec_bind mc_alpn mc_set_refs].
  assert (∀ l', (∀ j y a, j ≠ id → mw_ctxs v !! j = Some y → mc_alpn y = Some a → is_Some (l' !! a)) →
    world_ok N (mk_mw (mw_net v) (delete id (<[id:=mc_set_refs 0 x]> (mw_ctxs v))) l' (mw_next v)) (bump id (-1) cnt)) as Hw.
  { intros l' Hl. rewrite delete_insert_eq. unfold bump. destruct Hv. split; cbn.
    - intros j. specialize (wo_cnt0 j). destruct (decide (j = id)) as [->|]; lia.
    - intros j y [Hne Hy]%lookup_delete_Some. rewrite decide_False, Z.add_0_r by done. eauto.
    - intros j. destruct (decide (j = id)) as [->|Hne]; [lia|]. rewrite Z.add_0_r, lookup_delete_ne by done. eauto.
    - intros j y [_ Hy]%lookup_delete_Some. eauto.
    - intros j y a [Hne Hy]%lookup_delete_Some Ha. split; [by eapply Hl|]. by eapply wo_list0.
    - intros i j y z a [_ Hy]%lookup_delete_Some [_ Hz]%lookup_delete_Some. eauto.
    - intros j y [_ Hy]%lookup_delete_Some. eauto.
    - intros j y [_ Hy]%lookup_delete_Some. eauto.
    - done. }
  destruct (mc_alpn x) as [a|] eqn:Ea; cbn [free_list mw_lists put_ctx].
  - destruct (wo_list _ _ _ Hv id x a Hx Ea) as [[l Hl] _]. rewrite Hl. cbn [mbind exec_bind mw_net mw_ctxs mw_lists mw_next put_ctx].
    eexists. split; [done|]. apply Hw. intros j y b Hj Hy Hb. rewrite lookup_delete_ne; [by apply (wo_list _ _ _ Hv j y b)|].
    intros ->. apply Hj. by eapply (wo_inj _ _ _ Hv).
  - cbn [mbind exec_bind mw_net mw_ctxs mw_lists mw_next put_ctx]. eexists. split; [done|]. apply Hw.
    intros j y b Hj Hy Hb. by apply (wo_list _ _ _ Hv j y b).
Qed.

Lemma unref_ok N v cnt id : world_ok N v cnt → 0 < cnt id → N < 2 ^ 31 →
  ∃ v', ctx_unref (Some id) v = Ok v' ∧ world_ok N v' (bump id (-1) cnt).
Proof.
  intros Hv Hc HN. destruct (get_live _ _ _ _ Hv Hc) as (x & E & Hx & Hr). unfold ctx_unref. rewrite E. cbn [mbind exec_bind].
  pose proof (wo_cnt _ _ _ Hv id). rewrite Hr, i32_count by lia. destruct (Z.eqb_spec (cnt id) 1) as [H1|H1].
  - rewrite H1. by apply teardown_ok.
  - eexists. split; [done|]. replace (cnt id - 1) with (cnt id + -1) by lia. apply (put_refs N); [done|done|lia|lia].
Qed.

(** What creating a context leaves: one more holder, or nothing, or an object
    whose seeding failed and that nobody can free. *)
Definition created (N : Z) (cnt : nat → Z) (v' : mworld W) (r : option nat) : Prop :=
  match r with
  | Some id => world_ok N v' (bump id 1 cnt) ∧ cnt id = 0
  | None => world_ok N v' cnt ∨ ∃ id, world_ok N v' (bump id 1 cnt) ∧ cnt id = 0 ∧ ctr_drbg_seed id ≠ 0
  end.

Lemma bump_back id cnt j : bump id (-1) (bump id 1 cnt) j = cnt j.
Proof. unfold bump. destruct (decide _); lia. Qed.

(** Giving up on a context under construction. *)
Lemma abandon N v cnt id : world_ok N v (bump id 1 cnt) → cnt id = 0 → N < 2 ^ 31 →
  ∃ v' r, (v ← ctx_unref (Some id) v; Ok (v, @None nat)) = Ok (v', r) ∧ created N cnt v' r.
Proof.
  intros Hv Hz HN. destruct (unref_ok N v _ id Hv) as (v' & -> & Hv'); [unfold bump; rewrite decide_True by done; lia|done|].
  cbn [mbind exec_bind]. eexists _, _. split; [done|]. left. eapply world_ok_ext; [exact Hv'|]. intros j. by rewrite bump_back.
Qed.

Lemma get_new N v cnt id : world_ok N v (bump id 1 cnt) → cnt id = 0 → ∃ x, get_ctx v id = Ok x ∧ mw_ctxs v !! id = Some x.
Proof.
  intros Hv Hz. destruct (get_live _ _ _ id Hv) as (x & E & Hx & _); [unfold bump; rewrite decide_True by done; lia|]. by exists x.
Qed.

Lemma client_ctx_ok N v cnt host : world_ok N v cnt → 1 ≤ N < 2 ^ 31 →
  ∃ v' r, mtls_client_ctx v host = Ok (v', r) ∧ created N cnt v' r.
Proof.
  intros Hv HN. unfold mtls_client_ctx. pose proof (alloc_ok_world N v cnt false Hv ltac:(lia)) as Ha.
  destruct (ctx_alloc v false) as [v1 [id|]]; [|eexists _, _; split; [done|exact Ha]]. destruct Ha as [Hv1 Hz].
  destruct (get_new _ _ _ _ Hv1 Hz) as (x & E & Hx). rewrite E. cbn [mbind exec_bind].
  destruct (ssl_config_defaults (mc_conf x) false) as [conf ret]. destruct (negb (ret =? 0)); [apply abandon; [done|done|lia]|].
  destruct (load_default_cas (mc_ca x)) as [ca loaded]. eexists _, (Some id). split; [done|]. split; [|done]. by eapply put_same.
Qed.

Lemma server_common_ok N v cnt id : world_ok N v (bump id 1 cnt) → cnt id = 0 → 1 ≤ N < 2 ^ 31 →
  ∃ v' r, mtls_server_ctx_common v id = Ok (v', r) ∧ created N cnt v' r.
Proof.
  intros Hv Hz HN. unfold mtls_server_ctx_common. destruct (get_new _ _ _ _ Hv Hz) as (x & E & Hx). rewrite E. cbn [mbind exec_bind].
  destruct (ssl_config_defaults (mc_conf x) true) as [conf ret]. destruct (negb (ret =? 0)); [apply abandon; [done|done|lia]|].
  destruct (ssl_conf_own_cert _ _ _) as [conf' ret']. destruct (negb (ret' =? 0)); [apply abandon; [done|done|lia]|].
  eexists _, (Some id). split; [done|]. split; [|done]. by eapply put_same.
Qed.

Lemma selfsign_ok x : ∃ x' b, mtls_selfsign_install x = Ok (x', b) ∧
  mc_refs x' = mc_refs x ∧ mc_alpn x' = mc_alpn x ∧ mc_conf_alpn x' = mc_conf_alpn x.
Proof.
  unfold mtls_selfsign_install. destruct (pk_setup _) as [k1 r1]. destruct (negb (r1 =? 0)); [by eexists _, _|].
  destruct (ecp_gen_key _) as [k2 r2]. destruct (negb (r2 =? 0)); [by eexists _, _|].
  destruct (and_then _ _) as [w3 r3]. destruct (negb (r3 =? 0)); [by eexists _, _|].
  destruct (x509write_validity _ _ _) as [w4 r4]. destruct (negb (r4 =? 0)); [by eexists _, _|].
  destruct (x509write_san _ _) as [w5 r5]. destruct (negb (r5 =? 0)); [by eexists _, _|].
  destruct (x509write_der w5 DER_SIZE) as [e|der] eqn:Ed; [by eexists _, _|]. apply der_fits in Ed.
  unfold mem_read. rewrite bool_decide_true.
  2:{ rewrite length_app, length_replicate. unfold DER_SIZE in *. lia. }
  cbn [mbind exec_bind]. destruct (x509_crt_parse_der _ _) as [c6 r6]. by eexists _, _.
Qed.

Lemma server_ctx_ok N v cnt : world_ok N v cnt → 1 ≤ N < 2 ^ 31 →
  ∃ v' r, mtls_server_ctx v = Ok (v', r) ∧ created N cnt v' r.
Proof.
  intros Hv HN. unfold mtls_server_ctx. pose proof (alloc_ok_world N v cnt true Hv ltac:(lia)) as Ha.
  destruct (ctx_alloc v true) as [v1 [id|]]; [|eexists _, _; split; [done|exact Ha]]. destruct Ha as [Hv1 Hz].
  destruct (get_new _ _ _ _ Hv1 Hz) as (x & E & Hx). rewrite E. cbn [mbind exec_bind].
  destruct (selfsign_ok x) as (x' & ok & -> & H1 & H2 & H3). cbn [mbind exec_bind].
  assert (world_ok N (put_ctx id x' v1) (bump id 1 cnt)) as Hv2 by (by eapply put_same).
  destruct (negb ok); [apply abandon; [done|done|lia]|]. by apply server_common_ok.
Qed.

Lemma server_ctx_files_ok N v cnt cert key : world_ok N v cnt → 1 ≤ N < 2 ^ 31 →
  ∃ v' r, mtls_server_ctx_files v cert key = Ok (v', r) ∧ created N cnt v' r.
Proof.
  intros Hv HN. unfold mtls_server_ctx_files. destruct cert as [cert|]; [|eexists _, _; split; [done|by left]].
  destruct key as [key|]; [|eexists _, _; split; [done|by left]]. pose proof (alloc_ok_world N v cnt true Hv ltac:(lia)) as Ha.
  destruct (ctx_alloc v true) as [v1 [id|]]; [|eexists _, _; split; [done|exact Ha]]. destruct Ha as [Hv1 Hz].
  destruct (get_new _ _ _ _ Hv1 Hz) as (x & E & Hx). rewrite E. cbn [mbind exec_bind].
  destruct (x509_crt_parse_file (mc_cert x) cert) as [crt ret].
  destruct (negb (ret =? 0)); [apply abandon; [by eapply put_same|done|lia]|].
  destruct (pk_parse_keyfile _ key) as [pk ret'].
  destruct (negb (ret' =? 0)); [apply abandon; [by eapply put_same|done|lia]|].
  apply server_common_ok; [by eapply put_same|done|done].
Qed.

Lemma names_live N v cnt id x : world_ok N v cnt → mw_ctxs v !! id = Some x → ∃ names, conf_names v id = Ok names.
Proof.
  intros Hv Hx. unfold conf_names, get_ctx. rewrite Hx. cbn [mbind exec_bind].
  rewrite (wo_conf _ _ _ Hv id x Hx). destruct (mc_alpn x) as [a|] eqn:Ea; [|by eexists].
  destruct (wo_list _ _ _ Hv id x a Hx Ea) as [[l ->] _]. by eexists.
Qed.
End Refs.

(** ** ALPN *)

Section Alpn.
Context {W : Type} {MB : Mbedtls} {MBO : MbedtlsOk} {AL : Allocator} (al : nat → option nat).

Definition al_set (id a : nat) : nat → option nat := λ j, if decide (j = id) then Some a else al j.

Lemma put_alpn N (v : mworld W) cnt id x names l : world_ok (al := al) N v cnt → mw_ctxs v !! id = Some x →
  (∀ j y b, j ≠ id → mw_ctxs v !! j = Some y → mc_alpn y = Some b → is_Some (l !! b)) →
  world_ok (al := al_set id (mw_next v)) N (put_ctx id (mc_set_alpn (Some (mw_next v)) (Some (mw_next v)) x)
    (mk_mw (mw_net v) (mw_ctxs v) (<[mw_next v := names]> l) (S (mw_next v)))) cnt.
Proof.
  intros Hv Hx Hl. set (a := mw_next v).
  assert (∀ j y b, mw_ctxs v !! j = Some y → mc_alpn y = Some b → (b < a)%nat) as Hlt by (intros j y b Hy Hb; by eapply (wo_list _ _ _ Hv)).
  destruct Hv. split; cbn; try done.
  - intros j y. destruct (decide (j = id)) as [->|Hne]; [rewrite lookup_insert_eq; intros [= <-]; cbn; eauto|].
    rewrite lookup_insert_ne by done. eauto.
  - intros j Hj. destruct (decide (j = id)) as [->|Hne]; [by rewrite lookup_insert_eq|]. rewrite lookup_insert_ne by done. eauto.
  - intros j y. destruct (decide (j = id)) as [->|Hne]; [rewrite lookup_insert_eq; by intros [= <-]|].
    rewrite lookup_insert_ne by done. eauto.
  - intros j y b. destruct (decide (j = id)) as [->|Hne].
    + rewrite lookup_insert_eq. intros [= <-]. cbn. intros [= <-]. rewrite lookup_insert_eq. split; [done|]. unfold a. lia.
    + rewrite lookup_insert_ne by done. intros Hy Hb. pose proof (Hlt j y b Hy Hb). rewrite lookup_insert_ne by lia.
      split; [by eapply Hl|lia].
  - intros i j y z b.
    destruct (decide (i = id)) as [->|Hi]; [rewrite lookup_insert_eq; intros [= <-]|rewrite lookup_insert_ne by done; intros Hy];
    (destruct (decide (j = id)) as [->|Hj]; [rewrite lookup_insert_eq; intros [= <-]|rewrite lookup_insert_ne by done; intros Hz]);
    cbn; [done| | |by eauto].
    + intros [= <-] Hb. pose proof (Hlt j z _ Hz Hb). lia.
    + intros Hb [= <-]. pose proof (Hlt i y _ Hy Hb). lia.
  - intros j y. destruct (decide (j = id)) as [->|Hne]; [intros _; apply wo_fresh0 in Hx; lia|].
    rewrite lookup_insert_ne by done. intros Hy%wo_fresh0. lia.
  - intros j y. unfold al_set. destruct (decide (j = id)) as [->|Hne]; [rewrite lookup_insert_eq; by intros [= <-]|].
    rewrite lookup_insert_ne by done. eauto.
  - intros j Hj. apply wo_fresh0 in Hx. unfold al_set. rewrite decide_False by lia. apply wo_none0. lia.
Qed.

Lemma set_alpn_ok N (v : mworld W) cnt id protos : world_ok (al := al) N v cnt → 0 < cnt id → protos ≠ [] →
  ∃ v' r al', mtls_ctx_set_alpn v (Some id) (Some protos) = Ok (v', Some id, r) ∧ world_ok (al := al') N v' cnt ∧
    ∀ j, j ≠ id → al' j = al j.
Proof.
  intros Hv Hc Hp. unfold mtls_ctx_set_alpn. destruct (negb _); [by eexists _, _, al|].
  destruct (alpn_copy protos) as [r|names]; [by eexists _, _, al|].
  assert (∀ j, j ≠ id → al_set id (mw_next v) j = al j) as Hal by (intros j Hj; unfold al_set; by rewrite decide_False).
  destruct (get_live _ _ _ _ Hv Hc) as (x & E & Hx & _). rewrite E. cbn [mbind exec_bind].
  assert ((zlen protos =? 0) = false) as -> by (apply Z.eqb_neq; destruct protos; [done|cbn; lia]).
  destruct (negb _); [by eexists _, _, al|]. destruct (mc_alpn x) as [a0|] eqn:Ea; cbn [free_list].
  - destruct (wo_list _ _ _ Hv id x a0 Hx Ea) as [[l0 Hl0] _]. rewrite Hl0. cbn [mbind exec_bind mw_net mw_ctxs mw_lists mw_next].
    eexists _, _, _. split; [done|]. split; [|exact Hal]. apply put_alpn; [done|done|]. intros j y b Hj Hy Hb. rewrite lookup_delete_ne; [by apply (wo_list _ _ _ Hv j y b)|].
    intros ->. apply Hj. by eapply (wo_inj _ _ _ Hv).
  - cbn [mbind exec_bind]. eexists _, _, _. split; [done|]. split; [|exact Hal]. apply put_alpn; [done|done|]. intros j y b _ Hy Hb. by apply (wo_list _ _ _ Hv j y b).
Qed.

End Alpn.

(** ** Streams hold their context *)

Section Held.
Context {W P : Type} {CR : Carrier W P} {ok : P → Prop} {CO : CarrierOk W P ok} {MB : Mbedtls} {MBO : MbedtlsOk} {AL : Allocator}
  {al : nat → option nat}.
Abbreviation world_ok := (world_ok (al := al)).

Lemma run_mbio_ok {A} (Q : A → Prop) (p : bio_prog A) (b : bio_state W P) : ok (b_plain b) → prog_all Q p →
  ∃ b' a, run_mbio b p = Ok (b', a) ∧ ok (b_plain b') ∧ Q a.
Proof.
  revert b. induction p as [a|len k IH|data k IH]; intros b Hb Hq; cbn [run_mbio].
  - by exists b, a.
  - assert (∃ b1 r d, mtls_bio_recv b len = Ok (b1, r, d) ∧ ok (b_plain b1)) as (b1 & r & d & -> & H1).
    { unfold mtls_bio_recv. destruct (ok_read (b_w b) (b_plain b) (if INT_MAX <? len then INT_MAX else len) Hb) as (w' & p' & r & d & -> & Hp).
      cbn [mbind exec_bind]. repeat case_match; by eexists _, _, _. }
    cbn [mbind exec_bind]. apply IH; [done|apply Hq].
  - assert (∃ b1 r, mtls_bio_send b data = Ok (b1, r) ∧ ok (b_plain b1)) as (b1 & r & -> & H1).
    { unfold mtls_bio_send. destruct (ok_write (b_w b) (b_plain b) (if INT_MAX <? zlen data then ztake INT_MAX data else data) Hb)
        as (w' & p' & r & -> & Hp). cbn [mbind exec_bind]. repeat case_match; by eexists _, _. }
    cbn [mbind exec_bind]. apply IH; [done|apply Hq].
Qed.

Lemma prog_all_true {A} (p : bio_prog A) : prog_all (λ _, True) p.
Proof. induction p; cbn; done. Qed.

(** The negotiated protocol is one of the names of the stream's context. *)
Definition list_ok (t : mtls_stream P) : Prop := ∀ a, mt_alpn_list t = Some a → al (mt_ctx t) = Some a.

(** The stream after a call: same context, same flags. *)
Definition same_hold (t t' : mtls_stream P) : Prop :=
  mt_ctx t' = mt_ctx t ∧ mt_owned t' = mt_owned t ∧ mt_verify t' = mt_verify t ∧ ok (mt_plain t') ∧
  (list_ok t → list_ok t').

Lemma hold_list t t' : mt_ctx t' = mt_ctx t → mt_owned t' = mt_owned t → mt_verify t' = mt_verify t → ok (mt_plain t') →
  mt_alpn_list t' = mt_alpn_list t → same_hold t t'.
Proof. intros H1 H2 H3 H4 H5. split; [done|]. do 3 (split; [done|]). unfold list_ok. by rewrite H1, H5. Qed.

Lemma hold_refl t : ok (mt_plain t) → same_hold t t.
Proof. intros. by apply hold_list. Qed.

Lemma hold_trans t1 t2 t3 : same_hold t1 t2 → same_hold t2 t3 → same_hold t1 t3.
Proof. intros (A1 & A2 & A3 & A4 & A5) (B1 & B2 & B3 & B4 & B5). split; [congruence|]. split; [congruence|]. split; [congruence|]. auto. Qed.

Lemma call_ok {A} (Q : mssl * A → Prop) N v cnt t (call : mssl → option (list bytes) → bio_prog (mssl * A)) :
  world_ok N v cnt → 0 < cnt (mt_ctx t) → ok (mt_plain t) → (∀ names, prog_all Q (call (mt_ssl t) names)) →
  ∃ v' t' tr a, call_ssl v t call = Ok (v', t', tr, a) ∧ world_ok N v' cnt ∧ same_hold t t' ∧
    mt_hs_done t' = mt_hs_done t ∧ Q (mt_ssl t', a).
Proof.
  intros Hv Hc Hp Hq. unfold call_ssl. destruct (get_live _ _ _ _ Hv Hc) as (x & -> & Hx & _). cbn [mbind exec_bind].
  destruct (names_live _ _ _ _ _ Hv Hx) as [names ->]. cbn [mbind exec_bind].
  destruct (run_mbio_ok Q (call (mt_ssl t) names) (mk_bio (mw_net v) (mt_plain t) 0 false) Hp (Hq names)) as (b & [ssl a] & -> & Hb & HQ).
  cbn [mbind exec_bind]. eexists _, _, _, _. split; [done|]. split; [by apply world_ok_net|]. split; [|by split].
  split; [done|]. do 3 (split; [done|]). intros Hl a'. cbn. rewrite <- (wo_al _ _ _ Hv _ _ Hx), <- (wo_conf _ _ _ Hv _ _ Hx).
  case_bool_decide; [|done]. intros Ha%Hl. by rewrite (wo_conf _ _ _ Hv _ _ Hx), (wo_al _ _ _ Hv _ _ Hx).
Qed.

Lemma call_any N v cnt t (call : mssl → option (list bytes) → bio_prog (mssl * Z)) :
  world_ok N v cnt → 0 < cnt (mt_ctx t) → ok (mt_plain t) →
  ∃ v' t' tr a, call_ssl v t call = Ok (v', t', tr, a) ∧ world_ok N v' cnt ∧ same_hold t t'.
Proof.
  intros Hv Hc Hp. destruct (call_ok (λ _, True) N v cnt t call Hv Hc Hp (λ names, prog_all_true _))
    as (v1 & t1 & tr & r & E & Hv1 & Ht1 & _ & _). by exists v1, t1, tr, r.
Qed.

Lemma read_ok N v cnt t n : world_ok N v cnt → 0 < cnt (mt_ctx t) → ok (mt_plain t) →
  ∃ v' t' r d, mtls_strm_read v t n = Ok (v', t', r, d) ∧ world_ok N v' cnt ∧ same_hold t t'.
Proof.
  intros Hv Hc Hp. unfold mtls_strm_read. destruct (n =? 0); [eexists _, _, _, _; split; [done|]; split; [done|by apply hold_refl]|].
  generalize (if INT_MAX <? n then INT_MAX else n). clear n. intros n.
  assert (∀ fuel v t, (tickets_left (mt_ssl t) < fuel)%nat → world_ok N v cnt → 0 < cnt (mt_ctx t) → ok (mt_plain t) →
    ∃ v' t' r d, mtls_read_loop fuel v t n = Ok (v', t', r, d) ∧ world_ok N v' cnt ∧ same_hold t t') as Hloop; [|by apply Hloop; [lia|..]].
  clear v t Hv Hc Hp. induction fuel as [|fuel IH]; intros v t Hf Hv Hc Hp; [lia|]. cbn [mtls_read_loop].
  destruct (call_ok _ N v cnt t (λ ssl names, ssl_read ssl names n) Hv Hc Hp (λ names, read_tickets _ names n))
    as (v1 & t1 & tr & [r d] & -> & Hv1 & Ht1 & _ & Htk). cbn [mbind exec_bind]. cbn [fst snd] in Htk.
  destruct (0 <? r); [by eexists _, _, _, _|]. destruct (r =? 0); [by eexists _, _, _, _|]. destruct (mwants r); [by eexists _, _, _, _|].
  destruct (Z.eqb_spec r MBEDTLS_ERR_SSL_RECEIVED_NEW_SESSION_TICKET) as [Hr|_].
  - specialize (Htk Hr). pose proof Ht1 as (T1 & T2 & T3 & T4 & T5).
    destruct (IH v1 t1 ltac:(lia) Hv1 ltac:(by rewrite T1) T4) as (v2 & t2 & r2 & d2 & -> & Hv2 & Ht2).
    eexists _, _, _, _. split; [done|]. split; [done|]. by eapply hold_trans.
  - destruct (_ || _); by eexists _, _, _, _.
Qed.

Lemma write_ok N v cnt t src : world_ok N v cnt → 0 < cnt (mt_ctx t) → ok (mt_plain t) →
  ∃ v' t' r, mtls_strm_write v t src = Ok (v', t', r) ∧ world_ok N v' cnt ∧ same_hold t t'.
Proof.
  intros Hv Hc Hp. unfold mtls_strm_write. destruct (zlen src =? 0); [eexists _, _, _; split; [done|]; split; [done|by apply hold_refl]|].
  destruct (call_any N v cnt t (λ ssl names, ssl_write ssl names (if INT_MAX <? zlen src then ztake INT_MAX src else src)) Hv Hc Hp)
    as (v1 & t1 & tr & r & -> & Hv1 & Ht1).
  cbn [mbind exec_bind]. destruct (0 <? r); [by eexists _, _, _|]. destruct (mwants r); [by eexists _, _, _|].
  destruct (_ || _); by eexists _, _, _.
Qed.

Lemma notify_ok N v cnt t : world_ok N v cnt → 0 < cnt (mt_ctx t) → ok (mt_plain t) →
  ∃ v' t', close_notify v t = Ok (v', t') ∧ world_ok N v' cnt ∧ same_hold t t'.
Proof.
  intros Hv Hc Hp. unfold close_notify. destruct (mt_shut t); [eexists _, _; split; [done|]; split; [done|by apply hold_refl]|].
  destruct (call_any N v cnt t ssl_close_notify Hv Hc Hp) as (v1 & t1 & tr & r & -> & Hv1 & Ht1).
  cbn [mbind exec_bind]. by eexists _, _.
Qed.

Lemma mclose_ok N v cnt t : world_ok N v cnt → 0 < cnt (mt_ctx t) → ok (mt_plain t) →
  ∃ v' t' r, mtls_strm_close v t = Ok (v', t', r) ∧ world_ok N v' cnt ∧ same_hold t t'.
Proof.
  intros Hv Hc Hp. unfold mtls_strm_close. destruct (notify_ok _ _ _ _ Hv Hc Hp) as (v1 & t1 & -> & Hv1 & Ht1).
  pose proof Ht1 as (T1 & T2 & T3 & T4 & T5).
  cbn [mbind exec_bind]. pose proof (ok_close (mw_net v1) (mt_plain t1) T4) as Hcl. destruct (cr_close _ _) as [[w p] r].
  eexists _, _, _. split; [done|]. split; [by apply world_ok_net|]. eapply hold_trans; [exact Ht1|]. by apply hold_list.
Qed.

(** Destroying a stream gives its reference back. *)
Lemma destroy_ok N v cnt t : world_ok N v cnt → 0 < cnt (mt_ctx t) → ok (mt_plain t) → N < 2 ^ 31 →
  ∃ v' p, mtls_strm_destroy v t = Ok (v', p) ∧ world_ok N v' (bump (mt_ctx t) (-1) cnt).
Proof.
  intros Hv Hc Hp HN. unfold mtls_strm_destroy. destruct (notify_ok _ _ _ _ Hv Hc Hp) as (v1 & t1 & -> & Hv1 & (T1 & T2 & T3 & T4 & T5)).
  cbn [mbind exec_bind]. assert (∃ w, (if mt_owned t1 then cr_free (mw_net v1) (mt_plain t1) else Ok (mw_net v1)) = Ok w) as [w ->].
  { destruct (mt_owned t1); [by apply ok_free|by eexists]. }
  cbn [mbind exec_bind]. rewrite T1. destruct (unref_ok (al := al) N (mw_set_net w v1) cnt (mt_ctx t)) as (v2 & -> & Hv2); [by apply world_ok_net|done|done|].
  cbn [mbind exec_bind]. by eexists _, _.
Qed.

Lemma mstep_ok N v cnt t : world_ok N v cnt → 0 < cnt (mt_ctx t) → ok (mt_plain t) →
  ∃ v' t' r, mtls_handshake_step v t = Ok (v', t', r) ∧ world_ok N v' cnt ∧ same_hold t t'.
Proof.
  intros Hv Hc Hp. unfold mtls_handshake_step. destruct (mt_hs_done t); [eexists _, _, _; split; [done|]; split; [done|by apply hold_refl]|].
  destruct (call_any N v cnt t ssl_handshake Hv Hc Hp) as (v1 & t1 & tr & r & -> & Hv1 & Ht1).
  cbn [mbind exec_bind]. destruct (r =? 0); [|destruct (mwants r); by eexists _, _, _].
  destruct (negb _); [by eexists _, _, _|]. eexists _, _, _. split; [done|]. split; [done|].
  pose proof Ht1 as (T1 & T2 & T3 & T4 & T5). eapply hold_trans; [exact Ht1|]. by apply hold_list.
Qed.

(** Looking at the negotiated protocol. *)
Lemma alpn_ok N (v : mworld W) cnt (t : mtls_stream P) : world_ok N v cnt → 0 < cnt (mt_ctx t) → ok (mt_plain t) → list_ok t →
  ∃ t' name, mtls_stream_alpn v (Some (Overlay t)) = Ok (Some (Overlay t'), name) ∧ same_hold t t'.
Proof.
  intros Hv Hc Hp Hl. pose proof (hold_refl t Hp) as Hr. unfold mtls_stream_alpn. destruct (negb _); [by eexists _, _|].
  destruct (mt_alpn t); [|by eexists _, _]. assert (∃ o, chosen_name v t = Ok o) as [o ->].
  { unfold chosen_name. destruct (ssl_get_alpn_protocol _); [|by eexists]. destruct (mt_alpn_list t) as [a|] eqn:Ea; [|by eexists].
    destruct (get_live _ _ _ _ Hv Hc) as (x & _ & Hx & _).
    destruct (wo_list _ _ _ Hv _ x a Hx) as [[l ->] _]; [rewrite (wo_al _ _ _ Hv _ _ Hx); by apply Hl|by eexists]. }
  cbn [mbind exec_bind]. destruct o as [[|b o]|]; [by eexists _, _| |by eexists _, _].
  destruct (32 <=? _); [by eexists _, _|]. eexists _, _. split; [done|]. by apply hold_list.
Qed.

(** A stream takes a reference, or nothing changes. *)
Lemma make_ok N (v : mworld W) cnt (c : option nat) (plain : P) sv vf :
  world_ok N v cnt → (∀ id, c = Some id → 0 < cnt id) → ok plain → N + 1 < 2 ^ 31 →
  ∃ v' s, mtls_make_stream v c plain sv vf = Ok (v', s) ∧
    match s with
    | Some t => c = Some (mt_ctx t) ∧ world_ok (N + 1) v' (bump (mt_ctx t) 1 cnt) ∧ mt_plain t = plain ∧ mt_alpn_list t = None
    | None => world_ok (N + 1) v' cnt
    end.
Proof.
  intros Hv Hc Hp HN. assert (world_ok (N + 1) v cnt) as Hv1 by (eapply world_ok_mono; [done|lia]).
  unfold mtls_make_stream. destruct c as [id|]; [|by eexists _, _]. specialize (Hc id eq_refl).
  destruct (get_live _ _ _ _ Hv Hc) as (x & E & Hx & _). rewrite E. cbn [mbind exec_bind].
  destruct (negb _); [by eexists _, _|]. destruct (negb _); [by eexists _, _|]. destruct (ssl_setup _) as [ssl ret].
  destruct (negb _); [by eexists _, _|]. destruct (match host_given _ with Some _ => _ | None => _ end) as [ssl' ret'].
  destruct (negb _); [by eexists _, _|]. destruct (ref_ok (al := al) _ _ _ _ Hv Hc HN) as (v1 & -> & Hv2). cbn [mbind exec_bind].
  destruct (alloc_ok 24); [by eexists _, _|].
  destruct (unref_ok (al := al) _ _ _ id Hv2) as (v2 & -> & Hv3); [unfold bump; rewrite decide_True by done; lia|lia|].
  cbn [mbind exec_bind]. eexists _, _. split; [done|]. eapply world_ok_ext; [exact Hv3|]. intros j. by rewrite bump_back.
Qed.

(** The handshake loop may not end; when it does, the stream keeps its
    reference or gives it back. *)
Lemma wrap_loop_ok N fuel (v : mworld W) cnt (t : mtls_stream P) : world_ok N v cnt → 0 < cnt (mt_ctx t) → ok (mt_plain t) → N < 2 ^ 31 →
  mtls_wrap_loop fuel v t ≠ Fault ∧
  ∀ v' r, mtls_wrap_loop fuel v t = Ok (v', r) →
    match r with inr t' => world_ok N v' cnt ∧ same_hold t t' | inl _ => world_ok N v' (bump (mt_ctx t) (-1) cnt) end.
Proof.
  revert v t. induction fuel as [|fuel IH]; intros v t Hv Hc Hp HN; [done|]. cbn [mtls_wrap_loop].
  destruct (mstep_ok _ _ _ _ Hv Hc Hp) as (v1 & t1 & r & -> & Hv1 & Ht1). cbn [mbind exec_bind].
  pose proof Ht1 as (T1 & T2 & T3 & T4 & T5). destruct (r =? ZCIO_OK); [split; [done|]; intros v' r' [= <- <-]; done|].
  destruct (r =? ZCIO_ERR_TIMEOUT).
  - destruct (IH v1 t1 Hv1 ltac:(by rewrite T1) T4 HN) as [H1 H2]. split; [done|]. intros v' [p|t'] E; specialize (H2 _ _ E); cbn in H2.
    + by rewrite T1 in H2.
    + destruct H2 as [H2 Ht2]. split; [done|]. by eapply hold_trans.
  - destruct (destroy_ok N v1 cnt (mt_set_flags false (mt_shut t1) (mt_hs_done t1) t1) Hv1) as (v2 & p & -> & Hv2);
      [cbn; by rewrite T1|done|done|]. cbn [mbind exec_bind]. split; [done|]. intros v' r' [= <- <-]. cbn in Hv2. by rewrite T1 in Hv2.
Qed.
End Held.

(** ** Programs that use the backend

    A caller frees a context it owns once, and uses the contexts it owns and the
    streams it holds; any other call is not made. *)
Section Programs.
Context {W P : Type} {CR : Carrier W P} {MB : Mbedtls} {AL : Allocator}.

Inductive mtls_op :=
  | OpClientCtx (host : option bytes) | OpServerCtx | OpServerFiles (cert key : option bytes)
  | OpCtxFree (id : nat) | OpSetAlpn (id : nat) (protos : list (option bytes))
  | OpWrap (nb : bool) (id : nat) (plain : P) (is_server verify : bool)
  | OpRead (i : nat) (n : Z) | OpWrite (i : nat) (src : bytes) | OpHandshake (i : nat) | OpAlpn (i : nat) | OpClose (i : nat)
  | OpFree (i : nat).

Record mtls_sys := mk_sys { sy_v : mworld W; sy_owned : gset nat; sy_streams : list (mtls_stream P) }.

Definition own_new (s : mtls_sys) (call : exec (mworld W * option nat)) : exec mtls_sys :=
  '(v, c) ← call; Ok (mk_sys v (match c with Some id => {[id]} ∪ sy_owned s | None => sy_owned s end) (sy_streams s)).

Definition on_stream (s : mtls_sys) (i : nat) (f : mtls_stream P → exec (mworld W * mtls_stream P)) : exec mtls_sys :=
  match sy_streams s !! i with
  | None => Ok s
  | Some t => '(v, t) ← f t; Ok (mk_sys v (sy_owned s) (<[i := t]> (sy_streams s)))
  end.

Definition sys_step (turns : nat) (s : mtls_sys) (o : mtls_op) : exec mtls_sys :=
  let v := sy_v s in
  match o with
  | OpClientCtx host => own_new s (mtls_client_ctx v host)
  | OpServerCtx => own_new s (mtls_server_ctx v)
  | OpServerFiles cert key => own_new s (mtls_server_ctx_files v cert key)
  | OpCtxFree id =>
      if decide (id ∈ sy_owned s) then
        v ← mtls_ctx_free v (Some id); Ok (mk_sys v (sy_owned s ∖ {[id]}) (sy_streams s))
      else Ok s
  | OpSetAlpn id protos =>
      if decide (id ∈ sy_owned s) then
        '(v, _, _) ← mtls_ctx_set_alpn v (Some id) (Some protos); Ok (mk_sys v (sy_owned s) (sy_streams s))
      else Ok s
  | OpWrap nb id plain sv vf =>
      if decide (id ∈ sy_owned s) then
        '(v, r) ← (if nb then mtls_wrap_nb v (Some id) plain sv vf else mtls_wrap turns v (Some id) plain sv vf);
        Ok (mk_sys v (sy_owned s) (sy_streams s ++ match r with inl _ => [] | inr t => [t] end))
      else Ok s
  | OpRead i n => on_stream s i (λ t, '(v, t, _, _) ← mtls_strm_read v t n; Ok (v, t))
  | OpWrite i src => on_stream s i (λ t, '(v, t, _) ← mtls_strm_write v t src; Ok (v, t))
  | OpHandshake i => on_stream s i (λ t, '(v, t, _) ← mtls_handshake_step v t; Ok (v, t))
  | OpAlpn i => on_stream s i (λ t,
      '(o, _) ← mtls_stream_alpn v (Some (Overlay t)); Ok (v, match o with Some (Overlay t') => t' | _ => t end))
  | OpClose i => on_stream s i (λ t, '(v, t, _) ← mtls_strm_close v t; Ok (v, t))
  | OpFree i =>
      match sy_streams s !! i with
      | None => Ok s
      | Some t => '(v, _) ← mtls_strm_destroy v t; Ok (mk_sys v (sy_owned s) (delete i (sy_streams s)))
      end
  end.

Fixpoint sys_run (turns : nat) (s : mtls_sys) (ops : list mtls_op) : exec mtls_sys :=
  match ops with [] => Ok s | o :: ops => s ← sys_step turns s o; sys_run turns s ops end.

(** The names of a context are not set to none, and not replaced while the
    negotiated name of one of its streams is among them. *)
Definition op_allowed (s : mtls_sys) (o : mtls_op) : bool :=
  match o with
  | OpSetAlpn id protos => 
      negb (zlen protos =? 0) && forallb (λ t, bool_decide (mt_ctx t ≠ id ∨ mt_alpn_list t = None)) (sy_streams s)
  | _ => true
  end.

Fixpoint disciplined (turns : nat) (s : mtls_sys) (ops : list mtls_op) : bool :=
  match ops with
  | [] => true
  | o :: ops => op_allowed s o && match sys_step turns s o with Ok s => disciplined turns s ops | _ => true end
  end.

Definition sys_start (w : W) : mtls_sys := mk_sys (mw_start w) ∅ [].

Fixpoint holders (l : list (mtls_stream P)) (id : nat) : Z :=
  match l with [] => 0 | t :: l => (if decide (mt_ctx t = id) then 1 else 0) + holders l id end.

(** How many hold a context: its owner and the streams wrapped with it. *)
Definition held (s : mtls_sys) (id : nat) : Z :=
  (if decide (id ∈ sy_owned s) then 1 else 0) + holders (sy_streams s) id.

Lemma holders_app l l' id : holders (l ++ l') id = holders l id + holders l' id.
Proof. induction l as [|t l IH]; cbn [app holders]; lia. Qed.

Lemma holders_nonneg l id : 0 ≤ holders l id.
Proof. induction l as [|t l IH]; cbn [holders]; [lia|]. destruct (decide _); lia. Qed.

Lemma holders_delete l i t id : l !! i = Some t → holders (delete i l) id = bump (mt_ctx t) (-1) (holders l) id.
Proof.
  intros Hi. rewrite <- (take_drop_middle l i t Hi) at 2. rewrite delete_take_drop. unfold bump.
  rewrite !holders_app. cbn [holders]. destruct (decide (mt_ctx t = id)), (decide (id = mt_ctx t)); subst; try done; lia.
Qed.

Lemma holders_insert l i t t' id : l !! i = Some t → mt_ctx t' = mt_ctx t → holders (<[i := t']> l) id = holders l id.
Proof.
  intros Hi E. rewrite <- (take_drop_middle l i t Hi) at 2. rewrite insert_take_drop by (by eapply lookup_lt_Some).
  rewrite !holders_app. cbn [holders]. by rewrite E.
Qed.

Lemma holders_in l i t : l !! i = Some t → 0 < holders l (mt_ctx t).
Proof.
  intros Hi. rewrite <- (take_drop_middle l i t Hi), holders_app. cbn [holders]. rewrite decide_True by done.
  pose proof (holders_nonneg (take i l) (mt_ctx t)). pose proof (holders_nonneg (drop (S i) l) (mt_ctx t)). lia.
Qed.
End Programs.
Arguments mtls_op P : clear implicits.
Arguments mtls_sys W P {_}.

Section Lifetime.
Context {W P : Type} {CR : Carrier W P} {ok : P → Prop} {CO : CarrierOk W P ok} {MB : Mbedtls} {MBO : MbedtlsOk} {AL : Allocator}.

(** The contexts whose seeding failed, [L], are held by nobody. *)
Definition sys_cnt (s : mtls_sys W P) (L : gset nat) (id : nat) : Z := held s id + (if decide (id ∈ L) then 1 else 0).

Record sys_inv (al : nat → option nat) (N : Z) (s : mtls_sys W P) (L : gset nat) : Prop := {
  si_world : world_ok (al := al) N (sy_v s) (sys_cnt s L);
  si_lost : ∀ id, id ∈ L → ctr_drbg_seed id ≠ 0;
  si_disj : sy_owned s ## L;
  si_plain : Forall (λ t, ok (mt_plain t)) (sy_streams s);
  si_alpn : Forall (list_ok (al := al)) (sy_streams s);
}.

Definition op_ok (o : mtls_op P) : Prop := match o with OpWrap _ _ plain _ _ => ok plain | _ => True end.

Lemma held_owned (s : mtls_sys W P) L id : id ∈ sy_owned s → 0 < sys_cnt s L id.
Proof.
  intros Hi. unfold sys_cnt, held. rewrite decide_True by done. pose proof (holders_nonneg (sy_streams s) id).
  destruct (decide (id ∈ L)); lia.
Qed.

Lemma held_stream (s : mtls_sys W P) L i t : sy_streams s !! i = Some t → 0 < sys_cnt s L (mt_ctx t).
Proof.
  intros Hi. unfold sys_cnt, held. pose proof (holders_in _ _ _ Hi). destruct (decide _), (decide _); lia.
Qed.

(** A new context. *)
Lemma own_new_ok al N s L call : sys_inv al N s L →
  (∃ v' r, call = Ok (v', r) ∧ created (al := al) N (sys_cnt s L) v' r) → ∃ s' L', own_new s call = Ok s' ∧ sys_inv al N s' L'.
Proof.
  intros [Hw Hl Hd Hp Ha] (v' & r & -> & Hc). unfold own_new. cbn [mbind exec_bind]. destruct r as [id|]; cbn in Hc.
  - destruct Hc as [Hv Hz]. eexists _, L. split; [done|].
    assert (id ∉ sy_owned s ∧ id ∉ L) as [Hno HnL].
    { pose proof (holders_nonneg (sy_streams s) id). unfold sys_cnt, held in Hz. by destruct (decide (id ∈ sy_owned s)), (decide (id ∈ L)); try lia. }
    split; cbn; [|done|set_solver|done|done]. eapply world_ok_ext; [exact Hv|]. intros j. unfold sys_cnt, held, bump. cbn.
    destruct (decide (j = id)) as [->|Hne]; [rewrite decide_True by set_solver; rewrite (decide_False (P := id ∈ sy_owned s)) by done; lia|].
    destruct (decide (j ∈ {[id]} ∪ sy_owned s)), (decide (j ∈ sy_owned s)); try lia; exfalso; set_solver.
  - destruct Hc as [Hv|(id & Hv & Hz & Hs)]; [by eexists _, L|]. eexists _, ({[id]} ∪ L). split; [done|].
    assert (id ∉ sy_owned s ∧ id ∉ L) as [Hno HnL].
    { pose proof (holders_nonneg (sy_streams s) id). unfold sys_cnt, held in Hz. by destruct (decide (id ∈ sy_owned s)), (decide (id ∈ L)); try lia. }
    split; cbn; [|set_solver|set_solver|done|done]. eapply world_ok_ext; [exact Hv|]. intros j. unfold sys_cnt, held, bump. cbn.
    destruct (decide (j = id)) as [->|Hne]; [rewrite (decide_True (P := id ∈ {[id]} ∪ L)) by set_solver; rewrite (decide_False (P := id ∈ L)) by done; lia|].
    destruct (decide (j ∈ {[id]} ∪ L)), (decide (j ∈ L)); try lia; exfalso; set_solver.
Qed.

(** A call on a stream. *)
Lemma on_stream_ok al N s L i f : sys_inv al N s L →
  (∀ t, sy_streams s !! i = Some t → ∃ v' t', f t = Ok (v', t') ∧ world_ok (al := al) N v' (sys_cnt s L) ∧ same_hold (ok := ok) (al := al) t t') →
  ∃ s', on_stream s i f = Ok s' ∧ sys_inv al N s' L.
Proof.
  intros Hs Hf. unfold on_stream. destruct (sy_streams s !! i) as [t|] eqn:Ei; [|by eexists].
  destruct (Hf t eq_refl) as (v' & t' & -> & Hv & (T1 & T2 & T3 & T4 & T5)). cbn [mbind exec_bind]. eexists. split; [done|].
  destruct Hs as [Hw Hl Hd Hp Ha]. assert (list_ok (al := al) t') as Hl' by (apply T5; by apply (Forall_lookup_1 _ _ _ _ Ha Ei)).
  split; cbn; [|done|done|by apply Forall_insert|by apply Forall_insert].
  eapply world_ok_ext; [exact Hv|]. intros j. unfold sys_cnt, held. cbn. by rewrite (holders_insert _ _ _ _ _ Ei T1).
Qed.

Lemma free_ctx_ok al N s L id : sys_inv al N s L → id ∈ sy_owned s → N < 2 ^ 31 →
  ∃ v', mtls_ctx_free (sy_v s) (Some id) = Ok v' ∧ sys_inv al N (mk_sys v' (sy_owned s ∖ {[id]}) (sy_streams s)) L.
Proof.
  intros [Hw Hl Hd Hp Ha] Hi HN. destruct (unref_ok N _ _ id Hw (held_owned s L id Hi) HN) as (v' & E & Hv). exists v'. split; [exact E|].
  split; cbn; [|done|set_solver|done|done]. eapply world_ok_ext; [exact Hv|]. intros j. unfold sys_cnt, held, bump. cbn.
  destruct (decide (j = id)) as [->|Hne]; [rewrite decide_False by set_solver; rewrite (decide_True (P := id ∈ sy_owned s)) by done; lia|].
  destruct (decide (j ∈ sy_owned s ∖ {[id]})), (decide (j ∈ sy_owned s)); try lia; exfalso; set_solver.
Qed.

Lemma add_stream al N s L v' t : sys_inv al N s L → world_ok (al := al) (N + 1) v' (bump (mt_ctx t) 1 (sys_cnt s L)) → ok (mt_plain t) →
  list_ok (al := al) t →
  sys_inv al (N + 1) (mk_sys v' (sy_owned s) (sy_streams s ++ [t])) L.
Proof.
  intros [Hw Hl Hd Hp Ha] Hv Ht Hlt. split; cbn; [|done|done| |]. 2,3: apply Forall_app; split; [done|]; by constructor.
  eapply world_ok_ext; [exact Hv|]. intros j. unfold sys_cnt, held, bump. cbn. rewrite holders_app. cbn [holders].
  destruct (decide (mt_ctx t = j)), (decide (j = mt_ctx t)); subst; try done; lia.
Qed.

Lemma wrap_ok al N turns (s : mtls_sys W P) L (nb : bool) id plain sv vf : sys_inv al N s L → id ∈ sy_owned s → ok plain → N + 1 < 2 ^ 31 →
  (if nb then mtls_wrap_nb (sy_v s) (Some id) plain sv vf else mtls_wrap turns (sy_v s) (Some id) plain sv vf) ≠ Fault ∧
  ∀ v' r, (if nb then mtls_wrap_nb (sy_v s) (Some id) plain sv vf else mtls_wrap turns (sy_v s) (Some id) plain sv vf) = Ok (v', r) →
    sys_inv al (N + 1) (mk_sys v' (sy_owned s) (sy_streams s ++ match r with inl _ => [] | inr t => [t] end)) L.
Proof.
  intros Hs Hi Hp HN. pose proof Hs as [Hw Hl Hd Hpl Ha].
  assert (∀ v', world_ok (al := al) (N + 1) v' (sys_cnt s L) → sys_inv al (N + 1) (mk_sys v' (sy_owned s) (sy_streams s ++ [])) L) as Hsame
    by (intros v' Hv; rewrite app_nil_r; by split).
  unfold mtls_wrap, mtls_wrap_nb. destruct (make_ok (ok := ok) N (sy_v s) (sys_cnt s L) (Some id) plain sv vf Hw) as (v1 & m & -> & Hm);
    [intros ? [= <-]; by apply held_owned|done|done|]. cbn [mbind exec_bind]. destruct m as [t|].
  - destruct Hm as ([= Hid] & Hv1 & Hpt & Hla). assert (list_ok (al := al) t) as Hlt by (intros a; by rewrite Hla).
    destruct nb; [split; [done|]; intros v' r [= <- <-]; apply add_stream; [done|done|by rewrite Hpt|done]|].
    assert (0 < bump (mt_ctx t) 1 (sys_cnt s L) (mt_ctx t)) as Hc.
    { unfold bump. rewrite decide_True by done. pose proof (held_owned s L id Hi). rewrite <- Hid. lia. }
    destruct (wrap_loop_ok (ok := ok) (N + 1) turns v1 _ t Hv1 Hc ltac:(by rewrite Hpt) HN) as [H1 H2]. split; [done|].
    intros v' r E. specialize (H2 _ _ E). destruct r as [p|t'].
    + apply Hsame. eapply world_ok_ext; [exact H2|]. intros j. by rewrite bump_back.
    + destruct H2 as [H2 (T1 & T2 & T3 & T4 & T5)]. apply add_stream; [done|by rewrite T1|done|auto].
  - destruct nb; (split; [done|]; intros v' r [= <- <-]; by apply Hsame).
Qed.

Lemma sys_step_ok al N turns (s : mtls_sys W P) L o : sys_inv al N s L → op_ok o → op_allowed s o = true → 1 ≤ N → N + 1 < 2 ^ 31 →
  sys_step turns s o ≠ Fault ∧ ∀ s', sys_step turns s o = Ok s' → ∃ L' al', sys_inv al' (N + 1) s' L'.
Proof.
  intros Hs Ho Hal H1 HN. assert (∀ s L al, sys_inv al N s L → ∃ L' al', sys_inv al' (N + 1) s L') as Hup.
  { intros u L0 al0 [Hw Hl Hd Hp Ha]. exists L0, al0. split; try done. eapply world_ok_mono; [done|lia]. }
  assert (∀ r : exec (mtls_sys W P), (∃ s' L' al', r = Ok s' ∧ sys_inv al' N s' L') → r ≠ Fault ∧ ∀ s', r = Ok s' → ∃ L' al', sys_inv al' (N + 1) s' L') as Hdone.
  { intros r (s1 & L1 & al1 & -> & Hs1). split; [done|]. intros s' [= <-]. by eapply Hup. }
  pose proof (si_world _ _ _ _ Hs) as Hw.
  assert (∀ i t, sy_streams s !! i = Some t → ok (mt_plain t)) as Hpl by (intros i t Ht; by apply (Forall_lookup_1 _ _ _ _ (si_plain _ _ _ _ Hs) Ht)).
  assert (∀ i t, sy_streams s !! i = Some t → list_ok (al := al) t) as Hll by (intros i t Ht; by apply (Forall_lookup_1 _ _ _ _ (si_alpn _ _ _ _ Hs) Ht)).
  assert (∀ i f, (∀ t, sy_streams s !! i = Some t → ∃ v' t', f t = Ok (v', t') ∧ world_ok (al := al) N v' (sys_cnt s L) ∧ same_hold (ok := ok) (al := al) t t') →
    ∃ s' L' al', on_stream s i f = Ok s' ∧ sys_inv al' N s' L') as Hon.
  { intros i f Hf. destruct (on_stream_ok _ _ _ _ _ _ Hs Hf) as (s' & E & Hi). by exists s', L, al. }
  assert (∀ call, (∃ v' r, call = Ok (v', r) ∧ created (al := al) N (sys_cnt s L) v' r) → ∃ s' L' al', own_new s call = Ok s' ∧ sys_inv al' N s' L') as Hnew.
  { intros call Hcall. destruct (own_new_ok _ _ _ _ _ Hs Hcall) as (s' & L' & ? & ?). by exists s', L', al. }
  destruct o as [host| |cert key|id|id protos|nb id plain sv vf|i n|i src|i|i|i|i]; cbn [sys_step].
  - apply Hdone, Hnew. apply client_ctx_ok; [done|lia].
  - apply Hdone, Hnew. apply server_ctx_ok; [done|lia].
  - apply Hdone, Hnew. apply server_ctx_files_ok; [done|lia].
  - apply Hdone. destruct (decide _) as [Hi|_]; [|by eexists _, L, al].
    destruct (free_ctx_ok al N s L id Hs Hi ltac:(lia)) as (v' & -> & Hv). cbn [mbind exec_bind]. by eexists _, L, al.
  - apply Hdone. destruct (decide _) as [Hi|_]; [|by eexists _, L, al]. cbn [op_allowed] in Hal. apply andb_prop in Hal as [Hp Hno].
    destruct (set_alpn_ok al N _ _ id protos Hw (held_owned s L id Hi)) as (v' & r & al' & -> & Hv & Hsame); [by destruct protos|].
    cbn [mbind exec_bind]. eexists _, L, al'. split; [done|]. destruct Hs as [Hw0 Hl Hd Hp0 Ha]. split; try done. cbn.
    rewrite List.Forall_forall in *. rewrite forallb_forall in Hno. intros t Ht a Hta. pose proof (Hno t Ht) as Hn.
    apply bool_decide_eq_true in Hn as [Hn|Hn]; [rewrite Hsame by done; by apply Ha|congruence].
  - destruct (decide _) as [Hi|_]; [|apply Hdone; by eexists _, L, al]. destruct (wrap_ok al N turns s L nb id plain sv vf Hs Hi Ho HN) as [Hf Hr].
    destruct (if nb then _ else _) as [[v' r]| |]; cbn [mbind exec_bind]; [|done|done]. split; [done|]. intros s' [= <-]. exists L, al. by apply Hr.
  - apply Hdone, Hon. intros t Ht. destruct (read_ok (ok := ok) N _ _ t n Hw (held_stream _ L _ _ Ht) (Hpl i t Ht)) as (v' & t' & r & d & -> & Hv).
    cbn [mbind exec_bind]. by eexists _, _.
  - apply Hdone, Hon. intros t Ht. destruct (write_ok (ok := ok) N _ _ t src Hw (held_stream _ L _ _ Ht) (Hpl i t Ht)) as (v' & t' & r & -> & Hv).
    cbn [mbind exec_bind]. by eexists _, _.
  - apply Hdone, Hon. intros t Ht. destruct (mstep_ok (ok := ok) N _ _ t Hw (held_stream _ L _ _ Ht) (Hpl i t Ht)) as (v' & t' & r & -> & Hv).
    cbn [mbind exec_bind]. by eexists _, _.
  - apply Hdone, Hon. intros t Ht.
    destruct (alpn_ok (ok := ok) N _ _ t Hw (held_stream _ L _ _ Ht) (Hpl i t Ht) (Hll i t Ht)) as (t' & name & -> & Hh).
    cbn [mbind exec_bind]. by eexists _, _.
  - apply Hdone, Hon. intros t Ht. destruct (mclose_ok (ok := ok) N _ _ t Hw (held_stream _ L _ _ Ht) (Hpl i t Ht)) as (v' & t' & r & -> & Hv).
    cbn [mbind exec_bind]. by eexists _, _.
  - apply Hdone. destruct (sy_streams s !! i) as [t|] eqn:Ei; [|by eexists _, L, al].
    destruct (destroy_ok (ok := ok) N _ _ t Hw (held_stream _ L _ _ Ei) (Hpl i t Ei) ltac:(lia)) as (v' & p & -> & Hv). cbn [mbind exec_bind].
    eexists _, L, al. split; [done|]. destruct Hs as [_ Hl Hd Hp Ha]. split; cbn; [|done|done|by apply Forall_delete|by apply Forall_delete].
    eapply world_ok_ext; [exact Hv|]. intros j. unfold sys_cnt, held. cbn. rewrite (holders_delete _ _ _ _ Ei). unfold bump. lia.
Qed.

Lemma sys_run_ok turns ops al N (s : mtls_sys W P) L : sys_inv al N s L → Forall op_ok ops → disciplined turns s ops = true →
  1 ≤ N → N + zlen ops < 2 ^ 31 →
  sys_run turns s ops ≠ Fault ∧ ∀ s', sys_run turns s ops = Ok s' → ∃ L' al', sys_inv al' (N + zlen ops) s' L'.
Proof.
  revert al N s L. induction ops as [|o ops IH]; intros al N s L Hs Ho Hd H1 HN; cbn [sys_run length].
  - split; [done|]. intros s' [= <-]. exists L, al. by rewrite Z.add_0_r.
  - apply Forall_cons_1 in Ho as [Ho Hos]. cbn [disciplined] in Hd. apply andb_prop in Hd as [Hal Hd].
    cbn [length] in HN. destruct (sys_step_ok al N turns s L o Hs Ho Hal H1 ltac:(lia)) as [Hf Hr].
    destruct (sys_step turns s o) as [s1| |]; cbn [mbind exec_bind]; [|done|done]. destruct (Hr s1 eq_refl) as (L1 & al1 & Hs1).
    replace (N + Z.of_nat (S (length ops))) with (N + 1 + zlen ops) by lia. apply (IH al1 _ _ L1); [done|done|done|lia|lia].
Qed.

Lemma sys_start_inv (w : W) : sys_inv (λ _, None) 1 (sys_start w) ∅.
Proof.
  split; [|set_solver|set_solver|constructor|constructor]. assert (∀ id, sys_cnt (sys_start w : mtls_sys W P) ∅ id = 0) as E.
  { intros id. unfold sys_cnt, held. cbn. by rewrite !decide_False by set_solver. }
  split; cbn; try done; intros id; rewrite E; lia.
Qed.
End Lifetime.

(** C22: With the mbedTLS backend, let a program create contexts, set their
    ALPN names, wrap, use and destroy streams, ask for their negotiated name and
    free the contexts it owns, in any order - a context before its streams, say
    - except that it does not set a context's names to none, and does not
    replace them while a stream of the context has negotiated one of them
    ([disciplined]; both calls are legal and both leave a dangling pointer,
    [cleared_alpn_dangles] and [replaced_alpn_dangles]). Then no call uses an
    object that was freed: a context and the names its configuration points to
    are there as long as its owner or a stream holds it, so is the list a
    stream's negotiated name is in, the counter of a context is the number of
    its holders, and it is gone with the last of them. *)
Theorem mtls_ctx_lifetime {W P} {CR : Carrier W P} {ok : P → Prop} (CO : CarrierOk W P ok) {MB : Mbedtls} (MBO : MbedtlsOk)
    {AL : Allocator} (w : W) turns (ops : list (mtls_op P)) (Hops : Forall (op_ok (ok := ok)) ops)
    (Hdisc : disciplined turns (sys_start w) ops = true) (Hlen : zlen ops < 2 ^ 31 - 1) :
  sys_run turns (sys_start w) ops ≠ Fault ∧
  ∀ s, sys_run turns (sys_start w) ops = Ok s →
    (∀ id, 0 < held s id → is_Some (mw_ctxs (sy_v s) !! id)) ∧
    (∀ id x, mw_ctxs (sy_v s) !! id = Some x →
      (∀ a, mc_conf_alpn x = Some a → is_Some (mw_lists (sy_v s) !! a)) ∧
      (ctr_drbg_seed id = 0 → mc_refs x = held s id ∧ 0 < held s id)) ∧
    (∀ t a, t ∈ sy_streams s → mt_alpn_list t = Some a → is_Some (mw_lists (sy_v s) !! a)).
Proof.
  destruct (sys_run_ok turns ops (λ _, None) 1 (sys_start w) ∅ (sys_start_inv w) Hops Hdisc) as [Hf Hr]; [lia|lia|]. split; [done|].
  intros s E. destruct (Hr s E) as (L & al & [Hw Hl Hd Hp Hal]). split; [|split].
  - intros id Hh. apply (wo_live _ _ _ Hw). unfold sys_cnt. destruct (decide _); lia.
  - intros id x Hx. split; [intros a Ha; rewrite (wo_conf _ _ _ Hw id x Hx) in Ha; by destruct (wo_list _ _ _ Hw id x a Hx Ha)|].
    intros Hs. destruct (wo_refs _ _ _ Hw id x Hx) as [H1 H2]. unfold sys_cnt in *.
    rewrite decide_False, Z.add_0_r in H1, H2; [done|intros Hin%Hl; done..].
  - intros t a Ht Hta. apply list_elem_of_lookup in Ht as [i Hi]. pose proof (Forall_lookup_1 _ _ _ _ Hal Hi a Hta) as Hin.
    destruct (wo_live _ _ _ Hw _ (held_stream _ L _ _ Hi)) as [x Hx].
    destruct (wo_list _ _ _ Hw _ x a Hx) as [Hlive _]; [by rewrite (wo_al _ _ _ Hw _ _ Hx)|done].
Qed.

(** ** Verification of the peer *)

Section Verified.
Context {W P : Type} {CR : Carrier W P} {MB : Mbedtls} {AL : Allocator}.

Lemma call_flags {A} v t (call : mssl → option (list bytes) → bio_prog (mssl * A)) (v' : mworld W) (t' : mtls_stream P) tr a :
  call_ssl v t call = Ok (v', t', tr, a) → mt_verify t' = mt_verify t ∧ mt_owned t' = mt_owned t ∧ mt_hs_done t' = mt_hs_done t.
Proof.
  unfold call_ssl. destruct (get_ctx _ _) as [c| |]; cbn [mbind exec_bind]; try done. destruct (conf_names _ _) as [names| |]; cbn [mbind exec_bind]; try done.
  destruct (run_mbio _ _) as [[b [ssl x]]| |]; cbn [mbind exec_bind]; try done. by intros [= <- <- <- <-].
Qed.

Definition mverified (t : mtls_stream P) : Prop := mt_hs_done t = true ∧ ssl_get_verify_result (mt_ssl t) = 0.

Lemma step_verified (v : mworld W) (t : mtls_stream P) v' t' r : mtls_handshake_step v t = Ok (v', t', r) →
  mt_verify t' = mt_verify t ∧ mt_owned t' = mt_owned t ∧
  (r = ZCIO_OK → mt_verify t = true → mt_hs_done t = false → mverified t') ∧ (r ≠ ZCIO_OK → mt_hs_done t' = mt_hs_done t).
Proof.
  unfold mtls_handshake_step. destruct (mt_hs_done t) eqn:Ed; [by intros [= <- <- <-]|].
  destruct (call_ssl v t ssl_handshake) as [[[[v1 t1] tr] a]| |] eqn:E; cbn [mbind exec_bind]; try done.
  apply call_flags in E as (Hv & Ho & Hd). destruct (a =? 0).
  - unfold mtls_post_handshake_check. destruct (mt_verify t1) eqn:Ev; cbn [negb].
    + destruct (Z.eqb_spec (ssl_get_verify_result (mt_ssl t1)) 0) as [Hz|Hz]; cbn [negb Z.eqb ZCIO_OK ZCIO_ERR_TLS];
        intros [= <- <- <-]; cbn; split; [congruence|split; [done|split; [done|done]]|congruence|split; [done|split; [done|congruence]]].
    + cbn. intros [= <- <- <-]. cbn. split; [congruence|]. split; [done|]. split; [intros _ Hc; congruence|done].
  - destruct (mwants a); intros [= <- <- <-]; (split; [done|]; split; [done|]; split; [|congruence]);
      [unfold transient_or_block; destruct (negb (tr =? 0)) eqn:Et; intros Hr; [rewrite Hr in Et; done|done]|done].
Qed.

(** A stream wrapped for a verifying client is verified, and so is one of
    [mtls_wrap_nb] once its handshake pump answered [ZCIO_OK]. *)
Theorem mtls_wrap_verified turns (v : mworld W) c (plain : P) :
  (∀ v' t, mtls_wrap turns v c plain false true = Ok (v', inr t) → mverified t ∧ mt_owned t = true) ∧
  (∀ v' t v1 v2 s, mtls_wrap_nb v c plain false true = Ok (v', inr t) →
    mtls_handshake v1 (Some (Overlay t)) = Ok (v2, s, ZCIO_OK) → ∃ t', s = Some (Overlay t') ∧ mverified t').
Proof.
  assert (∀ v' t, mtls_make_stream v c plain false true = Ok (v', Some t) → mt_verify t = true ∧ mt_hs_done t = false ∧ mt_owned t = true) as Hmk.
  { intros v' t. unfold mtls_make_stream. destruct c as [id|]; [|done]. destruct (get_ctx v id) as [x| |]; cbn [mbind exec_bind]; try done.
    destruct (negb _); [done|]. destruct (negb _); [done|]. destruct (ssl_setup _) as [ssl ret]. destruct (negb _); [done|].
    destruct (match host_given _ with Some _ => _ | None => _ end) as [ssl' ret']. destruct (negb _); [done|].
    destruct (ctx_ref id v) as [v1| |]; cbn [mbind exec_bind]; try done. destruct (alloc_ok 24); [by intros [= <- <-]|].
    by destruct (ctx_unref _ _). }
  split.
  - intros v' t. unfold mtls_wrap. destruct (mtls_make_stream v c plain false true) as [[v1 [t1|]]| |] eqn:E; cbn [mbind exec_bind]; try done.
    destruct (Hmk _ _ eq_refl) as (Hv & Hd & Ho). clear E Hmk. revert v1 t1 Hv Hd Ho. induction turns as [|n IH]; intros v1 t1 Hv Hd Ho; cbn [mtls_wrap_loop]; [done|].
    destruct (mtls_handshake_step v1 t1) as [[[v2 t2] r]| |] eqn:Es; cbn [mbind exec_bind]; try done.
    apply step_verified in Es as (S1 & S2 & S3 & S4). destruct (Z.eqb_spec r ZCIO_OK) as [Hr|Hr].
    + intros [= _ <-]. split; [by apply S3|congruence].
    + destruct (r =? ZCIO_ERR_TIMEOUT); [apply IH; [congruence|rewrite (S4 Hr); done|congruence]|].
      by destruct (mtls_strm_destroy v2 _) as [[v3 p]| |].
  - intros v' t v1 v2 s. unfold mtls_wrap_nb. destruct (mtls_make_stream v c plain false true) as [[v0 [t1|]]| |] eqn:E; cbn [mbind exec_bind]; try done.
    intros [= <- <-]. destruct (Hmk _ _ eq_refl) as (Hv & Hd & Ho). unfold mtls_handshake.
    destruct (mtls_handshake_step v1 t1) as [[[v3 t3] r]| |] eqn:Es; cbn [mbind exec_bind]; try done. intros [= <- <- ->].
    apply step_verified in Es as (_ & _ & S3 & _). exists t3. split; [done|]. by apply S3.
Qed.
End Verified.

(** ** A concrete library

    A protocol of one byte per handshake and no encryption, whose peers verify
    with result [vr] and pick the first name when there are any. *)
Definition toy_ssl : Type := bool * option nat.

Definition toy_done (names : option (list bytes)) : toy_ssl := (true, match names with Some (_ :: _) => Some O | _ => None end).

Definition toy_recv (s : toy_ssl) (n : Z) : bio_prog (toy_ssl * (Z * bytes)) :=
  BioRead n (λ r d _, BioDone (s, if 0 <=? r then (r, d) else
    (if r =? MBEDTLS_ERR_SSL_WANT_READ then r else MBEDTLS_ERR_SSL_CONN_EOF, []))).

Definition toy_mbed (vr : Z) : Mbedtls := {|
  mssl := toy_ssl; mconf := unit; mcrt := unit; mpk := unit; mwrite := unit;
  sizeof_tls_ctx := 1024; sizeof_tls_stream := 512;
  getenv := λ _, None;
  ctr_drbg_seed := λ _, 0;
  ssl_config_init := tt; x509_crt_init := tt; pk_init := tt;
  x509_crt_parse_file := λ c _, (c, 0); x509_crt_parse_path := λ c _, (c, 0); x509_crt_parse_der := λ c _, (c, 0);
  crt_version := λ _, 3;
  pk_setup := λ k, (k, 0); ecp_gen_key := λ k, (k, 0); pk_parse_keyfile := λ k _, (k, 0);
  x509write_init := λ _ _, tt; x509write_subject_name := λ w _, (w, 0); x509write_issuer_name := λ w _, (w, 0);
  x509write_md_sha256 := λ w, w; x509write_serial := λ w _, w; x509write_validity := λ w _ _, (w, 0);
  x509write_san := λ w _, (w, 0); x509write_der := λ _ n, if 1 <=? n then inr [48] else inl (-1);
  ssl_config_defaults := λ c _, (c, 0); ssl_conf_authmode := λ c _, c; ssl_conf_ca_chain := λ c _, c;
  ssl_conf_own_cert := λ c _ _, (c, 0); ssl_conf_alpn_protocols := λ _ _, 0;
  ssl_setup := λ _, ((false, None), 0); ssl_set_hostname := λ s _, (s, 0);
  ssl_read := λ s names n, if s.1 then toy_recv s n else
    BioRead 1 (λ r _ _, if 0 <? r then toy_recv (toy_done names) n else BioDone (s, (MBEDTLS_ERR_SSL_CONN_EOF, [])));
  ssl_write := λ s _ src, BioWrite src (λ r _, BioDone (s, r));
  ssl_handshake := λ s names, BioRead 1 (λ r _ _, if 0 <? r then BioDone (toy_done names, 0) else BioDone (s, MBEDTLS_ERR_SSL_CONN_EOF));
  ssl_close_notify := λ s _, BioDone (s, 0);
  ssl_get_verify_result := λ _, vr;
  ssl_get_alpn_protocol := snd;
  tickets_left := λ _, O;
|}.

#[local] Instance toy_mbed_ok vr : MbedtlsOk (H := toy_mbed vr).
Proof.
  split.
  - intros w n der. cbn. destruct (Z.leb_spec 1 n); [intros [= <-]; cbn; lia|done].
  - assert (∀ s n, prog_all (λ x : toy_ssl * (Z * bytes), x.2.1 = MBEDTLS_ERR_SSL_RECEIVED_NEW_SESSION_TICKET → False) (toy_recv s n)) as Hr.
    { intros s n r d _. cbn. destruct (Z.leb_spec 0 r); cbn; [unfold MBEDTLS_ERR_SSL_RECEIVED_NEW_SESSION_TICKET; lia|].
      by destruct (Z.eqb_spec r MBEDTLS_ERR_SSL_WANT_READ) as [->|]. }
    intros s names n. cbn. destruct (s.1); [|intros r d _; destruct (0 <? r)]; cbn; try done.
    + intros r d _ E. exfalso. by apply (Hr s n r d false).
    + intros r' d' _ E. exfalso. by apply (Hr (toy_done names) n r' d' false).
Qed.

(** A socket that delivers a handshake byte and then data. *)
Definition toy_net : ex_os := mk_os 0 2 true [([1], mk_sin 0 0); ([104; 105], mk_sin 0 0)] [] 0 [5] [].

(** The context is freed while its stream is in use, and goes with the stream. *)
Definition toy_program : list (mtls_op tcp_sockctx) :=
  [OpClientCtx (Some (B "example.org")); OpSetAlpn 0 [Some (B "h2")]; OpWrap false 0 (mk_tcp 5 100 false false) false true;
   OpCtxFree 0; OpRead 0 10; OpAlpn 0; OpFree 0].

Lemma mtls_ctx_lifetime_witness :
  let M := toy_mbed 0 in
  let A := always_alloc in
  match sys_run 5 (sys_start toy_net) (take 6 toy_program) with
  | Ok s => held s 0 = 1 ∧ mw_ctxs (sy_v s) !! 0%nat ≠ None ∧ mt_alpn <$> sy_streams s = [B "h2"]
  | _ => False
  end ∧
  match sys_run 5 (sys_start toy_net) toy_program with Ok s => mw_ctxs (sy_v s) !! 0%nat = None | _ => False end ∧
  sys_run 5 (sys_start toy_net) toy_program ≠ Fault ∧
  ∀ s, sys_run 5 (sys_start toy_net) toy_program = Ok s →
    (∀ id, 0 < held s id → is_Some (mw_ctxs (sy_v s) !! id)) ∧
    (∀ id x, mw_ctxs (sy_v s) !! id = Some x →
      (∀ a, mc_conf_alpn x = Some a → is_Some (mw_lists (sy_v s) !! a)) ∧
      (ctr_drbg_seed id = 0 → mc_refs x = held s id ∧ 0 < held s id)) ∧
    (∀ t a, t ∈ sy_streams s → mt_alpn_list t = Some a → is_Some (mw_lists (sy_v s) !! a)).
Proof.
  intros M A. split; [vm_compute; done|]. split; [vm_compute; done|].
  apply (mtls_ctx_lifetime (tcp_carrier_ok (clk := os_clk) (late := 1)) (toy_mbed_ok 0) toy_net 5 toy_program).
  - unfold toy_program. do 7 (apply List.Forall_cons; [first [exact I | right; cbn; unfold FD_SETSIZE; lia]|]). apply List.Forall_nil.
  - vm_compute. done.
  - cbn. lia.
Defined.

(** A verifying client that reads from a stream of [mtls_wrap_nb] before its
    handshake is pumped gets the data of a peer whose verification failed. *)
Example nb_read_unverified :
  let M := toy_mbed 1 in
  let A := always_alloc in
  match sys_run 5 (sys_start toy_net) [OpClientCtx (Some (B "example.org")); OpWrap true 0 (mk_tcp 5 100 false false) false true] with
  | Ok s => match sy_streams s with
      | t :: _ => mt_verify t = true ∧ match mtls_strm_read (sy_v s) t 10 with Ok (_, _, r, d) => r = 2 ∧ d = [104; 105] | _ => False end
      | [] => False end
  | _ => False
  end.
Proof. vm_compute. done. Qed.

(** Clearing the ALPN list of a context frees the list its configuration still
    points to. *)
Example cleared_alpn_dangles :
  let M := toy_mbed 0 in
  let A := always_alloc in
  match sys_run 5 (sys_start toy_net) [OpClientCtx None; OpSetAlpn 0 [Some (B "h2")]] with
  | Ok s =>
      match mtls_ctx_set_alpn (sy_v s) (Some 0%nat) (Some []) with
      | Ok (v, c, r) => r = ZCIO_OK ∧ mtls_wrap 5 v c (mk_tcp 5 100 false false) false false = Fault
      | _ => False end
  | _ => False
  end.
Proof. vm_compute. done. Qed.

(** Setting a context's names again frees the list the negotiated name of a
    stream wrapped before points into: asking for it, the server that holds
    the stream reads freed memory. *)
Example replaced_alpn_dangles :
  let M := toy_mbed 0 in
  let A := always_alloc in
  let ops := [OpServerCtx; OpSetAlpn 0 [Some (B "h2")]; OpWrap false 0 (mk_tcp 5 100 false false) true false;
              OpSetAlpn 0 [Some (B "http/1.1")]] in
  match sys_run 5 (sys_start toy_net) ops with
  | Ok s => match sys_step 5 s (OpAlpn 0) with Fault => True | _ => False end
  | _ => False
  end.
Proof. vm_compute. done. Qed.

(** A context whose generator cannot be seeded is not given back. *)
Example seed_failure_leaks `{Mbedtls} : let A := always_alloc in
  ctr_drbg_seed 0 ≠ 0 → match mtls_client_ctx (mw_start toy_net) None with Ok (v, c) => c = None ∧ is_Some (mw_ctxs v !! 0%nat) | _ => False end.
Proof.
  intros A Hs. unfold mtls_client_ctx, ctx_alloc. cbn [zcio_xcalloc_ok alloc_ok always_alloc A negb mw_start mw_next].
  rewrite (proj2 (Z.eqb_neq _ _)) by done. cbn. by eexists.
Qed.
